(* ===== verification/_CoqProject ===== *)
-Q . S2P
Prelude.v
Bytes.v
Protocol.v
ControlMessages.v
Address.v
LeaseManager.v
LeaseService.v
Traffic.v
SessionController.v
ClientSession.v
TunnelRouter.v
OutboundQueue.v
NetworkTransaction.v
BrokerProtocol.v
ServerMetrics.v
AsyncIo.v
FrameWriter.v
TunnelSession.v
SessionFrame.v
TunnelServer.v
ServerSystem.v
TunnelClient.v
ServerConfig.v
ServerMain.v
LeasePolicy.v
SessionPair.v
KeyFiles.v
ClientConfig.v
TlsContext.v
LinuxTunDevice.v
WindowsKillSwitch.v
WindowsNetworkBackend.v
ClientRuntime.v
RuntimeInvariant.v
ClientCore.v
PrototypeServer.v
