(* ===== verification/Prelude.v ===== *)
(** * Personal-VPN: verification library

    A development about the programs of this repository: the Linux server
    [personal-vpn-server] and the client library that the Windows program is
    built on, everything under src/ in the directories protocol/, core/, broker/,
    server/ and client/; the window that controls the client; and the server of
    the earlier prototype under vpn_base/.  The definitions are translations of
    the C++ code, with its names; they compute, and the examples and witnesses
    run them.

    ** The program

    The client opens a TLS connection to the server.  Over it both sides send
    frames (src/protocol/protocol.cpp): a handshake, in which the server gives
    the client an address from its pool (src/core/lease_manager.cpp), then IP
    packets in both directions, pings, and an error or close frame.  What a
    frame means to a session is decided by two state machines, one for each end
    (src/core/session_controller.cpp, src/core/client_session_controller.cpp);
    around each of them an object reads and writes the stream
    (src/server/tls_tunnel_session.cpp, src/client/tls_tunnel_client.cpp).

    The server (src/server/tls_tunnel_server.cpp) accepts connections, owns the
    sessions, and moves packets between them and its TUN device
    (src/server/linux_tun_device.cpp) by a router
    (src/core/tunnel_router.cpp).  The client's runtime
    (src/client/client_runtime.cpp) connects, reconnects, configures the network
    as a transaction (src/core/client_network_transaction.cpp) on the host's
    backend (src/client/windows_network_backend.cpp), and in full-tunnel mode
    puts up the kill switch (src/client/windows_kill_switch.cpp).

    The prototype server (vpn_base/server/src) has no frames and no leases: a
    client sends the address of its interface after the TLS handshake, and the
    server copies packets between the TUN device and the connections.

    ** The files

    Foundations.  Prelude (this file): machine integers, the errors, the monad
    [M] of state and exceptions, the tactics.  Bytes: big-endian integers in byte
    vectors.  AsyncIo: what a stream of boost::asio allows, and the weakest
    preconditions in which handlers are specified.  FrameWriter: a queue and the
    stream it is written to.  Traffic: packet headers and sequence numbers.

    The wire.  Protocol: protocol.cpp.  ControlMessages: control_messages.cpp.
    BrokerProtocol: broker_protocol.cpp.  OutboundQueue:
    outbound_frame_queue.cpp.

    The server.  Address and LeaseManager: lease_manager.cpp; LeaseService: what
    a session relies on of a lease pool, as a class, with the manager as its
    instance; LeasePolicy: when a pool satisfies a client's policy.
    SessionController: session_controller.cpp.  TunnelSession and SessionFrame:
    tls_tunnel_session.cpp.  TunnelRouter: tunnel_router.cpp.  TunnelServer:
    tls_tunnel_server.cpp, which implements the interface [SessionHost] of the
    sessions and [TunHost] of the device.  ServerSystem: the server and all its
    sessions running together.  LinuxTunDevice: linux_tun_device.cpp.
    ServerMetrics: metrics_exporter.cpp and server_metrics.hpp.  ServerConfig:
    server_config.cpp, and what main.cpp builds from it.  ServerMain: the rest of
    main.cpp.

    The client.  ClientSession: client_session_controller.cpp.  SessionPair: both
    session controllers on the two ends of one connection.  TunnelClient:
    tls_tunnel_client.cpp.  NetworkTransaction: client_network_transaction.cpp
    over the interface [ClientNetworkBackend].  WindowsKillSwitch:
    windows_kill_switch.cpp over the Windows Filtering Platform.
    WindowsNetworkBackend: windows_network_backend.cpp, an instance of that
    interface, over Wintun and the IP Helper.  ClientConfig: client_config.cpp.
    ClientRuntime and RuntimeInvariant: client_runtime.cpp, which implements the
    interface [ClientHost] of the tunnel.  ClientCore: the object through which
    the window controls a runtime, vpn_client_ui/vpn_client_core.cpp, and the
    actions of the window, vpn_client_ui/ui_main.cpp.

    Both.  KeyFiles: credential_security.cpp and the key checks of the two
    tls_security.cpp files.  TlsContext: the rest of those two files, over
    OpenSSL.

    The prototype.  PrototypeServer: Server.cpp, Session.cpp and
    IpPoolManager.cpp of vpn_base/server/src, over [inet_pton] and [inet_ntop].

    ** How the code is represented

    An object is a record with a field for each member that matters; a method is
    a computation [M S A] on the state it can reach, which returns a value or
    throws one of the exceptions of [exn].  Constructors and functions that can
    only throw are of type [outcome].  A [std::vector] of bytes is a list of
    integers below 256, arithmetic that can wrap is written with [u8] to [u64].
    Code that runs under a mutex is one step.  Handlers run by boost::asio are
    computations that record what they start in a [Stream] or post to a list of
    tasks; an inductive relation ([step] of ServerSystem, [client_step],
    [pstep], [core_step] and the like) lets the environment choose which
    completion comes next and with what result, and the theorems are about every
    state that can be reached.  Calls from one component to another go through classes
    ([LeaseService], [SessionHost], [ClientHost], [ClientNetworkBackend],
    [PacketDevice], [OpenSsl], [Wfp], [WindowsHost], ...); a class of laws says
    what the caller relies on, and where the other side is code of the
    repository its laws are proved.  What is not code of the repository (the IP
    text functions of boost, the JSON tree, the file system, OpenSSL, the Windows
    calls) stays a parameter, with an executable instance for the witnesses.

    ** What is shown

    - The wire: every codec is exact in both directions, and the incremental
      decoder delivers the frames of the whole stream however it is split, up to
      the read that fails
      ([decoder_roundtrip], [decoder_sound], [decoder_chunking],
      [control_codecs_exact], [broker_requests_exact]).
    - Leases: no two identities share an address, the manager refines a map of
      unexpired leases, a stale generation is dead, the counters add up.
    - Sessions: exactly the packets that should pass do; a lease is held exactly
      while the session is established; each refusal is told under the number
      of its cause ([session_error_contract]); two ends of the program agree on
      the addresses and the MTU, lose no packet in between, and the only errors
      between them are the report that the pool has no lease (any more) and the
      answer of a client that still waits for one ([connected_ends_agree]).
    - Transport: no handler throws or misuses asio, what is written is a sequence
      of whole numbered frames, an object that is not closed always waits for
      something that moves it on, and it closes once and completely.
    - The server: routes are the leases of the open sessions, sessions are
      accounted for, a stopped server drains, and its process ends.
    - The client's network: activation is all or nothing for every backend with
      the laws, and for the Windows backend; the kill switch fails closed and is
      changed as a whole; the runtime never stalls, and leaves the network as it
      was, but for what enabling the kill switch did to it ([home]).
    - The window: it follows the runtime through every interleaving of the two
      threads ([window_follows_runtime]).
    - Configuration and credentials: what is accepted satisfies every constraint,
      keys are guarded, TLS contexts have every restriction.
    - The prototype: packets reach only sessions that have sent their destination
      as their address ([prototype_serves_claims]); its examples run what goes
      wrong when two send the same, or a session ends at the wrong time.

    ** Fuel and bounds

    Loops that are not structural take fuel, and lemmas show that it suffices:
    [decode_loop] is given one more than the bytes of the buffer and consumes at
    least a header an iteration; [acquire_loop] as many as the pool has
    addresses; [read_client_key] any fuel above its limit of 1 MiB ([key_fuel]),
    since each read returns at least a byte or is the last; the enumeration of
    filters more than the pages there are; [drain] two for each posted task;
    [pool_fuel] one more than the addresses of the range.  An
    operation that can run out returns an option, and the theorems about it say
    that it does not.  Generations and statistics that only grow are integers
    without bound where a comment says so.

    ** Not modelled

    Time passes only as the [now] an event carries; memory is never exhausted;
    threads are interleaved at handlers and at the sections that a mutex guards,
    not within them.  Log lines and display names are left out where nothing
    depends on them.  Drawing (Dear ImGui, Direct3D and the window procedure of
    vpn_client_ui/main.cpp), the client of the earlier prototype under vpn_base/
    and the set-up of the host by its server (shell commands), which the build
    of src/ does not use, the tests, the fuzz target, the benchmark and the
    packaging scripts have no model. *)

From Stdlib Require Export ZArith Lia.
From stdpp Require Export base tactics list gmap strings fin_maps option pretty.

#[global] Set Default Proof Using "Type".
#[global] Open Scope Z_scope.

(** ** Vectors and machine integers *)

(** [std::uint8_t] is a [Z] in [0, 256); a [std::vector<std::uint8_t>] is a
    list of them.  Sizes ([std::size_t]) are [Z]. *)
Abbreviation bytes := (list Z).

Definition u8 (x : Z) : Z := x mod 2 ^ 8.
Definition u16 (x : Z) : Z := x mod 2 ^ 16.
Definition u32 (x : Z) : Z := x mod 2 ^ 32.
Definition u64 (x : Z) : Z := x mod 2 ^ 64.

Definition in_u8 (x : Z) : Prop := 0 <= x < 2 ^ 8.
Definition in_u16 (x : Z) : Prop := 0 <= x < 2 ^ 16.
Definition in_u32 (x : Z) : Prop := 0 <= x < 2 ^ 32.
Definition in_u64 (x : Z) : Prop := 0 <= x < 2 ^ 64.

Definition is_bytes (l : bytes) : Prop := Forall in_u8 l.

#[export] Instance in_u8_dec x : Decision (in_u8 x).
Proof. unfold in_u8. apply _. Defined.
#[export] Instance is_bytes_dec l : Decision (is_bytes l).
Proof. unfold is_bytes. apply _. Defined.

(** [container.size()] *)
Definition zlen {A} (l : list A) : Z := Z.of_nat (length l).

(** [data[i]]; every use in the development is preceded, as in the code, by
    a test that bounds [i]. *)
Definition at_ (l : bytes) (i : Z) : Z := nth (Z.to_nat i) l 0.

(** [std::copy_n(l.begin() + i, n, ...)] *)
Definition slice (l : bytes) (i n : Z) : bytes := take (Z.to_nat n) (drop (Z.to_nat i) l).

(** ** Exceptions *)

(** src/protocol/include/personal_vpn/protocol.hpp: [ProtocolErrorCode]. *)
Inductive ProtocolErrorCode :=
| InvalidMagic
| UnsupportedVersion
| UnknownMessageType
| UnsupportedFlags
| PayloadTooLarge
| DecoderFailed.

#[export] Instance ProtocolErrorCode_eq_dec : EqDecision ProtocolErrorCode.
Proof. solve_decision. Defined.

(** The exception classes the code throws; the argument is [what()]. *)
Inductive exn :=
| InvalidArgument (what : string)
| LogicError (what : string)
| RuntimeError (what : string)
| SystemError (code : Z) (what : string)
| BadFunctionCall
| ProtocolError (code : ProtocolErrorCode) (what : string).

Definition exn_what (e : exn) : string :=
  match e with
  | InvalidArgument w | LogicError w | RuntimeError w
  | SystemError _ w | ProtocolError _ w => w
  | BadFunctionCall => "bad_function_call"
  end.

(** [catch (const std::runtime_error&)]: [ProtocolError] and
    [std::system_error] derive from it. *)
Definition is_runtime_error (e : exn) : bool :=
  match e with
  | RuntimeError _ | SystemError _ _ | ProtocolError _ _ => true
  | InvalidArgument _ | LogicError _ | BadFunctionCall => false
  end.

(** The outcome of a C++ call: a value or an exception. *)
Inductive outcome (A : Type) :=
| Ok (a : A)
| Throw (e : exn).
Arguments Ok {A} a.
Arguments Throw {A} e.

Definition obind {A B} (m : outcome A) (k : A -> outcome B) : outcome B :=
  match m with
  | Ok a => k a
  | Throw e => Throw e
  end.

Definition is_ok {A} (m : outcome A) : bool :=
  match m with Ok _ => true | Throw _ => false end.

(** [throw] under a test: the guards at the head of a function. *)
Definition reject_if (b : bool) (e : exn) : outcome unit :=
  if b then Throw e else Ok tt.

(** Stateful code: an exception keeps the changes made before it. *)
Definition M (S A : Type) : Type := S -> outcome A * S.

Definition ret {S A} (a : A) : M S A := fun s => (Ok a, s).
Definition throw {S A} (e : exn) : M S A := fun s => (Throw e, s).
Definition bind {S A B} (m : M S A) (k : A -> M S B) : M S B :=
  fun s => match m s with
           | (Ok a, s') => k a s'
           | (Throw e, s') => (Throw e, s')
           end.
(** [try { m } catch (...)]: the handler [h] returns [None] for an exception
    it does not catch, which then propagates. *)
Definition try_catch {S A} (m : M S A) (h : exn -> option (M S A)) : M S A :=
  fun s => match m s with
           | (Ok a, s') => (Ok a, s')
           | (Throw e, s') =>
               match h e with
               | Some m' => m' s'
               | None => (Throw e, s')
               end
           end.
Definition get {S} : M S S := fun s => (Ok s, s).
Definition modify {S} (f : S -> S) : M S unit := fun s => (Ok tt, f s).
Definition lift {S A} (o : outcome A) : M S A := fun s => (o, s).

(** The code's sequencing, in a scope of its own. *)
Declare Scope prog_scope.
Delimit Scope prog_scope with prog.
Notation "'let?' x ':=' m 'in' k" := (obind m (fun x => k))
  (at level 10, x pattern, m at level 100, k at level 200) : prog_scope.
Notation "'let*' x ':=' m 'in' k" := (bind m (fun x => k))
  (at level 10, x pattern, m at level 100, k at level 200) : prog_scope.
Notation "m ;;; k" := (bind m (fun _ => k))
  (at level 101, right associativity) : prog_scope.
#[global] Open Scope prog_scope.

(** ** std::string *)

(** A [std::string] is a sequence of 8-bit characters, as [string] is. *)
Fixpoint string_bytes (s : string) : bytes :=
  match s with
  | EmptyString => []
  | String a s' => Z.of_N (Ascii.N_of_ascii a) :: string_bytes s'
  end.
Fixpoint bytes_string (l : bytes) : string :=
  match l with
  | [] => EmptyString
  | b :: l' => String (Ascii.ascii_of_N (Z.to_N b)) (bytes_string l')
  end.

(** [std::to_string] of an unsigned integer. *)
Definition to_string (n : Z) : string := pretty (Z.to_N n).

(** What a C function reads of [s.c_str()]: the characters before the first
    that is zero. *)
Fixpoint c_str (s : string) : string :=
  match s with
  | EmptyString => EmptyString
  | String a s => if bool_decide (a = Ascii.zero) then EmptyString else String a (c_str s)
  end.

(** ** Interfaces *)

(** A message type with its two functions: [encode_*] validates a message and
    writes it, [decode_*] reads a payload. *)
Class Codec (A : Type) := {
  codec_encode : A -> outcome bytes;
  codec_decode : bytes -> outcome A;
  codec_wf : A -> Prop   (* the fields fit their C++ types *)
}.

(** What a codec promises: a payload decodes to a message exactly when that
    message encodes to that payload. *)
Class CodecExact (A : Type) `{Codec A} := {
  codec_decode_wf p (m : A) : is_bytes p -> codec_decode p = Ok m -> codec_wf m;
  codec_encode_bytes (m : A) p : codec_wf m -> codec_encode m = Ok p -> is_bytes p;
  codec_exact (m : A) p :
    codec_wf m -> is_bytes p -> codec_decode p = Ok m <-> codec_encode m = Ok p
}.

Lemma codec_roundtrip {A} `{CodecExact A} (m : A) p :
  codec_wf m -> codec_encode m = Ok p -> codec_decode p = Ok m.
Proof. intros Hw He. apply codec_exact; eauto using codec_encode_bytes. Qed.

(** ** Automation *)

(** Facts about machine integers: [lia] after the widths are numerals. *)
Ltac widths :=
  unfold in_u8, in_u16, in_u32, in_u64, u8, u16, u32, u64 in *;
  change (2 ^ 8) with 256 in *; change (2 ^ 16) with 65536 in *;
  change (2 ^ 32) with 4294967296 in *;
  change (2 ^ 64) with 18446744073709551616 in *.
Ltac int_lia := widths; lia.
(** The same when the goal has divisions or remainders by constants. *)
Ltac div_lia := widths; Z.div_mod_to_equations; lia.

(** A literal vector of bytes that are each known to be in range. *)
Ltac byte_list :=
  unfold is_bytes; repeat (apply Forall_cons; split; [assumption|]); apply Forall_nil; exact I.

(** Evaluates a decidable proposition without variables. *)
Ltac decide_prop := apply (bool_decide_unpack _); vm_compute; exact I.

(** Splits conjunctions only: [repeat split] would also open [in_u8] and the like. *)
Ltac split_goal := repeat match goal with |- _ /\ _ => split end.

(** Case analysis of every test of a program whose result is known. *)
Ltac destr_if :=
  match goal with
  | H : context [if ?b then _ else _] |- _ => destruct b eqn:?
  | |- context [if ?b then _ else _] => destruct b eqn:?
  end.

(** The outermost test of the goal, with a name for its value. *)
Ltac if_goal E :=
  match goal with |- context [if ?b then _ else _] => destruct b eqn:E end.

Ltac if_next :=
  match goal with |- context [if ?b then _ else _] => destruct b eqn:? end.

(** Boolean comparisons to propositions. *)
Ltac b2p :=
  repeat match goal with
  | H : (_ && _)%bool = true |- _ => apply andb_true_iff in H as [? ?]
  | H : (_ || _)%bool = false |- _ => apply orb_false_iff in H as [? ?]
  | H : (_ && _)%bool = false |- _ => apply andb_false_iff in H
  | H : (_ || _)%bool = true |- _ => apply orb_true_iff in H
  | H : negb _ = true |- _ => apply negb_true_iff in H
  | H : negb _ = false |- _ => apply negb_false_iff in H
  | H : (_ <? _) = true |- _ => apply Z.ltb_lt in H
  | H : (_ <? _) = false |- _ => apply Z.ltb_ge in H
  | H : (_ <=? _) = true |- _ => apply Z.leb_le in H
  | H : (_ <=? _) = false |- _ => apply Z.leb_gt in H
  | H : (_ =? _) = true |- _ => apply Z.eqb_eq in H
  | H : (_ =? _) = false |- _ => apply Z.eqb_neq in H
  | H : bool_decide _ = true |- _ => apply bool_decide_eq_true_1 in H
  | H : bool_decide _ = false |- _ => apply bool_decide_eq_false_1 in H
  end.

(** The same, with a case for each disjunct. *)
Ltac b2p_all :=
  repeat (b2p; match goal with H : _ \/ _ |- _ => destruct H end); b2p.

Create HintDb vpn.
Create Rewrite HintDb vpn_rw.
#[export] Hint Unfold in_u8 in_u16 in_u32 in_u64 : vpn.

(** ** Machine integers *)

Lemma u8_id x : in_u8 x -> u8 x = x.
Proof. intros. apply Z.mod_small. exact H. Qed.
Lemma u16_id x : in_u16 x -> u16 x = x.
Proof. intros. apply Z.mod_small. exact H. Qed.
Lemma u32_id x : in_u32 x -> u32 x = x.
Proof. intros. apply Z.mod_small. exact H. Qed.
Lemma u64_id x : in_u64 x -> u64 x = x.
Proof. intros. apply Z.mod_small. exact H. Qed.
Lemma u8_range x : in_u8 (u8 x).
Proof. apply Z.mod_pos_bound. lia. Qed.
Lemma u16_range x : in_u16 (u16 x).
Proof. apply Z.mod_pos_bound. lia. Qed.
Lemma u32_range x : in_u32 (u32 x).
Proof. apply Z.mod_pos_bound. lia. Qed.
Lemma u64_range x : in_u64 (u64 x).
Proof. apply Z.mod_pos_bound. lia. Qed.
#[export] Hint Resolve u8_range u16_range u32_range u64_range : vpn.
#[export] Hint Rewrite u8_id u16_id u32_id u64_id using (solve [auto with vpn | int_lia]) : vpn_rw.

(** [x & 0xFF] *)
Lemma land_255 x : Z.land x 255 = x mod 256.
Proof. change 255 with (Z.ones 8). rewrite Z.land_ones by lia. reflexivity. Qed.

(** [(a << n) | b] when [b] fits in the low bits. *)
Lemma lor_shiftl_add a b n :
  0 <= n -> 0 <= b < 2 ^ n -> Z.lor (Z.shiftl a n) b = a * 2 ^ n + b.
Proof.
  intros Hn Hb. rewrite <- Z.shiftl_mul_pow2 by lia.
  symmetry. rewrite Z.add_nocarry_lxor, Z.lxor_lor; [reflexivity| |].
  all: apply Z.bits_inj'; intros i Hi; rewrite Z.land_spec, Z.bits_0.
  all: destruct (Z.lt_ge_cases i n);
    [rewrite Z.shiftl_spec_low by lia; reflexivity|].
  all: rewrite andb_comm, <- (Z.mod_small b (2 ^ n)) by lia.
  all: rewrite Z.mod_pow2_bits_high by lia; reflexivity.
Qed.

(** ** Vectors *)

Lemma zlen_nonneg {A} (l : list A) : 0 <= zlen l.
Proof. unfold zlen. lia. Qed.
Lemma zlen_nil {A} : zlen (@nil A) = 0.
Proof. reflexivity. Qed.
Lemma zlen_cons {A} (x : A) l : zlen (x :: l) = 1 + zlen l.
Proof. unfold zlen. simpl length. lia. Qed.
Lemma zlen_app {A} (l k : list A) : zlen (l ++ k) = zlen l + zlen k.
Proof. unfold zlen. rewrite length_app. lia. Qed.
Lemma zlen_drop {A} (l : list A) n :
  0 <= n <= zlen l -> zlen (drop (Z.to_nat n) l) = zlen l - n.
Proof. unfold zlen. intros. rewrite length_drop. lia. Qed.
Lemma zlen_take {A} (l : list A) n :
  0 <= n <= zlen l -> zlen (take (Z.to_nat n) l) = n.
Proof. unfold zlen. intros. rewrite length_take. lia. Qed.
Lemma drop_zlen_app {A} (l k : list A) : drop (Z.to_nat (zlen l)) (l ++ k) = k.
Proof. unfold zlen. rewrite Nat2Z.id. apply drop_app_length. Qed.
Lemma take_zlen_app {A} (l k : list A) : take (Z.to_nat (zlen l)) (l ++ k) = l.
Proof. unfold zlen. rewrite Nat2Z.id. apply take_app_length. Qed.
Lemma zlen_0 {A} (l : list A) : zlen l = 0 -> l = [].
Proof. destruct l; [reflexivity|]. rewrite zlen_cons. pose proof (zlen_nonneg l). lia. Qed.
#[export] Hint Resolve zlen_nonneg : vpn.
#[export] Hint Rewrite @zlen_nil @zlen_cons @zlen_app : vpn_rw.

Lemma zlen_slice l i n :
  0 <= i -> 0 <= n -> i + n <= zlen l -> zlen (slice l i n) = n.
Proof.
  intros. unfold slice. apply zlen_take. rewrite zlen_drop; lia.
Qed.

Lemma at_app_l l k i : 0 <= i < zlen l -> at_ (l ++ k) i = at_ l i.
Proof. unfold at_, zlen. intros. apply app_nth1. lia. Qed.
Lemma at_app_r l k i : zlen l <= i -> at_ (l ++ k) i = at_ k (i - zlen l).
Proof.
  unfold at_, zlen. intros. rewrite app_nth2 by lia. f_equal. lia.
Qed.
Lemma at_drop l i j :
  0 <= i -> 0 <= j -> at_ (drop (Z.to_nat i) l) j = at_ l (i + j).
Proof.
  unfold at_. intros. rewrite Z2Nat.inj_add by lia.
  generalize (Z.to_nat i) (Z.to_nat j). clear.
  intros n m. revert l. induction n as [|n IH]; intros [|x l]; simpl; auto.
  destruct m; reflexivity.
Qed.
Lemma at_range l i : is_bytes l -> in_u8 (at_ l i).
Proof.
  intros Hl. unfold at_. destruct (Nat.lt_ge_cases (Z.to_nat i) (length l)).
  - apply (proj1 (Forall_forall _ _) Hl). apply list_elem_of_In. apply nth_In. exact H.
  - rewrite nth_overflow by exact H. int_lia.
Qed.
#[export] Hint Resolve at_range : vpn.

Lemma string_bytes_range s : is_bytes (string_bytes s).
Proof.
  induction s as [|a s IH]; simpl; [constructor|]. constructor; [|exact IH].
  pose proof (Ascii.N_ascii_bounded a). int_lia.
Qed.
Lemma bytes_string_bytes s : bytes_string (string_bytes s) = s.
Proof.
  induction s as [|a s IH]; simpl; [reflexivity|].
  rewrite N2Z.id, Ascii.ascii_N_embedding, IH. reflexivity.
Qed.
Lemma string_bytes_string l : is_bytes l -> string_bytes (bytes_string l) = l.
Proof.
  induction 1 as [|b l Hb _ IH]; simpl; [reflexivity|].
  rewrite Ascii.N_ascii_embedding, Z2N.id, IH by int_lia. reflexivity.
Qed.
#[export] Hint Resolve string_bytes_range : vpn.

Lemma string_app_length s t : String.length (s +:+ t) = (String.length s + String.length t)%nat.
Proof.
  induction s as [|a s IH]; [reflexivity|].
  change (String.length (String a s +:+ t)) with (S (String.length (s +:+ t))).
  rewrite IH. reflexivity.
Qed.
Lemma string_bytes_length s : zlen (string_bytes s) = Z.of_nat (String.length s).
Proof. unfold zlen. f_equal. induction s as [|a s IH]; cbn; [reflexivity|]. f_equal. exact IH. Qed.

Lemma pretty_N_go_length k x s :
  (x < 10 ^ N.of_nat k)%N -> (String.length (pretty_N_go x s) <= k + String.length s)%nat.
Proof.
  revert x s. induction k as [|k IH]; intros x s Hx.
  - assert (x = 0%N) as -> by (cbn in Hx; lia). reflexivity.
  - destruct (decide (x = 0%N)) as [->|Hn]; [rewrite pretty_N_go_0; lia|].
    rewrite pretty_N_go_step by lia. etransitivity; [apply IH|cbn; lia].
    rewrite Nat2N.inj_succ, N.pow_succ_r' in Hx. apply N.Div0.div_lt_upper_bound. exact Hx.
Qed.

Lemma to_string_length n : in_u64 n -> (String.length (to_string n) <= 20)%nat.
Proof.
  intros Hn. unfold to_string, pretty, pretty_N. case_decide; [cbn; lia|].
  etransitivity; [apply (pretty_N_go_length 20)|cbn; lia].
  change (10 ^ N.of_nat 20)%N with 100000000000000000000%N. int_lia.
Qed.

Lemma is_bytes_app l k : is_bytes (l ++ k) <-> is_bytes l /\ is_bytes k.
Proof. apply Forall_app. Qed.
Lemma is_bytes_slice l i n : is_bytes l -> is_bytes (slice l i n).
Proof. intros. unfold slice. apply Forall_take, Forall_drop, H. Qed.
#[export] Hint Resolve is_bytes_slice : vpn.

(** ** Outcomes *)

Lemma ok_inj {A} (a b : A) : Ok a = Ok b -> a = b.
Proof. congruence. Qed.
Lemma obind_ok {A B} (m : outcome A) (k : A -> outcome B) b :
  obind m k = Ok b <-> exists a, m = Ok a /\ k a = Ok b.
Proof.
  destruct m; simpl; [|split; [discriminate|intros (? & [=] & _)]].
  split; [eauto|]. intros (? & <-%ok_inj & ?). assumption.
Qed.
Lemma reject_if_ok b e u : reject_if b e = Ok u <-> b = false.
Proof. destruct b, u; simpl; intuition congruence. Qed.
Lemma obind_reject {A} b e (k : outcome A) :
  obind (reject_if b e) (fun _ => k) = if b then Throw e else k.
Proof. destruct b; reflexivity. Qed.
#[export] Hint Rewrite @obind_reject : vpn_rw.
Lemma reject_then {A} b e (k : outcome A) r :
  obind (reject_if b e) (fun _ => k) = Ok r <-> b = false /\ k = Ok r.
Proof. destruct b; simpl; intuition congruence. Qed.

(** Inverts a computation that is known to have returned a value. *)
Ltac inv_ok :=
  repeat match goal with
  | H : obind _ _ = Ok _ |- _ => apply obind_ok in H as (? & ? & ?)
  | H : reject_if _ _ = Ok _ |- _ => apply reject_if_ok in H
  | H : Ok _ = Ok _ |- _ => apply ok_inj in H
  | H : Throw _ = Ok _ |- _ => discriminate H
  end; b2p.

(** Computes constant offsets, so that reads at constant offsets of a vector
    given element by element reduce. *)
Ltac const_to_nat :=
  repeat match goal with
  | |- context [Z.to_nat ?z] =>
      let n := eval vm_compute in (Z.to_nat z) in
      lazymatch n with O => idtac | S _ => idtac end; change (Z.to_nat z) with n
  | H : context [Z.to_nat ?z] |- _ =>
      let n := eval vm_compute in (Z.to_nat z) in
      lazymatch n with O => idtac | S _ => idtac end; change (Z.to_nat z) with n in H
  end.

(** Splits a vector of known length into its elements. *)
Ltac explode l H :=
  unfold zlen in H; simpl in H;
  repeat (destruct l as [|? l]; simpl in H; [lia|]);
  destruct l; simpl in H; [|lia]; clear H.

(** ** Finite sets *)

Section SetLemmas.
Context `{Countable K}.
Implicit Types (X Y : gset K) (k p : K).

Lemma elem_of_removed k p X : k ∈ X ∖ {[p]} <-> k ∈ X /\ k <> p.
Proof. rewrite elem_of_difference, elem_of_singleton. reflexivity. Qed.
Lemma elem_of_added k p X : k ∈ {[p]} ∪ X <-> k = p \/ k ∈ X.
Proof. rewrite elem_of_union, elem_of_singleton. reflexivity. Qed.
Lemma removed_subseteq p X : X ∖ {[p]} ⊆ X.
Proof. intros k Hk. apply elem_of_removed in Hk. apply Hk. Qed.
Lemma added_subseteq p X : X ⊆ {[p]} ∪ X.
Proof. intros k Hk. apply elem_of_added. auto. Qed.
Lemma size_added p X : p ∉ X -> size ({[p]} ∪ X) = S (size X).
Proof. intros Hp. rewrite size_union, size_singleton; [reflexivity|set_solver]. Qed.
Lemma size_removed p X : p ∈ X -> size X = S (size (X ∖ {[p]})).
Proof.
  intros Hp. rewrite <- (size_added p); [|rewrite elem_of_removed; tauto]. f_equal.
  apply union_difference_L. intros k ->%elem_of_singleton. exact Hp.
Qed.
End SetLemmas.

(** ** Filtering *)

Lemma filter_ext_in {A} (P Q : A -> Prop) `{!forall x, Decision (P x)} `{!forall x, Decision (Q x)} (l : list A) :
  (forall x, x ∈ l -> P x <-> Q x) -> filter P l = filter Q l.
Proof.
  induction l as [|x l IH]; intros Hl; [reflexivity|]. rewrite !filter_cons, IH by (intros y Hy; apply Hl; right; exact Hy).
  specialize (Hl x ltac:(left)). repeat case_decide; tauto.
Qed.
Lemma filter_all {A} (P : A -> Prop) `{!forall x, Decision (P x)} (l : list A) :
  (forall x, x ∈ l -> P x) -> filter P l = l.
Proof.
  induction l as [|x l IH]; intros Hl; [reflexivity|]. rewrite filter_cons_True by (apply Hl; left).
  rewrite IH by (intros y Hy; apply Hl; right; exact Hy). reflexivity.
Qed.
Lemma in_filter {A} (P : A -> Prop) `{!forall x, Decision (P x)} (l : list A) x : x ∈ filter P l <-> P x /\ x ∈ l.
Proof. apply list_elem_of_filter. Qed.

(** A premise of [H] becomes a goal. *)
Ltac forward H :=
  match type of H with
  | ?P -> _ => let h := fresh "prem" in assert (h : P); [|specialize (H h); clear h]
  end.
