(* ===== verification/Bytes.v ===== *)
(** * Big-endian integers in byte vectors

    The anonymous-namespace helpers of src/protocol/protocol.cpp (repeated
    verbatim in src/protocol/control_messages.cpp): [append_u16/u32/u64] and
    [read_u16/u32/u64], with their round trips in both directions. *)
From S2P Require Import Prelude.

(** [output.push_back(value)] *)
Definition push_back {A} (output : list A) (value : A) : list A := output ++ [value].

Definition append_u16 (output : bytes) (value : Z) : bytes :=
  push_back (push_back output (u8 (Z.land (Z.shiftr value 8) 255)))
            (u8 (Z.land value 255)).

Definition append_u32 (output : bytes) (value : Z) : bytes :=
  push_back (push_back (push_back (push_back output
    (u8 (Z.land (Z.shiftr value 24) 255)))
    (u8 (Z.land (Z.shiftr value 16) 255)))
    (u8 (Z.land (Z.shiftr value 8) 255)))
    (u8 (Z.land value 255)).

(** [for (int shift = 56; shift >= 0; shift -= 8)] *)
Definition append_u64 (output : bytes) (value : Z) : bytes :=
  fold_left (fun out shift => push_back out (u8 (Z.land (Z.shiftr value shift) 255)))
    [56; 48; 40; 32; 24; 16; 8; 0] output.

Definition read_u16 (data : bytes) : Z :=
  u16 (Z.lor (Z.shiftl (at_ data 0) 8) (at_ data 1)).

Definition read_u32 (data : bytes) : Z :=
  Z.lor (Z.lor (Z.lor
    (u32 (Z.shiftl (at_ data 0) 24))
    (u32 (Z.shiftl (at_ data 1) 16)))
    (u32 (Z.shiftl (at_ data 2) 8)))
    (at_ data 3).

(** [for (index = 0; index < 8; ++index) value = (value << 8U) | data[index]] *)
Definition read_u64 (data : bytes) : Z :=
  fold_left (fun value index => Z.lor (u64 (Z.shiftl value 8)) (at_ data index))
    [0; 1; 2; 3; 4; 5; 6; 7] 0.

(** ** The bytes the writers append *)

Definition be16 (v : Z) : bytes := [v / 2 ^ 8 mod 256; v mod 256].
Definition be32 (v : Z) : bytes :=
  [v / 2 ^ 24 mod 256; v / 2 ^ 16 mod 256; v / 2 ^ 8 mod 256; v mod 256].
Definition be64 (v : Z) : bytes :=
  [v / 2 ^ 56 mod 256; v / 2 ^ 48 mod 256; v / 2 ^ 40 mod 256; v / 2 ^ 32 mod 256;
   v / 2 ^ 24 mod 256; v / 2 ^ 16 mod 256; v / 2 ^ 8 mod 256; v mod 256].

Lemma low_byte v : u8 (Z.land v 255) = v mod 256.
Proof. rewrite land_255. unfold u8. apply Z.mod_small. apply Z.mod_pos_bound. lia. Qed.

Lemma shifted_byte v n : 0 <= n -> u8 (Z.land (Z.shiftr v n) 255) = v / 2 ^ n mod 256.
Proof. intros. rewrite low_byte, Z.shiftr_div_pow2 by lia. reflexivity. Qed.

Lemma append_u16_eq out v : append_u16 out v = out ++ be16 v.
Proof.
  unfold append_u16, be16, push_back.
  rewrite shifted_byte, low_byte by lia. rewrite <- !app_assoc. reflexivity.
Qed.

Lemma append_u32_eq out v : append_u32 out v = out ++ be32 v.
Proof.
  unfold append_u32, be32, push_back.
  rewrite !shifted_byte, low_byte by lia. rewrite <- !app_assoc. reflexivity.
Qed.

Lemma append_u64_eq out v : append_u64 out v = out ++ be64 v.
Proof.
  unfold append_u64, be64, push_back, fold_left.
  rewrite !shifted_byte by lia. rewrite <- !app_assoc.
  rewrite Z.div_1_r. reflexivity.
Qed.
#[export] Hint Rewrite append_u16_eq append_u32_eq append_u64_eq : vpn_rw.

Lemma is_bytes_be16 v : is_bytes (be16 v).
Proof. repeat constructor; div_lia. Qed.
Lemma is_bytes_be32 v : is_bytes (be32 v).
Proof. repeat constructor; div_lia. Qed.
Lemma is_bytes_be64 v : is_bytes (be64 v).
Proof. repeat constructor; div_lia. Qed.
#[export] Hint Resolve is_bytes_be16 is_bytes_be32 is_bytes_be64 : vpn.

(** ** The value the readers compute *)

Lemma lor_byte a b : in_u8 b -> Z.lor (a * 256) b = a * 256 + b.
Proof.
  intros. replace (a * 256) with (Z.shiftl a 8) by (rewrite Z.shiftl_mul_pow2; lia).
  rewrite lor_shiftl_add by int_lia. rewrite Z.shiftl_mul_pow2 by lia. reflexivity.
Qed.

Lemma read_u16_cons a b l :
  in_u8 a -> in_u8 b -> read_u16 (a :: b :: l) = a * 256 + b.
Proof.
  intros. unfold read_u16. change (at_ (a :: b :: l) 0) with a.
  change (at_ (a :: b :: l) 1) with b.
  rewrite Z.shiftl_mul_pow2 by lia. change (2 ^ 8) with 256.
  rewrite lor_byte by assumption. apply u16_id. int_lia.
Qed.

Lemma read_u32_cons a b c d l :
  in_u8 a -> in_u8 b -> in_u8 c -> in_u8 d ->
  read_u32 (a :: b :: c :: d :: l) = ((a * 256 + b) * 256 + c) * 256 + d.
Proof.
  intros. unfold read_u32.
  change (at_ (a :: b :: c :: d :: l) 0) with a.
  change (at_ (a :: b :: c :: d :: l) 1) with b.
  change (at_ (a :: b :: c :: d :: l) 2) with c.
  change (at_ (a :: b :: c :: d :: l) 3) with d.
  rewrite !Z.shiftl_mul_pow2 by lia. rewrite !u32_id by int_lia.
  replace (Z.lor (a * 2 ^ 24) (b * 2 ^ 16)) with ((a * 256 + b) * 256 * 256).
  2:{ rewrite <- Z.shiftl_mul_pow2, lor_shiftl_add by int_lia. int_lia. }
  replace (Z.lor ((a * 256 + b) * 256 * 256) (c * 2 ^ 8))
    with (((a * 256 + b) * 256 + c) * 256).
  2:{ replace ((a * 256 + b) * 256 * 256) with (Z.shiftl (a * 256 + b) 16)
        by (rewrite Z.shiftl_mul_pow2 by lia; int_lia).
      rewrite lor_shiftl_add by int_lia. int_lia. }
  apply lor_byte. assumption.
Qed.

Lemma read_u64_step v b :
  0 <= v < 2 ^ 56 -> in_u8 b -> Z.lor (u64 (Z.shiftl v 8)) b = v * 256 + b.
Proof.
  intros. rewrite Z.shiftl_mul_pow2 by lia. rewrite u64_id by int_lia.
  apply lor_byte. assumption.
Qed.

(** Base-256 value of a byte string, the reference the readers compute. *)
Definition horner (l : bytes) : Z := fold_left (fun v b => v * 256 + b) l 0.

Lemma read_u64_cons b0 b1 b2 b3 b4 b5 b6 b7 l :
  is_bytes [b0; b1; b2; b3; b4; b5; b6; b7] ->
  read_u64 (b0 :: b1 :: b2 :: b3 :: b4 :: b5 :: b6 :: b7 :: l)
  = horner [b0; b1; b2; b3; b4; b5; b6; b7].
Proof.
  unfold is_bytes. rewrite !Forall_cons. intros Hb. destruct_and!.
  unfold read_u64, horner, fold_left, at_.
  change (Z.to_nat 0) with 0%nat. change (Z.to_nat 1) with 1%nat.
  change (Z.to_nat 2) with 2%nat. change (Z.to_nat 3) with 3%nat.
  change (Z.to_nat 4) with 4%nat. change (Z.to_nat 5) with 5%nat.
  change (Z.to_nat 6) with 6%nat. change (Z.to_nat 7) with 7%nat.
  cbn [nth].
  rewrite (read_u64_step _ b0), (read_u64_step _ b1), (read_u64_step _ b2),
    (read_u64_step _ b3), (read_u64_step _ b4), (read_u64_step _ b5),
    (read_u64_step _ b6), (read_u64_step _ b7) by int_lia.
  reflexivity.
Qed.

(** ** Round trips *)

Lemma read_be16 v l : in_u16 v -> read_u16 (be16 v ++ l) = v.
Proof. intros. unfold be16. simpl app. rewrite read_u16_cons; div_lia. Qed.

Lemma read_be32 v l : in_u32 v -> read_u32 (be32 v ++ l) = v.
Proof. intros. unfold be32. simpl app. rewrite read_u32_cons; div_lia. Qed.

(** One base-256 digit is split off a quotient. *)
Lemma split_digit v n : 0 <= n -> v / 2 ^ n = v / 2 ^ (n + 8) * 256 + v / 2 ^ n mod 256.
Proof.
  intros. rewrite Z.pow_add_r, <- Z.div_div by lia. change (2 ^ 8) with 256.
  rewrite Z.mul_comm. apply Z.div_mod. lia.
Qed.

Lemma read_be64 v l : in_u64 v -> read_u64 (be64 v ++ l) = v.
Proof.
  intros Hv. unfold be64. simpl app.
  rewrite read_u64_cons by (repeat constructor; div_lia).
  unfold horner, fold_left. rewrite Z.mul_0_l, Z.add_0_l.
  rewrite (Z.mod_small (v / 2 ^ 56)) by div_lia.
  change (v / 2 ^ 56) with (v / 2 ^ (48 + 8)). rewrite <- (split_digit v 48) by lia.
  change (v / 2 ^ 48) with (v / 2 ^ (40 + 8)). rewrite <- (split_digit v 40) by lia.
  change (v / 2 ^ 40) with (v / 2 ^ (32 + 8)). rewrite <- (split_digit v 32) by lia.
  change (v / 2 ^ 32) with (v / 2 ^ (24 + 8)). rewrite <- (split_digit v 24) by lia.
  change (v / 2 ^ 24) with (v / 2 ^ (16 + 8)). rewrite <- (split_digit v 16) by lia.
  change (v / 2 ^ 16) with (v / 2 ^ (8 + 8)). rewrite <- (split_digit v 8) by lia.
  change (2 ^ 8) with 256. rewrite Z.mul_comm. symmetry. apply Z.div_mod. lia.
Qed.

Lemma be16_read a b l : in_u8 a -> in_u8 b -> be16 (read_u16 (a :: b :: l)) = [a; b].
Proof.
  intros. rewrite read_u16_cons by assumption. unfold be16.
  repeat f_equal; div_lia.
Qed.

Lemma be32_read a b c d l :
  is_bytes [a; b; c; d] -> be32 (read_u32 (a :: b :: c :: d :: l)) = [a; b; c; d].
Proof.
  unfold is_bytes. rewrite !Forall_cons. intros. destruct_and!.
  rewrite read_u32_cons by assumption. unfold be32. repeat f_equal; div_lia.
Qed.

Lemma horner_digit a b : in_u8 b -> (a * 256 + b) mod 256 = b.
Proof. intros. div_lia. Qed.
Lemma horner_shift a b n :
  8 <= n -> in_u8 b -> (a * 256 + b) / 2 ^ n = a / 2 ^ (n - 8).
Proof.
  intros. replace n with (8 + (n - 8)) at 1 by lia.
  rewrite Z.pow_add_r, <- Z.div_div by lia. f_equal. div_lia.
Qed.

Lemma be64_read b0 b1 b2 b3 b4 b5 b6 b7 l :
  is_bytes [b0; b1; b2; b3; b4; b5; b6; b7] ->
  be64 (read_u64 (b0 :: b1 :: b2 :: b3 :: b4 :: b5 :: b6 :: b7 :: l))
  = [b0; b1; b2; b3; b4; b5; b6; b7].
Proof.
  intros Hb. rewrite read_u64_cons by exact Hb. revert Hb.
  unfold is_bytes. rewrite !Forall_cons. intros. destruct_and!.
  unfold be64, horner, fold_left.
  repeat match goal with
  | |- context [(?a * 256 + ?b) / 2 ^ ?n] =>
      let m := eval vm_compute in (n - 8) in
      rewrite (horner_shift a b n) by (assumption || lia); change (n - 8) with m
  end.
  rewrite !Z.div_1_r, !horner_digit by assumption. reflexivity.
Qed.

Lemma read_u16_range l : is_bytes l -> in_u16 (read_u16 l).
Proof. intros. apply u16_range. Qed.
Lemma read_u32_range a b c d l :
  is_bytes [a; b; c; d] -> in_u32 (read_u32 (a :: b :: c :: d :: l)).
Proof.
  unfold is_bytes. rewrite !Forall_cons. intros. destruct_and!.
  rewrite read_u32_cons by assumption. int_lia.
Qed.
Lemma read_u64_range b0 b1 b2 b3 b4 b5 b6 b7 l :
  is_bytes [b0; b1; b2; b3; b4; b5; b6; b7] ->
  in_u64 (read_u64 (b0 :: b1 :: b2 :: b3 :: b4 :: b5 :: b6 :: b7 :: l)).
Proof.
  intros Hb. rewrite read_u64_cons by exact Hb. revert Hb.
  unfold is_bytes. rewrite !Forall_cons. intros. destruct_and!.
  unfold horner, fold_left. int_lia.
Qed.
