(* ===== verification/Protocol.v ===== *)
(** * Tunnel frames and the stream decoder

    Models src/protocol/include/personal_vpn/protocol.hpp and
    src/protocol/protocol.cpp: the frame format, [encode_frame] and the
    incremental [FrameDecoder].  The decoder is related to a reference parser
    of the whole byte stream, which is related to [encode_frame]. *)
From S2P Require Import Prelude Bytes.

Definition kMagic : Z := 1347833934. (* 0x5056504E, "PVPN" *)
Definition kVersion : Z := 2.
Definition kHeaderSize : Z := 20.
Definition kMaxPayloadSize : Z := 65535.

(** [enum class MessageType : std::uint8_t]; the enumeration has a fixed
    underlying type, so an object can hold any 8-bit value: [MtOther]. *)
Inductive MessageType :=
| MtClientHello
| MtIpAssign
| MtDataIpv4
| MtPing
| MtPong
| MtError
| MtClose
| MtDataIpv6
| MtOther (raw : Z).

#[export] Instance MessageType_eq_dec : EqDecision MessageType.
Proof. solve_decision. Defined.

(** [static_cast<std::uint8_t>(type)] *)
Definition MessageType_to_u8 (t : MessageType) : Z :=
  match t with
  | MtClientHello => 1
  | MtIpAssign => 2
  | MtDataIpv4 => 3
  | MtPing => 4
  | MtPong => 5
  | MtError => 6
  | MtClose => 7
  | MtDataIpv6 => 8
  | MtOther raw => raw
  end.

(** [static_cast<MessageType>(raw)] *)
Definition MessageType_of_u8 (raw : Z) : MessageType :=
  if raw =? 1 then MtClientHello
  else if raw =? 2 then MtIpAssign
  else if raw =? 3 then MtDataIpv4
  else if raw =? 4 then MtPing
  else if raw =? 5 then MtPong
  else if raw =? 6 then MtError
  else if raw =? 7 then MtClose
  else if raw =? 8 then MtDataIpv6
  else MtOther raw.

Record Frame := mkFrame {
  f_type : MessageType;
  f_flags : Z;
  f_sequence : Z;
  f_payload : bytes
}.

#[export] Instance Frame_eq_dec : EqDecision Frame.
Proof. solve_decision. Defined.

Definition is_known_message_type (raw_type : Z) : bool :=
  (MessageType_to_u8 MtClientHello <=? raw_type) &&
  (raw_type <=? MessageType_to_u8 MtDataIpv6).

Definition encode_frame (frame : Frame) : outcome bytes :=
  if negb (is_known_message_type (MessageType_to_u8 (f_type frame))) then
    Throw (ProtocolError UnknownMessageType "unknown message type")
  else if negb (f_flags frame =? 0) then
    Throw (ProtocolError UnsupportedFlags "protocol v1 requires zero flags")
  else if (kMaxPayloadSize <? zlen (f_payload frame)) ||
          (2 ^ 32 - 1 <? zlen (f_payload frame)) then
    Throw (ProtocolError PayloadTooLarge "frame payload exceeds the protocol limit")
  else
    let encoded := append_u32 [] kMagic in
    let encoded := push_back encoded kVersion in
    let encoded := push_back encoded (MessageType_to_u8 (f_type frame)) in
    let encoded := append_u16 encoded (f_flags frame) in
    let encoded := append_u32 encoded (u32 (zlen (f_payload frame))) in
    let encoded := append_u64 encoded (f_sequence frame) in
    Ok (encoded ++ f_payload frame).

(** ** [FrameDecoder] *)

Record FrameDecoder := mkDecoder {
  d_buffer_ : bytes;
  d_offset_ : Z;
  d_failed_ : bool
}.

Definition decoder_init : FrameDecoder := mkDecoder [] 0 false.

(** One iteration of the loop of [FrameDecoder::push]: [header] is
    [buffer_.data() + offset_] and [available] is [buffer_.size() - offset_].
    [Ok None] is [break]; [Throw] is a call of [fail]. *)
Definition decode_one (header : bytes) (available : Z) : outcome (option (Frame * Z)) :=
  if negb (read_u32 header =? kMagic) then
    Throw (ProtocolError InvalidMagic "invalid tunnel frame magic")
  else if negb (at_ header 4 =? kVersion) then
    Throw (ProtocolError UnsupportedVersion "unsupported tunnel protocol version")
  else if negb (is_known_message_type (at_ header 5)) then
    Throw (ProtocolError UnknownMessageType "unknown tunnel message type")
  else
    let flags := read_u16 (drop 6 header) in
    if negb (flags =? 0) then
      Throw (ProtocolError UnsupportedFlags "unsupported tunnel frame flags")
    else
      let payload_size := read_u32 (drop 8 header) in
      if kMaxPayloadSize <? payload_size then
        Throw (ProtocolError PayloadTooLarge "declared payload exceeds the protocol limit")
      else if available <? kHeaderSize + payload_size then Ok None
      else
        let frame := {| f_type := MessageType_of_u8 (at_ header 5);
                        f_flags := flags;
                        f_sequence := read_u64 (drop 12 header);
                        f_payload := slice header kHeaderSize payload_size |} in
        Ok (Some (frame, kHeaderSize + payload_size)).

(** [while (buffer_.size() - offset_ >= kHeaderSize)]; the result carries
    [offset_], which a failing iteration leaves at the offending header. *)
Fixpoint decode_loop (fuel : nat) (buffer : bytes) (offset : Z) (frames : list Frame)
  : outcome (list Frame) * Z :=
  match fuel with
  | O => (Ok frames, offset)
  | S fuel' =>
      if kHeaderSize <=? zlen buffer - offset then
        match decode_one (drop (Z.to_nat offset) buffer) (zlen buffer - offset) with
        | Throw e => (Throw e, offset)
        | Ok None => (Ok frames, offset)
        | Ok (Some (frame, size)) =>
            decode_loop fuel' buffer (offset + size) (push_back frames frame)
        end
      else (Ok frames, offset)
  end.

(** [FrameDecoder::push(data, size)]; [None] is [nullptr]. *)
Definition push_ptr (data : option bytes) (size : Z) : M FrameDecoder (list Frame) :=
  fun d =>
  if d_failed_ d then
    (Throw (ProtocolError DecoderFailed
              "decoder is in a failed state; reset it before reuse"), d)
  else
  match data, 0 <? size with
  | None, true =>
      (Throw (InvalidArgument "data must not be null when size is non-zero"), d)
  | _, _ =>
      let buffer := if 0 <? d_offset_ d
                    then drop (Z.to_nat (d_offset_ d)) (d_buffer_ d) else d_buffer_ d in
      let buffer := match data with
                    | Some data => buffer ++ take (Z.to_nat size) data
                    | None => buffer
                    end in
      match decode_loop (S (length buffer)) buffer 0 [] with
      | (Throw e, offset) => (Throw e, mkDecoder buffer offset true)
      | (Ok frames, offset) =>
          if offset =? zlen buffer
          then (Ok frames, mkDecoder [] 0 false)
          else (Ok frames, mkDecoder buffer offset false)
      end
  end.

(** [FrameDecoder::push(const std::vector<std::uint8_t>&)] *)
Definition push (data : bytes) : M FrameDecoder (list Frame) :=
  push_ptr (Some data) (zlen data).

Definition buffered_bytes (d : FrameDecoder) : Z := zlen (d_buffer_ d) - d_offset_ d.

Definition reset (d : FrameDecoder) : FrameDecoder := mkDecoder [] 0 false.

(** A transport delivers the stream in chunks; it stops at the first
    exception.  The frames of the calls before it have been handed over. *)
Fixpoint feed (chunks : list bytes) (d : FrameDecoder)
  : list Frame * option exn * FrameDecoder :=
  match chunks with
  | [] => ([], None, d)
  | chunk :: chunks' =>
      match push chunk d with
      | (Throw e, d') => ([], Some e, d')
      | (Ok frames, d') =>
          let '(frames', e, d'') := feed chunks' d' in (frames ++ frames', e, d'')
      end
  end.

(** ** Well-formedness *)

(** The frames the encoder accepts and a reader can reconstruct. *)
Definition valid_frame (f : Frame) : Prop :=
  MessageType_of_u8 (MessageType_to_u8 (f_type f)) = f_type f /\
  is_known_message_type (MessageType_to_u8 (f_type f)) = true /\
  f_flags f = 0 /\ in_u64 (f_sequence f) /\
  is_bytes (f_payload f) /\ zlen (f_payload f) <= kMaxPayloadSize.

(** The wire image of a frame. *)
Definition wire (f : Frame) : bytes :=
  be32 kMagic ++ [kVersion; MessageType_to_u8 (f_type f)] ++ be16 (f_flags f)
  ++ be32 (zlen (f_payload f)) ++ be64 (f_sequence f) ++ f_payload f.

(** The bytes of the buffer that no frame has consumed. *)
Definition unread (d : FrameDecoder) : bytes := drop (Z.to_nat (d_offset_ d)) (d_buffer_ d).

Definition decoder_wf (d : FrameDecoder) : Prop :=
  0 <= d_offset_ d <= zlen (d_buffer_ d).

(** ** Reference parser of a byte stream: the frames, the bytes left, and the
    error that stopped it. *)
Inductive parses : bytes -> list Frame -> bytes -> option exn -> Prop :=
| parses_short bs :
    zlen bs < kHeaderSize -> parses bs [] bs None
| parses_bad bs e :
    kHeaderSize <= zlen bs -> decode_one bs (zlen bs) = Throw e -> parses bs [] bs (Some e)
| parses_wait bs :
    kHeaderSize <= zlen bs -> decode_one bs (zlen bs) = Ok None -> parses bs [] bs None
| parses_frame bs f n fs rest e :
    kHeaderSize <= zlen bs -> decode_one bs (zlen bs) = Ok (Some (f, n)) ->
    parses (drop (Z.to_nat n) bs) fs rest e -> parses bs (f :: fs) rest e.
#[export] Hint Constructors parses : vpn.

(** ** Lemmas: the header *)

Lemma encode_frame_wire f : valid_frame f -> encode_frame f = Ok (wire f).
Proof.
  intros (_ & Hk & Hf & _ & _ & Hl). unfold encode_frame, kMaxPayloadSize in *.
  rewrite Hk, Hf. simpl negb. cbv iota.
  rewrite (proj2 (Z.ltb_ge _ _)), (proj2 (Z.ltb_ge _ _)) by lia. simpl orb. cbv iota.
  pose proof (zlen_nonneg (f_payload f)).
  unfold push_back. rewrite append_u32_eq, append_u16_eq, append_u32_eq, append_u64_eq.
  rewrite u32_id by int_lia. unfold wire. rewrite Hf.
  rewrite <- !app_assoc. reflexivity.
Qed.

Lemma zlen_wire f : zlen (wire f) = kHeaderSize + zlen (f_payload f).
Proof. unfold wire, be16, be32, be64, kHeaderSize. simpl app. rewrite !zlen_cons. lia. Qed.

Lemma MessageType_to_u8_range f : valid_frame f -> in_u8 (MessageType_to_u8 (f_type f)).
Proof.
  intros (_ & Hk & _). unfold is_known_message_type in Hk. b2p. simpl in *. int_lia.
Qed.

Lemma is_bytes_wire f : valid_frame f -> is_bytes (wire f).
Proof.
  intros Hv. pose proof (MessageType_to_u8_range f Hv).
  destruct Hv as (_ & _ & _ & _ & Hb & _). unfold wire.
  rewrite !is_bytes_app. repeat split; auto with vpn.
  repeat constructor; unfold kVersion; int_lia.
Qed.

Lemma decode_one_ok header available f n :
  decode_one header available = Ok (Some (f, n)) ->
  n = kHeaderSize + read_u32 (drop 8 header) /\ n <= available /\
  f = {| f_type := MessageType_of_u8 (at_ header 5); f_flags := 0;
         f_sequence := read_u64 (drop 12 header);
         f_payload := slice header kHeaderSize (read_u32 (drop 8 header)) |} /\
  read_u32 header = kMagic /\ at_ header 4 = kVersion /\
  is_known_message_type (at_ header 5) = true /\ read_u16 (drop 6 header) = 0 /\
  read_u32 (drop 8 header) <= kMaxPayloadSize.
Proof.
  unfold decode_one. intros H. repeat (destr_if; try discriminate H). b2p.
  injection H as <- <-. rewrite Heqb2. auto 10 with lia.
Qed.

(** The header test reads only the first twenty bytes. *)
Lemma read_u16_app l k : 2 <= zlen l -> read_u16 (l ++ k) = read_u16 l.
Proof. intros. unfold read_u16. rewrite !at_app_l by lia. reflexivity. Qed.
Lemma read_u32_app l k : 4 <= zlen l -> read_u32 (l ++ k) = read_u32 l.
Proof. intros. unfold read_u32. rewrite !at_app_l by lia. reflexivity. Qed.
Lemma read_u64_app l k : 8 <= zlen l -> read_u64 (l ++ k) = read_u64 l.
Proof. intros. unfold read_u64, fold_left. rewrite !at_app_l by lia. reflexivity. Qed.

Lemma drop_app_z (l k : bytes) n :
  Z.of_nat n <= zlen l -> drop n (l ++ k) = drop n l ++ k.
Proof. unfold zlen. intros. rewrite drop_app_le by lia. reflexivity. Qed.
Lemma zlen_drop_nat {A} (l : list A) n :
  Z.of_nat n <= zlen l -> zlen (drop n l) = zlen l - Z.of_nat n.
Proof. unfold zlen. rewrite length_drop. lia. Qed.
Lemma slice_app l k i n :
  0 <= i -> 0 <= n -> i + n <= zlen l -> slice (l ++ k) i n = slice l i n.
Proof.
  intros. unfold slice. rewrite drop_app_z by lia.
  apply take_app_le. rewrite length_drop. unfold zlen in *. lia.
Qed.

Lemma decode_one_app h k r :
  kHeaderSize <= zlen h -> decode_one h (zlen h) = r -> r <> Ok None ->
  0 <= read_u32 (drop 8 h) -> decode_one (h ++ k) (zlen (h ++ k)) = r.
Proof.
  unfold kHeaderSize. intros Hl <- Hr Hp. pose proof (zlen_nonneg k).
  unfold decode_one in *. unfold kHeaderSize, kMaxPayloadSize in *.
  rewrite !drop_app_z, !at_app_l by lia.
  rewrite !read_u32_app, read_u16_app, read_u64_app by (rewrite ?zlen_drop_nat; lia).
  repeat (destr_if; try reflexivity); b2p; rewrite ?zlen_app in *; try lia; try congruence.
  rewrite slice_app by lia. reflexivity.
Qed.

Lemma read_u32_nonneg l : is_bytes l -> 0 <= read_u32 l.
Proof.
  intros Hl. unfold read_u32. pose proof (at_range l 3 Hl).
  pose proof (u32_range (Z.shiftl (at_ l 0) 24)). pose proof (u32_range (Z.shiftl (at_ l 1) 16)).
  pose proof (u32_range (Z.shiftl (at_ l 2) 8)).
  rewrite !Z.lor_nonneg. int_lia.
Qed.
Lemma is_bytes_drop l n : is_bytes l -> is_bytes (drop n l).
Proof. apply Forall_drop. Qed.
Lemma is_bytes_take l n : is_bytes l -> is_bytes (take n l).
Proof. apply Forall_take. Qed.
#[export] Hint Resolve is_bytes_drop is_bytes_take read_u32_nonneg : vpn.

Lemma decode_one_size bs f n :
  is_bytes bs -> decode_one bs (zlen bs) = Ok (Some (f, n)) ->
  kHeaderSize <= n <= zlen bs /\ n = kHeaderSize + zlen (f_payload f).
Proof.
  intros Hb (-> & Hle & -> & _)%decode_one_ok. simpl.
  pose proof (read_u32_nonneg (drop 8 bs) ltac:(auto with vpn)).
  unfold kHeaderSize in *. split; [lia|]. rewrite zlen_slice; lia.
Qed.

(** A header followed by the rest of its frame decodes to that frame. *)
Lemma decode_one_wire f k :
  valid_frame f ->
  decode_one (wire f ++ k) (zlen (wire f ++ k)) = Ok (Some (f, zlen (wire f))).
Proof.
  intros Hv. pose proof (MessageType_to_u8_range f Hv) as Ht.
  destruct Hv as (Hc & Hk & Hf & Hs & Hb & Hl).
  pose proof (zlen_nonneg (f_payload f)) as Hp. pose proof (zlen_nonneg k).
  assert (E2 : drop 6 (wire f ++ k) = be16 (f_flags f) ++
     (be32 (zlen (f_payload f)) ++ be64 (f_sequence f) ++ f_payload f ++ k)).
  { unfold wire. rewrite <- !app_assoc. reflexivity. }
  assert (E3 : drop 8 (wire f ++ k) = be32 (zlen (f_payload f)) ++
     (be64 (f_sequence f) ++ f_payload f ++ k)).
  { unfold wire. rewrite <- !app_assoc. reflexivity. }
  assert (E4 : drop 12 (wire f ++ k) = be64 (f_sequence f) ++ f_payload f ++ k).
  { unfold wire. rewrite <- !app_assoc. reflexivity. }
  assert (E5 : slice (wire f ++ k) kHeaderSize (zlen (f_payload f)) = f_payload f).
  { unfold slice, kHeaderSize. change (Z.to_nat 20) with 20%nat.
    unfold wire. rewrite <- !app_assoc. unfold be32, be16, be64. simpl app. rewrite !skipn_cons, drop_0.
    unfold zlen. rewrite Nat2Z.id. apply take_app_length. }
  unfold decode_one. rewrite E2, E3, E4, zlen_app, zlen_wire.
  rewrite (read_be16 (f_flags f)), (read_be32 (zlen (f_payload f))), (read_be64 (f_sequence f))
    by (rewrite ?Hf; unfold kMaxPayloadSize in *; int_lia).
  rewrite E5.
  change (read_u32 (wire f ++ k)) with kMagic.
  change (at_ (wire f ++ k) 4) with kVersion.
  change (at_ (wire f ++ k) 5) with (MessageType_to_u8 (f_type f)).
  rewrite Hk, Hf. simpl negb. cbv iota.
  rewrite (proj2 (Z.ltb_ge kMaxPayloadSize _)) by lia.
  rewrite (proj2 (Z.ltb_ge (_ + zlen k) _)) by lia.
  rewrite Hc, <- Hf. destruct f; reflexivity.
Qed.

(** Conversely, a decoded frame re-encodes to the bytes it was read from. *)
Lemma MessageType_canonical raw :
  MessageType_of_u8 (MessageType_to_u8 (MessageType_of_u8 raw)) = MessageType_of_u8 raw.
Proof.
  unfold MessageType_of_u8 at 2 3. repeat case_match; b2p; try reflexivity.
  simpl. unfold MessageType_of_u8. repeat (case_match; b2p; [lia|]). reflexivity.
Qed.
Lemma MessageType_to_of_u8 raw : MessageType_to_u8 (MessageType_of_u8 raw) = raw.
Proof. unfold MessageType_of_u8. repeat case_match; b2p; simpl; lia. Qed.

Lemma decode_one_sound h f n :
  is_bytes h -> kHeaderSize <= zlen h -> decode_one h (zlen h) = Ok (Some (f, n)) ->
  valid_frame f /\ wire f = take (Z.to_nat n) h.
Proof.
  intros Hb Hl Hd. pose proof (decode_one_size h f n Hb Hd) as [Hn Hn'].
  apply decode_one_ok in Hd as (En & Hle & Ef & Em & Ev & Ek & Efl & Ep).
  pose proof (read_u32_nonneg (drop 8 h) ltac:(auto with vpn)) as Hp.
  assert (Hpl : f_payload f = slice h kHeaderSize (read_u32 (drop 8 h))) by (subst f; reflexivity).
  unfold kHeaderSize in *.
  do 20 (destruct h as [|? h];
    [exfalso; clear -Hl; unfold zlen in Hl; simpl length in Hl; lia|]).
  pose proof Hb as Hb'. unfold is_bytes in Hb'. rewrite !Forall_cons in Hb'. destruct_and!.
  cbn [drop] in *.
  assert (B : forall a b c d, in_u8 a -> in_u8 b -> in_u8 c -> in_u8 d -> is_bytes [a; b; c; d])
    by (intros; byte_list).
  assert (E32 : be32 kMagic = [z; z0; z1; z2]) by (rewrite <- Em; apply be32_read; auto).
  assert (E16 : be16 0 = [z5; z6]) by (rewrite <- Efl; apply be16_read; auto).
  assert (E32' : be32 (read_u32 (z7 :: z8 :: z9 :: z10 :: z11 :: z12 :: z13 :: z14 :: z15
      :: z16 :: z17 :: z18 :: h)) = [z7; z8; z9; z10]) by (apply be32_read; auto).
  assert (E64 : be64 (f_sequence f) = [z11; z12; z13; z14; z15; z16; z17; z18]).
  { subst f. simpl f_sequence. apply be64_read. byte_list. }
  change (at_ _ 4) with z3 in Ev. change (at_ _ 5) with z4 in Ek.
  assert (Hf0 : f_flags f = 0) by (subst f; reflexivity).
  assert (Ht : f_type f = MessageType_of_u8 z4) by (subst f; reflexivity).
  assert (Hr : zlen (f_payload f) = read_u32 (z7 :: z8 :: z9 :: z10 :: z11 :: z12 :: z13
      :: z14 :: z15 :: z16 :: z17 :: z18 :: h)) by lia.
  split.
  - unfold valid_frame. rewrite Ht, MessageType_to_of_u8, Hf0, Hr. repeat split; auto; try lia.
    + subst f. simpl. apply read_u64_range. byte_list.
    + subst f. simpl. apply read_u64_range. byte_list.
    + rewrite Hpl. auto with vpn.
  - unfold wire. rewrite Ht, MessageType_to_of_u8, Hf0, Hr, E32, E16, E32', E64, Hpl, <- Ev.
    rewrite En. rewrite (Z2Nat.inj_add 20) by lia. reflexivity.
Qed.

(** ** Lemmas: the stream *)

Lemma parses_bytes bs fs rest e : is_bytes bs -> parses bs fs rest e -> is_bytes rest.
Proof. intros Hb H. induction H; auto with vpn. Qed.

Lemma parses_det bs fs1 r1 e1 fs2 r2 e2 :
  parses bs fs1 r1 e1 -> parses bs fs2 r2 e2 -> fs1 = fs2 /\ r1 = r2 /\ e1 = e2.
Proof.
  intros H1. revert fs2 r2 e2.
  induction H1 as [| | |bs f n fs rest e Hl Hd Hp IH]; intros fs2 r2 e2 H2;
    inversion H2 as [| | |bs' f' n' fs' rest' e' Hl' Hd' Hp']; subst;
    try lia; try congruence; auto.
  - assert (e = e0) by congruence. subst. auto.
  - assert (f = f' /\ n = n') as [<- <-] by (split; congruence).
    edestruct IH as (-> & -> & ->); eauto.
Qed.

Lemma decode_one_app_some h k r :
  is_bytes h -> kHeaderSize <= zlen h -> decode_one h (zlen h) = r -> r <> Ok None ->
  decode_one (h ++ k) (zlen (h ++ k)) = r.
Proof. intros. eapply decode_one_app; eauto with vpn. Qed.

(** Parsing is incremental: the bytes left over by one part of the stream are
    parsed again together with the next part. *)
Lemma parses_app a k fs rest fs2 r2 e2 :
  is_bytes a -> parses a fs rest None -> parses (rest ++ k) fs2 r2 e2 ->
  parses (a ++ k) (fs ++ fs2) r2 e2.
Proof.
  intros Hb H. remember None as e eqn:He. revert Hb.
  induction H; intros Hb H2; try discriminate; simpl app; auto.
  pose proof (decode_one_size bs f n Hb H0) as [Hn _]. unfold kHeaderSize in *.
  eapply parses_frame with (n := n).
  - unfold kHeaderSize. rewrite zlen_app. pose proof (zlen_nonneg k). lia.
  - apply decode_one_app_some; auto; discriminate.
  - rewrite drop_app_z by lia. apply IHparses; auto with vpn.
Qed.

Lemma parses_app_err a k fs rest e :
  is_bytes a -> parses a fs rest (Some e) -> parses (a ++ k) fs (rest ++ k) (Some e).
Proof.
  intros Hb H. remember (Some e) as o eqn:He. revert Hb.
  pose proof (zlen_nonneg k).
  induction H; intros Hb; try discriminate.
  - injection He as <-. apply parses_bad.
    + rewrite zlen_app. lia.
    + apply decode_one_app_some; auto; discriminate.
  - pose proof (decode_one_size bs f n Hb H1) as [Hn _]. unfold kHeaderSize in *.
    eapply parses_frame with (n := n).
    + rewrite zlen_app. unfold kHeaderSize. lia.
    + apply decode_one_app_some; auto; discriminate.
    + rewrite drop_app_z by lia. apply IHparses; auto with vpn.
Qed.

(** The loop, started with more fuel than there are bytes, runs the reference
    parser to its end. *)
Lemma decode_loop_parses fuel buffer offset acc :
  is_bytes buffer -> 0 <= offset <= zlen buffer ->
  (length (drop (Z.to_nat offset) buffer) < fuel)%nat ->
  exists fs rest e offset',
    parses (drop (Z.to_nat offset) buffer) fs rest e /\
    offset <= offset' <= zlen buffer /\ rest = drop (Z.to_nat offset') buffer /\
    decode_loop fuel buffer offset acc
    = (match e with None => Ok (acc ++ fs) | Some e => Throw e end, offset').
Proof.
  intros Hb. revert offset acc. induction fuel as [|fuel IH]; intros offset acc Ho Hf; [lia|].
  pose proof (zlen_drop buffer offset Ho) as Hd. simpl.
  destruct (kHeaderSize <=? zlen buffer - offset) eqn:Hh; b2p.
  2:{ exists [], (drop (Z.to_nat offset) buffer), None, offset. rewrite app_nil_r.
      repeat split; auto; try lia. apply parses_short. lia. }
  destruct (decode_one _ _) as [[[f n]|]|e] eqn:E; rewrite <- Hd in *.
  - pose proof (decode_one_size _ f n (is_bytes_drop _ _ Hb) E) as [Hn _].
    unfold kHeaderSize in Hn.
    edestruct (IH (offset + n) (push_back acc f)) as (fs & rest & e & off & Hp & Hr & Hx & Hl).
    { lia. } { rewrite Z2Nat.inj_add, <- drop_drop, length_drop by lia. unfold zlen in *. lia. }
    exists (f :: fs), rest, e, off. repeat split; try lia; auto.
    + eapply parses_frame; eauto. rewrite drop_drop, <- Z2Nat.inj_add by lia. exact Hp.
    + rewrite Hl. unfold push_back. rewrite <- app_assoc. reflexivity.
  - exists [], (drop (Z.to_nat offset) buffer), None, offset. rewrite app_nil_r.
    repeat split; auto with vpn; lia.
  - exists [], (drop (Z.to_nat offset) buffer), (Some e), offset.
    repeat split; auto with vpn; lia.
Qed.

(** What one call of [push] does, in terms of the reference parser. *)
Lemma push_parses data d :
  is_bytes data -> is_bytes (d_buffer_ d) -> decoder_wf d -> d_failed_ d = false ->
  exists fs rest e d',
    parses (unread d ++ data) fs rest e /\
    push data d = (match e with None => Ok fs | Some e => Throw e end, d') /\
    unread d' = rest /\ d_failed_ d' = bool_decide (is_Some e) /\
    decoder_wf d' /\ is_bytes (d_buffer_ d').
Proof.
  intros Hx Hb Hw Hf. unfold push, push_ptr, decoder_wf in *. rewrite Hf.
  replace (take (Z.to_nat (zlen data)) data) with data
    by (unfold zlen; rewrite Nat2Z.id, take_ge by lia; reflexivity).
  assert (Hbuf : (if 0 <? d_offset_ d then drop (Z.to_nat (d_offset_ d)) (d_buffer_ d)
                  else d_buffer_ d) = unread d).
  { unfold unread. case_match; b2p; [reflexivity|].
    replace (d_offset_ d) with 0 by lia. reflexivity. }
  rewrite Hbuf. set (buffer := unread d ++ data).
  assert (Hbb : is_bytes buffer).
  { apply is_bytes_app. split; [|exact Hx]. unfold unread. auto with vpn. }
  destruct (decode_loop_parses (S (length buffer)) buffer 0 [] Hbb) as
    (fs & rest & e & off & Hp & Ho & Hr & Hl);
    [pose proof (zlen_nonneg buffer); lia|rewrite drop_0; lia|].
  exists fs, rest, e. change (drop (Z.to_nat 0) buffer) with buffer in Hp.
  rewrite Hl. simpl app. destruct e as [e|].
  - exists (mkDecoder buffer off true). rewrite bool_decide_eq_true_2 by eauto.
    unfold unread. simpl. rewrite <- Hr. auto 10.
  - rewrite bool_decide_eq_false_2 by (intros []; discriminate).
    destruct (off =? zlen buffer) eqn:Hz; b2p.
    + exists (mkDecoder [] 0 false). 
      assert (rest = []) as -> by (rewrite Hr; apply drop_ge; unfold zlen in *; lia).
      repeat split; auto; try apply Forall_nil; auto;
        cbn [d_offset_ d_buffer_]; first [apply zlen_nonneg | lia].
    + exists (mkDecoder buffer off false). unfold unread. simpl. rewrite <- Hr. auto 10.
Qed.

(** ** The decoder as a client of the stream *)

(** A decoder between two calls of [push]: the bytes it keeps hold no
    complete frame and no error. *)
Definition decoder_ready (d : FrameDecoder) : Prop :=
  is_bytes (d_buffer_ d) /\ decoder_wf d /\ d_failed_ d = false /\
  parses (unread d) [] (unread d) None.

Lemma decoder_init_ready : decoder_ready decoder_init.
Proof.
  split; [constructor|]. split; [|split; [reflexivity|apply parses_short; reflexivity]].
  unfold decoder_wf. simpl. split; [lia|apply zlen_nonneg].
Qed.
#[export] Hint Resolve decoder_init_ready : vpn.

Lemma parses_settled bs fs rest : parses bs fs rest None -> parses rest [] rest None.
Proof.
  intros H. remember None as e eqn:He.
  induction H; try discriminate; auto with vpn.
Qed.

Lemma is_bytes_unread d : is_bytes (d_buffer_ d) -> is_bytes (unread d).
Proof. unfold unread. auto with vpn. Qed.
#[export] Hint Resolve is_bytes_unread : vpn.

(** [push_parses] for a decoder between two calls. *)
Lemma push_ready data d :
  is_bytes data -> decoder_ready d ->
  exists fs rest e d',
    parses (unread d ++ data) fs rest e /\
    push data d = (match e with None => Ok fs | Some e => Throw e end, d') /\
    unread d' = rest /\ d_failed_ d' = bool_decide (is_Some e) /\
    (e = None -> decoder_ready d').
Proof.
  intros Hx (Hb & Hw & Hf & Hs).
  destruct (push_parses data d Hx Hb Hw Hf) as (fs & r & e & d' & Hp & Hq & Hu & Hf' & Hw' & Hb').
  exists fs, r, e, d'. do 4 (split; [assumption|]). intros ->.
  rewrite bool_decide_eq_false_2 in Hf' by (intros []; discriminate).
  do 3 (split; [assumption|]). rewrite Hu. eapply parses_settled; eauto.
Qed.

(** Feeding a stream in chunks parses the stream. *)
Lemma feed_parses chunks d :
  is_bytes (concat chunks) -> decoder_ready d ->
  exists fs rest e fs' d',
    parses (unread d ++ concat chunks) fs rest e /\ feed chunks d = (fs', e, d') /\
    fs' `prefix_of` fs /\ (e = None -> fs' = fs /\ unread d' = rest /\ decoder_ready d') /\
    d_failed_ d' = bool_decide (is_Some e).
Proof.
  revert d. induction chunks as [|c chunks IH]; intros d Hc Hd.
  { exists [], (unread d), None, [], d. cbn [concat]. rewrite app_nil_r.
    pose proof Hd as (? & ? & ? & ?). do 4 (split; [auto|]). assumption. }
  cbn [concat] in *. apply is_bytes_app in Hc as [Hc Hcs].
  destruct (push_ready c d Hc Hd) as (fs1 & r1 & e1 & d1 & Hp1 & Hx1 & Hu1 & Hf1 & Hd1).
  assert (Hbu : is_bytes (unread d ++ c)) by (apply is_bytes_app; destruct Hd; auto with vpn).
  cbn [feed]. rewrite Hx1. destruct e1 as [e1|].
  - exists fs1, (r1 ++ concat chunks), (Some e1), [], d1. rewrite app_assoc.
    split; [auto using parses_app_err|]. split; [reflexivity|].
    split; [apply prefix_nil|]. split; [discriminate|exact Hf1].
  - destruct (IH d1 Hcs (Hd1 eq_refl)) as (fs2 & r2 & e2 & fs2' & d2 & Hp2 & Hx2 & Hpre & Hn & Hf2).
    rewrite Hx2. exists (fs1 ++ fs2), r2, e2, (fs1 ++ fs2'), d2. rewrite app_assoc.
    split; [eapply parses_app; eauto; rewrite <- Hu1; exact Hp2|].
    split; [reflexivity|]. split; [apply prefix_app, Hpre|]. split; [|exact Hf2].
    intros He. destruct (Hn He) as (-> & ? & ?). auto.
Qed.

Lemma parses_wires fs k :
  Forall valid_frame fs -> zlen k < kHeaderSize ->
  parses (concat (map wire fs) ++ k) fs k None.
Proof.
  induction 1 as [|f fs Hf _ IH]; intros Hk; cbn [map concat].
  - apply parses_short. exact Hk.
  - pose proof (zlen_nonneg (f_payload f)). pose proof (zlen_nonneg (concat (map wire fs) ++ k)).
    rewrite <- app_assoc. eapply parses_frame.
    + rewrite zlen_app, zlen_wire. lia.
    + apply decode_one_wire. exact Hf.
    + unfold zlen at 1. rewrite Nat2Z.id, drop_app_length. auto.
Qed.

Lemma parses_sound bs fs rest e :
  is_bytes bs -> parses bs fs rest e ->
  Forall valid_frame fs /\ bs = concat (map wire fs) ++ rest.
Proof.
  intros Hb H. induction H; cbn [map concat]; auto.
  destruct (decode_one_sound bs f n Hb) as [Hv Hx]; auto.
  destruct IHparses as [Hvs Hy]; auto with vpn.
  split; [constructor; auto|]. rewrite Hx, <- app_assoc, <- Hy.
  symmetry. apply take_drop.
Qed.

(** A stream that parses to the end leaves no complete frame behind. *)
Lemma parses_leftover bs fs rest :
  is_bytes bs -> parses bs fs rest None -> zlen rest < kHeaderSize + kMaxPayloadSize.
Proof.
  intros Hb H. remember None as e eqn:He. revert Hb.
  induction H; intros Hb; try discriminate; auto with vpn.
  - unfold kMaxPayloadSize. lia.
  - unfold decode_one in H0. repeat (destr_if; try discriminate H0). b2p. lia.
Qed.

Lemma buffered_bytes_unread d : decoder_wf d -> buffered_bytes d = zlen (unread d).
Proof. intros Hw. unfold buffered_bytes, unread. rewrite zlen_drop; auto. Qed.

(** The decoder's own errors; [DecoderFailed] is for later calls. *)
Lemma parses_error_code bs fs rest e :
  parses bs fs rest (Some e) ->
  exists code what, e = ProtocolError code what /\ code <> DecoderFailed.
Proof.
  intros H. remember (Some e) as o eqn:He.
  induction H; try discriminate; auto. injection He as ->.
  unfold decode_one in H0.
  repeat (destr_if; try discriminate H0).
  all: injection H0 as <-; do 2 eexists; split; [reflexivity|discriminate].
Qed.

(** ** Properties *)

(** Encoded frames, fed in any chunks, come back. *)
Lemma feed_wires chunks fs :
  Forall valid_frame fs -> concat chunks = concat (map wire fs) ->
  exists d, feed chunks decoder_init = (fs, None, d) /\ buffered_bytes d = 0 /\ d_failed_ d = false.
Proof.
  intros Hv Hc.
  assert (Hb : is_bytes (concat chunks)).
  { rewrite Hc. clear -Hv. induction Hv; cbn [map concat]; [constructor|].
    apply is_bytes_app. auto using is_bytes_wire. }
  assert (Hpw : parses (concat chunks) fs [] None).
  { rewrite Hc, <- (app_nil_r (concat _)). apply parses_wires; [exact Hv|reflexivity]. }
  destruct (feed_parses chunks decoder_init Hb decoder_init_ready)
    as (fs' & r & e & fs'' & d & Hp & Hx & _ & Hn & Hf).
  destruct (parses_det _ _ _ _ _ _ _ Hp Hpw) as (-> & -> & ->).
  destruct (Hn eq_refl) as (-> & Hu & Hr). exists d.
  split; [exact Hx|]. split; [|exact Hf]. rewrite buffered_bytes_unread by apply Hr. rewrite Hu. reflexivity.
Qed.

(** C1: for every list of frames the encoder accepts and every way the
    transport splits their encodings into reads, the decoder delivers exactly
    those frames in order, fails on none, and keeps no byte. *)
Theorem decoder_roundtrip fs encodings chunks :
  Forall valid_frame fs ->
  Forall2 (fun f b => encode_frame f = Ok b) fs encodings ->
  concat chunks = concat encodings ->
  exists d, feed chunks decoder_init = (fs, None, d) /\
            buffered_bytes d = 0 /\ d_failed_ d = false.
Proof.
  intros Hv He Hc. apply feed_wires; [exact Hv|]. rewrite Hc. clear Hc.
  induction He as [|f b fs bs Hf He IH]; [reflexivity|]. apply Forall_cons in Hv as [Hv Hvs].
  cbn [map concat]. rewrite encode_frame_wire in Hf by assumption. injection Hf as <-. f_equal. auto.
Qed.

#[export] Instance valid_frame_dec f : Decision (valid_frame f).
Proof. unfold valid_frame, in_u64. apply _. Defined.

Definition sample_ping : Frame := mkFrame MtPing 0 1 [0; 0; 0; 0; 0; 0; 0; 9].
Definition sample_close : Frame := mkFrame MtClose 0 2 [0; 0].

Lemma decoder_roundtrip_witness :
  exists d, feed [take 3 (wire sample_ping); drop 3 (wire sample_ping) ++ [80];
                  []; drop 1 (wire sample_close)] decoder_init
            = ([sample_ping; sample_close], None, d) /\
            buffered_bytes d = 0 /\ d_failed_ d = false.
Proof.
  apply (decoder_roundtrip [sample_ping; sample_close] [wire sample_ping; wire sample_close]).
  - decide_prop.
  - repeat constructor.
  - reflexivity.
Defined.

(** C2: on any input, the frames a call of [push] returns are frames the
    encoder accepts, and their encodings followed by the bytes the decoder
    keeps are exactly the bytes it was given. *)
Theorem decoder_sound data d frames d' :
  is_bytes data -> decoder_ready d -> push data d = (Ok frames, d') ->
  Forall valid_frame frames /\ decoder_ready d' /\
  exists encodings,
    Forall2 (fun f b => encode_frame f = Ok b) frames encodings /\
    unread d ++ data = concat encodings ++ unread d'.
Proof.
  intros Hx Hd Hp.
  destruct (push_ready data d Hx Hd) as (fs & rest & e & d1 & Hps & Hq & Hu & _ & Hr).
  rewrite Hp in Hq. destruct e as [e|]; [discriminate|]. injection Hq as <- <-.
  assert (Hbu : is_bytes (unread d ++ data)) by (apply is_bytes_app; destruct Hd; auto with vpn).
  destruct (parses_sound _ _ _ _ Hbu Hps) as [Hv Hc].
  split; [exact Hv|]. split; [auto|].
  exists (map wire frames). split; [|rewrite Hu; exact Hc].
  clear -Hv. induction Hv; constructor; auto using encode_frame_wire.
Qed.

Lemma decoder_sound_witness :
  Forall valid_frame [sample_ping] /\
  decoder_ready (snd (push (wire sample_ping ++ [80; 86]) decoder_init)) /\
  exists encodings,
    Forall2 (fun f b => encode_frame f = Ok b) [sample_ping] encodings /\
    unread decoder_init ++ (wire sample_ping ++ [80; 86])
    = concat encodings ++ unread (snd (push (wire sample_ping ++ [80; 86]) decoder_init)).
Proof.
  apply (decoder_sound _ decoder_init).
  - decide_prop.
  - exact decoder_init_ready.
  - vm_compute. reflexivity.
Defined.

(** A feed that fails fails at one chunk, and delivers what the chunks before
    it hold. *)
Lemma feed_throws chunks d fs e d' :
  feed chunks d = (fs, Some e, d') ->
  exists pre c post d1,
    chunks = pre ++ c :: post /\ feed pre d = (fs, None, d1) /\ push c d1 = (Throw e, d').
Proof.
  revert d fs. induction chunks as [|c chunks IH]; intros d fs H; cbn [feed] in H; [discriminate|].
  destruct (push c d) as [[fs1|e1] d1] eqn:Hp.
  - destruct (feed chunks d1) as [[fs2 e2] d2] eqn:Hf. injection H as <- -> ->.
    destruct (IH _ _ Hf) as (pre & c' & post & d3 & -> & Hpre & Hq).
    exists (c :: pre), c', post, d3. cbn [feed]. rewrite Hp, Hpre. auto.
  - injection H as <- -> ->. exists [], c, chunks, d. auto.
Qed.

(** Without an error the frames and the leftover depend on the bytes only. *)
Lemma feed_split chunks1 chunks2 d fs d1 :
  is_bytes (concat chunks1) -> decoder_ready d -> concat chunks1 = concat chunks2 ->
  feed chunks1 d = (fs, None, d1) ->
  exists d2, feed chunks2 d = (fs, None, d2) /\ unread d1 = unread d2.
Proof.
  intros Hb Hd Hc H1. pose proof Hb as Hb2. rewrite Hc in Hb2.
  destruct (feed_parses chunks1 d Hb Hd) as (fa & ra & ea & ga & da & Pa & Qa & Xa & Na & Fa).
  destruct (feed_parses chunks2 d Hb2 Hd) as (fb & rb & eb & gb & db & Pb & Qb & Xb & Nb & Fb).
  rewrite H1 in Qa. injection Qa as <- <- <-.
  rewrite Hc in Pa. destruct (parses_det _ _ _ _ _ _ _ Pa Pb) as (-> & -> & <-).
  destruct (Na eq_refl) as (-> & Hu & _), (Nb eq_refl) as (-> & Hv & _).
  exists db. split; [exact Qb|congruence].
Qed.

(** C3: two ways to split the same bytes fail alike, with the same exception.
    Without a failure they deliver the same frames and leave the same bytes
    unread. A failure loses the frames of the read it happens in, and only
    those: the frames delivered are the ones of the reads before it, however
    the bytes of those reads are split, so of two failing splits one delivers
    a prefix of what the other delivers. *)
Theorem decoder_chunking chunks1 chunks2 d f1 e1 d1 f2 e2 d2 :
  is_bytes (concat chunks1) -> decoder_ready d -> concat chunks1 = concat chunks2 ->
  feed chunks1 d = (f1, e1, d1) -> feed chunks2 d = (f2, e2, d2) ->
  e1 = e2 /\ d_failed_ d1 = d_failed_ d2 /\
  (e1 = None -> f1 = f2 /\ unread d1 = unread d2) /\
  (f1 `prefix_of` f2 \/ f2 `prefix_of` f1) /\
  (forall e, e1 = Some e ->
     exists pre c post db,
       chunks1 = pre ++ c :: post /\ feed pre d = (f1, None, db) /\ push c db = (Throw e, d1) /\
       forall pre', concat pre = concat pre' ->
         exists db', feed pre' d = (f1, None, db') /\ unread db = unread db').
Proof.
  intros Hb Hd Hc H1 H2. pose proof Hb as Hb2. rewrite Hc in Hb2.
  destruct (feed_parses chunks1 d Hb Hd) as (fa & ra & ea & ga & da & Pa & Qa & Xa & Na & Fa).
  destruct (feed_parses chunks2 d Hb2 Hd) as (fb & rb & eb & gb & db & Pb & Qb & Xb & Nb & Fb).
  rewrite H1 in Qa. rewrite H2 in Qb. injection Qa as <- <- <-. injection Qb as <- <- <-.
  rewrite Hc in Pa. destruct (parses_det _ _ _ _ _ _ _ Pa Pb) as (-> & -> & ->).
  split; [reflexivity|]. split; [congruence|]. split.
  { intros He. destruct (Na He) as (-> & -> & _), (Nb He) as (-> & -> & _). auto. }
  split; [eapply prefix_weak_total; eauto|].
  intros e ->. destruct (feed_throws _ _ _ _ _ H1) as (pre & c & post & d3 & -> & Hpre & Hp).
  exists pre, c, post, d3. do 3 (split; [reflexivity || assumption|]).
  rewrite concat_app in Hb. apply is_bytes_app in Hb as [Hb _].
  intros pre' Hx. exact (feed_split pre pre' d f1 d3 Hb Hd Hx Hpre).
Qed.

Definition sample_bad_stream : bytes :=
  wire sample_ping ++ [0; 0; 0; 0] ++ drop 4 (wire sample_close).

Lemma decoder_chunking_witness :
  let chunks := [take 28 sample_bad_stream; drop 28 sample_bad_stream] in
  let r1 := feed [sample_bad_stream] decoder_init in
  let r2 := feed chunks decoder_init in
  snd (fst r1) = Some (ProtocolError InvalidMagic "invalid tunnel frame magic") /\
  snd (fst r1) = snd (fst r2) /\ fst (fst r1) = [] /\ fst (fst r2) = [sample_ping].
Proof.
  split; [vm_compute; reflexivity|]. split; [|vm_compute; split; reflexivity].
  set (chunks := [take 28 sample_bad_stream; drop 28 sample_bad_stream]).
  apply (decoder_chunking [sample_bad_stream] chunks decoder_init
           (fst (fst (feed [sample_bad_stream] decoder_init))) _
           (snd (feed [sample_bad_stream] decoder_init))
           (fst (fst (feed chunks decoder_init))) _ (snd (feed chunks decoder_init))).
  - decide_prop.
  - exact decoder_init_ready.
  - vm_compute. reflexivity.
  - vm_compute. reflexivity.
  - vm_compute. reflexivity.
Defined.

(** a call of [push] either returns with fewer than a maximal frame's worth
    of bytes left unread, or throws; once it has thrown a [ProtocolError] the
    decoder is failed and every later call throws [DecoderFailed] and delivers
    nothing, until [reset] makes it as good as new. *)
Theorem decoder_bounded_or_failed data d :
  is_bytes data -> decoder_ready d ->
  (exists frames d', push data d = (Ok frames, d') /\ decoder_ready d' /\
     buffered_bytes d' < kHeaderSize + kMaxPayloadSize) \/
  (exists code what d', push data d = (Throw (ProtocolError code what), d') /\
     code <> DecoderFailed /\ d_failed_ d' = true /\
     (forall more, exists what', push more d' = (Throw (ProtocolError DecoderFailed what'), d')) /\
     decoder_ready (reset d')).
Proof.
  intros Hx Hd.
  destruct (push_ready data d Hx Hd) as (fs & rest & e & d' & Hps & Hq & Hu & Hf & Hr).
  assert (Hbu : is_bytes (unread d ++ data)) by (apply is_bytes_app; destruct Hd; auto with vpn).
  destruct e as [e|].
  - right. rewrite bool_decide_eq_true_2 in Hf by eauto.
    destruct (parses_error_code _ _ _ _ Hps) as (code & what & -> & Hc).
    exists code, what, d'. do 3 (split; [assumption|]). split; [|exact decoder_init_ready].
    intros more. unfold push, push_ptr. rewrite Hf. eauto.
  - left. exists fs, d'. split; [exact Hq|]. split; [auto|].
    rewrite buffered_bytes_unread by apply (Hr eq_refl). rewrite Hu.
    eapply parses_leftover; eauto.
Qed.

Lemma decoder_bounded_or_failed_witness :
  decoder_ready decoder_init /\ is_bytes sample_bad_stream /\
  is_ok (fst (push sample_bad_stream decoder_init)) = false /\
  ((exists frames d', push sample_bad_stream decoder_init = (Ok frames, d') /\
      decoder_ready d' /\ buffered_bytes d' < kHeaderSize + kMaxPayloadSize) \/
   (exists code what d',
      push sample_bad_stream decoder_init = (Throw (ProtocolError code what), d') /\
      code <> DecoderFailed /\ d_failed_ d' = true /\
      (forall more, exists what',
         push more d' = (Throw (ProtocolError DecoderFailed what'), d')) /\
      decoder_ready (reset d'))).
Proof.
  assert (Hb : is_bytes sample_bad_stream)
    by decide_prop.
  split; [exact decoder_init_ready|]. split; [exact Hb|].
  split; [vm_compute; reflexivity|].
  exact (decoder_bounded_or_failed _ _ Hb decoder_init_ready).
Defined.
