(* ===== verification/ControlMessages.v ===== *)
(** * Control message payloads

    Models src/protocol/include/personal_vpn/control_messages.hpp and
    src/protocol/control_messages.cpp: the five payload structures, their
    encoders and decoders, and the validation of a server's IP assignment. *)
From S2P Require Import Prelude Bytes.

Definition kMinimumIpv4Mtu : Z := 576.
Definition kMinimumIpv6Mtu : Z := 1280.
Definition kMaximumTunnelMtu : Z := 9000.
Definition kCapabilityIpv4 : Z := Z.shiftl 1 0.
Definition kCapabilityIpv6 : Z := Z.shiftl 1 1.
Definition kMaximumErrorMessageSize : Z := 1024.

(** [std::array<std::uint8_t, N>] is a vector of that length. *)
Definition is_array (n : Z) (a : bytes) : Prop := is_bytes a /\ zlen a = n.

Record ClientHello := mkClientHello {
  requested_mtu : Z;
  capabilities : Z
}.

Record IpAssignment := mkIpAssignment {
  client_address : bytes;
  gateway_address : bytes;
  prefix_length : Z;
  ia_mtu : Z;
  lease_seconds : Z;
  client_ipv6_address : bytes;
  gateway_ipv6_address : bytes;
  ipv6_prefix_length : Z
}.

Record LivenessProbe := mkLivenessProbe { nonce : Z }.

Record ErrorMessage := mkErrorMessage {
  em_code : Z;
  em_message : string
}.

Record CloseMessage := mkCloseMessage { cm_code : Z }.

#[export] Instance IpAssignment_eq_dec : EqDecision IpAssignment.
Proof. solve_decision. Defined.
#[export] Instance ErrorMessage_eq_dec : EqDecision ErrorMessage.
Proof. solve_decision. Defined.

Definition validate_mtu (mtu : Z) : outcome unit :=
  reject_if ((mtu <? kMinimumIpv4Mtu) || (kMaximumTunnelMtu <? mtu))
    (InvalidArgument "tunnel MTU is outside the supported range").

Definition require_size (payload : bytes) (expected : Z) (message_name : string)
  : outcome unit :=
  reject_if (negb (zlen payload =? expected))
    (InvalidArgument (message_name +:+ " payload has an invalid length")).

Definition is_unspecified (address : bytes) : bool :=
  (at_ address 0 =? 0) && (at_ address 1 =? 0) && (at_ address 2 =? 0) && (at_ address 3 =? 0).

(** [std::all_of(..., value == 0U)] *)
Definition all_zero (l : bytes) : bool := forallb (fun value => value =? 0) l.

Definition validate_ip_assignment (message : IpAssignment) : outcome unit :=
  let? _ := reject_if (is_unspecified (client_address message) ||
                       is_unspecified (gateway_address message))
    (InvalidArgument "IP assignment cannot contain an unspecified address") in
  let? _ := reject_if ((prefix_length message =? 0) || (32 <? prefix_length message))
    (InvalidArgument "IPv4 prefix length must be between 1 and 32") in
  let? _ := validate_mtu (ia_mtu message) in
  let? _ := reject_if (lease_seconds message =? 0)
    (InvalidArgument "IP lease duration must be non-zero") in
  let has_ipv6 := negb (ipv6_prefix_length message =? 0) in
  let client_v6_unspecified := all_zero (client_ipv6_address message) in
  let gateway_v6_unspecified := all_zero (gateway_ipv6_address message) in
  let? _ := reject_if (has_ipv6 && ((128 <? ipv6_prefix_length message) ||
                         client_v6_unspecified || gateway_v6_unspecified ||
                         bool_decide (client_ipv6_address message = gateway_ipv6_address message) ||
                         (ia_mtu message <? kMinimumIpv6Mtu)))
    (InvalidArgument "IPv6 assignment is invalid") in
  reject_if (negb has_ipv6 && (negb client_v6_unspecified || negb gateway_v6_unspecified))
    (InvalidArgument "IPv6 addresses require a non-zero prefix length").

Definition encode_client_hello (message : ClientHello) : outcome bytes :=
  let? _ := reject_if ((requested_mtu message <? kMinimumIpv6Mtu) ||
                       (kMaximumTunnelMtu <? requested_mtu message))
    (InvalidArgument "dual-stack tunnel MTU is outside the supported range") in
  let? _ := reject_if ((Z.land (capabilities message) kCapabilityIpv4 =? 0) ||
      (Z.land (capabilities message) kCapabilityIpv6 =? 0) ||
      negb (Z.land (capabilities message)
              (u32 (Z.lnot (Z.lor kCapabilityIpv4 kCapabilityIpv6))) =? 0))
    (InvalidArgument "client must advertise supported IPv4 and IPv6 capabilities") in
  let output := append_u16 [] (requested_mtu message) in
  let output := append_u16 output 0 in
  Ok (append_u32 output (capabilities message)).

Definition decode_client_hello (payload : bytes) : outcome ClientHello :=
  let? _ := require_size payload 8 "CLIENT_HELLO" in
  let? _ := reject_if (negb (read_u16 (drop 2 payload) =? 0))
    (InvalidArgument "CLIENT_HELLO reserved field must be zero") in
  let message := {| requested_mtu := read_u16 payload;
                    capabilities := read_u32 (drop 4 payload) |} in
  let? _ := encode_client_hello message in
  Ok message.

Definition encode_ip_assignment (message : IpAssignment) : outcome bytes :=
  let? _ := validate_ip_assignment message in
  let output := [] ++ client_address message in
  let output := output ++ gateway_address message in
  let output := push_back output (prefix_length message) in
  let output := push_back output 0 in
  let output := append_u16 output (ia_mtu message) in
  let output := append_u32 output (lease_seconds message) in
  let output := output ++ client_ipv6_address message in
  let output := output ++ gateway_ipv6_address message in
  let output := push_back output (ipv6_prefix_length message) in
  Ok (push_back (push_back (push_back output 0) 0) 0).

Definition decode_ip_assignment (payload : bytes) : outcome IpAssignment :=
  let? _ := require_size payload 52 "IP_ASSIGN" in
  let? _ := reject_if (negb (at_ payload 9 =? 0))
    (InvalidArgument "IP_ASSIGN reserved field must be zero") in
  let message := {| client_address := slice payload 0 4;
                    gateway_address := slice payload 4 4;
                    prefix_length := at_ payload 8;
                    ia_mtu := read_u16 (drop 10 payload);
                    lease_seconds := read_u32 (drop 12 payload);
                    client_ipv6_address := slice payload 16 16;
                    gateway_ipv6_address := slice payload 32 16;
                    ipv6_prefix_length := at_ payload 48 |} in
  let? _ := reject_if (negb (at_ payload 49 =? 0) || negb (at_ payload 50 =? 0) ||
                       negb (at_ payload 51 =? 0))
    (InvalidArgument "IP_ASSIGN reserved fields must be zero") in
  let? _ := validate_ip_assignment message in
  Ok message.

Definition encode_liveness_probe (message : LivenessProbe) : outcome bytes :=
  Ok (append_u64 [] (nonce message)).

Definition decode_liveness_probe (payload : bytes) : outcome LivenessProbe :=
  let? _ := require_size payload 8 "liveness probe" in
  Ok {| nonce := read_u64 payload |}.

Definition encode_error_message (message : ErrorMessage) : outcome bytes :=
  let? _ := reject_if (kMaximumErrorMessageSize <? zlen (string_bytes (em_message message)))
    (InvalidArgument "ERROR message text exceeds the protocol limit") in
  let output := append_u16 [] (em_code message) in
  Ok (output ++ string_bytes (em_message message)).

Definition decode_error_message (payload : bytes) : outcome ErrorMessage :=
  let? _ := reject_if ((zlen payload <? 2) || (2 + kMaximumErrorMessageSize <? zlen payload))
    (InvalidArgument "ERROR payload has an invalid length") in
  Ok {| em_code := read_u16 payload; em_message := bytes_string (drop 2 payload) |}.

Definition encode_close_message (message : CloseMessage) : outcome bytes :=
  Ok (append_u16 [] (cm_code message)).

Definition decode_close_message (payload : bytes) : outcome CloseMessage :=
  let? _ := require_size payload 2 "CLOSE" in
  Ok {| cm_code := read_u16 payload |}.

(** ** Well-formed messages: every field fits its C++ type *)

Definition client_hello_wf (m : ClientHello) : Prop :=
  in_u16 (requested_mtu m) /\ in_u32 (capabilities m).
Definition ip_assignment_wf (m : IpAssignment) : Prop :=
  is_array 4 (client_address m) /\ is_array 4 (gateway_address m) /\
  in_u8 (prefix_length m) /\ in_u16 (ia_mtu m) /\ in_u32 (lease_seconds m) /\
  is_array 16 (client_ipv6_address m) /\ is_array 16 (gateway_ipv6_address m) /\
  in_u8 (ipv6_prefix_length m).
Definition liveness_probe_wf (m : LivenessProbe) : Prop := in_u64 (nonce m).
Definition error_message_wf (m : ErrorMessage) : Prop := in_u16 (em_code m).
Definition close_message_wf (m : CloseMessage) : Prop := in_u16 (cm_code m).

#[export] Instance ClientHello_codec : Codec ClientHello :=
  { codec_encode := encode_client_hello; codec_decode := decode_client_hello;
    codec_wf := client_hello_wf }.
#[export] Instance IpAssignment_codec : Codec IpAssignment :=
  { codec_encode := encode_ip_assignment; codec_decode := decode_ip_assignment;
    codec_wf := ip_assignment_wf }.
#[export] Instance LivenessProbe_codec : Codec LivenessProbe :=
  { codec_encode := encode_liveness_probe; codec_decode := decode_liveness_probe;
    codec_wf := liveness_probe_wf }.
#[export] Instance ErrorMessage_codec : Codec ErrorMessage :=
  { codec_encode := encode_error_message; codec_decode := decode_error_message;
    codec_wf := error_message_wf }.
#[export] Instance CloseMessage_codec : Codec CloseMessage :=
  { codec_encode := encode_close_message; codec_decode := decode_close_message;
    codec_wf := close_message_wf }.

(** ** The codecs are exact *)

Lemma encode_client_hello_ok m p :
  encode_client_hello m = Ok p ->
  p = be16 (requested_mtu m) ++ be16 0 ++ be32 (capabilities m) /\
  kMinimumIpv6Mtu <= requested_mtu m <= kMaximumTunnelMtu.
Proof.
  unfold encode_client_hello. intros H. inv_ok.
  rewrite append_u16_eq, append_u16_eq, append_u32_eq in H1. subst p.
  rewrite <- app_assoc. auto.
Qed.

Lemma encode_client_hello_is_ok m p :
  encode_client_hello m = Ok p -> is_ok (encode_client_hello m) = true.
Proof. intros ->. reflexivity. Qed.

#[export] Instance ClientHello_exact : CodecExact ClientHello.
Proof.
  assert (D : forall p m, is_bytes p -> decode_client_hello p = Ok m ->
    client_hello_wf m /\ encode_client_hello m = Ok p).
  { unfold decode_client_hello, require_size. intros p m Hb H. inv_ok. subst m.
    explode p H. unfold is_bytes in Hb. rewrite !Forall_cons in Hb. destruct_and!.
    cbn [drop] in *.
    split; [split; [apply u16_range | apply read_u32_range; byte_list]|].
    rewrite H1. apply encode_client_hello_ok in H1 as [-> _]. cbn [requested_mtu capabilities].
    rewrite be32_read, be16_read by (assumption || byte_list).
    rewrite <- H0, be16_read by assumption. reflexivity. }
  split; simpl.
  - intros. eapply D; eauto.
  - intros m p _ (-> & _)%encode_client_hello_ok. rewrite !is_bytes_app. auto with vpn.
  - intros m p Hw Hb. split; [intros; eapply D; eauto|].
    intros He. pose proof (encode_client_hello_ok m p He) as [-> _]. destruct Hw.
    unfold decode_client_hello, require_size.
    change (zlen _ =? 8) with true. cbn [negb reject_if obind].
    change (drop 2 _) with (be16 0 ++ be32 (capabilities m)).
    change (drop 4 _) with (be32 (capabilities m) ++ []).
    rewrite !read_be16, read_be32 by (assumption || int_lia). simpl.
    destruct m as [mtu caps]. simpl in *. rewrite He. reflexivity.
Qed.

#[export] Instance LivenessProbe_exact : CodecExact LivenessProbe.
Proof.
  split; simpl; unfold decode_liveness_probe, encode_liveness_probe, require_size.
  - intros p m Hb H. inv_ok. subst m. explode p H. apply read_u64_range. exact Hb.
  - intros m p _ H. inv_ok. subst p. rewrite append_u64_eq. simpl app. auto with vpn.
  - intros m p Hw Hb. rewrite append_u64_eq. simpl app. split; intros H.
    + inv_ok. subst m. explode p H. simpl nonce. rewrite be64_read by exact Hb. reflexivity.
    + injection H as <-. change (zlen (be64 _) =? 8) with true. simpl.
      rewrite <- (app_nil_r (be64 _)), read_be64 by exact Hw. destruct m; reflexivity.
Qed.

#[export] Instance CloseMessage_exact : CodecExact CloseMessage.
Proof.
  split; simpl; unfold decode_close_message, encode_close_message, require_size.
  - intros p m Hb H. inv_ok. subst m. apply u16_range.
  - intros m p _ H. inv_ok. subst p. rewrite append_u16_eq. simpl app. auto with vpn.
  - intros m p Hw Hb. rewrite append_u16_eq. simpl app. split; intros H.
    + inv_ok. subst m. explode p H. unfold is_bytes in Hb. rewrite !Forall_cons in Hb.
      destruct_and!. simpl cm_code. rewrite be16_read by assumption. reflexivity.
    + injection H as <-. change (zlen (be16 _) =? 2) with true. simpl.
      rewrite <- (app_nil_r (be16 _)), read_be16 by exact Hw. destruct m; reflexivity.
Qed.

#[export] Instance ErrorMessage_exact : CodecExact ErrorMessage.
Proof.
  split; simpl; unfold decode_error_message, encode_error_message.
  - intros p m Hb H. inv_ok. subst m. apply u16_range.
  - intros m p _ H. inv_ok. subst p. rewrite append_u16_eq, !is_bytes_app.
    repeat split; auto with vpn. apply Forall_nil. exact I.
  - intros m p Hw Hb. rewrite append_u16_eq, app_nil_l, !obind_reject. split.
    + destruct (_ || _) eqn:Hl; [discriminate|]. intros <-%ok_inj. b2p.
      cbn [em_message em_code].
      destruct p as [|a [|b p]]; [unfold zlen in *; cbn [length] in *; lia..|].
      cbn [drop]. rewrite string_bytes_string by (inversion Hb as [|? ? ? Hb']; inversion Hb'; auto).
      rewrite !zlen_cons in H0. rewrite drop_0, (proj2 (Z.ltb_ge _ _)) by lia.
      rewrite be16_read by (apply (proj1 (Forall_forall _ _) Hb); set_solver). reflexivity.
    + destruct (_ <? _) eqn:Hl; [discriminate|]. intros <-%ok_inj. b2p.
      rewrite zlen_app. change (zlen (be16 _)) with 2.
      pose proof (zlen_nonneg (string_bytes (em_message m))).
      rewrite (proj2 (Z.ltb_ge _ 2)), (proj2 (Z.ltb_ge _ _)) by lia. cbn [orb].
      rewrite read_be16 by exact Hw. change (drop 2 (be16 (em_code m) ++ ?l)) with l.
      rewrite bytes_string_bytes. destruct m; reflexivity.
Qed.

(** *** IP_ASSIGN *)

Lemma encode_ip_assignment_eq m :
  encode_ip_assignment m =
  (let? _ := validate_ip_assignment m in
   Ok (client_address m ++ gateway_address m ++ [prefix_length m; 0] ++ be16 (ia_mtu m)
       ++ be32 (lease_seconds m) ++ client_ipv6_address m ++ gateway_ipv6_address m
       ++ [ipv6_prefix_length m; 0; 0; 0])).
Proof.
  unfold encode_ip_assignment, push_back. rewrite append_u32_eq, append_u16_eq.
  destruct (validate_ip_assignment m); [|reflexivity]. simpl obind. simpl ([] ++ _).
  rewrite <- !app_assoc. reflexivity.
Qed.

Lemma is_array_4 a : is_array 4 a ->
  exists b0 b1 b2 b3, a = [b0; b1; b2; b3] /\ in_u8 b0 /\ in_u8 b1 /\ in_u8 b2 /\ in_u8 b3.
Proof.
  intros [Hb Hl]. explode a Hl. unfold is_bytes in Hb. rewrite !Forall_cons in Hb.
  destruct_and!. eauto 10.
Qed.

(** The payload of an assignment, and the assignment of a payload. *)
Lemma decode_ip_assignment_sound p m :
  is_bytes p -> decode_ip_assignment p = Ok m ->
  ip_assignment_wf m /\ encode_ip_assignment m = Ok p.
Proof.
  unfold decode_ip_assignment, require_size. intros Hb H. inv_ok. subst m.
  explode p H. unfold is_bytes in Hb. rewrite !Forall_cons in Hb. destruct_and!.
  match goal with H : validate_ip_assignment _ = Ok _ |- _ => rename H into Hv end.
  rewrite encode_ip_assignment_eq. rewrite Hv. clear Hv. unfold ip_assignment_wf, is_array.
  unfold at_, slice in *. const_to_nat. cbn -[read_u16 read_u32 be16 be32 zlen in_u8] in *. subst.
  split.
  - repeat match goal with |- _ /\ _ => split end;
      try (assumption || reflexivity || byte_list || apply u16_range).
    apply read_u32_range; byte_list.
  - rewrite be16_read, be32_read by (assumption || byte_list). reflexivity.
Qed.

Lemma decode_ip_assignment_complete m p :
  ip_assignment_wf m -> encode_ip_assignment m = Ok p -> decode_ip_assignment p = Ok m.
Proof.
  intros (Hc & Hg & Hp & Hm & Hs & Hc6 & Hg6 & Hp6). rewrite encode_ip_assignment_eq.
  destruct m as [c g pl mtu ls c6 g6 p6]. cbn [client_address gateway_address prefix_length
    ia_mtu lease_seconds client_ipv6_address gateway_ipv6_address ipv6_prefix_length] in *.
  intros (u & Hv & <-%ok_inj)%obind_ok. destruct u.
  destruct Hc as [_ Lc], Hg as [_ Lg], Hc6 as [_ Lc6], Hg6 as [_ Lg6].
  explode c Lc. explode g Lg. explode c6 Lc6. explode g6 Lg6.
  unfold decode_ip_assignment, require_size.
  match goal with |- context [zlen ?p] => set (payload := p) end.
  change (drop 10 payload) with (be16 mtu ++ drop 12 payload).
  change (drop 12 payload) with (be32 ls ++ drop 16 payload).
  rewrite read_be16, read_be32 by assumption.
  unfold payload, at_, slice. const_to_nat.
  cbn -[be16 be32 validate_ip_assignment Z.eqb]. cbn [negb orb reject_if obind].
  change (zlen _ =? 52) with true. cbn [be16 be32 app take negb reject_if obind].
  cbn -[validate_ip_assignment]. rewrite Hv. reflexivity.
Qed.

#[export] Instance IpAssignment_exact : CodecExact IpAssignment.
Proof.
  split; simpl.
  - intros p m Hb H. apply (decode_ip_assignment_sound p m Hb H).
  - intros m p (Hc & Hg & Hp & Hm & Hs & Hc6 & Hg6 & Hp6). rewrite encode_ip_assignment_eq.
    intros (u & _ & <-%ok_inj)%obind_ok. unfold is_array in *. destruct_and!.
    assert (in_u8 0) by int_lia.
    rewrite !is_bytes_app. repeat split; auto with vpn; byte_list.
  - intros m p Hw Hb. split; intros H.
    + apply (decode_ip_assignment_sound p m Hb H).
    + apply decode_ip_assignment_complete; assumption.
Qed.

(** ** Exceptions of the payload codecs *)

(** Only [invalid_argument], with a message that fits an ERROR payload. *)
Definition invalid_only {A} (m : outcome A) : Prop :=
  match m with
  | Ok _ => True
  | Throw (InvalidArgument what) => zlen (string_bytes what) <= kMaximumErrorMessageSize
  | Throw _ => False
  end.

Lemma invalid_only_bind {A B} (m : outcome A) (k : A -> outcome B) :
  invalid_only m -> (forall a, invalid_only (k a)) -> invalid_only (obind m k).
Proof. destruct m as [a|[]]; cbn; auto. Qed.
Lemma invalid_only_reject b what :
  (zlen (string_bytes what) <=? kMaximumErrorMessageSize) = true ->
  invalid_only (reject_if b (InvalidArgument what)).
Proof. intros ?%Z.leb_le. destruct b; cbn; auto. Qed.
Lemma invalid_only_inv {A} (m : outcome A) e :
  invalid_only m -> m = Throw e ->
  exists what, e = InvalidArgument what /\ zlen (string_bytes what) <= kMaximumErrorMessageSize.
Proof. intros H ->. destruct e; try contradiction. eauto. Qed.

Ltac invalid_only_tac :=
  repeat first
    [ exact I | apply invalid_only_reject; reflexivity
    | apply invalid_only_bind; [|intros ?] | progress unfold require_size, validate_mtu ].

Lemma decode_client_hello_throws p : invalid_only (decode_client_hello p).
Proof. unfold decode_client_hello, encode_client_hello. invalid_only_tac. Qed.
Lemma decode_liveness_probe_throws p : invalid_only (decode_liveness_probe p).
Proof. unfold decode_liveness_probe. invalid_only_tac. Qed.
Lemma decode_close_message_throws p : invalid_only (decode_close_message p).
Proof. unfold decode_close_message. invalid_only_tac. Qed.
Lemma decode_error_message_throws p : invalid_only (decode_error_message p).
Proof. unfold decode_error_message. invalid_only_tac. Qed.
Lemma encode_ip_assignment_throws m : invalid_only (encode_ip_assignment m).
Proof. unfold encode_ip_assignment, validate_ip_assignment. invalid_only_tac. Qed.

(** The size of a literal message. *)
Ltac short_text := vm_compute; discriminate.

Lemma encode_error_message_short code what :
  zlen (string_bytes what) <= kMaximumErrorMessageSize ->
  encode_error_message (mkErrorMessage code what) = Ok (be16 code ++ string_bytes what).
Proof.
  intros H. unfold encode_error_message. cbn [em_message em_code].
  rewrite obind_reject. destruct (Z.ltb_spec kMaximumErrorMessageSize (zlen (string_bytes what))); [lia|].
  cbn zeta. rewrite append_u16_eq. reflexivity.
Qed.

Lemma decode_error_payload code what :
  in_u16 code -> zlen (string_bytes what) <= kMaximumErrorMessageSize ->
  decode_error_message (be16 code ++ string_bytes what) = Ok (mkErrorMessage code what).
Proof.
  intros Hc Hw. refine (proj2 (codec_exact (A := ErrorMessage) (mkErrorMessage code what) _ Hc _) _).
  - apply is_bytes_app. split; auto with vpn.
  - apply encode_error_message_short. assumption.
Qed.

(** Both controllers report a sequence number out of turn with this text. *)
Lemma sequence_message_short n :
  in_u64 n ->
  zlen (string_bytes ("unexpected inbound sequence; expected " +:+ to_string n))
  <= kMaximumErrorMessageSize.
Proof.
  intros Hn. rewrite string_bytes_length, string_app_length.
  pose proof (to_string_length _ Hn).
  change (String.length "unexpected inbound sequence; expected ") with 38%nat.
  unfold kMaximumErrorMessageSize. lia.
Qed.

(** ** What a valid assignment is *)

Definition zeros (n : nat) : bytes := replicate n 0.

(** The declarative reading of [validate_ip_assignment]. *)
Record assignment_valid (m : IpAssignment) : Prop := {
  av_client : client_address m <> zeros 4;
  av_gateway : gateway_address m <> zeros 4;
  av_prefix : 1 <= prefix_length m <= 32;
  av_mtu : kMinimumIpv4Mtu <= ia_mtu m <= kMaximumTunnelMtu;
  av_lease : 0 < lease_seconds m;
  av_no_ipv6 : ipv6_prefix_length m = 0 ->
    client_ipv6_address m = zeros 16 /\ gateway_ipv6_address m = zeros 16;
  av_ipv6 : ipv6_prefix_length m <> 0 ->
    ipv6_prefix_length m <= 128 /\ client_ipv6_address m <> zeros 16 /\
    gateway_ipv6_address m <> zeros 16 /\
    client_ipv6_address m <> gateway_ipv6_address m /\ kMinimumIpv6Mtu <= ia_mtu m
}.

Lemma is_unspecified_zeros a : zlen a = 4 -> is_unspecified a = true <-> a = zeros 4.
Proof.
  intros Hl. explode a Hl. unfold is_unspecified, at_. const_to_nat. cbn [nth zeros replicate].
  split; [intros H; b2p; subst; reflexivity|].
  intros [= -> -> -> ->]. reflexivity.
Qed.

Lemma all_zero_zeros a n : zlen a = Z.of_nat n -> all_zero a = true <-> a = zeros n.
Proof.
  unfold zlen. intros Hl. apply Nat2Z.inj in Hl. subst n. unfold all_zero, zeros.
  induction a as [|b a IH]; simpl; [intuition|]. rewrite andb_true_iff, IH, Z.eqb_eq.
  split; [intros [-> H]; f_equal; exact H|]. intros [= -> H]. auto.
Qed.

Lemma bool_neg_iff (b : bool) (P : Prop) : (b = true <-> P) -> b = false <-> ~ P.
Proof. destruct b; intuition congruence. Qed.

Lemma validate_ip_assignment_spec m :
  ip_assignment_wf m -> validate_ip_assignment m = Ok tt <-> assignment_valid m.
Proof.
  intros ([_ Lc] & [_ Lg] & Hp & Hm & Hs & [_ Lc6] & [_ Lg6] & Hp6).
  pose proof (bool_neg_iff _ _ (is_unspecified_zeros _ Lc)) as Ec.
  pose proof (bool_neg_iff _ _ (is_unspecified_zeros _ Lg)) as Eg.
  pose proof (all_zero_zeros _ 16 Lc6) as Ec6. pose proof (bool_neg_iff _ _ Ec6) as Nc6.
  pose proof (all_zero_zeros _ 16 Lg6) as Eg6. pose proof (bool_neg_iff _ _ Eg6) as Ng6.
  unfold validate_ip_assignment, validate_mtu.
  rewrite !reject_then, reject_if_ok, !orb_false_iff, !Z.ltb_ge, !Z.eqb_neq, Ec, Eg.
  destruct (Z.eqb_spec (ipv6_prefix_length m) 0) as [E0|E0]; cbn [negb andb].
  - rewrite !orb_false_iff, !negb_false_iff, Ec6, Eg6. split.
    + intros H. destruct_and!. split; try tauto; int_lia.
    + intros [A B D E F G _]. specialize (G E0). split_goal; try tauto; int_lia.
  - rewrite !orb_false_iff, Z.ltb_ge, Z.ltb_ge, bool_decide_eq_false, Nc6, Ng6. split.
    + intros H. destruct_and!. split; try tauto; int_lia.
    + intros [A B D E F _ G]. specialize (G E0). split_goal; try tauto; int_lia.
Qed.

(** ** Properties *)

(** C4: every control message codec is exact: a payload decodes to a message
    if and only if that message is valid and encodes to that payload, so
    decoding inverts encoding and no two payloads mean the same message. *)
Theorem control_codecs_exact p :
  is_bytes p ->
  (forall m, client_hello_wf m -> decode_client_hello p = Ok m <-> encode_client_hello m = Ok p) /\
  (forall m, ip_assignment_wf m ->
     decode_ip_assignment p = Ok m <-> encode_ip_assignment m = Ok p) /\
  (forall m, liveness_probe_wf m ->
     decode_liveness_probe p = Ok m <-> encode_liveness_probe m = Ok p) /\
  (forall m, error_message_wf m ->
     decode_error_message p = Ok m <-> encode_error_message m = Ok p) /\
  (forall m, close_message_wf m ->
     decode_close_message p = Ok m <-> encode_close_message m = Ok p).
Proof.
  intros Hb. split_goal; intros m Hm.
  - exact (codec_exact (A := ClientHello) m p Hm Hb).
  - exact (codec_exact (A := IpAssignment) m p Hm Hb).
  - exact (codec_exact (A := LivenessProbe) m p Hm Hb).
  - exact (codec_exact (A := ErrorMessage) m p Hm Hb).
  - exact (codec_exact (A := CloseMessage) m p Hm Hb).
Qed.

Definition sample_hello : ClientHello := mkClientHello 1400 3.
Definition sample_hello_bytes : bytes := [5; 120; 0; 0; 0; 0; 0; 3].

Lemma control_codecs_exact_witness :
  decode_client_hello sample_hello_bytes = Ok sample_hello /\
  encode_client_hello sample_hello = Ok sample_hello_bytes.
Proof.
  split; [vm_compute; reflexivity|].
  assert (Hb : is_bytes sample_hello_bytes) by decide_prop.
  apply (proj1 (control_codecs_exact sample_hello_bytes Hb)).
  - unfold client_hello_wf. simpl. int_lia.
  - vm_compute. reflexivity.
Defined.

(** a server assignment encodes exactly when it is one a client can use:
    non-zero IPv4 addresses and lease, a prefix of 1 to 32, an MTU of 576 to
    9000, and either no IPv6 at all or two distinct non-zero IPv6 addresses, a
    prefix of at most 128 and an MTU of at least 1280; an invalid one is
    refused with [std::invalid_argument] on both sides. *)
Theorem ip_assignment_valid_iff m :
  ip_assignment_wf m ->
  (is_ok (encode_ip_assignment m) = true <-> assignment_valid m) /\
  (~ assignment_valid m -> exists what, encode_ip_assignment m = Throw (InvalidArgument what)).
Proof.
  intros Hw. rewrite encode_ip_assignment_eq. rewrite <- (validate_ip_assignment_spec m Hw).
  destruct (validate_ip_assignment m) as [[]|e] eqn:E; simpl; [intuition|].
  split; [split; discriminate|]. intros _.
  unfold validate_ip_assignment, validate_mtu in E. rewrite !obind_reject in E.
  repeat (destr_if; [injection E as <-; eauto|]).
  unfold reject_if in E. destr_if; [injection E as <-; eauto | discriminate].
Qed.

Definition sample_assignment : IpAssignment :=
  mkIpAssignment [10; 8; 0; 2] [10; 8; 0; 1] 24 1400 3600
    ([253; 0; 0; 8] ++ zeros 8 ++ [10; 8; 0; 2]) ([253; 0; 0; 8] ++ zeros 11 ++ [1]) 64.

#[export] Instance ip_assignment_wf_dec m : Decision (ip_assignment_wf m).
Proof. unfold ip_assignment_wf, is_array, in_u16, in_u32. apply _. Defined.

Lemma ip_assignment_valid_iff_witness :
  is_ok (encode_ip_assignment sample_assignment) = true /\ assignment_valid sample_assignment.
Proof.
  assert (H : is_ok (encode_ip_assignment sample_assignment) = true) by (vm_compute; reflexivity).
  split; [exact H|]. apply (ip_assignment_valid_iff sample_assignment).
  - decide_prop.
  - exact H.
Defined.
