(* ===== verification/Address.v ===== *)
(** * Textual addresses

    Models [parse_ipv4_address], [format_ipv4_address], [parse_ipv6_address]
    and [format_ipv6_address] of src/core/lease_manager.cpp, on top of the
    standard library's [std::from_chars] and [std::string::find].  The IPv6
    text functions of the IP library are parameters. *)
From S2P Require Import Prelude.

(** ** [std::string::find] and [std::from_chars] *)

(** Index of the first [c] in [l]. *)
Fixpoint index_of (c : Z) (l : bytes) : option Z :=
  match l with
  | [] => None
  | b :: l' => if b =? c then Some 0 else option_map Z.succ (index_of c l')
  end.

(** [text.find(c, begin)]; [None] is [npos]. *)
Definition find (text : bytes) (c begin_ : Z) : option Z :=
  option_map (Z.add begin_) (index_of c (drop (Z.to_nat begin_) text)).

Definition is_digit (c : Z) : bool := (48 <=? c) && (c <=? 57).

(** The longest prefix of decimal digits: its value and its length. *)
Fixpoint scan_digits (value count : Z) (l : bytes) : Z * Z :=
  match l with
  | c :: l' => if is_digit c then scan_digits (value * 10 + (c - 48)) (count + 1) l'
               else (value, count)
  | [] => (value, count)
  end.

(** [std::from_chars(first, last, value, 10)] for an unsigned [value] of maximum
    [maximum]: the value and the distance from [first] to [result.ptr], or
    [None] when [result.ec] is set. *)
Definition from_chars (maximum : Z) (text : bytes) : option (Z * Z) :=
  let '(value, count) := scan_digits 0 0 text in
  if count =? 0 then None else if maximum <? value then None else Some (value, count).

(** The idiom [ec == errc{} && ptr == last]: the whole text is a number. *)
Definition from_chars_all (maximum : Z) (text : bytes) : option Z :=
  match from_chars maximum text with
  | Some (value, consumed) => if consumed =? zlen text then Some value else None
  | None => None
  end.

(** ** IPv4 *)

(** Iterations [component .. 3] of the loop of [parse_ipv4_address];
    [remaining] is [address.size() - component]. *)
Fixpoint parse_components (remaining : nat) (text : bytes) (begin_ : Z) : outcome bytes :=
  match remaining with
  | O => Ok []
  | S remaining' =>
      let end_ := find text 46 begin_ in
      let component_end := default (zlen text) end_ in
      if component_end =? begin_ then
        Throw (InvalidArgument "IPv4 address contains an empty component")
      else
        match from_chars_all (2 ^ 32 - 1) (slice text begin_ (component_end - begin_)) with
        | None => Throw (InvalidArgument "IPv4 address contains an invalid component")
        | Some value =>
            if 255 <? value then
              Throw (InvalidArgument "IPv4 address contains an invalid component")
            else
              match remaining', end_ with
              | S _, None =>
                  Throw (InvalidArgument "IPv4 address has too few components")
              | S _, Some e =>
                  let? rest := parse_components remaining' text (e + 1) in
                  Ok (u8 value :: rest)
              | O, Some _ =>
                  Throw (InvalidArgument "IPv4 address has too many components")
              | O, None => Ok [u8 value]
              end
        end
  end.

Definition parse_ipv4_address (text : string) : outcome bytes :=
  parse_components 4 (string_bytes text) 0.

Definition format_ipv4_address (address : bytes) : string :=
  to_string (at_ address 0) +:+ "." +:+ to_string (at_ address 1) +:+ "." +:+
  to_string (at_ address 2) +:+ "." +:+ to_string (at_ address 3).

(** ** IPv6 *)

(** What the sources use of [boost::asio::ip]: [make_address_v6] (the bytes and
    the scope identifier, or an error code), [address_v6::to_string] and
    [make_address] ([true] for an IPv6 result). *)
Class IpLibrary := {
  make_address_v6 : string -> option (bytes * Z);
  address_v6_to_string : bytes -> string;
  make_address : string -> option (bool * Z)
}.

Section Ipv6.
Context `{IpLibrary}.

Definition parse_ipv6_address (text : string) : outcome bytes :=
  match make_address_v6 text with
  | Some (bytes_, scope_id) =>
      if negb (scope_id =? 0)
      then Throw (InvalidArgument "IPv6 address is invalid or has a scope identifier")
      else Ok bytes_
  | None => Throw (InvalidArgument "IPv6 address is invalid or has a scope identifier")
  end.

Definition format_ipv6_address (address : bytes) : string := address_v6_to_string address.
End Ipv6.

(** ** Lemmas *)

Lemma string_bytes_app s t : string_bytes (s +:+ t) = string_bytes s ++ string_bytes t.
Proof. induction s as [|a s IH]; simpl; [reflexivity|]. rewrite <- IH. reflexivity. Qed.

(** A decimal number as the parser sees it. *)
Definition is_number (d : bytes) (value : Z) : Prop :=
  d <> [] /\ forallb is_digit d = true /\ scan_digits 0 0 d = (value, zlen d).

(** Every octet prints as its number: decided for the 256 of them. *)
Lemma to_string_octet n : in_u8 n -> is_number (string_bytes (to_string n)) n.
Proof.
  intros Hn.
  assert (A : forallb (fun n => let d := string_bytes (to_string n) in
      negb (bool_decide (d = [])) && forallb is_digit d &&
      bool_decide (scan_digits 0 0 d = (n, zlen d))) (seqZ 0 256) = true)
    by (vm_compute; reflexivity).
  rewrite forallb_forall in A. specialize (A n).
  rewrite <- list_elem_of_In, elem_of_seqZ in A. specialize (A ltac:(int_lia)).
  cbv zeta in A. b2p. repeat split; assumption.
Qed.

Lemma index_of_digits d rest :
  forallb is_digit d = true -> index_of 46 (d ++ 46 :: rest) = Some (zlen d).
Proof.
  induction d as [|c d IH]; intros H; [reflexivity|].
  cbn [forallb] in H. apply andb_true_iff in H as [Hc H]. cbn [app index_of].
  rewrite (proj2 (Z.eqb_neq c 46)) by (unfold is_digit in Hc; b2p; lia).
  rewrite (IH H). cbn [option_map]. rewrite zlen_cons. f_equal. lia.
Qed.
Lemma index_of_digits_none d : forallb is_digit d = true -> index_of 46 d = None.
Proof.
  induction d as [|c d IH]; intros H; [reflexivity|].
  cbn [forallb] in H. apply andb_true_iff in H as [Hc H]. cbn [index_of].
  rewrite (proj2 (Z.eqb_neq c 46)) by (unfold is_digit in Hc; b2p; lia).
  rewrite (IH H). reflexivity.
Qed.

Lemma from_chars_all_number d value maximum :
  is_number d value -> value <= maximum -> from_chars_all maximum d = Some value.
Proof.
  intros (Hn & _ & Hs) Hm. unfold from_chars_all, from_chars. rewrite Hs.
  rewrite (proj2 (Z.eqb_neq _ 0)), (proj2 (Z.ltb_ge _ _)), Z.eqb_refl; [reflexivity|lia|].
  intros H. apply Hn, zlen_0, H.
Qed.

Lemma slice_mid pre d rest : slice (pre ++ d ++ rest) (zlen pre) (zlen d) = d.
Proof. unfold slice. rewrite drop_zlen_app. apply take_zlen_app. Qed.

(** One iteration on a component that is followed by a dot, and on the last. *)
Lemma parse_component_dot n pre d value rest :
  is_number d value -> in_u8 value ->
  parse_components (S (S n)) (pre ++ d ++ 46 :: rest) (zlen pre) =
  (let? tl := parse_components (S n) ((pre ++ d ++ [46]) ++ rest) (zlen (pre ++ d ++ [46])) in
   Ok (value :: tl)).
Proof.
  intros Hd Hv. pose proof Hd as (Hne & Hdig & _).
  assert (Hf : find (pre ++ d ++ 46 :: rest) 46 (zlen pre) = Some (zlen pre + zlen d)).
  { unfold find. rewrite drop_zlen_app, index_of_digits by exact Hdig.
    reflexivity. }
  remember (S n) as m. cbn [parse_components]. rewrite Hf. cbn [default id].
  assert (zlen d <> 0) by (intros E; apply Hne, zlen_0, E).
  rewrite (proj2 (Z.eqb_neq (zlen pre + zlen d) _)) by lia.
  replace (zlen pre + zlen d - zlen pre) with (zlen d) by lia. rewrite slice_mid.
  rewrite (from_chars_all_number d value) by (assumption || int_lia).
  rewrite (proj2 (Z.ltb_ge 255 value)), u8_id by (assumption || int_lia).
  subst m. rewrite !zlen_app, <- !app_assoc. cbn [app].
  change (zlen [46]) with 1. rewrite Z.add_assoc. reflexivity.
Qed.

Lemma parse_component_last pre d value :
  is_number d value -> in_u8 value ->
  parse_components 1 (pre ++ d) (zlen pre) = Ok [value].
Proof.
  intros Hd Hv. pose proof Hd as (Hne & Hdig & _).
  assert (Hf : find (pre ++ d) 46 (zlen pre) = None).
  { unfold find. rewrite drop_zlen_app, index_of_digits_none by exact Hdig.
    reflexivity. }
  cbn [parse_components]. rewrite Hf. cbn [default].
  assert (zlen d <> 0) by (intros E; apply Hne, zlen_0, E).
  rewrite zlen_app. rewrite (proj2 (Z.eqb_neq (zlen pre + zlen d) _)) by lia.
  replace (zlen pre + zlen d - zlen pre) with (zlen d) by lia.
  pose proof (slice_mid pre d []) as Hs. rewrite app_nil_r in Hs. rewrite Hs.
  rewrite (from_chars_all_number d value) by (assumption || int_lia).
  rewrite (proj2 (Z.ltb_ge 255 value)), u8_id by (assumption || int_lia). reflexivity.
Qed.

Lemma parse_format_ipv4 a :
  is_bytes a -> zlen a = 4 -> parse_ipv4_address (format_ipv4_address a) = Ok a.
Proof.
  intros Hb Hl. explode a Hl. unfold is_bytes in Hb. rewrite !Forall_cons in Hb. destruct_and!.
  unfold parse_ipv4_address, format_ipv4_address, at_. const_to_nat. cbn [nth].
  rewrite !string_bytes_app. change (string_bytes ".") with [46]. cbn [app].
  pose proof (to_string_octet z ltac:(assumption)) as N0.
  pose proof (to_string_octet z0 ltac:(assumption)) as N1.
  pose proof (to_string_octet z1 ltac:(assumption)) as N2.
  pose proof (to_string_octet z2 ltac:(assumption)) as N3.
  rewrite <- (app_nil_l (string_bytes (to_string z) ++ _)). change 0 with (zlen (@nil Z)) at 1.
  rewrite (parse_component_dot 2 _ _ z _ N0) by assumption.
  rewrite (parse_component_dot 1 _ _ z0 _ N1) by assumption.
  rewrite (parse_component_dot 0 _ _ z1 _ N2) by assumption.
  rewrite (parse_component_last _ _ z2 N3) by assumption.
  reflexivity.
Qed.

(** The characters of an address in text. *)
Lemma format_ipv4_chars a c :
  is_bytes a -> zlen a = 4 -> c ∈ string_bytes (format_ipv4_address a) -> is_digit c = true \/ c = 46.
Proof.
  intros Hb Hl. explode a Hl. unfold is_bytes in Hb. rewrite !Forall_cons in Hb. destruct_and!.
  unfold format_ipv4_address, at_. const_to_nat. cbn [nth].
  rewrite !string_bytes_app. change (string_bytes ".") with [46].
  assert (D : forall n, in_u8 n -> c ∈ string_bytes (to_string n) -> is_digit c = true).
  { intros n Hn Hc. destruct (to_string_octet n Hn) as (_ & Hd & _).
    rewrite forallb_forall in Hd. apply Hd. apply list_elem_of_In. assumption. }
  rewrite !elem_of_app, !list_elem_of_singleton. intros Hc.
  repeat match type of Hc with _ \/ _ => destruct Hc as [Hc|Hc] end; eauto.
Qed.

Lemma index_of_absent c l rest : c ∉ l -> index_of c (l ++ c :: rest) = Some (zlen l).
Proof.
  induction l as [|b l IH]; intros Hc; cbn [app index_of]; [rewrite Z.eqb_refl; reflexivity|].
  apply not_elem_of_cons in Hc as [Hb Hc].
  rewrite (proj2 (Z.eqb_neq b c)) by congruence. rewrite (IH Hc). cbn [option_map].
  rewrite zlen_cons. f_equal. lia.
Qed.

Lemma index_of_none c l : c ∉ l -> index_of c l = None.
Proof.
  induction l as [|b l IH]; intros Hc; cbn [index_of]; [reflexivity|].
  apply not_elem_of_cons in Hc as [Hb Hc].
  rewrite (proj2 (Z.eqb_neq b c)) by congruence. rewrite (IH Hc). reflexivity.
Qed.

(** ** Property *)

(** The text of every IPv4 address parses back to that address. *)
Theorem ipv4_text_roundtrip a :
  is_bytes a -> zlen a = 4 -> parse_ipv4_address (format_ipv4_address a) = Ok a.
Proof. apply parse_format_ipv4. Qed.

Lemma ipv4_text_roundtrip_witness :
  parse_ipv4_address (format_ipv4_address [10; 8; 0; 254]) = Ok [10; 8; 0; 254].
Proof. apply (ipv4_text_roundtrip [10; 8; 0; 254]); [decide_prop | reflexivity]. Defined.
