(* ===== verification/LeaseManager.v ===== *)
(** * Virtual address leases

    Models [LeaseManager] of src/core/lease_manager.cpp and
    src/core/include/personal_vpn/lease_manager.hpp: the pool of IPv4 (and
    derived IPv6) addresses, one lease per identity, expiry and generations.
    Every public operation runs under the manager's mutex, so it is one step
    of this model.  A time point is a [Z] of nanoseconds. *)
From S2P Require Import Prelude Bytes ControlMessages.

Record Lease := mkLease {
  lease_id : Z;
  l_identity : string;
  l_address : bytes;
  l_ipv6_address : bytes;
  expires_at : Z
}.

#[export] Instance Lease_eq_dec : EqDecision Lease.
Proof. solve_decision. Defined.

Record LeaseManager := mkLeaseManager {
  first_address_ : Z;
  last_address_ : Z;
  gateway_address_ : bytes;
  prefix_length_ : Z;
  mtu_ : Z;
  lease_duration_ : Z; (* std::chrono::seconds *)
  ipv6_prefix_ : bytes;
  ipv6_gateway_ : bytes;
  ipv6_prefix_length_ : Z;
  leases_by_identity_ : gmap string Lease;
  identity_by_address_ : gmap Z string;
  next_lease_id_ : Z
}.

Definition to_integer (address : bytes) : Z := read_u32 address.

Definition from_integer (address : Z) : bytes :=
  [u8 (Z.land (Z.shiftr address 24) 255); u8 (Z.land (Z.shiftr address 16) 255);
   u8 (Z.land (Z.shiftr address 8) 255); u8 (Z.land address 255)].

Definition seconds (n : Z) : Z := n * 1000000000.

(** [prefix == 32 ? max : max << (32 - prefix)] on [std::uint32_t] *)
Definition prefix_mask (prefix : Z) : Z :=
  if prefix =? 32 then 2 ^ 32 - 1 else u32 (Z.shiftl (2 ^ 32 - 1) (32 - prefix)).

(** The constructor's checks, in order. *)
Definition make_LeaseManager (first_address last_address gateway_address : bytes)
    (prefix_length mtu lease_duration : Z) (ipv6_prefix ipv6_gateway : bytes)
    (ipv6_prefix_length : Z) : outcome LeaseManager :=
  let first_ := to_integer first_address in
  let last_ := to_integer last_address in
  let? _ := reject_if (last_ <? first_)
    (InvalidArgument "first lease address must not exceed the last address") in
  let? _ := reject_if (is_unspecified gateway_address)
    (InvalidArgument "lease gateway must not be unspecified") in
  let? _ := reject_if ((prefix_length =? 0) || (32 <? prefix_length))
    (InvalidArgument "lease prefix length must be between 1 and 32") in
  let? _ := reject_if ((mtu <? kMinimumIpv4Mtu) || (kMaximumTunnelMtu <? mtu))
    (InvalidArgument "lease MTU is outside the supported range") in
  let? _ := reject_if ((lease_duration <=? 0) || (2 ^ 32 - 1 <? u64 lease_duration))
    (InvalidArgument "lease duration is outside the protocol range") in
  let? _ :=
    if negb (ipv6_prefix_length =? 0) then
      let? _ := reject_if (negb (ipv6_prefix_length =? 64) || all_zero ipv6_gateway)
        (InvalidArgument "IPv6 lease pool requires a non-zero gateway and /64 prefix") in
      let? _ := reject_if (negb (bool_decide (slice ipv6_prefix 0 8 = slice ipv6_gateway 0 8)))
        (InvalidArgument "IPv6 gateway must belong to the configured /64 prefix") in
      reject_if (negb (all_zero (drop 8 ipv6_prefix)))
        (InvalidArgument "IPv6 lease prefix must be canonical /64 network address")
    else Ok tt in
  let gateway := to_integer gateway_address in
  let? _ := reject_if ((first_ <=? gateway) && (gateway <=? last_))
    (InvalidArgument "lease pool must not contain the gateway address") in
  let mask := prefix_mask prefix_length in
  let network := Z.land gateway mask in
  let? _ := reject_if (negb (Z.land first_ mask =? network) || negb (Z.land last_ mask =? network))
    (InvalidArgument "lease pool and gateway must belong to the configured subnet") in
  let? _ :=
    if prefix_length <=? 30 then
      let broadcast := Z.lor network (u32 (Z.lnot mask)) in
      reject_if ((first_ <=? network) || (broadcast <=? last_))
        (InvalidArgument "lease pool must exclude network and broadcast addresses")
    else Ok tt in
  Ok {| first_address_ := first_; last_address_ := last_; gateway_address_ := gateway_address;
        prefix_length_ := prefix_length; mtu_ := mtu; lease_duration_ := lease_duration;
        ipv6_prefix_ := ipv6_prefix; ipv6_gateway_ := ipv6_gateway;
        ipv6_prefix_length_ := ipv6_prefix_length;
        leases_by_identity_ := ∅; identity_by_address_ := ∅; next_lease_id_ := 1 |}.

(** The three mutable members. *)
Definition with_state (lm : LeaseManager) (leases : gmap string Lease)
    (identities : gmap Z string) (next : Z) : LeaseManager :=
  {| first_address_ := first_address_ lm; last_address_ := last_address_ lm;
     gateway_address_ := gateway_address_ lm; prefix_length_ := prefix_length_ lm;
     mtu_ := mtu_ lm; lease_duration_ := lease_duration_ lm; ipv6_prefix_ := ipv6_prefix_ lm;
     ipv6_gateway_ := ipv6_gateway_ lm; ipv6_prefix_length_ := ipv6_prefix_length_ lm;
     leases_by_identity_ := leases; identity_by_address_ := identities;
     next_lease_id_ := next |}.

(** The iteration order of [std::unordered_map] is unspecified, as is that of
    [map_fold]. *)
Definition reap_expired_locked (now : Z) : M LeaseManager Z := fun lm =>
  let '(removed, leases, identities) :=
    map_fold (fun identity lease '(removed, leases, identities) =>
      if expires_at lease <=? now
      then (removed + 1, delete identity leases,
            delete (to_integer (l_address lease)) identities)
      else (removed, leases, identities))
    (0, leases_by_identity_ lm, identity_by_address_ lm) (leases_by_identity_ lm) in
  (Ok removed, with_state lm leases identities (next_lease_id_ lm)).

(** The lease that [acquire] builds for the free address [candidate]. *)
Definition issue (identity : string) (now candidate : Z) : M LeaseManager Lease := fun lm =>
  if next_lease_id_ lm =? 0 then
    (Throw (RuntimeError "virtual IP lease generation is exhausted"), lm)
  else
    let ipv4 := from_integer candidate in
    let ipv6 := if negb (ipv6_prefix_length_ lm =? 0)
                then slice (ipv6_prefix_ lm) 0 8 ++ zeros 4 ++ ipv4 else zeros 16 in
    if negb (ipv6_prefix_length_ lm =? 0) && bool_decide (ipv6 = ipv6_gateway_ lm) then
      (Throw (RuntimeError "derived IPv6 lease collides with gateway address"), lm)
    else
      let lease := mkLease (next_lease_id_ lm) identity ipv4 ipv6
                     (now + seconds (lease_duration_ lm)) in
      (Ok lease,
       with_state lm (<[identity := lease]> (leases_by_identity_ lm))
         (<[candidate := identity]> (identity_by_address_ lm))
         (u64 (next_lease_id_ lm + 1))).

(** [for (candidate = first_address_;; ++candidate)] *)
Fixpoint acquire_loop (fuel : nat) (identity : string) (now candidate : Z)
  : M LeaseManager Lease := fun lm =>
  match fuel with
  | O => (Throw (RuntimeError "virtual IP lease pool is exhausted"), lm)
  | S fuel' =>
      match identity_by_address_ lm !! candidate with
      | None => issue identity now candidate lm
      | Some _ =>
          if candidate =? last_address_ lm
          then (Throw (RuntimeError "virtual IP lease pool is exhausted"), lm)
          else acquire_loop fuel' identity now (u32 (candidate + 1)) lm
      end
  end.

Definition pool_size (lm : LeaseManager) : Z := last_address_ lm - first_address_ lm + 1.

Definition acquire (identity : string) (now : Z) : M LeaseManager Lease :=
  if bool_decide (identity = "") then
    throw (InvalidArgument "lease identity must not be empty")
  else
    let* _ := reap_expired_locked now in
    let* lm := get in
    match leases_by_identity_ lm !! identity with
    | Some _ => throw (RuntimeError "identity already has an active virtual IP lease")
    | None => acquire_loop (Z.to_nat (pool_size lm)) identity now (first_address_ lm)
    end.

Definition find_by_identity (identity : string) (now : Z) : M LeaseManager (option Lease) :=
  let* _ := reap_expired_locked now in
  let* lm := get in
  ret (leases_by_identity_ lm !! identity).

(** The test shared by [renew] and [release]: the identity's current lease is
    the expected one. *)
Definition current_lease (lm : LeaseManager) (expected_lease : Lease) : option Lease :=
  match leases_by_identity_ lm !! l_identity expected_lease with
  | Some lease =>
      if negb (lease_id lease =? lease_id expected_lease) ||
         negb (bool_decide (l_address lease = l_address expected_lease))
      then None else Some lease
  | None => None
  end.

Definition renew (expected_lease : Lease) (now : Z) : M LeaseManager (option Lease) :=
  let* _ := reap_expired_locked now in
  let* lm := get in
  match current_lease lm expected_lease with
  | None => ret None
  | Some lease =>
      let lease := mkLease (lease_id lease) (l_identity lease) (l_address lease)
                     (l_ipv6_address lease) (now + seconds (lease_duration_ lm)) in
      let* _ := modify (fun lm => with_state lm
        (<[l_identity expected_lease := lease]> (leases_by_identity_ lm))
        (identity_by_address_ lm) (next_lease_id_ lm)) in
      ret (Some lease)
  end.

Definition owns (identity : string) (address : bytes) (now : Z) : M LeaseManager bool :=
  let* _ := reap_expired_locked now in
  let* lm := get in
  ret (match leases_by_identity_ lm !! identity with
       | Some lease => bool_decide (l_address lease = address)
       | None => false
       end).

Definition release (expected_lease : Lease) : M LeaseManager bool :=
  let* lm := get in
  match current_lease lm expected_lease with
  | None => ret false
  | Some lease =>
      let* _ := modify (fun lm => with_state lm
        (delete (l_identity expected_lease) (leases_by_identity_ lm))
        (delete (to_integer (l_address lease)) (identity_by_address_ lm))
        (next_lease_id_ lm)) in
      ret true
  end.

Definition reap_expired (now : Z) : M LeaseManager Z := reap_expired_locked now.

Definition active_count (now : Z) : M LeaseManager Z :=
  let* _ := reap_expired_locked now in
  let* lm := get in
  ret (Z.of_nat (size (leases_by_identity_ lm))).

Definition available_count (now : Z) : M LeaseManager Z :=
  let* _ := reap_expired_locked now in
  let* lm := get in
  ret (u64 (pool_size lm - Z.of_nat (size (leases_by_identity_ lm)))).

Definition to_assignment (lm : LeaseManager) (lease : Lease) : IpAssignment :=
  {| client_address := l_address lease;
     gateway_address := gateway_address_ lm;
     prefix_length := prefix_length_ lm;
     ia_mtu := mtu_ lm;
     lease_seconds := u32 (lease_duration_ lm);
     client_ipv6_address := l_ipv6_address lease;
     gateway_ipv6_address := ipv6_gateway_ lm;
     ipv6_prefix_length := ipv6_prefix_length_ lm |}.

(** ** Invariant

    [identity_by_address_] is the index of [leases_by_identity_] by address,
    so no two identities share an address; every lease lies in the pool and
    carries an identifier that was issued once. *)

(** What the constructor has checked. *)
Record config_ok (lm : LeaseManager) : Prop := {
  cfg_order : first_address_ lm <= last_address_ lm;
  cfg_first : in_u32 (first_address_ lm);
  cfg_last : in_u32 (last_address_ lm);
  cfg_gateway : is_array 4 (gateway_address_ lm);
  cfg_gateway_set : is_unspecified (gateway_address_ lm) = false;
  cfg_gateway_outside : ~ (first_address_ lm <= to_integer (gateway_address_ lm) <= last_address_ lm);
  cfg_prefix : 1 <= prefix_length_ lm <= 32;
  cfg_mtu : kMinimumIpv4Mtu <= mtu_ lm <= kMaximumTunnelMtu;
  cfg_duration : 0 < lease_duration_ lm < 2 ^ 32;
  cfg_prefix6 : is_array 16 (ipv6_prefix_ lm);
  cfg_gateway6 : is_array 16 (ipv6_gateway_ lm);
  cfg_prefix_length6 : ipv6_prefix_length_ lm = 0 \/
    ipv6_prefix_length_ lm = 64 /\ all_zero (ipv6_gateway_ lm) = false /\
    slice (ipv6_prefix_ lm) 0 8 = slice (ipv6_gateway_ lm) 0 8
}.

(** The IPv6 address that goes with an IPv4 address of the pool. *)
Definition derive_ipv6 (lm : LeaseManager) (ipv4 : bytes) : bytes :=
  if negb (ipv6_prefix_length_ lm =? 0)
  then slice (ipv6_prefix_ lm) 0 8 ++ zeros 4 ++ ipv4 else zeros 16.

Definition collides6 (lm : LeaseManager) (ipv4 : bytes) : bool :=
  negb (ipv6_prefix_length_ lm =? 0) && bool_decide (derive_ipv6 lm ipv4 = ipv6_gateway_ lm).

(** The identifier [n] has been handed out; after 2^64 - 1 of them
    [next_lease_id_] is 0. *)
Definition issued (lm : LeaseManager) (n : Z) : Prop :=
  1 <= n < 2 ^ 64 /\ (next_lease_id_ lm = 0 \/ n < next_lease_id_ lm).

Record lease_ok (lm : LeaseManager) (i : string) (l : Lease) : Prop := {
  lo_identity : l_identity l = i;
  lo_nonempty : i <> "";
  lo_address : l_address l = from_integer (to_integer (l_address l));
  lo_pool : first_address_ lm <= to_integer (l_address l) <= last_address_ lm;
  lo_ipv6 : l_ipv6_address l = derive_ipv6 lm (l_address l);
  lo_gateway6 : collides6 lm (l_address l) = false;
  lo_id : issued lm (lease_id l)
}.

Record lm_inv (lm : LeaseManager) : Prop := {
  inv_config : config_ok lm;
  inv_index a i : identity_by_address_ lm !! a = Some i <->
    exists l, leases_by_identity_ lm !! i = Some l /\ to_integer (l_address l) = a;
  inv_lease i l : leases_by_identity_ lm !! i = Some l -> lease_ok lm i l;
  inv_ids i j l k :
    leases_by_identity_ lm !! i = Some l -> leases_by_identity_ lm !! j = Some k ->
    lease_id l = lease_id k -> i = j;
  inv_next : in_u64 (next_lease_id_ lm)
}.

(** The leases that a call at [now] sees. *)
Definition live (now : Z) (lm : LeaseManager) : gmap string Lease :=
  filter (fun il => now < expires_at il.2) (leases_by_identity_ lm).

(** An address some live lease holds. *)
Definition taken (now : Z) (lm : LeaseManager) (a : Z) : Prop :=
  exists i l, live now lm !! i = Some l /\ to_integer (l_address l) = a.

(** One public operation, at any time and with any outcome. *)
Inductive lm_step : LeaseManager -> LeaseManager -> Prop :=
| step_acquire i now lm : lm_step lm (acquire i now lm).2
| step_find i now lm : lm_step lm (find_by_identity i now lm).2
| step_renew l now lm : lm_step lm (renew l now lm).2
| step_owns i a now lm : lm_step lm (owns i a now lm).2
| step_release l lm : lm_step lm (release l lm).2
| step_reap now lm : lm_step lm (reap_expired now lm).2
| step_active now lm : lm_step lm (active_count now lm).2
| step_available now lm : lm_step lm (available_count now lm).2.

(** ** Lemmas *)

Lemma from_integer_be32 a : from_integer a = be32 a.
Proof.
  unfold from_integer, be32. rewrite !shifted_byte, low_byte by lia. reflexivity.
Qed.
Lemma to_integer_from a : in_u32 a -> to_integer (from_integer a) = a.
Proof.
  intros. rewrite from_integer_be32. unfold to_integer.
  rewrite <- (app_nil_r (be32 a)). apply read_be32. assumption.
Qed.
Lemma from_integer_array a : is_array 4 (from_integer a).
Proof. rewrite from_integer_be32. split; [apply is_bytes_be32|reflexivity]. Qed.
Lemma from_to_integer a : is_array 4 a -> from_integer (to_integer a) = a.
Proof.
  intros (b0 & b1 & b2 & b3 & -> & ? & ? & ? & ?)%is_array_4.
  rewrite from_integer_be32. apply be32_read. byte_list.
Qed.
Lemma to_integer_range a : is_array 4 a -> in_u32 (to_integer a).
Proof.
  intros (b0 & b1 & b2 & b3 & -> & ? & ? & ? & ?)%is_array_4.
  apply read_u32_range. byte_list.
Qed.

Lemma live_lookup now lm i l :
  live now lm !! i = Some l <-> leases_by_identity_ lm !! i = Some l /\ now < expires_at l.
Proof. unfold live. apply map_lookup_filter_Some. Qed.

Lemma lease_ok_with_state lm i l leases ids next :
  lease_ok lm i l -> (forall n, issued lm n -> issued (with_state lm leases ids next) n) ->
  lease_ok (with_state lm leases ids next) i l.
Proof. intros [] Hn. constructor; auto. Qed.

Lemma config_ok_with_state lm leases ids next :
  config_ok lm -> config_ok (with_state lm leases ids next).
Proof. intros []. constructor; auto. Qed.

(** The manager's invariant after a change of its three mutable members. *)
Lemma lm_inv_with_state lm leases ids next :
  lm_inv lm -> in_u64 next ->
  (forall a i, ids !! a = Some i <->
     exists l, leases !! i = Some l /\ to_integer (l_address l) = a) ->
  (forall i l, leases !! i = Some l -> lease_ok (with_state lm leases ids next) i l) ->
  (forall i j l k, leases !! i = Some l -> leases !! j = Some k ->
     lease_id l = lease_id k -> i = j) ->
  lm_inv (with_state lm leases ids next).
Proof. intros [] ????. constructor; auto using config_ok_with_state. Qed.

(** *** Expiry *)

(** The effect of the loop over [m] on the maps [L] and [I]. *)
Definition reap_post (now : Z) (L : gmap string Lease) (I : gmap Z string)
    (r : Z * gmap string Lease * gmap Z string) (m : gmap string Lease) : Prop :=
  let '(removed, L', I') := r in
  let hit a := exists i l, m !! i = Some l /\ expires_at l <= now /\ to_integer (l_address l) = a in
  removed = Z.of_nat (size (filter (fun il => expires_at il.2 <= now) m)) /\
  (forall i, L' !! i = match m !! i with
                       | Some l => if expires_at l <=? now then None else L !! i
                       | None => L !! i
                       end) /\
  (forall a, (I' !! a = None /\ hit a) \/ (I' !! a = I !! a /\ ~ hit a)).

Lemma reap_fold now L I m :
  reap_post now L I
    (map_fold (fun identity lease '(removed, leases, identities) =>
      if expires_at lease <=? now
      then (removed + 1, delete identity leases,
            delete (to_integer (l_address lease)) identities)
      else (removed, leases, identities)) (0, L, I) m) m.
Proof.
  apply (fin_maps.map_fold_weak_ind (reap_post now L I)).
  - unfold reap_post. split_goal.
    + rewrite map_filter_empty. reflexivity.
    + intros. rewrite lookup_empty. reflexivity.
    + intros a. right. split; [reflexivity|]. intros (i & l & H & _).
      rewrite lookup_empty in H. discriminate.
  - clear m. intros i l m [[removed L'] I'] Hi (Hr & HL & HI).
    destruct (expires_at l <=? now) eqn:E; b2p; unfold reap_post; split_goal.
    + rewrite map_filter_insert_True, map_size_insert_None by
        (auto; rewrite map_lookup_filter_None; auto). lia.
    + intros j. destruct (decide (i = j)) as [->|Hne].
      * rewrite lookup_delete_eq, lookup_insert_eq. destruct (Z.leb_spec (expires_at l) now); [reflexivity|lia].
      * rewrite lookup_delete_ne, lookup_insert_ne, HL by assumption. reflexivity.
    + intros a. destruct (decide (to_integer (l_address l) = a)) as [<-|Hne].
      * left. rewrite lookup_delete_eq. split; [reflexivity|]. exists i, l. rewrite lookup_insert_eq. auto.
      * rewrite lookup_delete_ne by assumption.
        destruct (HI a) as [(? & j & k & ? & ? & ?)|[? Hno]].
        -- left. split; [assumption|]. exists j, k. rewrite lookup_insert_ne by congruence. auto.
        -- right. split; [assumption|]. intros (j & k & Hj & ? & ?).
           apply lookup_insert_Some in Hj as [[<- <-]|[? ?]]; [congruence|]. apply Hno. eauto.
    + rewrite map_filter_insert_False by (simpl; lia).
      rewrite delete_id by assumption. exact Hr.
    + intros j. rewrite HL. destruct (decide (i = j)) as [->|Hne].
      * rewrite lookup_insert_eq, Hi. destruct (Z.leb_spec (expires_at l) now); [lia|reflexivity].
      * rewrite lookup_insert_ne by assumption. reflexivity.
    + intros a. destruct (HI a) as [(? & j & k & ? & ? & ?)|[? Hno]].
      * left. split; [assumption|]. exists j, k. rewrite lookup_insert_ne by congruence. auto.
      * right. split; [assumption|]. intros (j & k & Hj & ? & ?).
        apply lookup_insert_Some in Hj as [[<- <-]|[? ?]]; [lia|]. apply Hno. eauto.
Qed.

(** The state every timed operation works on. *)
Lemma reap_spec now lm :
  lm_inv lm ->
  exists removed ids,
    reap_expired_locked now lm = (Ok removed, with_state lm (live now lm) ids (next_lease_id_ lm)) /\
    removed + Z.of_nat (size (live now lm)) = Z.of_nat (size (leases_by_identity_ lm)) /\
    lm_inv (with_state lm (live now lm) ids (next_lease_id_ lm)).
Proof.
  intros Hinv. unfold reap_expired_locked.
  pose proof (reap_fold now (leases_by_identity_ lm) (identity_by_address_ lm)
                (leases_by_identity_ lm)) as H.
  destruct (map_fold _ _ _) as [[removed L'] I']. destruct H as (Hr & HL & HI).
  assert (HL' : L' = live now lm).
  { apply map_eq. intros i. rewrite HL. destruct (leases_by_identity_ lm !! i) as [l|] eqn:E.
    - destruct (Z.leb_spec (expires_at l) now); symmetry.
      + apply map_lookup_filter_None. right. intros k Hk ?. simpl in *. simplify_eq. lia.
      + apply live_lookup. auto.
    - symmetry. apply map_lookup_filter_None. auto. }
  subst L'. exists removed, I'. split; [reflexivity|]. split.
  { rewrite Hr. unfold live. rewrite <- Nat2Z.inj_add. f_equal.
    replace (filter (fun il => expires_at il.2 <= now) (leases_by_identity_ lm))
      with (filter (fun il => ~ now < expires_at il.2) (leases_by_identity_ lm))
      by (apply fin_maps.map_filter_ext; simpl; intros; lia).
    rewrite Nat.add_comm, <- map_size_disj_union by apply map_disjoint_filter_complement.
    rewrite map_filter_union_complement. reflexivity. }
  destruct Hinv as [Hc Hi Hl Hu Hn]. apply lm_inv_with_state; [constructor; auto|auto| | |].
  - intros a i. destruct (HI a) as [(-> & j & k & Hj & Hexp & <-)|[-> Hno]].
    + split; [discriminate|]. intros (l & [? ?]%live_lookup & Ha).
      assert (Some i = Some j) as [= ->].
      { transitivity (identity_by_address_ lm !! to_integer (l_address k)); [symmetry|]; apply Hi; eauto. }
      simplify_eq. lia.
    + rewrite Hi. split; intros (l & H & Ha).
      * exists l. split; [|assumption]. apply live_lookup. split; [assumption|].
        destruct (Z.lt_ge_cases now (expires_at l)); [assumption|]. destruct Hno. eauto.
      * apply live_lookup in H as [? ?]. eauto.
  - intros i l [? ?]%live_lookup. apply lease_ok_with_state; auto.
  - intros i j l k [? ?]%live_lookup [? ?]%live_lookup. eauto.
Qed.

Lemma live_with_state now lm leases ids next :
  live now (with_state lm leases ids next) = filter (fun il => now < expires_at il.2) leases.
Proof. reflexivity. Qed.

Lemma live_idemp now lm ids next :
  live now (with_state lm (live now lm) ids next) = live now lm.
Proof.
  apply map_eq. intros i. apply option_eq. intros l.
  rewrite live_lookup. cbn [leases_by_identity_ with_state]. rewrite live_lookup. tauto.
Qed.

(** *** Acquisition *)

(** The loop over the pool: it stops at the first address that is not taken,
    or past the last one. *)
Lemma acquire_loop_spec fuel identity now c lm :
  in_u32 (last_address_ lm) -> 0 <= c <= last_address_ lm ->
  (Z.to_nat (last_address_ lm - c) < fuel)%nat ->
  (exists a, c <= a <= last_address_ lm /\ identity_by_address_ lm !! a = None /\
     (forall b, c <= b < a -> is_Some (identity_by_address_ lm !! b)) /\
     acquire_loop fuel identity now c lm = issue identity now a lm) \/
  ((forall b, c <= b <= last_address_ lm -> is_Some (identity_by_address_ lm !! b)) /\
   acquire_loop fuel identity now c lm =
     (Throw (RuntimeError "virtual IP lease pool is exhausted"), lm)).
Proof.
  intros Hlast. revert c. induction fuel as [|fuel IH]; intros c Hc Hf; [lia|].
  cbn [acquire_loop]. destruct (identity_by_address_ lm !! c) as [i|] eqn:E.
  - destruct (Z.eqb_spec c (last_address_ lm)) as [->|Hne].
    + right. split; [|reflexivity]. intros b Hb. replace b with (last_address_ lm) by lia. eauto.
    + rewrite u32_id by int_lia.
      destruct (IH (c + 1)) as [(a & Ha & Hfree & Hlow & ->)|[Hall ->]]; [lia..| |].
      * left. exists a. split_goal; auto; try lia. intros b Hb.
        destruct (decide (b = c)) as [->|]; [eauto|]. apply Hlow. lia.
      * right. split; [|reflexivity]. intros b Hb.
        destruct (decide (b = c)) as [->|]; [eauto|]. apply Hall. lia.
  - left. exists c. split_goal; auto; lia.
Qed.

(** The lease for the address [a]. *)
Definition new_lease (lm : LeaseManager) (identity : string) (now a : Z) : Lease :=
  mkLease (next_lease_id_ lm) identity (from_integer a) (derive_ipv6 lm (from_integer a))
    (now + seconds (lease_duration_ lm)).

Lemma issue_eq identity now a lm :
  issue identity now a lm =
  if next_lease_id_ lm =? 0
  then (Throw (RuntimeError "virtual IP lease generation is exhausted"), lm)
  else if collides6 lm (from_integer a)
  then (Throw (RuntimeError "derived IPv6 lease collides with gateway address"), lm)
  else (Ok (new_lease lm identity now a),
        with_state lm (<[identity := new_lease lm identity now a]> (leases_by_identity_ lm))
          (<[a := identity]> (identity_by_address_ lm)) (u64 (next_lease_id_ lm + 1))).
Proof. reflexivity. Qed.

Lemma issued_next lm leases ids n :
  in_u64 (next_lease_id_ lm) -> next_lease_id_ lm <> 0 ->
  issued (with_state lm leases ids (u64 (next_lease_id_ lm + 1))) n <->
  issued lm n \/ n = next_lease_id_ lm.
Proof.
  unfold issued. cbn [next_lease_id_ with_state]. intros Hn H0.
  assert (u64 (next_lease_id_ lm + 1) = next_lease_id_ lm + 1 \/
          next_lease_id_ lm = 2 ^ 64 - 1 /\ u64 (next_lease_id_ lm + 1) = 0) by div_lia.
  int_lia.
Qed.

Lemma issue_inv identity now a lm :
  lm_inv lm -> identity <> "" -> leases_by_identity_ lm !! identity = None ->
  identity_by_address_ lm !! a = None -> first_address_ lm <= a <= last_address_ lm ->
  lm_inv (issue identity now a lm).2.
Proof.
  intros Hinv Hne Hid Ha Hr. rewrite issue_eq.
  destruct (Z.eqb_spec (next_lease_id_ lm) 0) as [|Hn0]; [assumption|].
  destruct (collides6 _ _) eqn:Ec; [assumption|]. simpl snd.
  pose proof Hinv as [Hc Hi Hl Hu Hn].
  assert (Hu32 : in_u32 a) by (destruct Hc; int_lia).
  pose proof (to_integer_from a Hu32) as Hta.
  apply lm_inv_with_state; [assumption|apply u64_range|..].
  - intros b i. destruct (decide (b = a)) as [->|Hba].
    + rewrite lookup_insert_eq. split.
      * intros [= <-]. eexists. rewrite lookup_insert_eq. split; [reflexivity|]. exact Hta.
      * intros (l & [[<- _]|[? Hl']]%lookup_insert_Some & Hb); [reflexivity|].
        assert (identity_by_address_ lm !! a = Some i) by (apply Hi; eauto). congruence.
    + rewrite lookup_insert_ne, Hi by congruence. split; intros (l & Hl' & Hb).
      * exists l. rewrite lookup_insert_ne by congruence. auto.
      * apply lookup_insert_Some in Hl' as [[<- <-]|[? ?]]; [|eauto].
        cbn [l_address new_lease] in Hb. congruence.
  - intros i l [[<- <-]|[? Hl']]%lookup_insert_Some.
    + constructor; cbn [l_identity l_address l_ipv6_address lease_id new_lease];
        rewrite ?Hta; auto; try reflexivity.
      apply issued_next; auto.
    + apply lease_ok_with_state; [auto|]. intros n ?. apply issued_next; auto.
  - assert (Hold : forall j k, leases_by_identity_ lm !! j = Some k -> lease_id k <> next_lease_id_ lm).
    { intros j k Hk%Hl. destruct Hk as [_ _ _ _ _ _ [? ?]]. lia. }
    intros i j l k [[<- <-]|[? Hl']]%lookup_insert_Some [[<- <-]|[? Hk']]%lookup_insert_Some;
      cbn [lease_id new_lease]; intros Heq; [reflexivity|..].
    + apply Hold in Hk'. congruence.
    + apply Hold in Hl'. congruence.
    + eauto.
Qed.

(** *** The operations, as functions of the live leases *)

(** [b] is [a] with other leases and another generation counter. *)
Definition same_pool (a b : LeaseManager) : Prop :=
  exists leases ids next, b = with_state a leases ids next.

Lemma same_pool_refl lm : same_pool lm lm.
Proof. exists (leases_by_identity_ lm), (identity_by_address_ lm), (next_lease_id_ lm). destruct lm; reflexivity. Qed.
Lemma same_pool_with_state lm leases ids next : same_pool lm (with_state lm leases ids next).
Proof. repeat eexists. Qed.
Lemma same_pool_trans a b c : same_pool a b -> same_pool b c -> same_pool a c.
Proof. intros (l1&i1&n1&->) (l2&i2&n2&->). exists l2, i2, n2. reflexivity. Qed.
#[export] Hint Resolve same_pool_refl same_pool_with_state : vpn.

(** What every public operation leaves behind: the invariant, the pool, and
    the leases [leases] under the counter [next]. *)
Record moved (lm lm' : LeaseManager) (leases : gmap string Lease) (next : Z) : Prop := {
  mv_inv : lm_inv lm';
  mv_pool : same_pool lm lm';
  mv_leases : leases_by_identity_ lm' = leases;
  mv_next : next_lease_id_ lm' = next
}.

Lemma moved_refl lm : lm_inv lm -> moved lm lm (leases_by_identity_ lm) (next_lease_id_ lm).
Proof. constructor; auto with vpn. Qed.

(** A timed operation is [reap_expired_locked] and then its own work on a
    manager that only has live leases. *)
Lemma reaped now lm {A} (k : Z -> M LeaseManager A) :
  lm_inv lm ->
  exists removed lm', (let* r := reap_expired_locked now in k r) lm = k removed lm' /\
    removed + Z.of_nat (size (live now lm)) = Z.of_nat (size (leases_by_identity_ lm)) /\
    moved lm lm' (live now lm) (next_lease_id_ lm).
Proof.
  intros Hinv. destruct (reap_spec now lm Hinv) as (removed & ids & E & Hr & Hinv').
  exists removed, (with_state lm (live now lm) ids (next_lease_id_ lm)).
  unfold bind. rewrite E. split; [reflexivity|]. split; [assumption|].
  constructor; auto with vpn.
Qed.

Ltac step_reap Hinv lm' Hm :=
  match goal with
  | |- context [bind (reap_expired_locked ?now) ?k ?lm] =>
      destruct (reaped now lm k Hinv) as (? & lm' & -> & ? & Hm)
  end.

(** The lease of [expected]'s identity when it is [expected]'s generation. *)
Definition matches (expected : Lease) (leases : gmap string Lease) : option Lease :=
  match leases !! l_identity expected with
  | Some l => if (lease_id l =? lease_id expected) && bool_decide (l_address l = l_address expected)
              then Some l else None
  | None => None
  end.

Lemma current_lease_matches lm l : current_lease lm l = matches l (leases_by_identity_ lm).
Proof.
  unfold current_lease, matches. destruct (_ !! _) as [k|]; [|reflexivity].
  rewrite <- negb_andb. destruct (_ && _)%bool; reflexivity.
Qed.

Lemma matches_some e leases l :
  matches e leases = Some l <->
  leases !! l_identity e = Some l /\ lease_id l = lease_id e /\ l_address l = l_address e.
Proof.
  unfold matches. destruct (leases !! l_identity e) as [k|]; [|split; [discriminate|intros [[=] _]]].
  destruct (_ && _)%bool eqn:E; b2p.
  - split; [intros [= <-]; auto|intros ([= ->] & _); reflexivity].
  - split; [discriminate|]. intros ([= ->] & Hid & Ha). destruct E; b2p; congruence.
Qed.

(** A renewed lease. *)
Definition prolong (lm : LeaseManager) (now : Z) (l : Lease) : Lease :=
  mkLease (lease_id l) (l_identity l) (l_address l) (l_ipv6_address l)
    (now + seconds (lease_duration_ lm)).

Lemma find_spec i now lm :
  lm_inv lm ->
  (find_by_identity i now lm).1 = Ok (live now lm !! i) /\
  moved lm (find_by_identity i now lm).2 (live now lm) (next_lease_id_ lm).
Proof.
  intros Hinv. unfold find_by_identity.
  step_reap Hinv lm' Hm.
  cbn. rewrite (mv_leases _ _ _ _ Hm). auto.
Qed.

Lemma owns_spec i a now lm :
  lm_inv lm ->
  (owns i a now lm).1 = Ok (match live now lm !! i with
                            | Some l => bool_decide (l_address l = a) | None => false end) /\
  moved lm (owns i a now lm).2 (live now lm) (next_lease_id_ lm).
Proof.
  intros Hinv. unfold owns.
  step_reap Hinv lm' Hm.
  cbn. rewrite (mv_leases _ _ _ _ Hm). auto.
Qed.

Lemma reap_op_spec now lm :
  lm_inv lm ->
  (exists removed, (reap_expired now lm).1 = Ok removed /\
     removed + Z.of_nat (size (live now lm)) = Z.of_nat (size (leases_by_identity_ lm))) /\
  moved lm (reap_expired now lm).2 (live now lm) (next_lease_id_ lm).
Proof.
  intros Hinv. unfold reap_expired. destruct (reap_spec now lm Hinv) as (r & ids & -> & Hr & ?).
  split; [eauto|]. constructor; cbn; auto with vpn.
Qed.

Lemma active_spec now lm :
  lm_inv lm ->
  (active_count now lm).1 = Ok (Z.of_nat (size (live now lm))) /\
  moved lm (active_count now lm).2 (live now lm) (next_lease_id_ lm).
Proof.
  intros Hinv. unfold active_count.
  step_reap Hinv lm' Hm.
  cbn. rewrite (mv_leases _ _ _ _ Hm). auto.
Qed.

Lemma available_spec now lm :
  lm_inv lm ->
  (available_count now lm).1 = Ok (u64 (pool_size lm - Z.of_nat (size (live now lm)))) /\
  moved lm (available_count now lm).2 (live now lm) (next_lease_id_ lm).
Proof.
  intros Hinv. unfold available_count.
  step_reap Hinv lm' Hm.
  cbn. rewrite (mv_leases _ _ _ _ Hm). destruct (mv_pool _ _ _ _ Hm) as (l1&i1&n1&E).
  split; [|assumption]. replace (pool_size lm') with (pool_size lm) by (rewrite E; reflexivity).
  reflexivity.
Qed.

(** Replacing a lease by one that only differs in its expiry. *)
Lemma lm_inv_update lm i l k :
  lm_inv lm -> leases_by_identity_ lm !! i = Some l ->
  lease_id k = lease_id l -> l_identity k = l_identity l -> l_address k = l_address l ->
  l_ipv6_address k = l_ipv6_address l ->
  lm_inv (with_state lm (<[i := k]> (leases_by_identity_ lm)) (identity_by_address_ lm)
            (next_lease_id_ lm)).
Proof.
  intros Hinv Hi Eid Ei Ea E6. pose proof Hinv as [Hc Hx Hl Hu Hn].
  apply lm_inv_with_state; auto.
  - intros a j. rewrite Hx. split; intros (m & Hm & Ha).
    + destruct (decide (i = j)) as [<-|].
      * exists k. rewrite lookup_insert_eq. split; [reflexivity|congruence].
      * exists m. rewrite lookup_insert_ne by assumption. auto.
    + apply lookup_insert_Some in Hm as [[<- <-]|[? ?]]; [|eauto].
      exists l. split; congruence.
  - intros j m [[<- <-]|[? Hm]]%lookup_insert_Some; apply lease_ok_with_state; auto.
    apply Hl in Hi as []. constructor; rewrite ?Eid, ?Ei, ?Ea, ?E6; auto.
  - intros a b m n [[<- <-]|[? ?]]%lookup_insert_Some [[<- <-]|[? ?]]%lookup_insert_Some Eq; eauto.
    + rewrite Eid in Eq. eauto.
    + rewrite Eid in Eq. eauto.
Qed.

Lemma renew_spec e now lm :
  lm_inv lm ->
  match matches e (live now lm) with
  | Some l => (renew e now lm).1 = Ok (Some (prolong lm now l)) /\
      moved lm (renew e now lm).2 (<[l_identity e := prolong lm now l]> (live now lm)) (next_lease_id_ lm)
  | None => (renew e now lm).1 = Ok None /\
      moved lm (renew e now lm).2 (live now lm) (next_lease_id_ lm)
  end.
Proof.
  intros Hinv. unfold renew.
  step_reap Hinv lm' Hm.
  cbn. rewrite current_lease_matches, (mv_leases _ _ _ _ Hm).
  destruct (matches e (live now lm)) as [l|] eqn:E; [|auto].
  cbn. destruct (mv_pool _ _ _ _ Hm) as (l1&i1&n1&Ep).
  replace (lease_duration_ lm') with (lease_duration_ lm) by (rewrite Ep; reflexivity).
  rewrite (mv_leases _ _ _ _ Hm), (mv_next _ _ _ _ Hm).
  split; [reflexivity|]. apply matches_some in E as (El & Eid & Ea). constructor; cbn.
  - rewrite <- (mv_leases _ _ _ _ Hm), <- (mv_next _ _ _ _ Hm).
    apply (lm_inv_update lm' _ l); auto; [exact (mv_inv _ _ _ _ Hm)|].
    rewrite (mv_leases _ _ _ _ Hm). assumption.
  - eapply same_pool_trans; [exact (mv_pool _ _ _ _ Hm)|auto with vpn].
  - reflexivity.
  - reflexivity.
Qed.

Lemma release_spec e lm :
  lm_inv lm ->
  match matches e (leases_by_identity_ lm) with
  | Some l => (release e lm).1 = Ok true /\
      moved lm (release e lm).2 (delete (l_identity e) (leases_by_identity_ lm)) (next_lease_id_ lm)
  | None => release e lm = (Ok false, lm)
  end.
Proof.
  intros Hinv. unfold release. cbn. rewrite current_lease_matches.
  destruct (matches e (leases_by_identity_ lm)) as [l|] eqn:E; [|reflexivity].
  cbn. split; [reflexivity|]. apply matches_some in E as (El & Eid & Ea).
  pose proof Hinv as [Hc Hx Hl Hu Hn].
  constructor; cbn; auto with vpn. apply lm_inv_with_state; auto.
  - intros a i. destruct (decide (a = to_integer (l_address l))) as [->|Hne].
    + rewrite lookup_delete_eq. split; [discriminate|].
      intros (k & [Hk1 Hk]%lookup_delete_Some & Ha).
      assert (Some i = Some (l_identity e)) as [= ->]; [|congruence].
      transitivity (identity_by_address_ lm !! to_integer (l_address l)); [symmetry|]; apply Hx; eauto.
    + rewrite lookup_delete_ne, Hx by congruence. split; intros (k & Hk & Ha).
      * exists k. rewrite lookup_delete_ne; [auto|]. intros <-. congruence.
      * apply lookup_delete_Some in Hk as [? ?]. eauto.
  - intros i k [? ?]%lookup_delete_Some. apply lease_ok_with_state; auto.
  - intros i j k m [? ?]%lookup_delete_Some [? ?]%lookup_delete_Some. eauto.
Qed.

(** The lowest free address of the pool, if there is one. *)
Definition lowest_free (now : Z) (lm : LeaseManager) (a : Z) : Prop :=
  first_address_ lm <= a <= last_address_ lm /\ ~ taken now lm a /\
  forall b, first_address_ lm <= b < a -> taken now lm b.
Definition pool_full (now : Z) (lm : LeaseManager) : Prop :=
  forall b, first_address_ lm <= b <= last_address_ lm -> taken now lm b.

(** The contract of [acquire]: the outcome, and the leases and the generation
    counter it leaves. *)
Inductive acquire_rel (identity : string) (now : Z) (lm : LeaseManager)
  : outcome Lease -> gmap string Lease -> Z -> Prop :=
| acq_empty :
    identity = "" ->
    acquire_rel identity now lm (Throw (InvalidArgument "lease identity must not be empty"))
      (leases_by_identity_ lm) (next_lease_id_ lm)
| acq_held l :
    identity <> "" -> live now lm !! identity = Some l ->
    acquire_rel identity now lm
      (Throw (RuntimeError "identity already has an active virtual IP lease"))
      (live now lm) (next_lease_id_ lm)
| acq_full :
    identity <> "" -> live now lm !! identity = None -> pool_full now lm ->
    acquire_rel identity now lm (Throw (RuntimeError "virtual IP lease pool is exhausted"))
      (live now lm) (next_lease_id_ lm)
| acq_generations a :
    identity <> "" -> live now lm !! identity = None -> lowest_free now lm a ->
    next_lease_id_ lm = 0 ->
    acquire_rel identity now lm (Throw (RuntimeError "virtual IP lease generation is exhausted"))
      (live now lm) (next_lease_id_ lm)
| acq_collision a :
    identity <> "" -> live now lm !! identity = None -> lowest_free now lm a ->
    next_lease_id_ lm <> 0 -> collides6 lm (from_integer a) = true ->
    acquire_rel identity now lm
      (Throw (RuntimeError "derived IPv6 lease collides with gateway address"))
      (live now lm) (next_lease_id_ lm)
| acq_ok a :
    identity <> "" -> live now lm !! identity = None -> lowest_free now lm a ->
    next_lease_id_ lm <> 0 -> collides6 lm (from_integer a) = false ->
    acquire_rel identity now lm (Ok (new_lease lm identity now a))
      (<[identity := new_lease lm identity now a]> (live now lm))
      (u64 (next_lease_id_ lm + 1)).

Lemma taken_index now lm lm' a :
  moved lm lm' (live now lm) (next_lease_id_ lm) ->
  taken now lm a <-> is_Some (identity_by_address_ lm' !! a).
Proof.
  intros [Hinv _ Hl _]. unfold taken, is_Some. setoid_rewrite (inv_index _ Hinv).
  rewrite Hl. reflexivity.
Qed.

Lemma issue_moved identity now lm lm' a :
  moved lm lm' (live now lm) (next_lease_id_ lm) -> lowest_free now lm a ->
  identity <> "" -> live now lm !! identity = None ->
  let r := issue identity now a lm' in
  exists leases next, acquire_rel identity now lm r.1 leases next /\ moved lm r.2 leases next.
Proof.
  intros Hm Hfree Hne Hnone. pose proof Hm as [Hinv Hp Hl Hn].
  pose proof Hp as (l1 & i1 & n1 & Ep).
  assert (Hi : lm_inv (issue identity now a lm').2).
  { destruct Hfree as (Hr & Ht & _). apply issue_inv; rewrite ?Hl; auto.
    - rewrite (taken_index now lm lm') in Ht by assumption. apply eq_None_not_Some. assumption.
    - rewrite Ep. exact Hr. }
  revert Hi. rewrite issue_eq, Hn.
  replace (collides6 lm' (from_integer a)) with (collides6 lm (from_integer a))
    by (rewrite Ep; reflexivity).
  destruct (Z.eqb_spec (next_lease_id_ lm) 0); [|destruct (collides6 _ _) eqn:Ec]; intros Hi; cbn zeta.
  - eexists _, _. split; [eapply acq_generations; eassumption|exact Hm].
  - eexists _, _. split; [eapply acq_collision; eassumption|exact Hm].
  - assert (En : new_lease lm' identity now a = new_lease lm identity now a).
    { unfold new_lease. rewrite Hn, Ep. reflexivity. }
    rewrite En in *. eexists _, _. split; [eapply acq_ok; eassumption|].
    constructor; [exact Hi| |cbn; rewrite Hl; reflexivity|reflexivity].
    eapply same_pool_trans; [eassumption|apply same_pool_with_state].
Qed.

Lemma acquire_rel_sound identity now lm :
  lm_inv lm ->
  exists leases next,
    acquire_rel identity now lm (acquire identity now lm).1 leases next /\
    moved lm (acquire identity now lm).2 leases next.
Proof.
  intros Hinv. unfold acquire. case_bool_decide as Hne.
  { eexists _, _. split; [apply acq_empty; assumption|apply moved_refl; assumption]. }
  step_reap Hinv lm' Hm. cbn. rewrite (mv_leases _ _ _ _ Hm).
  destruct (live now lm !! identity) as [l|] eqn:El.
  { eexists _, _. split; [eapply acq_held; eassumption|exact Hm]. }
  destruct (mv_pool _ _ _ _ Hm) as (l1 & i1 & n1 & Ep).
  pose proof (inv_config _ (mv_inv _ _ _ _ Hm)) as Hc.
  assert (Ef : first_address_ lm' = first_address_ lm) by (rewrite Ep; reflexivity).
  assert (Ela : last_address_ lm' = last_address_ lm) by (rewrite Ep; reflexivity).
  destruct (acquire_loop_spec (Z.to_nat (pool_size lm')) identity now (first_address_ lm') lm')
    as [(a & Ha & Hfree & Hlow & ->)|[Hall ->]]; [destruct Hc; unfold pool_size; int_lia..| |].
  - apply issue_moved; auto. unfold lowest_free. split_goal.
    + lia.
    + lia.
    + rewrite (taken_index now lm lm'), Hfree by assumption. apply is_Some_None.
    + intros b Hb. rewrite (taken_index now lm lm') by assumption. apply Hlow. lia.
  - eexists _, _. split; [|exact Hm]. apply acq_full; auto.
    intros b Hb. rewrite (taken_index now lm lm') by assumption. apply Hall. lia.
Qed.

(** *** Construction and reachability *)

Lemma make_config f l g pl mtu d p6 g6 pl6 lm :
  is_array 4 f -> is_array 4 l -> is_array 4 g -> in_u8 pl -> in_u16 mtu -> d < 2 ^ 63 ->
  is_array 16 p6 -> is_array 16 g6 ->
  make_LeaseManager f l g pl mtu d p6 g6 pl6 = Ok lm -> lm_inv lm.
Proof.
  intros Hf Hl Hg Hpl Hmtu Hd Hp6 Hg6 H. unfold make_LeaseManager in H. inv_ok. subst lm.
  assert (0 < d < 2 ^ 32).
  { assert (u64 d = d) by (apply u64_id; int_lia). int_lia. }
  assert (pl6 = 0 \/ pl6 = 64 /\ all_zero g6 = false /\ slice p6 0 8 = slice g6 0 8).
  { destruct (Z.eqb_spec pl6 0); [auto|right]. cbn [negb] in *. inv_ok. auto. }
  constructor; cbn.
  - constructor; cbn; auto using to_integer_range; try lia; try int_lia.
  - intros a i. rewrite lookup_empty. split; [discriminate|].
    intros (k & Hk & _). rewrite lookup_empty in Hk. discriminate.
  - intros i k Hk. rewrite lookup_empty in Hk. discriminate.
  - intros i j k m Hk. rewrite lookup_empty in Hk. discriminate.
  - int_lia.
Qed.

(** A manager that was constructed and then used in any way. *)
Definition lm_reachable (lm : LeaseManager) : Prop :=
  exists f l g pl mtu d p6 g6 pl6 lm0,
    (is_array 4 f /\ is_array 4 l /\ is_array 4 g /\ in_u8 pl /\ in_u16 mtu /\ d < 2 ^ 63 /\
     is_array 16 p6 /\ is_array 16 g6) /\
    make_LeaseManager f l g pl mtu d p6 g6 pl6 = Ok lm0 /\ rtc lm_step lm0 lm.

(** A lease after a step is an old one, possibly prolonged, or the one with
    the next identifier. *)
Definition keeps_ids (lm : LeaseManager) (leases : gmap string Lease) (next : Z) : Prop :=
  (forall i k, leases !! i = Some k ->
     (exists k0, leases_by_identity_ lm !! i = Some k0 /\ lease_id k0 = lease_id k /\
        l_address k0 = l_address k) \/ ~ issued lm (lease_id k)) /\
  (next = next_lease_id_ lm \/
   next_lease_id_ lm <> 0 /\ next = u64 (next_lease_id_ lm + 1)).

Lemma keeps_live now lm : keeps_ids lm (live now lm) (next_lease_id_ lm).
Proof. split; [|auto]. intros i k [? ?]%live_lookup. eauto. Qed.
Lemma keeps_all lm : keeps_ids lm (leases_by_identity_ lm) (next_lease_id_ lm).
Proof. split; eauto. Qed.
#[export] Hint Resolve keeps_live keeps_all : vpn.

Lemma not_issued_next lm : ~ issued lm (next_lease_id_ lm).
Proof. unfold issued. lia. Qed.

Lemma acquire_keeps identity now lm r leases next :
  acquire_rel identity now lm r leases next -> keeps_ids lm leases next.
Proof.
  destruct 1; auto with vpn. split; [|auto].
  intros i k [[<- <-]|[? [? ?]%live_lookup]]%lookup_insert_Some; [|eauto].
  right. apply not_issued_next.
Qed.

Lemma step_moved lm lm' :
  lm_inv lm -> lm_step lm lm' ->
  exists leases next, moved lm lm' leases next /\ keeps_ids lm leases next.
Proof.
  intros Hinv. destruct 1 as [i now lm|i now lm|e now lm|i a now lm|e lm|now lm|now lm|now lm].
  - destruct (acquire_rel_sound i now lm Hinv) as (leases & next & Hr & Hm).
    eauto using acquire_keeps.
  - eexists _, _. split; [apply find_spec; assumption|auto with vpn].
  - pose proof (renew_spec e now lm Hinv) as H. destruct (matches e (live now lm)) as [l|] eqn:E;
      destruct H as [_ Hm]; eexists _, _; (split; [exact Hm|]); [|auto with vpn].
    apply matches_some in E as ([El _]%live_lookup & _ & _). split; [|auto].
    intros i k [[<- <-]|[? [? ?]%live_lookup]]%lookup_insert_Some; eauto.
  - eexists _, _. split; [apply owns_spec; assumption|auto with vpn].
  - pose proof (release_spec e lm Hinv) as H.
    destruct (matches e (leases_by_identity_ lm)) as [l|] eqn:E.
    + destruct H as [_ Hm]. eexists _, _. split; [exact Hm|]. split; [|auto].
      intros i k [? ?]%lookup_delete_Some. eauto.
    + rewrite H. cbn. eexists _, _. split; [apply moved_refl; assumption|auto with vpn].
  - eexists _, _. split; [apply reap_op_spec; assumption|auto with vpn].
  - eexists _, _. split; [apply active_spec; assumption|auto with vpn].
  - eexists _, _. split; [apply available_spec; assumption|auto with vpn].
Qed.

Lemma steps_inv lm lm' : lm_inv lm -> rtc lm_step lm lm' -> lm_inv lm'.
Proof.
  intros Hinv H. induction H as [|a b c Hs _ IH]; [assumption|]. apply IH.
  destruct (step_moved a b Hinv Hs) as (? & ? & Hm & _). exact (mv_inv _ _ _ _ Hm).
Qed.

Lemma lm_reachable_inv lm : lm_reachable lm -> lm_inv lm.
Proof.
  intros (f & l & g & pl & mtu & d & p6 & g6 & pl6 & lm0 & (?&?&?&?&?&?&?&?) & Hmk & Hs).
  eapply steps_inv; [|exact Hs]. eapply make_config; [..|exact Hmk]; assumption.
Qed.

Lemma issued_step lm lm' leases next n :
  lm_inv lm -> moved lm lm' leases next -> keeps_ids lm leases next -> issued lm n -> issued lm' n.
Proof.
  intros Hinv [_ _ _ Hn] [_ Hk] Hi. destruct Hk as [E|[H0 E]].
  - unfold issued in *. rewrite Hn, E. assumption.
  - pose proof (issued_next lm ∅ ∅ n (inv_next _ Hinv) H0) as Hx.
    unfold issued at 1 in Hx. cbn [next_lease_id_ with_state] in Hx.
    unfold issued at 1. rewrite Hn, E. apply Hx. auto.
Qed.

(** *** Counting *)

(** The addresses of the live leases. *)
Definition used_addresses (now : Z) (lm : LeaseManager) : list Z :=
  (fun il => to_integer (l_address il.2)) <$> map_to_list (live now lm).

Lemma used_addresses_taken now lm a : a ∈ used_addresses now lm <-> taken now lm a.
Proof.
  unfold used_addresses, taken. rewrite list_elem_of_fmap. split.
  - intros ([i l] & -> & H%elem_of_map_to_list). eauto.
  - intros (i & l & H%elem_of_map_to_list & <-). exists (i, l). auto.
Qed.

Lemma address_unique lm i j l k :
  lm_inv lm -> leases_by_identity_ lm !! i = Some l -> leases_by_identity_ lm !! j = Some k ->
  to_integer (l_address l) = to_integer (l_address k) -> i = j.
Proof.
  intros Hinv Hi Hj Ha. assert (Some i = Some j) as [= ->]; [|reflexivity].
  transitivity (identity_by_address_ lm !! to_integer (l_address k)); [symmetry|];
    apply (inv_index _ Hinv); eauto.
Qed.

Lemma used_addresses_nodup now lm : lm_inv lm -> NoDup (used_addresses now lm).
Proof.
  intros Hinv. apply NoDup_fmap_2_strong; [|apply NoDup_map_to_list].
  intros [i l] [j k] Hi%elem_of_map_to_list Hj%elem_of_map_to_list Ha. simpl in Ha.
  assert (i = j) as ->.
  { apply live_lookup in Hi as [? ?], Hj as [? ?]. eauto using address_unique. }
  f_equal. congruence.
Qed.

Lemma used_addresses_pool now lm a :
  lm_inv lm -> a ∈ used_addresses now lm ->
  a ∈ seqZ (first_address_ lm) (pool_size lm).
Proof.
  intros Hinv (i & l & [Hl _]%live_lookup & <-)%used_addresses_taken.
  apply (inv_lease _ Hinv), lo_pool in Hl. apply elem_of_seqZ. unfold pool_size. lia.
Qed.

Lemma used_addresses_length now lm : length (used_addresses now lm) = size (live now lm).
Proof. unfold used_addresses. rewrite length_fmap. apply length_map_to_list. Qed.

Lemma live_bounded now lm : lm_inv lm -> Z.of_nat (size (live now lm)) <= pool_size lm.
Proof.
  intros Hinv. rewrite <- used_addresses_length.
  assert (H : used_addresses now lm ⊆+ seqZ (first_address_ lm) (pool_size lm)).
  { apply NoDup_submseteq; [apply used_addresses_nodup; assumption|].
    intros a. apply used_addresses_pool. assumption. }
  apply submseteq_length in H. rewrite length_seqZ in H.
  pose proof (cfg_order _ (inv_config _ Hinv)). unfold pool_size in *. lia.
Qed.

Lemma pool_full_size now lm :
  lm_inv lm -> pool_full now lm <-> Z.of_nat (size (live now lm)) = pool_size lm.
Proof.
  intros Hinv. pose proof (cfg_order _ (inv_config _ Hinv)) as Hord.
  pose proof (live_bounded now lm Hinv) as Hb. rewrite <- used_addresses_length in *. split.
  - intros Hf. assert (H : seqZ (first_address_ lm) (pool_size lm) ⊆+ used_addresses now lm).
    { apply NoDup_submseteq; [apply NoDup_seqZ|]. intros a [? ?]%elem_of_seqZ.
      apply used_addresses_taken, Hf. unfold pool_size in *. lia. }
    apply submseteq_length in H. rewrite length_seqZ in H. unfold pool_size in *. lia.
  - intros Heq b Hr. apply used_addresses_taken.
    assert (P : used_addresses now lm ≡ₚ seqZ (first_address_ lm) (pool_size lm)).
    { apply submseteq_length_Permutation.
      - apply NoDup_submseteq; [apply used_addresses_nodup; assumption|].
        intros a. apply used_addresses_pool. assumption.
      - rewrite length_seqZ. lia. }
    rewrite P. apply elem_of_seqZ. unfold pool_size. lia.
Qed.

(** ** Properties *)

(** C5: whatever was done to a manager since it was constructed, every lease
    belongs to the identity it is stored under and has an address of the
    pool that is not the gateway's; two identities never share an IPv4
    address, a derived IPv6 address or a lease identifier. *)
Theorem leases_exclusive lm i l :
  lm_reachable lm -> leases_by_identity_ lm !! i = Some l ->
  l_identity l = i /\
  first_address_ lm <= to_integer (l_address l) <= last_address_ lm /\
  l_address l <> gateway_address_ lm /\
  (ipv6_prefix_length_ lm <> 0 -> l_ipv6_address l <> ipv6_gateway_ lm) /\
  forall j k, leases_by_identity_ lm !! j = Some k -> i <> j ->
    l_address l <> l_address k /\ lease_id l <> lease_id k /\
    (ipv6_prefix_length_ lm <> 0 -> l_ipv6_address l <> l_ipv6_address k).
Proof.
  intros Hinv%lm_reachable_inv Hi.
  pose proof (inv_lease _ Hinv i l Hi) as [Hid _ _ Hp H6 Hg6 _].
  pose proof (inv_config _ Hinv) as Hc. split_goal; auto; try lia.
  - intros E. rewrite E in Hp. destruct Hc; auto.
  - intros H0%Z.eqb_neq E. unfold collides6 in Hg6. rewrite H0, <- H6, E in Hg6.
    rewrite bool_decide_eq_true_2 in Hg6 by reflexivity. discriminate.
  - intros j k Hj Hne. pose proof (inv_lease _ Hinv j k Hj) as [_ _ _ _ K6 _ _].
    assert (Ha : l_address l <> l_address k).
    { intros E. apply Hne. eapply address_unique; eauto. congruence. }
    split_goal; [exact Ha|intros E; apply Hne; eapply (inv_ids _ Hinv); eauto|].
    intros H0%Z.eqb_neq. rewrite H6, K6. unfold derive_ipv6. rewrite H0. cbn [negb].
    intros [_ [_ ?]%app_inj_1]%app_inj_1; auto.
Qed.

Definition sample_manager : outcome LeaseManager :=
  make_LeaseManager [10; 8; 0; 2] [10; 8; 0; 3] [10; 8; 0; 1] 24 1400 60
    ([253; 0; 0; 8] ++ zeros 12) ([253; 0; 0; 8] ++ zeros 11 ++ [1]) 64.
Definition sample_pool : LeaseManager :=
  match sample_manager with Ok lm => lm | Throw _ => mkLeaseManager 0 0 [] 0 0 0 [] [] 0 ∅ ∅ 0 end.
Definition one_lease : LeaseManager := (acquire "alice" 0 sample_pool).2.
Definition two_leases : LeaseManager := (acquire "bob" 5 one_lease).2.

Lemma sample_pool_reachable : lm_reachable sample_pool.
Proof.
  exists [10; 8; 0; 2], [10; 8; 0; 3], [10; 8; 0; 1], 24, 1400, 60,
    ([253; 0; 0; 8] ++ zeros 12), ([253; 0; 0; 8] ++ zeros 11 ++ [1]), 64, sample_pool.
  split; [split_goal; (decide_prop || reflexivity || (split; [decide_prop|reflexivity]))|].
  split; [vm_compute; reflexivity|apply rtc_refl].
Qed.

Lemma lm_reachable_step lm lm' : lm_reachable lm -> lm_step lm lm' -> lm_reachable lm'.
Proof.
  intros (f & l & g & pl & mtu & d & p6 & g6 & pl6 & lm0 & Hty & Hmk & Hs) H.
  exists f, l, g, pl, mtu, d, p6, g6, pl6, lm0. split; [assumption|]. split; [assumption|].
  eapply rtc_r; eassumption.
Qed.

Lemma two_leases_reachable : lm_reachable two_leases.
Proof.
  eapply lm_reachable_step; [|apply step_acquire].
  eapply lm_reachable_step; [|apply step_acquire]. apply sample_pool_reachable.
Qed.

Lemma leases_exclusive_witness :
  exists l k, leases_by_identity_ two_leases !! "alice" = Some l /\
    leases_by_identity_ two_leases !! "bob" = Some k /\
    l_address l <> l_address k /\ lease_id l <> lease_id k.
Proof.
  eexists _, _. split; [vm_compute; reflexivity|]. split; [vm_compute; reflexivity|].
  edestruct (leases_exclusive two_leases "alice") as (_ & _ & _ & _ & H);
    [apply two_leases_reachable|vm_compute; reflexivity|].
  edestruct (H "bob") as (Ha & Hid & _); [vm_compute; reflexivity|discriminate|].
  split; [exact Ha|exact Hid].
Defined.

(** C6: the manager implements a plain map of leases with expiry, without the
    address index, the search loop and the explicit reaping.  [acquire]
    hands out the lowest address no live lease holds, or throws exactly in
    the situations of [acquire_rel] and then leaves the live leases as they
    were; [renew] and [release] act on the stored lease of the same
    generation only; every timed operation sees the unexpired leases. *)
Theorem lease_manager_refines lm :
  lm_reachable lm ->
  (forall i now, exists leases next,
     acquire_rel i now lm (acquire i now lm).1 leases next /\
     moved lm (acquire i now lm).2 leases next) /\
  (forall e now,
     match matches e (live now lm) with
     | Some l => (renew e now lm).1 = Ok (Some (prolong lm now l)) /\
         moved lm (renew e now lm).2 (<[l_identity e := prolong lm now l]> (live now lm))
           (next_lease_id_ lm)
     | None => (renew e now lm).1 = Ok None /\
         moved lm (renew e now lm).2 (live now lm) (next_lease_id_ lm)
     end) /\
  (forall e,
     match matches e (leases_by_identity_ lm) with
     | Some l => (release e lm).1 = Ok true /\
         moved lm (release e lm).2 (delete (l_identity e) (leases_by_identity_ lm)) (next_lease_id_ lm)
     | None => release e lm = (Ok false, lm)
     end) /\
  (forall i now, (find_by_identity i now lm).1 = Ok (live now lm !! i) /\
     moved lm (find_by_identity i now lm).2 (live now lm) (next_lease_id_ lm)) /\
  (forall i a now, (owns i a now lm).1 =
       Ok (match live now lm !! i with Some l => bool_decide (l_address l = a) | None => false end) /\
     moved lm (owns i a now lm).2 (live now lm) (next_lease_id_ lm)).
Proof.
  intros Hinv%lm_reachable_inv. split_goal; intros.
  - apply acquire_rel_sound. assumption.
  - apply renew_spec. assumption.
  - apply release_spec. assumption.
  - apply find_spec. assumption.
  - apply owns_spec. assumption.
Qed.

Lemma lease_manager_refines_witness :
  exists leases next, acquire_rel "carol" 5 two_leases (acquire "carol" 5 two_leases).1 leases next /\
    (acquire "carol" 5 two_leases).1 = Throw (RuntimeError "virtual IP lease pool is exhausted").
Proof.
  destruct (lease_manager_refines two_leases two_leases_reachable) as (H & _).
  destruct (H "carol" 5) as (leases & next & Hr & _). exists leases, next.
  split; [exact Hr|vm_compute; reflexivity].
Defined.

(** A generation that is gone stays gone.  Once the stored lease of an
    identity is no longer the issued lease [e] (released, expired, or
    replaced by a newer one), no later operation sequence makes [renew] or
    [release] of [e] affect anything: identifiers are never issued twice. *)
Theorem stale_generation e lm lm' now :
  lm_reachable lm -> issued lm (lease_id e) ->
  matches e (leases_by_identity_ lm) = None -> rtc lm_step lm lm' ->
  (renew e now lm').1 = Ok None /\ leases_by_identity_ (renew e now lm').2 = live now lm' /\
  release e lm' = (Ok false, lm').
Proof.
  intros Hinv%lm_reachable_inv Hiss Hno Hs.
  induction Hs as [lm|a b c Hs _ IH].
  - assert (Hl : matches e (live now lm) = None).
    { apply eq_None_not_Some. intros [l ([Hl _]%live_lookup & ? & ?)%matches_some].
      assert (matches e (leases_by_identity_ lm) = Some l) by (apply matches_some; auto). congruence. }
    pose proof (renew_spec e now lm Hinv) as H. rewrite Hl in H. destruct H as [H1 H2].
    pose proof (release_spec e lm Hinv) as H. rewrite Hno in H.
    split_goal; auto. exact (mv_leases _ _ _ _ H2).
  - destruct (step_moved a b Hinv Hs) as (leases & next & Hm & Hk). apply IH.
    + exact (mv_inv _ _ _ _ Hm).
    + eapply issued_step; eassumption.
    + apply eq_None_not_Some. intros [l (Hl & Hid & Ha)%matches_some].
      rewrite (mv_leases _ _ _ _ Hm) in Hl.
      destruct (proj1 Hk _ _ Hl) as [(k0 & Hk0 & E1 & E2)|Hni]; [|apply Hni; rewrite Hid; exact Hiss].
      assert (matches e (leases_by_identity_ a) = Some k0) by (apply matches_some; split_goal; congruence).
      congruence.
Qed.

(** Alice's first lease, the manager after its release, and after Alice came
    back for a second generation of the same address. *)
Definition first_generation : Lease :=
  mkLease 1 "alice" [10; 8; 0; 2] ([253; 0; 0; 8] ++ zeros 8 ++ [10; 8; 0; 2]) (seconds 60).
Definition after_release : LeaseManager := (release first_generation one_lease).2.

Lemma stale_generation_witness :
  (acquire "alice" 7 after_release).1 =
    Ok (mkLease 2 "alice" [10; 8; 0; 2] ([253; 0; 0; 8] ++ zeros 8 ++ [10; 8; 0; 2]) (7 + seconds 60)) /\
  release first_generation (acquire "alice" 7 after_release).2 =
    (Ok false, (acquire "alice" 7 after_release).2).
Proof.
  split; [vm_compute; reflexivity|].
  apply (stale_generation first_generation after_release _ 8).
  - eapply lm_reachable_step; [|apply step_release].
    eapply lm_reachable_step; [|apply step_acquire]. apply sample_pool_reachable.
  - split; [split; [discriminate|reflexivity]|right; vm_compute; reflexivity].
  - vm_compute. reflexivity.
  - apply rtc_once, step_acquire.
Defined.

(** C7: the counts are exact and never wrap: the available and the active
    leases add up to the pool, and a newcomer is turned away for exhaustion
    exactly when nothing is available. *)
Theorem capacity_conserved lm now i :
  lm_reachable lm ->
  exists active available,
    (active_count now lm).1 = Ok active /\ (available_count now lm).1 = Ok available /\
    0 <= active /\ 0 <= available /\
    active + available = last_address_ lm - first_address_ lm + 1 /\
    (i <> "" -> live now lm !! i = None ->
     available = 0 <->
     (acquire i now lm).1 = Throw (RuntimeError "virtual IP lease pool is exhausted")).
Proof.
  intros Hinv%lm_reachable_inv.
  pose proof (live_bounded now lm Hinv) as Hb. pose proof (pool_full_size now lm Hinv) as Hf.
  destruct (acquire_rel_sound i now lm Hinv) as (leases & next & Hr & _).
  assert (Hp : pool_size lm <= 2 ^ 32).
  { destruct (inv_config _ Hinv). unfold pool_size. int_lia. }
  exists (Z.of_nat (size (live now lm))), (pool_size lm - Z.of_nat (size (live now lm))).
  split_goal.
  - apply active_spec. assumption.
  - destruct (available_spec now lm Hinv) as [-> _]. rewrite u64_id by int_lia. reflexivity.
  - lia.
  - lia.
  - unfold pool_size. lia.
  - intros Hne Hnone. destruct Hr as [| |? ? Hfull|a ? ? Hlow|a ? ? Hlow|a ? ? Hlow];
      try congruence; [split; [reflexivity|intros _; apply Hf in Hfull; lia]|..];
      (split; [intros Hav|discriminate]); exfalso;
      destruct Hlow as (Hr & Hno & _); apply Hno, Hf; auto; lia.
Qed.

Lemma capacity_conserved_witness :
  (available_count 5 two_leases).1 = Ok 0 /\
  (acquire "carol" 5 two_leases).1 = Throw (RuntimeError "virtual IP lease pool is exhausted").
Proof.
  destruct (capacity_conserved two_leases 5 "carol" two_leases_reachable)
    as (active & available & _ & Hav & _ & _ & _ & H).
  assert (E : (available_count 5 two_leases).1 = Ok 0) by (vm_compute; reflexivity).
  split; [exact E|]. apply H; [discriminate|vm_compute; reflexivity|]. congruence.
Defined.
