(* ===== verification/LeaseService.v ===== *)
(** * What a lease pool promises to a session

    A [SessionController] holds a reference to a [LeaseManager] and calls
    four of its operations.  [LeaseService] is that interface,
    [LeaseServiceLaws] what the sessions rely on, stated over the stored
    leases only; the manager of LeaseManager.v is shown to satisfy it. *)
From S2P Require Import Prelude Bytes ControlMessages LeaseManager.

Class LeaseService (S : Type) := {
  ls_acquire : string -> Z -> M S Lease;
  ls_renew : Lease -> Z -> M S (option Lease);
  ls_release : Lease -> M S bool;
  ls_to_assignment : S -> Lease -> IpAssignment
}.

(** The leases of [leases] that have not expired at [now]. *)
Definition unexpired (now : Z) (leases : gmap string Lease) : gmap string Lease :=
  filter (fun il => now < expires_at il.2) leases.

(** The same lease, possibly with another expiry. *)
Definition same_lease (l k : Lease) : Prop :=
  lease_id l = lease_id k /\ l_identity l = l_identity k /\ l_address l = l_address k /\
  l_ipv6_address l = l_ipv6_address k.

(** The addresses of a lease are arrays of the C++ types. *)
Definition lease_shape (l : Lease) : Prop := is_array 4 (l_address l) /\ is_array 16 (l_ipv6_address l).

(** [ls_ipv6 s] is the IPv6 address the pool [s] gives with an IPv4 address;
    no operation changes it. *)
Class LeaseServiceLaws (S : Type) `{LeaseService S} := {
  ls_ok : S -> Prop;
  ls_leases : S -> gmap string Lease;
  ls_ipv6 : S -> bytes -> bytes;
  ls_stored s i l : ls_ok s -> ls_leases s !! i = Some l ->
    l_identity l = i /\ lease_shape l;
  ls_derived s i l : ls_ok s -> ls_leases s !! i = Some l ->
    l_ipv6_address l = ls_ipv6 s (l_address l);
  ls_acquire_ipv6 i now s a : ls_ipv6 (ls_acquire i now s).2 a = ls_ipv6 s a;
  ls_renew_ipv6 e now s a : ls_ipv6 (ls_renew e now s).2 a = ls_ipv6 s a;
  ls_release_ipv6 e s a : ls_ipv6 (ls_release e s).2 a = ls_ipv6 s a;
  ls_acquire_law s i now : ls_ok s -> i <> "" ->
    match ls_acquire i now s with
    | (Ok l, s') => ls_ok s' /\ unexpired now (ls_leases s) !! i = None /\
        ls_leases s' = <[i := l]> (unexpired now (ls_leases s))
    | (Throw e, s') => ls_ok s' /\ is_runtime_error e = true /\
        (zlen (string_bytes (exn_what e)) <= kMaximumErrorMessageSize) /\
        ls_leases s' = unexpired now (ls_leases s)
    end;
  ls_renew_law s e now : ls_ok s ->
    match matches e (unexpired now (ls_leases s)) with
    | Some l => exists k s', ls_renew e now s = (Ok (Some k), s') /\ ls_ok s' /\ same_lease l k /\
        ls_leases s' = <[l_identity e := k]> (unexpired now (ls_leases s))
    | None => exists s', ls_renew e now s = (Ok None, s') /\ ls_ok s' /\
        ls_leases s' = unexpired now (ls_leases s)
    end;
  ls_release_law s e : ls_ok s ->
    exists b s', ls_release e s = (Ok b, s') /\ ls_ok s' /\
      ls_leases s' = match matches e (ls_leases s) with
                     | Some _ => delete (l_identity e) (ls_leases s)
                     | None => ls_leases s
                     end;
  ls_assignment_law s i l : ls_ok s -> ls_leases s !! i = Some l ->
    let a := ls_to_assignment s l in
    ip_assignment_wf a /\ client_address a = l_address l /\
    client_ipv6_address a = l_ipv6_address l /\
    kMinimumIpv4Mtu <= ia_mtu a <= kMaximumTunnelMtu
}.

(** After [release] the manager holds no lease of that generation. *)
Lemma matches_released e leases :
  matches e (match matches e leases with
             | Some _ => delete (l_identity e) leases
             | None => leases
             end) = None.
Proof.
  destruct (matches e leases) eqn:E; [|exact E].
  unfold matches. rewrite lookup_delete_eq. reflexivity.
Qed.

(** ** The lease manager is a lease service *)

#[export] Instance LeaseManager_service : LeaseService LeaseManager := {
  ls_acquire := acquire; ls_renew := renew; ls_release := release;
  ls_to_assignment := to_assignment
}.

Lemma derive_ipv6_array lm a : config_ok lm -> is_array 4 a -> is_array 16 (derive_ipv6 lm a).
Proof.
  intros Hc [Hb Hl]. unfold derive_ipv6. destruct (negb _); [|split; [decide_prop|reflexivity]].
  destruct (cfg_prefix6 _ Hc) as [Hb6 Hl6]. split.
  - apply is_bytes_app. split; [apply is_bytes_slice, Hb6|].
    apply is_bytes_app. split; [decide_prop|exact Hb].
  - rewrite !zlen_app, zlen_slice, Hl by lia. reflexivity.
Qed.

Lemma lease_ok_arrays lm i l :
  config_ok lm -> lease_ok lm i l ->
  l_identity l = i /\ is_array 4 (l_address l) /\ is_array 16 (l_ipv6_address l).
Proof.
  intros Hc [Hid _ Ha _ H6 _ _]. split; [assumption|].
  assert (is_array 4 (l_address l)) by (rewrite Ha; apply from_integer_array).
  split; [assumption|]. rewrite H6. apply derive_ipv6_array; assumption.
Qed.

(** No operation changes the pool, and so none the IPv6 addresses. *)
Lemma pool_derives lm lm' a : same_pool lm lm' -> derive_ipv6 lm' a = derive_ipv6 lm a.
Proof. intros (leases & ids & next & ->). reflexivity. Qed.

Lemma reap_pool now lm : same_pool lm (reap_expired_locked now lm).2.
Proof. unfold reap_expired_locked. destruct (map_fold _ _ _) as [[? ?] ?]. apply same_pool_with_state. Qed.

Lemma acquire_loop_pool i now fuel : forall candidate lm,
  same_pool lm (acquire_loop fuel i now candidate lm).2.
Proof.
  induction fuel as [|fuel IH]; intros candidate lm; cbn [acquire_loop]; [apply same_pool_refl|].
  destruct (identity_by_address_ lm !! candidate).
  - destruct (_ =? _); [apply same_pool_refl|apply IH].
  - unfold issue. destruct (_ =? _); [apply same_pool_refl|].
    destruct (_ && _)%bool; [apply same_pool_refl|apply same_pool_with_state].
Qed.

(** The part of an operation after the expired leases are gone. *)
Lemma reaping_pool {A} now lm (k : LeaseManager -> M LeaseManager A) :
  (forall lm', same_pool lm' (k lm' lm').2) ->
  same_pool lm ((let* _ := reap_expired_locked now in let* lm := get in k lm) lm).2.
Proof.
  intros Hk. pose proof (reap_pool now lm) as H. unfold reap_expired_locked, bind, get in *.
  destruct (map_fold _ _ _) as [[? ?] ?]. cbn [snd] in *. eapply same_pool_trans; [exact H|apply Hk].
Qed.

Lemma acquire_pool i now lm : same_pool lm (acquire i now lm).2.
Proof.
  unfold acquire. case_bool_decide; [apply same_pool_refl|]. apply reaping_pool. intros lm'.
  destruct (leases_by_identity_ lm' !! i); [apply same_pool_refl|apply acquire_loop_pool].
Qed.
Lemma renew_pool e now lm : same_pool lm (renew e now lm).2.
Proof.
  unfold renew. apply reaping_pool. intros lm'.
  destruct (current_lease lm' e); [apply same_pool_with_state|apply same_pool_refl].
Qed.
Lemma release_pool e lm : same_pool lm (release e lm).2.
Proof.
  unfold release, bind at 1, get. destruct (current_lease lm e); [apply same_pool_with_state|apply same_pool_refl].
Qed.

Lemma manager_acquire_law lm i now : lm_inv lm -> i <> "" ->
  match acquire i now lm with
  | (Ok l, lm') => lm_inv lm' /\ live now lm !! i = None /\
      leases_by_identity_ lm' = <[i := l]> (live now lm)
  | (Throw e, lm') => lm_inv lm' /\ is_runtime_error e = true /\
      (zlen (string_bytes (exn_what e)) <= kMaximumErrorMessageSize) /\
      leases_by_identity_ lm' = live now lm
  end.
Proof.
  intros Hinv Hne. destruct (acquire_rel_sound i now lm Hinv) as (leases & next & Hr & Hm).
  destruct (acquire i now lm) as [r lm']. destruct Hm as [Hi _ Hl _]. cbn [fst snd] in *.
  subst leases. inversion Hr; subst; split_goal; auto; try contradiction; vm_compute; congruence.
Qed.

Lemma manager_assignment_law lm i l : lm_inv lm -> leases_by_identity_ lm !! i = Some l ->
  let a := to_assignment lm l in
  ip_assignment_wf a /\ client_address a = l_address l /\
  client_ipv6_address a = l_ipv6_address l /\
  kMinimumIpv4Mtu <= ia_mtu a <= kMaximumTunnelMtu.
Proof.
  intros Hinv Hl. pose proof (inv_config _ Hinv) as Hc.
  destruct (lease_ok_arrays lm i l Hc (inv_lease _ Hinv i l Hl)) as (_ & H4 & H6).
  destruct Hc. cbn zeta. split_goal; try reflexivity; cbn;
    unfold kMinimumIpv4Mtu, kMaximumTunnelMtu in *; try lia.
  unfold ip_assignment_wf. cbn. split_goal; auto; try int_lia. apply u32_range.
Qed.

#[export] Instance LeaseManager_laws : LeaseServiceLaws LeaseManager.
Proof.
  refine {| ls_ok := lm_inv; ls_leases := leases_by_identity_; ls_ipv6 := derive_ipv6 |}.
  - intros lm i l Hinv Hl. exact (lease_ok_arrays lm i l (inv_config _ Hinv) (inv_lease _ Hinv i l Hl)).
  - intros lm i l Hinv Hl. exact (lo_ipv6 _ _ _ (inv_lease _ Hinv i l Hl)).
  - intros. apply pool_derives, acquire_pool.
  - intros. apply pool_derives, renew_pool.
  - intros. apply pool_derives, release_pool.
  - exact manager_acquire_law.
  - intros lm e now Hinv. pose proof (renew_spec e now lm Hinv) as H.
    change (unexpired now (leases_by_identity_ lm)) with (live now lm).
    destruct (matches e (live now lm)) as [l|]; destruct H as [H1 [H2 _ H3 _]].
    + exists (prolong lm now l), (renew e now lm).2. split_goal; auto.
      * rewrite <- H1. apply surjective_pairing.
      * unfold same_lease, prolong. cbn. auto.
    + exists (renew e now lm).2. split_goal; auto. rewrite <- H1. apply surjective_pairing.
  - intros lm e Hinv. pose proof (release_spec e lm Hinv) as H.
    destruct (matches e (leases_by_identity_ lm)) as [l|].
    + destruct H as [H1 [H2 _ H3 _]]. exists true, (release e lm).2. split_goal; auto.
      rewrite <- H1. apply surjective_pairing.
    + exists false, lm. auto.
  - exact manager_assignment_law.
Defined.
