(* ===== verification/Traffic.v ===== *)
(** * What sessions exchange

    The header fields of IP packets as the session controllers read them, the
    packets they let through, and the numbering of the frames of a session. *)
From S2P Require Import Prelude Bytes Protocol.

(** The two 16-bit length fields, read as the code reads them. *)
Definition be_length (packet : bytes) (i : Z) : Z :=
  Z.lor (Z.shiftl (at_ packet i) 8) (at_ packet (i + 1)).

(** ** Packets *)

(** An IPv4 datagram of at most [mtu] bytes: version, header length and total
    length are those of the bytes at hand. *)
Record ipv4_packet (mtu : Z) (p : bytes) : Prop := {
  ip4_size : 20 <= zlen p <= mtu;
  ip4_version : at_ p 0 / 16 = 4;
  ip4_header : 20 <= at_ p 0 mod 16 * 4 <= zlen p;
  ip4_total : at_ p 2 * 256 + at_ p 3 = zlen p
}.
Record ipv6_packet (mtu : Z) (p : bytes) : Prop := {
  ip6_size : 40 <= zlen p <= mtu;
  ip6_version : at_ p 0 / 16 = 6;
  ip6_length : at_ p 4 * 256 + at_ p 5 + 40 = zlen p
}.

(** ** The fields as numbers *)

Lemma be_length_eq p i : is_bytes p -> 0 <= i -> be_length p i = at_ p i * 256 + at_ p (i + 1).
Proof.
  intros Hb Hi. pose proof (at_range p (i + 1) Hb). unfold be_length.
  rewrite lor_shiftl_add by int_lia. reflexivity.
Qed.
Lemma version_eq p : Z.shiftr (at_ p 0) 4 = at_ p 0 / 16.
Proof. rewrite Z.shiftr_div_pow2 by lia. reflexivity. Qed.
Lemma header_length_eq p : Z.land (at_ p 0) 15 = at_ p 0 mod 16.
Proof. change 15 with (Z.ones 4). rewrite Z.land_ones by lia. reflexivity. Qed.

(** ** Numbered frames *)

(** Frames numbered [n], [n + 1], ... modulo 2^64. *)
Fixpoint consecutive (n : Z) (frames : list Frame) : Prop :=
  match frames with
  | [] => True
  | f :: frames' => f_sequence f = n /\ f_flags f = 0 /\ consecutive (u64 (n + 1)) frames'
  end.

Definition advance (n : Z) (frames : list Frame) : Z := u64 (n + zlen frames).

Lemma advance_nil n : in_u64 n -> advance n [] = n.
Proof. intros. unfold advance. rewrite zlen_nil, Z.add_0_r. apply u64_id. assumption. Qed.
Lemma advance_one n f : advance n [f] = u64 (n + 1).
Proof. reflexivity. Qed.

Lemma consecutive_app n a b :
  in_u64 n -> consecutive n a -> consecutive (advance n a) b -> consecutive n (a ++ b).
Proof.
  revert n. induction a as [|f a IH]; intros n Hn Ha Hb.
  - rewrite advance_nil in Hb by assumption. exact Hb.
  - destruct Ha as (Hf & Hg & Ha). cbn [app consecutive]. split_goal; auto.
    apply IH; auto using u64_range. replace (advance (u64 (n + 1)) a) with (advance n (f :: a)); [assumption|].
    unfold advance, u64. rewrite zlen_cons, Zplus_mod_idemp_l. f_equal. lia.
Qed.

Lemma consecutive_prefix n a b : consecutive n (a ++ b) -> consecutive n a.
Proof.
  revert n. induction a as [|f a IH]; intros n; [intros _; exact I|].
  intros (Hf & Hg & H). exact (conj Hf (conj Hg (IH _ H))).
Qed.
Lemma advance_app n a b : advance n (a ++ b) = advance (advance n a) b.
Proof. unfold advance, u64. rewrite zlen_app, Zplus_mod_idemp_l. f_equal. lia. Qed.
