(* ===== verification/SessionController.v ===== *)
(** * The server's session state machine

    Models src/core/session_controller.cpp and session_controller.hpp: the
    handshake, the checks of every packet from and to the client, and the
    life of the session's lease.  The lease manager is shared with other
    sessions and reached through [LeaseService]; the state of a call is the
    manager together with the session. *)
From S2P Require Import Prelude Bytes Protocol ControlMessages Traffic LeaseManager LeaseService.

Inductive SessionState := AwaitingHello | Established | Closing | Closed.

#[export] Instance SessionState_eq_dec : EqDecision SessionState.
Proof. solve_decision. Defined.

Inductive SessionErrorCode :=
| UnexpectedMessage
| InvalidSequence
| InvalidControlPayload
| LeaseUnavailable
| InvalidIpv4Packet
| SourceAddressMismatch
| InvalidIpv6Packet.

#[export] Instance SessionErrorCode_eq_dec : EqDecision SessionErrorCode.
Proof. solve_decision. Defined.

(** [static_cast<std::uint16_t>(code)] *)
Definition SessionErrorCode_to_u16 (code : SessionErrorCode) : Z :=
  match code with
  | UnexpectedMessage => 1
  | InvalidSequence => 2
  | InvalidControlPayload => 3
  | LeaseUnavailable => 4
  | InvalidIpv4Packet => 5
  | SourceAddressMismatch => 6
  | InvalidIpv6Packet => 7
  end.

Record SessionResult := mkSessionResult {
  outbound_frames : list Frame;
  packets_to_tun : list bytes;
  close_transport : bool
}.

Record SessionController := mkSession {
  sc_identity : string;
  sc_state : SessionState;
  sc_lease : option Lease;                (* std::unique_ptr<Lease> *)
  sc_negotiated_mtu : Z;
  sc_next_expected_sequence : Z;
  sc_next_outbound_sequence : Z
}.

Definition set_state (st : SessionState) (c : SessionController) : SessionController :=
  mkSession (sc_identity c) st (sc_lease c) (sc_negotiated_mtu c)
    (sc_next_expected_sequence c) (sc_next_outbound_sequence c).
Definition set_lease (l : option Lease) (c : SessionController) : SessionController :=
  mkSession (sc_identity c) (sc_state c) l (sc_negotiated_mtu c)
    (sc_next_expected_sequence c) (sc_next_outbound_sequence c).
Definition set_mtu (mtu : Z) (c : SessionController) : SessionController :=
  mkSession (sc_identity c) (sc_state c) (sc_lease c) mtu
    (sc_next_expected_sequence c) (sc_next_outbound_sequence c).
Definition set_expected (n : Z) (c : SessionController) : SessionController :=
  mkSession (sc_identity c) (sc_state c) (sc_lease c) (sc_negotiated_mtu c) n
    (sc_next_outbound_sequence c).
Definition set_outbound (n : Z) (c : SessionController) : SessionController :=
  mkSession (sc_identity c) (sc_state c) (sc_lease c) (sc_negotiated_mtu c)
    (sc_next_expected_sequence c) n.

Definition make_session (authenticated_identity : string) : outcome SessionController :=
  if bool_decide (authenticated_identity = "")
  then Throw (InvalidArgument "authenticated session identity must not be empty")
  else Ok (mkSession authenticated_identity AwaitingHello None 1400 1 1).

(** A failing check returns the error code and message that the code leaves
    in its reference parameters; [None] is [true]. *)
Definition validate_ipv4_packet (c : SessionController) (packet : bytes)
  : option (SessionErrorCode * string) :=
  match sc_lease c with
  | None => Some (InvalidIpv4Packet, "session has no active virtual IP lease")
  | Some lease =>
      if zlen packet <? 20 then
        Some (InvalidIpv4Packet, "IPv4 packet is shorter than the minimum header")
      else if sc_negotiated_mtu c <? zlen packet then
        Some (InvalidIpv4Packet, "IPv4 packet exceeds the negotiated tunnel MTU")
      else
        let version := Z.shiftr (at_ packet 0) 4 in
        let header_length := Z.land (at_ packet 0) 15 * 4 in
        if negb (version =? 4) || (header_length <? 20) || (zlen packet <? header_length) then
          Some (InvalidIpv4Packet, "IPv4 version or header length is invalid")
        else
          let total_length := be_length packet 2 in
          if negb (total_length =? zlen packet) then
            Some (InvalidIpv4Packet, "IPv4 total length does not match the tunnel frame")
          else
            let source := slice packet 12 4 in
            if negb (bool_decide (source = l_address lease)) then
              Some (SourceAddressMismatch,
                    "IPv4 source address does not match the authenticated lease")
            else None
  end.

Definition validate_ipv6_packet (c : SessionController) (packet : bytes)
  : option (SessionErrorCode * string) :=
  let outside := Some (InvalidIpv6Packet,
    "IPv6 packet is invalid or outside the negotiated tunnel policy") in
  match sc_lease c with
  | None => outside
  | Some lease =>
      if bool_decide (l_ipv6_address lease = zeros 16) || (zlen packet <? 40) ||
         (sc_negotiated_mtu c <? zlen packet) || negb (Z.shiftr (at_ packet 0) 4 =? 6)
      then outside
      else
        let payload_length := be_length packet 4 in
        if negb (payload_length + 40 =? zlen packet) then
          Some (InvalidIpv6Packet, "IPv6 payload length does not match the tunnel frame")
        else
          let source := slice packet 8 16 in
          if negb (bool_decide (source = l_ipv6_address lease)) then
            Some (SourceAddressMismatch,
                  "IPv6 source does not match the authenticated lease")
          else None
  end.

Section Controller.
Context {S : Type} `{LS : LeaseService S}.

(** The manager behind [lease_manager_] and the session itself. *)
Abbreviation St := (S * SessionController)%type.

Definition on_leases {A} (m : M S A) : M St A := fun '(s, c) =>
  let '(r, s') := m s in (r, (s', c)).
Definition session : M St SessionController := fun st => (Ok st.2, st).
Definition update (f : SessionController -> SessionController) : M St unit :=
  fun '(s, c) => (Ok tt, (s, f c)).

Definition release_lease : M St unit :=
  let* c := session in
  match sc_lease c with
  | Some lease =>
      let* _ := on_leases (ls_release lease) in
      update (set_lease None)
  | None => ret tt
  end.

Definition make_outbound (type : MessageType) (payload : bytes) : M St Frame :=
  let* c := session in
  let* _ := update (set_outbound (u64 (sc_next_outbound_sequence c + 1))) in
  ret {| f_type := type; f_flags := 0; f_sequence := sc_next_outbound_sequence c;
         f_payload := payload |}.

Definition fail (code : SessionErrorCode) (message : string) : M St SessionResult :=
  let* payload := lift (encode_error_message
    {| em_code := SessionErrorCode_to_u16 code; em_message := message |}) in
  let* frame := make_outbound MtError payload in
  let* _ := update (set_state Closing) in
  let* _ := release_lease in
  ret {| outbound_frames := [frame]; packets_to_tun := []; close_transport := true |}.

(** [handle] in state [AwaitingHello], after the sequence check. *)
Definition handle_hello (frame : Frame) (now : Z) : M St SessionResult :=
  if negb (bool_decide (f_type frame = MtClientHello)) then
    fail UnexpectedMessage "CLIENT_HELLO must be the first tunnel message"
  else
    try_catch
      (let* hello := lift (decode_client_hello (f_payload frame)) in
       let* c := session in
       let* lease := on_leases (ls_acquire (sc_identity c) now) in
       let* _ := update (set_lease (Some lease)) in
       let* st := get in
       let assignment := ls_to_assignment st.1 lease in
       let mtu := Z.min (requested_mtu hello) (ia_mtu assignment) in
       let* _ := update (set_mtu mtu) in
       let assignment := {| client_address := client_address assignment;
                            gateway_address := gateway_address assignment;
                            prefix_length := prefix_length assignment;
                            ia_mtu := mtu;
                            lease_seconds := lease_seconds assignment;
                            client_ipv6_address := client_ipv6_address assignment;
                            gateway_ipv6_address := gateway_ipv6_address assignment;
                            ipv6_prefix_length := ipv6_prefix_length assignment |} in
       let* _ := update (set_state Established) in
       let* payload := lift (encode_ip_assignment assignment) in
       let* out := make_outbound MtIpAssign payload in
       ret {| outbound_frames := [out]; packets_to_tun := []; close_transport := false |})
      (fun e => match e with
                | InvalidArgument what => Some (fail InvalidControlPayload what)
                | _ => if is_runtime_error e
                       then Some (fail LeaseUnavailable (exn_what e)) else None
                end).

(** [renew] of the session's lease, which then replaces it; [false]
    when the lease is gone.  [lease_] is not null in state [Established]. *)
Definition renew_lease (now : Z) : M St bool :=
  let* c := session in
  match sc_lease c with
  | None => throw (LogicError "null lease")
  | Some lease =>
      let* renewed := on_leases (ls_renew lease now) in
      match renewed with
      | None => ret false
      | Some renewed => let* _ := update (set_lease (Some renewed)) in ret true
      end
  end.

(** A [catch (const std::invalid_argument&)] around decoding a payload. *)
Definition decoding {A} (decoded : outcome A) (k : A -> M St SessionResult) : M St SessionResult :=
  match decoded with
  | Throw (InvalidArgument what) => fail InvalidControlPayload what
  | Throw e => throw e
  | Ok a => k a
  end.

Definition close_session : M St SessionResult :=
  let* _ := update (set_state Closed) in
  let* _ := release_lease in
  ret {| outbound_frames := []; packets_to_tun := []; close_transport := true |}.

(** [SessionResult] with the one packet for the TUN device. *)
Definition deliver (packet : bytes) : M St SessionResult :=
  ret {| outbound_frames := []; packets_to_tun := [packet]; close_transport := false |}.

Definition is_renewing (t : MessageType) : bool :=
  match t with MtDataIpv4 | MtDataIpv6 | MtPing => true | _ => false end.

(** The [switch] of [handle]. *)
Definition dispatch (frame : Frame) : M St SessionResult :=
  let* c := session in
  match f_type frame with
  | MtDataIpv4 =>
      match validate_ipv4_packet c (f_payload frame) with
      | Some (error_code, error_message) => fail error_code error_message
      | None => deliver (f_payload frame)
      end
  | MtDataIpv6 =>
      match validate_ipv6_packet c (f_payload frame) with
      | Some (error_code, error_message) => fail error_code error_message
      | None => deliver (f_payload frame)
      end
  | MtPing =>
      decoding (decode_liveness_probe (f_payload frame)) (fun probe =>
        let* payload := lift (encode_liveness_probe probe) in
        let* out := make_outbound MtPong payload in
        ret {| outbound_frames := [out]; packets_to_tun := []; close_transport := false |})
  | MtClose =>
      decoding (decode_close_message (f_payload frame)) (fun _ => close_session)
  | MtError =>
      decoding (decode_error_message (f_payload frame)) (fun _ => close_session)
  | MtClientHello | MtIpAssign | MtPong =>
      fail UnexpectedMessage "message type is not valid in this server session state"
  | MtOther _ => fail UnexpectedMessage "unhandled tunnel message type"
  end.

Definition handle_established (frame : Frame) (now : Z) : M St SessionResult :=
  if is_renewing (f_type frame) then
    let* renewed := renew_lease now in
    if negb renewed
    then fail LeaseUnavailable "authenticated virtual IP lease has expired or changed"
    else dispatch frame
  else dispatch frame.

Definition handle (frame : Frame) (now : Z) : M St SessionResult :=
  let* c := session in
  match sc_state c with
  | Closing | Closed => ret {| outbound_frames := []; packets_to_tun := []; close_transport := true |}
  | _ =>
      if negb (f_sequence frame =? sc_next_expected_sequence c) then
        fail InvalidSequence
          ("unexpected inbound sequence; expected " +:+ to_string (sc_next_expected_sequence c))
      else
        let* _ := update (set_expected (u64 (sc_next_expected_sequence c + 1))) in
        match sc_state c with
        | AwaitingHello => handle_hello frame now
        | _ => handle_established frame now
        end
  end.

(** [renew] before a packet leaves for the client; a lost lease closes the
    session. *)
Definition renew_and_send (type : MessageType) (packet : bytes) (now : Z) : M St (option Frame) :=
  let* renewed := renew_lease now in
  if negb renewed then
    let* _ := update (set_state Closing) in
    let* _ := release_lease in
    ret None
  else
    let* frame := make_outbound type packet in
    ret (Some frame).

Definition make_data_to_client (packet : bytes) (now : Z) : M St (option Frame) :=
  let* c := session in
  match sc_lease c with
  | None => ret None
  | Some lease =>
    if negb (bool_decide (sc_state c = Established)) || (zlen packet =? 0) ||
       (sc_negotiated_mtu c <? zlen packet) then ret None
    else
      let version := Z.shiftr (at_ packet 0) 4 in
      if version =? 6 then
        if (zlen packet <? 40) || bool_decide (l_ipv6_address lease = zeros 16) then ret None
        else
          let payload_length := be_length packet 4 in
          let destination := slice packet 24 16 in
          if negb (payload_length + 40 =? zlen packet) ||
             negb (bool_decide (destination = l_ipv6_address lease)) then ret None
          else renew_and_send MtDataIpv6 packet now
      else if zlen packet <? 20 then ret None
      else
        let header_length := Z.land (at_ packet 0) 15 * 4 in
        let total_length := be_length packet 2 in
        let destination := slice packet 16 4 in
        if negb (version =? 4) || (header_length <? 20) || (zlen packet <? header_length) ||
           negb (total_length =? zlen packet) || negb (bool_decide (destination = l_address lease))
        then ret None
        else renew_and_send MtDataIpv4 packet now
  end.

Definition on_transport_closed : M St unit :=
  let* _ := update (set_state Closed) in
  release_lease.
End Controller.

(** ** Specification *)

(** The packet a data frame of type [t] may carry from the holder of lease [l]. *)
Definition from_lease (mtu : Z) (l : Lease) (t : MessageType) (p : bytes) : Prop :=
  (t = MtDataIpv4 /\ ipv4_packet mtu p /\ slice p 12 4 = l_address l) \/
  (t = MtDataIpv6 /\ ipv6_packet mtu p /\ l_ipv6_address l <> zeros 16 /\
   slice p 8 16 = l_ipv6_address l).
(** The packet from the TUN device that is for the holder of lease [l]. *)
Definition for_lease (mtu : Z) (l : Lease) (t : MessageType) (p : bytes) : Prop :=
  (t = MtDataIpv4 /\ ipv4_packet mtu p /\ slice p 16 4 = l_address l) \/
  (t = MtDataIpv6 /\ ipv6_packet mtu p /\ l_ipv6_address l <> zeros 16 /\
   slice p 24 16 = l_ipv6_address l).

(** The leases after [release] of a session's lease. *)
Definition released (lease : option Lease) (leases : gmap string Lease) : gmap string Lease :=
  match lease with
  | Some e => match matches e leases with
              | Some _ => delete (l_identity e) leases
              | None => leases
              end
  | None => leases
  end.

Definition error_frame (code : SessionErrorCode) (message : string) (sequence : Z) : Frame :=
  mkFrame MtError 0 sequence (be16 (SessionErrorCode_to_u16 code) ++ string_bytes message).

(** A session without its lease, in state [st]. *)
Definition ended (st : SessionState) (c : SessionController) : SessionController :=
  set_lease None (set_state st c).
(** One more frame was numbered. *)
Definition numbered (c : SessionController) : SessionController :=
  set_outbound (u64 (sc_next_outbound_sequence c + 1)) c.
(** One more frame was accepted by its sequence number. *)
Definition counted (c : SessionController) : SessionController :=
  set_expected (u64 (sc_next_expected_sequence c + 1)) c.

(** The assignment sent for lease [l] when [a] is the manager's. *)
Definition with_mtu (mtu : Z) (a : IpAssignment) : IpAssignment :=
  mkIpAssignment (client_address a) (gateway_address a) (prefix_length a) mtu
    (lease_seconds a) (client_ipv6_address a) (gateway_ipv6_address a) (ipv6_prefix_length a).

(** The session of [c] with the lease [l] and the MTU agreed for it. *)
Definition established (mtu : Z) (l : Lease) (c : SessionController) : SessionController :=
  set_state Established (set_mtu mtu (set_lease (Some l) c)).

Definition expects (frame : Frame) (c : SessionController) : Prop :=
  f_sequence frame = sc_next_expected_sequence c.

(** The session's lease is live at [now]; [k] is that lease renewed. *)
Definition renewed (now : Z) (leases : gmap string Lease) (c : SessionController) (k : Lease) : Prop :=
  exists e l, sc_lease c = Some e /\ matches e (unexpired now leases) = Some l /\ same_lease l k.

(** Why a frame is refused: the error reported, and the leases and the
    session just before [fail]. *)
Inductive refusal (leases : gmap string Lease) (c : SessionController) (frame : Frame) (now : Z)
  : SessionErrorCode -> string -> gmap string Lease -> SessionController -> Prop :=
| rf_sequence :
    f_sequence frame <> sc_next_expected_sequence c ->
    refusal leases c frame now InvalidSequence
      ("unexpected inbound sequence; expected " +:+ to_string (sc_next_expected_sequence c)) leases c
| rf_first :
    sc_state c = AwaitingHello -> expects frame c -> f_type frame <> MtClientHello ->
    refusal leases c frame now UnexpectedMessage
      "CLIENT_HELLO must be the first tunnel message" leases (counted c)
| rf_hello what :
    sc_state c = AwaitingHello -> expects frame c -> f_type frame = MtClientHello ->
    decode_client_hello (f_payload frame) = Throw (InvalidArgument what) ->
    refusal leases c frame now InvalidControlPayload what leases (counted c)
| rf_pool hello e :
    sc_state c = AwaitingHello -> expects frame c -> f_type frame = MtClientHello ->
    decode_client_hello (f_payload frame) = Ok hello -> is_runtime_error e = true ->
    refusal leases c frame now LeaseUnavailable (exn_what e) (unexpired now leases) (counted c)
| rf_assignment hello l a what :
    sc_state c = AwaitingHello -> expects frame c -> f_type frame = MtClientHello ->
    decode_client_hello (f_payload frame) = Ok hello ->
    l_identity l = sc_identity c -> kMinimumIpv4Mtu <= ia_mtu a <= kMaximumTunnelMtu ->
    let mtu := Z.min (requested_mtu hello) (ia_mtu a) in
    encode_ip_assignment (with_mtu mtu a) = Throw (InvalidArgument what) ->
    refusal leases c frame now InvalidControlPayload what
      (<[sc_identity c := l]> (unexpired now leases)) (established mtu l (counted c))
| rf_lost e :
    sc_state c = Established -> expects frame c -> is_renewing (f_type frame) = true ->
    sc_lease c = Some e -> matches e (unexpired now leases) = None ->
    refusal leases c frame now LeaseUnavailable
      "authenticated virtual IP lease has expired or changed" (unexpired now leases) (counted c)
| rf_packet k code what :
    sc_state c = Established -> expects frame c -> renewed now leases c k ->
    (f_type frame = MtDataIpv4 /\
       validate_ipv4_packet (set_lease (Some k) (counted c)) (f_payload frame) = Some (code, what) \/
     f_type frame = MtDataIpv6 /\
       validate_ipv6_packet (set_lease (Some k) (counted c)) (f_payload frame) = Some (code, what)) ->
    refusal leases c frame now code what (<[sc_identity c := k]> (unexpired now leases))
      (set_lease (Some k) (counted c))
| rf_ping k what :
    sc_state c = Established -> expects frame c -> renewed now leases c k ->
    f_type frame = MtPing -> decode_liveness_probe (f_payload frame) = Throw (InvalidArgument what) ->
    refusal leases c frame now InvalidControlPayload what (<[sc_identity c := k]> (unexpired now leases))
      (set_lease (Some k) (counted c))
| rf_ending what :
    sc_state c = Established -> expects frame c ->
    (f_type frame = MtClose /\ decode_close_message (f_payload frame) = Throw (InvalidArgument what) \/
     f_type frame = MtError /\ decode_error_message (f_payload frame) = Throw (InvalidArgument what)) ->
    refusal leases c frame now InvalidControlPayload what leases (counted c)
| rf_unexpected what :
    sc_state c = Established -> expects frame c ->
    f_type frame ∉ [MtDataIpv4; MtDataIpv6; MtPing; MtClose; MtError] ->
    refusal leases c frame now UnexpectedMessage what leases (counted c).

(** The contract of [handle]: the result, and the leases and the session it
    leaves. *)
Inductive handle_rel (leases : gmap string Lease) (c : SessionController) (frame : Frame) (now : Z)
  : SessionResult -> gmap string Lease -> SessionController -> Prop :=
| hr_ignored :
    sc_state c = Closing \/ sc_state c = Closed ->
    handle_rel leases c frame now (mkSessionResult [] [] true) leases c
| hr_refused code what leases1 c1 :
    sc_state c = AwaitingHello \/ sc_state c = Established ->
    zlen (string_bytes what) <= kMaximumErrorMessageSize ->
    refusal leases c frame now code what leases1 c1 ->
    handle_rel leases c frame now
      (mkSessionResult [error_frame code what (sc_next_outbound_sequence c)] [] true)
      (released (sc_lease c1) leases1) (ended Closing (numbered c1))
| hr_assigned hello l a payload :
    sc_state c = AwaitingHello -> expects frame c -> f_type frame = MtClientHello ->
    decode_client_hello (f_payload frame) = Ok hello ->
    unexpired now leases !! sc_identity c = None -> l_identity l = sc_identity c ->
    client_address a = l_address l -> client_ipv6_address a = l_ipv6_address l ->
    ip_assignment_wf a -> kMinimumIpv4Mtu <= ia_mtu a <= kMaximumTunnelMtu ->
    let mtu := Z.min (requested_mtu hello) (ia_mtu a) in
    encode_ip_assignment (with_mtu mtu a) = Ok payload ->
    handle_rel leases c frame now
      (mkSessionResult [mkFrame MtIpAssign 0 (sc_next_outbound_sequence c) payload] [] false)
      (<[sc_identity c := l]> (unexpired now leases)) (numbered (established mtu l (counted c)))
| hr_delivered k :
    sc_state c = Established -> expects frame c -> renewed now leases c k ->
    from_lease (sc_negotiated_mtu c) k (f_type frame) (f_payload frame) ->
    handle_rel leases c frame now (mkSessionResult [] [f_payload frame] false)
      (<[sc_identity c := k]> (unexpired now leases)) (set_lease (Some k) (counted c))
| hr_pong k :
    sc_state c = Established -> expects frame c -> renewed now leases c k ->
    f_type frame = MtPing -> zlen (f_payload frame) = 8 ->
    handle_rel leases c frame now
      (mkSessionResult [mkFrame MtPong 0 (sc_next_outbound_sequence c) (f_payload frame)] [] false)
      (<[sc_identity c := k]> (unexpired now leases)) (numbered (set_lease (Some k) (counted c)))
| hr_closed :
    sc_state c = Established -> expects frame c ->
    (f_type frame = MtClose /\ is_ok (decode_close_message (f_payload frame)) = true \/
     f_type frame = MtError /\ is_ok (decode_error_message (f_payload frame)) = true) ->
    handle_rel leases c frame now (mkSessionResult [] [] true)
      (released (sc_lease c) leases) (ended Closed (counted c)).

(** ** Lemmas *)

(** *** Packet checks *)

Lemma validate_ipv4_none c l p :
  is_bytes p -> sc_lease c = Some l ->
  validate_ipv4_packet c p = None <->
  ipv4_packet (sc_negotiated_mtu c) p /\ slice p 12 4 = l_address l.
Proof.
  intros Hb Hl. unfold validate_ipv4_packet. rewrite Hl, be_length_eq, version_eq, header_length_eq by (auto; lia).
  cbn zeta. change (2 + 1) with 3. split.
  - repeat (case_match; [discriminate|]). intros _. b2p. repeat split; auto; lia.
  - intros [[[? ?] Hv [? ?] Ht] Hs].
    repeat (case_match; [exfalso; b2p_all; congruence || lia|]). reflexivity.
Qed.

Lemma validate_ipv6_none c l p :
  is_bytes p -> sc_lease c = Some l ->
  validate_ipv6_packet c p = None <->
  ipv6_packet (sc_negotiated_mtu c) p /\ l_ipv6_address l <> zeros 16 /\
  slice p 8 16 = l_ipv6_address l.
Proof.
  intros Hb Hl. unfold validate_ipv6_packet. rewrite Hl, be_length_eq, version_eq by (auto; lia).
  cbn zeta. change (4 + 1) with 5. split.
  - repeat (case_match; [discriminate|]). intros _. b2p. repeat split; auto; lia.
  - intros [[[? ?] Hv Ht] [Hn Hs]].
    repeat (case_match; [exfalso; b2p_all; congruence || lia|]). reflexivity.
Qed.

(** The messages of the packet checks fit an ERROR payload. *)
Lemma validate_ipv4_short c p code what :
  validate_ipv4_packet c p = Some (code, what) ->
  zlen (string_bytes what) <= kMaximumErrorMessageSize.
Proof.
  unfold validate_ipv4_packet. intros H. cbn zeta in H.
  repeat case_match; simplify_eq; vm_compute; discriminate.
Qed.
Lemma validate_ipv6_short c p code what :
  validate_ipv6_packet c p = Some (code, what) ->
  zlen (string_bytes what) <= kMaximumErrorMessageSize.
Proof.
  unfold validate_ipv6_packet. intros H. cbn zeta in H.
  repeat case_match; simplify_eq; vm_compute; discriminate.
Qed.

Section Laws.
Context {S : Type} {LS : LeaseService S} {LSL : LeaseServiceLaws S}.

(** The well-formedness of a session between calls; its manager is at any
    state of its own, since other sessions use it too. *)
Definition well_keyed (leases : gmap string Lease) : Prop :=
  forall i l, leases !! i = Some l -> l_identity l = i /\ lease_shape l.

Record session_ok (c : SessionController) : Prop := {
  so_identity : sc_identity c <> "";
  so_expected : in_u64 (sc_next_expected_sequence c);
  so_outbound : in_u64 (sc_next_outbound_sequence c);
  so_mtu : kMinimumIpv4Mtu <= sc_negotiated_mtu c <= kMaximumTunnelMtu;
  so_lease : sc_state c = Established <-> is_Some (sc_lease c);
  so_own l : sc_lease c = Some l -> l_identity l = sc_identity c;
  so_shape l : sc_lease c = Some l -> lease_shape l
}.

Lemma release_lease_eq s c :
  ls_ok s ->
  exists s', release_lease (s, c) = (Ok tt, (s', set_lease None c)) /\ ls_ok s' /\
    ls_leases s' = released (sc_lease c) (ls_leases s).
Proof.
  intros Hs. unfold release_lease. cbn. destruct (sc_lease c) as [e|] eqn:E.
  - destruct (ls_release_law s e Hs) as (b & s' & Hr & Hs' & Hl).
    exists s'. unfold bind, on_leases, update. rewrite Hr. auto.
  - exists s. split; [|auto]. destruct c; cbn in *. subst. reflexivity.
Qed.

Lemma make_outbound_eq type payload s c :
  make_outbound type payload (s, c) =
  (Ok (mkFrame type 0 (sc_next_outbound_sequence c) payload), (s : S, numbered c)).
Proof. reflexivity. Qed.

Lemma fail_eq code what s c :
  ls_ok s -> zlen (string_bytes what) <= kMaximumErrorMessageSize ->
  exists s',
    fail code what (s, c) =
      (Ok (mkSessionResult [error_frame code what (sc_next_outbound_sequence c)] [] true),
       (s', ended Closing (numbered c))) /\
    ls_ok s' /\ ls_leases s' = released (sc_lease c) (ls_leases s).
Proof.
  intros Hs Hw. destruct (release_lease_eq s (set_state Closing (numbered c)) Hs) as (s' & Hr & Hs' & Hl).
  exists s'. split; [|auto]. unfold fail, bind, lift, update.
  rewrite encode_error_message_short by assumption. rewrite make_outbound_eq. cbn iota beta.
  rewrite Hr. reflexivity.
Qed.

Lemma renew_lease_eq now s c e :
  ls_ok s -> sc_lease c = Some e -> l_identity e = sc_identity c ->
  (exists k s', renew_lease now (s, c) = (Ok true, (s', set_lease (Some k) c)) /\ ls_ok s' /\
     renewed now (ls_leases s) c k /\ l_identity k = sc_identity c /\
     ls_leases s' = <[sc_identity c := k]> (unexpired now (ls_leases s))) \/
  (exists s', renew_lease now (s, c) = (Ok false, (s', c)) /\ ls_ok s' /\
     matches e (unexpired now (ls_leases s)) = None /\
     ls_leases s' = unexpired now (ls_leases s)).
Proof.
  intros Hs He Hi. unfold renew_lease. cbn. rewrite He.
  pose proof (ls_renew_law s e now Hs) as H.
  destruct (matches e (unexpired now (ls_leases s))) as [l|] eqn:Em.
  - destruct H as (k & s' & Hr & Hs' & Hk & Hl). left. exists k, s'.
    unfold bind, on_leases, update. rewrite Hr. rewrite Hi in Hl. split_goal; auto.
    + exists e, l. auto.
    + apply matches_some in Em as (El & _ & _). destruct Hk as (_ & <- & _).
      unfold unexpired in El. apply map_lookup_filter_Some in El as [El _].
      apply ls_stored in El as (El & _); [|assumption]. congruence.
  - destruct H as (s' & Hr & Hs' & Hl). right. exists s'.
    unfold bind, on_leases. rewrite Hr. auto.
Qed.

(** The outcome of a computation on the manager and the session, when it
    returns [r] and leaves leases and session as [R] says. *)
Definition yields {A} (m : M (S * SessionController) A) (st : S * SessionController)
    (R : A -> gmap string Lease -> SessionController -> Prop) : Prop :=
  exists r s' c', m st = (Ok r, (s', c')) /\ ls_ok s' /\ R r (ls_leases s') c'.

Lemma yields_session {A} k s c (R : A -> _ -> _ -> Prop) :
  yields (k c) (s, c) R -> yields (bind session k) (s, c) R.
Proof. auto. Qed.
Lemma yields_update {A} f (k : unit -> M _ A) s c R :
  yields (k tt) (s, f c) R -> yields (bind (update f) k) (s, c) R.
Proof. auto. Qed.

Lemma yields_lift {A B} a (k : B -> M _ A) s c R :
  yields (k a) (s, c) R -> yields (bind (lift (Ok a)) k) (s, c) R.
Proof. auto. Qed.
Lemma yields_outbound {A} t p (k : Frame -> M _ A) s c R :
  yields (k (mkFrame t 0 (sc_next_outbound_sequence c) p)) (s, numbered c) R ->
  yields (bind (make_outbound t p) k) (s, c) R.
Proof. auto. Qed.

Lemma fail_yields code what s c (R : _ -> _ -> _ -> Prop) :
  ls_ok s -> zlen (string_bytes what) <= kMaximumErrorMessageSize ->
  R (mkSessionResult [error_frame code what (sc_next_outbound_sequence c)] [] true)
    (released (sc_lease c) (ls_leases s)) (ended Closing (numbered c)) ->
  yields (fail code what) (s, c) R.
Proof.
  intros Hs Hw HR. destruct (fail_eq code what s c Hs Hw) as (s' & E & Hs' & Hl).
  eexists _, s', _. rewrite Hl. eauto.
Qed.

Lemma close_yields s c (R : _ -> _ -> _ -> Prop) :
  ls_ok s ->
  R (mkSessionResult [] [] true) (released (sc_lease c) (ls_leases s)) (ended Closed c) ->
  yields close_session (s, c) R.
Proof.
  intros Hs HR. destruct (release_lease_eq s (set_state Closed c) Hs) as (s' & Hr & Hs' & Hl).
  eexists _, s', _. unfold close_session, bind, update. rewrite Hr, Hl. split; [reflexivity|auto].
Qed.

(** A payload is decoded under [catch (const std::invalid_argument&)]. *)
Lemma decoding_yields {A} (m : outcome A) k s c R :
  invalid_only m ->
  (forall a, m = Ok a -> yields (k a) (s, c) R) ->
  (forall what, m = Throw (InvalidArgument what) ->
     zlen (string_bytes what) <= kMaximumErrorMessageSize ->
     yields (fail InvalidControlPayload what) (s, c) R) ->
  yields (decoding m k) (s, c) R.
Proof.
  intros Hm Hk Hf. unfold decoding. destruct m as [a|e]; [auto|].
  destruct (invalid_only_inv _ e Hm eq_refl) as (what & -> & Hw). auto.
Qed.

(** *** [handle] *)


Lemma short_sequence_message c :
  session_ok c ->
  zlen (string_bytes ("unexpected inbound sequence; expected " +:+
    to_string (sc_next_expected_sequence c))) <= kMaximumErrorMessageSize.
Proof. intros Hc. apply sequence_message_short, so_expected, Hc. Qed.

Ltac refuse :=
  match goal with |- handle_rel _ ?c _ _ _ _ _ => apply (hr_refused _ c) end;
  [auto|first [assumption | short_text
     | eauto using validate_ipv4_short, validate_ipv6_short, short_sequence_message]|].

Lemma handle_hello_sound frame now s c :
  ls_ok s -> session_ok c -> sc_state c = AwaitingHello -> expects frame c ->
  yields (handle_hello frame now) (s, counted c) (handle_rel (ls_leases s) c frame now).
Proof.
  intros Hs Hc Hst Hex. unfold handle_hello.
  assert (Hnone : sc_lease c = None).
  { apply eq_None_not_Some. rewrite <- (so_lease _ Hc). congruence. }
  case_bool_decide as Ht; cbn [negb].
  2: { apply fail_yields; [assumption|short_text|]. refuse. apply rf_first; auto. }
  unfold try_catch, bind at 1, lift at 1. unfold yields. pose proof (decode_client_hello_throws (f_payload frame)) as Hd.
  destruct (decode_client_hello (f_payload frame)) as [hello|e] eqn:Eh.
  2: { destruct (invalid_only_inv _ e Hd eq_refl) as (what & -> & Hw).
       cbn iota beta. apply fail_yields; [assumption..|]. refuse.
       apply rf_hello; auto. }
  cbn iota beta. unfold bind, session, on_leases, get, update, lift. cbn iota beta. cbn [snd].
  change (sc_identity (counted c)) with (sc_identity c).
  pose proof (ls_acquire_law s (sc_identity c) now Hs (so_identity _ Hc)) as Hacq.
  destruct (ls_acquire (sc_identity c) now s) as [[l|e] s1].
  2: { destruct Hacq as (Hs1 & Hre & Hw & Hl).
       assert (Hf : yields (fail LeaseUnavailable (exn_what e)) (s1, counted c)
                      (handle_rel (ls_leases s) c frame now)).
       { apply fail_yields; [assumption..|]. rewrite Hl. refuse.
         eapply rf_pool; eauto. }
       destruct e; try discriminate; exact Hf. }
  destruct Hacq as (Hs1 & Hfree & Hl).
  assert (Hin : ls_leases s1 !! sc_identity c = Some l) by (rewrite Hl; apply lookup_insert_eq).
  destruct (ls_stored s1 _ l Hs1 Hin) as (Hid & _).
  destruct (ls_assignment_law s1 _ l Hs1 Hin) as (Hwf & Hca & Hca6 & Hmtu).
  cbn iota beta zeta. cbn [fst snd].
  set (a := ls_to_assignment s1 l) in *.
  change (encode_ip_assignment _) with
    (encode_ip_assignment (with_mtu (Z.min (requested_mtu hello) (ia_mtu a)) a)).
  set (c1 := set_state Established _).
  change c1 with (established (Z.min (requested_mtu hello) (ia_mtu a)) l (counted c)). clear c1.
  pose proof (encode_ip_assignment_throws (with_mtu (Z.min (requested_mtu hello) (ia_mtu a)) a)) as He.
  destruct (encode_ip_assignment _) as [payload|e] eqn:Ea.
  - rewrite make_outbound_eq. eexists _, _, _. split; [reflexivity|]. split; [assumption|].
    rewrite Hl. apply (hr_assigned _ c frame now hello l a payload); auto.
  - destruct (invalid_only_inv _ e He eq_refl) as (what & -> & Hw). cbn iota beta.
    apply fail_yields; [assumption..|]. rewrite Hl. refuse.
    eapply rf_assignment; eauto.
Qed.

(** The [switch], after a renewal where the type asks for one. *)
Lemma dispatch_packet_sound frame now s s1 c k :
  ls_ok s1 -> sc_state c = Established -> expects frame c -> renewed now (ls_leases s) c k ->
  is_bytes (f_payload frame) -> is_renewing (f_type frame) = true ->
  ls_leases s1 = <[sc_identity c := k]> (unexpired now (ls_leases s)) ->
  yields (dispatch frame) (s1, set_lease (Some k) (counted c)) (handle_rel (ls_leases s) c frame now).
Proof.
  intros Hs Hst Hex Hk Hb Ht Hl. unfold dispatch. apply yields_session.
  set (c1 := set_lease (Some k) (counted c)).
  assert (Hok : forall t, f_type frame = t ->
    from_lease (sc_negotiated_mtu c) k t (f_payload frame) ->
    yields (deliver (f_payload frame)) (s1, c1) (handle_rel (ls_leases s) c frame now)).
  { intros t <- Hf. eexists _, _, _. split; [reflexivity|]. split; [assumption|]. rewrite Hl.
    apply hr_delivered; auto. }
  destruct (f_type frame) eqn:E; try discriminate.
  - pose proof (validate_ipv4_none c1 k (f_payload frame) Hb eq_refl) as Hv.
    destruct (validate_ipv4_packet _ _) as [[code what]|] eqn:Ev.
    + apply fail_yields; [assumption|eapply validate_ipv4_short; eassumption|].
      rewrite Hl. refuse. eapply rf_packet; eauto.
    + apply (Hok MtDataIpv4); auto. left. split; [reflexivity|]. apply Hv. reflexivity.
  - apply decoding_yields; [apply decode_liveness_probe_throws|intros probe Hp|intros what Hp Hw].
    + unfold encode_liveness_probe. apply yields_lift, yields_outbound.
      assert (Hz : zlen (f_payload frame) = 8).
      { unfold decode_liveness_probe, require_size in Hp. apply reject_then in Hp as [Hz _]. b2p. assumption. }
      assert (append_u64 [] (nonce probe) = f_payload frame) as ->.
      { apply ok_inj. pose proof (codec_decode_wf (A := LivenessProbe) _ _ Hb Hp) as Hw.
        exact (proj1 (codec_exact (A := LivenessProbe) _ _ Hw Hb) Hp). }
      eexists _, _, _. split; [reflexivity|]. split; [assumption|]. rewrite Hl. apply (hr_pong _ c frame now k); auto.
    + apply fail_yields; [assumption..|]. rewrite Hl. refuse. eapply rf_ping; eauto.
  - pose proof (validate_ipv6_none c1 k (f_payload frame) Hb eq_refl) as Hv.
    destruct (validate_ipv6_packet _ _) as [[code what]|] eqn:Ev.
    + apply fail_yields; [assumption|eapply validate_ipv6_short; eassumption|].
      rewrite Hl. refuse. eapply rf_packet; eauto.
    + apply (Hok MtDataIpv6); auto. right. split; [reflexivity|]. apply Hv. reflexivity.
Qed.

Lemma dispatch_other_sound frame now s c :
  ls_ok s -> sc_state c = Established -> expects frame c -> is_renewing (f_type frame) = false ->
  yields (dispatch frame) (s, counted c) (handle_rel (ls_leases s) c frame now).
Proof.
  intros Hs Hst Hex Ht. unfold dispatch. apply yields_session.
  assert (Hun : forall what, zlen (string_bytes what) <= kMaximumErrorMessageSize ->
    f_type frame ∉ [MtDataIpv4; MtDataIpv6; MtPing; MtClose; MtError] ->
    yields (fail UnexpectedMessage what) (s, counted c) (handle_rel (ls_leases s) c frame now)).
  { intros what Hw Hn. apply fail_yields; [assumption..|]. refuse.
    apply rf_unexpected; auto. }
  destruct (f_type frame) eqn:E; try discriminate;
    try (apply Hun; [short_text|decide_prop]);
    try (apply Hun; [short_text|rewrite !not_elem_of_cons; split_goal; auto using not_elem_of_nil; discriminate]).
  - apply decoding_yields; [apply decode_error_message_throws|intros m Hm|intros what Hm Hw].
    + apply close_yields; [assumption|]. apply (hr_closed _ c frame now); auto. right. rewrite Hm. auto.
    + apply fail_yields; [assumption..|]. refuse. apply rf_ending; auto.
  - apply decoding_yields; [apply decode_close_message_throws|intros m Hm|intros what Hm Hw].
    + apply close_yields; [assumption|]. apply (hr_closed _ c frame now); auto. left. rewrite Hm. auto.
    + apply fail_yields; [assumption..|]. refuse. apply rf_ending; auto.
Qed.

Lemma handle_sound frame now s c :
  ls_ok s -> session_ok c -> is_bytes (f_payload frame) ->
  yields (handle frame now) (s, c) (handle_rel (ls_leases s) c frame now).
Proof.
  intros Hs Hc Hb. unfold handle. apply yields_session.
  destruct (sc_state c) eqn:Est; try (eexists _, _, _; split; [reflexivity|]; split; [assumption|];
    apply hr_ignored; auto).
  all: destruct (Z.eqb_spec (f_sequence frame) (sc_next_expected_sequence c)) as [Hseq|Hseq]; cbn [negb];
    [|apply fail_yields; [assumption|apply short_sequence_message; assumption|];
      refuse; apply rf_sequence; assumption].
  all: apply yields_update; fold (counted c).
  - apply handle_hello_sound; auto.
  - unfold handle_established. destruct (is_renewing (f_type frame)) eqn:Et;
      [|apply dispatch_other_sound; auto].
    destruct (proj1 (so_lease _ Hc) Est) as [e He]. unfold yields, bind.
    destruct (renew_lease_eq now s (counted c) e Hs He (so_own _ Hc e He))
      as [(k & s1 & -> & Hs1 & Hk & _ & Hl)|(s1 & -> & Hs1 & Hm & Hl)]; cbn [negb].
    + apply dispatch_packet_sound; auto.
    + apply fail_yields; [assumption|short_text|]. rewrite Hl. refuse.
      eapply rf_lost; eauto.
Qed.

(** *** Packets to the client *)

(** The contract of [make_data_to_client]. *)
Inductive downlink_rel (leases : gmap string Lease) (c : SessionController) (packet : bytes) (now : Z)
  : option Frame -> gmap string Lease -> SessionController -> Prop :=
| dr_dropped :
    ~ (sc_state c = Established /\
       exists e t, sc_lease c = Some e /\ for_lease (sc_negotiated_mtu c) e t packet) ->
    downlink_rel leases c packet now None leases c
| dr_lost e t :
    sc_state c = Established -> sc_lease c = Some e -> for_lease (sc_negotiated_mtu c) e t packet ->
    matches e (unexpired now leases) = None ->
    downlink_rel leases c packet now None (unexpired now leases) (ended Closing c)
| dr_sent e t k :
    sc_state c = Established -> sc_lease c = Some e -> for_lease (sc_negotiated_mtu c) e t packet ->
    renewed now leases c k ->
    downlink_rel leases c packet now (Some (mkFrame t 0 (sc_next_outbound_sequence c) packet))
      (<[sc_identity c := k]> (unexpired now leases)) (numbered (set_lease (Some k) c)).

Lemma renew_and_send_sound t packet now s c e :
  ls_ok s -> session_ok c -> sc_state c = Established -> sc_lease c = Some e ->
  for_lease (sc_negotiated_mtu c) e t packet ->
  yields (renew_and_send t packet now) (s, c) (downlink_rel (ls_leases s) c packet now).
Proof.
  intros Hs Hc Hst He Hp. unfold renew_and_send, yields, bind at 1.
  destruct (renew_lease_eq now s c e Hs He (so_own _ Hc e He))
    as [(k & s1 & -> & Hs1 & Hk & _ & Hl)|(s1 & -> & Hs1 & Hm & Hl)]; cbn [negb].
  - apply yields_outbound. eexists _, _, _. split; [reflexivity|]. split; [assumption|]. rewrite Hl.
    apply (dr_sent _ c packet now e t k); auto.
  - destruct (release_lease_eq s1 (set_state Closing c) Hs1) as (s2 & Hr & Hs2 & Hl2).
    eexists _, s2, _. unfold bind, update. rewrite Hr. split; [reflexivity|]. split; [assumption|].
    cbn [sc_lease set_state] in Hl2. rewrite Hl2, Hl. unfold released. rewrite He, Hm.
    apply (dr_lost _ c packet now e t); auto.
Qed.

Lemma for_lease_checks c l packet :
  is_bytes packet ->
  (forall t, for_lease (sc_negotiated_mtu c) l t packet ->
   0 < zlen packet <= sc_negotiated_mtu c /\
   match t with
   | MtDataIpv4 => at_ packet 0 / 16 = 4
   | MtDataIpv6 => at_ packet 0 / 16 = 6
   | _ => False
   end).
Proof. intros Hb t [(-> & [] & _)|(-> & [] & _)]; split; auto; lia. Qed.

Lemma downlink_sound packet now s c :
  ls_ok s -> session_ok c -> is_bytes packet ->
  yields (make_data_to_client packet now) (s, c) (downlink_rel (ls_leases s) c packet now).
Proof.
  intros Hs Hc Hb. unfold make_data_to_client. apply yields_session.
  assert (Hdrop : ~ (sc_state c = Established /\
       exists e t, sc_lease c = Some e /\ for_lease (sc_negotiated_mtu c) e t packet) ->
       yields (ret None) (s, c) (downlink_rel (ls_leases s) c packet now)).
  { intros H. eexists _, _, _. split; [reflexivity|]. split; [assumption|]. apply dr_dropped. exact H. }
  destruct (sc_lease c) as [e|] eqn:He; [|apply Hdrop; intros (_ & ? & ? & [=] & _)].
  assert (Hno : (forall t, ~ for_lease (sc_negotiated_mtu c) e t packet) ->
       yields (ret None) (s, c) (downlink_rel (ls_leases s) c packet now)).
  { intros H. apply Hdrop. intros (_ & e' & t & [= <-] & Hf). exact (H t Hf). }
  rewrite !be_length_eq, version_eq, header_length_eq by (auto; lia). cbn zeta.
  change (4 + 1) with 5. change (2 + 1) with 3.
  if_goal E1.
  { b2p_all; [apply Hdrop; intros [? _]; contradiction|..]; apply Hno; intros t Hf;
      apply for_lease_checks in Hf as [? _]; auto; lia. }
  b2p. destruct (Z.eqb_spec (at_ packet 0 / 16) 6) as [E6|E6].
  - assert (H6 : forall t, for_lease (sc_negotiated_mtu c) e t packet -> t = MtDataIpv6).
    { intros t [(-> & [_ ? _ _] & _)|(-> & _)]; [lia|reflexivity]. }
    if_goal E2.
    { apply Hno. intros t Hf. pose proof (H6 t Hf) as ->.
      destruct Hf as [([=] & _)|(_ & [[? ?] _ _] & ? & ?)]. b2p_all; [lia|contradiction]. }
    if_goal E3.
    { apply Hno. intros t Hf. pose proof (H6 t Hf) as ->.
      destruct Hf as [([=] & _)|(_ & [_ _ ?] & ? & ?)]. b2p_all; [lia|contradiction]. }
    b2p. apply (renew_and_send_sound _ _ _ _ _ e); auto.
    right. split; [reflexivity|]. split; [constructor; lia|auto].
  - assert (H4 : forall t, for_lease (sc_negotiated_mtu c) e t packet -> t = MtDataIpv4).
    { intros t [(-> & _)|(-> & [_ ? _] & _)]; [reflexivity|lia]. }
    destruct (Z.ltb_spec (zlen packet) 20).
    { apply Hno. intros t Hf. pose proof (H4 t Hf) as ->.
      destruct Hf as [(_ & [[? ?] _ _ _] & _)|([=] & _)]. lia. }
    if_goal E3.
    { apply Hno. intros t Hf. pose proof (H4 t Hf) as ->.
      destruct Hf as [(_ & [_ ? [? ?] ?] & ?)|([=] & _)]. b2p_all; congruence || lia. }
    b2p. apply (renew_and_send_sound _ _ _ _ _ e); auto.
    left. split; [reflexivity|]. split; [constructor; lia|auto].
Qed.

Lemma transport_closed_sound s c :
  ls_ok s ->
  yields on_transport_closed (s, c) (fun _ leases' c' =>
    leases' = released (sc_lease c) (ls_leases s) /\ c' = ended Closed c).
Proof.
  intros Hs. destruct (release_lease_eq s (set_state Closed c) Hs) as (s' & Hr & Hs' & Hl).
  eexists _, s', _. unfold on_transport_closed, bind, update. rewrite Hr. auto.
Qed.

(** *** Preservation *)

Lemma ended_ok st c : session_ok c -> st <> Established -> session_ok (ended st c).
Proof.
  intros [] Hst. constructor; cbn; auto; try discriminate.
  split; [contradiction|]. intros [? [=]].
Qed.
Lemma numbered_ok c : session_ok c -> session_ok (numbered c).
Proof. intros []. constructor; cbn; auto. apply u64_range. Qed.
Lemma counted_ok c : session_ok c -> session_ok (counted c).
Proof. intros []. constructor; cbn; auto. apply u64_range. Qed.
Lemma renewed_ok now leases c k :
  session_ok c -> sc_state c = Established -> renewed now leases c k ->
  well_keyed leases -> session_ok (set_lease (Some k) c).
Proof.
  intros [] Hst (e & l & He & Hm & Hk) Hid. constructor; cbn; auto.
  - split; eauto.
  - intros ? [= <-]. destruct Hk as (_ & <- & _). apply matches_some in Hm as (Hl & _ & _).
    apply map_lookup_filter_Some in Hl as [Hl _]. apply Hid in Hl as [Hl _]. rewrite Hl. auto.
  - intros ? [= <-]. destruct Hk as (_ & _ & E4 & E6). apply matches_some in Hm as (Hl & _ & _).
    apply map_lookup_filter_Some in Hl as [Hl _]. apply Hid in Hl as [_ Hl].
    unfold lease_shape in *. rewrite <- E4, <- E6. exact Hl.
Qed.

Lemma decode_client_hello_mtu p hello :
  decode_client_hello p = Ok hello -> kMinimumIpv6Mtu <= requested_mtu hello <= kMaximumTunnelMtu.
Proof.
  unfold decode_client_hello. intros H. inv_ok. subst hello.
  match goal with H : encode_client_hello _ = Ok _ |- _ => apply encode_client_hello_ok in H as [_ H]; exact H end.
Qed.

Lemma established_ok c l hello a :
  session_ok c -> l_identity l = sc_identity c -> lease_shape l ->
  kMinimumIpv6Mtu <= requested_mtu hello <= kMaximumTunnelMtu ->
  kMinimumIpv4Mtu <= ia_mtu a <= kMaximumTunnelMtu ->
  session_ok (established (Z.min (requested_mtu hello) (ia_mtu a)) l c).
Proof.
  intros [] Hid Hsh Hh Ha. unfold kMinimumIpv4Mtu, kMinimumIpv6Mtu, kMaximumTunnelMtu in *.
  constructor; cbn; auto; try (unfold kMinimumIpv4Mtu, kMaximumTunnelMtu; lia).
  - split; eauto.
  - intros ? [= <-]. assumption.
  - intros ? [= <-]. assumption.
Qed.

Lemma assignment_shape a l :
  ip_assignment_wf a -> client_address a = l_address l -> client_ipv6_address a = l_ipv6_address l ->
  lease_shape l.
Proof. intros (H4 & _ & _ & _ & _ & H6 & _) E4 E6. split; congruence. Qed.

Lemma refusal_ok leases c frame now code what leases1 c1 :
  session_ok c -> well_keyed leases ->
  refusal leases c frame now code what leases1 c1 -> session_ok (ended Closing (numbered c1)).
Proof.
  intros Hc Hid Hr. destruct Hr; repeat match goal with H : renewed _ _ _ _ |- _ =>
    apply renewed_ok in H; auto using counted_ok end;
    destruct (counted_ok c Hc); destruct Hc; constructor; cbn; auto using u64_range; try discriminate;
    try (split; [discriminate|intros [? [=]]]).
  match goal with H : decode_client_hello _ = Ok _ |- _ => apply decode_client_hello_mtu in H end.
  all: unfold kMinimumIpv4Mtu, kMinimumIpv6Mtu, kMaximumTunnelMtu in *; lia.
Qed.

Lemma ls_well_keyed s : ls_ok s -> well_keyed (ls_leases s).
Proof. intros Hs i l Hl. apply (ls_stored s i l Hs Hl). Qed.

Lemma handle_rel_ok leases c frame now r leases' c' :
  session_ok c -> well_keyed leases -> handle_rel leases c frame now r leases' c' -> session_ok c'.
Proof.
  intros Hc Hid Hr. destruct Hr as [|code what leases1 c1 ? ? Href|hello l a payload| | |].
  - assumption.
  - eapply refusal_ok; eassumption.
  - apply numbered_ok, established_ok; auto using counted_ok;
      [eapply assignment_shape|eapply decode_client_hello_mtu]; eassumption.
  - eapply renewed_ok; eauto using counted_ok.
  - apply numbered_ok. eapply renewed_ok; eauto using counted_ok.
  - apply ended_ok; [apply counted_ok; assumption|discriminate].
Qed.

Lemma downlink_rel_ok leases c packet now r leases' c' :
  session_ok c -> well_keyed leases -> downlink_rel leases c packet now r leases' c' -> session_ok c'.
Proof.
  intros Hc Hid Hr. destruct Hr.
  - assumption.
  - apply ended_ok; [assumption|discriminate].
  - apply numbered_ok. eapply renewed_ok; eassumption.
Qed.

(** *** Runs of a session *)

(** The calls a session receives, in any order, with the frames each one
    makes; between them the manager moves on by itself, since it serves
    other sessions too. *)
Inductive session_run : S * SessionController -> list Frame -> S * SessionController -> Prop :=
| run_nil st : session_run st [] st
| run_handle frame now st r st1 out st2 :
    is_bytes (f_payload frame) -> handle frame now st = (Ok r, st1) -> session_run st1 out st2 ->
    session_run st (outbound_frames r ++ out) st2
| run_send packet now st f st1 out st2 :
    is_bytes packet -> make_data_to_client packet now st = (Ok f, st1) -> session_run st1 out st2 ->
    session_run st (option_list f ++ out) st2
| run_transport_closed st st1 out st2 :
    on_transport_closed st = (Ok tt, st1) -> session_run st1 out st2 -> session_run st out st2
| run_others s s1 c out st2 :
    ls_ok s1 -> session_run (s1, c) out st2 -> session_run (s, c) out st2.

(** A session after any such history. *)
Definition session_reachable (st : S * SessionController) : Prop :=
  exists identity s c out,
    ls_ok s /\ make_session identity = Ok c /\ session_run (s, c) out st.

Lemma make_session_ok identity c : make_session identity = Ok c -> session_ok c.
Proof.
  unfold make_session. case_bool_decide; [discriminate|]. intros <-%ok_inj.
  constructor; cbn; auto; try int_lia; try discriminate.
  - unfold kMinimumIpv4Mtu, kMaximumTunnelMtu. lia.
  - split; [discriminate|intros [? [=]]].
Qed.

Lemma yields_inv {A} (m : M _ A) st R r s' c' :
  yields m st R -> m st = (Ok r, (s', c')) -> ls_ok s' /\ R r (ls_leases s') c'.
Proof. intros (r1 & s1 & c1 & E & ? & ?) E'. rewrite E in E'. simplify_eq. auto. Qed.

Lemma session_run_ok st out st' :
  session_run st out st' -> ls_ok st.1 /\ session_ok st.2 -> ls_ok st'.1 /\ session_ok st'.2.
Proof.
  induction 1 as [st|frame now [s c] r [s1 c1] out st2 Hb E _ IH|packet now [s c] f [s1 c1] out st2 Hb E _ IH
                 |[s c] [s1 c1] out st2 E _ IH|s s1 c out st2 Hs1 _ IH]; cbn [fst snd] in *; intros [Hs Hc].
  - auto.
  - apply (yields_inv _ _ _ _ _ _ (handle_sound frame now s c Hs Hc Hb)) in E as [Hs1 Hr].
    apply IH. eauto using handle_rel_ok, ls_well_keyed.
  - apply (yields_inv _ _ _ _ _ _ (downlink_sound packet now s c Hs Hc Hb)) in E as [Hs1 Hr].
    apply IH. eauto using downlink_rel_ok, ls_well_keyed.
  - apply (yields_inv _ _ _ _ _ _ (transport_closed_sound s c Hs)) in E as [Hs1 [_ ->]].
    apply IH. split; [assumption|]. apply ended_ok; [assumption|discriminate].
  - apply IH. auto.
Qed.

Lemma session_reachable_ok s c : session_reachable (s, c) -> ls_ok s /\ session_ok c.
Proof.
  intros (i & s0 & c0 & out & Hs & Hm & Hr). apply (session_run_ok _ _ _ Hr).
  cbn. eauto using make_session_ok.
Qed.

(** Every call numbers the frames it makes from the session's counter. *)
Lemma handle_rel_numbers leases c frame now r leases' c' :
  session_ok c -> handle_rel leases c frame now r leases' c' ->
  consecutive (sc_next_outbound_sequence c) (outbound_frames r) /\
  sc_next_outbound_sequence c' = advance (sc_next_outbound_sequence c) (outbound_frames r).
Proof.
  intros Hc Hr. pose proof (advance_nil _ (so_outbound _ Hc)) as Hn.
  destruct Hr as [|code what leases1 c1 ? ? Href| | | |]; cbn [outbound_frames consecutive]; rewrite ?Hn;
    split; split_goal; auto; try reflexivity.
  destruct Href; reflexivity.
Qed.

Lemma downlink_rel_numbers leases c packet now r leases' c' :
  session_ok c -> downlink_rel leases c packet now r leases' c' ->
  consecutive (sc_next_outbound_sequence c) (option_list r) /\
  sc_next_outbound_sequence c' = advance (sc_next_outbound_sequence c) (option_list r).
Proof.
  intros Hc Hr. pose proof (advance_nil _ (so_outbound _ Hc)) as Hn.
  destruct Hr; cbn -[advance u64]; rewrite ?Hn; split; split_goal; auto.
Qed.

Lemma session_run_numbers st out st' :
  session_run st out st' -> ls_ok st.1 -> session_ok st.2 ->
  consecutive (sc_next_outbound_sequence st.2) out.
Proof.
  induction 1 as [st|frame now [s c] r [s1 c1] out st2 Hb E _ IH|packet now [s c] f [s1 c1] out st2 Hb E _ IH
                 |[s c] [s1 c1] out st2 E _ IH|s s1 c out st2 Hs1 _ IH]; cbn [fst snd] in *; intros Hs Hc.
  - exact I.
  - apply (yields_inv _ _ _ _ _ _ (handle_sound frame now s c Hs Hc Hb)) in E as [Hs1 Hr].
    destruct (handle_rel_numbers _ _ _ _ _ _ _ Hc Hr) as [Hn Ha].
    apply consecutive_app; [apply so_outbound; assumption|assumption|]. rewrite <- Ha.
    eauto using handle_rel_ok, ls_well_keyed.
  - apply (yields_inv _ _ _ _ _ _ (downlink_sound packet now s c Hs Hc Hb)) in E as [Hs1 Hr].
    destruct (downlink_rel_numbers _ _ _ _ _ _ _ Hc Hr) as [Hn Ha].
    apply consecutive_app; [apply so_outbound; assumption|assumption|]. rewrite <- Ha.
    eauto using downlink_rel_ok, ls_well_keyed.
  - apply (yields_inv _ _ _ _ _ _ (transport_closed_sound s c Hs)) in E as [Hs1 [_ ->]].
    apply IH; [assumption|]. apply ended_ok; [assumption|discriminate].
  - auto.
Qed.

(** The frames of a session can be encoded and read back. *)
Lemma handle_rel_valid leases c frame now r leases' c' :
  session_ok c -> is_bytes (f_payload frame) -> handle_rel leases c frame now r leases' c' ->
  Forall valid_frame (outbound_frames r).
Proof.
  intros Hc Hb Hr.
  assert (Hv : forall t p, MessageType_of_u8 (MessageType_to_u8 t) = t ->
    is_known_message_type (MessageType_to_u8 t) = true -> is_bytes p -> zlen p <= kMaxPayloadSize ->
    Forall valid_frame [mkFrame t 0 (sc_next_outbound_sequence c) p]).
  { intros t p Ht Hk Hp Hl. constructor; [|constructor]. unfold valid_frame. cbn.
    pose proof (so_outbound _ Hc). auto 10. }
  destruct Hr as [|code what leases1 c1 ? Hw Href|hello l a payload ? ? ? Hh ? ? ? ? Hwf Hmtu mtu He|
    |k ? ? ? ? Hz|]; cbn [outbound_frames]; try apply Forall_nil; try exact I.
  - apply Hv; [reflexivity|reflexivity| |].
    + apply is_bytes_app. split; [apply is_bytes_be16|apply string_bytes_range].
      all: try (destruct code; cbn; int_lia).
    + rewrite zlen_app. unfold kMaximumErrorMessageSize, kMaxPayloadSize in *.
      change (zlen (be16 _)) with 2. lia.
  - apply Hv; [reflexivity|reflexivity| |].
    + apply (codec_encode_bytes (A := IpAssignment) (with_mtu mtu a)); [|exact He].
      destruct Hwf as (? & ? & ? & Hm & ?). apply decode_client_hello_mtu in Hh.
      unfold kMinimumIpv4Mtu, kMinimumIpv6Mtu, kMaximumTunnelMtu in *.
      unfold codec_wf, IpAssignment_codec, ip_assignment_wf. split_goal; auto; try tauto.
      cbn [with_mtu ia_mtu]. subst mtu. int_lia.
    + rewrite encode_ip_assignment_eq in He. apply obind_ok in He as (u & _ & <-%ok_inj).
      destruct Hwf as ([_ L1] & [_ L2] & _ & _ & _ & [_ L3] & [_ L4] & _).
      cbn [with_mtu client_address gateway_address client_ipv6_address gateway_ipv6_address].
      unfold be16, be32, kMaxPayloadSize. rewrite !zlen_app, !zlen_cons, L1, L2, L3, L4.
      change (zlen (@nil Z)) with 0. lia.
  - apply Hv; [reflexivity|reflexivity|assumption|]. rewrite Hz. unfold kMaxPayloadSize. lia.
Qed.

Lemma downlink_rel_valid leases c packet now r leases' c' :
  session_ok c -> is_bytes packet -> downlink_rel leases c packet now r leases' c' ->
  Forall valid_frame (option_list r).
Proof.
  intros Hc Hb Hr. destruct Hr as [| |e t k Hst He Hf Hk]; cbn [option_list]; constructor; [|constructor].
  pose proof (so_mtu _ Hc). pose proof (so_outbound _ Hc).
  destruct (for_lease_checks c e packet Hb t Hf) as [Hl _].
  unfold kMaximumTunnelMtu, kMinimumIpv4Mtu in *.
  unfold valid_frame, kMaxPayloadSize. cbn [f_type f_flags f_sequence f_payload].
  destruct Hf as [(-> & _)|(-> & _)]; split_goal; auto; lia.
Qed.

(** *** Consequences of the contracts *)


Lemma from_lease_same mtu l k t p : same_lease l k -> from_lease mtu l t p <-> from_lease mtu k t p.
Proof. intros (_ & _ & Ea & E6). unfold from_lease. rewrite Ea, E6. reflexivity. Qed.

(** Releasing removes the entry of the session's identity or leaves one of
    another generation. *)
Lemma released_gone e leases : matches e (released (Some e) leases) = None.
Proof. apply matches_released. Qed.

Lemma released_inserted i k leases :
  l_identity k = i -> released (Some k) (<[i := k]> leases) !! i = None.
Proof.
  intros <-. unfold released.
  rewrite (proj2 (matches_some k _ k)) by (rewrite lookup_insert_eq; auto).
  apply lookup_delete_eq.
Qed.

Lemma lookup_none_matches e leases : leases !! l_identity e = None -> matches e leases = None.
Proof. intros H. unfold matches. rewrite H. reflexivity. Qed.

(** What happens to the leases of other identities: nothing, or expiry. *)
Definition others_kept (now : Z) (i : string) (leases leases' : gmap string Lease) : Prop :=
  forall j l, j <> i ->
    (leases' !! j = Some l -> leases !! j = Some l) /\
    (leases !! j = Some l -> now < expires_at l -> leases' !! j = Some l).

Lemma others_refl now i leases : others_kept now i leases leases.
Proof. split; auto. Qed.
Lemma others_unexpired now i leases : others_kept now i leases (unexpired now leases).
Proof.
  intros j l _. unfold unexpired. split; [intros [? ?]%map_lookup_filter_Some; assumption|].
  intros. apply map_lookup_filter_Some. auto.
Qed.
Lemma others_insert now i k leases leases' :
  others_kept now i leases leases' -> others_kept now i leases (<[i := k]> leases').
Proof. intros H j l Hj. rewrite lookup_insert_ne by congruence. apply H. assumption. Qed.
Lemma others_released now i e leases leases' :
  (forall l, e = Some l -> l_identity l = i) ->
  others_kept now i leases leases' -> others_kept now i leases (released e leases').
Proof.
  intros He H j l Hj. destruct e as [e|]; [|apply H; assumption]. cbn [released].
  destruct (matches e leases'); [|apply H; assumption].
  rewrite lookup_delete_ne by (rewrite (He e eq_refl); congruence). apply H. assumption.
Qed.
Hint Resolve others_refl others_unexpired others_insert others_released : core.

(** The effect of a call at [now] on the shared leases: other identities keep
    theirs; a session that goes on holds exactly the stored lease of its
    identity; one that does not has given up the lease it had, and has left
    nothing behind if it never got one. *)
Record lease_effect (now : Z) (leases : gmap string Lease) (c : SessionController)
    (leases' : gmap string Lease) (c' : SessionController) : Prop := {
  le_others : others_kept now (sc_identity c) leases leases';
  le_held : sc_state c' = Established ->
    exists k, sc_lease c' = Some k /\ leases' !! sc_identity c = Some k;
  le_ended : sc_state c' <> Established ->
    sc_lease c' = None /\ forall e, sc_lease c = Some e -> matches e leases' = None;
  le_unused : sc_state c = AwaitingHello -> sc_state c' <> Established ->
    forall l, leases' !! sc_identity c = Some l -> leases !! sc_identity c = Some l
}.

Lemma unexpired_some now leases i l : unexpired now leases !! i = Some l -> leases !! i = Some l.
Proof. intros [? _]%map_lookup_filter_Some. assumption. Qed.
Lemma released_some e leases i l : released e leases !! i = Some l -> leases !! i = Some l.
Proof.
  destruct e as [e|]; [|auto]. cbn [released]. destruct (matches e leases); [|auto].
  intros [_ ?]%lookup_delete_Some. assumption.
Qed.

(** A refusal after the lease was renewed, or newly acquired: the entry of
    the identity is gone. *)
Lemma ended_inserted now leases c k c' :
  session_ok c -> l_identity k = sc_identity c -> sc_state c' <> Established -> sc_lease c' = None ->
  lease_effect now leases c (released (Some k) (<[sc_identity c := k]> (unexpired now leases))) c'.
Proof.
  intros Hc Hk Hst Hn. pose proof (released_inserted (sc_identity c) k (unexpired now leases) Hk) as Hg.
  constructor.
  - apply others_released; [intros l [= <-]; assumption|auto].
  - contradiction.
  - intros _. split; [assumption|]. intros e He. apply lookup_none_matches.
    rewrite (so_own _ Hc e He). exact Hg.
  - intros _ _ l Hl. rewrite Hg in Hl. discriminate.
Qed.

(** A refusal, or an orderly end, from the lease the session already had. *)
Lemma ended_released now leases c leases1 c' :
  session_ok c -> leases1 = leases \/ leases1 = unexpired now leases ->
  sc_state c' <> Established -> sc_lease c' = None ->
  lease_effect now leases c (released (sc_lease c) leases1) c'.
Proof.
  intros Hc Hl Hst Hn. constructor.
  - apply others_released; [apply (so_own _ Hc)|]. destruct Hl as [->| ->]; auto.
  - contradiction.
  - intros _. split; [assumption|]. intros e He. rewrite He. apply released_gone.
  - intros _ _ l Hx%released_some. destruct Hl as [->| ->]; [assumption|].
    apply unexpired_some in Hx. assumption.
Qed.

Lemma renewed_own now leases c k :
  well_keyed leases -> session_ok c -> renewed now leases c k -> l_identity k = sc_identity c.
Proof.
  intros Hw Hc (e & l & He & (Hl & _ & _)%matches_some & (_ & <- & _)).
  apply unexpired_some, Hw in Hl as [Hl _]. rewrite Hl. apply (so_own _ Hc). assumption.
Qed.

(** A session that is still established cannot have ended. *)
Ltac goes_on :=
  intros; match goal with H : _ <> Established |- _ => destruct H; first [reflexivity | assumption] end.

Lemma handle_effect leases c frame now r leases' c' :
  session_ok c -> well_keyed leases -> handle_rel leases c frame now r leases' c' ->
  lease_effect now leases c leases' c'.
Proof.
  intros Hc Hw Hr.
  destruct Hr as [Hst|code what leases1 c1 Hst _ Href|hello l a payload|k|k|].
  - assert (Hn : sc_lease c = None).
    { apply eq_None_not_Some. rewrite <- (so_lease _ Hc). destruct Hst; congruence. }
    constructor; auto; try (destruct Hst; congruence).
    intros _. split; [assumption|]. intros e He. congruence.
  - destruct Href;
      try (apply (ended_released now leases c); [assumption|auto|discriminate|reflexivity]);
      apply ended_inserted; auto; try discriminate; eapply renewed_own; eassumption.
  - constructor; auto; [|goes_on..].
    intros _. exists l. split; [reflexivity|apply lookup_insert_eq].
  - constructor; auto; [|goes_on..].
    intros _. exists k. split; [reflexivity|apply lookup_insert_eq].
  - constructor; auto; [|goes_on..].
    intros _. exists k. split; [reflexivity|apply lookup_insert_eq].
  - apply ended_released; [assumption|auto|discriminate|reflexivity].
Qed.


(** ** Properties *)

(** C9: the life of a session's lease.  After any history, under any activity
    of other sessions on the same manager, [handle] returns without an
    exception on every frame; the session owns a lease exactly while it is
    [Established], and then it is the one the manager stores for the
    identity; a session that leaves [Established] has given its lease back,
    a handshake that fails leaves no lease behind, and the leases of other
    identities are only touched by expiry. *)
Theorem session_lease_lifecycle s c frame now :
  session_reachable (s, c) -> is_bytes (f_payload frame) ->
  exists r s' c',
    handle frame now (s, c) = (Ok r, (s', c')) /\
    (sc_state c' = Established <-> is_Some (sc_lease c')) /\
    lease_effect now (ls_leases s) c (ls_leases s') c'.
Proof.
  intros [Hs Hc]%session_reachable_ok Hb.
  destruct (handle_sound frame now s c Hs Hc Hb) as (r & s' & c' & E & Hs' & Hr).
  pose proof (ls_well_keyed s Hs) as Hw. exists r, s', c'. split; [exact E|].
  split; [|eapply handle_effect; eassumption].
  apply so_lease. eapply handle_rel_ok; eassumption.
Qed.

(** C8: a packet reaches the TUN device exactly when the session is
    established, the frame has the expected sequence number, the session's
    lease is still live in the manager, and the payload is a well-formed IPv4
    or IPv6 packet within the agreed MTU whose source is the leased address:
    no client can send with another address. *)
Theorem uplink_packets_exact s c frame now r s' c' p :
  session_reachable (s, c) -> is_bytes (f_payload frame) ->
  handle frame now (s, c) = (Ok r, (s', c')) ->
  p ∈ packets_to_tun r <->
  p = f_payload frame /\ sc_state c = Established /\
  f_sequence frame = sc_next_expected_sequence c /\
  exists e l, sc_lease c = Some e /\ matches e (unexpired now (ls_leases s)) = Some l /\
    from_lease (sc_negotiated_mtu c) l (f_type frame) p.
Proof.
  intros [Hs Hc]%session_reachable_ok Hb E.
  apply (yields_inv _ _ _ _ _ _ (handle_sound frame now s c Hs Hc Hb)) in E as [_ Hr].
  split.
  - destruct Hr as [| | |k Hst Hex (e & l & He & Hm & Hk) Hf| |]; cbn [packets_to_tun];
      try (intros []%not_elem_of_nil; fail).
    intros ->%list_elem_of_singleton. split_goal; auto. exists e, l. split_goal; auto.
    apply (from_lease_same _ l k); assumption.
  - intros (-> & Hst & Hex & e & l & He & Hm & Hf).
    assert (Ht : f_type frame = MtDataIpv4 \/ f_type frame = MtDataIpv6).
    { destruct Hf as [(? & _)|(? & _)]; auto. }
    destruct Hr as [Hx|code what leases1 c1 _ _ Href|hello l1 a payload Hst'|k|k|]; cbn [packets_to_tun];
      [destruct Hx; congruence| |congruence|apply list_elem_of_singleton; reflexivity
      |destruct Ht; congruence|destruct Ht, H1 as [[? _]|[? _]]; congruence].
    exfalso. destruct Href; try congruence; try (destruct Ht; congruence).
    + destruct H1 as (e1 & l1 & He1 & Hm1 & Hk). simplify_eq.
      apply (from_lease_same _ _ k) in Hf; [|assumption].
      destruct H2 as [[Ht2 Hv]|[Ht2 Hv]]; destruct Hf as [(Ht3 & Hp)|(Ht3 & Hp)]; try congruence.
      * apply (validate_ipv4_none (set_lease (Some k) (counted c)) k) in Hp; auto. congruence.
      * apply (validate_ipv6_none (set_lease (Some k) (counted c)) k) in Hp; auto. congruence.
    + destruct Ht, H1 as [[? _]|[? _]]; congruence.
    + destruct Ht as [Ht|Ht]; rewrite Ht in H1; apply H1; rewrite !elem_of_cons; auto.
Qed.

(** dually, a packet from the TUN device is sent to the client exactly
    when the session is established, the packet is well formed, within the
    MTU and addressed to the leased address, and the lease is live; it is
    then the frame's payload, under the next sequence number.  A packet for
    the client whose lease is gone ends the session. *)
Theorem downlink_packets_exact s c packet now :
  session_reachable (s, c) -> is_bytes packet ->
  exists r s' c',
    make_data_to_client packet now (s, c) = (Ok r, (s', c')) /\
    (forall f, r = Some f <->
       f_payload f = packet /\ f_flags f = 0 /\ f_sequence f = sc_next_outbound_sequence c /\
       sc_state c = Established /\
       exists e, sc_lease c = Some e /\ for_lease (sc_negotiated_mtu c) e (f_type f) packet /\
         is_Some (matches e (unexpired now (ls_leases s)))) /\
    (sc_state c' <> sc_state c -> r = None /\ c' = ended Closing c /\
       exists e, sc_lease c = Some e /\ matches e (unexpired now (ls_leases s)) = None).
Proof.
  intros [Hs Hc]%session_reachable_ok Hb.
  destruct (downlink_sound packet now s c Hs Hc Hb) as (r & s' & c' & E & Hs' & Hr).
  exists r, s', c'. split; [exact E|].
  assert (Huniq : forall e t t', for_lease (sc_negotiated_mtu c) e t packet ->
            for_lease (sc_negotiated_mtu c) e t' packet -> t = t').
  { intros e t t' [(-> & [_ ? _ _] & _)|(-> & [_ ? _] & _)] [(-> & [_ ? _ _] & _)|(-> & [_ ? _] & _)];
      congruence || reflexivity. }
  destruct Hr as [Hno|e t Hst He Hf Hm|e t k Hst He Hf Hk]; (split; [intros f; split|]).
  - discriminate.
  - intros (_ & _ & _ & Hst & e & He & Hf & _). destruct Hno. eauto.
  - congruence.
  - discriminate.
  - intros (_ & _ & _ & _ & e' & He' & _ & [? ?]). congruence.
  - intros _. split_goal; auto. eauto.
  - intros [= <-]. cbn. split_goal; auto. exists e. split_goal; auto.
    destruct Hk as (e1 & l & He1 & Hm & _). simplify_eq. eauto.
  - intros (Hp & Hfl & Hsq & _ & e' & He' & Hf' & _). destruct f as [ft ff fs fp]; cbn in *.
    simplify_eq. rewrite (Huniq _ _ _ Hf Hf'). reflexivity.
  - cbn. congruence.
Qed.

Lemma decode_error_frame code what n :
  zlen (string_bytes what) <= kMaximumErrorMessageSize ->
  decode_error_message (f_payload (error_frame code what n)) =
  Ok (mkErrorMessage (SessionErrorCode_to_u16 code) what).
Proof. apply decode_error_payload. destruct code; cbn; int_lia. Qed.

(** *** The IPv6 addresses of the pool *)

(** The lease has the IPv6 address that the pool gives with its address. *)
Definition pooled (s : S) (l : Lease) : Prop := l_ipv6_address l = ls_ipv6 s (l_address l).

Definition ipv6_kept {A} (m : M (S * SessionController) A) : Prop :=
  forall st a, ls_ipv6 (m st).2.1 a = ls_ipv6 st.1 a.

Lemma ipv6_kept_ret {A} (x : A) : ipv6_kept (ret x).
Proof. intros st a. reflexivity. Qed.
Lemma ipv6_kept_throw {A} e : ipv6_kept (A := A) (throw e).
Proof. intros st a. reflexivity. Qed.
Lemma ipv6_kept_lift {A} (o : outcome A) : ipv6_kept (lift o).
Proof. intros st a. reflexivity. Qed.
Lemma ipv6_kept_session : ipv6_kept session.
Proof. intros st a. reflexivity. Qed.
Lemma ipv6_kept_get : ipv6_kept get.
Proof. intros st a. reflexivity. Qed.
Lemma ipv6_kept_update f : ipv6_kept (update f).
Proof. intros [s c] a. reflexivity. Qed.
Lemma ipv6_kept_bind {A B} (m : M _ A) (k : A -> M _ B) :
  ipv6_kept m -> (forall x, ipv6_kept (k x)) -> ipv6_kept (bind m k).
Proof.
  intros Hm Hk st a. unfold bind. pose proof (Hm st a) as H.
  destruct (m st) as [[x|e] st1]; [rewrite Hk|]; exact H.
Qed.
Lemma ipv6_kept_try {A} (m : M _ A) h :
  ipv6_kept m -> (forall e m', h e = Some m' -> ipv6_kept m') -> ipv6_kept (try_catch m h).
Proof.
  intros Hm Hh st a. unfold try_catch. pose proof (Hm st a) as H.
  destruct (m st) as [[x|e] st1]; [exact H|]. destruct (h e) eqn:E; [|exact H]. rewrite (Hh _ _ E). exact H.
Qed.
Lemma ipv6_kept_leases {A} (m : M S A) :
  (forall s a, ls_ipv6 (m s).2 a = ls_ipv6 s a) -> ipv6_kept (on_leases m).
Proof. intros Hm [s c] a. unfold on_leases. pose proof (Hm s a) as H. destruct (m s). exact H. Qed.
Lemma ipv6_kept_acquire i now : ipv6_kept (on_leases (ls_acquire i now)).
Proof. apply ipv6_kept_leases. intros. apply ls_acquire_ipv6. Qed.
Lemma ipv6_kept_renew e now : ipv6_kept (on_leases (ls_renew e now)).
Proof. apply ipv6_kept_leases. intros. apply ls_renew_ipv6. Qed.
Lemma ipv6_kept_release e : ipv6_kept (on_leases (ls_release e)).
Proof. apply ipv6_kept_leases. intros. apply ls_release_ipv6. Qed.

Ltac ipv6_step :=
  match goal with
  | |- ipv6_kept (bind _ _) => apply ipv6_kept_bind; [|intros ?]
  | |- ipv6_kept (if ?b then _ else _) => destruct b
  | |- ipv6_kept (match ?x with _ => _ end) => destruct x
  | |- ipv6_kept (let _ := _ in _) => cbn zeta
  | |- ipv6_kept (try_catch _ _) => apply ipv6_kept_try; [|intros ? ? ?]
  | H : match ?e with _ => _ end = Some _ |- ipv6_kept _ => destruct e; try discriminate H; injection H as <-
  end.
Ltac ipv6_keeps := repeat first [ipv6_step | solve [eauto 2 using ipv6_kept_ret, ipv6_kept_throw,
  ipv6_kept_lift, ipv6_kept_session, ipv6_kept_get, ipv6_kept_update, ipv6_kept_acquire, ipv6_kept_renew,
  ipv6_kept_release]].

Lemma ipv6_kept_release_lease : ipv6_kept release_lease.
Proof. unfold release_lease. ipv6_keeps. Qed.
Lemma ipv6_kept_outbound t p : ipv6_kept (make_outbound t p).
Proof. unfold make_outbound. ipv6_keeps. Qed.
Lemma ipv6_kept_fail code what : ipv6_kept (fail code what).
Proof. pose proof ipv6_kept_release_lease. pose proof ipv6_kept_outbound. unfold fail. ipv6_keeps. Qed.
Lemma ipv6_kept_dispatch frame : ipv6_kept (dispatch frame).
Proof.
  pose proof ipv6_kept_release_lease. pose proof ipv6_kept_outbound. pose proof ipv6_kept_fail.
  unfold dispatch, decoding, deliver, close_session. ipv6_keeps.
Qed.
Lemma ipv6_kept_renew_lease now : ipv6_kept (renew_lease now).
Proof. unfold renew_lease. ipv6_keeps. Qed.

Lemma handle_ipv6 frame now : ipv6_kept (handle frame now).
Proof.
  pose proof ipv6_kept_release_lease. pose proof ipv6_kept_outbound. pose proof ipv6_kept_fail.
  pose proof ipv6_kept_dispatch. pose proof ipv6_kept_renew_lease.
  unfold handle, handle_hello, handle_established. ipv6_keeps.
Qed.
Lemma downlink_ipv6 packet now : ipv6_kept (make_data_to_client packet now).
Proof.
  pose proof ipv6_kept_release_lease. pose proof ipv6_kept_outbound. pose proof ipv6_kept_renew_lease.
  unfold make_data_to_client, renew_and_send. ipv6_keeps.
Qed.
Lemma transport_closed_ipv6 : ipv6_kept on_transport_closed.
Proof. pose proof ipv6_kept_release_lease. unfold on_transport_closed. ipv6_keeps. Qed.

(** A session takes its lease from the pool. *)
Lemma handle_pooled s c frame now r s' c' k :
  ls_ok s' -> (forall a, ls_ipv6 s' a = ls_ipv6 s a) ->
  handle_rel (ls_leases s) c frame now r (ls_leases s') c' ->
  (forall l, sc_lease c = Some l -> pooled s l) -> sc_lease c' = Some k -> pooled s' k.
Proof.
  intros Hs Ha Hr Hc Hk.
  assert (Hin : forall l m, ls_leases s' = <[sc_identity c := l]> m -> pooled s' l).
  { intros l m Hl. apply (ls_derived s' (sc_identity c)); [exact Hs|]. rewrite Hl. apply lookup_insert_eq. }
  inversion Hr; subst; cbn in Hk; simplify_eq; eauto.
  unfold pooled. rewrite Ha. apply Hc. assumption.
Qed.
Lemma downlink_pooled s c packet now r s' c' k :
  ls_ok s' -> (forall a, ls_ipv6 s' a = ls_ipv6 s a) ->
  downlink_rel (ls_leases s) c packet now r (ls_leases s') c' ->
  (forall l, sc_lease c = Some l -> pooled s l) -> sc_lease c' = Some k -> pooled s' k.
Proof.
  intros Hs Ha Hr Hc Hk. inversion Hr; subst; cbn in Hk; simplify_eq.
  - unfold pooled. rewrite Ha. apply Hc. assumption.
  - apply (ls_derived s' (sc_identity c)); [exact Hs|].
    match goal with H : _ = ls_leases s' |- _ => rewrite <- H end. apply lookup_insert_eq.
Qed.

(** The address of a lease stays when it is renewed. *)
Lemma renewed_keeps_address now s c e k :
  sc_lease c = Some e -> renewed now (ls_leases s) c k -> l_address k = l_address e.
Proof. intros He (e' & l & He' & (_ & _ & Ha)%matches_some & (_ & _ & Hk & _)). congruence. Qed.

(** *** Why a session refuses a frame *)

(** The lease [l] the manager holds for the session at [now]. *)
Definition holds_live (now : Z) (s : S) (c : SessionController) (l : Lease) : Prop :=
  exists e, sc_lease c = Some e /\ matches e (unexpired now (ls_leases s)) = Some l.

(** What is offered to a client that says [hello], from the manager [s] that
    gave the lease [l]. *)
Definition offer (s : S) (hello : ClientHello) (l : Lease) : IpAssignment :=
  let a := ls_to_assignment s l in with_mtu (Z.min (requested_mtu hello) (ia_mtu a)) a.

(** The number of the ERROR frame a frame deserves, and why, for a session
    that has not ended. *)
Inductive fault (s : S) (c : SessionController) (frame : Frame) (now : Z) : Z -> Prop :=
| ft_sequence :
    f_sequence frame <> sc_next_expected_sequence c -> fault s c frame now 2
| ft_first :
    sc_state c = AwaitingHello -> expects frame c -> f_type frame <> MtClientHello ->
    fault s c frame now 1
| ft_hello :
    sc_state c = AwaitingHello -> expects frame c -> f_type frame = MtClientHello ->
    is_ok (decode_client_hello (f_payload frame)) = false -> fault s c frame now 3
| ft_pool hello :
    sc_state c = AwaitingHello -> expects frame c -> f_type frame = MtClientHello ->
    decode_client_hello (f_payload frame) = Ok hello ->
    is_ok (ls_acquire (sc_identity c) now s).1 = false -> fault s c frame now 4
| ft_assignment hello l s1 :
    sc_state c = AwaitingHello -> expects frame c -> f_type frame = MtClientHello ->
    decode_client_hello (f_payload frame) = Ok hello ->
    ls_acquire (sc_identity c) now s = (Ok l, s1) ->
    is_ok (encode_ip_assignment (offer s1 hello l)) = false -> fault s c frame now 3
| ft_unexpected :
    sc_state c = Established -> expects frame c ->
    f_type frame ∉ [MtDataIpv4; MtDataIpv6; MtPing; MtClose; MtError] -> fault s c frame now 1
| ft_lost :
    sc_state c = Established -> expects frame c -> f_type frame ∈ [MtDataIpv4; MtDataIpv6; MtPing] ->
    (forall l, ~ holds_live now s c l) -> fault s c frame now 4
| ft_ping l :
    sc_state c = Established -> expects frame c -> f_type frame = MtPing -> holds_live now s c l ->
    zlen (f_payload frame) <> 8 -> fault s c frame now 3
| ft_close :
    sc_state c = Established -> expects frame c -> f_type frame = MtClose ->
    is_ok (decode_close_message (f_payload frame)) = false -> fault s c frame now 3
| ft_error :
    sc_state c = Established -> expects frame c -> f_type frame = MtError ->
    is_ok (decode_error_message (f_payload frame)) = false -> fault s c frame now 3
| ft_ipv4 l :
    sc_state c = Established -> expects frame c -> f_type frame = MtDataIpv4 -> holds_live now s c l ->
    ~ ipv4_packet (sc_negotiated_mtu c) (f_payload frame) -> fault s c frame now 5
| ft_source4 l :
    sc_state c = Established -> expects frame c -> f_type frame = MtDataIpv4 -> holds_live now s c l ->
    ipv4_packet (sc_negotiated_mtu c) (f_payload frame) ->
    slice (f_payload frame) 12 4 <> l_address l -> fault s c frame now 6
| ft_ipv6 l :
    sc_state c = Established -> expects frame c -> f_type frame = MtDataIpv6 -> holds_live now s c l ->
    ~ (ipv6_packet (sc_negotiated_mtu c) (f_payload frame) /\ l_ipv6_address l <> zeros 16) ->
    fault s c frame now 7
| ft_source6 l :
    sc_state c = Established -> expects frame c -> f_type frame = MtDataIpv6 -> holds_live now s c l ->
    ipv6_packet (sc_negotiated_mtu c) (f_payload frame) -> l_ipv6_address l <> zeros 16 ->
    slice (f_payload frame) 8 16 <> l_ipv6_address l -> fault s c frame now 6.

(** The client ends an established session itself. *)
Definition goodbye (c : SessionController) (frame : Frame) : Prop :=
  sc_state c = Established /\ expects frame c /\
  (f_type frame = MtClose /\ is_ok (decode_close_message (f_payload frame)) = true \/
   f_type frame = MtError /\ is_ok (decode_error_message (f_payload frame)) = true).

(** The answer with the ERROR frame of number [n]. *)
Definition refusing (c : SessionController) (n : Z) (what : string) : SessionResult :=
  mkSessionResult
    [mkFrame MtError 0 (sc_next_outbound_sequence c) (be16 n ++ string_bytes what)] [] true.

Lemma holds_live_inj now s c l k : holds_live now s c l -> holds_live now s c k -> l = k.
Proof. intros (e & He & Hl) (e' & He' & Hk). congruence. Qed.

Lemma renewing_types t :
  t ∈ [MtDataIpv4; MtDataIpv6; MtPing] -> t ∈ [MtDataIpv4; MtDataIpv6; MtPing; MtClose; MtError].
Proof. intros H. rewrite !elem_of_cons in *. tauto. Qed.

(** A frame deserves one error number at most, and none with a goodbye. *)
Lemma fault_unique s c frame now n m :
  fault s c frame now n -> fault s c frame now m -> n = m.
Proof.
  intros H1 H2. unfold expects in *. destruct H1; inversion H2; subst; try reflexivity;
    unfold expects in *; try congruence; exfalso;
    repeat match goal with
    | H1 : holds_live now s c ?l, H2 : holds_live now s c ?k |- _ =>
        assert_fails (constr_eq l k); pose proof (holds_live_inj now s c k l H2 H1); subst
    | E : f_type frame = _, H : f_type frame ∉ _ |- _ => rewrite E in H; apply H; decide_prop
    | E : f_type frame = _, H : f_type frame ∈ _ |- _ =>
        rewrite E in H; solve [apply (fun N : _ ∉ _ => N H); decide_prop]
    | E : ?a = (_, _), H : is_ok (?a).1 = _ |- _ => rewrite E in H; discriminate H
    | E : ?a = Ok _, H : is_ok ?a = false |- _ => rewrite E in H; discriminate H
    | N : forall l, ~ holds_live _ _ _ l, H : holds_live _ _ _ _ |- _ => destruct (N _ H)
    | N : f_type frame ∉ _, H : f_type frame ∈ _ |- _ => destruct (N (renewing_types _ H))
    end; try tauto; congruence.
Qed.

(** The packet checks, by what they refuse. *)
Lemma validate_ipv4_fault c l p code what :
  is_bytes p -> sc_lease c = Some l -> validate_ipv4_packet c p = Some (code, what) ->
  SessionErrorCode_to_u16 code = 5 /\ ~ ipv4_packet (sc_negotiated_mtu c) p \/
  SessionErrorCode_to_u16 code = 6 /\ ipv4_packet (sc_negotiated_mtu c) p /\ slice p 12 4 <> l_address l.
Proof.
  intros Hb Hl. unfold validate_ipv4_packet. rewrite Hl, be_length_eq, version_eq, header_length_eq by (auto; lia).
  cbn zeta. change (2 + 1) with 3. intros H.
  repeat (case_match; [injection H as <- <-; b2p_all|]); try discriminate H;
    first [left; split; [reflexivity|intros []; b2p_all; lia]|right].
  split; [reflexivity|]. split; [constructor; lia|assumption].
Qed.

Lemma validate_ipv6_fault c l p code what :
  is_bytes p -> sc_lease c = Some l -> validate_ipv6_packet c p = Some (code, what) ->
  SessionErrorCode_to_u16 code = 7 /\
    ~ (ipv6_packet (sc_negotiated_mtu c) p /\ l_ipv6_address l <> zeros 16) \/
  SessionErrorCode_to_u16 code = 6 /\ ipv6_packet (sc_negotiated_mtu c) p /\
    l_ipv6_address l <> zeros 16 /\ slice p 8 16 <> l_ipv6_address l.
Proof.
  intros Hb Hl. unfold validate_ipv6_packet. rewrite Hl, be_length_eq, version_eq by (auto; lia).
  cbn zeta. change (4 + 1) with 5. intros H.
  repeat (case_match; [injection H as <- <-; b2p_all|]); try discriminate H;
    first [left; split; [reflexivity|intros [[] ?]; b2p_all; first [congruence|lia]]|right].
  split; [reflexivity|]. split; [constructor; lia|]. split; assumption.
Qed.

Lemma fault_not_goodbye s c frame now n : fault s c frame now n -> ~ goodbye c frame.
Proof.
  intros H (Hst & Hex & Hg). unfold expects in *.
  destruct H; try contradiction; try congruence;
    repeat match goal with
    | H : _ \/ _ |- _ => destruct H
    | H : _ /\ _ |- _ => destruct H
    | E : f_type frame = _, H : f_type frame ∉ _ |- _ => rewrite E in H; apply H; decide_prop
    | E : f_type frame = _, H : f_type frame ∈ _ |- _ =>
        rewrite E in H; solve [apply (fun N : _ ∉ _ => N H); decide_prop]
    end; congruence.
Qed.

(** What [handle] makes of a frame for a session that has not ended. *)
Inductive verdict (s : S) (c : SessionController) (frame : Frame) (now : Z) : SessionResult -> Prop :=
| vd_refused n what :
    fault s c frame now n -> 1 <= n <= 7 -> zlen (string_bytes what) <= kMaximumErrorMessageSize ->
    verdict s c frame now (refusing c n what)
| vd_goodbye : goodbye c frame -> verdict s c frame now (mkSessionResult [] [] true)
| vd_accepted r :
    close_transport r = false -> (forall n, ~ fault s c frame now n) -> ~ goodbye c frame ->
    verdict s c frame now r.

Lemma renewed_holds now s c k :
  renewed now (ls_leases s) c k -> exists l, holds_live now s c l /\ same_lease l k.
Proof. intros (e & l & He & Hm & Hk). exists l. split; [exists e; auto|exact Hk]. Qed.

(** A refusal of an established session is a fault with its number. *)
Lemma refusal_fault s c frame now code what leases1 c1 :
  is_bytes (f_payload frame) -> sc_state c = Established ->
  refusal (ls_leases s) c frame now code what leases1 c1 ->
  fault s c frame now (SessionErrorCode_to_u16 code).
Proof.
  intros Hb Hst H. destruct H; try congruence.
  - apply ft_sequence. assumption.
  - apply ft_lost; auto.
    + destruct (f_type frame); try discriminate; decide_prop.
    + intros l (e' & He' & Hm). congruence.
  - destruct (renewed_holds _ _ _ _ H1) as (l & Hl & (_ & _ & E4 & E6)).
    destruct H2 as [[Ht Hv]|[Ht Hv]].
    + apply (validate_ipv4_fault _ k) in Hv; [|assumption|reflexivity]. rewrite <- E4 in Hv.
      destruct Hv as [[-> Hv]|(-> & Hv & Hs)]; [eapply ft_ipv4|eapply ft_source4]; eauto.
    + apply (validate_ipv6_fault _ k) in Hv; [|assumption|reflexivity]. rewrite <- E6 in Hv.
      destruct Hv as [[-> Hv]|(-> & Hv & Hn & Hs)]; [eapply ft_ipv6|eapply ft_source6]; eauto.
  - destruct (renewed_holds _ _ _ _ H1) as (l & Hl & _). eapply ft_ping; eauto.
    intros Hz. unfold decode_liveness_probe, require_size in H3. rewrite Hz in H3. discriminate.
  - destruct H1 as [[Ht Hd]|[Ht Hd]]; [apply ft_close|apply ft_error]; auto; rewrite Hd; reflexivity.
  - apply ft_unexpected; assumption.
Qed.

Lemma code_range code : 1 <= SessionErrorCode_to_u16 code <= 7.
Proof. destruct code; cbn; lia. Qed.

(** A frame that an established session accepts has no fault. *)
Lemma accepted_no_fault s c frame now k n :
  sc_state c = Established -> expects frame c -> renewed now (ls_leases s) c k ->
  from_lease (sc_negotiated_mtu c) k (f_type frame) (f_payload frame) \/
    f_type frame = MtPing /\ zlen (f_payload frame) = 8 ->
  ~ fault s c frame now n.
Proof.
  intros Hst Hex (l & Hl & (_ & _ & E4 & E6))%renewed_holds Hf H. unfold from_lease, expects in *.
  rewrite <- E4, <- E6 in Hf.
  destruct H; try congruence; try contradiction;
    repeat match goal with
    | H : _ \/ _ |- _ => destruct H
    | H : _ /\ _ |- _ => destruct H
    | H1 : holds_live now s c ?l, H2 : holds_live now s c ?k |- _ =>
        assert_fails (constr_eq l k); pose proof (holds_live_inj now s c l k H1 H2); subst
    | E : f_type frame = _, H : f_type frame ∉ _ |- _ => rewrite E in H; apply H; decide_prop
    | N : forall l, ~ holds_live _ _ _ l, H : holds_live _ _ _ _ |- _ => destruct (N _ H)
    end; try congruence; tauto.
Qed.

Lemma handle_hello_verdict frame now s c :
  ls_ok s -> session_ok c -> sc_state c = AwaitingHello -> expects frame c ->
  yields (handle_hello frame now) (s, counted c) (fun r _ _ => verdict s c frame now r).
Proof.
  intros Hs Hc Hst Hex. unfold handle_hello. case_bool_decide as Ht; cbn [negb].
  2: { apply fail_yields; [assumption|short_text|]. apply (vd_refused s c frame now 1); [|lia|short_text].
       apply ft_first; auto. }
  assert (Hng : ~ goodbye c frame) by (intros (? & _); congruence).
  unfold try_catch, bind at 1, lift at 1. unfold yields.
  pose proof (decode_client_hello_throws (f_payload frame)) as Hd.
  destruct (decode_client_hello (f_payload frame)) as [hello|e] eqn:Eh.
  2: { destruct (invalid_only_inv _ e Hd eq_refl) as (what & -> & Hw).
       cbn iota beta.
       apply (fail_yields _ _ _ _ (fun r _ _ => verdict s c frame now r)); [assumption..|]. apply (vd_refused s c frame now 3); [|lia|assumption].
       apply ft_hello; auto. rewrite Eh. reflexivity. }
  cbn iota beta. unfold bind, session, on_leases, get, update, lift. cbn iota beta. cbn [snd].
  change (sc_identity (counted c)) with (sc_identity c).
  pose proof (ls_acquire_law s (sc_identity c) now Hs (so_identity _ Hc)) as Hacq.
  destruct (ls_acquire (sc_identity c) now s) as [[l|e] s1] eqn:Ea.
  2: { destruct Hacq as (Hs1 & Hre & Hw & _).
       assert (Hf : yields (fail LeaseUnavailable (exn_what e)) (s1, counted c)
                      (fun r _ _ => verdict s c frame now r)).
       { apply fail_yields; [assumption..|]. apply (vd_refused s c frame now 4); [|lia|assumption].
         eapply ft_pool; eauto. rewrite Ea. reflexivity. }
       destruct e; try discriminate; exact Hf. }
  destruct Hacq as (Hs1 & _ & _). cbn iota beta zeta. cbn [fst snd].
  change (encode_ip_assignment _) with (encode_ip_assignment (offer s1 hello l)).
  pose proof (encode_ip_assignment_throws (offer s1 hello l)) as He.
  destruct (encode_ip_assignment _) as [payload|e] eqn:Ep.
  - rewrite make_outbound_eq. eexists _, _, _. split; [reflexivity|]. split; [assumption|].
    apply vd_accepted; [reflexivity| |assumption]. intros n Hn. unfold expects in *.
    inversion Hn; subst; unfold expects in *; try congruence;
      repeat match goal with
      | H : context [decode_client_hello (f_payload frame)] |- _ => rewrite Eh in H; simplify_eq
      | H : context [ls_acquire (sc_identity c) now s] |- _ => rewrite Ea in H; simplify_eq
      | H : context [encode_ip_assignment (offer _ _ _)] |- _ => rewrite Ep in H
      end; try discriminate.
  - destruct (invalid_only_inv _ e He eq_refl) as (what & -> & Hw). cbn iota beta.
    apply (fail_yields _ _ _ _ (fun r _ _ => verdict s c frame now r)); [assumption..|]. apply (vd_refused s c frame now 3); [|lia|assumption].
    eapply ft_assignment; eauto. rewrite Ep. reflexivity.
Qed.

Lemma handle_verdict frame now s c :
  ls_ok s -> session_ok c -> is_bytes (f_payload frame) ->
  sc_state c = AwaitingHello \/ sc_state c = Established ->
  yields (handle frame now) (s, c) (fun r _ _ => verdict s c frame now r).
Proof.
  intros Hs Hc Hb [Hst|Hst].
  - unfold handle. apply yields_session. rewrite Hst.
    destruct (Z.eqb_spec (f_sequence frame) (sc_next_expected_sequence c)) as [Hseq|Hseq]; cbn [negb].
    + apply yields_update. fold (counted c). apply handle_hello_verdict; auto.
    + apply fail_yields; [assumption|apply short_sequence_message; assumption|].
      apply (vd_refused s c frame now 2); [|lia|apply short_sequence_message; assumption].
      apply ft_sequence. assumption.
  - destruct (handle_sound frame now s c Hs Hc Hb) as (r & s' & c' & E & Hs' & Hr).
    exists r, s', c'. split; [exact E|]. split; [exact Hs'|].
    assert (Hng : forall t, f_type frame = t -> t <> MtClose -> t <> MtError -> ~ goodbye c frame).
    { intros t Ht ? ? (_ & _ & [[? _]|[? _]]); congruence. }
    destruct Hr as [[?|?]|code what leases1 c1 _ Hw Href|hello l a payload ?|k _ Hex Hk Hf|k _ Hex Hk Hf Hz|];
      try congruence.
    + apply vd_refused; [|apply code_range|assumption]. eapply refusal_fault; eassumption.
    + apply vd_accepted; [reflexivity| |].
      * intros n. apply (accepted_no_fault s c frame now k); auto.
      * destruct Hf as [(Ht & _)|(Ht & _)]; eapply Hng; eauto; discriminate.
    + apply vd_accepted; [reflexivity| |eapply Hng; eauto; discriminate].
      intros n. apply (accepted_no_fault s c frame now k); auto.
    + apply vd_goodbye. repeat split; assumption.
Qed.

(** What [verdict] says of the answer. *)
Lemma verdict_contract s c frame now r :
  verdict s c frame now r ->
  (forall n, fault s c frame now n ->
     (forall m, fault s c frame now m -> m = n) /\ ~ goodbye c frame /\
     exists what, r = refusing c n what /\
       decode_error_message (be16 n ++ string_bytes what) = Ok (mkErrorMessage n what)) /\
  (goodbye c frame -> r = mkSessionResult [] [] true) /\
  (close_transport r = true -> goodbye c frame \/ exists n, fault s c frame now n).
Proof.
  intros Hv. split; [|split].
  - intros n Hn. split; [intros m Hm; eapply fault_unique; eassumption|].
    split; [eapply fault_not_goodbye; eassumption|].
    destruct Hv as [m what Hm Hrange Hw|Hg|r Ho Hno Hng].
    + rewrite (fault_unique _ _ _ _ _ _ Hn Hm). exists what. split; [reflexivity|].
      apply decode_error_payload; [int_lia|exact Hw].
    + destruct (fault_not_goodbye _ _ _ _ _ Hn Hg).
    + destruct (Hno _ Hn).
  - intros Hg. destruct Hv as [m what Hm _ _|_|r Ho Hno Hng]; [|reflexivity|destruct (Hng Hg)].
    destruct (fault_not_goodbye _ _ _ _ _ Hm Hg).
  - intros Hx. destruct Hv as [m what Hm _ _|Hg|r Ho Hno Hng]; [eauto|auto|congruence].
Qed.

(** C10: the error contract.  A frame that does not end the session is one it
    accepted: it had the expected number, and the session is established
    afterwards.  Every other frame ends it for good: nothing is forwarded and
    the lease is gone.  The client is told once, with one ERROR frame under
    the next sequence number, exactly when the frame has a fault, and the
    number it reads there is the one of the fault: 2 out of sequence, 1 for a
    type the state does not admit, 3 for a malformed control payload or an
    assignment that cannot be sent, 4 without a lease, 5 and 7 for malformed
    IPv4 and IPv6 packets, 6 for a source that is not the lease's.  A session
    ends silently exactly when an established client says a well-formed CLOSE
    or ERROR in sequence, and one that has ended ignores every further frame. *)
Theorem session_error_contract s c frame now r s' c' :
  session_reachable (s, c) -> is_bytes (f_payload frame) ->
  handle frame now (s, c) = (Ok r, (s', c')) ->
  (close_transport r = false ->
     sc_state c' = Established /\ f_sequence frame = sc_next_expected_sequence c /\
     sc_next_expected_sequence c' = u64 (sc_next_expected_sequence c + 1)) /\
  (close_transport r = true ->
     packets_to_tun r = [] /\ (sc_state c' = Closing \/ sc_state c' = Closed) /\ sc_lease c' = None) /\
  (sc_state c = Closing \/ sc_state c = Closed ->
     r = mkSessionResult [] [] true /\ s' = s /\ c' = c) /\
  (sc_state c = AwaitingHello \/ sc_state c = Established ->
     (forall n, fault s c frame now n ->
        (forall m, fault s c frame now m -> m = n) /\ ~ goodbye c frame /\
        exists what, r = refusing c n what /\
          decode_error_message (be16 n ++ string_bytes what) = Ok (mkErrorMessage n what)) /\
     (goodbye c frame -> r = mkSessionResult [] [] true) /\
     (close_transport r = true -> goodbye c frame \/ exists n, fault s c frame now n)).
Proof.
  intros [Hs Hc]%session_reachable_ok Hb E. pose proof E as E0.
  apply (yields_inv _ _ _ _ _ _ (handle_sound frame now s c Hs Hc Hb)) in E as [_ Hr].
  assert (Hign : sc_state c = Closing \/ sc_state c = Closed ->
     r = mkSessionResult [] [] true /\ s' = s /\ c' = c).
  { intros Hst. unfold handle, bind at 1, session at 1 in E0. cbn [snd] in E0.
    destruct Hst as [Hst|Hst]; rewrite Hst in E0; unfold ret in E0; simplify_eq; auto. }
  pose proof (eq_None_not_Some (sc_lease c)) as Hnone. rewrite <- (so_lease _ Hc) in Hnone.
  assert (Hlast := fun Hst => verdict_contract _ _ _ _ _
    (proj2 (yields_inv _ _ _ _ _ _ (handle_verdict frame now s c Hs Hc Hb Hst) E0))). clear E0.
  destruct Hr as [Hst|code what leases1 c1 Hst Hw Href|hello l a payload|k|k|];
    (split; [|split; [|split; [exact Hign|exact Hlast]]]); clear Hlast Hign;
    cbn [close_transport packets_to_tun outbound_frames]; split_goal; auto; try discriminate.
  intros _. split_goal; auto. apply Hnone. destruct Hst; congruence.
Qed.

(** The frames of a session, over any history of calls, carry the
    sequence numbers 1, 2, 3, ... without gap or repetition and no flags,
    which is what the client's own check of incoming frames requires. *)
Theorem outbound_frames_numbered identity s c out st :
  ls_ok s -> make_session identity = Ok c -> session_run (s, c) out st -> consecutive 1 out.
Proof.
  intros Hs Hm Hr.
  assert (sc_next_outbound_sequence c = 1) as <-.
  { unfold make_session in Hm. case_bool_decide; [discriminate|]. apply ok_inj in Hm as <-. reflexivity. }
  apply (session_run_numbers _ _ _ Hr); cbn; eauto using make_session_ok.
Qed.
End Laws.

(** ** Witnesses: a session of the lease manager *)

Definition hello_frame : Frame := mkFrame MtClientHello 0 1 sample_hello_bytes.
Definition sample_session : SessionController := mkSession "alice" AwaitingHello None 1400 1 1.
(** An IPv4 header without payload from 10.8.0.2 to 10.8.0.1. *)
Definition sample_packet : bytes :=
  [69; 0; 0; 20] ++ zeros 8 ++ [10; 8; 0; 2] ++ [10; 8; 0; 1].
Definition reply_packet : bytes :=
  [69; 0; 0; 20] ++ zeros 8 ++ [10; 8; 0; 1] ++ [10; 8; 0; 2].
Definition data_frame : Frame := mkFrame MtDataIpv4 0 2 sample_packet.
Definition spoofed_frame : Frame := mkFrame MtDataIpv4 0 2 reply_packet.

Definition after_hello : LeaseManager * SessionController :=
  (handle hello_frame 0 (sample_pool, sample_session)).2.

Lemma sample_pool_inv : lm_inv sample_pool.
Proof. apply lm_reachable_inv, sample_pool_reachable. Qed.

Definition hello_result : SessionResult :=
  match (handle hello_frame 0 (sample_pool, sample_session)).1 with
  | Ok r => r
  | Throw _ => mkSessionResult [] [] true
  end.
Lemma hello_accepted :
  handle hello_frame 0 (sample_pool, sample_session) = (Ok hello_result, after_hello).
Proof. vm_compute. reflexivity. Qed.

Lemma after_hello_run :
  session_run (sample_pool, sample_session) (outbound_frames hello_result ++ []) after_hello.
Proof.
  apply (run_handle hello_frame 0 _ hello_result after_hello);
    [decide_prop|exact hello_accepted|apply run_nil].
Qed.

Lemma after_hello_reachable : session_reachable (after_hello.1, after_hello.2).
Proof.
  exists "alice", sample_pool, sample_session, (outbound_frames hello_result ++ []).
  split; [exact sample_pool_inv|]. split; [vm_compute; reflexivity|].
  rewrite <- surjective_pairing. exact after_hello_run.
Qed.

Lemma session_lease_lifecycle_witness :
  sc_state after_hello.2 = Established /\
  exists r s' c',
    handle spoofed_frame 0 (after_hello.1, after_hello.2) = (Ok r, (s', c')) /\
    (sc_state c' = Established <-> is_Some (sc_lease c')).
Proof.
  split; [vm_compute; reflexivity|].
  destruct (session_lease_lifecycle after_hello.1 after_hello.2 spoofed_frame 0
    after_hello_reachable ltac:(decide_prop)) as (r & s' & c' & E & H & _).
  exists r, s', c'. split; [exact E|exact H].
Defined.

Definition data_handled := handle data_frame 0 (after_hello.1, after_hello.2).
Lemma uplink_packets_exact_witness :
  exists r s' c', data_handled = (Ok r, (s', c')) /\
  packets_to_tun r = [sample_packet] /\
  exists e l, sc_lease after_hello.2 = Some e /\
    matches e (unexpired 0 (ls_leases after_hello.1)) = Some l /\
    from_lease (sc_negotiated_mtu after_hello.2) l MtDataIpv4 sample_packet.
Proof.
  destruct data_handled as [[r|x] [s' c']] eqn:E; [|vm_compute in E; discriminate].
  exists r, s', c'. split; [reflexivity|].
  assert (Hp : packets_to_tun r = [sample_packet]) by (vm_compute in E; injection E as <- _ _; reflexivity).
  split; [exact Hp|].
  destruct (uplink_packets_exact after_hello.1 after_hello.2 data_frame 0 r s' c' sample_packet
    after_hello_reachable ltac:(decide_prop) E) as [H _].
  destruct H as (_ & _ & _ & H); [rewrite Hp; apply list_elem_of_singleton; reflexivity|exact H].
Defined.

Lemma downlink_packets_exact_witness :
  exists r s' c',
    make_data_to_client reply_packet 0 (after_hello.1, after_hello.2) = (Ok r, (s', c')) /\
    r = Some (mkFrame MtDataIpv4 0 2 reply_packet) /\
    exists e, sc_lease after_hello.2 = Some e /\
      for_lease (sc_negotiated_mtu after_hello.2) e MtDataIpv4 reply_packet.
Proof.
  destruct (downlink_packets_exact after_hello.1 after_hello.2 reply_packet 0
    after_hello_reachable ltac:(decide_prop)) as (r & s' & c' & E & H & _).
  exists r, s', c'. split; [exact E|].
  assert (Hr : r = Some (mkFrame MtDataIpv4 0 2 reply_packet)).
  { vm_compute in E. injection E as <- _ _. reflexivity. }
  split; [exact Hr|]. apply H in Hr as (_ & _ & _ & _ & e & He & Hf & _). exists e. split; assumption.
Defined.

Lemma spoofed_fault : fault after_hello.1 after_hello.2 spoofed_frame 0 6.
Proof.
  destruct (sc_lease after_hello.2) as [l|] eqn:El; [|vm_compute in El; discriminate].
  apply (ft_source4 _ _ _ _ l); try (vm_compute; reflexivity).
  - exists l. split; [exact El|]. vm_compute in El. injection El as <-. vm_compute. reflexivity.
  - constructor; vm_compute; try split; try discriminate; reflexivity.
  - vm_compute in El. injection El as <-. vm_compute. discriminate.
Qed.

(** A packet with another source is answered with number 6. *)
Lemma session_error_contract_witness :
  exists r s' c' what,
    handle spoofed_frame 0 (after_hello.1, after_hello.2) = (Ok r, (s', c')) /\
    r = refusing after_hello.2 6 what /\ sc_lease c' = None.
Proof.
  destruct (handle spoofed_frame 0 (after_hello.1, after_hello.2)) as [[r|x] [s' c']] eqn:E;
    [|vm_compute in E; discriminate].
  destruct (session_error_contract after_hello.1 after_hello.2 spoofed_frame 0 r s' c'
    after_hello_reachable ltac:(decide_prop) E) as (_ & H & _ & Hf).
  destruct (Hf ltac:(right; vm_compute; reflexivity)) as (H6 & _).
  destruct (H6 6 spoofed_fault) as (_ & _ & what & Hr & _). exists r, s', c', what.
  split; [reflexivity|]. split; [exact Hr|]. apply H. rewrite Hr. reflexivity.
Defined.

Lemma outbound_frames_numbered_witness :
  map f_sequence (outbound_frames hello_result ++ []) = [1] /\
  consecutive 1 (outbound_frames hello_result ++ []).
Proof.
  split; [vm_compute; reflexivity|].
  apply (outbound_frames_numbered "alice" sample_pool sample_session _ after_hello);
    [exact sample_pool_inv|vm_compute; reflexivity|exact after_hello_run].
Defined.
