(* ===== verification/ClientSession.v ===== *)
(** * The client's session state machine

    Models src/core/client_session_controller.cpp and its header: the
    handshake, the client's policy on the assignment it is given, the checks
    of every packet in both directions and the ping discipline.  A call is a
    computation on the controller's state. *)
From S2P Require Import Prelude Bytes Protocol ControlMessages Traffic.

Inductive ClientSessionState := Idle | AwaitingAssignment | Established | Closing | Closed.

#[export] Instance ClientSessionState_eq_dec : EqDecision ClientSessionState.
Proof. solve_decision. Defined.

Inductive ClientSessionErrorCode :=
| UnexpectedMessage
| InvalidSequence
| InvalidControlPayload
| InvalidAssignment
| InvalidIpv4Packet
| AddressMismatch
| InvalidIpv6Packet.

(** [static_cast<std::uint16_t>(code)] *)
Definition ClientSessionErrorCode_to_u16 (code : ClientSessionErrorCode) : Z :=
  match code with
  | UnexpectedMessage => 101
  | InvalidSequence => 102
  | InvalidControlPayload => 103
  | InvalidAssignment => 104
  | InvalidIpv4Packet => 105
  | AddressMismatch => 106
  | InvalidIpv6Packet => 107
  end.

Record ClientSessionResult := mkClientResult {
  cr_outbound_frames : list Frame;
  cr_packets_to_tun : list bytes;
  cr_assignment : option IpAssignment;
  cr_remote_error : option ErrorMessage;
  cr_close_transport : bool
}.

Record ClientSessionController := mkClient {
  requested_mtu_ : Z;
  cs_state : ClientSessionState;
  cs_assignment : option IpAssignment;
  cs_pending_ping_nonce : option Z;
  cs_next_expected_sequence : Z;
  cs_next_outbound_sequence : Z
}.

Definition set_state (st : ClientSessionState) (c : ClientSessionController) :=
  mkClient (requested_mtu_ c) st (cs_assignment c) (cs_pending_ping_nonce c)
    (cs_next_expected_sequence c) (cs_next_outbound_sequence c).
Definition set_assignment (a : option IpAssignment) (c : ClientSessionController) :=
  mkClient (requested_mtu_ c) (cs_state c) a (cs_pending_ping_nonce c)
    (cs_next_expected_sequence c) (cs_next_outbound_sequence c).
Definition set_pending (n : option Z) (c : ClientSessionController) :=
  mkClient (requested_mtu_ c) (cs_state c) (cs_assignment c) n
    (cs_next_expected_sequence c) (cs_next_outbound_sequence c).
Definition set_expected (n : Z) (c : ClientSessionController) :=
  mkClient (requested_mtu_ c) (cs_state c) (cs_assignment c) (cs_pending_ping_nonce c) n
    (cs_next_outbound_sequence c).
Definition set_outbound (n : Z) (c : ClientSessionController) :=
  mkClient (requested_mtu_ c) (cs_state c) (cs_assignment c) (cs_pending_ping_nonce c)
    (cs_next_expected_sequence c) n.

Definition address_value (address : bytes) : Z := read_u32 address.

(** [kCapabilityIpv4 | kCapabilityIpv6] *)
Definition hello_of (mtu : Z) : ClientHello :=
  mkClientHello mtu (Z.lor kCapabilityIpv4 kCapabilityIpv6).

Definition make_client (requested_mtu : Z) : outcome ClientSessionController :=
  let? _ := encode_client_hello (hello_of requested_mtu) in
  Ok (mkClient requested_mtu Idle None None 1 1).

Definition netmask (prefix : Z) : Z :=
  if prefix =? 32 then 2 ^ 32 - 1 else u32 (Z.shiftl (2 ^ 32 - 1) (32 - prefix)).

Definition assignment_is_acceptable (c : ClientSessionController) (a : IpAssignment) : bool :=
  if (requested_mtu_ c <? ia_mtu a) || bool_decide (client_address a = gateway_address a)
  then false
  else
    let mask := netmask (prefix_length a) in
    let client := address_value (client_address a) in
    let gateway := address_value (gateway_address a) in
    if negb (Z.land client mask =? Z.land gateway mask) then false
    else
      let network := Z.land gateway mask in
      let broadcast := Z.lor network (u32 (Z.lnot mask)) in
      if (prefix_length a <=? 30) &&
         ((client =? network) || (client =? broadcast) || (gateway =? network) || (gateway =? broadcast))
      then false
      else if ipv6_prefix_length a =? 0 then
        bool_decide (client_ipv6_address a = zeros 16) && bool_decide (gateway_ipv6_address a = zeros 16)
      else if negb (ipv6_prefix_length a =? 64) ||
              bool_decide (client_ipv6_address a = gateway_ipv6_address a) ||
              negb (bool_decide (slice (client_ipv6_address a) 0 8 = slice (gateway_ipv6_address a) 0 8))
      then false
      else true.

(** As in the server's controller, a failing check returns its error code and
    message, and [None] stands for [true]. *)
Definition validate_ipv4_packet (c : ClientSessionController) (packet : bytes) (from_server : bool)
  : option (ClientSessionErrorCode * string) :=
  let outside := Some (InvalidIpv4Packet,
    "IPv4 packet size is outside the negotiated tunnel policy") in
  match cs_assignment c with
  | None => outside
  | Some assignment =>
      if (zlen packet <? 20) || (ia_mtu assignment <? zlen packet) then outside
      else
        let version := Z.shiftr (at_ packet 0) 4 in
        let header_length := Z.land (at_ packet 0) 15 * 4 in
        let total_length := be_length packet 2 in
        if negb (version =? 4) || (header_length <? 20) || (zlen packet <? header_length) ||
           negb (total_length =? zlen packet) then
          Some (InvalidIpv4Packet, "IPv4 header or total length is invalid")
        else
          let packet_address := if from_server then slice packet 16 4 else slice packet 12 4 in
          if negb (bool_decide (packet_address = client_address assignment)) then
            Some (AddressMismatch,
              if from_server
              then "server IPv4 destination does not match the assigned client address"
              else "local IPv4 source does not match the assigned client address")
          else None
  end.

Definition validate_ipv6_packet (c : ClientSessionController) (packet : bytes) (from_server : bool)
  : option (ClientSessionErrorCode * string) :=
  let outside := Some (InvalidIpv6Packet,
    "IPv6 packet size or version is outside the assigned tunnel policy") in
  match cs_assignment c with
  | None => outside
  | Some assignment =>
      if (ipv6_prefix_length assignment =? 0) || (zlen packet <? 40) ||
         (ia_mtu assignment <? zlen packet) || negb (Z.shiftr (at_ packet 0) 4 =? 6) then outside
      else
        let payload_length := be_length packet 4 in
        if negb (payload_length + 40 =? zlen packet) then
          Some (InvalidIpv6Packet, "IPv6 payload length does not match the tunnel frame")
        else
          let offset := if from_server then 24 else 8 in
          let packet_address := slice packet offset 16 in
          if negb (bool_decide (packet_address = client_ipv6_address assignment)) then
            Some (AddressMismatch,
              if from_server
              then "server IPv6 destination does not match assigned client address"
              else "local IPv6 source does not match assigned client address")
          else None
  end.

Abbreviation CM := (M ClientSessionController).

Definition make_outbound (type : MessageType) (payload : bytes) : CM Frame :=
  let* c := get in
  let* _ := modify (set_outbound (u64 (cs_next_outbound_sequence c + 1))) in
  ret {| f_type := type; f_flags := 0; f_sequence := cs_next_outbound_sequence c;
         f_payload := payload |}.

Definition fail (code : ClientSessionErrorCode) (message : string) : CM ClientSessionResult :=
  let* payload := lift (encode_error_message
    {| em_code := ClientSessionErrorCode_to_u16 code; em_message := message |}) in
  let* frame := make_outbound MtError payload in
  let* _ := modify (set_state Closing) in
  ret (mkClientResult [frame] [] None None true).

Definition start : CM Frame :=
  let* c := get in
  if negb (bool_decide (cs_state c = Idle)) then
    throw (LogicError "client session has already started")
  else
    let* _ := modify (set_state AwaitingAssignment) in
    let* payload := lift (encode_client_hello (hello_of (requested_mtu_ c))) in
    make_outbound MtClientHello payload.

(** A [catch (const std::invalid_argument&)] around decoding a payload. *)
Definition decoding {A} (decoded : outcome A) (k : A -> CM ClientSessionResult)
  : CM ClientSessionResult :=
  match decoded with
  | Throw (InvalidArgument what) => fail InvalidControlPayload what
  | Throw e => throw e
  | Ok a => k a
  end.

(** [handle] in state [AwaitingAssignment], after the sequence check. *)
Definition handle_assignment (frame : Frame) : CM ClientSessionResult :=
  if negb (bool_decide (f_type frame = MtIpAssign)) then
    fail UnexpectedMessage "IP_ASSIGN must be the first server message"
  else
    decoding (decode_ip_assignment (f_payload frame)) (fun assignment =>
      let* c := get in
      if negb (assignment_is_acceptable c assignment) then
        fail InvalidAssignment "server IP assignment violates client tunnel policy"
      else
        let* _ := modify (set_assignment (Some assignment)) in
        let* _ := modify (set_state Established) in
        ret (mkClientResult [] [] (Some assignment) None false)).

Definition deliver (packet : bytes) : CM ClientSessionResult :=
  ret (mkClientResult [] [packet] None None false).

(** The [switch] of [handle]. *)
Definition dispatch (frame : Frame) : CM ClientSessionResult :=
  let* c := get in
  match f_type frame with
  | MtDataIpv4 =>
      match validate_ipv4_packet c (f_payload frame) true with
      | Some (error_code, error_message) => fail error_code error_message
      | None => deliver (f_payload frame)
      end
  | MtDataIpv6 =>
      match validate_ipv6_packet c (f_payload frame) true with
      | Some (error_code, error_message) => fail error_code error_message
      | None => deliver (f_payload frame)
      end
  | MtPing =>
      decoding (decode_liveness_probe (f_payload frame)) (fun probe =>
        let* payload := lift (encode_liveness_probe probe) in
        let* out := make_outbound MtPong payload in
        ret (mkClientResult [out] [] None None false))
  | MtPong =>
      decoding (decode_liveness_probe (f_payload frame)) (fun probe =>
        if bool_decide (cs_pending_ping_nonce c = Some (nonce probe)) then
          let* _ := modify (set_pending None) in
          ret (mkClientResult [] [] None None false)
        else fail InvalidControlPayload "PONG nonce does not match an outstanding PING")
  | MtError =>
      decoding (decode_error_message (f_payload frame)) (fun remote_error =>
        let* _ := modify (set_state Closed) in
        ret (mkClientResult [] [] None (Some remote_error) true))
  | MtClose =>
      decoding (decode_close_message (f_payload frame)) (fun _ =>
        let* _ := modify (set_state Closed) in
        ret (mkClientResult [] [] None None true))
  | MtClientHello | MtIpAssign =>
      fail UnexpectedMessage "message type is not valid in the established client state"
  | MtOther _ => fail UnexpectedMessage "unhandled server message type"
  end.

Definition handle (frame : Frame) : CM ClientSessionResult :=
  let* c := get in
  match cs_state c with
  | Idle | Closing | Closed => ret (mkClientResult [] [] None None true)
  | _ =>
      if negb (f_sequence frame =? cs_next_expected_sequence c) then
        fail InvalidSequence
          ("unexpected inbound sequence; expected " +:+ to_string (cs_next_expected_sequence c))
      else
        let* _ := modify (set_expected (u64 (cs_next_expected_sequence c + 1))) in
        match cs_state c with
        | AwaitingAssignment => handle_assignment frame
        | _ => dispatch frame
        end
  end.

Definition make_data_to_server (packet : bytes) : CM (option Frame) :=
  let* c := get in
  if negb (bool_decide (cs_state c = Established)) then ret None
  else if negb (zlen packet =? 0) && (Z.shiftr (at_ packet 0) 4 =? 6) then
    match validate_ipv6_packet c packet false with
    | Some _ => ret None
    | None => let* f := make_outbound MtDataIpv6 packet in ret (Some f)
    end
  else
    match validate_ipv4_packet c packet false with
    | Some _ => ret None
    | None => let* f := make_outbound MtDataIpv4 packet in ret (Some f)
    end.

Definition make_ping (ping_nonce : Z) : CM (option Frame) :=
  let* c := get in
  if negb (bool_decide (cs_state c = Established)) then ret None
  else if bool_decide (is_Some (cs_pending_ping_nonce c)) then ret None
  else
    let* _ := modify (set_pending (Some ping_nonce)) in
    let* payload := lift (encode_liveness_probe {| nonce := ping_nonce |}) in
    let* f := make_outbound MtPing payload in
    ret (Some f).

Definition make_close (code : Z) : CM (option Frame) :=
  let* c := get in
  if negb (bool_decide (cs_state c = AwaitingAssignment)) &&
     negb (bool_decide (cs_state c = Established)) then ret None
  else
    let* _ := modify (set_state Closing) in
    let* payload := lift (encode_close_message {| cm_code := code |}) in
    let* f := make_outbound MtClose payload in
    ret (Some f).

Definition on_transport_closed : CM unit := modify (set_state Closed).

(** ** Specification *)

(** The client's policy on an assignment: no larger MTU than it asked for,
    two host addresses of one IPv4 network, and two addresses of one /64. *)
Record acceptable (requested : Z) (a : IpAssignment) : Prop := {
  ac_mtu : ia_mtu a <= requested;
  ac_distinct : client_address a <> gateway_address a;
  ac_subnet : address_value (client_address a) / 2 ^ (32 - prefix_length a) =
              address_value (gateway_address a) / 2 ^ (32 - prefix_length a);
  ac_hosts : prefix_length a <= 30 ->
    0 < address_value (client_address a) mod 2 ^ (32 - prefix_length a) < 2 ^ (32 - prefix_length a) - 1 /\
    0 < address_value (gateway_address a) mod 2 ^ (32 - prefix_length a) < 2 ^ (32 - prefix_length a) - 1;
  ac_ipv6 :
    (ipv6_prefix_length a = 0 /\ client_ipv6_address a = zeros 16 /\ gateway_ipv6_address a = zeros 16) \/
    (ipv6_prefix_length a = 64 /\ client_ipv6_address a <> gateway_ipv6_address a /\
     slice (client_ipv6_address a) 0 8 = slice (gateway_ipv6_address a) 0 8)
}.

(** The packet a frame of type [t] may bring to the holder of assignment [a]. *)
Definition to_client (a : IpAssignment) (t : MessageType) (p : bytes) : Prop :=
  (t = MtDataIpv4 /\ ipv4_packet (ia_mtu a) p /\ slice p 16 4 = client_address a) \/
  (t = MtDataIpv6 /\ ipv6_packet (ia_mtu a) p /\ ipv6_prefix_length a <> 0 /\
   slice p 24 16 = client_ipv6_address a).
(** The packet from the local TUN device the client sends on. *)
Definition to_server (a : IpAssignment) (t : MessageType) (p : bytes) : Prop :=
  (t = MtDataIpv4 /\ ipv4_packet (ia_mtu a) p /\ slice p 12 4 = client_address a) \/
  (t = MtDataIpv6 /\ ipv6_packet (ia_mtu a) p /\ ipv6_prefix_length a <> 0 /\
   slice p 8 16 = client_ipv6_address a).

Definition error_frame (code : ClientSessionErrorCode) (message : string) (sequence : Z) : Frame :=
  mkFrame MtError 0 sequence (be16 (ClientSessionErrorCode_to_u16 code) ++ string_bytes message).

Definition numbered (c : ClientSessionController) :=
  set_outbound (u64 (cs_next_outbound_sequence c + 1)) c.
Definition counted (c : ClientSessionController) :=
  set_expected (u64 (cs_next_expected_sequence c + 1)) c.
Definition expects (frame : Frame) (c : ClientSessionController) : Prop :=
  f_sequence frame = cs_next_expected_sequence c.

(** Why the client refuses a frame. *)
Inductive refusal (c : ClientSessionController) (frame : Frame)
  : ClientSessionErrorCode -> string -> Prop :=
| rf_sequence what :
    ~ expects frame c -> refusal c frame InvalidSequence what
| rf_first what :
    cs_state c = AwaitingAssignment -> expects frame c -> f_type frame <> MtIpAssign ->
    refusal c frame UnexpectedMessage what
| rf_assignment what :
    cs_state c = AwaitingAssignment -> expects frame c -> f_type frame = MtIpAssign ->
    decode_ip_assignment (f_payload frame) = Throw (InvalidArgument what) ->
    refusal c frame InvalidControlPayload what
| rf_policy a what :
    cs_state c = AwaitingAssignment -> expects frame c -> f_type frame = MtIpAssign ->
    decode_ip_assignment (f_payload frame) = Ok a -> assignment_is_acceptable c a = false ->
    refusal c frame InvalidAssignment what
| rf_packet code what :
    cs_state c = Established -> expects frame c ->
    (f_type frame = MtDataIpv4 /\ validate_ipv4_packet c (f_payload frame) true = Some (code, what) \/
     f_type frame = MtDataIpv6 /\ validate_ipv6_packet c (f_payload frame) true = Some (code, what)) ->
    refusal c frame code what
| rf_payload what :
    cs_state c = Established -> expects frame c ->
    f_type frame ∈ [MtPing; MtPong; MtError; MtClose] ->
    (f_type frame = MtPong -> forall n, cs_pending_ping_nonce c = Some n ->
       decode_liveness_probe (f_payload frame) <> Ok (mkLivenessProbe n)) ->
    refusal c frame InvalidControlPayload what
| rf_unexpected what :
    cs_state c = Established -> expects frame c ->
    f_type frame ∉ [MtDataIpv4; MtDataIpv6; MtPing; MtPong; MtError; MtClose] ->
    refusal c frame UnexpectedMessage what.

(** The contract of [handle]. *)
Inductive handle_rel (c : ClientSessionController) (frame : Frame)
  : ClientSessionResult -> ClientSessionController -> Prop :=
| hr_ignored :
    cs_state c <> AwaitingAssignment -> cs_state c <> Established ->
    handle_rel c frame (mkClientResult [] [] None None true) c
| hr_refused code what c1 :
    cs_state c = AwaitingAssignment \/ cs_state c = Established ->
    zlen (string_bytes what) <= kMaximumErrorMessageSize ->
    c1 = c \/ c1 = counted c ->
    refusal c frame code what ->
    handle_rel c frame
      (mkClientResult [error_frame code what (cs_next_outbound_sequence c)] [] None None true)
      (set_state Closing (numbered c1))
| hr_assigned a :
    cs_state c = AwaitingAssignment -> expects frame c -> f_type frame = MtIpAssign ->
    decode_ip_assignment (f_payload frame) = Ok a -> assignment_is_acceptable c a = true ->
    handle_rel c frame (mkClientResult [] [] (Some a) None false)
      (set_state Established (set_assignment (Some a) (counted c)))
| hr_delivered a :
    cs_state c = Established -> expects frame c -> cs_assignment c = Some a ->
    to_client a (f_type frame) (f_payload frame) ->
    handle_rel c frame (mkClientResult [] [f_payload frame] None None false) (counted c)
| hr_ping :
    cs_state c = Established -> expects frame c -> f_type frame = MtPing ->
    zlen (f_payload frame) = 8 ->
    handle_rel c frame
      (mkClientResult [mkFrame MtPong 0 (cs_next_outbound_sequence c) (f_payload frame)] [] None None false)
      (numbered (counted c))
| hr_pong n :
    cs_state c = Established -> expects frame c -> f_type frame = MtPong ->
    cs_pending_ping_nonce c = Some n ->
    decode_liveness_probe (f_payload frame) = Ok (mkLivenessProbe n) ->
    handle_rel c frame (mkClientResult [] [] None None false) (set_pending None (counted c))
| hr_error m :
    cs_state c = Established -> expects frame c -> f_type frame = MtError ->
    decode_error_message (f_payload frame) = Ok m ->
    handle_rel c frame (mkClientResult [] [] None (Some m) true) (set_state Closed (counted c))
| hr_close :
    cs_state c = Established -> expects frame c -> f_type frame = MtClose ->
    is_ok (decode_close_message (f_payload frame)) = true ->
    handle_rel c frame (mkClientResult [] [] None None true) (set_state Closed (counted c)).

(** A well-formed controller: the counters fit, and an established client has
    an assignment its policy accepts. *)
Record client_ok (c : ClientSessionController) : Prop := {
  co_requested : kMinimumIpv6Mtu <= requested_mtu_ c <= kMaximumTunnelMtu;
  co_expected : in_u64 (cs_next_expected_sequence c);
  co_outbound : in_u64 (cs_next_outbound_sequence c);
  co_pending : forall n, cs_pending_ping_nonce c = Some n -> in_u64 n;
  co_established : cs_state c = Established -> is_Some (cs_assignment c);
  co_assignment : forall a, cs_assignment c = Some a ->
    ip_assignment_wf a /\ assignment_valid a /\ acceptable (requested_mtu_ c) a
}.

(** ** Lemmas *)

(** *** Netmasks *)

Lemma netmask_facts p :
  1 <= p <= 32 ->
  netmask p = Z.ldiff (Z.ones 32) (Z.ones (32 - p)) /\ u32 (Z.lnot (netmask p)) = Z.ones (32 - p).
Proof.
  intros Hp.
  assert (A : forallb (fun p => (netmask p =? Z.ldiff (Z.ones 32) (Z.ones (32 - p))) &&
    (u32 (Z.lnot (netmask p)) =? Z.ones (32 - p))) (seqZ 1 32) = true) by (vm_compute; reflexivity).
  rewrite forallb_forall in A. specialize (A p).
  rewrite <- list_elem_of_In, elem_of_seqZ in A. specialize (A ltac:(lia)). b2p. auto.
Qed.

Lemma land_netmask x p :
  1 <= p <= 32 -> in_u32 x -> Z.land x (netmask p) = x / 2 ^ (32 - p) * 2 ^ (32 - p).
Proof.
  intros Hp Hx. destruct (netmask_facts p Hp) as [-> _].
  assert (E : Z.land x (Z.ldiff (Z.ones 32) (Z.ones (32 - p))) = Z.ldiff x (Z.ones (32 - p))).
  { transitivity (Z.ldiff (Z.land x (Z.ones 32)) (Z.ones (32 - p))).
    - apply Z.bits_inj'. intros i _. rewrite !Z.land_spec, !Z.ldiff_spec, !Z.land_spec.
      rewrite andb_assoc. reflexivity.
    - rewrite Z.land_ones by lia. rewrite Z.mod_small by int_lia. reflexivity. }
  rewrite E, Z.ldiff_ones_r by lia. rewrite Z.shiftl_mul_pow2, Z.shiftr_div_pow2 by lia. reflexivity.
Qed.

Lemma broadcast_eq x p :
  1 <= p <= 32 -> in_u32 x ->
  Z.lor (Z.land x (netmask p)) (u32 (Z.lnot (netmask p))) =
  x / 2 ^ (32 - p) * 2 ^ (32 - p) + (2 ^ (32 - p) - 1).
Proof.
  intros Hp Hx. rewrite land_netmask by assumption. destruct (netmask_facts p Hp) as [_ ->].
  rewrite Z.ones_equiv, <- Z.sub_1_r.
  rewrite <- (Z.shiftl_mul_pow2 (x / 2 ^ (32 - p))) by lia.
  rewrite lor_shiftl_add by lia. rewrite Z.shiftl_mul_pow2 by lia. reflexivity.
Qed.

Lemma host_part x p :
  1 <= p <= 32 -> in_u32 x ->
  x = Z.land x (netmask p) + x mod 2 ^ (32 - p) /\ 0 <= x mod 2 ^ (32 - p) < 2 ^ (32 - p).
Proof.
  intros Hp Hx. rewrite land_netmask by assumption.
  assert (0 < 2 ^ (32 - p)) by (apply Z.pow_pos_nonneg; lia).
  split; [rewrite Z.mul_comm; apply Z.div_mod; lia|apply Z.mod_pos_bound; assumption].
Qed.

Lemma address_value_range a : is_array 4 a -> in_u32 (address_value a).
Proof.
  intros (b0 & b1 & b2 & b3 & -> & ? & ? & ? & ?)%is_array_4. apply read_u32_range. byte_list.
Qed.

(** Neither the network nor the broadcast address. *)
Lemma host_test x k r w :
  x = k + r -> 0 <= r < w -> (x =? k) || (x =? k + (w - 1)) = false <-> 0 < r < w - 1.
Proof. intros -> Hr. rewrite orb_false_iff, !Z.eqb_neq. lia. Qed.

Lemma ipv6_test a :
  (if ipv6_prefix_length a =? 0 then
     bool_decide (client_ipv6_address a = zeros 16) && bool_decide (gateway_ipv6_address a = zeros 16)
   else if negb (ipv6_prefix_length a =? 64) ||
           (bool_decide (client_ipv6_address a = gateway_ipv6_address a) ||
            negb (bool_decide (slice (client_ipv6_address a) 0 8 = slice (gateway_ipv6_address a) 0 8)))
   then false else true) = true <->
  (ipv6_prefix_length a = 0 /\ client_ipv6_address a = zeros 16 /\ gateway_ipv6_address a = zeros 16) \/
  (ipv6_prefix_length a = 64 /\ client_ipv6_address a <> gateway_ipv6_address a /\
   slice (client_ipv6_address a) 0 8 = slice (gateway_ipv6_address a) 0 8).
Proof.
  destruct (Z.eqb_spec (ipv6_prefix_length a) 0) as [H0|H0].
  - rewrite andb_true_iff, !bool_decide_eq_true. split; [tauto|]. intros [?|[? _]]; [tauto|lia].
  - if_goal E; b2p_all; (split; [intros Hx; first [discriminate Hx | auto]|]);
      first [reflexivity | intros [(?&_)|(?&?&?)]; congruence].
Qed.

Lemma acceptable_spec c a :
  ip_assignment_wf a -> 1 <= prefix_length a <= 32 ->
  assignment_is_acceptable c a = true <-> acceptable (requested_mtu_ c) a.
Proof.
  intros (Hc & Hg & _ & _ & _ & _ & _ & _) Hp. apply address_value_range in Hc, Hg.
  unfold assignment_is_acceptable.
  destruct (host_part _ _ Hp Hc) as [Ec Rc]. destruct (host_part _ _ Hp Hg) as [Eg Rg].
  rewrite broadcast_eq by assumption. rewrite !land_netmask in * by assumption.
  pose proof (host_test _ _ _ _ Ec Rc) as Tc. pose proof (host_test _ _ _ _ Eg Rg) as Tg.
  assert (Hw : 0 < 2 ^ (32 - prefix_length a)) by (apply Z.pow_pos_nonneg; lia).
  cbn zeta.
  destruct (Z.ltb_spec (requested_mtu_ c) (ia_mtu a)) as [Hm|Hm]; cbn [orb].
  { split; [discriminate|]. intros []. lia. }
  case_bool_decide as Hd; [split; [discriminate|]; intros []; contradiction|].
  destruct (Z.eqb_spec (address_value (client_address a) / 2 ^ (32 - prefix_length a) * 2 ^ (32 - prefix_length a))
    (address_value (gateway_address a) / 2 ^ (32 - prefix_length a) * 2 ^ (32 - prefix_length a))) as [Hs|Hs];
    cbn [negb].
  2: { split; [discriminate|]. intros []. congruence. }
  assert (Hs' := Hs). apply Z.mul_reg_r in Hs'; [|lia]. rewrite <- Hs, <- !orb_assoc.
  rewrite (orb_assoc (_ =? _)). rewrite <- Hs in Tg.
  destruct (Z.leb_spec (prefix_length a) 30) as [H30|H30]; cbn [andb].
  - destruct ((address_value (client_address a) =? _) || _) eqn:Bc; cbn [orb].
    { split; [discriminate|]. intros [_ _ _ H4 _]. apply H4 in H30 as [H30 _]. apply Tc in H30. discriminate. }
    destruct ((address_value (gateway_address a) =? _) || _) eqn:Bg.
    { split; [discriminate|]. intros [_ _ _ H4 _]. apply H4 in H30 as [_ H30]. apply Tg in H30. discriminate. }
    rewrite ipv6_test. split; [intros; constructor; auto; intros _; split; [apply Tc|apply Tg]; reflexivity|].
    intros []. assumption.
  - rewrite ipv6_test. split; [intros; constructor; auto; lia|]. intros []. assumption.
Qed.

(** *** Packet checks *)

Lemma client_validate_ipv4_none c a p fs :
  is_bytes p -> cs_assignment c = Some a ->
  validate_ipv4_packet c p fs = None <->
  ipv4_packet (ia_mtu a) p /\ slice p (if fs then 16 else 12) 4 = client_address a.
Proof.
  intros Hb Ha. unfold validate_ipv4_packet.
  rewrite Ha, be_length_eq, version_eq, header_length_eq by (auto; lia).
  cbn zeta. change (2 + 1) with 3.
  replace (if fs then slice p 16 4 else slice p 12 4) with (slice p (if fs then 16 else 12) 4)
    by (destruct fs; reflexivity). split.
  - repeat (if_next; [discriminate|b2p]). intros _. repeat split; auto; lia.
  - intros [[[? ?] Hv [? ?] Ht] Hs].
    repeat (if_next; [exfalso; b2p_all; congruence || lia|]). reflexivity.
Qed.

Lemma client_validate_ipv6_none c a p fs :
  is_bytes p -> cs_assignment c = Some a ->
  validate_ipv6_packet c p fs = None <->
  ipv6_packet (ia_mtu a) p /\ ipv6_prefix_length a <> 0 /\
  slice p (if fs then 24 else 8) 16 = client_ipv6_address a.
Proof.
  intros Hb Ha. unfold validate_ipv6_packet.
  rewrite Ha, be_length_eq, version_eq by (auto; lia).
  cbn zeta. change (4 + 1) with 5. split.
  - repeat (if_next; [discriminate|b2p]). intros _. repeat split; auto; lia.
  - intros [[[? ?] Hv Ht] [Hn Hs]].
    repeat (if_next; [exfalso; b2p_all; congruence || lia|]). reflexivity.
Qed.

Lemma client_validate_ipv4_short c p fs code what :
  validate_ipv4_packet c p fs = Some (code, what) ->
  zlen (string_bytes what) <= kMaximumErrorMessageSize.
Proof.
  unfold validate_ipv4_packet. intros H. cbn zeta in H.
  repeat case_match; simplify_eq; vm_compute; discriminate.
Qed.
Lemma client_validate_ipv6_short c p fs code what :
  validate_ipv6_packet c p fs = Some (code, what) ->
  zlen (string_bytes what) <= kMaximumErrorMessageSize.
Proof.
  unfold validate_ipv6_packet. intros H. cbn zeta in H.
  repeat case_match; simplify_eq; vm_compute; discriminate.
Qed.
Lemma decode_ip_assignment_throws p : invalid_only (decode_ip_assignment p).
Proof.
  unfold decode_ip_assignment, validate_ip_assignment. invalid_only_tac.
Qed.

(** *** Computations on the controller *)

(** The computation returns, as [R] says. *)
Definition yields {A} (m : CM A) (c : ClientSessionController)
    (R : A -> ClientSessionController -> Prop) : Prop :=
  exists r c', m c = (Ok r, c') /\ R r c'.

Lemma yields_ret {A} (a : A) c (R : A -> _ -> Prop) : R a c -> yields (ret a) c R.
Proof. intros H. exists a, c. auto. Qed.
Lemma yields_get {A} k c (R : A -> _ -> Prop) : yields (k c) c R -> yields (bind get k) c R.
Proof. auto. Qed.
Lemma yields_modify {A} f (k : unit -> CM A) c (R : A -> _ -> Prop) :
  yields (k tt) (f c) R -> yields (bind (modify f) k) c R.
Proof. auto. Qed.
Lemma client_yields_lift {A B} a (k : B -> CM A) c (R : A -> _ -> Prop) :
  yields (k a) c R -> yields (bind (lift (Ok a)) k) c R.
Proof. auto. Qed.
Lemma client_yields_outbound {A} t p (k : Frame -> CM A) c (R : A -> _ -> Prop) :
  yields (k (mkFrame t 0 (cs_next_outbound_sequence c) p)) (numbered c) R ->
  yields (bind (make_outbound t p) k) c R.
Proof. auto. Qed.
Lemma client_yields_inv {A} (m : CM A) c R r c' : yields m c R -> m c = (Ok r, c') -> R r c'.
Proof. intros (r1 & c1 & E & ?) E'. rewrite E in E'. simplify_eq. auto. Qed.

Lemma client_fail_yields code what c (R : ClientSessionResult -> ClientSessionController -> Prop) :
  zlen (string_bytes what) <= kMaximumErrorMessageSize ->
  R (mkClientResult [error_frame code what (cs_next_outbound_sequence c)] [] None None true)
    (set_state Closing (numbered c)) ->
  yields (fail code what) c R.
Proof.
  intros Hw HR. unfold fail. rewrite encode_error_message_short by assumption.
  apply client_yields_lift, client_yields_outbound, yields_modify, yields_ret. exact HR.
Qed.

Lemma client_decoding_yields {A} (m : outcome A) k c R :
  invalid_only m ->
  (forall a, m = Ok a -> yields (k a) c R) ->
  (forall what, m = Throw (InvalidArgument what) ->
     zlen (string_bytes what) <= kMaximumErrorMessageSize ->
     yields (fail InvalidControlPayload what) c R) ->
  yields (decoding m k) c R.
Proof.
  intros Hm Hk Hf. unfold decoding. destruct m as [a|e]; [auto|].
  destruct (invalid_only_inv _ e Hm eq_refl) as (what & -> & Hw). auto.
Qed.

Ltac refuse :=
  apply client_fail_yields;
  [first [assumption | short_text | eauto using client_validate_ipv4_short, client_validate_ipv6_short] |];
  match goal with |- handle_rel ?c _ _ _ => apply (hr_refused c) end;
  [auto | first [assumption | short_text | eauto using client_validate_ipv4_short, client_validate_ipv6_short]
  | auto | ].

Lemma handle_assignment_sound frame c :
  client_ok c -> cs_state c = AwaitingAssignment -> expects frame c ->
  yields (handle_assignment frame) (counted c) (handle_rel c frame).
Proof.
  intros Hc Hst Hex. unfold handle_assignment.
  case_bool_decide as Ht; cbn [negb]; [|refuse; apply rf_first; auto].
  apply client_decoding_yields; [apply decode_ip_assignment_throws|intros a Ha|intros what Hd Hw].
  - apply yields_get. change (assignment_is_acceptable (counted c) a) with (assignment_is_acceptable c a).
    destruct (assignment_is_acceptable c a) eqn:Eacc; cbn [negb].
    + apply yields_modify, yields_modify, yields_ret. apply hr_assigned; auto.
    + refuse. eapply rf_policy; eauto.
  - refuse. apply rf_assignment; auto.
Qed.

Lemma probe_payload p probe :
  is_bytes p -> decode_liveness_probe p = Ok probe ->
  append_u64 [] (nonce probe) = p /\ zlen p = 8 /\ in_u64 (nonce probe).
Proof.
  intros Hb Hp. pose proof (codec_decode_wf (A := LivenessProbe) _ _ Hb Hp) as Hw. split_goal.
  - apply ok_inj. exact (proj1 (codec_exact (A := LivenessProbe) _ _ Hw Hb) Hp).
  - unfold decode_liveness_probe, require_size in Hp. apply reject_then in Hp as [Hz _]. b2p. assumption.
  - exact Hw.
Qed.

Lemma dispatch_sound frame c :
  client_ok c -> cs_state c = Established -> expects frame c -> is_bytes (f_payload frame) ->
  yields (dispatch frame) (counted c) (handle_rel c frame).
Proof.
  intros Hc Hst Hex Hb. unfold dispatch. apply yields_get.
  destruct (co_established _ Hc Hst) as [a Ha].
  pose proof (client_validate_ipv4_none (counted c) a (f_payload frame) true Hb Ha) as V4.
  pose proof (client_validate_ipv6_none (counted c) a (f_payload frame) true Hb Ha) as V6.
  destruct (f_type frame) eqn:E.
  1, 2, 9: refuse; apply rf_unexpected; auto; rewrite E, !not_elem_of_cons; split_goal;
    auto using not_elem_of_nil; discriminate.
  - destruct (validate_ipv4_packet _ _ _) as [[code what]|] eqn:Ev.
    + refuse. apply rf_packet; auto.
    + apply yields_ret. apply (hr_delivered c frame a); auto. left. split; [assumption|]. apply V4. reflexivity.
  - apply client_decoding_yields; [apply decode_liveness_probe_throws|intros probe Hp|intros what Hp Hw].
    + destruct (probe_payload _ _ Hb Hp) as (He & Hz & _). apply client_yields_lift, client_yields_outbound, yields_ret.
      rewrite He. apply (hr_ping c); auto.
    + refuse. apply rf_payload; auto; [rewrite E, !elem_of_cons; auto|congruence].
  - apply client_decoding_yields; [apply decode_liveness_probe_throws|intros probe Hp|intros what Hp Hw].
    + change (cs_pending_ping_nonce (counted c)) with (cs_pending_ping_nonce c). case_bool_decide as Hn.
      * apply yields_modify, yields_ret. apply (hr_pong c frame (nonce probe)); auto.
        rewrite Hp. destruct probe. reflexivity.
      * refuse. apply rf_payload; auto; [rewrite E, !elem_of_cons; auto|]. intros _ n Hpend Hd. apply Hn.
        rewrite Hpend. rewrite Hp in Hd. apply ok_inj in Hd as ->. reflexivity.
    + refuse. apply rf_payload; auto; [rewrite E, !elem_of_cons; auto|]. intros _ n _ Hd. congruence.
  - apply client_decoding_yields; [apply decode_error_message_throws|intros m Hm|intros what Hp Hw].
    + apply yields_modify, yields_ret. apply (hr_error c frame m); auto.
    + refuse. apply rf_payload; auto; [rewrite E, !elem_of_cons; auto|congruence].
  - apply client_decoding_yields; [apply decode_close_message_throws|intros m Hm|intros what Hp Hw].
    + apply yields_modify, yields_ret. apply (hr_close c); auto. rewrite Hm. reflexivity.
    + refuse. apply rf_payload; auto; [rewrite E, !elem_of_cons; auto|congruence].
  - destruct (validate_ipv6_packet _ _ _) as [[code what]|] eqn:Ev.
    + refuse. apply rf_packet; auto.
    + apply yields_ret. apply (hr_delivered c frame a); auto. right. split; [assumption|]. apply V6. reflexivity.
Qed.

Lemma client_handle_sound frame c :
  client_ok c -> is_bytes (f_payload frame) -> yields (handle frame) c (handle_rel c frame).
Proof.
  intros Hc Hb. unfold handle. apply yields_get.
  destruct (cs_state c) eqn:Est; try (apply yields_ret, hr_ignored; congruence).
  all: destruct (Z.eqb_spec (f_sequence frame) (cs_next_expected_sequence c)) as [Hseq|Hseq]; cbn [negb].
  2, 4: pose proof (sequence_message_short _ (co_expected _ Hc)); refuse; apply rf_sequence; exact Hseq.
  all: apply yields_modify; fold (counted c).
  - apply handle_assignment_sound; auto.
  - apply dispatch_sound; auto.
Qed.

(** *** Preservation and runs *)

Lemma decode_ip_assignment_facts p a :
  is_bytes p -> decode_ip_assignment p = Ok a -> ip_assignment_wf a /\ assignment_valid a.
Proof.
  intros Hb Hd. destruct (decode_ip_assignment_sound p a Hb Hd) as [Hw He]. split; [assumption|].
  apply validate_ip_assignment_spec; [assumption|]. unfold encode_ip_assignment in He.
  apply obind_ok in He as ([] & Hv & _). exact Hv.
Qed.

Lemma acceptable_assignment p a c :
  is_bytes p -> decode_ip_assignment p = Ok a ->
  assignment_is_acceptable c a = true <-> acceptable (requested_mtu_ c) a.
Proof.
  intros Hb Hd. destruct (decode_ip_assignment_facts p a Hb Hd) as [Hw Hv].
  apply acceptable_spec; [assumption|]. apply av_prefix. assumption.
Qed.

Lemma client_handle_rel_ok c frame r c' :
  client_ok c -> is_bytes (f_payload frame) -> handle_rel c frame r c' -> client_ok c'.
Proof.
  intros Hc Hb Hr. destruct Hr as [|code what c1 Hst Hw [->| ->] _|a| | | | |];
    try (destruct Hc; constructor; cbn; auto using u64_range; discriminate).
  destruct Hc. constructor; cbn; auto using u64_range.
  intros ? [= <-]. destruct (decode_ip_assignment_facts _ _ Hb H2) as [Hwf Hv].
  split_goal; auto. apply (acceptable_assignment _ _ c Hb H2). assumption.
Qed.

Lemma client_numbered_ok c : client_ok c -> client_ok (numbered c).
Proof. intros []. constructor; cbn; auto. apply u64_range. Qed.
Lemma moved_ok st c : client_ok c -> st <> Established -> client_ok (set_state st c).
Proof. intros [] ?. constructor; cbn; auto. intros; contradiction. Qed.

(** What the other calls do. *)
Lemma start_eq c :
  client_ok c -> cs_state c = Idle ->
  exists payload, encode_client_hello (hello_of (requested_mtu_ c)) = Ok payload /\
    start c = (Ok (mkFrame MtClientHello 0 (cs_next_outbound_sequence c) payload),
               numbered (set_state AwaitingAssignment c)).
Proof.
  intros Hc Hst. destruct (co_requested _ Hc) as [H1 H2].
  assert (E : encode_client_hello (hello_of (requested_mtu_ c)) =
    Ok (append_u32 (append_u16 (append_u16 [] (requested_mtu_ c)) 0) 3)).
  { unfold encode_client_hello. cbn [requested_mtu capabilities hello_of].
    apply Z.ltb_ge in H1, H2. rewrite H1, H2. reflexivity. }
  eexists. split; [exact E|]. unfold start, bind, get, modify, lift. rewrite Hst.
  cbn [negb bool_decide decide_rel]. rewrite bool_decide_eq_true_2 by reflexivity. cbn [negb].
  rewrite E. reflexivity.
Qed.

Lemma start_again c : cs_state c <> Idle ->
  start c = (Throw (LogicError "client session has already started"), c).
Proof.
  intros Hst. unfold start, bind, get. rewrite bool_decide_eq_false_2 by assumption. reflexivity.
Qed.

(** The contract of [make_data_to_server]. *)
Definition send_rel (c : ClientSessionController) (packet : bytes) (r : option Frame)
    (c' : ClientSessionController) : Prop :=
  (r = None /\ c' = c /\
   ~ (cs_state c = Established /\ exists a t, cs_assignment c = Some a /\ to_server a t packet)) \/
  (exists a t, cs_state c = Established /\ cs_assignment c = Some a /\ to_server a t packet /\
   r = Some (mkFrame t 0 (cs_next_outbound_sequence c) packet) /\ c' = numbered c).

Lemma send_sound packet c :
  client_ok c -> is_bytes packet -> yields (make_data_to_server packet) c (send_rel c packet).
Proof.
  intros Hc Hb. unfold make_data_to_server. apply yields_get.
  case_bool_decide as Hst; cbn [negb]; [|apply yields_ret; left; tauto].
  destruct (co_established _ Hc Hst) as [a Ha].
  pose proof (client_validate_ipv4_none c a packet false Hb Ha) as V4.
  pose proof (client_validate_ipv6_none c a packet false Hb Ha) as V6.
  rewrite version_eq.
  destruct (negb (zlen packet =? 0) && (at_ packet 0 / 16 =? 6)) eqn:E6.
  - destruct (validate_ipv6_packet c packet false) as [x|] eqn:Ev.
    + apply yields_ret. left. split_goal; auto. intros (_ & a' & t & Ha' & Hp). simplify_eq.
      destruct Hp as [(_ & [_ ? _ _] & _)|(_ & Hp)]; [b2p; lia|]. apply V6 in Hp. discriminate.
    + apply client_yields_outbound, yields_ret. right. exists a, MtDataIpv6. split_goal; auto.
      right. split; [reflexivity|]. apply V6. reflexivity.
  - destruct (validate_ipv4_packet c packet false) as [x|] eqn:Ev.
    + apply yields_ret. left. split_goal; auto. intros (_ & a' & t & Ha' & Hp). simplify_eq.
      destruct Hp as [(_ & Hp)|(_ & [[? ?] ? _] & _)]; [apply V4 in Hp; discriminate|b2p_all; lia].
    + apply client_yields_outbound, yields_ret. right. exists a, MtDataIpv4. split_goal; auto.
      left. split; [reflexivity|]. apply V4. reflexivity.
Qed.

Lemma make_ping_eq n c :
  make_ping n c =
  if bool_decide (cs_state c = Established) && bool_decide (cs_pending_ping_nonce c = None)
  then (Ok (Some (mkFrame MtPing 0 (cs_next_outbound_sequence c) (append_u64 [] n))),
        numbered (set_pending (Some n) c))
  else (Ok None, c).
Proof.
  unfold make_ping, bind, get. destruct (bool_decide (cs_state c = Established)); [|reflexivity].
  cbn [negb andb]. destruct (cs_pending_ping_nonce c) as [m|] eqn:E.
  - rewrite bool_decide_eq_true_2 by eauto. rewrite bool_decide_eq_false_2 by discriminate. reflexivity.
  - rewrite bool_decide_eq_false_2 by (intros [? [=]]).
    rewrite bool_decide_eq_true_2 by reflexivity. reflexivity.
Qed.

Lemma make_close_eq code c :
  make_close code c =
  if bool_decide (cs_state c = AwaitingAssignment) || bool_decide (cs_state c = Established)
  then (Ok (Some (mkFrame MtClose 0 (cs_next_outbound_sequence c) (append_u16 [] code))),
        numbered (set_state Closing c))
  else (Ok None, c).
Proof.
  unfold make_close, bind, get. rewrite <- negb_orb. destruct (_ || _)%bool; reflexivity.
Qed.

(** A client controller in use: its calls in any order, with the frames each
    one makes.  Nonces and close codes fit their types. *)
Inductive client_run : ClientSessionController -> list Frame -> ClientSessionController -> Prop :=
| run_nil c : client_run c [] c
| run_start c f c1 out c2 :
    start c = (Ok f, c1) -> client_run c1 out c2 -> client_run c (f :: out) c2
| run_handle frame c r c1 out c2 :
    is_bytes (f_payload frame) -> handle frame c = (Ok r, c1) -> client_run c1 out c2 ->
    client_run c (cr_outbound_frames r ++ out) c2
| run_send packet c f c1 out c2 :
    is_bytes packet -> make_data_to_server packet c = (Ok f, c1) -> client_run c1 out c2 ->
    client_run c (option_list f ++ out) c2
| run_ping n c f c1 out c2 :
    in_u64 n -> make_ping n c = (Ok f, c1) -> client_run c1 out c2 ->
    client_run c (option_list f ++ out) c2
| run_close code c f c1 out c2 :
    in_u16 code -> make_close code c = (Ok f, c1) -> client_run c1 out c2 ->
    client_run c (option_list f ++ out) c2
| run_transport_closed c c1 out c2 :
    on_transport_closed c = (Ok tt, c1) -> client_run c1 out c2 -> client_run c out c2.

Definition client_reachable (c : ClientSessionController) : Prop :=
  exists mtu c0 out, in_u16 mtu /\ make_client mtu = Ok c0 /\ client_run c0 out c.

(** The order in which the states are passed. *)
Definition rank (st : ClientSessionState) : Z :=
  match st with Idle => 0 | AwaitingAssignment => 1 | Established => 2 | Closing => 3 | Closed => 4 end.

(** What every call preserves, and how it numbers its frames. *)
Record call_ok (c : ClientSessionController) (out : list Frame) (c' : ClientSessionController) : Prop := {
  cl_ok : client_ok c';
  cl_numbers : consecutive (cs_next_outbound_sequence c) out;
  cl_advance : cs_next_outbound_sequence c' = advance (cs_next_outbound_sequence c) out;
  cl_rank : rank (cs_state c) <= rank (cs_state c')
}.

Lemma call_none c c' :
  client_ok c -> client_ok c' -> cs_next_outbound_sequence c' = cs_next_outbound_sequence c ->
  rank (cs_state c) <= rank (cs_state c') -> call_ok c [] c'.
Proof.
  intros Hc Hc' E Hr. constructor; auto; [exact I|].
  rewrite (advance_nil _ (co_outbound _ Hc)). exact E.
Qed.
Lemma call_one c c' t p :
  client_ok c -> client_ok c' ->
  cs_next_outbound_sequence c' = u64 (cs_next_outbound_sequence c + 1) ->
  rank (cs_state c) <= rank (cs_state c') ->
  call_ok c [mkFrame t 0 (cs_next_outbound_sequence c) p] c'.
Proof. intros Hc Hc' E Hr. constructor; auto. cbn. auto. Qed.

Lemma handle_call c frame r c' :
  client_ok c -> is_bytes (f_payload frame) -> handle_rel c frame r c' ->
  call_ok c (cr_outbound_frames r) c'.
Proof.
  intros Hc Hb Hr. pose proof (client_handle_rel_ok _ _ _ _ Hc Hb Hr) as Hc'.
  destruct Hr as [|code what c1 Hst Hw Hc1 _|a| | | | |]; cbn [cr_outbound_frames];
    try (apply call_none; auto; cbn; rewrite ?H; cbn; lia).
  - apply call_one; auto; destruct Hc1 as [->| ->], Hst as [Hst|Hst]; cbn; rewrite ?Hst; cbn;
      reflexivity || lia.
  - apply call_one; auto. cbn. lia.
Qed.

Lemma send_call c packet r c' :
  client_ok c -> send_rel c packet r c' -> call_ok c (option_list r) c'.
Proof.
  intros Hc [(-> & -> & _)|(a & t & Hst & _ & _ & -> & ->)].
  - apply call_none; auto. lia.
  - apply call_one; auto using client_numbered_ok. cbn. lia.
Qed.

Lemma ping_call c n f c' :
  client_ok c -> in_u64 n -> make_ping n c = (Ok f, c') -> call_ok c (option_list f) c'.
Proof.
  intros Hc Hn. rewrite make_ping_eq. if_goal E; intros [= <- <-].
  - apply call_one; auto; [|cbn; lia]. apply client_numbered_ok. destruct Hc. constructor; cbn; auto.
    intros ? [= <-]. assumption.
  - apply call_none; auto. lia.
Qed.

Lemma close_call c code f c' :
  client_ok c -> make_close code c = (Ok f, c') -> call_ok c (option_list f) c'.
Proof.
  intros Hc. rewrite make_close_eq. if_goal E; intros [= <- <-].
  - apply call_one; auto; [apply client_numbered_ok, moved_ok; auto; discriminate|].
    destruct (cs_state c); cbn in *; try discriminate; lia.
  - apply call_none; auto. lia.
Qed.

Lemma start_call c f c' : client_ok c -> start c = (Ok f, c') -> call_ok c [f] c'.
Proof.
  intros Hc. destruct (decide (cs_state c = Idle)) as [Hst|Hst];
    [|rewrite start_again by assumption; discriminate].
  destruct (start_eq c Hc Hst) as (payload & _ & ->). intros [= <- <-].
  apply call_one; auto; [apply client_numbered_ok, moved_ok; auto; discriminate|]. rewrite Hst. cbn. lia.
Qed.

(** One call composed with the rest of a run. *)
Lemma call_app c out1 c1 out2 c2 :
  client_ok c -> call_ok c out1 c1 -> call_ok c1 out2 c2 -> call_ok c (out1 ++ out2) c2.
Proof.
  intros Hc [_ N1 A1 R1] [O2 N2 A2 R2]. constructor; auto; [|..|lia].
  - apply consecutive_app; [apply co_outbound|..]; auto. rewrite <- A1. assumption.
  - rewrite A2, A1. unfold advance, u64. rewrite zlen_app, Zplus_mod_idemp_l. f_equal. lia.
Qed.

Lemma client_run_ok c out c' : client_run c out c' -> client_ok c -> call_ok c out c'.
Proof.
  induction 1 as [c|c f c1 out c2 E _ IH|frame c r c1 out c2 Hb E _ IH|packet c f c1 out c2 Hb E _ IH
                 |n c f c1 out c2 Hn E _ IH|code c f c1 out c2 Hn E _ IH|c c1 out c2 E _ IH]; intros Hc.
  - apply call_none; auto. lia.
  - pose proof (start_call _ _ _ Hc E) as H. apply (call_app c [f] c1); auto. apply IH, H.
  - apply (client_yields_inv _ _ _ _ _ (client_handle_sound frame c Hc Hb)) in E.
    pose proof (handle_call _ _ _ _ Hc Hb E) as H. eapply call_app; eauto. apply IH, H.
  - apply (client_yields_inv _ _ _ _ _ (send_sound packet c Hc Hb)) in E.
    pose proof (send_call _ _ _ _ Hc E) as H. eapply call_app; eauto. apply IH, H.
  - pose proof (ping_call _ _ _ _ Hc Hn E) as H. eapply call_app; eauto. apply IH, H.
  - pose proof (close_call _ _ _ _ Hc E) as H. eapply call_app; eauto. apply IH, H.
  - injection E as <-. assert (H : call_ok c [] (set_state Closed c)).
    { apply call_none; auto; [apply moved_ok; auto; discriminate|]. cbn. destruct (cs_state c); cbn; lia. }
    apply (call_app c [] (set_state Closed c)); auto. apply IH, H.
Qed.

Lemma make_client_ok mtu c : make_client mtu = Ok c -> client_ok c /\ cs_next_outbound_sequence c = 1.
Proof.
  unfold make_client. intros (p & He & <-%ok_inj)%obind_ok. split; [|reflexivity].
  apply encode_client_hello_ok in He as [_ He]. cbn in He.
  constructor; cbn; auto; try int_lia; discriminate.
Qed.

Lemma client_reachable_ok c : client_reachable c -> client_ok c.
Proof.
  intros (mtu & c0 & out & _ & [Hm _]%make_client_ok & Hr). apply (client_run_ok _ _ _ Hr Hm).
Qed.

Lemma client_decode_error_frame code what n :
  zlen (string_bytes what) <= kMaximumErrorMessageSize ->
  decode_error_message (f_payload (error_frame code what n)) =
  Ok (mkErrorMessage (ClientSessionErrorCode_to_u16 code) what).
Proof. apply decode_error_payload. destruct code; cbn; int_lia. Qed.

(** *** The frames of the controller can be sent *)

Lemma client_frame_valid t n p :
  MessageType_of_u8 (MessageType_to_u8 t) = t -> is_known_message_type (MessageType_to_u8 t) = true ->
  in_u64 n -> is_bytes p -> zlen p <= kMaxPayloadSize -> Forall valid_frame [mkFrame t 0 n p].
Proof. intros. constructor; [|constructor]. unfold valid_frame. cbn. auto 10. Qed.

Lemma client_handle_valid c frame r c' :
  client_ok c -> is_bytes (f_payload frame) -> handle_rel c frame r c' ->
  Forall valid_frame (cr_outbound_frames r).
Proof.
  intros Hc Hb Hr. pose proof (co_outbound _ Hc) as Hn.
  destruct Hr as [|code what c1 ? Hw ? Href|a| | ? ? ? Hz| | |]; cbn [cr_outbound_frames]; try apply Forall_nil; try exact I.
  - apply client_frame_valid; try reflexivity; [exact Hn| |].
    + apply is_bytes_app. split; [apply is_bytes_be16|apply string_bytes_range].
      all: try (destruct code; cbn; int_lia).
    + rewrite zlen_app. unfold kMaximumErrorMessageSize, kMaxPayloadSize in *.
      change (zlen (be16 _)) with 2. lia.
  - apply client_frame_valid; try reflexivity; [exact Hn|exact Hb|]. cbn. unfold kMaxPayloadSize. lia.
Qed.

Lemma send_valid c packet r c' :
  client_ok c -> is_bytes packet -> send_rel c packet r c' -> Forall valid_frame (option_list r).
Proof.
  intros Hc Hb [(-> & _)|(a & t & _ & Ha & Hp & -> & _)]; [constructor|].
  destruct (co_assignment _ Hc a Ha) as (_ & _ & [Hm _ _ _ _]). pose proof (co_requested _ Hc) as Hr.
  assert (Hs : zlen packet <= ia_mtu a).
  { destruct Hp as [(_ & [[_ ?] _ _ _] & _)|(_ & [[_ ?] _ _] & _)]; assumption. }
  apply client_frame_valid; try (destruct Hp as [(-> & _)|(-> & _)]; reflexivity);
    [apply Hc|exact Hb|unfold kMaximumTunnelMtu, kMaxPayloadSize in *; lia].
Qed.
Lemma ping_valid c n f c' :
  client_ok c -> in_u64 n -> make_ping n c = (Ok f, c') -> Forall valid_frame (option_list f).
Proof.
  intros Hc Hn. rewrite make_ping_eq. if_goal E; intros [= <- <-]; [|constructor].
  apply client_frame_valid; try reflexivity; [apply Hc|rewrite append_u64_eq; apply is_bytes_be64|].
  rewrite append_u64_eq. vm_compute. discriminate.
Qed.
Lemma close_valid c code f c' :
  client_ok c -> in_u16 code -> make_close code c = (Ok f, c') -> Forall valid_frame (option_list f).
Proof.
  intros Hc Hn. rewrite make_close_eq. if_goal E; intros [= <- <-]; [|constructor].
  apply client_frame_valid; try reflexivity; [apply Hc|rewrite append_u16_eq; apply is_bytes_be16; exact Hn|].
  rewrite append_u16_eq. vm_compute. discriminate.
Qed.
Lemma start_valid c f c' : client_ok c -> start c = (Ok f, c') -> Forall valid_frame [f].
Proof.
  intros Hc. destruct (decide (cs_state c = Idle)) as [Hst|Hst];
    [|rewrite start_again by assumption; discriminate].
  destruct (start_eq c Hc Hst) as (payload & He & ->). intros [= <- <-].
  apply client_frame_valid; try reflexivity; [apply Hc| |].
  - apply (codec_encode_bytes (A := ClientHello) (hello_of (requested_mtu_ c))); [|exact He].
    pose proof (co_requested _ Hc). unfold kMinimumIpv6Mtu, kMaximumTunnelMtu in *.
    split; [cbn; int_lia|]. cbn. vm_compute. split; [discriminate|reflexivity].
  - unfold encode_client_hello in He. inv_ok. subst payload.
    rewrite append_u16_eq, append_u16_eq, append_u32_eq, !zlen_app. vm_compute. discriminate.
Qed.

(** ** Properties *)

(** the client's packet filter, both ways.  Whatever the client did
    before, [handle] returns without an exception on every frame, and a
    packet reaches the local TUN device exactly when the session is
    established, the frame is in sequence and the payload is a well-formed
    packet within the assigned MTU for the assigned address; a packet from the
    device is framed for the server exactly when it is such a packet from the
    assigned address. *)
Theorem client_packets_exact c frame packet :
  client_reachable c -> is_bytes (f_payload frame) -> is_bytes packet ->
  (exists r c', handle frame c = (Ok r, c') /\
     forall p, p ∈ cr_packets_to_tun r <->
       p = f_payload frame /\ cs_state c = Established /\
       f_sequence frame = cs_next_expected_sequence c /\
       exists a, cs_assignment c = Some a /\ to_client a (f_type frame) p) /\
  (exists r c', make_data_to_server packet c = (Ok r, c') /\
     forall f, r = Some f <->
       f_payload f = packet /\ f_flags f = 0 /\ f_sequence f = cs_next_outbound_sequence c /\
       cs_state c = Established /\
       exists a, cs_assignment c = Some a /\ to_server a (f_type f) packet).
Proof.
  intros Hc%client_reachable_ok Hb Hbp. split.
  - destruct (client_handle_sound frame c Hc Hb) as (r & c' & E & Hr). exists r, c'. split; [exact E|]. intros p. split.
    + destruct Hr; cbn [cr_packets_to_tun]; try (intros []%not_elem_of_nil; fail).
      intros ->%list_elem_of_singleton. split_goal; eauto.
    + intros (-> & Hst & Hex & a & Ha & Hp).
      assert (Ht : f_type frame = MtDataIpv4 \/ f_type frame = MtDataIpv6)
        by (destruct Hp as [(? & _)|(? & _)]; auto).
      destruct Hr as [|code what c1 _ _ _ Href|a'| | | | |]; cbn [cr_packets_to_tun];
        try (destruct Ht; congruence); try (apply list_elem_of_singleton; reflexivity).
      exfalso. destruct Href; try (destruct Ht; congruence); try contradiction.
      * destruct H1 as [[Ht1 Hv]|[Ht1 Hv]]; destruct Hp as [(Ht2 & Hp)|(Ht2 & Hp)]; try congruence.
        -- apply (client_validate_ipv4_none c a _ true Hb Ha) in Hp. congruence.
        -- apply (client_validate_ipv6_none c a _ true Hb Ha) in Hp. congruence.
      * destruct Ht as [Ht|Ht]; rewrite Ht in H1; revert H1; decide_prop.
      * destruct Ht as [Ht|Ht]; rewrite Ht in H1; apply H1; rewrite !elem_of_cons; auto.
  - destruct (send_sound packet c Hc Hbp) as (r & c' & E & Hr). exists r, c'. split; [exact E|].
    destruct Hr as [(-> & -> & Hno)|(a & t & Hst & Ha & Hp & -> & ->)]; intros f; split.
    + discriminate.
    + intros (_ & _ & _ & Hst & a & Ha & Hp). destruct Hno. eauto.
    + intros [= <-]. cbn. eauto 10.
    + intros (Hpl & Hf & Hs & _ & a' & Ha' & Hp'). destruct f as [ft ff fs fp]; cbn in *. simplify_eq.
      assert (ft = t) as ->; [|reflexivity].
      destruct Hp as [(-> & [_ ? _ _] & _)|(-> & [_ ? _] & _)],
        Hp' as [(-> & [_ ? _ _] & _)|(-> & [_ ? _] & _)]; congruence || reflexivity.
Qed.

(** C11: the client only ever uses an assignment its policy accepts.  It
    becomes established exactly by an in-sequence first IP_ASSIGN whose
    payload decodes to an acceptable assignment, which it then stores and
    reports; and whenever it is established, the stored assignment is valid
    and acceptable: an MTU not above the requested one, distinct host
    addresses of one IPv4 network that are neither the network nor the
    broadcast address, and IPv6 addresses of one /64. *)
Theorem client_assignment_policy c frame r c' :
  client_reachable c -> is_bytes (f_payload frame) -> handle frame c = (Ok r, c') ->
  (cs_state c' = Established ->
     exists a, cs_assignment c' = Some a /\ assignment_valid a /\ acceptable (requested_mtu_ c) a) /\
  (forall a, cr_assignment r = Some a <->
     cs_state c = AwaitingAssignment /\ f_sequence frame = cs_next_expected_sequence c /\
     f_type frame = MtIpAssign /\ decode_ip_assignment (f_payload frame) = Ok a /\
     acceptable (requested_mtu_ c) a) /\
  (forall a, cr_assignment r = Some a -> cs_state c' = Established /\ cs_assignment c' = Some a).
Proof.
  intros Hc%client_reachable_ok Hb E.
  apply (client_yields_inv _ _ _ _ _ (client_handle_sound frame c Hc Hb)) in E as Hr.
  pose proof (client_handle_rel_ok _ _ _ _ Hc Hb Hr) as Hc'.
  assert (Hreq : requested_mtu_ c' = requested_mtu_ c)
    by (destruct Hr as [|? ? ? ? ? [->| ->]| | | | | |]; reflexivity).
  split; [|split].
  - intros Hst. destruct (co_established _ Hc' Hst) as [a Ha]. exists a.
    destruct (co_assignment _ Hc' a Ha) as (_ & Hv & Hacc). rewrite <- Hreq. auto.
  - intros a. split.
    + destruct Hr; cbn [cr_assignment]; try discriminate. intros [= <-]. split_goal; auto.
      apply (acceptable_assignment (f_payload frame) _ c); assumption.
    + intros (Hst & Hex & Ht & Hd & Hacc). apply (acceptable_assignment _ a c Hb Hd) in Hacc.
      destruct Hr as [|code what c1 _ _ _ Href| | | | | |]; cbn [cr_assignment]; try congruence.
      exfalso. destruct Href; solve [congruence | contradiction].
  - intros a. destruct Hr; cbn [cr_assignment]; try discriminate. intros [= <-]. auto.
Qed.

(** the client's error contract and its ping discipline.  A frame that
    does not end the session was in sequence and leaves it established; any
    other frame ends it for good without delivering anything, and is answered
    by one ERROR frame that decodes to the code, unless the server itself
    ended the session.  A PONG is accepted exactly when it repeats the nonce
    of the one outstanding PING, which it settles; a PING can be sent only
    when none is outstanding. *)
Theorem client_error_contract c frame n :
  client_reachable c -> is_bytes (f_payload frame) -> in_u64 n ->
  (exists r c', handle frame c = (Ok r, c') /\
    (cr_close_transport r = false ->
       cs_state c' = Established /\ f_sequence frame = cs_next_expected_sequence c /\
       cs_next_expected_sequence c' = u64 (cs_next_expected_sequence c + 1) /\
       (f_type frame = MtPong -> cs_pending_ping_nonce c' = None /\
          exists m, cs_pending_ping_nonce c = Some m /\ f_payload frame = be64 m)) /\
    (cr_close_transport r = true -> cs_state c = AwaitingAssignment \/ cs_state c = Established ->
       cr_packets_to_tun r = [] /\ cr_assignment r = None /\
       ((cr_outbound_frames r = [] /\ cs_state c' = Closed /\
         (f_type frame = MtClose \/ f_type frame = MtError)) \/
        (cs_state c' = Closing /\
         exists code what,
           cr_outbound_frames r = [error_frame code what (cs_next_outbound_sequence c)] /\
           decode_error_message (f_payload (error_frame code what (cs_next_outbound_sequence c))) =
             Ok (mkErrorMessage (ClientSessionErrorCode_to_u16 code) what) /\
           (f_sequence frame <> cs_next_expected_sequence c <-> code = InvalidSequence)))) /\
    (f_type frame = MtPong -> cs_state c = Established -> f_sequence frame = cs_next_expected_sequence c ->
       forall m, cs_pending_ping_nonce c = Some m -> f_payload frame = be64 m ->
       cr_close_transport r = false)) /\
  (is_Some (cs_pending_ping_nonce c) -> make_ping n c = (Ok None, c)).
Proof.
  intros Hc%client_reachable_ok Hb Hn. split.
  2: { intros [m Hm]. rewrite make_ping_eq, Hm, (bool_decide_eq_false_2 (Some m = None)) by discriminate.
       rewrite andb_false_r. reflexivity. }
  destruct (client_handle_sound frame c Hc Hb) as (r & c' & E & Hr). exists r, c'. split; [exact E|].
  assert (Hprobe : forall m, in_u64 m -> f_payload frame = be64 m ->
            decode_liveness_probe (f_payload frame) = Ok (mkLivenessProbe m)).
  { intros m Hm ->. refine (proj2 (codec_exact (A := LivenessProbe) (mkLivenessProbe m) _ Hm (is_bytes_be64 m)) _).
    cbn. unfold encode_liveness_probe. rewrite append_u64_eq. reflexivity. }
  destruct Hr as [H1 H2|code what c1 Hst Hw Hc1 Href|a|a| |m|m|]; cbn [cr_close_transport cr_packets_to_tun
    cr_assignment cr_outbound_frames]; (split; [|split]); try discriminate; auto; try congruence.
  - intros _ [?|?]; contradiction.
  - intros _ _. split_goal; auto. right. split; [reflexivity|]. exists code, what. split; [reflexivity|].
    split; [apply client_decode_error_frame; assumption|]. split.
    + intros Hseq. destruct Href; try contradiction. reflexivity.
    + intros ->. inversion Href; subst; try assumption; try discriminate.
      match goal with H : _ \/ _ |- _ => destruct H as [[_ Hv]|[_ Hv]] end.
      * unfold validate_ipv4_packet in Hv. cbn zeta in Hv. repeat case_match; discriminate.
      * unfold validate_ipv6_packet in Hv. cbn zeta in Hv. repeat case_match; discriminate.
  - intros Ht Hes Hex m Hm Hp. exfalso. pose proof (Hprobe m (co_pending _ Hc m Hm) Hp) as Hd.
    destruct Href as [| | | | ? ? ? ? [[? _]|[? _]]|? ? ? ? Hpong|? ? ? Hun]; try congruence; try contradiction.
    + exact (Hpong Ht m Hm Hd).
    + apply Hun. rewrite Ht, !elem_of_cons. auto 10.
  - intros _. split_goal; auto; congruence.
  - intros _. split_goal; auto. intros Ht. destruct H2 as [(? & _)|(? & _)]; congruence.
  - intros _. split_goal; auto; congruence.
  - intros _. split_goal; auto. intros _. split; [reflexivity|]. exists m. split; [assumption|].
    destruct (probe_payload _ _ Hb H3) as (Hp & _ & _). cbn [nonce] in Hp. rewrite <- Hp, append_u64_eq. reflexivity.
  - intros _ _. split_goal; auto; left; auto.
  - intros _ _. split_goal; auto; left; auto.
Qed.

(** Over any use of a client controller, the frames it makes carry the
    sequence numbers 1, 2, 3, ... without gap or repetition, and its state
    only moves forward through idle, awaiting, established, closing and
    closed. *)
Theorem client_frames_numbered mtu c out c' :
  in_u16 mtu -> make_client mtu = Ok c -> client_run c out c' ->
  consecutive 1 out /\ rank (cs_state c) <= rank (cs_state c').
Proof.
  intros _ [Hc E]%make_client_ok Hr. destruct (client_run_ok _ _ _ Hr Hc) as [_ Hn _ Hk].
  rewrite E in Hn. auto.
Qed.

(** ** Witnesses *)

Definition sample_client : ClientSessionController := mkClient 1400 Idle None None 1 1.
Definition started : ClientSessionController := (start sample_client).2.
Definition assign_frame : Frame :=
  mkFrame MtIpAssign 0 1
    match encode_ip_assignment sample_assignment with Ok p => p | Throw _ => [] end.
Definition assigned : ClientSessionController := (handle assign_frame started).2.
Definition pinged : ClientSessionController := (make_ping 7 assigned).2.
(** IPv4 headers without payload between 10.8.0.1 and 10.8.0.2. *)
Definition local_packet : bytes := [69; 0; 0; 20] ++ zeros 8 ++ [10; 8; 0; 2] ++ [10; 8; 0; 1].
Definition remote_packet : bytes := [69; 0; 0; 20] ++ zeros 8 ++ [10; 8; 0; 1] ++ [10; 8; 0; 2].

Definition assign_result : ClientSessionResult :=
  mkClientResult [] [] (Some sample_assignment) None false.
Lemma assign_frame_accepted : handle assign_frame started = (Ok assign_result, assigned).
Proof. vm_compute. reflexivity. Qed.
Definition sample_hello_frame : Frame := mkFrame MtClientHello 0 1 sample_hello_bytes.
Lemma start_sample : start sample_client = (Ok sample_hello_frame, started).
Proof. vm_compute. reflexivity. Qed.

Lemma pinged_run :
  client_run sample_client
    (sample_hello_frame :: [] ++ [mkFrame MtPing 0 2 [0; 0; 0; 0; 0; 0; 0; 7]] ++ []) pinged.
Proof.
  eapply run_start; [exact start_sample|].
  apply (run_handle assign_frame started assign_result assigned); [decide_prop|exact assign_frame_accepted|].
  apply (run_ping 7 assigned (Some (mkFrame MtPing 0 2 [0; 0; 0; 0; 0; 0; 0; 7])) pinged);
    [int_lia|vm_compute; reflexivity|apply run_nil].
Qed.
Lemma started_reachable : client_reachable started.
Proof.
  exists 1400, sample_client, [sample_hello_frame]. split; [int_lia|]. split; [vm_compute; reflexivity|].
  eapply run_start; [exact start_sample|apply run_nil].
Qed.
Lemma pinged_reachable : client_reachable pinged.
Proof.
  eexists 1400, sample_client, _. split; [int_lia|]. split; [vm_compute; reflexivity|exact pinged_run].
Qed.

Lemma client_packets_exact_witness :
  exists r c', handle (mkFrame MtDataIpv4 0 2 remote_packet) pinged = (Ok r, c') /\
    cr_packets_to_tun r = [remote_packet] /\
    exists a, cs_assignment pinged = Some a /\ to_client a MtDataIpv4 remote_packet.
Proof.
  destruct (client_packets_exact pinged (mkFrame MtDataIpv4 0 2 remote_packet) local_packet
    pinged_reachable ltac:(decide_prop) ltac:(decide_prop)) as ((r & c' & E & H) & _).
  exists r, c'. split; [exact E|].
  assert (Hp : cr_packets_to_tun r = [remote_packet]) by (vm_compute in E; injection E as <- _; reflexivity).
  split; [exact Hp|]. apply (H remote_packet). rewrite Hp. apply list_elem_of_singleton. reflexivity.
Defined.

Lemma client_assignment_policy_witness :
  cs_state assigned = Established /\ acceptable 1400 sample_assignment.
Proof.
  destruct (client_assignment_policy started assign_frame assign_result assigned
    started_reachable ltac:(decide_prop) assign_frame_accepted) as (_ & H & H').
  split.
  - apply (H' sample_assignment). reflexivity.
  - apply (H sample_assignment). reflexivity.
Defined.

Lemma client_error_contract_witness :
  exists r c', handle (mkFrame MtPong 0 2 [0; 0; 0; 0; 0; 0; 0; 7]) pinged = (Ok r, c') /\
    cr_close_transport r = false /\ cs_pending_ping_nonce c' = None.
Proof.
  destruct (client_error_contract pinged (mkFrame MtPong 0 2 [0; 0; 0; 0; 0; 0; 0; 7]) 8
    pinged_reachable ltac:(decide_prop) ltac:(int_lia)) as ((r & c' & E & H1 & _ & H3) & _).
  exists r, c'. split; [exact E|].
  assert (Hcl : cr_close_transport r = false).
  { apply (H3 eq_refl) with (m := 7); vm_compute; reflexivity. }
  split; [exact Hcl|]. apply H1; [exact Hcl|reflexivity].
Defined.

Lemma client_frames_numbered_witness :
  consecutive 1 [sample_hello_frame; mkFrame MtPing 0 2 [0; 0; 0; 0; 0; 0; 0; 7]].
Proof.
  apply (client_frames_numbered 1400 sample_client _ pinged); [int_lia|vm_compute; reflexivity|].
  exact pinged_run.
Defined.
