(* ===== verification/TunnelRouter.v ===== *)
(** * The router from TUN addresses to sessions

    Models src/core/tunnel_router.cpp: the registry of weak references from
    leased addresses to sessions ([TunnelPeer]s) and the delivery of packets
    read from the TUN device.  A peer is an identifier; [alive] is the set of
    peers whose shared object still exists, which the router does not
    control.  Every public operation runs under the router's mutex, except
    that a packet is handed to its peer after the lock is released. *)
From S2P Require Import Prelude Bytes Protocol ControlMessages Traffic.

Definition Peer := Z.

Record TunnelRouter := mkRouter {
  peers_ : gmap Z Peer;             (* unordered_map<uint32_t, weak_ptr> *)
  ipv6_peers_ : gmap (list Z) Peer  (* map<Ipv6Address, weak_ptr> *)
}.

Definition empty_router : TunnelRouter := mkRouter ∅ ∅.

Definition address_key (address : bytes) : Z := read_u32 address.

Section Registry.
Context `{Countable K}.

(** [weak_ptr::lock] *)
Definition lock (alive : gset Peer) (peer : Peer) : option Peer :=
  if decide (peer ∈ alive) then Some peer else None.

Definition register_in (alive : gset Peer) (peers : gmap K Peer) (key : K) (peer : option Peer)
  : bool * gmap K Peer :=
  match peer with
  | None => (false, peers)
  | Some peer =>
      match peers !! key with
      | Some existing =>
          match lock alive existing with
          | Some active => (bool_decide (active = peer), peers)
          | None => (true, <[key := peer]> (delete key peers))
          end
      | None => (true, <[key := peer]> peers)
      end
  end.

Definition unregister_in (alive : gset Peer) (peers : gmap K Peer) (key : K)
    (expected_peer : option Peer) : bool * gmap K Peer :=
  match expected_peer with
  | None => (false, peers)
  | Some expected =>
      match peers !! key with
      | None => (false, peers)
      | Some existing =>
          match lock alive existing with
          | Some active =>
              if negb (bool_decide (active = expected)) then (false, peers)
              else (true, delete key peers)
          | None => (true, delete key peers)
          end
      end
  end.

Definition find_in (alive : gset Peer) (peers : gmap K Peer) (key : K) : option Peer * gmap K Peer :=
  match peers !! key with
  | None => (None, peers)
  | Some existing =>
      match lock alive existing with
      | Some peer => (Some peer, peers)
      | None => (None, delete key peers)
      end
  end.

Definition remove_expired (alive : gset Peer) (peers : gmap K Peer) : gmap K Peer :=
  filter (fun kp => kp.2 ∈ alive) peers.
End Registry.

Definition register_peer (alive : gset Peer) (address : bytes) (peer : option Peer)
  : M TunnelRouter bool := fun r =>
  let '(ok, peers) := register_in alive (peers_ r) (address_key address) peer in
  (Ok ok, mkRouter peers (ipv6_peers_ r)).
Definition register_peer_v6 (alive : gset Peer) (address : bytes) (peer : option Peer)
  : M TunnelRouter bool := fun r =>
  let '(ok, peers) := register_in alive (ipv6_peers_ r) address peer in
  (Ok ok, mkRouter (peers_ r) peers).

Definition unregister_peer (alive : gset Peer) (address : bytes) (expected_peer : option Peer)
  : M TunnelRouter bool := fun r =>
  let '(ok, peers) := unregister_in alive (peers_ r) (address_key address) expected_peer in
  (Ok ok, mkRouter peers (ipv6_peers_ r)).
Definition unregister_peer_v6 (alive : gset Peer) (address : bytes) (expected_peer : option Peer)
  : M TunnelRouter bool := fun r =>
  let '(ok, peers) := unregister_in alive (ipv6_peers_ r) address expected_peer in
  (Ok ok, mkRouter (peers_ r) peers).

Definition find_peer (alive : gset Peer) (address : bytes) : M TunnelRouter (option Peer) := fun r =>
  let '(peer, peers) := find_in alive (peers_ r) (address_key address) in
  (Ok peer, mkRouter peers (ipv6_peers_ r)).

(** The peer whose [send_ipv4_from_tun] is called with the packet; [None] is
    the result [false]. *)
Definition route_ipv4_packet (alive : gset Peer) (packet : bytes) : M TunnelRouter (option Peer) :=
  if zlen packet <? 20 then ret None
  else
    let version := Z.shiftr (at_ packet 0) 4 in
    let header_size := Z.land (at_ packet 0) 15 * 4 in
    let total_size := be_length packet 2 in
    if negb (version =? 4) || (header_size <? 20) || (zlen packet <? header_size) ||
       negb (total_size =? zlen packet) then ret None
    else
      let destination := slice packet 16 4 in
      find_peer alive destination.

Definition route_ipv6_packet (alive : gset Peer) (packet : bytes) : M TunnelRouter (option Peer) :=
  if (zlen packet <? 40) || negb (Z.shiftr (at_ packet 0) 4 =? 6) then ret None
  else
    let payload_length := be_length packet 4 in
    if negb (payload_length + 40 =? zlen packet) then ret None
    else
      let destination := slice packet 24 16 in
      fun r =>
        let '(peer, peers) := find_in alive (ipv6_peers_ r) destination in
        (Ok peer, mkRouter (peers_ r) peers).

Definition active_routes (alive : gset Peer) : M TunnelRouter Z := fun r =>
  let peers := remove_expired alive (peers_ r) in
  let ipv6_peers := remove_expired alive (ipv6_peers_ r) in
  (Ok (Z.of_nat (size peers) + Z.of_nat (size ipv6_peers)), mkRouter peers ipv6_peers).

(** ** Specification *)

(** The peer that owns a route: the registered one while it lives. *)
Definition owner (alive : gset Peer) (r : TunnelRouter) (address : bytes) : option Peer :=
  peers_ r !! address_key address ≫= lock alive.
Definition owner_v6 (alive : gset Peer) (r : TunnelRouter) (address : bytes) : option Peer :=
  ipv6_peers_ r !! address ≫= lock alive.

(** A use of the router, or a change of the set of living peers: a peer is
    created with a fresh identifier, and lives until it is destroyed. *)
Inductive event :=
| Register (address : bytes) (peer : option Peer)
| RegisterV6 (address : bytes) (peer : option Peer)
| Unregister (address : bytes) (expected : option Peer)
| UnregisterV6 (address : bytes) (expected : option Peer)
| Find (address : bytes)
| Route (packet : bytes)
| RouteV6 (packet : bytes)
| Count
| Created (peer : Peer)
| Destroyed (peer : Peer).

Definition exec (e : event) (st : gset Peer * TunnelRouter) : gset Peer * TunnelRouter :=
  let '(alive, r) := st in
  match e with
  | Register a p => (alive, (register_peer alive a p r).2)
  | RegisterV6 a p => (alive, (register_peer_v6 alive a p r).2)
  | Unregister a p => (alive, (unregister_peer alive a p r).2)
  | UnregisterV6 a p => (alive, (unregister_peer_v6 alive a p r).2)
  | Find a => (alive, (find_peer alive a r).2)
  | Route p => (alive, (route_ipv4_packet alive p r).2)
  | RouteV6 p => (alive, (route_ipv6_packet alive p r).2)
  | Count => (alive, (active_routes alive r).2)
  | Created p => ({[p]} ∪ alive, r)
  | Destroyed p => (alive ∖ {[p]}, r)
  end.

Definition exec_all (es : list event) (st : gset Peer * TunnelRouter) : gset Peer * TunnelRouter :=
  fold_left (fun st e => exec e st) es st.

(** The addresses and packets are arrays and vectors of bytes. *)
Definition event_ok (e : event) : Prop :=
  match e with
  | Register a _ | Unregister a _ | Find a => is_array 4 a
  | Route p | RouteV6 p => is_bytes p
  | _ => True
  end.

(** Events that can end [p]'s ownership of the address [a]. *)
Definition ends (p : Peer) (a : bytes) (e : event) : Prop :=
  e = Destroyed p \/ e = Unregister a (Some p).
Definition ends_v6 (p : Peer) (a : bytes) (e : event) : Prop :=
  e = Destroyed p \/ e = UnregisterV6 a (Some p).

(** ** Lemmas *)

Section RegistryLemmas.
Context `{Countable K}.
Implicit Types (peers : gmap K Peer) (key : K).

Lemma lock_some alive p q : lock alive p = Some q <-> p = q /\ p ∈ alive.
Proof.
  unfold lock. case_decide; split; [intros [= <-]; auto|intros [<- _]; reflexivity
    |discriminate|intros [<- ?]; contradiction].
Qed.

(** Ownership after each registry operation: only a dead or absent route is
    replaced, and only the expected peer's route is removed. *)
Lemma register_owner alive peers key p key' :
  (register_in alive peers key p).2 !! key' ≫= lock alive =
  if decide (key = key') then
    match peers !! key ≫= lock alive with
    | Some q => Some q
    | None => p ≫= lock alive
    end
  else peers !! key' ≫= lock alive.
Proof.
  unfold register_in. destruct p as [p|]; cbn.
  - destruct (peers !! key) as [q|] eqn:E; cbn; [destruct (lock alive q) as [x|] eqn:El; cbn|].
    all: destruct (decide (key = key')) as [<-|Hne]; rewrite ?lookup_insert_eq, ?lookup_insert_ne,
      ?lookup_delete_ne by assumption; rewrite ?E; cbn; rewrite ?El; reflexivity.
  - destruct (decide (key = key')) as [<-|]; [|reflexivity].
    destruct (peers !! key ≫= lock alive); reflexivity.
Qed.

Lemma register_result alive peers key p :
  (register_in alive peers key (Some p)).1 = true <->
  peers !! key ≫= lock alive = None \/ peers !! key ≫= lock alive = Some p.
Proof.
  unfold register_in. destruct (peers !! key) as [q|]; cbn; [|intuition].
  destruct (lock alive q) as [x|]; cbn; [|intuition].
  rewrite bool_decide_eq_true. split; [intros ->; auto|intros [[=]|[= ->]]; reflexivity].
Qed.

Lemma unregister_owner alive peers key p key' :
  (unregister_in alive peers key p).2 !! key' ≫= lock alive =
  if decide (key = key') then
    (if decide (peers !! key ≫= lock alive = p) then None else peers !! key ≫= lock alive)
  else peers !! key' ≫= lock alive.
Proof.
  unfold unregister_in. destruct p as [p|]; cbn.
  - destruct (peers !! key) as [q|] eqn:E; cbn; [destruct (lock alive q) as [x|] eqn:El; cbn|].
    + case_bool_decide as Hx; cbn; destruct (decide (key = key')) as [<-|Hne];
        rewrite ?lookup_delete_eq, ?lookup_delete_ne by assumption; rewrite ?E; cbn; rewrite ?El; auto;
        first [rewrite decide_True by congruence; reflexivity
              |rewrite decide_False by congruence; reflexivity].
    + destruct (decide (key = key')) as [<-|Hne];
        rewrite ?lookup_delete_eq, ?lookup_delete_ne by assumption; cbn; auto.
    + destruct (decide (key = key')) as [<-|Hne]; rewrite ?E; cbn; [case_decide; reflexivity|reflexivity].
  - destruct (decide (key = key')) as [<-|]; [|reflexivity]. case_decide; congruence.
Qed.

Lemma find_owner alive peers key :
  (find_in alive peers key).1 = peers !! key ≫= lock alive /\
  forall key', (find_in alive peers key).2 !! key' ≫= lock alive = peers !! key' ≫= lock alive.
Proof.
  unfold find_in. destruct (peers !! key) as [q|] eqn:E; cbn; [|auto].
  destruct (lock alive q) as [x|] eqn:El; cbn; [auto|]. split; [reflexivity|].
  intros key'. destruct (decide (key = key')) as [<-|Hne].
  - rewrite lookup_delete_eq, E. cbn. auto.
  - rewrite lookup_delete_ne by assumption. reflexivity.
Qed.

Lemma remove_expired_owner alive peers key :
  remove_expired alive peers !! key ≫= lock alive = peers !! key ≫= lock alive.
Proof.
  unfold remove_expired. destruct (filter _ peers !! key) as [q|] eqn:E.
  - apply map_lookup_filter_Some in E as [-> _]. reflexivity.
  - apply map_lookup_filter_None in E as [->|E]; [reflexivity|].
    destruct (peers !! key) as [q|] eqn:Eq; [|reflexivity]. cbn.
    specialize (E q eq_refl). cbn in E. unfold lock. rewrite decide_False by assumption. reflexivity.
Qed.

Lemma remove_expired_lookup alive peers key :
  remove_expired alive peers !! key = peers !! key ≫= lock alive.
Proof.
  rewrite <- (remove_expired_owner alive). destruct (remove_expired alive peers !! key) as [q|] eqn:E; [|reflexivity].
  apply map_lookup_filter_Some in E as [_ E]. cbn in *. unfold lock. rewrite decide_True by assumption. reflexivity.
Qed.
End RegistryLemmas.

Lemma address_key_inj a b : is_array 4 a -> is_array 4 b -> address_key a = address_key b -> a = b.
Proof.
  intros (a0 & a1 & a2 & a3 & -> & ? & ? & ? & ?)%is_array_4.
  intros (b0 & b1 & b2 & b3 & -> & ? & ? & ? & ?)%is_array_4 E. unfold address_key in E.
  rewrite <- (be32_read a0 a1 a2 a3 []), E by byte_list. apply be32_read. byte_list.
Qed.

Lemma route_ipv4_eq alive packet r :
  is_bytes packet ->
  route_ipv4_packet alive packet r = find_peer alive (slice packet 16 4) r /\
    ipv4_packet (zlen packet) packet \/
  route_ipv4_packet alive packet r = (Ok None, r) /\ ~ ipv4_packet (zlen packet) packet.
Proof.
  intros Hb. unfold route_ipv4_packet.
  rewrite be_length_eq, version_eq, header_length_eq by (auto; lia). cbn zeta. change (2 + 1) with 3.
  if_next; [right; split; [reflexivity|intros [[? ?] _ _ _]; b2p; lia]|]. if_next.
  - right. split; [reflexivity|]. intros [[? ?] ? [? ?] ?]. b2p_all; lia.
  - left. split; [reflexivity|]. b2p. constructor; lia.
Qed.

(** The part of [route_ipv6_packet] under the lock. *)
Definition find_v6 (alive : gset Peer) (address : bytes) : M TunnelRouter (option Peer) := fun r =>
  let '(peer, peers) := find_in alive (ipv6_peers_ r) address in
  (Ok peer, mkRouter (peers_ r) peers).

Lemma route_ipv6_eq alive packet r :
  is_bytes packet ->
  route_ipv6_packet alive packet r = find_v6 alive (slice packet 24 16) r /\
    ipv6_packet (zlen packet) packet \/
  route_ipv6_packet alive packet r = (Ok None, r) /\ ~ ipv6_packet (zlen packet) packet.
Proof.
  intros Hb. unfold route_ipv6_packet.
  rewrite be_length_eq, version_eq by (auto; lia). cbn zeta. change (4 + 1) with 5.
  if_next; [right; split; [reflexivity|intros [[? ?] ? ?]; b2p_all; lia]|]. if_next.
  - right. split; [reflexivity|]. intros [[? ?] ? ?]. b2p_all; lia.
  - left. split; [reflexivity|]. b2p. constructor; lia.
Qed.

Lemma find_peer_owner alive a r :
  (find_peer alive a r).1 = Ok (owner alive r a) /\
  (forall b, owner alive (find_peer alive a r).2 b = owner alive r b) /\
  (forall b, owner_v6 alive (find_peer alive a r).2 b = owner_v6 alive r b).
Proof.
  unfold find_peer, owner, owner_v6. pose proof (find_owner alive (peers_ r) (address_key a)) as [H1 H2].
  destruct (find_in _ _ _) as [p m]. cbn in *. subst p. auto.
Qed.
Lemma find_v6_owner alive a r :
  (find_v6 alive a r).1 = Ok (owner_v6 alive r a) /\
  (forall b, owner alive (find_v6 alive a r).2 b = owner alive r b) /\
  (forall b, owner_v6 alive (find_v6 alive a r).2 b = owner_v6 alive r b).
Proof.
  unfold find_v6, owner, owner_v6. pose proof (find_owner alive (ipv6_peers_ r) a) as [H1 H2].
  destruct (find_in _ _ _) as [p m]. cbn in *. subst p. auto.
Qed.

Lemma route_ipv4_spec alive packet r :
  is_bytes packet ->
  (forall p, (route_ipv4_packet alive packet r).1 = Ok (Some p) <->
     ipv4_packet (zlen packet) packet /\ owner alive r (slice packet 16 4) = Some p) /\
  (forall b, owner alive (route_ipv4_packet alive packet r).2 b = owner alive r b) /\
  (forall b, owner_v6 alive (route_ipv4_packet alive packet r).2 b = owner_v6 alive r b).
Proof.
  intros Hb. destruct (route_ipv4_eq alive packet r Hb) as [[-> Hp]|[-> Hp]].
  - destruct (find_peer_owner alive (slice packet 16 4) r) as (-> & H1 & H2).
    split_goal; auto. intros p. split; [intros E%ok_inj; auto|intros [_ ->]; reflexivity].
  - split_goal; auto. intros p. split; [discriminate|intros [? _]; contradiction].
Qed.
Lemma route_ipv6_spec alive packet r :
  is_bytes packet ->
  (forall p, (route_ipv6_packet alive packet r).1 = Ok (Some p) <->
     ipv6_packet (zlen packet) packet /\ owner_v6 alive r (slice packet 24 16) = Some p) /\
  (forall b, owner alive (route_ipv6_packet alive packet r).2 b = owner alive r b) /\
  (forall b, owner_v6 alive (route_ipv6_packet alive packet r).2 b = owner_v6 alive r b).
Proof.
  intros Hb. destruct (route_ipv6_eq alive packet r Hb) as [[-> Hp]|[-> Hp]].
  - destruct (find_v6_owner alive (slice packet 24 16) r) as (-> & H1 & H2).
    split_goal; auto. intros p. split; [intros E%ok_inj; auto|intros [_ ->]; reflexivity].
  - split_goal; auto. intros p. split; [discriminate|intros [? _]; contradiction].
Qed.

Lemma register_peer_owner alive a p r b :
  owner alive (register_peer alive a p r).2 b =
  if decide (address_key a = address_key b)
  then match owner alive r a with Some q => Some q | None => p ≫= lock alive end
  else owner alive r b.
Proof.
  unfold register_peer, owner. rewrite <- register_owner. destruct (register_in _ _ _ _). reflexivity.
Qed.
Lemma register_peer_v6_owner alive a p r b :
  owner_v6 alive (register_peer_v6 alive a p r).2 b =
  if decide (a = b)
  then match owner_v6 alive r a with Some q => Some q | None => p ≫= lock alive end
  else owner_v6 alive r b.
Proof.
  unfold register_peer_v6, owner_v6. rewrite <- register_owner. destruct (register_in _ _ _ _). reflexivity.
Qed.
Lemma unregister_peer_owner alive a p r b :
  owner alive (unregister_peer alive a p r).2 b =
  if decide (address_key a = address_key b)
  then (if decide (owner alive r a = p) then None else owner alive r a) else owner alive r b.
Proof.
  unfold unregister_peer, owner. rewrite <- unregister_owner. destruct (unregister_in _ _ _ _). reflexivity.
Qed.
Lemma unregister_peer_v6_owner alive a p r b :
  owner_v6 alive (unregister_peer_v6 alive a p r).2 b =
  if decide (a = b)
  then (if decide (owner_v6 alive r a = p) then None else owner_v6 alive r a) else owner_v6 alive r b.
Proof.
  unfold unregister_peer_v6, owner_v6. rewrite <- unregister_owner. destruct (unregister_in _ _ _ _). reflexivity.
Qed.

Lemma owner_create alive q (m : option Peer) p :
  m ≫= lock alive = Some p -> m ≫= lock ({[q]} ∪ alive) = Some p.
Proof.
  destruct m as [x|]; [|discriminate]. cbn. rewrite !lock_some. intros [-> ?].
  split; [reflexivity|]. apply elem_of_union_r. assumption.
Qed.
Lemma owner_destroy alive q (m : option Peer) p :
  p <> q -> m ≫= lock alive = Some p -> m ≫= lock (alive ∖ {[q]}) = Some p.
Proof.
  intros Hne. destruct m as [x|]; [|discriminate]. cbn. rewrite !lock_some. intros [-> ?].
  split; [reflexivity|]. apply elem_of_difference. split; [assumption|].
  rewrite elem_of_singleton. assumption.
Qed.

(** One event keeps an owner that it does not end. *)
Lemma exec_owner e alive r a p :
  event_ok e -> is_array 4 a -> owner alive r a = Some p -> ~ ends p a e ->
  owner (exec e (alive, r)).1 (exec e (alive, r)).2 a = Some p.
Proof.
  intros He Ha Ho Hn. destruct e as [b q|b q|b q|b q|b|pkt|pkt| |q|q]; cbn [exec fst snd].
  - rewrite register_peer_owner. case_decide as E; [|assumption].
    apply address_key_inj in E as ->; [|assumption..]. rewrite Ho. reflexivity.
  - unfold register_peer_v6. destruct (register_in _ _ _ _). exact Ho.
  - rewrite unregister_peer_owner. case_decide as E; [|assumption].
    apply address_key_inj in E as ->; [|assumption..]. rewrite Ho.
    case_decide as Eq; [|reflexivity]. destruct Hn. right. congruence.
  - unfold unregister_peer_v6. destruct (unregister_in _ _ _ _). exact Ho.
  - destruct (find_peer_owner alive b r) as (_ & H & _). rewrite H. assumption.
  - destruct (route_ipv4_spec alive pkt r He) as (_ & H & _). rewrite H. assumption.
  - destruct (route_ipv6_spec alive pkt r He) as (_ & H & _). rewrite H. assumption.
  - unfold owner. cbn. rewrite remove_expired_owner. assumption.
  - apply owner_create. assumption.
  - apply owner_destroy; [|assumption]. intros ->. apply Hn. left. reflexivity.
Qed.

Lemma exec_owner_v6 e alive r a p :
  event_ok e -> owner_v6 alive r a = Some p -> ~ ends_v6 p a e ->
  owner_v6 (exec e (alive, r)).1 (exec e (alive, r)).2 a = Some p.
Proof.
  intros He Ho Hn. destruct e as [b q|b q|b q|b q|b|pkt|pkt| |q|q]; cbn [exec fst snd].
  - unfold register_peer. destruct (register_in _ _ _ _). exact Ho.
  - rewrite register_peer_v6_owner. case_decide as E; [|assumption]. subst b. rewrite Ho. reflexivity.
  - unfold unregister_peer. destruct (unregister_in _ _ _ _). exact Ho.
  - rewrite unregister_peer_v6_owner. case_decide as E; [|assumption]. subst b. rewrite Ho.
    case_decide as Eq; [|reflexivity]. destruct Hn. right. congruence.
  - destruct (find_peer_owner alive b r) as (_ & _ & H). rewrite H. assumption.
  - destruct (route_ipv4_spec alive pkt r He) as (_ & _ & H). rewrite H. assumption.
  - destruct (route_ipv6_spec alive pkt r He) as (_ & _ & H). rewrite H. assumption.
  - unfold owner_v6. cbn. rewrite remove_expired_owner. assumption.
  - apply owner_create. assumption.
  - apply owner_destroy; [|assumption]. intros ->. apply Hn. left. reflexivity.
Qed.

Lemma exec_all_keeps (P : gset Peer * TunnelRouter -> Prop) (Q : event -> Prop) :
  (forall e alive r, event_ok e -> Q e -> P (alive, r) -> P (exec e (alive, r))) ->
  forall es st, Forall (fun e => event_ok e /\ Q e) es -> P st -> P (exec_all es st).
Proof.
  intros Hstep es. induction es as [|e es IH]; intros [alive r] Hes HP; [exact HP|].
  apply Forall_cons in Hes as [[He Hq] Hes]. apply IH; [assumption|]. apply Hstep; assumption.
Qed.

(** ** Properties *)

(** a packet from the TUN device goes to a session exactly when it is a
    well-formed IPv4 or IPv6 packet whose destination address is registered
    to a session that is still alive, and then to that session; routing never
    changes who owns an address, and [active_routes] counts exactly the
    addresses with a live owner. *)
Theorem routing_exact alive r packet p :
  is_bytes packet ->
  ((route_ipv4_packet alive packet r).1 = Ok (Some p) <->
     ipv4_packet (zlen packet) packet /\ owner alive r (slice packet 16 4) = Some p) /\
  ((route_ipv6_packet alive packet r).1 = Ok (Some p) <->
     ipv6_packet (zlen packet) packet /\ owner_v6 alive r (slice packet 24 16) = Some p) /\
  (forall a, owner alive (route_ipv4_packet alive packet r).2 a = owner alive r a /\
     owner_v6 alive (route_ipv6_packet alive packet r).2 a = owner_v6 alive r a) /\
  exists (v4 : gmap Z Peer) (v6 : gmap (list Z) Peer),
    (forall a, v4 !! address_key a = owner alive r a) /\ (forall a, v6 !! a = owner_v6 alive r a) /\
    (active_routes alive r).1 = Ok (Z.of_nat (size v4) + Z.of_nat (size v6)).
Proof.
  intros Hb. destruct (route_ipv4_spec alive packet r Hb) as (H4 & O4 & _).
  destruct (route_ipv6_spec alive packet r Hb) as (H6 & _ & O6).
  split; [apply H4|]. split; [apply H6|]. split; [auto|].
  exists (remove_expired alive (peers_ r)), (remove_expired alive (ipv6_peers_ r)).
  split; [|split; [|reflexivity]]; intros a; apply remove_expired_lookup.
Qed.

(** A live session keeps the addresses it owns, whatever else happens:
    other sessions cannot register them, a late unregistration by another
    session does not remove them, and packets keep reaching their owner,
    until the session itself unregisters or is destroyed. *)
Theorem route_ownership es alive r a p packet :
  is_array 4 a -> owner alive r a = Some p ->
  Forall (fun e => event_ok e /\ ~ ends p a e) es ->
  let alive' := (exec_all es (alive, r)).1 in
  let r' := (exec_all es (alive, r)).2 in
  owner alive' r' a = Some p /\
  (forall q, (register_peer alive' a (Some q) r').1 = Ok true <-> q = p) /\
  (forall q, q <> p -> (unregister_peer alive' a (Some q) r').1 = Ok false) /\
  (is_bytes packet -> ipv4_packet (zlen packet) packet -> slice packet 16 4 = a ->
   (route_ipv4_packet alive' packet r').1 = Ok (Some p)).
Proof.
  intros Ha Ho Hes alive' r'.
  assert (Ho' : owner alive' r' a = Some p).
  { apply (exec_all_keeps (fun st => owner st.1 st.2 a = Some p) (fun e => ~ ends p a e));
      [|exact Hes|exact Ho].
    intros e al ro He Hn Hp. apply exec_owner; assumption. }
  split; [exact Ho'|]. split; [|split].
  - intros q. pose proof (register_result alive' (peers_ r') (address_key a) q) as Hr.
    unfold owner in Ho'. unfold register_peer. destruct (register_in _ _ _ _) as [ok m]. cbn in *.
    rewrite Ho' in Hr. split; [intros ->%ok_inj|intros ->; f_equal].
    + destruct Hr as [Hr _]. destruct (Hr eq_refl) as [[=]|[=]]. congruence.
    + apply Hr. auto.
  - intros q Hq. unfold owner in Ho'. unfold unregister_peer, unregister_in.
    destruct (peers_ r' !! address_key a) as [x|]; [|discriminate]. cbn in Ho'. rewrite Ho'.
    rewrite bool_decide_eq_false_2 by congruence. reflexivity.
  - intros Hb Hp <-. apply route_ipv4_spec; auto.
Qed.

(** Two sessions; the second tries to take and to remove the first one's route. *)
Definition route_packet : bytes := [69; 0; 0; 20] ++ zeros 8 ++ [10; 8; 0; 1] ++ [10; 8; 0; 2].
Definition attack : list event :=
  [Created 2; Register [10; 8; 0; 2] (Some 2); Unregister [10; 8; 0; 2] (Some 2); Destroyed 2; Count].
Definition one_route : TunnelRouter := (register_peer {[1]} [10; 8; 0; 2] (Some 1) empty_router).2.

Lemma routing_exact_witness :
  (route_ipv4_packet {[1]} route_packet one_route).1 = Ok (Some 1) /\
  owner {[1]} one_route [10; 8; 0; 2] = Some 1.
Proof.
  destruct (routing_exact {[1]} one_route route_packet 1 ltac:(decide_prop)) as (H & _).
  assert (E : (route_ipv4_packet {[1]} route_packet one_route).1 = Ok (Some 1))
    by (vm_compute; reflexivity).
  split; [exact E|]. apply H in E as [_ E]. exact E.
Defined.

Lemma route_ownership_witness :
  owner (exec_all attack ({[1]}, one_route)).1 (exec_all attack ({[1]}, one_route)).2 [10; 8; 0; 2] = Some 1.
Proof.
  apply (route_ownership attack {[1]} one_route [10; 8; 0; 2] 1 route_packet).
  - split; [decide_prop|reflexivity].
  - vm_compute. reflexivity.
  - unfold attack, ends. repeat (apply Forall_cons; split; [|]); try apply Forall_nil; try exact I;
      split; try exact I; try (split; [decide_prop|reflexivity]); intros [H|H]; discriminate H.
Defined.
