(* ===== verification/OutboundQueue.v ===== *)
(** * The bounded queue of outgoing frames

    Models src/core/outbound_frame_queue.cpp: encoded frames waiting for the
    TLS stream, bounded in number and in bytes. *)
From S2P Require Import Prelude Bytes Protocol.

Record OutboundFrameQueue := mkQueue {
  maximum_frames_ : Z;
  maximum_bytes_ : Z;
  queued_bytes_ : Z;
  queue_ : list bytes
}.

Definition make_queue (maximum_frames maximum_bytes : Z) : outcome OutboundFrameQueue :=
  if (maximum_frames =? 0) || (maximum_bytes <? kHeaderSize)
  then Throw (InvalidArgument "outbound queue limits must allow at least one frame header")
  else Ok (mkQueue maximum_frames maximum_bytes 0 []).

(** The subtraction and the additions are on [std::size_t]. *)
Definition try_enqueue_buffer (encoded_frame : bytes) : M OutboundFrameQueue bool := fun q =>
  if zlen encoded_frame =? 0 then
    (Throw (InvalidArgument "outbound queue cannot contain an empty encoded frame"), q)
  else if (maximum_frames_ q <=? zlen (queue_ q)) ||
          (u64 (maximum_bytes_ q - queued_bytes_ q) <? zlen encoded_frame) then (Ok false, q)
  else
    (Ok true, mkQueue (maximum_frames_ q) (maximum_bytes_ q)
                (u64 (queued_bytes_ q + zlen encoded_frame)) (queue_ q ++ [encoded_frame])).

Definition try_enqueue (frame : Frame) : M OutboundFrameQueue bool :=
  let* encoded := lift (encode_frame frame) in
  try_enqueue_buffer encoded.

Definition front (q : OutboundFrameQueue) : outcome bytes :=
  match queue_ q with
  | [] => Throw (LogicError "outbound queue is empty")
  | buffer :: _ => Ok buffer
  end.

Definition pop_front : M OutboundFrameQueue unit := fun q =>
  match queue_ q with
  | [] => (Throw (LogicError "outbound queue is empty"), q)
  | buffer :: rest =>
      (Ok tt, mkQueue (maximum_frames_ q) (maximum_bytes_ q)
                (u64 (queued_bytes_ q - zlen buffer)) rest)
  end.

Definition clear : M OutboundFrameQueue unit := fun q =>
  (Ok tt, mkQueue (maximum_frames_ q) (maximum_bytes_ q) 0 []).

Definition queue_empty (q : OutboundFrameQueue) : bool := zlen (queue_ q) =? 0.

(** ** Specification *)

Fixpoint total (l : list bytes) : Z :=
  match l with [] => 0 | b :: l' => zlen b + total l' end.

(** The counters are those of the queued frames, and within the limits. *)
Record queue_ok (q : OutboundFrameQueue) : Prop := {
  qo_frames : zlen (queue_ q) <= maximum_frames_ q;
  qo_bytes : queued_bytes_ q = total (queue_ q);
  qo_limit : total (queue_ q) <= maximum_bytes_ q < 2 ^ 64;
  qo_nonempty : Forall (fun b => 0 < zlen b) (queue_ q)
}.

(** A use of the queue: the frames it took in, and the frames taken out or
    dropped by [clear]. *)
Inductive queue_run : OutboundFrameQueue -> list bytes -> list bytes -> OutboundFrameQueue -> Prop :=
| qr_nil q : queue_run q [] [] q
| qr_enqueue frame q b q1 ins outs q2 :
    try_enqueue frame q = (Ok b, q1) -> queue_run q1 ins outs q2 ->
    queue_run q ((if b then [match encode_frame frame with Ok e => e | Throw _ => [] end] else []) ++ ins)
      outs q2
| qr_pop q buffer q1 ins outs q2 :
    front q = Ok buffer -> pop_front q = (Ok tt, q1) -> queue_run q1 ins outs q2 ->
    queue_run q ins (buffer :: outs) q2
| qr_clear q q1 ins outs q2 :
    clear q = (Ok tt, q1) -> queue_run q1 ins outs q2 -> queue_run q ins (queue_ q ++ outs) q2.

(** ** Lemmas *)

Lemma total_app l k : total (l ++ k) = total l + total k.
Proof. induction l as [|b l IH]; cbn; [reflexivity|]. rewrite IH. lia. Qed.
Lemma total_nonneg l : 0 <= total l.
Proof. induction l as [|b l IH]; cbn; [lia|]. pose proof (zlen_nonneg b). lia. Qed.

Lemma try_enqueue_buffer_spec e q :
  queue_ok q -> zlen e <> 0 ->
  let fits := zlen (queue_ q) < maximum_frames_ q /\ total (queue_ q) + zlen e <= maximum_bytes_ q in
  (fits -> try_enqueue_buffer e q =
     (Ok true, mkQueue (maximum_frames_ q) (maximum_bytes_ q) (total (queue_ q) + zlen e) (queue_ q ++ [e]))) /\
  (~ fits -> try_enqueue_buffer e q = (Ok false, q)).
Proof.
  intros [Hf Hb Hl Hn] He fits. unfold try_enqueue_buffer.
  pose proof (total_nonneg (queue_ q)). pose proof (zlen_nonneg e).
  rewrite (proj2 (Z.eqb_neq (zlen e) 0)) by assumption.
  rewrite Hb, (u64_id (_ - _)) by int_lia. subst fits. split; intros Hx; if_next; b2p_all; try lia.
  - rewrite u64_id by int_lia. reflexivity.
  - reflexivity.
  - reflexivity.
Qed.

Lemma enqueued_ok e q :
  queue_ok q -> 0 < zlen e -> zlen (queue_ q) < maximum_frames_ q ->
  total (queue_ q) + zlen e <= maximum_bytes_ q ->
  queue_ok (mkQueue (maximum_frames_ q) (maximum_bytes_ q) (total (queue_ q) + zlen e) (queue_ q ++ [e])).
Proof.
  intros [Hf Hb Hl Hn] He H1 H2. constructor; cbn.
  - rewrite zlen_app, zlen_cons, zlen_nil. lia.
  - rewrite total_app. cbn. lia.
  - rewrite total_app. cbn. lia.
  - apply Forall_app. auto.
Qed.

Lemma encode_frame_nonempty f e : encode_frame f = Ok e -> 0 < zlen e.
Proof.
  unfold encode_frame. repeat (if_next; [discriminate|]). intros <-%ok_inj.
  unfold push_back. rewrite append_u32_eq, append_u16_eq, append_u32_eq, append_u64_eq, !zlen_app.
  pose proof (zlen_nonneg (f_payload f)). unfold be16, be32, be64, zlen in *. cbn [length]. lia.
Qed.

Lemma pop_front_eq b rest q :
  queue_ok q -> queue_ q = b :: rest ->
  pop_front q = (Ok tt, mkQueue (maximum_frames_ q) (maximum_bytes_ q) (total rest) rest).
Proof.
  intros [_ Hb Hl _] E. unfold pop_front. rewrite E, Hb in *. cbn [total] in *.
  pose proof (total_nonneg rest). pose proof (zlen_nonneg b).
  rewrite u64_id by int_lia. repeat f_equal. lia.
Qed.

Lemma popped_ok b rest q :
  queue_ok q -> queue_ q = b :: rest ->
  queue_ok (mkQueue (maximum_frames_ q) (maximum_bytes_ q) (total rest) rest).
Proof.
  intros [Hf Hb Hl Hn] E. rewrite E in *. cbn [total] in *. rewrite zlen_cons in Hf.
  pose proof (zlen_nonneg b). apply Forall_cons in Hn as [_ Hn]. constructor; cbn; auto; lia.
Qed.

Lemma try_enqueue_eq f q :
  try_enqueue f q = match encode_frame f with
                    | Ok e => try_enqueue_buffer e q
                    | Throw x => (Throw x, q)
                    end.
Proof. unfold try_enqueue, bind, lift. destruct (encode_frame f); reflexivity. Qed.

(** The frames taken in are those taken out followed by those still queued. *)
Lemma queue_run_ok q ins outs q' :
  queue_run q ins outs q' -> queue_ok q ->
  queue_ok q' /\ queue_ q ++ ins = outs ++ queue_ q' /\
  maximum_frames_ q' = maximum_frames_ q /\ maximum_bytes_ q' = maximum_bytes_ q.
Proof.
  induction 1 as [q|frame q b q1 ins outs q2 E _ IH|q buffer q1 ins outs q2 Ef E _ IH|q q1 ins outs q2 E _ IH];
    intros Hq.
  - rewrite app_nil_r. auto.
  - rewrite try_enqueue_eq in E. destruct (encode_frame frame) as [e|] eqn:Ee; [|discriminate].
    pose proof (encode_frame_nonempty _ _ Ee) as He.
    destruct (try_enqueue_buffer_spec e q Hq ltac:(lia)) as [Hy Hn].
    destruct (decide (zlen (queue_ q) < maximum_frames_ q /\ total (queue_ q) + zlen e <= maximum_bytes_ q))
      as [Hfit|Hfit].
    + rewrite (Hy Hfit) in E. injection E as <- <-. destruct Hfit as [H1 H2].
      destruct (IH (enqueued_ok e q Hq He H1 H2)) as (Hok & Hfifo & Hmf & Hmb). cbn in Hfifo, Hmf, Hmb.
      rewrite <- Hfifo, <- app_assoc. auto.
    + rewrite (Hn Hfit) in E. injection E as <- <-. apply IH. assumption.
  - unfold front in Ef. destruct (queue_ q) as [|x rest] eqn:Eq; [discriminate|]. apply ok_inj in Ef as ->.
    rewrite (pop_front_eq buffer rest q Hq Eq) in E. injection E as <-.
    destruct (IH (popped_ok buffer rest q Hq Eq)) as (Hok & Hfifo & Hmf & Hmb). cbn in Hfifo, Hmf, Hmb.
    cbn [app]. rewrite Hfifo. auto.
  - injection E as <-. destruct Hq as [Hf Hb Hl Hn].
    assert (H0 : queue_ok (mkQueue (maximum_frames_ q) (maximum_bytes_ q) 0 [])).
    { pose proof (total_nonneg (queue_ q)). pose proof (zlen_nonneg (queue_ q)).
      constructor; cbn; auto; rewrite ?zlen_nil; lia. }
    destruct (IH H0) as (Hok & Hfifo & Hmf & Hmb). cbn in Hfifo, Hmf, Hmb.
    rewrite <- app_assoc, <- Hfifo. auto.
Qed.

(** ** Properties *)

(** C12: the queue is a bounded FIFO.  Over any use since it was constructed,
    the frames accepted are, in order and unchanged, the frames taken out or
    dropped followed by the frames still queued; there are never more than
    the maximum number of frames nor more than the maximum number of bytes
    queued, the byte counter is exact and never wraps, and a frame is accepted
    exactly when it fits within both limits. *)
Theorem queue_refines_fifo mf mb q0 ins outs q :
  in_u64 mf -> in_u64 mb -> make_queue mf mb = Ok q0 -> queue_run q0 ins outs q ->
  ins = outs ++ queue_ q /\
  zlen (queue_ q) <= mf /\ queued_bytes_ q = total (queue_ q) /\ total (queue_ q) <= mb /\
  forall f e, encode_frame f = Ok e ->
    ((try_enqueue f q).1 = Ok true <-> zlen (queue_ q) < mf /\ total (queue_ q) + zlen e <= mb) /\
    ((try_enqueue f q).1 = Ok true \/ try_enqueue f q = (Ok false, q)).
Proof.
  unfold make_queue. intros Hmf Hmb Hm Hr. destruct (_ || _)%bool eqn:E in Hm; [discriminate|]. apply ok_inj in Hm as <-. b2p.
  assert (Hq0 : queue_ok (mkQueue mf mb 0 [])).
  { constructor; cbn; auto; rewrite ?zlen_nil; unfold kHeaderSize in *; int_lia. }
  destruct (queue_run_ok _ _ _ _ Hr Hq0) as (Hok & Hfifo & Ef & Eb). cbn in Hfifo, Ef, Eb.
  pose proof Hok as [Hf Hb Hl _]. rewrite Ef in Hf. rewrite Eb in Hl. split_goal; auto; try lia.
  intros f e He. rewrite try_enqueue_eq, He.
  destruct (try_enqueue_buffer_spec e q Hok) as [Hy Hn]; [pose proof (encode_frame_nonempty _ _ He); lia|].
  rewrite Ef, Eb in *.
  destruct (decide (zlen (queue_ q) < mf /\ total (queue_ q) + zlen e <= mb)) as [Hfit|Hfit].
  - rewrite (Hy Hfit). cbn. tauto.
  - rewrite (Hn Hfit). cbn. split; [|auto]. split; [discriminate|contradiction].
Qed.

Definition close_frame : Frame := mkFrame MtClose 0 1 [0; 0].
Definition small_queue : OutboundFrameQueue := mkQueue 1 100 0 [].

Lemma queue_refines_fifo_witness :
  exists e, encode_frame close_frame = Ok e /\
    (try_enqueue close_frame (try_enqueue close_frame small_queue).2) =
      (Ok false, (try_enqueue close_frame small_queue).2).
Proof.
  destruct (encode_frame close_frame) as [e|x] eqn:E; [|vm_compute in E; discriminate].
  exists e. split; [reflexivity|].
  destruct (queue_refines_fifo 1 100 small_queue [e] [] (try_enqueue close_frame small_queue).2)
    as (_ & _ & _ & _ & H); [int_lia|int_lia|reflexivity| |].
  - pose proof (qr_enqueue close_frame small_queue true (try_enqueue close_frame small_queue).2 [] []
      (try_enqueue close_frame small_queue).2) as Hs. rewrite E in Hs.
    apply Hs; [vm_compute; reflexivity|apply qr_nil].
  - destruct (H close_frame e E) as [_ [Hx|Hx]]; [vm_compute in Hx; discriminate|exact Hx].
Defined.
