(* ===== verification/NetworkTransaction.v ===== *)
(** * The client's network configuration as a transaction

    Models src/core/client_network_transaction.cpp and its header: opening
    the adapter, starting the packet session, adding the assigned addresses,
    setting the MTU and adding the routes, with a rollback that undoes
    exactly what this process created.  The operating system is behind the
    class [ClientNetworkBackend], a typeclass here; an in-memory network
    implements it at the end of the file. *)
From S2P Require Import Prelude Bytes ControlMessages Address.

Record InterfaceAddress := mkInterfaceAddress { ifa_address : bytes; ifa_prefix_length : Z }.
Record Ipv6InterfaceAddress := mkIpv6InterfaceAddress { ifa6_address : bytes; ifa6_prefix_length : Z }.
Record Ipv4Route := mkIpv4Route { r4_network : bytes; r4_prefix_length : Z; r4_gateway : bytes }.
Record Ipv6Route := mkIpv6Route { r6_network : bytes; r6_prefix_length : Z; r6_gateway : bytes }.
Record InterfaceMtuSnapshot := mkMtuSnapshot { mtu_ipv4 : Z; mtu_ipv6 : Z }.

(** [std::variant<Ipv4Route, Ipv6Route>] *)
Inductive Route := RouteV4 (r : Ipv4Route) | RouteV6 (r : Ipv6Route).

#[export] Instance InterfaceAddress_eq_dec : EqDecision InterfaceAddress.
Proof. solve_decision. Defined.
#[export] Instance Ipv6InterfaceAddress_eq_dec : EqDecision Ipv6InterfaceAddress.
Proof. solve_decision. Defined.
#[export] Instance Ipv4Route_eq_dec : EqDecision Ipv4Route.
Proof. solve_decision. Defined.
#[export] Instance Ipv6Route_eq_dec : EqDecision Ipv6Route.
Proof. solve_decision. Defined.
#[export] Instance InterfaceMtuSnapshot_eq_dec : EqDecision InterfaceMtuSnapshot.
Proof. solve_decision. Defined.
#[export] Instance Route_eq_dec : EqDecision Route.
Proof. solve_decision. Defined.

(** The virtual methods; the undoing ones are [noexcept]. *)
Class ClientNetworkBackend (N : Type) := {
  open_adapter : M N unit;
  start_packet_session : M N unit;
  add_interface_address : InterfaceAddress -> M N bool;
  add_interface_address_v6 : Ipv6InterfaceAddress -> M N bool;
  set_interface_mtu : Z -> M N (option InterfaceMtuSnapshot);
  add_route : Route -> M N bool;
  remove_route : Route -> N -> N;
  restore_interface_mtu : InterfaceMtuSnapshot -> N -> N;
  remove_interface_address : InterfaceAddress -> N -> N;
  remove_interface_address_v6 : Ipv6InterfaceAddress -> N -> N;
  stop_packet_session : N -> N;
  close_adapter : N -> N
}.

Record ClientNetworkTransaction := mkTransaction {
  address_ : InterfaceAddress;
  ipv6_address_ : option Ipv6InterfaceAddress;
  created_routes_ : list Route;
  prior_mtu_ : option InterfaceMtuSnapshot;
  adapter_open_ : bool;
  session_started_ : bool;
  address_created_ : bool;
  ipv6_address_created_ : bool;
  active_ : bool
}.

Definition make_transaction : ClientNetworkTransaction :=
  mkTransaction (mkInterfaceAddress (zeros 4) 0) None [] None false false false false false.

(** ** Routes *)

(** [prefix_text] with the whole text a number in range, or [None]. *)
Definition parse_prefix (maximum : Z) (text : bytes) : option Z :=
  match from_chars_all (2 ^ 16 - 1) text with
  | Some prefix => if maximum <? prefix then None else Some prefix
  | None => None
  end.

Definition parse_route (cidr : string) (gateway : bytes) : outcome Ipv4Route :=
  let text := string_bytes cidr in
  match find text 47 0 with
  | None => Throw (InvalidArgument "route must use IPv4 CIDR notation")
  | Some slash =>
      if (slash =? 0) || (zlen text <=? slash + 1)
      then Throw (InvalidArgument "route must use IPv4 CIDR notation")
      else
        let prefix_text := drop (Z.to_nat (slash + 1)) text in
        match parse_prefix 32 prefix_text with
        | None => Throw (InvalidArgument "route prefix is out of range")
        | Some prefix =>
            let? network := parse_ipv4_address (bytes_string (slice text 0 slash)) in
            Ok (mkIpv4Route network (u8 prefix) gateway)
        end
  end.

(** One iteration of the loop that clears the host bits. *)
Definition clear_bit (canonical : bytes) (bit : Z) : bytes :=
  alter (fun v => u8 (Z.land v (u8 (Z.lnot (Z.shiftl 1 (7 - bit mod 8))))))
    (Z.to_nat (bit / 8)) canonical.
(** [for (bit = prefix; bit < 128U; ++bit)] *)
Definition clear_host_bits (network : bytes) (prefix : Z) : bytes :=
  fold_left clear_bit (seqZ prefix (128 - prefix)) network.

Section Transaction.
Context `{IpLibrary}.

Definition parse_route_v6 (cidr : string) (gateway : bytes) : outcome Ipv6Route :=
  let text := string_bytes cidr in
  match find text 47 0 with
  | None => Throw (InvalidArgument "route must use IPv6 CIDR notation")
  | Some slash =>
      if (slash =? 0) || (zlen text <=? slash + 1)
      then Throw (InvalidArgument "route must use IPv6 CIDR notation")
      else
        let prefix_text := drop (Z.to_nat (slash + 1)) text in
        match parse_prefix 128 prefix_text with
        | None => Throw (InvalidArgument "IPv6 route prefix is out of range")
        | Some prefix =>
            let? network := parse_ipv6_address (bytes_string (slice text 0 slash)) in
            let canonical := clear_host_bits network prefix in
            let? _ := reject_if (negb (bool_decide (network = canonical)))
              (InvalidArgument "IPv6 route address must be canonical network address") in
            Ok (mkIpv6Route network (u8 prefix) gateway)
        end
  end.

(** The branch on [cidr.find(':')]. *)
Definition parse_any_route (a : IpAssignment) (cidr : string) : outcome Route :=
  match find (string_bytes cidr) 58 0 with
  | Some _ => let? r := parse_route_v6 cidr (gateway_ipv6_address a) in Ok (RouteV6 r)
  | None => let? r := parse_route cidr (gateway_address a) in Ok (RouteV4 r)
  end.

Context {N : Type} `{ClientNetworkBackend N}.
Abbreviation St := (N * ClientNetworkTransaction)%type.

Definition backend {A} (m : M N A) : M St A := fun '(s, t) =>
  let '(r, s') := m s in (r, (s', t)).
(** A [noexcept] method of the backend. *)
Definition backend_undo (f : N -> N) : M St unit := fun '(s, t) => (Ok tt, (f s, t)).
Definition transaction : M St ClientNetworkTransaction := fun st => (Ok st.2, st).
Definition put (t : ClientNetworkTransaction) : M St unit := fun '(s, _) => (Ok tt, (s, t)).

Definition set_adapter_open (b : bool) (t : ClientNetworkTransaction) :=
  mkTransaction (address_ t) (ipv6_address_ t) (created_routes_ t) (prior_mtu_ t) b
    (session_started_ t) (address_created_ t) (ipv6_address_created_ t) (active_ t).
Definition set_session_started (b : bool) (t : ClientNetworkTransaction) :=
  mkTransaction (address_ t) (ipv6_address_ t) (created_routes_ t) (prior_mtu_ t) (adapter_open_ t) b
    (address_created_ t) (ipv6_address_created_ t) (active_ t).
Definition set_address_created (b : bool) (t : ClientNetworkTransaction) :=
  mkTransaction (address_ t) (ipv6_address_ t) (created_routes_ t) (prior_mtu_ t) (adapter_open_ t)
    (session_started_ t) b (ipv6_address_created_ t) (active_ t).
Definition set_ipv6_address_created (b : bool) (t : ClientNetworkTransaction) :=
  mkTransaction (address_ t) (ipv6_address_ t) (created_routes_ t) (prior_mtu_ t) (adapter_open_ t)
    (session_started_ t) (address_created_ t) b (active_ t).
Definition set_prior_mtu (m : option InterfaceMtuSnapshot) (t : ClientNetworkTransaction) :=
  mkTransaction (address_ t) (ipv6_address_ t) (created_routes_ t) m (adapter_open_ t)
    (session_started_ t) (address_created_ t) (ipv6_address_created_ t) (active_ t).
Definition set_created_routes (rs : list Route) (t : ClientNetworkTransaction) :=
  mkTransaction (address_ t) (ipv6_address_ t) rs (prior_mtu_ t) (adapter_open_ t)
    (session_started_ t) (address_created_ t) (ipv6_address_created_ t) (active_ t).
Definition set_active (b : bool) (t : ClientNetworkTransaction) :=
  mkTransaction (address_ t) (ipv6_address_ t) (created_routes_ t) (prior_mtu_ t) (adapter_open_ t)
    (session_started_ t) (address_created_ t) (ipv6_address_created_ t) b.
Definition set_addresses (a : InterfaceAddress) (a6 : option Ipv6InterfaceAddress)
    (t : ClientNetworkTransaction) :=
  mkTransaction a a6 (created_routes_ t) (prior_mtu_ t) (adapter_open_ t)
    (session_started_ t) (address_created_ t) (ipv6_address_created_ t) (active_ t).
Definition update (f : ClientNetworkTransaction -> ClientNetworkTransaction) : M St unit :=
  let* t := transaction in put (f t).

Fixpoint remove_routes (routes : list Route) : M St unit :=
  match routes with
  | [] => ret tt
  | route :: routes' => let* _ := backend_undo (remove_route route) in remove_routes routes'
  end.

Definition rollback : M St unit :=
  let* _ := update (set_active false) in
  let* t := transaction in
  let* _ := remove_routes (rev (created_routes_ t)) in
  let* _ := update (set_created_routes []) in
  let* _ := match prior_mtu_ t with
            | Some prior => let* _ := backend_undo (restore_interface_mtu prior) in
                            update (set_prior_mtu None)
            | None => ret tt
            end in
  let* _ := match ipv6_address_created_ t, ipv6_address_ t with
            | true, Some a => let* _ := backend_undo (remove_interface_address_v6 a) in
                              update (set_ipv6_address_created false)
            | _, _ => ret tt
            end in
  let* _ := if address_created_ t then
              let* _ := backend_undo (remove_interface_address (address_ t)) in
              update (set_address_created false)
            else ret tt in
  let* _ := if session_started_ t then
              let* _ := backend_undo stop_packet_session in update (set_session_started false)
            else ret tt in
  let* _ := if adapter_open_ t then
              let* _ := backend_undo close_adapter in update (set_adapter_open false)
            else ret tt in
  update (fun t => set_addresses (address_ t) None t).

Fixpoint add_routes (a : IpAssignment) (cidrs : list string) : M St unit :=
  match cidrs with
  | [] => ret tt
  | cidr :: cidrs' =>
      let* route := lift (parse_any_route a cidr) in
      let* created := backend (add_route route) in
      let* _ := if created : bool
                then update (fun t => set_created_routes (created_routes_ t ++ [route]) t)
                else ret tt in
      add_routes a cidrs'
  end.

(** The body of the [try] block. *)
Definition setup (a : IpAssignment) (cidrs : list string) : M St unit :=
  let* _ := backend open_adapter in
  let* _ := update (set_adapter_open true) in
  let* _ := backend start_packet_session in
  let* _ := update (set_session_started true) in
  let* t := transaction in
  let* created := backend (add_interface_address (address_ t)) in
  let* _ := update (set_address_created created) in
  let* _ := match ipv6_address_ t with
            | Some a6 => let* created6 := backend (add_interface_address_v6 a6) in
                         update (set_ipv6_address_created created6)
            | None => ret tt
            end in
  let* prior := backend (set_interface_mtu (ia_mtu a)) in
  let* _ := update (set_prior_mtu prior) in
  let* _ := add_routes a cidrs in
  update (set_active true).

Definition activate (a : IpAssignment) (route_cidrs : list string) : M St unit :=
  let* t := transaction in
  if active_ t || adapter_open_ t || session_started_ t || address_created_ t ||
     ipv6_address_created_ t || negb (zlen (created_routes_ t) =? 0) then
    throw (LogicError "network transaction is already active")
  else if zlen route_cidrs =? 0 then
    throw (InvalidArgument "at least one tunnel route is required")
  else
    let* _ := update (set_addresses (mkInterfaceAddress (client_address a) (prefix_length a))
      (if negb (ipv6_prefix_length a =? 0)
       then Some (mkIpv6InterfaceAddress (client_ipv6_address a) (ipv6_prefix_length a))
       else None)) in
    try_catch (setup a route_cidrs) (fun e => Some (let* _ := rollback in throw e)).
End Transaction.

(** ** Specification *)

(** A setup call that returned, with what it reported. *)
Inductive setup_call :=
| DidOpen
| DidStart
| DidAddress (a : InterfaceAddress) (created : bool)
| DidAddressV6 (a : Ipv6InterfaceAddress) (created : bool)
| DidMtu (mtu : Z) (prior : option InterfaceMtuSnapshot)
| DidRoute (r : Route) (created : bool).

Inductive undo_call :=
| RemoveRoute (r : Route)
| RestoreMtu (m : InterfaceMtuSnapshot)
| RemoveAddressV6 (a : Ipv6InterfaceAddress)
| RemoveAddress (a : InterfaceAddress)
| StopSession
| CloseAdapter.

(** What undoes a setup call: nothing when it created nothing. *)
Definition undo_of (c : setup_call) : option undo_call :=
  match c with
  | DidOpen => Some CloseAdapter
  | DidStart => Some StopSession
  | DidAddress a true => Some (RemoveAddress a)
  | DidAddressV6 a true => Some (RemoveAddressV6 a)
  | DidMtu _ (Some m) => Some (RestoreMtu m)
  | DidRoute r true => Some (RemoveRoute r)
  | _ => None
  end.

(** The calls that undo [calls], last first. *)
Definition undo_all (calls : list setup_call) : list undo_call := rev (omap undo_of calls).

(** The addresses of an assignment. *)
Definition assigned_v4 (a : IpAssignment) : InterfaceAddress :=
  mkInterfaceAddress (client_address a) (prefix_length a).
Definition assigned_v6 (a : IpAssignment) : option Ipv6InterfaceAddress :=
  if negb (ipv6_prefix_length a =? 0)
  then Some (mkIpv6InterfaceAddress (client_ipv6_address a) (ipv6_prefix_length a)) else None.

(** The setup calls of a successful activation, in order. *)
Definition setup_calls (a4 : InterfaceAddress) (a6 : option Ipv6InterfaceAddress) (mtu : Z)
    (routes : list Route) (c4 c6 : bool) (prior : option InterfaceMtuSnapshot) (cr : list bool)
  : list setup_call :=
  [DidOpen; DidStart; DidAddress a4 c4] ++
  match a6 with Some a6 => [DidAddressV6 a6 c6] | None => [] end ++
  [DidMtu mtu prior] ++ zip_with DidRoute routes cr.

(** The undo calls that [rollback] makes in state [t]. *)
Definition plan (t : ClientNetworkTransaction) : list undo_call :=
  map RemoveRoute (rev (created_routes_ t)) ++
  match prior_mtu_ t with Some m => [RestoreMtu m] | None => [] end ++
  match ipv6_address_created_ t, ipv6_address_ t with
  | true, Some a => [RemoveAddressV6 a] | _, _ => [] end ++
  (if address_created_ t then [RemoveAddress (address_ t)] else []) ++
  (if session_started_ t then [StopSession] else []) ++
  (if adapter_open_ t then [CloseAdapter] else []).

(** Nothing is held: [activate] may be called. *)
Definition idle (t : ClientNetworkTransaction) : Prop :=
  created_routes_ t = [] /\ prior_mtu_ t = None /\ ipv6_address_created_ t = false /\
  address_created_ t = false /\ session_started_ t = false /\ adapter_open_ t = false /\
  active_ t = false.

Section Undo.
Context {N : Type} {NB : ClientNetworkBackend N}.

Definition apply_undo (u : undo_call) (s : N) : N :=
  match u with
  | RemoveRoute r => remove_route r s
  | RestoreMtu m => restore_interface_mtu m s
  | RemoveAddressV6 a => remove_interface_address_v6 a s
  | RemoveAddress a => remove_interface_address a s
  | StopSession => stop_packet_session s
  | CloseAdapter => close_adapter s
  end.
Definition apply_plan (us : list undo_call) (s : N) : N :=
  fold_left (fun s u => apply_undo u s) us s.

(** The backend's setup call returned as [c] says, from [s] to [s']. *)
Definition does (c : setup_call) (s s' : N) : Prop :=
  match c with
  | DidOpen => open_adapter s = (Ok tt, s')
  | DidStart => start_packet_session s = (Ok tt, s')
  | DidAddress a b => add_interface_address a s = (Ok b, s')
  | DidAddressV6 a b => add_interface_address_v6 a s = (Ok b, s')
  | DidMtu m p => set_interface_mtu m s = (Ok p, s')
  | DidRoute r b => add_route r s = (Ok b, s')
  end.

(** A setup call threw [e]. *)
Definition fails (e : exn) (s s' : N) : Prop :=
  open_adapter s = (Throw e, s') \/ start_packet_session s = (Throw e, s') \/
  (exists a, add_interface_address a s = (Throw e, s')) \/
  (exists a, add_interface_address_v6 a s = (Throw e, s')) \/
  (exists m, set_interface_mtu m s = (Throw e, s')) \/
  (exists r, add_route r s = (Throw e, s')).

Inductive trace : list setup_call -> N -> N -> Prop :=
| trace_nil s : trace [] s s
| trace_snoc cs c s s1 s2 : trace cs s s1 -> does c s1 s2 -> trace (cs ++ [c]) s s2.
End Undo.

(** What the code relies on of a backend, in the words of the header: "a
    throwing setup method must release any resource it acquired before
    throwing", and each undoing method undoes its setup method.  [same] is
    equality of the network configuration as far as it can be observed. *)
Class BackendLaws (N : Type) {NB : ClientNetworkBackend N} := {
  same : relation N;
  same_equiv :: Equivalence same;
  undo_proper u :: Proper (same ==> same) (apply_undo u);
  fails_law e s s' : fails e s s' -> same s' s;
  does_law c s s' : does c s s' ->
    match undo_of c with Some u => same (apply_undo u s') s | None => same s' s end
}.

(** ** Lemmas *)

Section Proofs.
Context {IP : IpLibrary} {N : Type} {NB : ClientNetworkBackend N}.
Implicit Types (s : N) (t : ClientNetworkTransaction).

Lemma apply_plan_app us vs s : apply_plan (us ++ vs) s = apply_plan vs (apply_plan us s).
Proof. apply fold_left_app. Qed.

Lemma undo_all_snoc cs c :
  undo_all (cs ++ [c]) = match undo_of c with Some u => u :: undo_all cs | None => undo_all cs end.
Proof.
  unfold undo_all. rewrite omap_app, rev_app_distr. cbn. destruct (undo_of c); reflexivity.
Qed.

Lemma remove_routes_eq rs s t :
  remove_routes rs (s, t) = (Ok tt, (apply_plan (map RemoveRoute rs) s, t)).
Proof. revert s. induction rs as [|r rs IH]; intros s; [reflexivity|]. apply IH. Qed.

(** [rollback] makes the planned calls and leaves nothing held. *)
Lemma rollback_eq s t :
  exists t', rollback (s, t) = (Ok tt, (apply_plan (plan t) s, t')) /\
    ((ipv6_address_created_ t = true -> is_Some (ipv6_address_ t)) -> idle t').
Proof.
  destruct t as [a4 a6 rs m ao ss ac a6c act].
  unfold rollback, update, transaction, put, bind. cbn [fst snd set_active created_routes_].
  rewrite remove_routes_eq. unfold plan. cbn [created_routes_ prior_mtu_ ipv6_address_created_
    ipv6_address_ address_created_ address_ session_started_ adapter_open_].
  rewrite apply_plan_app. set (s1 := apply_plan (map RemoveRoute (rev rs)) s).
  destruct m, a6c, a6, ac, ss, ao; cbn; eexists; (split; [reflexivity|]);
    intros Hx; try (destruct (Hx eq_refl) as [? [=]]); repeat split.
Qed.

Definition v6_ok t : Prop := ipv6_address_created_ t = true -> is_Some (ipv6_address_ t).

(** Opening the adapter is the first call. *)
Definition opens_first (cs : list setup_call) : Prop := cs = [] \/ exists cs', cs = DidOpen :: cs'.

(** Where the setup stands: the calls made so far took the network from [s0]
    to [s], and [rollback] would undo exactly those. *)
Definition stands (s0 : N) (cs : list setup_call) (s : N) (t : ClientNetworkTransaction) : Prop :=
  trace cs s0 s /\ plan t = undo_all cs /\ v6_ok t /\ opens_first cs.

(** The outcome of a part of the setup: where it stands, or where it stood
    when it stopped, at a failing backend call or before any. *)
Definition setup_result (s0 : N) (shape : list setup_call -> ClientNetworkTransaction -> Prop)
    (r : outcome unit * (N * ClientNetworkTransaction)) : Prop :=
  match r with
  | (Ok _, (s, t)) => exists cs, stands s0 cs s t /\ shape cs t
  | (Throw e, (s, t)) => exists cs s1, stands s0 cs s1 t /\ (s = s1 \/ fails e s1 s) /\
      (cs = [] -> open_adapter s1 = (Throw e, s))
  end.

(** A setup call that returned extends the calls so far. *)
Lemma stands_snoc s0 cs s t c s' t' :
  stands s0 cs s t -> does c s s' -> v6_ok t' -> cs <> [] \/ c = DidOpen ->
  plan t' = match undo_of c with Some u => u :: plan t | None => plan t end ->
  stands s0 (cs ++ [c]) s' t'.
Proof.
  intros (Ht & Hp & Hv & Ho) Hd Hv' Hc Hp'. split; [|split; [|split]].
  - eapply trace_snoc; eassumption.
  - rewrite undo_all_snoc, Hp', Hp. reflexivity.
  - assumption.
  - destruct Ho as [-> |[cs' ->]]; [|right; exists (cs' ++ [c]); reflexivity].
    destruct Hc as [Hc| ->]; [contradiction|]. right. exists []. reflexivity.
Qed.

Lemma stopped (shape : _ -> _ -> Prop) s0 cs s t e :
  stands s0 cs s t -> cs <> [] -> setup_result s0 shape (Throw e, (s, t)).
Proof. intros. exists cs, s. split_goal; auto. intros ->. contradiction. Qed.
Lemma failed (shape : _ -> _ -> Prop) s0 cs s t e s' :
  stands s0 cs s t -> fails e s s' -> cs <> [] -> setup_result s0 shape (Throw e, (s', t)).
Proof. intros. exists cs, s. split_goal; auto. intros ->. contradiction. Qed.

Lemma add_routes_spec a cidrs s0 cs s t :
  stands s0 cs s t -> cs <> [] ->
  setup_result s0 (fun cs' t' => exists routes crs,
      Forall2 (fun cidr route => parse_any_route a cidr = Ok route) cidrs routes /\
      length crs = length routes /\ cs' = cs ++ zip_with DidRoute routes crs /\
      active_ t' = active_ t) (add_routes a cidrs (s, t)).
Proof.
  revert cs s t. induction cidrs as [|cidr cidrs IH]; intros cs s t Hst Hne.
  - exists cs. split; [assumption|]. exists [], []. rewrite app_nil_r. auto using Forall2_nil.
  - cbn [add_routes]. unfold bind at 1, lift. destruct (parse_any_route a cidr) as [route|e] eqn:Ep;
      [|eapply stopped; eassumption].
    unfold bind, backend. destruct (add_route route s) as [[created|e] s1] eqn:Ea;
      [|eapply failed; [eassumption|do 5 right; eauto|exact Hne]].
    assert (Hnext : forall t1, active_ t1 = active_ t -> stands s0 (cs ++ [DidRoute route created]) s1 t1 ->
      setup_result s0 (fun cs' t' => exists routes crs,
        Forall2 (fun cidr route => parse_any_route a cidr = Ok route) (cidr :: cidrs) routes /\
        length crs = length routes /\ cs' = cs ++ zip_with DidRoute routes crs /\
        active_ t' = active_ t) (add_routes a cidrs (s1, t1))).
    { intros t1 Hact Hst1. specialize (IH _ _ _ Hst1 ltac:(intros E; apply app_eq_nil in E as [_ [=]])).
      destruct (add_routes a cidrs (s1, t1)) as [[[]|e] [s2 t2]]; [|exact IH].
      destruct IH as (cs2 & Hst2 & routes & crs & Hf & Hl & -> & Hact2).
      eexists. split; [exact Hst2|]. exists (route :: routes), (created :: crs).
      split_goal; auto using Forall2_cons.
      - cbn. congruence.
      - rewrite <- app_assoc. reflexivity.
      - congruence. }
    destruct created; cbn; apply Hnext; try reflexivity.
    + apply (stands_snoc s0 cs s t (DidRoute route true)); auto; [apply Hst|].
      unfold plan. cbn. rewrite rev_app_distr. reflexivity.
    + apply (stands_snoc s0 cs s t (DidRoute route false)); auto. apply Hst.
Qed.

(** [setup] from the MTU on, with the addresses in place. *)
Lemma setup_finish a cidrs a4 a6 c4 c6 s s4 t4 :
  stands s ([DidOpen; DidStart; DidAddress a4 c4] ++ match a6 with Some a => [DidAddressV6 a c6] | None => [] end) s4 t4 ->
  created_routes_ t4 = [] -> prior_mtu_ t4 = None ->
  setup_result s (fun cs t' => active_ t' = true /\ exists routes c4 c6 prior crs,
      Forall2 (fun cidr route => parse_any_route a cidr = Ok route) cidrs routes /\
      length crs = length routes /\ cs = setup_calls a4 a6 (ia_mtu a) routes c4 c6 prior crs)
    ((let* prior := backend (set_interface_mtu (ia_mtu a)) in
      let* _ := update (set_prior_mtu prior) in
      let* _ := add_routes a cidrs in
      update (set_active true)) (s4, t4)).
Proof.
  intros H4 Hr4 Hm4. unfold update, bind, backend, transaction, put. cbn [fst snd].
  destruct (set_interface_mtu (ia_mtu a) s4) as [[prior|e] s5] eqn:E5;
    [|eapply failed; [exact H4|do 4 right; left; eauto|discriminate]].
  assert (H5 : stands s (([DidOpen; DidStart; DidAddress a4 c4] ++
    match a6 with Some a => [DidAddressV6 a c6] | None => [] end) ++ [DidMtu (ia_mtu a) prior]) s5
    (set_prior_mtu prior t4)).
  { apply (stands_snoc s _ s4 t4 (DidMtu (ia_mtu a) prior)); auto; first [apply H4|left; discriminate|idtac].
    unfold plan. cbn. rewrite Hr4, Hm4. destruct prior; reflexivity. }
  cbn [fst snd]. pose proof (add_routes_spec a cidrs _ _ _ _ H5 ltac:(intros E; apply app_eq_nil in E as [_ [=]])) as Hroutes.
  destruct (add_routes a cidrs (s5, set_prior_mtu prior t4)) as [[[]|e] [s6 t6]]; [|exact Hroutes].
  destruct Hroutes as (cs6 & H6 & routes & crs & Hf & Hl & -> & _).
  eexists. split; [exact H6|]. split; [reflexivity|].
  exists routes, c4, c6, prior, crs. split_goal; auto. unfold setup_calls.
  rewrite <- !app_assoc. reflexivity.
Qed.

Lemma setup_spec a cidrs s t :
  idle t ->
  setup_result s (fun cs t' => active_ t' = true /\ exists routes c4 c6 prior crs,
      Forall2 (fun cidr route => parse_any_route a cidr = Ok route) cidrs routes /\
      length crs = length routes /\ cs = setup_calls (address_ t) (ipv6_address_ t) (ia_mtu a) routes c4 c6 prior crs)
    (setup a cidrs (s, t)).
Proof.
  destruct t as [a4 a6 rs m ao ss ac a6c act]. intros Hi. unfold idle in Hi. cbn in Hi.
  destruct Hi as (-> & -> & -> & -> & -> & -> & ->).
  set (t0 := mkTransaction a4 a6 [] None false false false false false).
  assert (H0 : stands s [] s t0) by (split; [apply trace_nil|split; [reflexivity|split; [discriminate|left; reflexivity]]]).
  unfold setup, update, bind, backend, transaction, put. cbn [fst snd].
  destruct (open_adapter s) as [[[]|e] s1] eqn:E1; [|exists [], s; split_goal; auto; right; left; exact E1].
  set (t1 := set_adapter_open true t0).
  assert (H1 : stands s [DidOpen] s1 t1)
    by (apply (stands_snoc s [] s t0 DidOpen); auto; discriminate).
  cbn [fst snd]. destruct (start_packet_session s1) as [[[]|e] s2] eqn:E2;
    [|eapply failed; [exact H1|right; left; exact E2|discriminate]].
  set (t2 := set_session_started true t1).
  assert (H2 : stands s [DidOpen; DidStart] s2 t2)
    by (apply (stands_snoc s [DidOpen] s1 t1 DidStart); auto; first [discriminate|left; discriminate]).
  cbn [fst snd]. change (address_ (set_session_started true (set_adapter_open true t0))) with a4.
  destruct (add_interface_address a4 s2) as [[c4|e] s3] eqn:E3;
    [|eapply failed; [exact H2|right; right; left; eauto|discriminate]].
  set (t3 := set_address_created c4 t2).
  assert (H3 : stands s [DidOpen; DidStart; DidAddress a4 c4] s3 t3)
    by (apply (stands_snoc s [DidOpen; DidStart] s2 t2 (DidAddress a4 c4)); auto;
        first [discriminate|left; discriminate|destruct c4; reflexivity]).
  cbn [fst snd].
  change (ipv6_address_ (set_session_started true (set_adapter_open true t0))) with a6. destruct a6 as [a6|]; cbn [fst snd].
  - destruct (add_interface_address_v6 a6 s3) as [[c6|e] s4] eqn:E4;
      [|eapply failed; [exact H3|do 3 right; left; eauto|discriminate]].
    apply (setup_finish a cidrs a4 (Some a6) c4 c6 s s4 (set_ipv6_address_created c6 t3)); [|reflexivity..].
    apply (stands_snoc s _ s3 t3 (DidAddressV6 a6 c6)); auto; first [intros _; cbn; eauto; fail|left; discriminate|destruct c6; reflexivity].
  - apply (setup_finish a cidrs a4 None c4 false s s3 t3); [exact H3|reflexivity..].
Qed.

Lemma idle_plan t : idle t -> plan t = [].
Proof.
  destruct t as [a4 a6 rs m ao ss ac a6c act]. unfold idle, plan. cbn.
  intros (-> & -> & -> & -> & -> & -> & ->). reflexivity.
Qed.

Lemma rollback_idle s t : idle t -> exists t', rollback (s, t) = (Ok tt, (s, t')) /\ idle t'.
Proof.
  intros Hi. destruct (rollback_eq s t) as (t' & -> & Ht').
  rewrite (idle_plan t Hi). exists t'. split; [reflexivity|]. apply Ht'.
  destruct Hi as (_ & _ & -> & _). discriminate.
Qed.

(** The outcome of [activate] on an idle transaction. *)
Lemma activate_spec a cidrs s t :
  idle t -> cidrs <> [] ->
  match activate a cidrs (s, t) with
  | (Ok _, (s', t')) => active_ t' = true /\ exists routes c4 c6 prior crs,
      Forall2 (fun cidr route => parse_any_route a cidr = Ok route) cidrs routes /\
      length crs = length routes /\
      stands s (setup_calls (assigned_v4 a) (assigned_v6 a) (ia_mtu a) routes c4 c6 prior crs) s' t'
  | (Throw e, (s', t')) => idle t' /\ exists calls s1 s2,
      trace calls s s1 /\ (s2 = s1 \/ fails e s1 s2) /\ s' = apply_plan (undo_all calls) s2 /\
      opens_first calls /\ (calls = [] -> open_adapter s1 = (Throw e, s2)) /\ exists t1, plan t1 = undo_all calls
  end.
Proof.
  intros Hi Hne. unfold activate, bind at 1, transaction at 1. cbn [snd].
  pose proof Hi as (Hr & _ & H6 & H4 & Hs & Ho & Ha). rewrite Hr, H6, H4, Hs, Ho, Ha. cbn [orb negb].
  rewrite zlen_nil. cbn [Z.eqb negb].
  destruct (Z.eqb_spec (zlen cidrs) 0) as [Hz|_]; [apply zlen_0 in Hz; contradiction|].
  unfold update, bind at 1 2, transaction, put. cbn [fst snd].
  fold (assigned_v4 a). fold (assigned_v6 a).
  set (t1 := set_addresses _ _ t).
  pose proof (setup_spec a cidrs s t1) as Hsetup. unfold try_catch.
  assert (Hi1 : idle t1) by exact Hi. specialize (Hsetup Hi1).
  destruct (setup a cidrs (s, t1)) as [[[]|e] [s2 t2]].
  - destruct Hsetup as (cs & Hst & Hact & routes & c4 & c6 & prior & crs & Hf & Hl & ->).
    split; [assumption|]. exists routes, c4, c6, prior, crs. auto.
  - destruct Hsetup as (cs & s1 & (Htr & Hp & Hv & Hfirst) & Hs2 & Hnil). unfold bind.
    destruct (rollback_eq s2 t2) as (t3 & -> & Hi3). cbn iota. split; [apply Hi3, Hv|].
    exists cs, s1, s2. rewrite <- Hp. split_goal; eauto.
Qed.

Section Laws.
Context {BL : BackendLaws N}.

#[local] Instance apply_plan_proper us : Proper (same ==> same) (apply_plan us).
Proof.
  induction us as [|u us IH]; intros s s' E; [exact E|]. cbn. apply IH. rewrite E. reflexivity.
Qed.

Lemma undo_trace calls s s1 : trace calls s s1 -> same (apply_plan (undo_all calls) s1) s.
Proof.
  induction 1 as [s|cs c s s1 s2 _ IH Hd]; [reflexivity|]. rewrite undo_all_snoc.
  apply does_law in Hd. destruct (undo_of c) as [u|]; cbn; rewrite Hd; exact IH.
Qed.
End Laws.

(** ** Properties *)

(** C13: activation is atomic, for every backend that keeps the contract of
    the header.  If any step of [activate] throws (a backend call, or a route
    that does not parse, at any position), the exception propagates, the
    network is as it was before, and the transaction can be activated again.
    If it succeeds, the transaction is active, and [rollback], which the
    destructor also runs, restores the network as it was before; a second
    [rollback] changes nothing. *)
Theorem activation_atomic {BL : BackendLaws N} a cidrs s t :
  idle t -> cidrs <> [] ->
  match activate a cidrs (s, t) with
  | (Ok _, (s', t')) => active_ t' = true /\
      exists s2 t2, rollback (s', t') = (Ok tt, (s2, t2)) /\ same s2 s /\ idle t2 /\
        exists t3, rollback (s2, t2) = (Ok tt, (s2, t3)) /\ idle t3
  | (Throw e, (s', t')) => same s' s /\ idle t'
  end.
Proof.
  intros Hi Hne. pose proof (activate_spec a cidrs s t Hi Hne) as H.
  destruct (activate a cidrs (s, t)) as [[[]|e] [s' t']].
  - destruct H as (Hact & routes & c4 & c6 & prior & crs & _ & _ & Htr & Hp & Hv & _).
    split; [assumption|]. destruct (rollback_eq s' t') as (t2 & E & Hi2).
    eexists _, t2. split; [exact E|]. split; [rewrite Hp; apply undo_trace; assumption|].
    split; [apply Hi2, Hv|]. apply rollback_idle. apply Hi2, Hv.
  - destruct H as (Hi' & calls & s1 & s2 & Htr & Hs & -> & _). split; [|assumption].
    transitivity (apply_plan (undo_all calls) s1); [|apply undo_trace; assumption].
    apply apply_plan_proper. destruct Hs as [->|Hf]; [reflexivity|]. eapply fails_law. eassumption.
Qed.

(** The order of the operations, for every backend.  A successful
    activation calls the backend exactly as documented: adapter, packet
    session, assigned addresses, MTU, then the routes in the order of the
    configuration, each as it parses; rolling it back calls, in the reverse
    order, the undoing methods of exactly those calls that reported a change
    of their own (an address or route that already existed is left alone).
    A failing activation makes these undo calls for the completed steps. *)
Theorem rollback_reverses_setup a cidrs s t :
  idle t -> cidrs <> [] ->
  match activate a cidrs (s, t) with
  | (Ok _, (s', t')) => exists routes c4 c6 prior crs,
      let calls := setup_calls (assigned_v4 a) (assigned_v6 a) (ia_mtu a) routes c4 c6 prior crs in
      Forall2 (fun cidr route => parse_any_route a cidr = Ok route) cidrs routes /\
      length crs = length routes /\ trace calls s s' /\
      exists t2, rollback (s', t') = (Ok tt, (apply_plan (rev (omap undo_of calls)) s', t2))
  | (Throw e, (s', t')) => exists calls s1 s2,
      trace calls s s1 /\ (s2 = s1 \/ fails e s1 s2) /\
      s' = apply_plan (rev (omap undo_of calls)) s2
  end.
Proof.
  intros Hi Hne. pose proof (activate_spec a cidrs s t Hi Hne) as H.
  destruct (activate a cidrs (s, t)) as [[[]|e] [s' t']].
  - destruct H as (Hact & routes & c4 & c6 & prior & crs & Hf & Hl & Htr & Hp & Hv & _).
    exists routes, c4, c6, prior, crs. cbn zeta. split_goal; auto.
    destruct (rollback_eq s' t') as (t2 & E & _). exists t2. rewrite E, Hp. reflexivity.
  - destruct H as (_ & calls & s1 & s2 & H1 & H2 & H3 & _). exists calls, s1, s2. auto.
Qed.
End Proofs.

(** *** Route texts *)

Lemma clear_bit_spec l bit :
  is_array 16 l -> 0 <= bit < 128 ->
  is_array 16 (clear_bit l bit) /\
  forall b, 0 <= b < 128 ->
    Z.testbit (at_ (clear_bit l bit) (b / 8)) (7 - b mod 8) =
    if b =? bit then false else Z.testbit (at_ l (b / 8)) (7 - b mod 8).
Proof.
  intros [Hb Hl] Hbit.
  assert (Hlen : (Z.to_nat (bit / 8) < length l)%nat) by (unfold zlen in Hl; div_lia).
  destruct (lookup_lt_is_Some_2 l _ Hlen) as [v Hv].
  assert (Hvr : in_u8 v) by (eapply Forall_lookup_1; eassumption).
  set (f := fun v => u8 (Z.land v (u8 (Z.lnot (Z.shiftl 1 (7 - bit mod 8)))))).
  assert (Hf : forall i, 0 <= i < 8 -> Z.testbit (f v) i = Z.testbit v i && negb (i =? 7 - bit mod 8)).
  { intros i Hi. unfold f, u8. rewrite !Z.mod_pow2_bits_low, Z.land_spec, Z.mod_pow2_bits_low by lia.
    rewrite Z.lnot_spec by lia. f_equal. f_equal.
    rewrite Z.shiftl_spec by lia.
    destruct (Z.eqb_spec i (7 - bit mod 8)) as [->|Hn].
    - rewrite Z.sub_diag. reflexivity.
    - destruct (Z.lt_ge_cases i (7 - bit mod 8)).
      + apply Z.testbit_neg_r. lia.
      + change 1 with (2 ^ 0). apply Z.pow2_bits_false. lia. }
  assert (Hat : forall k, 0 <= k < 16 -> at_ (clear_bit l bit) k = if k =? bit / 8 then f v else at_ l k).
  { intros k Hk. unfold at_, clear_bit.
    destruct (lookup_lt_is_Some_2 l (Z.to_nat k)) as [w Hw]; [unfold zlen in Hl; lia|].
    rewrite (nth_lookup_Some l _ _ w Hw).
    destruct (Z.eqb_spec k (bit / 8)) as [->|Hne].
    - apply nth_lookup_Some. rewrite list_lookup_alter, decide_True, Hv by reflexivity. reflexivity.
    - apply nth_lookup_Some. rewrite list_lookup_alter, decide_False by div_lia. exact Hw. }
  split.
  - split.
    + unfold clear_bit. apply Forall_alter; [exact Hb|]. intros. apply u8_range.
    + unfold clear_bit, zlen. rewrite length_alter. exact Hl.
  - intros b Hb'. rewrite Hat by div_lia.
    destruct (Z.eqb_spec (b / 8) (bit / 8)) as [E|E].
    + rewrite Hf by div_lia. unfold at_. rewrite E, (nth_lookup_Some l _ _ v Hv).
      destruct (Z.eqb_spec b bit) as [->|Hne].
      * rewrite Z.eqb_refl. apply andb_false_r.
      * rewrite (proj2 (Z.eqb_neq _ _)) by div_lia. apply andb_true_r.
    + rewrite (proj2 (Z.eqb_neq b bit)) by congruence. reflexivity.
Qed.

(** The bits after the prefix are zero. *)
Definition host_bits_clear (network : bytes) (prefix : Z) : Prop :=
  forall b, prefix <= b < 128 -> Z.testbit (at_ network (b / 8)) (7 - b mod 8) = false.

Lemma clear_bits_spec bits l :
  is_array 16 l -> Forall (fun b => 0 <= b < 128) bits ->
  is_array 16 (fold_left clear_bit bits l) /\
  forall b, 0 <= b < 128 ->
    Z.testbit (at_ (fold_left clear_bit bits l) (b / 8)) (7 - b mod 8) =
    if bool_decide (b ∈ bits) then false else Z.testbit (at_ l (b / 8)) (7 - b mod 8).
Proof.
  revert l. induction bits as [|bit bits IH]; intros l Hl Hbits; cbn [fold_left].
  - split; [assumption|]. intros b _. rewrite bool_decide_eq_false_2 by apply not_elem_of_nil. reflexivity.
  - apply Forall_cons in Hbits as [Hbit Hbits].
    destruct (clear_bit_spec l bit Hl Hbit) as [Hl' Hspec].
    destruct (IH _ Hl' Hbits) as [Hl'' Hrest]. split; [assumption|].
    intros b Hb. rewrite Hrest, Hspec by assumption.
    destruct (Z.eqb_spec b bit) as [->|Hne].
    + rewrite (bool_decide_eq_true_2 (bit ∈ bit :: bits)) by left. destruct (bool_decide _); reflexivity.
    + rewrite (bool_decide_ext (b ∈ bit :: bits) (b ∈ bits)); [reflexivity|].
      rewrite elem_of_cons. intuition.
Qed.

(** Two arrays with the same 128 bits are equal. *)
Lemma same_bits l k :
  is_array 16 l -> is_array 16 k ->
  (forall b, 0 <= b < 128 ->
     Z.testbit (at_ l (b / 8)) (7 - b mod 8) = Z.testbit (at_ k (b / 8)) (7 - b mod 8)) -> l = k.
Proof.
  intros [Hb Hl] [Kb Kl] H. apply list_eq. intros i.
  destruct (decide (i < 16)%nat) as [Hi|Hi].
  2: { rewrite !lookup_ge_None_2 by (unfold zlen in *; lia). reflexivity. }
  destruct (lookup_lt_is_Some_2 l i) as [x Hx]; [unfold zlen in *; lia|].
  destruct (lookup_lt_is_Some_2 k i) as [y Hy]; [unfold zlen in *; lia|].
  rewrite Hx, Hy. f_equal.
  assert (Rx : in_u8 x) by exact (Forall_lookup_1 _ _ _ _ Hb Hx).
  assert (Ry : in_u8 y) by exact (Forall_lookup_1 _ _ _ _ Kb Hy).
  rewrite <- (u8_id x Rx), <- (u8_id y Ry). unfold u8.
  apply Z.bits_inj'. intros n Hn. destruct (Z.lt_ge_cases n 8) as [Hn8|Hn8].
  2: { rewrite !Z.mod_pow2_bits_high by lia. reflexivity. }
  rewrite !Z.mod_pow2_bits_low by lia.
  specialize (H (Z.of_nat i * 8 + (7 - n)) ltac:(lia)).
  replace ((Z.of_nat i * 8 + (7 - n)) / 8) with (Z.of_nat i) in H by div_lia.
  replace (7 - (Z.of_nat i * 8 + (7 - n)) mod 8) with n in H by div_lia.
  unfold at_ in H. rewrite Nat2Z.id, (nth_lookup_Some l _ _ x Hx), (nth_lookup_Some k _ _ y Hy) in H. exact H.
Qed.

Lemma canonical_iff network prefix :
  is_array 16 network -> 0 <= prefix <= 128 ->
  network = clear_host_bits network prefix <-> host_bits_clear network prefix.
Proof.
  intros Hn Hp.
  assert (Hbits : Forall (fun b => 0 <= b < 128) (seqZ prefix (128 - prefix)))
    by (apply Forall_forall; intros b [? ?]%elem_of_seqZ; lia).
  destruct (clear_bits_spec _ network Hn Hbits) as [Hc Hspec]. unfold clear_host_bits. split.
  - intros E b Hb. rewrite E, Hspec by lia. rewrite bool_decide_eq_true_2; [reflexivity|].
    apply elem_of_seqZ. lia.
  - intros Hclear. apply same_bits; [assumption..|]. intros b Hb. rewrite Hspec by assumption.
    case_bool_decide as Hin; [|reflexivity]. apply elem_of_seqZ in Hin. apply Hclear. lia.
Qed.

(** A CIDR text: an address without a slash, and a prefix length. *)
Lemma cidr_parts (address : string) n maximum :
  47 ∉ string_bytes address -> address <> "" -> in_u8 n -> n <= maximum -> maximum <= 255 ->
  let cidr := address +:+ "/" +:+ to_string n in
  exists slash, find (string_bytes cidr) 47 0 = Some slash /\
    (slash =? 0) || (zlen (string_bytes cidr) <=? slash + 1) = false /\
    parse_prefix maximum (drop (Z.to_nat (slash + 1)) (string_bytes cidr)) = Some n /\
    bytes_string (slice (string_bytes cidr) 0 slash) = address.
Proof.
  intros Hs Hne Hn Hmax H255 cidr. destruct (to_string_octet n Hn) as (Hdne & Hdig & Hscan).
  set (d := string_bytes (to_string n)) in *.
  assert (E : string_bytes cidr = string_bytes address ++ 47 :: d).
  { unfold cidr. rewrite !string_bytes_app. reflexivity. }
  exists (zlen (string_bytes address)). rewrite E. split_goal.
  - unfold find. change (Z.to_nat 0) with 0%nat. rewrite drop_0. rewrite index_of_absent by assumption. reflexivity.
  - apply orb_false_iff. split.
    + apply Z.eqb_neq. intros Hz%zlen_0. apply Hne. rewrite <- (bytes_string_bytes address), Hz. reflexivity.
    + apply Z.leb_gt. rewrite zlen_app, zlen_cons.
      assert (zlen d <> 0) by (intros Hz%zlen_0; contradiction). pose proof (zlen_nonneg d). lia.
  - replace (string_bytes address ++ 47 :: d) with ((string_bytes address ++ [47]) ++ d)
      by (rewrite <- app_assoc; reflexivity).
    replace (zlen (string_bytes address) + 1) with (zlen (string_bytes address ++ [47]))
      by (rewrite zlen_app; reflexivity).
    rewrite drop_zlen_app. unfold parse_prefix.
    rewrite (from_chars_all_number d n) by (repeat split; auto; int_lia).
    rewrite (proj2 (Z.ltb_ge maximum n)) by lia. reflexivity.
  - unfold slice. change (Z.to_nat 0) with 0%nat. rewrite drop_0. rewrite take_zlen_app. apply bytes_string_bytes.
Qed.

(** What a route text means.  An IPv4 text in CIDR notation parses to its
    network and prefix length via the assigned gateway; an IPv6 text does so
    exactly when all the bits after the prefix are zero, and is refused
    otherwise.  The IPv4 parser has no such check. *)
Theorem route_texts_exact {IP : IpLibrary} a net text n4 net6 n6 gateway :
  is_array 4 net -> 0 <= n4 <= 32 ->
  text <> "" -> 47 ∉ string_bytes text -> make_address_v6 text = Some (net6, 0) ->
  is_array 16 net6 -> 0 <= n6 <= 128 ->
  parse_route (format_ipv4_address net +:+ "/" +:+ to_string n4) gateway
    = Ok (mkIpv4Route net n4 gateway) /\
  (host_bits_clear net6 n6 ->
   parse_route_v6 (text +:+ "/" +:+ to_string n6) gateway = Ok (mkIpv6Route net6 n6 gateway)) /\
  (~ host_bits_clear net6 n6 ->
   parse_route_v6 (text +:+ "/" +:+ to_string n6) gateway =
     Throw (InvalidArgument "IPv6 route address must be canonical network address")) /\
  parse_any_route a (format_ipv4_address net +:+ "/" +:+ to_string n4) =
    Ok (RouteV4 (mkIpv4Route net n4 (gateway_address a))).
Proof.
  intros [Hb4 Hl4] Hn4 Hne Hs Hlib H6 Hn6.
  assert (Hno : forall c, is_digit c = false -> c <> 46 -> c ∉ string_bytes (format_ipv4_address net)).
  { intros c Hd H46 Hin. apply format_ipv4_chars in Hin as [?|?]; congruence. }
  assert (Hne4 : format_ipv4_address net <> "").
  { intros E. pose proof (parse_format_ipv4 net Hb4 Hl4) as Hp. rewrite E in Hp. discriminate. }
  assert (H4 : forall g, parse_route (format_ipv4_address net +:+ "/" +:+ to_string n4) g
    = Ok (mkIpv4Route net n4 g)).
  { intros g. destruct (cidr_parts (format_ipv4_address net) n4 32) as (slash & Hf & Hg & Hp & Ha);
      [apply Hno; [reflexivity|discriminate]|assumption|int_lia|lia|lia|].
    unfold parse_route. rewrite Hf, Hg, Hp, Ha, parse_format_ipv4 by assumption. cbn [obind].
    rewrite u8_id by int_lia. reflexivity. }
  destruct (cidr_parts text n6 128) as (slash & Hf & Hg & Hp & Ha); [assumption|assumption|int_lia|lia|lia|].
  assert (E6 : parse_route_v6 (text +:+ "/" +:+ to_string n6) gateway =
    if bool_decide (net6 = clear_host_bits net6 n6) then Ok (mkIpv6Route net6 n6 gateway)
    else Throw (InvalidArgument "IPv6 route address must be canonical network address")).
  { unfold parse_route_v6. rewrite Hf, Hg, Hp, Ha. unfold parse_ipv6_address. rewrite Hlib. cbn [Z.eqb negb obind].
    rewrite obind_reject, u8_id by int_lia. destruct (bool_decide _); reflexivity. }
  split_goal.
  - apply H4.
  - intros Hc. rewrite E6, bool_decide_eq_true_2; [reflexivity|]. apply canonical_iff; assumption.
  - intros Hc. rewrite E6, bool_decide_eq_false_2; [reflexivity|]. rewrite canonical_iff by assumption. exact Hc.
  - unfold parse_any_route.
    assert (find (string_bytes (format_ipv4_address net +:+ "/" +:+ to_string n4)) 58 0 = None) as ->.
    { unfold find. change (Z.to_nat 0) with 0%nat. rewrite drop_0. rewrite index_of_none; [reflexivity|].
      rewrite !string_bytes_app, !elem_of_app. change (string_bytes "/") with [47].
      rewrite list_elem_of_singleton. intros [Hin|[Hin|Hin]].
      - apply Hno in Hin; [contradiction|reflexivity|discriminate].
      - discriminate.
      - destruct (to_string_octet n4 ltac:(int_lia)) as (_ & Hd & _). rewrite forallb_forall in Hd.
        apply list_elem_of_In, Hd in Hin. discriminate. }
    rewrite H4. reflexivity.
Qed.

(** ** A network in memory

    A backend that satisfies the laws, with fault injection: the setup call
    that finds [net_fuse] at zero throws without effect. *)
Record Net := mkNet {
  net_adapter : bool;
  net_session : bool;
  net_v4 : list InterfaceAddress;
  net_v6 : list Ipv6InterfaceAddress;
  net_mtu : InterfaceMtuSnapshot;
  net_routes : list Route;
  net_fuse : nat
}.

Definition burn (n : Net) : Net :=
  mkNet (net_adapter n) (net_session n) (net_v4 n) (net_v6 n) (net_mtu n) (net_routes n) (pred (net_fuse n)).

(** A setup call: fails when the fuse is burnt, else changes the network. *)
Definition net_call {A} (f : Net -> option (A * Net)) : M Net A := fun n =>
  match net_fuse n with
  | O => (Throw (RuntimeError "injected failure"), n)
  | S _ => match f n with
           | Some (a, n') => (Ok a, burn n')
           | None => (Throw (RuntimeError "unavailable"), burn n)
           end
  end.

Definition with_adapter b n := mkNet b (net_session n) (net_v4 n) (net_v6 n) (net_mtu n) (net_routes n) (net_fuse n).
Definition with_session b n := mkNet (net_adapter n) b (net_v4 n) (net_v6 n) (net_mtu n) (net_routes n) (net_fuse n).
Definition with_v4 l n := mkNet (net_adapter n) (net_session n) l (net_v6 n) (net_mtu n) (net_routes n) (net_fuse n).
Definition with_v6 l n := mkNet (net_adapter n) (net_session n) (net_v4 n) l (net_mtu n) (net_routes n) (net_fuse n).
Definition with_net_mtu m n := mkNet (net_adapter n) (net_session n) (net_v4 n) (net_v6 n) m (net_routes n) (net_fuse n).
Definition with_routes l n := mkNet (net_adapter n) (net_session n) (net_v4 n) (net_v6 n) (net_mtu n) l (net_fuse n).

(** Adding an object reports whether it was created. *)
Definition add_new {A} `{EqDecision A} (x : A) (l : list A) : bool * list A :=
  if decide (x ∈ l) then (false, l) else (true, x :: l).
Definition remove_all {A} `{EqDecision A} (x : A) (l : list A) : list A := filter (fun y => y <> x) l.

#[export] Instance Net_backend : ClientNetworkBackend Net := {
  open_adapter := net_call (fun n => if net_adapter n then None else Some (tt, with_adapter true n));
  start_packet_session := net_call (fun n => if net_session n then None else Some (tt, with_session true n));
  add_interface_address a := net_call (fun n =>
    let '(b, l) := add_new a (net_v4 n) in Some (b, with_v4 l n));
  add_interface_address_v6 a := net_call (fun n =>
    let '(b, l) := add_new a (net_v6 n) in Some (b, with_v6 l n));
  set_interface_mtu m := net_call (fun n =>
    if bool_decide (net_mtu n = mkMtuSnapshot m m) then Some (None, n)
    else Some (Some (net_mtu n), with_net_mtu (mkMtuSnapshot m m) n));
  add_route r := net_call (fun n =>
    let '(b, l) := add_new r (net_routes n) in Some (b, with_routes l n));
  remove_route r n := with_routes (remove_all r (net_routes n)) n;
  restore_interface_mtu m n := with_net_mtu m n;
  remove_interface_address a n := with_v4 (remove_all a (net_v4 n)) n;
  remove_interface_address_v6 a n := with_v6 (remove_all a (net_v6 n)) n;
  stop_packet_session n := with_session false n;
  close_adapter n := with_adapter false n
}.

(** Equal up to the fuse. *)
Definition net_same (n m : Net) : Prop :=
  net_adapter n = net_adapter m /\ net_session n = net_session m /\ net_v4 n = net_v4 m /\
  net_v6 n = net_v6 m /\ net_mtu n = net_mtu m /\ net_routes n = net_routes m.

Lemma net_same_equiv : Equivalence net_same.
Proof.
  unfold net_same. split.
  - intros n. split_goal; reflexivity.
  - intros n m (? & ? & ? & ? & ? & ?). split_goal; congruence.
  - intros n m p (? & ? & ? & ? & ? & ?) (? & ? & ? & ? & ? & ?). split_goal; congruence.
Qed.

Lemma remove_add_new {A} `{EqDecision A} (x : A) l l' b :
  add_new x l = (b, l') -> if b then remove_all x l' = l else l' = l.
Proof.
  unfold add_new, remove_all. case_decide as Hx; intros [= <- <-]; [reflexivity|].
  rewrite filter_cons_False by (intros Hy; apply Hy; reflexivity).
  induction l as [|y l IH]; [reflexivity|].
  rewrite filter_cons_True by (intros ->; apply Hx; left). f_equal. apply IH.
  intros Hin. apply Hx. right. exact Hin.
Qed.

Lemma net_call_ok {A} (f : Net -> option (A * Net)) n a n' :
  net_call f n = (Ok a, n') -> exists m, f n = Some (a, m) /\ net_same n' m.
Proof.
  unfold net_call. destruct (net_fuse n); [discriminate|]. destruct (f n) as [[b m]|]; [|discriminate].
  intros [= <- <-]. exists m. split; [reflexivity|]. repeat split.
Qed.
Lemma net_call_throw {A} (f : Net -> option (A * Net)) n e n' :
  net_call f n = (Throw e, n') -> net_same n' n.
Proof.
  unfold net_call. destruct (net_fuse n) eqn:E; [intros [= _ <-]; repeat split|].
  destruct (f n) as [[b m]|]; [discriminate|]. intros [= _ <-]. repeat split.
Qed.

#[export] Instance Net_laws : BackendLaws Net.
Proof.
  refine {| same := net_same; same_equiv := net_same_equiv |}.
  - intros u n m (? & ? & ? & ? & ? & ?). destruct u; unfold net_same; cbn; split_goal; congruence.
  - intros e n n' [H|[H|[[a H]|[[a H]|[[m H]|[r H]]]]]]; eapply net_call_throw; exact H.
  - intros c n n' Hd.
    destruct c as [| |a b|a b|m p|r b]; cbn [does] in Hd; apply net_call_ok in Hd as (m' & Hf & Hs);
      cbn [undo_of].
    + destruct (net_adapter n) eqn:E; [discriminate|]. injection Hf as <-.
      destruct Hs as (? & ? & ? & ? & ? & ?). unfold net_same. cbn in *. split_goal; congruence.
    + destruct (net_session n) eqn:E; [discriminate|]. injection Hf as <-.
      destruct Hs as (? & ? & ? & ? & ? & ?). unfold net_same. cbn in *. split_goal; congruence.
    + destruct (add_new a (net_v4 n)) as [b' l] eqn:E. injection Hf as -> <-. apply remove_add_new in E.
      destruct Hs as (? & ? & Hx & ? & ? & ?). cbn in *. destruct b; unfold net_same; cbn; rewrite ?Hx; split_goal; congruence.
    + destruct (add_new a (net_v6 n)) as [b' l] eqn:E. injection Hf as -> <-. apply remove_add_new in E.
      destruct Hs as (? & ? & ? & Hx & ? & ?). cbn in *. destruct b; unfold net_same; cbn; rewrite ?Hx; split_goal; congruence.
    + case_bool_decide; injection Hf as <- <-; destruct Hs as (? & ? & ? & ? & ? & ?);
        unfold net_same; cbn in *; split_goal; congruence.
    + destruct (add_new r (net_routes n)) as [b' l] eqn:E. injection Hf as -> <-. apply remove_add_new in E.
      destruct Hs as (? & ? & ? & ? & ? & Hx). cbn in *. destruct b; unfold net_same; cbn; rewrite ?Hx; split_goal; congruence.
Defined.

(** ** Witnesses *)

(** An IP library that knows one address. *)
Definition one_address_library : IpLibrary := {|
  make_address_v6 text := if bool_decide (text = "fd00:8::") then Some ([253; 0; 0; 8] ++ zeros 12, 0) else None;
  address_v6_to_string _ := "fd00:8::";
  make_address text := None
|}.
Definition sample_net (fuse : nat) : Net :=
  mkNet false false [] [] (mkMtuSnapshot 1500 1500) [RouteV4 (mkIpv4Route [10; 9; 0; 0] 16 [10; 8; 0; 1])] fuse.
(** The second route exists already; the third call to [add_route] fails
    when the fuse is 7. *)
Definition sample_routes : list string := ["10.8.0.0/24"; "10.9.0.0/16"; "fd00:8::/64"].

Lemma idle_make_transaction : idle make_transaction.
Proof. repeat split. Qed.

Lemma activation_atomic_witness :
  exists s' t', @activate one_address_library Net Net_backend sample_assignment sample_routes
      (sample_net 7, make_transaction) = (Throw (RuntimeError "injected failure"), (s', t')) /\
    net_same s' (sample_net 7) /\ idle t'.
Proof.
  pose proof (@activation_atomic one_address_library Net Net_backend Net_laws sample_assignment sample_routes
    (sample_net 7) make_transaction idle_make_transaction ltac:(discriminate)) as H.
  destruct (@activate one_address_library Net Net_backend sample_assignment sample_routes
      (sample_net 7, make_transaction)) as [[[]|e] [s' t']] eqn:E; [vm_compute in E; discriminate|].
  exists s', t'. assert (e = RuntimeError "injected failure") as -> by (vm_compute in E; injection E as <- _ _; reflexivity).
  split; [reflexivity|]. exact H.
Defined.

Lemma rollback_reverses_setup_witness :
  exists s' t', @activate one_address_library Net Net_backend sample_assignment sample_routes
      (sample_net 20, make_transaction) = (Ok tt, (s', t')) /\
    exists calls t2, trace calls (sample_net 20) s' /\
      rollback (s', t') = (Ok tt, (apply_plan (rev (omap undo_of calls)) s', t2)).
Proof.
  pose proof (@rollback_reverses_setup one_address_library Net Net_backend sample_assignment sample_routes
    (sample_net 20) make_transaction idle_make_transaction ltac:(discriminate)) as H.
  destruct (@activate one_address_library Net Net_backend sample_assignment sample_routes
      (sample_net 20, make_transaction)) as [[[]|e] [s' t']] eqn:E; [|vm_compute in E; discriminate].
  exists s', t'. split; [reflexivity|].
  destruct H as (routes & c4 & c6 & prior & crs & _ & _ & Htr & t2 & Hr).
  eexists _, t2. split; [exact Htr|exact Hr].
Defined.

Lemma route_texts_exact_witness :
  @parse_route_v6 one_address_library ("fd00:8::" +:+ "/" +:+ to_string 16) (zeros 16) =
    Throw (InvalidArgument "IPv6 route address must be canonical network address") /\
  parse_route "10.8.0.2/24" [10; 8; 0; 1] = Ok (mkIpv4Route [10; 8; 0; 2] 24 [10; 8; 0; 1]).
Proof.
  destruct (@route_texts_exact one_address_library sample_assignment [10; 8; 0; 2] "fd00:8::" 24
    ([253; 0; 0; 8] ++ zeros 12) 16 (zeros 16)) as (_ & _ & H & _);
    try decide_prop; try lia; try discriminate; try reflexivity.
  all: try (split; [decide_prop|reflexivity]).
  split.
  - apply H. intros Hc. specialize (Hc 28 ltac:(lia)). vm_compute in Hc. discriminate.
  - vm_compute. reflexivity.
Defined.
