(* ===== verification/BrokerProtocol.v ===== *)
(** * The privilege broker's request format

    Models src/broker/broker_protocol.cpp and its header: little-endian
    frames with a length prefix, a magic number, a version, a request type,
    a request identifier and, for Connect, a profile identifier. *)
From S2P Require Import Prelude Bytes.

Definition magic : bytes := [80; 86; 66; 82]. (* PVBR *)
Definition protocol_version : Z := 1.
Definition frame_header_size : Z := 20.
Definition maximum_frame_size : Z := 128.
Definition maximum_profile_id_size : Z := 64.

(** [enum class RequestType : std::uint16_t]; an object can hold any value. *)
Inductive RequestType := Connect | Disconnect | GetStatus | OtherRequest (raw : Z).

#[export] Instance RequestType_eq_dec : EqDecision RequestType.
Proof. solve_decision. Defined.

Definition RequestType_to_u16 (t : RequestType) : Z :=
  match t with Connect => 1 | Disconnect => 2 | GetStatus => 3 | OtherRequest raw => raw end.
(** [static_cast<RequestType>(raw)] *)
Definition RequestType_of_u16 (raw : Z) : RequestType :=
  if raw =? 1 then Connect else if raw =? 2 then Disconnect else if raw =? 3 then GetStatus
  else OtherRequest raw.

Record Request := mkRequest {
  rq_type : RequestType;
  request_id : Z;
  profile_id : string
}.

Definition append_u16 (output : bytes) (value : Z) : bytes :=
  push_back (push_back output (u8 (Z.land value 255))) (u8 (Z.land (Z.shiftr value 8) 255)).
Definition append_u64 (output : bytes) (value : Z) : bytes :=
  fold_left (fun out shift => push_back out (u8 (Z.land (Z.shiftr value shift) 255)))
    [0; 8; 16; 24; 32; 40; 48; 56] output.

Definition read_u16 (input : bytes) (offset : Z) : Z :=
  u16 (Z.lor (at_ input offset) (u16 (Z.shiftl (at_ input (offset + 1)) 8))).
Definition read_u32 (input : bytes) (offset : Z) : Z :=
  fold_left (fun value index => Z.lor value (u32 (Z.shiftl (at_ input (offset + index)) (index * 8))))
    [0; 1; 2; 3] 0.
Definition read_u64 (input : bytes) (offset : Z) : Z :=
  fold_left (fun value index => Z.lor value (u64 (Z.shiftl (at_ input (offset + index)) (index * 8))))
    [0; 1; 2; 3; 4; 5; 6; 7] 0.

Definition profile_character (c : Z) : bool :=
  let ascii_letter := ((97 <=? c) && (c <=? 122)) || ((65 <=? c) && (c <=? 90)) in
  let digit := (48 <=? c) && (c <=? 57) in
  negb (negb ascii_letter && negb digit && negb (c =? 45) && negb (c =? 95)).

Definition valid_profile_id (profile_id : string) : bool :=
  let text := string_bytes profile_id in
  if (zlen text =? 0) || (maximum_profile_id_size <? zlen text) then false
  else forallb profile_character text.

(** [for (index = 0; index < 4; ++index) frame[index] = ...] *)
Definition patch_length (frame : bytes) (body_length : Z) : bytes :=
  fold_left (fun frame index =>
      <[Z.to_nat index := u8 (Z.land (Z.shiftr body_length (index * 8)) 255)]> frame)
    [0; 1; 2; 3] frame.

Definition encode_request (request : Request) : outcome bytes :=
  let? _ := reject_if (request_id request =? 0)
    (InvalidArgument "broker request ID must be nonzero") in
  let frame := push_back (push_back (push_back (push_back [] 0) 0) 0) 0 in
  let frame := frame ++ magic in
  let frame := append_u16 frame protocol_version in
  let frame := append_u16 frame (RequestType_to_u16 (rq_type request)) in
  let frame := append_u64 frame (request_id request) in
  let? frame := match rq_type request with
    | Connect =>
        let? _ := reject_if (negb (valid_profile_id (profile_id request)))
          (InvalidArgument "broker profile ID is invalid") in
        let frame := append_u16 frame (u16 (zlen (string_bytes (profile_id request)))) in
        Ok (frame ++ string_bytes (profile_id request))
    | Disconnect | GetStatus =>
        let? _ := reject_if (negb (bool_decide (profile_id request = "")))
          (InvalidArgument "broker request has an unexpected profile ID") in
        Ok frame
    | OtherRequest _ => Throw (InvalidArgument "broker request type is unknown")
    end in
  let body_size := zlen frame - 4 in
  let? _ := reject_if (maximum_frame_size <? zlen frame)
    (InvalidArgument "broker request exceeds the maximum frame size") in
  let body_length := u32 body_size in
  Ok (patch_length frame body_length).

Definition decode_request (frame : bytes) : outcome Request :=
  let? _ := reject_if ((zlen frame <? frame_header_size) || (maximum_frame_size <? zlen frame))
    (InvalidArgument "broker frame size is invalid") in
  let? _ := reject_if (negb (read_u32 frame 0 =? zlen frame - 4))
    (InvalidArgument "broker frame length prefix is invalid") in
  let? _ := reject_if (negb (forallb (fun index => at_ frame (4 + index) =? at_ magic index) [0; 1; 2; 3]))
    (InvalidArgument "broker frame magic is invalid") in
  let? _ := reject_if (negb (read_u16 frame 8 =? protocol_version))
    (InvalidArgument "broker protocol version is unsupported") in
  let type := RequestType_of_u16 (read_u16 frame 10) in
  let id := read_u64 frame 12 in
  let? _ := reject_if (id =? 0) (InvalidArgument "broker request ID must be nonzero") in
  match type with
  | Connect =>
      let? _ := reject_if (zlen frame <? frame_header_size + 2)
        (InvalidArgument "broker connect request is truncated") in
      let profile_size := read_u16 frame frame_header_size in
      let? _ := reject_if ((maximum_profile_id_size <? profile_size) ||
                           negb (zlen frame =? frame_header_size + 2 + profile_size))
        (InvalidArgument "broker profile ID length is invalid") in
      let profile := bytes_string (drop (Z.to_nat (frame_header_size + 2)) frame) in
      let? _ := reject_if (negb (valid_profile_id profile))
        (InvalidArgument "broker profile ID is invalid") in
      Ok (mkRequest type id profile)
  | Disconnect | GetStatus =>
      let? _ := reject_if (negb (zlen frame =? frame_header_size))
        (InvalidArgument "broker request has an unexpected payload") in
      Ok (mkRequest type id "")
  | OtherRequest _ => Throw (InvalidArgument "broker request type is unknown")
  end.

Definition request_wf (r : Request) : Prop :=
  in_u16 (RequestType_to_u16 (rq_type r)) /\ in_u64 (request_id r) /\
  rq_type r = RequestType_of_u16 (RequestType_to_u16 (rq_type r)).

#[export] Instance Request_codec : Codec Request :=
  { codec_encode := encode_request; codec_decode := decode_request; codec_wf := request_wf }.

(** ** Little-endian numbers *)

(** The [n] low bytes of [v], lowest first. *)
Fixpoint le_digits (n : nat) (v : Z) : bytes :=
  match n with O => [] | S n' => v mod 256 :: le_digits n' (v / 256) end.

Lemma digit_shift v n : 0 <= n -> v / 2 ^ n / 256 = v / 2 ^ (n + 8).
Proof. intros. rewrite Z.div_div by lia. rewrite Z.pow_add_r by lia. reflexivity. Qed.

Lemma append_u16_le out v : append_u16 out v = out ++ le_digits 2 v.
Proof.
  unfold append_u16, push_back. rewrite shifted_byte, low_byte by lia.
  rewrite <- app_assoc. reflexivity.
Qed.
Lemma append_u64_le out v : append_u64 out v = out ++ le_digits 8 v.
Proof.
  unfold append_u64, push_back, fold_left. rewrite !shifted_byte by lia.
  rewrite <- !app_assoc. cbn [le_digits]. change (v / 2 ^ 0) with (v / 1). rewrite Z.div_1_r.
  change (v / 256) with (v / 2 ^ 8). rewrite !digit_shift by lia. reflexivity.
Qed.

(** Adding a byte above the low bytes. *)
Lemma lor_high v b n :
  0 <= n -> 0 <= v < 2 ^ n -> Z.lor v (Z.shiftl b n) = v + b * 2 ^ n.
Proof. intros. rewrite Z.lor_comm, lor_shiftl_add by lia. lia. Qed.

(** The value of bytes, lowest first. *)
Fixpoint le_value (l : bytes) : Z := match l with [] => 0 | b :: l' => b + 256 * le_value l' end.

Lemma le_value_range l : is_bytes l -> 0 <= le_value l < 2 ^ (8 * zlen l).
Proof.
  induction 1 as [|b l Hb Hl IH]; [split; vm_compute; congruence|]. cbn [le_value]. rewrite zlen_cons.
  replace (8 * (1 + zlen l)) with (8 + 8 * zlen l) by lia.
  pose proof (zlen_nonneg l). rewrite Z.pow_add_r by lia. change (2 ^ 8) with 256. int_lia.
Qed.
Lemma le_value_app l k : le_value (l ++ k) = le_value l + 2 ^ (8 * zlen l) * le_value k.
Proof.
  induction l as [|b l IH]; [cbn [app le_value]; change (2 ^ (8 * zlen (@nil Z))) with 1; lia|].
  cbn [app le_value]. rewrite IH, zlen_cons. pose proof (zlen_nonneg l).
  replace (8 * (1 + zlen l)) with (8 + 8 * zlen l) by lia.
  rewrite Z.pow_add_r by lia. change (2 ^ 8) with 256. ring.
Qed.

(** The reading loops. *)
Lemma read_le (n : nat) w (f : Z -> Z) :
  (forall i, in_u8 (f i)) -> 8 * Z.of_nat n <= w ->
  fold_left (fun value index => Z.lor value (Z.shiftl (f index) (index * 8) mod 2 ^ w))
    (seqZ 0 (Z.of_nat n)) 0 = le_value (map f (seqZ 0 (Z.of_nat n))).
Proof.
  intros Hf. induction n as [|n IH]; intros Hw; [reflexivity|].
  replace (Z.of_nat (S n)) with (Z.of_nat n + 1) by lia. rewrite seqZ_app by lia.
  assert (seqZ (0 + Z.of_nat n) 1 = [Z.of_nat n]) as ->.
  { rewrite seqZ_cons by lia. rewrite seqZ_nil by lia. reflexivity. }
  rewrite fold_left_app, IH, map_app, le_value_app by lia.
  assert (Hlen : zlen (map f (seqZ 0 (Z.of_nat n))) = Z.of_nat n).
  { unfold zlen. rewrite length_map, length_seqZ. lia. }
  assert (Hb : is_bytes (map f (seqZ 0 (Z.of_nat n)))).
  { apply Forall_forall. intros x (i & -> & _)%list_elem_of_fmap. apply Hf. }
  pose proof (le_value_range _ Hb) as Hr. rewrite Hlen in *.
  cbn [fold_left map le_value].
  pose proof (Hf (Z.of_nat n)) as Hfn.
  replace (Z.of_nat n * 8) with (8 * Z.of_nat n) by lia. rewrite Z.mod_small.
  - rewrite lor_high by lia. lia.
  - rewrite Z.shiftl_mul_pow2 by lia. split; [int_lia|].
    apply Z.lt_le_trans with (2 ^ 8 * 2 ^ (8 * Z.of_nat n)).
    + apply Z.mul_lt_mono_pos_r; [apply Z.pow_pos_nonneg; lia|]. int_lia.
    + rewrite <- Z.pow_add_r by lia. apply Z.pow_le_mono_r; lia.
Qed.

Lemma read_u32_le l o : is_bytes l ->
  read_u32 l o = le_value [at_ l (o + 0); at_ l (o + 1); at_ l (o + 2); at_ l (o + 3)].
Proof. intros Hb. apply (read_le 4 32 (fun i => at_ l (o + i))); [auto with vpn|lia]. Qed.
Lemma read_u64_le l o : is_bytes l ->
  read_u64 l o = le_value [at_ l (o + 0); at_ l (o + 1); at_ l (o + 2); at_ l (o + 3);
                           at_ l (o + 4); at_ l (o + 5); at_ l (o + 6); at_ l (o + 7)].
Proof. intros Hb. apply (read_le 8 64 (fun i => at_ l (o + i))); [auto with vpn|lia]. Qed.
Lemma read_u16_le l o : is_bytes l -> read_u16 l o = le_value [at_ l o; at_ l (o + 1)].
Proof.
  intros Hb. pose proof (at_range l o Hb). pose proof (at_range l (o + 1) Hb). unfold read_u16.
  rewrite (u16_id (Z.shiftl _ _)) by (rewrite Z.shiftl_mul_pow2 by lia; int_lia).
  rewrite lor_high by int_lia. cbn [le_value]. rewrite u16_id; int_lia.
Qed.

(** Digits and values are inverse to each other. *)
Lemma le_value_digits n v : 0 <= v < 2 ^ (8 * Z.of_nat n) -> le_value (le_digits n v) = v.
Proof.
  revert v. induction n as [|n IH]; intros v Hv.
  - change (2 ^ (8 * Z.of_nat 0)) with 1 in Hv. cbn. lia.
  - cbn [le_digits le_value]. rewrite IH; [pose proof (Z.div_mod v 256); lia|].
    replace (8 * Z.of_nat (S n)) with (8 + 8 * Z.of_nat n) in Hv by lia.
    rewrite Z.pow_add_r in Hv by lia. change (2 ^ 8) with 256 in Hv.
    split; [apply Z.div_pos; lia|]. apply Z.div_lt_upper_bound; lia.
Qed.
Lemma le_digits_value l : is_bytes l -> le_digits (length l) (le_value l) = l.
Proof.
  induction 1 as [|b l Hb Hl IH]; [reflexivity|]. cbn [length le_digits le_value].
  replace ((b + 256 * le_value l) mod 256) with b by div_lia.
  replace ((b + 256 * le_value l) / 256) with (le_value l) by div_lia. rewrite IH. reflexivity.
Qed.
Lemma is_bytes_le_digits n v : is_bytes (le_digits n v).
Proof.
  revert v. induction n as [|n IH]; intros v; [constructor|]. constructor; [div_lia|apply IH].
Qed.
Lemma zlen_le_digits n v : zlen (le_digits n v) = Z.of_nat n.
Proof. revert v. induction n as [|n IH]; intros v; [reflexivity|]. cbn [le_digits]. rewrite zlen_cons, IH. lia. Qed.
#[export] Hint Resolve is_bytes_le_digits : vpn.

(** ** The wire form of a request *)

(** The fields after the length prefix. *)
Definition request_body (r : Request) : bytes :=
  magic ++ le_digits 2 protocol_version ++ le_digits 2 (RequestType_to_u16 (rq_type r)) ++
  le_digits 8 (request_id r) ++
  match rq_type r with
  | Connect => le_digits 2 (zlen (string_bytes (profile_id r))) ++ string_bytes (profile_id r)
  | _ => []
  end.

(** The requests the broker accepts. *)
Definition request_valid (r : Request) : Prop :=
  request_id r <> 0 /\
  match rq_type r with
  | Connect => valid_profile_id (profile_id r) = true
  | Disconnect | GetStatus => profile_id r = ""
  | OtherRequest _ => False
  end.

Lemma patch_length_eq v l : patch_length (0 :: 0 :: 0 :: 0 :: l) v = le_digits 4 v ++ l.
Proof.
  unfold patch_length. cbn [fold_left]. rewrite !shifted_byte by lia.
  change (Z.to_nat 0) with 0%nat. change (Z.to_nat 1) with 1%nat.
  change (Z.to_nat 2) with 2%nat. change (Z.to_nat 3) with 3%nat.
  cbn [insert list_insert le_digits app].
  change (v / 2 ^ (0 * 8)) with (v / 1). rewrite Z.div_1_r.
  change (v / 256) with (v / 2 ^ (1 * 8)). rewrite !digit_shift by lia. reflexivity.
Qed.

Lemma valid_profile_size p :
  valid_profile_id p = true -> 0 < zlen (string_bytes p) <= maximum_profile_id_size.
Proof.
  unfold valid_profile_id. cbn zeta. intros H. pose proof (zlen_nonneg (string_bytes p)).
  destruct (_ || _)%bool eqn:E in H; [discriminate|]. b2p. lia.
Qed.

Definition wire_request (r : Request) : bytes :=
  le_digits 4 (zlen (request_body r)) ++ request_body r.

Lemma zlen_request_body r :
  zlen (request_body r) = 16 + match rq_type r with
                               | Connect => 2 + zlen (string_bytes (profile_id r)) | _ => 0 end.
Proof.
  unfold request_body. rewrite !zlen_app, !zlen_le_digits. change (zlen magic) with 4.
  destruct (rq_type r); rewrite ?zlen_app, ?zlen_le_digits; change (zlen (@nil Z)) with 0; lia.
Qed.

(** The last steps of [encode_request]. *)
Lemma finish_frame frame tail p :
  frame = 0 :: 0 :: 0 :: 0 :: tail -> zlen tail <= 124 ->
  (let? _ := reject_if (maximum_frame_size <? zlen frame)
       (InvalidArgument "broker request exceeds the maximum frame size") in
   Ok (patch_length frame (u32 (zlen frame - 4)))) = Ok p ->
  p = le_digits 4 (zlen tail) ++ tail.
Proof.
  intros -> Ht. pose proof (zlen_nonneg tail). rewrite !zlen_cons.
  replace (1 + (1 + (1 + (1 + zlen tail))) - 4) with (zlen tail) by lia.
  unfold maximum_frame_size. rewrite (proj2 (Z.ltb_ge _ _)) by lia. cbn [reject_if obind].
  rewrite u32_id by int_lia. rewrite patch_length_eq. intros <-%ok_inj. reflexivity.
Qed.

Lemma encode_request_valid r :
  request_valid r -> exists p, encode_request r = Ok p.
Proof.
  intros [Hid Hv]. unfold encode_request.
  rewrite (proj2 (Z.eqb_neq _ _)) by assumption. cbn [reject_if obind].
  rewrite !append_u16_le, append_u64_le. cbn [push_back app].
  destruct (rq_type r); [..|contradiction].
  - rewrite Hv. cbn [negb reject_if obind]. pose proof (valid_profile_size _ Hv) as Hs.
    unfold maximum_profile_id_size in Hs. rewrite u16_id by int_lia.
    unfold maximum_frame_size. rewrite (proj2 (Z.ltb_ge _ _)); [eexists; reflexivity|].
    rewrite !zlen_cons, !zlen_app, !zlen_le_digits. change (zlen magic) with 4. lia.
  - rewrite bool_decide_eq_true_2 by assumption. eexists. reflexivity.
  - rewrite bool_decide_eq_true_2 by assumption. eexists. reflexivity.
Qed.

(** [encode_request] accepts the valid requests and writes the wire form. *)
Lemma encode_request_iff r p :
  encode_request r = Ok p <-> request_valid r /\ p = wire_request r.
Proof.
  assert (Hfwd : forall p, encode_request r = Ok p -> request_valid r /\ p = wire_request r).
  { clear p. intros p. unfold encode_request, request_valid, wire_request.
    rewrite reject_then, Z.eqb_neq, !append_u16_le, append_u64_le. cbn [push_back app].
    pose proof (zlen_request_body r) as Hz. unfold request_body in *.
    intros [Hid H]. apply obind_ok in H as (frame & Hf & H).
    destruct (rq_type r) eqn:Et; [..|discriminate]; apply reject_then in Hf as [Hv Hf]; b2p;
      apply ok_inj in Hf; rewrite <- ?app_assoc in Hf; cbn [app] in Hf; symmetry in Hf;
      rewrite ?app_nil_r in *.
    - pose proof (valid_profile_size _ Hv) as Hs. unfold maximum_profile_id_size in Hs.
      rewrite u16_id in Hf by int_lia. split; [auto|].
      eapply finish_frame; [exact Hf| |exact H]. rewrite Hz. lia.
    - split; [auto|]. eapply finish_frame; [exact Hf| |exact H]. rewrite Hz. lia.
    - split; [auto|]. eapply finish_frame; [exact Hf| |exact H]. rewrite Hz. lia. }
  split; [apply Hfwd|]. intros [Hv ->]. destruct (encode_request_valid r Hv) as [p Hp].
  destruct (Hfwd p Hp) as [_ <-]. exact Hp.
Qed.

(** ** Reading a frame's fields back *)

Lemma read_fields (a m b c d t : bytes) :
  length a = 4%nat -> length m = 4%nat -> length b = 2%nat -> length c = 2%nat -> length d = 8%nat ->
  is_bytes (a ++ m ++ b ++ c ++ d ++ t) ->
  let p := a ++ m ++ b ++ c ++ d ++ t in
  read_u32 p 0 = le_value a /\
  map (fun i => at_ p (4 + i)) [0; 1; 2; 3] = m /\
  read_u16 p 8 = le_value b /\ read_u16 p 10 = le_value c /\ read_u64 p 12 = le_value d /\
  drop 20 p = t /\ zlen p = 20 + zlen t /\
  (forall e u, t = e ++ u -> length e = 2%nat -> read_u16 p 20 = le_value e /\ drop 22 p = u).
Proof.
  intros La Lm Lb Lc Ld Hp. cbv zeta.
  rewrite read_u32_le, !read_u16_le, read_u64_le by assumption.
  destruct a as [|? [|? [|? [|? [|]]]]]; try discriminate La.
  destruct m as [|? [|? [|? [|? [|]]]]]; try discriminate Lm.
  destruct b as [|? [|? [|]]]; try discriminate Lb.
  destruct c as [|? [|? [|]]]; try discriminate Lc.
  destruct d as [|? [|? [|? [|? [|? [|? [|? [|? [|]]]]]]]]]; try discriminate Ld.
  split_goal; try reflexivity.
  - cbn [app]. rewrite !zlen_cons. lia.
  - intros e u -> He. destruct e as [|? [|? [|]]]; try discriminate He. split; reflexivity.
Qed.

(** A frame of at least twenty bytes is made of the header's fields. *)
Lemma frame_parts (p : bytes) : 20 <= zlen p -> exists a m b c d t : bytes,
  p = a ++ m ++ b ++ c ++ d ++ t /\ length a = 4%nat /\ length m = 4%nat /\ length b = 2%nat /\
  length c = 2%nat /\ length d = 8%nat.
Proof.
  intros Hp. unfold zlen in Hp.
  exists (take 4 p), (take 4 (drop 4 p)), (take 2 (drop 8 p)), (take 2 (drop 10 p)),
    (take 8 (drop 12 p)), (drop 20 p).
  rewrite !length_take, !length_drop. split; [|split_goal; lia].
  assert (Hcut : forall n k x, drop (n + k) p = x -> drop n p = take k (drop n p) ++ x)
    by (intros n k x <-; rewrite <- drop_drop; symmetry; apply take_drop).
  rewrite <- (drop_0 p) at 1. rewrite <- (drop_0 p) at 1. do 5 (apply Hcut). reflexivity.
Qed.

Lemma le_digits_of l n v : is_bytes l -> length l = n -> le_value l = v -> l = le_digits n v.
Proof. intros Hl <- <-. symmetry. apply le_digits_value, Hl. Qed.

Lemma request_type_raw raw : RequestType_to_u16 (RequestType_of_u16 raw) = raw.
Proof.
  unfold RequestType_of_u16.
  destruct (Z.eqb_spec raw 1) as [->|]; [reflexivity|].
  destruct (Z.eqb_spec raw 2) as [->|]; [reflexivity|].
  destruct (Z.eqb_spec raw 3) as [->|]; reflexivity.
Qed.

Lemma magic_test p :
  forallb (fun index => at_ p (4 + index) =? at_ magic index) [0; 1; 2; 3] = true <->
  map (fun i => at_ p (4 + i)) [0; 1; 2; 3] = magic.
Proof.
  cbn [forallb map]. rewrite !andb_true_iff, !Z.eqb_eq. unfold magic.
  change (at_ [80; 86; 66; 82] 0) with 80. change (at_ [80; 86; 66; 82] 1) with 86.
  change (at_ [80; 86; 66; 82] 2) with 66. change (at_ [80; 86; 66; 82] 3) with 82.
  split; [intros (-> & -> & -> & -> & _); reflexivity|]. intros [= -> -> -> ->]. auto.
Qed.

(** What [decode_request] makes of the bytes after the header. *)
Definition decoded (ty : RequestType) (id : Z) (t : bytes) (r : Request) : Prop :=
  rq_type r = ty /\ request_id r = id /\
  match ty with
  | Connect => exists e, t = e ++ string_bytes (profile_id r) /\ length e = 2%nat /\
                 le_value e = zlen (string_bytes (profile_id r)) /\ valid_profile_id (profile_id r) = true
  | Disconnect | GetStatus => t = [] /\ profile_id r = ""
  | OtherRequest _ => False
  end.

Lemma decode_fields (a m b c d t : bytes) r :
  length a = 4%nat -> length m = 4%nat -> length b = 2%nat -> length c = 2%nat -> length d = 8%nat ->
  is_bytes (a ++ m ++ b ++ c ++ d ++ t) ->
  decode_request (a ++ m ++ b ++ c ++ d ++ t) = Ok r <->
  zlen t <= 108 /\ le_value a = 16 + zlen t /\ m = magic /\ le_value b = protocol_version /\
  le_value d <> 0 /\ decoded (RequestType_of_u16 (le_value c)) (le_value d) t r.
Proof.
  intros La Lm Lb Lc Ld Hp. pose proof (read_fields a m b c d t La Lm Lb Lc Ld Hp) as H.
  assert (Hbt : is_bytes t) by (unfold is_bytes in *; rewrite !Forall_app in Hp; tauto).
  cbv zeta in H. set (p := a ++ m ++ b ++ c ++ d ++ t) in *.
  destruct H as (Ha & Hm & Hb & Hc & Hd & Ht & Hz & Hprof).
  unfold decode_request. unfold frame_header_size, maximum_frame_size, maximum_profile_id_size.
  rewrite !reject_then, Ha, Hb, Hc, Hd, Hz, !negb_false_iff, magic_test, Hm.
  rewrite orb_false_iff, !Z.ltb_ge, !Z.eqb_eq, Z.eqb_neq.
  change (Z.to_nat (20 + 2)) with 22%nat. pose proof (zlen_nonneg t) as Ht0.
  assert (Hnil : 20 + zlen t = 20 <-> t = [])
    by (split; [intros E; apply zlen_0; lia|intros ->; reflexivity]).
  unfold decoded. destruct r as [ty id prof]. cbn [rq_type request_id profile_id].
  destruct (RequestType_of_u16 (le_value c)) eqn:Et;
    rewrite ?reject_then, ?negb_false_iff, ?orb_false_iff, ?negb_false_iff, ?Z.ltb_ge, ?Z.eqb_eq, ?Hnil.
  - split.
    + intros (_ & ? & ? & ? & ? & Hl & Hs & Hv & [= <- <- <-]).
      destruct t as [|e0 [|e1 u]]; [exfalso; change (zlen (@nil Z)) with 0 in *; lia|
        exfalso; rewrite zlen_cons in *; change (zlen (@nil Z)) with 0 in *; lia|].
      destruct (Hprof [e0; e1] u eq_refl eq_refl) as [He Hu]. rewrite He, Hu in *.
      rewrite !zlen_cons in *.
      assert (Hbu : is_bytes u) by (inversion Hbt as [|? ? ? Hb']; inversion Hb'; auto).
      rewrite string_bytes_string by assumption.
      split_goal; auto; [lia|lia|]. exists [e0; e1]. split_goal; auto. lia.
    + intros (? & ? & ? & ? & ? & -> & -> & e & -> & He & Hle & Hv).
      destruct (Hprof e _ eq_refl He) as [He' Hu]. rewrite He', Hu, Hle, bytes_string_bytes.
      pose proof (valid_profile_size _ Hv) as Hs. unfold maximum_profile_id_size in Hs.
      rewrite zlen_app in *. assert (zlen e = 2) by (unfold zlen; lia).
      split_goal; auto; lia.
  - split; [intros (_ & ? & ? & ? & ? & -> & [= <- <- <-])|
            intros (? & ? & ? & ? & ? & -> & -> & -> & ->)];
      change (zlen (@nil Z)) with 0 in *; split_goal; auto; lia.
  - split; [intros (_ & ? & ? & ? & ? & -> & [= <- <- <-])|
            intros (? & ? & ? & ? & ? & -> & -> & -> & ->)];
      change (zlen (@nil Z)) with 0 in *; split_goal; auto; lia.
  - split; [intros (_ & ? & ? & ? & ? & [=])|tauto].
Qed.

Lemma wire_request_parts r :
  wire_request r = le_digits 4 (zlen (request_body r)) ++ magic ++ le_digits 2 protocol_version ++
    le_digits 2 (RequestType_to_u16 (rq_type r)) ++ le_digits 8 (request_id r) ++
    match rq_type r with
    | Connect => le_digits 2 (zlen (string_bytes (profile_id r))) ++ string_bytes (profile_id r)
    | _ => []
    end.
Proof. reflexivity. Qed.

Lemma is_bytes_wire_request r : is_bytes (wire_request r).
Proof.
  rewrite wire_request_parts. unfold is_bytes.
  rewrite !Forall_app. split_goal; try apply is_bytes_le_digits.
  - repeat constructor; int_lia.
  - destruct (rq_type r); [|constructor..]. apply Forall_app.
    split; [apply is_bytes_le_digits|apply string_bytes_range].
Qed.

Lemma length_le_digits n v : length (le_digits n v) = n.
Proof. pose proof (zlen_le_digits n v). unfold zlen in *. lia. Qed.

(** What is accepted is the wire form of a valid request. *)
Lemma decoded_wire p r : is_bytes p -> decode_request p = Ok r -> request_wf r /\ request_valid r /\ p = wire_request r.
Proof.
  intros Hp H. assert (Hlen : 20 <= zlen p).
  { pose proof H as H'. unfold decode_request in H'. apply reject_then in H' as [H' _].
    b2p. unfold frame_header_size in *. lia. }
  destruct (frame_parts p Hlen) as (a & m & b & c & d & t & -> & La & Lm & Lb & Lc & Ld).
  apply decode_fields in H as (Ht & Ha & Hm & Hb & Hd & Hty & Hid & Hpl); try assumption.
  unfold is_bytes in Hp. rewrite !Forall_app in Hp. destruct Hp as (Ba & Bm & Bb & Bc & Bd & Bt).
  assert (Hraw : RequestType_to_u16 (rq_type r) = le_value c)
    by (rewrite Hty; apply request_type_raw).
  assert (Hr2 : 0 <= le_value c < 2 ^ 16)
    by (pose proof (le_value_range c Bc) as Hr; unfold zlen in Hr; rewrite Lc in Hr; exact Hr).
  assert (Hr8 : 0 <= le_value d < 2 ^ 64)
    by (pose proof (le_value_range d Bd) as Hr; unfold zlen in Hr; rewrite Ld in Hr; exact Hr).
  assert (Hty' : rq_type r = RequestType_of_u16 (RequestType_to_u16 (rq_type r)))
    by (rewrite Hraw; exact Hty).
  unfold request_wf, request_valid. rewrite Hraw, Hid, <- Hty. rewrite Hraw in Hty'.
  rewrite wire_request_parts, zlen_request_body, Hraw, Hid.
  rewrite <- Hty in Hpl.
  rewrite (le_digits_of a 4 _ Ba La eq_refl), (le_digits_of b 2 _ Bb Lb Hb), Hm.
  rewrite (le_digits_of c 2 _ Bc Lc eq_refl) at 2. rewrite (le_digits_of d 8 _ Bd Ld eq_refl) at 3.
  destruct (rq_type r); [..|contradiction].
  - destruct Hpl as (e & -> & Le & Hle & Hv). rewrite zlen_app in Ha.
    assert (zlen e = 2) by (unfold zlen; lia).
    rewrite (le_digits_of e 2 _ ltac:(apply Forall_app in Bt; tauto) Le Hle).
    split_goal; auto; f_equal; f_equal; lia.
  - destruct Hpl as [-> ?]. change (zlen (@nil Z)) with 0 in *.
    split_goal; auto; f_equal; f_equal; lia.
  - destruct Hpl as [-> ?]. change (zlen (@nil Z)) with 0 in *.
    split_goal; auto; f_equal; f_equal; lia.
Qed.

(** And every such wire form is accepted. *)
Lemma wire_decoded r :
  is_bytes (wire_request r) -> request_wf r -> request_valid r -> decode_request (wire_request r) = Ok r.
Proof.
  intros Hp (Hc & Hid & Hty) (Hnz & Hv). rewrite wire_request_parts in *.
  apply decode_fields; try apply length_le_digits; [reflexivity|exact Hp|].
  rewrite zlen_request_body.
  assert (Hz : forall k, 0 <= k <= 108 -> le_value (le_digits 4 (16 + k)) = 16 + k)
    by (intros k Hk; apply le_value_digits; int_lia).
  rewrite (le_value_digits 2 protocol_version) by (vm_compute; intuition discriminate).
  rewrite (le_value_digits 2 (RequestType_to_u16 _)) by exact Hc.
  rewrite (le_value_digits 8) by exact Hid.
  unfold decoded. rewrite <- Hty.
  destruct (rq_type r); [..|contradiction].
  - pose proof (valid_profile_size _ Hv) as Hs. unfold maximum_profile_id_size in Hs.
    rewrite zlen_app, zlen_le_digits, Hz by lia. split_goal; auto; [lia|].
    exists (le_digits 2 (zlen (string_bytes (profile_id r)))). split_goal; auto.
    apply le_value_digits. int_lia.
  - rewrite Hz by lia. change (zlen (@nil Z)) with 0. split_goal; auto; lia.
  - rewrite Hz by lia. change (zlen (@nil Z)) with 0. split_goal; auto; lia.
Qed.

(** [decode_request] accepts exactly the wire forms of the valid requests. *)
Lemma decode_request_iff p r : is_bytes p ->
  decode_request p = Ok r <-> request_wf r /\ request_valid r /\ p = wire_request r.
Proof.
  intros Hp. split; [apply decoded_wire, Hp|]. intros (Hw & Hv & ->). apply wire_decoded; assumption.
Qed.

(** ** The codec is exact *)

#[export] Instance Request_exact : CodecExact Request.
Proof.
  split; simpl.
  - intros p r Hp H. apply decode_request_iff in H; tauto.
  - intros r p _ [_ ->]%encode_request_iff. apply is_bytes_wire_request.
  - intros r p Hw Hp. rewrite decode_request_iff, encode_request_iff by assumption. tauto.
Qed.

Lemma request_size r : request_valid r -> 20 <= zlen (wire_request r) <= 86.
Proof.
  intros [_ Hv]. unfold wire_request. rewrite zlen_app, zlen_le_digits, zlen_request_body.
  destruct (rq_type r); [|lia|lia|contradiction].
  pose proof (valid_profile_size _ Hv) as Hs. unfold maximum_profile_id_size in Hs. lia.
Qed.

Lemma reject_if_error {A} b what (k : outcome A) e :
  (let? _ := reject_if b (InvalidArgument what) in k) = Throw e ->
  e = InvalidArgument what \/ k = Throw e.
Proof. destruct b; simpl; [|auto]. intros [= <-]. auto. Qed.

(** [decode_request] fails in one way only. *)
Lemma decode_request_error p e :
  decode_request p = Throw e -> exists what, e = InvalidArgument what.
Proof.
  unfold decode_request. intros H. do 5 (apply reject_if_error in H as [H|H]; [eauto|]).
  destruct (RequestType_of_u16 _).
  - do 3 (apply reject_if_error in H as [H|H]; [eauto|]). discriminate.
  - apply reject_if_error in H as [H|H]; [eauto|discriminate].
  - apply reject_if_error in H as [H|H]; [eauto|discriminate].
  - injection H as <-. eauto.
Qed.

(** C14: The broker reads exactly the requests that can be written.  Bytes
    decode to a request exactly when that request encodes to these bytes, so a
    frame that is malformed in any field is refused (with invalid_argument and
    nothing else), no two frames mean the same request, and nothing follows a
    request.  What is decoded is a nonzero request id and one of the three
    commands, Connect with a profile name the broker accepts and the other two
    without a name, in at most 86 bytes. *)
Theorem broker_requests_exact p r :
  is_bytes p ->
  (request_wf r -> decode_request p = Ok r <-> encode_request r = Ok p) /\
  (decode_request p = Ok r ->
     request_wf r /\ p = wire_request r /\ 20 <= zlen p <= 86 /\ request_id r <> 0 /\
     match rq_type r with
     | Connect => valid_profile_id (profile_id r) = true
     | Disconnect | GetStatus => profile_id r = ""
     | OtherRequest _ => False
     end) /\
  (forall e, decode_request p = Throw e -> exists what, e = InvalidArgument what).
Proof.
  intros Hp. split; [|split; [|apply decode_request_error]].
  - intros Hw. exact (codec_exact (A := Request) r p Hw Hp).
  - intros (Hw & Hv & ->)%decode_request_iff; [|assumption].
    pose proof (request_size r Hv). destruct Hv. split_goal; auto; lia.
Qed.

Definition sample_request : Request := mkRequest Connect 7 "home-1".

Lemma broker_requests_exact_witness :
  is_bytes (wire_request sample_request) /\
  decode_request (wire_request sample_request) = Ok sample_request /\
  20 <= zlen (wire_request sample_request) <= 86.
Proof.
  assert (Hb : is_bytes (wire_request sample_request)) by decide_prop.
  assert (Hd : decode_request (wire_request sample_request) = Ok sample_request) by (vm_compute; reflexivity).
  split; [exact Hb|split; [exact Hd|]].
  exact (proj1 (proj2 (proj2 (proj1 (proj2 (broker_requests_exact _ sample_request Hb)) Hd)))).
Defined.
