(* ===== verification/ServerMetrics.v ===== *)
(** * The server's counters and their rendering

    Models src/server/include/personal_vpn/server_metrics.hpp and
    src/server/metrics_exporter.cpp.  A counter is a
    [std::atomic<std::uint64_t>]: an update is one indivisible step and wraps
    at 2^64. *)
From S2P Require Import Prelude.

Record ServerMetrics := mkMetrics {
  accepted_connections : Z;
  capacity_rejections : Z;
  handshake_failures : Z;
  handshake_timeouts : Z;
  idle_timeouts : Z;
  established_sessions : Z;
  closed_sessions : Z;
  queue_overflows : Z;
  uplink_packets : Z;
  uplink_bytes : Z;
  downlink_packets : Z;
  downlink_bytes : Z
}.

Definition empty_metrics : ServerMetrics := mkMetrics 0 0 0 0 0 0 0 0 0 0 0 0.

(** The counters by name, so that [fetch_add] is one function. *)
Inductive Counter :=
| C_accepted_connections
| C_capacity_rejections
| C_handshake_failures
| C_handshake_timeouts
| C_idle_timeouts
| C_established_sessions
| C_closed_sessions
| C_queue_overflows
| C_uplink_packets
| C_uplink_bytes
| C_downlink_packets
| C_downlink_bytes.

Definition counter (k : Counter) (m : ServerMetrics) : Z :=
  match k with
  | C_accepted_connections => accepted_connections m
  | C_capacity_rejections => capacity_rejections m
  | C_handshake_failures => handshake_failures m
  | C_handshake_timeouts => handshake_timeouts m
  | C_idle_timeouts => idle_timeouts m
  | C_established_sessions => established_sessions m
  | C_closed_sessions => closed_sessions m
  | C_queue_overflows => queue_overflows m
  | C_uplink_packets => uplink_packets m
  | C_uplink_bytes => uplink_bytes m
  | C_downlink_packets => downlink_packets m
  | C_downlink_bytes => downlink_bytes m
  end.

#[export] Instance Counter_eq_dec : EqDecision Counter.
Proof. solve_decision. Defined.

(** [counter.fetch_add(n)]; [++counter] adds 1. *)
Definition fetch_add (k : Counter) (n : Z) (m : ServerMetrics) : ServerMetrics :=
  let value j := if bool_decide (j = k) then u64 (counter j m + n) else counter j m in
  mkMetrics
    (value C_accepted_connections) (value C_capacity_rejections) (value C_handshake_failures)
    (value C_handshake_timeouts) (value C_idle_timeouts) (value C_established_sessions)
    (value C_closed_sessions) (value C_queue_overflows) (value C_uplink_packets)
    (value C_uplink_bytes) (value C_downlink_packets) (value C_downlink_bytes).

Lemma counter_fetch_add j k n m :
  counter j (fetch_add k n m) = if bool_decide (j = k) then u64 (counter j m + n) else counter j m.
Proof. destruct j; reflexivity. Qed.

(** ** src/server/metrics_exporter.cpp *)

Definition quote : string := String (Ascii.ascii_of_N 34) "".
Definition newline : string := String (Ascii.ascii_of_N 10) "".

(** The members of the JSON object, in the order they are written. *)
Definition json_members (metrics : ServerMetrics) (active_sessions : Z) : list (string * Z) :=
  [("schema_version", 1);
   ("accepted", accepted_connections metrics);
   ("capacity_rejections", capacity_rejections metrics);
   ("handshake_failures", handshake_failures metrics);
   ("handshake_timeouts", handshake_timeouts metrics);
   ("idle_timeouts", idle_timeouts metrics);
   ("established", established_sessions metrics);
   ("closed", closed_sessions metrics);
   ("active", active_sessions);
   ("queue_overflows", queue_overflows metrics);
   ("uplink_packets", uplink_packets metrics);
   ("uplink_bytes", uplink_bytes metrics);
   ("downlink_packets", downlink_packets metrics);
   ("downlink_bytes", downlink_bytes metrics)].

(** The chain of [output <<] for the members, each with its comma. *)
Fixpoint render_members (members : list (string * Z)) : string :=
  match members with
  | [] => ""
  | (name, value) :: rest =>
      "," +:+ quote +:+ name +:+ quote +:+ ":" +:+ to_string value +:+ render_members rest
  end.

Definition render_server_metrics_json (metrics : ServerMetrics) (active_sessions : Z) : string :=
  "{" +:+ quote +:+ "event" +:+ quote +:+ ":" +:+ quote +:+ "server_metrics" +:+ quote +:+
  render_members (json_members metrics active_sessions) +:+ "}" +:+ newline.

(** The lambda [counter] of [render_server_metrics_prometheus]. *)
Definition render_counter (name : string) (value : Z) : string :=
  "# TYPE personal_vpn_" +:+ name +:+ " counter" +:+ newline +:+
  "personal_vpn_" +:+ name +:+ "_total " +:+ to_string value +:+ newline.

Definition render_server_metrics_prometheus (metrics : ServerMetrics) (active_sessions : Z) : string :=
  "# HELP personal_vpn_metrics_schema_info Metrics schema version." +:+ newline +:+
  "# TYPE personal_vpn_metrics_schema_info gauge" +:+ newline +:+
  "personal_vpn_metrics_schema_info{version=" +:+ quote +:+ "1" +:+ quote +:+ "} 1" +:+ newline +:+
  render_counter "accepted_connections" (accepted_connections metrics) +:+
  render_counter "capacity_rejections" (capacity_rejections metrics) +:+
  render_counter "handshake_failures" (handshake_failures metrics) +:+
  render_counter "handshake_timeouts" (handshake_timeouts metrics) +:+
  render_counter "idle_timeouts" (idle_timeouts metrics) +:+
  render_counter "established_sessions" (established_sessions metrics) +:+
  render_counter "closed_sessions" (closed_sessions metrics) +:+
  render_counter "queue_overflows" (queue_overflows metrics) +:+
  render_counter "uplink_packets" (uplink_packets metrics) +:+
  render_counter "uplink_bytes" (uplink_bytes metrics) +:+
  render_counter "downlink_packets" (downlink_packets metrics) +:+
  render_counter "downlink_bytes" (downlink_bytes metrics) +:+
  "# TYPE personal_vpn_active_sessions gauge" +:+ newline +:+
  "personal_vpn_active_sessions " +:+ to_string active_sessions +:+ newline.
