(* ===== verification/AsyncIo.v ===== *)
(** * Asynchronous input and output, and what a computation guarantees

    The programs use boost::asio through completion handlers that run one at
    a time on a strand.  A handler is a computation that returns; what it
    started is recorded as pending in a [Stream], and the completion of a
    pending operation, with its error code, is an event the environment
    chooses.  [wp] is the weakest precondition calculus in which the handlers
    are specified. *)
From S2P Require Import Prelude.

(** A socket, a TLS stream or a descriptor: the operations in flight, the
    buffers handed to it for writing so far (the one in flight last), and
    whether it has been closed.  [misused] is not in the program: it records
    that an operation was started while one of its kind was in flight, or
    after the stream was closed, which asio does not allow. *)
Record Stream := mkStream {
  handshaking : bool;
  reading : bool;
  writing : option bytes;
  written : list bytes;
  closed : bool;
  misused : bool
}.

Definition fresh_stream : Stream := mkStream false false None [] false false.

(** [async_handshake], [async_read_some], [async_write]: the operation starts. *)
Definition async_handshake (s : Stream) : Stream :=
  mkStream true (reading s) (writing s) (written s) (closed s)
    (misused s || handshaking s || closed s).
Definition async_read_some (s : Stream) : Stream :=
  mkStream (handshaking s) true (writing s) (written s) (closed s)
    (misused s || reading s || closed s).
Definition async_write (buffer : bytes) (s : Stream) : Stream :=
  mkStream (handshaking s) (reading s) (Some buffer) (written s ++ [buffer]) (closed s)
    (misused s || bool_decide (is_Some (writing s)) || closed s).
(** [cancel], [shutdown], [close]: what is in flight still completes, with an error. *)
Definition close_stream (s : Stream) : Stream :=
  mkStream (handshaking s) (reading s) (writing s) (written s) true (misused s).

(** An operation in flight completes; its handler runs next. *)
Definition handshake_completes (s : Stream) : Stream :=
  mkStream false (reading s) (writing s) (written s) (closed s) (misused s).
Definition read_completes (s : Stream) : Stream :=
  mkStream (handshaking s) false (writing s) (written s) (closed s) (misused s).
Definition write_completes (s : Stream) : Stream :=
  mkStream (handshaking s) (reading s) None (written s) (closed s) (misused s).

(** ** Weakest preconditions *)

Section Wp.
Context {S : Type}.

(** [m] run in [s] ends with a result and a state that satisfy [Q]; both the
    value and the exception are results. *)
Definition wp {A} (m : M S A) (Q : outcome A -> S -> Prop) (s : S) : Prop :=
  Q (m s).1 (m s).2.

(** The postcondition for a computation that may not throw. *)
Definition returns {A} (Q : A -> S -> Prop) (r : outcome A) (s : S) : Prop :=
  exists a, r = Ok a /\ Q a s.

Lemma wp_ret {A} (a : A) Q s : Q (Ok a) s -> wp (ret a) Q s.
Proof. auto. Qed.
Lemma wp_throw {A} e (Q : outcome A -> S -> Prop) s : Q (Throw e) s -> wp (throw e) Q s.
Proof. auto. Qed.
Lemma wp_get Q (s : S) : Q (Ok s) s -> wp get Q s.
Proof. auto. Qed.
Lemma wp_modify f Q (s : S) : Q (Ok tt) (f s) -> wp (modify f) Q s.
Proof. auto. Qed.
Lemma wp_lift {A} (o : outcome A) Q (s : S) : Q o s -> wp (lift o) Q s.
Proof. auto. Qed.
Lemma wp_bind {A B} (m : M S A) (k : A -> M S B) Q s :
  wp m (fun r s' => match r with Ok a => wp (k a) Q s' | Throw e => Q (Throw e) s' end) s ->
  wp (bind m k) Q s.
Proof. unfold wp, bind. destruct (m s) as [[a|e] s']; auto. Qed.
Lemma wp_try {A} (m : M S A) h Q s :
  wp m (fun r s' => match r with
                    | Ok a => Q (Ok a) s'
                    | Throw e => match h e with Some m' => wp m' Q s' | None => Q (Throw e) s' end
                    end) s ->
  wp (try_catch m h) Q s.
Proof. unfold wp, try_catch. destruct (m s) as [[a|e] s']; [auto|]. cbn. destruct (h e); auto. Qed.
Lemma wp_mono {A} (m : M S A) (P Q : outcome A -> S -> Prop) s :
  wp m P s -> (forall r s', P r s' -> Q r s') -> wp m Q s.
Proof. unfold wp. auto. Qed.
Lemma wp_if {A} (b : bool) (m n : M S A) Q s :
  (b = true -> wp m Q s) -> (b = false -> wp n Q s) -> wp (if b then m else n) Q s.
Proof. destruct b; auto. Qed.

(** Sequencing after a computation that returns. *)
Lemma wp_returns {A B} (m : M S A) (k : A -> M S B) (P : A -> S -> Prop) Q s :
  wp m (returns P) s -> (forall a s', P a s' -> wp (k a) Q s') -> wp (bind m k) Q s.
Proof.
  intros Hm Hk. apply wp_bind. eapply wp_mono; [exact Hm|]. intros r s' (a & -> & Ha). auto.
Qed.
Lemma wp_result {A} (m : M S A) Q s r s' : wp m Q s -> m s = (r, s') -> Q r s'.
Proof. unfold wp. intros H E. rewrite E in H. exact H. Qed.
End Wp.

Lemma returns_mono {S A} (P Q : A -> S -> Prop) r s :
  returns P r s -> (forall a s', P a s' -> Q a s') -> returns Q r s.
Proof. intros (a & -> & Ha) H. exists a. auto. Qed.
