(* ===== verification/FrameWriter.v ===== *)
(** * Writing queued frames to a stream

    Both ends of the tunnel hand the front of an [OutboundFrameQueue] to the
    stream and pop it when the write is over.  What the pair of queue and
    stream guarantees is stated here once: the buffer in flight is the front
    of the queue, and what has been written followed by what waits is the
    sequence of the frames that were taken in. *)
From S2P Require Import Prelude Bytes Protocol Traffic OutboundQueue AsyncIo.

Section Writer.
Implicit Types (s : Stream) (q : OutboundFrameQueue) (busy : bool) (e : bytes).

(** An open stream and its queue; [busy] is [write_in_progress_]. *)
Record writer_ok s q busy : Prop := {
  wo_open : closed s = false;
  wo_safe : misused s = false;
  wo_queue : queue_ok q;
  wo_busy : if busy then exists e rest, writing s = Some e /\ queue_ q = e :: rest
            else writing s = None /\ queue_ q = []
}.

(** The queued frames that have not been handed to the stream. *)
Definition waiting q busy : list bytes := if busy then tail (queue_ q) else queue_ q.

(** The queue with one more frame, and the stream if it was idle. *)
Definition pushed e q : OutboundFrameQueue :=
  mkQueue (maximum_frames_ q) (maximum_bytes_ q) (total (queue_ q) + zlen e) (queue_ q ++ [e]).
Definition push_write e s busy : Stream := if busy then s else async_write e s.

(** The queue when the write in flight is over, and the stream when the next
    one has been started. *)
Definition taken q : OutboundFrameQueue :=
  mkQueue (maximum_frames_ q) (maximum_bytes_ q) (total (tail (queue_ q))) (tail (queue_ q)).
Definition next_write s q : Stream :=
  match tail (queue_ q) with
  | [] => write_completes s
  | e :: _ => async_write e (write_completes s)
  end.
Definition more q : bool := match tail (queue_ q) with [] => false | _ => true end.

Lemma writer_push e s q busy :
  writer_ok s q busy -> queue_ok (pushed e q) ->
  writer_ok (push_write e s busy) (pushed e q) true /\
  written (push_write e s busy) ++ waiting (pushed e q) true = (written s ++ waiting q busy) ++ [e].
Proof.
  intros [Ho Hs Hq Hb] Hq'. unfold push_write, waiting, pushed. destruct busy.
  - destruct Hb as (b & rest & Hw & E). split.
    + constructor; auto. exists b, (rest ++ [e]). cbn. rewrite E. auto.
    + cbn [queue_]. rewrite E. cbn [tail app]. apply app_assoc.
  - destruct Hb as [Hw E]. split.
    + constructor; cbn; rewrite ?Hs, ?Hw, ?Ho; auto. exists e, []. rewrite E. auto.
    + cbn [queue_ written async_write]. rewrite E. cbn [tail app]. rewrite !app_nil_r. reflexivity.
Qed.

Lemma writer_pop s q :
  writer_ok s q true ->
  pop_front q = (Ok tt, taken q) /\ writer_ok (next_write s q) (taken q) (more q) /\
  written (next_write s q) ++ waiting (taken q) (more q) = written s ++ waiting q true.
Proof.
  intros [Ho Hs Hq (b & rest & Hw & E)]. pose proof (popped_ok b rest q Hq E) as Hq'.
  rewrite (pop_front_eq b rest q Hq E). unfold taken, next_write, more, waiting. rewrite E. cbn [tail].
  split; [reflexivity|]. destruct rest as [|b2 rest]; cbn.
  - split; [constructor; auto|reflexivity].
  - split; [constructor; cbn; rewrite ?Hs, ?Ho; eauto|]. rewrite <- app_assoc. reflexivity.
Qed.

(** What was written is whole frames numbered in order. *)
Definition sent s : Prop :=
  exists fs, Forall valid_frame fs /\ written s = map wire fs /\ consecutive 1 fs.

(** Everything taken in is whole frames numbered in order, which [pending]
    continue up to the number [next]. *)
Definition stream_of s q busy (pending : list Frame) (next : Z) : Prop :=
  exists fs, Forall valid_frame fs /\ written s ++ waiting q busy = map wire fs /\
    consecutive 1 (fs ++ pending) /\ next = advance 1 (fs ++ pending).

Lemma map_prefix {A B} (f : A -> B) l a b : map f l = a ++ b -> exists k, l = firstn k l ++ skipn k l /\ map f (firstn k l) = a.
Proof.
  intros E. exists (length a). split; [symmetry; apply firstn_skipn|].
  rewrite <- firstn_map, E, firstn_app, Nat.sub_diag, firstn_all. apply app_nil_r.
Qed.

Lemma stream_of_sent s q busy pending next : stream_of s q busy pending next -> sent s.
Proof.
  intros (fs & Hv & Hw & Hn & _). symmetry in Hw. destruct (map_prefix _ _ _ _ Hw) as (k & Hk & Hm).
  apply consecutive_prefix in Hn. rewrite Hk in Hn, Hv. exists (firstn k fs).
  split; [apply Forall_app in Hv as [Hv _]; exact Hv|]. split; [symmetry; exact Hm|].
  apply consecutive_prefix in Hn. exact Hn.
Qed.

Lemma stream_of_push f s q busy pending next :
  writer_ok s q busy -> queue_ok (pushed (wire f) q) -> valid_frame f ->
  stream_of s q busy (f :: pending) next ->
  stream_of (push_write (wire f) s busy) (pushed (wire f) q) true pending next.
Proof.
  intros Hw Hq Hf (fs & Hv & Hs & Hn & Hx). destruct (writer_push (wire f) s q busy Hw Hq) as [_ Hb].
  exists (fs ++ [f]). split; [apply Forall_app; auto|]. rewrite Hb, Hs, map_app, <- app_assoc. auto.
Qed.

Lemma stream_of_pop s q pending next :
  writer_ok s q true -> stream_of s q true pending next ->
  stream_of (next_write s q) (taken q) (more q) pending next.
Proof.
  intros Hw (fs & Hv & Hs & Hx). destruct (writer_pop s q Hw) as (_ & _ & Hb). exists fs. rewrite Hb. auto.
Qed.

(** New frames of the controller. *)
Lemma stream_of_pending s q busy out next next' :
  stream_of s q busy [] next -> consecutive next out -> next' = advance next out ->
  stream_of s q busy out next'.
Proof.
  intros (fs & Hv & Hs & Hn & Hx) Hout ->. rewrite app_nil_r in Hn, Hx. exists fs. split_goal; auto.
  - apply consecutive_app; [int_lia|exact Hn|]. rewrite <- Hx. exact Hout.
  - rewrite Hx, advance_app. reflexivity.
Qed.

(** Enqueueing a frame: it fits, or nothing changes. *)
Lemma enqueue_cases f q :
  queue_ok q -> valid_frame f ->
  (try_enqueue f q = (Ok true, pushed (wire f) q) /\ queue_ok (pushed (wire f) q)) \/
  try_enqueue f q = (Ok false, q).
Proof.
  intros Hq Hv. rewrite try_enqueue_eq, (encode_frame_wire _ Hv).
  pose proof (encode_frame_nonempty _ _ (encode_frame_wire _ Hv)) as Hne.
  destruct (try_enqueue_buffer_spec (wire f) q Hq ltac:(lia)) as [Hy Hn].
  destruct (decide (zlen (queue_ q) < maximum_frames_ q /\ total (queue_ q) + zlen (wire f) <= maximum_bytes_ q)) as [Hf|Hf].
  - left. split; [exact (Hy Hf)|]. apply enqueued_ok; tauto.
  - right. exact (Hn Hf).
Qed.
End Writer.
