(* ===== verification/TunnelSession.v ===== *)
(** * One connection of the server

    Models src/server/tls_tunnel_session.cpp and its header: the TLS stream,
    the frame decoder, the session controller, the queue of outgoing frames
    and the deadline timer of one client, as the completion handlers that the
    session's strand runs one at a time.  Handlers into the server
    ([packet_sink_], [established_handler_], [close_handler_]) are the
    interface [SessionHost]. *)
From S2P Require Import Prelude Bytes Protocol ControlMessages Traffic LeaseManager LeaseService.
From S2P Require Import SessionController TunnelRouter OutboundQueue ServerMetrics AsyncIo.

(** The server behind the three handlers of a session, which is named by its
    address. *)
Class SessionHost (W : Type) := {
  packet_sink : bytes -> M W unit;
  established_handler : Lease -> Peer -> M W bool;
  close_handler : option Lease -> Peer -> M W unit
}.

(** The wait armed on [deadline_timer_], with its duration. *)
Inductive Deadline := HandshakeDeadline (after : Z) | IdleDeadline (after : Z).

(** [has_x] says whether the handler or pointer [x] is set. *)
Record TlsTunnelSession := mkTls {
  ts_peer : Peer;
  has_metrics : bool;
  has_sink : bool;
  has_established : bool;
  handshake_timeout_ : Z;
  idle_timeout_ : Z;
  has_close : bool;
  controller_ : option SessionController;
  decoder_ : FrameDecoder;
  outbound_queue_ : OutboundFrameQueue;
  deadline_ : option Deadline;
  stream_ : Stream;
  route_lease_ : option Lease;
  write_in_progress_ : bool;
  close_after_write_ : bool;
  stopped_ : bool;
  established_counted_ : bool
}.

Definition put_controller (x : option SessionController) (t : TlsTunnelSession) : TlsTunnelSession :=
  mkTls (ts_peer t) (has_metrics t) (has_sink t) (has_established t) (handshake_timeout_ t)
    (idle_timeout_ t) (has_close t) x (decoder_ t) (outbound_queue_ t) (deadline_ t) (stream_ t)
    (route_lease_ t) (write_in_progress_ t) (close_after_write_ t) (stopped_ t)
    (established_counted_ t).
Definition put_decoder (x : FrameDecoder) (t : TlsTunnelSession) : TlsTunnelSession :=
  mkTls (ts_peer t) (has_metrics t) (has_sink t) (has_established t) (handshake_timeout_ t)
    (idle_timeout_ t) (has_close t) (controller_ t) x (outbound_queue_ t) (deadline_ t)
    (stream_ t) (route_lease_ t) (write_in_progress_ t) (close_after_write_ t) (stopped_ t)
    (established_counted_ t).
Definition put_queue (x : OutboundFrameQueue) (t : TlsTunnelSession) : TlsTunnelSession :=
  mkTls (ts_peer t) (has_metrics t) (has_sink t) (has_established t) (handshake_timeout_ t)
    (idle_timeout_ t) (has_close t) (controller_ t) (decoder_ t) x (deadline_ t) (stream_ t)
    (route_lease_ t) (write_in_progress_ t) (close_after_write_ t) (stopped_ t)
    (established_counted_ t).
Definition put_deadline (x : option Deadline) (t : TlsTunnelSession) : TlsTunnelSession :=
  mkTls (ts_peer t) (has_metrics t) (has_sink t) (has_established t) (handshake_timeout_ t)
    (idle_timeout_ t) (has_close t) (controller_ t) (decoder_ t) (outbound_queue_ t) x (stream_ t)
    (route_lease_ t) (write_in_progress_ t) (close_after_write_ t) (stopped_ t)
    (established_counted_ t).
Definition put_stream (x : Stream) (t : TlsTunnelSession) : TlsTunnelSession :=
  mkTls (ts_peer t) (has_metrics t) (has_sink t) (has_established t) (handshake_timeout_ t)
    (idle_timeout_ t) (has_close t) (controller_ t) (decoder_ t) (outbound_queue_ t) (deadline_ t)
    x (route_lease_ t) (write_in_progress_ t) (close_after_write_ t) (stopped_ t)
    (established_counted_ t).
Definition put_route_lease (x : option Lease) (t : TlsTunnelSession) : TlsTunnelSession :=
  mkTls (ts_peer t) (has_metrics t) (has_sink t) (has_established t) (handshake_timeout_ t)
    (idle_timeout_ t) (has_close t) (controller_ t) (decoder_ t) (outbound_queue_ t) (deadline_ t)
    (stream_ t) x (write_in_progress_ t) (close_after_write_ t) (stopped_ t)
    (established_counted_ t).
Definition put_writing_flag (x : bool) (t : TlsTunnelSession) : TlsTunnelSession :=
  mkTls (ts_peer t) (has_metrics t) (has_sink t) (has_established t) (handshake_timeout_ t)
    (idle_timeout_ t) (has_close t) (controller_ t) (decoder_ t) (outbound_queue_ t) (deadline_ t)
    (stream_ t) (route_lease_ t) x (close_after_write_ t) (stopped_ t) (established_counted_ t).
Definition put_close_after (x : bool) (t : TlsTunnelSession) : TlsTunnelSession :=
  mkTls (ts_peer t) (has_metrics t) (has_sink t) (has_established t) (handshake_timeout_ t)
    (idle_timeout_ t) (has_close t) (controller_ t) (decoder_ t) (outbound_queue_ t) (deadline_ t)
    (stream_ t) (route_lease_ t) (write_in_progress_ t) x (stopped_ t) (established_counted_ t).
Definition put_stopped (x : bool) (t : TlsTunnelSession) : TlsTunnelSession :=
  mkTls (ts_peer t) (has_metrics t) (has_sink t) (has_established t) (handshake_timeout_ t)
    (idle_timeout_ t) (has_close t) (controller_ t) (decoder_ t) (outbound_queue_ t) (deadline_ t)
    (stream_ t) (route_lease_ t) (write_in_progress_ t) (close_after_write_ t) x
    (established_counted_ t).
Definition put_counted_flag (x : bool) (t : TlsTunnelSession) : TlsTunnelSession :=
  mkTls (ts_peer t) (has_metrics t) (has_sink t) (has_established t) (handshake_timeout_ t)
    (idle_timeout_ t) (has_close t) (controller_ t) (decoder_ t) (outbound_queue_ t) (deadline_ t)
    (stream_ t) (route_lease_ t) (write_in_progress_ t) (close_after_write_ t) (stopped_ t) x.
Definition put_close_handler (x : bool) (t : TlsTunnelSession) : TlsTunnelSession :=
  mkTls (ts_peer t) (has_metrics t) (has_sink t) (has_established t) (handshake_timeout_ t)
    (idle_timeout_ t) x (controller_ t) (decoder_ t) (outbound_queue_ t) (deadline_ t) (stream_ t)
    (route_lease_ t) (write_in_progress_ t) (close_after_write_ t) (stopped_ t)
    (established_counted_ t).

(** [TlsTunnelSession::TlsTunnelSession]; [std::make_shared] gives the session
    its address. *)
Definition make_tls (peer : Peer) (metrics sink established close : bool)
    (maximum_queued_frames maximum_queued_bytes handshake_timeout idle_timeout : Z)
  : outcome TlsTunnelSession :=
  let? queue := make_queue maximum_queued_frames maximum_queued_bytes in
  let? _ := reject_if ((handshake_timeout <=? 0) || (idle_timeout <=? 0))
    (InvalidArgument "TLS session timeouts must be positive") in
  Ok (mkTls peer metrics sink established handshake_timeout idle_timeout close None decoder_init queue
        None fresh_stream None false false false false).

(** What the sessions of a server share: the lease manager, the server, and
    its counters. *)
Record Shared (S W : Type) := mkShared {
  sh_leases : S;
  sh_host : W;
  sh_metrics : ServerMetrics
}.
Arguments mkShared {S W}.
Arguments sh_leases {S W}.
Arguments sh_host {S W}.
Arguments sh_metrics {S W}.

Section Session.
Context {S W : Type} `{LS : LeaseService S} `{SH : SessionHost W}.

Abbreviation St := (Shared S W * TlsTunnelSession)%type.

Definition self : M St TlsTunnelSession := fun st => (Ok st.2, st).
Definition assign (f : TlsTunnelSession -> TlsTunnelSession) : M St unit :=
  fun '(w, t) => (Ok tt, (w, f t)).
Definition on_stream (f : Stream -> Stream) : M St unit :=
  assign (fun t => put_stream (f (stream_ t)) t).
Definition on_host {A} (m : M W A) : M St A := fun '(w, t) =>
  let '(r, h) := m (sh_host w) in (r, (mkShared (sh_leases w) h (sh_metrics w), t)).
Definition on_queue {A} (m : M OutboundFrameQueue A) : M St A := fun '(w, t) =>
  let '(r, q) := m (outbound_queue_ t) in (r, (w, put_queue q t)).
Definition on_decoder {A} (m : M FrameDecoder A) : M St A := fun '(w, t) =>
  let '(r, d) := m (decoder_ t) in (r, (w, put_decoder d t)).
(** A call through [controller_], which the callers have tested. *)
Definition on_controller {A} (m : M (S * SessionController) A) : M St A := fun '(w, t) =>
  match controller_ t with
  | None => (Throw (LogicError "null controller"), (w, t))
  | Some c => let '(r, (s, c')) := m (sh_leases w, c) in
      (r, (mkShared s (sh_host w) (sh_metrics w), put_controller (Some c') t))
  end.
(** [if (metrics_) metrics_->k.fetch_add(n);] *)
Definition count (k : Counter) (n : Z) : M St unit := fun '(w, t) =>
  (Ok tt, (if has_metrics t
           then mkShared (sh_leases w) (sh_host w) (fetch_add k n (sh_metrics w)) else w, t)).

Definition close_now : M St unit :=
  let* t := self in
  if stopped_ t then ret tt else
    let* _ := assign (put_stopped true) in
    let* _ := assign (put_deadline None) in
    let* _ := count C_closed_sessions 1 in
    let* _ := match controller_ t with
              | Some _ => on_controller on_transport_closed
              | None => ret tt
              end in
    let* _ := on_queue clear in
    let* _ := on_stream close_stream in
    if has_close t then
      let* _ := assign (put_close_handler false) in
      let* t := self in
      on_host (close_handler (route_lease_ t) (ts_peer t))
    else ret tt.

Definition write_next : M St unit :=
  let* t := self in
  if stopped_ t || queue_empty (outbound_queue_ t) then
    let* _ := assign (put_writing_flag false) in
    if close_after_write_ t then close_now else ret tt
  else
    let* _ := assign (put_writing_flag true) in
    let* buffer := lift (front (outbound_queue_ t)) in
    on_stream (async_write buffer).

Definition enqueue_frame (frame : Frame) : M St bool :=
  let* t := self in
  if stopped_ t then ret false else
    let* queued := on_queue (try_enqueue frame) in
    if negb queued then ret false else
      let* t := self in
      let* _ := if negb (write_in_progress_ t) then write_next else ret tt in
      ret true.

(** The loop over [packets_to_tun]. *)
Fixpoint forward_packets (packets : list bytes) : M St unit :=
  match packets with
  | [] => ret tt
  | packet :: packets =>
      let* _ := count C_uplink_packets 1 in
      let* _ := count C_uplink_bytes (zlen packet) in
      let* t := self in
      let* _ := if has_sink t then on_host (packet_sink packet) else ret tt in
      forward_packets packets
  end.

(** The loop over [outbound_frames]; [false] when a frame did not fit. *)
Fixpoint enqueue_frames (frames : list Frame) : M St bool :=
  match frames with
  | [] => ret true
  | frame :: frames =>
      let* queued := enqueue_frame frame in
      if negb queued then
        let* _ := count C_queue_overflows 1 in
        let* _ := close_now in
        ret false
      else enqueue_frames frames
  end.

Definition apply_result (result : SessionResult) : M St unit :=
  let* _ := forward_packets (packets_to_tun result) in
  let* queued := enqueue_frames (outbound_frames result) in
  if negb queued then ret tt
  else if close_transport result then
    let* _ := assign (put_close_after true) in
    let* t := self in
    if negb (write_in_progress_ t) && queue_empty (outbound_queue_ t) then close_now else ret tt
  else ret tt.

Definition arm_idle_timeout : M St unit :=
  assign (fun t => put_deadline (Some (IdleDeadline (idle_timeout_ t))) t).

Definition read_next : M St unit :=
  let* t := self in
  if stopped_ t then ret tt else on_stream async_read_some.

(** After the established handler: [false] when it refused the session. *)
Definition accept_session (accepted : bool) : M St bool :=
  let* t := self in
  if negb accepted then
    let* _ := close_now in
    ret false
  else
    let* _ := if negb (established_counted_ t) && has_metrics t then
                let* _ := count C_established_sessions 1 in
                assign (put_counted_flag true)
              else ret tt in
    ret true.

(** The registration of a session that has just become established, and its
    test; [false] when the session was closed. *)
Definition route_established : M St bool :=
  let* t := self in
  match route_lease_ t, controller_ t with
  | None, Some c =>
      match sc_state c, sc_lease c with
      | Established, Some lease =>
          let* _ := assign (put_route_lease (Some lease)) in
          let* accepted := if has_established t
                           then on_host (established_handler lease (ts_peer t)) else ret true in
          accept_session accepted
      | _, _ => ret true
      end
  | _, _ => ret true
  end.

(** The loop over the decoded frames; [false] for the [return] inside it.
    [clock i] is the time at which frame [i] of the call is handled. *)
Fixpoint handle_frames (frames : list Frame) (clock : nat -> Z) (i : nat) : M St bool :=
  match frames with
  | [] => ret true
  | frame :: frames =>
      let* _ := arm_idle_timeout in
      let* result := on_controller (handle frame (clock i)) in
      let* routed := route_established in
      if negb routed then ret false
      else
        let* _ := apply_result result in
        let* t := self in
        if stopped_ t || close_after_write_ t then ret true
        else handle_frames frames clock (i + 1)
  end.

Definition handle_read (error : bool) (read_buffer : bytes) (clock : nat -> Z) : M St unit :=
  let* t := self in
  if stopped_ t then ret tt
  else if error then close_now
  else
    let* continued := try_catch
      (let* frames := on_decoder (push read_buffer) in
       handle_frames frames clock 0)
      (fun _ => Some (let* _ := close_now in ret false)) in
    if negb continued then ret tt
    else
      let* t := self in
      if negb (stopped_ t) && negb (close_after_write_ t) then read_next else ret tt.

(** [identity] is what [peer_certificate_sha256] makes of the certificate. *)
Definition handle_handshake (error : bool) (identity : outcome string) : M St unit :=
  let* t := self in
  if stopped_ t then ret tt
  else if error then
    let* _ := count C_handshake_failures 1 in
    close_now
  else
    try_catch
      (let* peer_identity := lift identity in
       let* controller := lift (make_session peer_identity) in
       let* _ := assign (put_controller (Some controller)) in
       let* _ := assign (put_deadline None) in
       let* _ := arm_idle_timeout in
       read_next)
      (fun _ => Some close_now).

Definition start_on_strand : M St unit :=
  let* t := self in
  match stopped_ t, controller_ t with
  | false, None =>
      let* _ := assign (put_deadline (Some (HandshakeDeadline (handshake_timeout_ t)))) in
      on_stream async_handshake
  | _, _ => ret tt
  end.

(** The handlers of the two waits on [deadline_timer_]. *)
Definition on_handshake_deadline (error : bool) : M St unit :=
  let* t := self in
  match controller_ t with
  | None =>
      if negb error && negb (stopped_ t) then
        let* _ := count C_handshake_timeouts 1 in
        close_now
      else ret tt
  | Some _ => ret tt
  end.
Definition on_idle_deadline (error : bool) : M St unit :=
  let* t := self in
  if negb error && negb (stopped_ t) then
    let* _ := count C_idle_timeouts 1 in
    close_now
  else ret tt.

Definition handle_write (error : bool) : M St unit :=
  let* t := self in
  if stopped_ t then ret tt
  else if error then close_now
  else
    let* _ := on_queue pop_front in
    write_next.

(** The two methods differ in the counters only. *)
Definition send_from_tun (counted : bool) (packet : bytes) (now : Z) : M St unit :=
  let* t := self in
  match stopped_ t, controller_ t with
  | false, Some _ =>
      let* frame := on_controller (make_data_to_client packet now) in
      match frame with
      | None =>
          let* t := self in
          match controller_ t with
          | Some c => if negb (bool_decide (sc_state c = Established)) then close_now else ret tt
          | None => ret tt
          end
      | Some frame =>
          let* queued := enqueue_frame frame in
          if negb queued then
            let* _ := if counted then count C_queue_overflows 1 else ret tt in
            close_now
          else if counted then
            let* _ := count C_downlink_packets 1 in
            count C_downlink_bytes (zlen packet)
          else ret tt
      end
  | _, _ => ret tt
  end.
Definition send_ipv4_from_tun : bytes -> Z -> M St unit := send_from_tun true.
Definition send_ipv6_from_tun : bytes -> Z -> M St unit := send_from_tun false.

Definition stop : M St unit := close_now.

(** ** The events of a session *)

(** What the strand runs: the start, the completions of asynchronous
    operations, and the calls posted by other components. *)
Inductive session_event :=
| EvStart
| EvHandshake (error : bool) (identity : outcome string)
| EvHandshakeDeadline (error : bool)
| EvIdleDeadline (error : bool)
| EvRead (error : bool) (data : bytes) (clock : nat -> Z)
| EvWrite (error : bool)
| EvTunIpv4 (packet : bytes) (now : Z)
| EvTunIpv6 (packet : bytes) (now : Z)
| EvStop.

(** One event: an operation in flight is over when its handler runs. *)
Definition run_event (e : session_event) : M St unit :=
  match e with
  | EvStart => start_on_strand
  | EvHandshake error identity =>
      let* _ := on_stream handshake_completes in handle_handshake error identity
  | EvHandshakeDeadline error => on_handshake_deadline error
  | EvIdleDeadline error => on_idle_deadline error
  | EvRead error data clock =>
      let* _ := on_stream read_completes in handle_read error data clock
  | EvWrite error => let* _ := on_stream write_completes in handle_write error
  | EvTunIpv4 packet now => send_ipv4_from_tun packet now
  | EvTunIpv6 packet now => send_ipv6_from_tun packet now
  | EvStop => stop
  end.

(** Completions belong to operations in flight; the server starts a session
    once. *)
Definition possible (e : session_event) (t : TlsTunnelSession) : Prop :=
  match e with
  | EvStart => handshaking (stream_ t) = false
  | EvHandshake _ _ => handshaking (stream_ t) = true
  | EvRead _ data _ => reading (stream_ t) = true /\ is_bytes data
  | EvWrite _ => is_Some (writing (stream_ t))
  | EvTunIpv4 packet _ | EvTunIpv6 packet _ => is_bytes packet
  | EvHandshakeDeadline _ | EvIdleDeadline _ | EvStop => True
  end.
End Session.

(** What a session relies on.  The server knows a session [p] as open, with
    the lease it has registered it for, or as gone; while it closes, its
    registration may be incomplete.  The close handler returns. *)
Class SessionHostLaws (W : Type) `{SessionHost W} := {
  host_open : Peer -> option Lease -> W -> Prop;
  host_closing : Peer -> option Lease -> W -> Prop;
  host_gone : Peer -> W -> Prop;
  host_open_closing p l w : host_open p l w -> host_closing p l w;
  packet_sink_law p l packet w : host_open p l w -> host_open p l (packet_sink packet w).2;
  established_handler_law p l w : lease_shape l -> host_open p None w ->
    match established_handler l p w with
    | (Ok true, w') => host_open p (Some l) w'
    | (_, w') => host_closing p (Some l) w'
    end;
  close_handler_law p l w : host_closing p l w ->
    exists w', close_handler l p w = (Ok tt, w') /\ host_gone p w'
}.

(** ** Specification *)

(** A closed session. *)
Definition shut (t : TlsTunnelSession) : TlsTunnelSession :=
  put_close_handler false (put_stream (close_stream (stream_ t))
    (put_queue (mkQueue (maximum_frames_ (outbound_queue_ t)) (maximum_bytes_ (outbound_queue_ t)) 0 [])
      (put_controller (ended Closed <$> controller_ t) (put_deadline None (put_stopped true t))))).

(** A session that has taken one more frame. *)
Definition queued (frame : Frame) (t : TlsTunnelSession) : TlsTunnelSession :=
  let q := outbound_queue_ t in
  let t1 := put_queue (mkQueue (maximum_frames_ q) (maximum_bytes_ q)
    (total (queue_ q) + zlen (wire frame)) (queue_ q ++ [wire frame])) t in
  if write_in_progress_ t then t1
  else put_stream (async_write (wire frame) (stream_ t)) (put_writing_flag true t1).

(** The queued frames that have not been handed to the stream. *)
Definition unsent (t : TlsTunnelSession) : list bytes :=
  if write_in_progress_ t then tail (queue_ (outbound_queue_ t)) else queue_ (outbound_queue_ t).

(** What has been handed to the stream is the encoding of frames numbered
    1, 2, 3, ... *)
Definition sent_ok (t : TlsTunnelSession) : Prop :=
  exists fs, Forall valid_frame fs /\ written (stream_ t) = map wire fs /\ consecutive 1 fs.

(** The stream and the queue of a session that can be closed. *)
Record closable (t : TlsTunnelSession) : Prop := {
  cl_live : stopped_ t = false;
  cl_open : closed (stream_ t) = false;
  cl_safe : misused (stream_ t) = false;
  cl_queue : queue_ok (outbound_queue_ t);
  cl_session c : controller_ t = Some c -> session_ok c;
  cl_sent : sent_ok t;
  cl_handlers : has_established t = true /\ has_close t = true
}.

(** A session in progress that has still to send [pending]. *)
Record running (pending : list Frame) (t : TlsTunnelSession) (c : SessionController) : Prop := {
  rn_closable : closable t;
  rn_controller : controller_ t = Some c;
  rn_decoder : decoder_ready (decoder_ t);
  rn_deadline : is_Some (deadline_ t);
  rn_shaken : handshaking (stream_ t) = false;
  rn_writer : if write_in_progress_ t
    then exists b rest, writing (stream_ t) = Some b /\ queue_ (outbound_queue_ t) = b :: rest
    else writing (stream_ t) = None /\ queue_ (outbound_queue_ t) = [];
  rn_pending : Forall valid_frame pending;
  rn_wire : exists fs, Forall valid_frame fs /\ written (stream_ t) ++ unsent t = map wire fs /\
    consecutive 1 (fs ++ pending) /\ sc_next_outbound_sequence c = advance 1 (fs ++ pending)
}.

Definition open_session (c : SessionController) : Prop :=
  sc_state c = AwaitingHello \/ sc_state c = Established.

(** The session is registered for the lease its controller holds, and only
    while it holds one. *)
Definition routes_for (c : SessionController) (t : TlsTunnelSession) : Prop :=
  match sc_lease c, route_lease_ t with
  | Some k, Some l => l_address l = l_address k
  | None, None => True
  | _, _ => False
  end.

(** Between two frames, and with [rd = true] between two events. *)
Definition resting (rd : bool) (t : TlsTunnelSession) : Prop :=
  exists c, running [] t c /\
    if close_after_write_ t
    then write_in_progress_ t = true /\ reading (stream_ t) = false /\ ~ open_session c
    else reading (stream_ t) = rd /\ open_session c /\ routes_for c t.

Lemma routes_for_same c t t' :
  route_lease_ t' = route_lease_ t -> routes_for c t -> routes_for c t'.
Proof. unfold routes_for. intros ->. auto. Qed.
Lemma routes_for_renewed c c' t :
  option_map l_address (sc_lease c') = option_map l_address (sc_lease c) -> routes_for c t -> routes_for c' t.
Proof.
  unfold routes_for. destruct (sc_lease c), (sc_lease c'); intros [=]; auto.
  destruct (route_lease_ t); [congruence|auto].
Qed.

(** Before the handshake is over. *)
Record unshaken (t : TlsTunnelSession) : Prop := {
  sg_closable : closable t;
  sg_controller : controller_ t = None;
  sg_decoder : decoder_ t = decoder_init;
  sg_stream : reading (stream_ t) = false /\ writing (stream_ t) = None /\ written (stream_ t) = [];
  sg_flags : write_in_progress_ t = false /\ close_after_write_ t = false /\ route_lease_ t = None;
  sg_queue : queue_ (outbound_queue_ t) = []
}.

Record over (t : TlsTunnelSession) : Prop := {
  ov_stopped : stopped_ t = true;
  ov_closed : closed (stream_ t) = true;
  ov_safe : misused (stream_ t) = false;
  ov_queue : queue_ (outbound_queue_ t) = [];
  ov_deadline : deadline_ t = None;
  ov_handler : has_close t = false;
  ov_session c : controller_ t = Some c -> sc_state c = Closed /\ sc_lease c = None;
  ov_sent : sent_ok t
}.

(** Before [start] nothing is in flight and no deadline is armed; after it
    the handshake is in flight under one. *)
Definition unstarted (t : TlsTunnelSession) : Prop :=
  unshaken t /\ stream_ t = fresh_stream /\ deadline_ t = None.
Definition shaking (t : TlsTunnelSession) : Prop :=
  unshaken t /\ handshaking (stream_ t) = true /\ is_Some (deadline_ t).

(** A session that was started, and any session between two events. *)
Definition begun (t : TlsTunnelSession) : Prop := shaking t \/ resting true t \/ over t.
Definition tls_ok (t : TlsTunnelSession) : Prop := unstarted t \/ begun t.

(** ** Lemmas *)

Section Laws.
Context {S W : Type} {LS : LeaseService S} {LSL : LeaseServiceLaws S}.
Context {SH : SessionHost W} {SHL : SessionHostLaws W}.
Abbreviation St := (Shared S W * TlsTunnelSession)%type.

(** The shared state around session [t], and around one that is closing. *)
Definition shared_ok (w : Shared S W) (t : TlsTunnelSession) : Prop :=
  ls_ok (sh_leases w) /\
  if stopped_ t then host_gone (ts_peer t) (sh_host w)
  else host_open (ts_peer t) (route_lease_ t) (sh_host w).
Definition closing_ok (w : Shared S W) (t : TlsTunnelSession) : Prop :=
  ls_ok (sh_leases w) /\ host_closing (ts_peer t) (route_lease_ t) (sh_host w).

Lemma shared_closing w t : shared_ok w t -> stopped_ t = false -> closing_ok w t.
Proof. intros [Hs Hh] Hst. rewrite Hst in Hh. split; [exact Hs|]. apply host_open_closing, Hh. Qed.

Lemma shared_ok_local w t t' :
  shared_ok w t -> stopped_ t' = stopped_ t -> ts_peer t' = ts_peer t -> route_lease_ t' = route_lease_ t ->
  shared_ok w t'.
Proof. unfold shared_ok. intros H -> -> ->. exact H. Qed.

(** Lease [e] is of the generation the session holds, or it is gone. *)
Definition claims (e : Lease) (w : Shared S W) (t : TlsTunnelSession) : Prop :=
  exists c, controller_ t = Some c /\ sc_state c <> AwaitingHello /\
    match sc_lease c with
    | Some k => lease_id k = lease_id e /\ l_identity k = l_identity e /\ l_address k = l_address e
    | None => matches e (ls_leases (sh_leases w)) = None
    end.

(** The leases of the session have the IPv6 addresses of the pool. *)
Definition derived (w : Shared S W) (t : TlsTunnelSession) : Prop :=
  (forall c k, controller_ t = Some c -> sc_lease c = Some k -> pooled (sh_leases w) k) /\
  (forall l, route_lease_ t = Some l -> pooled (sh_leases w) l).

Lemma derived_keeps (w w' : Shared S W) t t' :
  (forall a, ls_ipv6 (sh_leases w') a = ls_ipv6 (sh_leases w) a) ->
  controller_ t' = controller_ t -> route_lease_ t' = route_lease_ t -> derived w t -> derived w' t'.
Proof.
  unfold derived, pooled. intros Ha -> -> [Hc Hr]. split; [intros c k H1 H2|intros l Hl]; rewrite Ha; eauto.
Qed.

(** What every part of a handler does: a session is closed at most once and
    counted when it is; it does not take a lease besides the one it has, and
    that one is from the pool. *)
Record effect (st st' : St) : Prop := {
  ef_peer : ts_peer st'.2 = ts_peer st.2;
  ef_has : has_metrics st'.2 = has_metrics st.2;
  ef_stopped : stopped_ st.2 = true -> stopped_ st'.2 = true;
  ef_closed : closed_sessions (sh_metrics st'.1) =
    if negb (stopped_ st.2) && stopped_ st'.2 && has_metrics st.2
    then u64 (closed_sessions (sh_metrics st.1) + 1) else closed_sessions (sh_metrics st.1);
  ef_claims e : claims e st.1 st.2 -> claims e st'.1 st'.2;
  ef_ipv6 a : ls_ipv6 (sh_leases st'.1) a = ls_ipv6 (sh_leases st.1) a;
  ef_derived : derived st.1 st.2 -> derived st'.1 st'.2
}.

Lemma effect_trans st1 st2 st3 : effect st1 st2 -> effect st2 st3 -> effect st1 st3.
Proof.
  intros [P1 H1 S1 C1 E1 A1 D1] [P2 H2 S2 C2 E2 A2 D2].
  constructor; [congruence|congruence|auto| |auto|congruence|auto].
  rewrite C2, C1, H1. destruct (stopped_ st1.2), (stopped_ st2.2), (stopped_ st3.2), (has_metrics st1.2);
    try reflexivity; exfalso; (specialize (S1 eq_refl) || specialize (S2 eq_refl)); discriminate.
Qed.

(** A change that concerns neither. *)
Lemma effect_local w t w' t' :
  ts_peer t' = ts_peer t -> has_metrics t' = has_metrics t -> stopped_ t' = stopped_ t ->
  controller_ t' = controller_ t -> route_lease_ t' = route_lease_ t ->
  closed_sessions (sh_metrics w') = closed_sessions (sh_metrics w) -> sh_leases w' = sh_leases w ->
  effect (w, t) (w', t').
Proof.
  intros Hp Hm Hs Hc Hr Hk Hl. constructor; cbn [fst snd]; try congruence.
  - rewrite Hs, Hk. destruct (stopped_ t); reflexivity.
  - intros e (c & Hcc & Hst & Hx). exists c. rewrite Hc, Hl. auto.
  - apply derived_keeps; congruence.
Qed.
(** The registration of the lease that the controller holds. *)
Lemma effect_routed w t c l :
  controller_ t = Some c -> sc_lease c = Some l -> effect (w, t) (w, put_route_lease (Some l) t).
Proof.
  intros Hc Hl. constructor; cbn [fst snd]; try reflexivity; auto.
  - cbn. destruct (stopped_ t); reflexivity.
  - intros [H1 H2]. split; [exact H1|]. cbn. intros ? [= <-]. exact (H1 c l Hc Hl).
Qed.
Lemma effect_refl st : effect st st.
Proof. destruct st. apply effect_local; reflexivity. Qed.

Lemma matches_generation e k leases :
  lease_id k = lease_id e -> l_identity k = l_identity e -> l_address k = l_address e ->
  matches e leases = matches k leases.
Proof. intros Hi Hn Ha. unfold matches. rewrite Hi, Hn, Ha. reflexivity. Qed.

(** *** Closing *)

Lemma close_now_stopped (w : Shared S W) t : stopped_ t = true -> close_now (w, t) = (Ok tt, (w, t)).
Proof. intros H. unfold close_now, bind, self. cbn [snd]. rewrite H. reflexivity. Qed.

Lemma count_eq k n (w : Shared S W) t :
  count k n (w, t) = (Ok tt, (if has_metrics t
    then mkShared (sh_leases w) (sh_host w) (fetch_add k n (sh_metrics w)) else w, t)).
Proof. reflexivity. Qed.

(** The controller of a session that closes gives its lease back. *)
Lemma transport_closed_eq (w w1 : Shared S W) t :
  ls_ok (sh_leases w) -> sh_leases w1 = sh_leases w ->
  exists s2, ls_ok s2 /\ (forall a, ls_ipv6 s2 a = ls_ipv6 (sh_leases w) a) /\
    (forall e, claims e w t -> matches e (ls_leases s2) = None /\
       exists c, controller_ t = Some c /\ sc_state c <> AwaitingHello) /\
    (match controller_ t with
     | Some _ => on_controller on_transport_closed
     | None => ret tt
     end) (w1, put_deadline None (put_stopped true t)) =
    (Ok tt, (mkShared s2 (sh_host w1) (sh_metrics w1),
       put_controller (ended Closed <$> controller_ t) (put_deadline None (put_stopped true t)))).
Proof.
  intros Hs L1. destruct (controller_ t) as [c|] eqn:Ec.
  - destruct (transport_closed_sound (sh_leases w1) c) as ([] & s2 & c' & E & Hs2 & Hl & ->);
      [rewrite L1; exact Hs|].
    exists s2. split; [exact Hs2|]. split.
    { intros a. pose proof (transport_closed_ipv6 (sh_leases w1, c) a) as H6. rewrite E, L1 in H6. exact H6. }
    split.
    + intros e (c0 & Hc0 & Ha & Hk). rewrite Ec in Hc0. injection Hc0 as <-. split; [|eauto].
      rewrite Hl, L1. destruct (sc_lease c) as [k|]; [|exact Hk].
      destruct Hk as (Hi & Hn & Had). rewrite (matches_generation e k) by assumption. apply released_gone.
    + unfold on_controller. cbn [controller_ put_deadline put_stopped]. rewrite Ec, E. reflexivity.
  - exists (sh_leases w1). split; [rewrite L1; exact Hs|]. split; [rewrite L1; reflexivity|]. split.
    + intros e (c0 & Hc0 & _). congruence.
    + destruct w1, t; cbn in *; subst. reflexivity.
Qed.

Lemma close_now_eq (w : Shared S W) t :
  closing_ok w t -> stopped_ t = false -> has_close t = true ->
  exists w', close_now (w, t) = (Ok tt, (w', shut t)) /\ shared_ok w' (shut t) /\ effect (w, t) (w', shut t).
Proof.
  intros [Hs Hh] Hst Ecl. unfold close_now, bind at 1, self at 1. cbn [snd]. rewrite Hst.
  unfold bind at 1, assign at 1. cbn beta iota. unfold bind at 1, assign at 1. cbn beta iota.
  unfold bind at 1. rewrite count_eq. cbn beta iota. cbn [has_metrics put_deadline put_stopped].
  set (w1 := if has_metrics t then _ else w).
  assert (Hw1 : sh_leases w1 = sh_leases w /\ sh_host w1 = sh_host w /\
    closed_sessions (sh_metrics w1) = if has_metrics t
      then u64 (closed_sessions (sh_metrics w) + 1) else closed_sessions (sh_metrics w))
    by (subst w1; destruct (has_metrics t); auto).
  clearbody w1. destruct Hw1 as (L1 & H1 & C1).
  cbn [controller_ put_deadline put_stopped].
  destruct (transport_closed_eq w w1 t Hs L1) as (s2 & Hs2 & H6 & Hcl & E). unfold bind at 1. rewrite E. cbn beta iota. clear E.
  unfold bind at 1, on_queue at 1, clear at 1. cbn beta iota.
  unfold bind at 1, on_stream at 1, assign at 1. cbn beta iota.
  assert (Hfin : forall w' : Shared S W, sh_leases w' = s2 -> sh_metrics w' = sh_metrics w1 ->
    effect (w, t) (w', shut t)).
  { intros w' Hl' Hm'. constructor; cbn [fst snd]; try reflexivity.
    - rewrite Hm', C1, Hst. destruct (has_metrics t); reflexivity.
    - intros e He. destruct (Hcl e He) as [Hg (c & Hc & Ha)]. exists (ended Closed c).
      unfold shut. cbn. rewrite Hc. split; [reflexivity|]. split; [discriminate|]. rewrite Hl'. exact Hg.
    - rewrite Hl'. exact H6.
    - intros [_ Hr]. unfold shut, derived, pooled in *. cbn. rewrite Hl'. split.
      + destruct (controller_ t); intros ? ? [= <-]; discriminate.
      + intros l Hr'. rewrite H6. auto. }
  cbn [has_close put_stream put_queue put_controller put_deadline put_stopped]. rewrite Ecl.
  unfold bind at 1, assign at 1. cbn beta iota. unfold bind at 1, self at 1. cbn [snd].
  unfold on_host. cbn [sh_host].
  destruct (close_handler_law (ts_peer t) (route_lease_ t) (sh_host w1)) as (h & Eh & Hh');
    [rewrite H1; exact Hh|].
  cbn. rewrite Eh. eexists. split; [reflexivity|]. split; [split; assumption|]. apply Hfin; reflexivity.
Qed.

Lemma closable_shut t : closable t -> over (shut t).
Proof.
  intros [Hl Ho Hs Hq Hc (fs & Hv & Hw & Hn) Hhd]. constructor; try reflexivity; try assumption.
  - intros c. unfold shut. cbn. destruct (controller_ t); [|discriminate]. intros [= <-]. auto.
  - exists fs. auto.
Qed.

(** The outcome of a part of a handler. *)
Definition outcome_ok (w : Shared S W) (t : TlsTunnelSession) (P : TlsTunnelSession -> Prop) (st' : St) : Prop :=
  shared_ok st'.1 st'.2 /\ effect (w, t) st' /\ P st'.2.

Lemma close_now_wp w t :
  closing_ok w t -> closable t ->
  wp close_now (returns (fun _ => outcome_ok w t over)) (w, t).
Proof.
  intros Hw Ht.
  destruct (close_now_eq w t Hw (cl_live _ Ht) (proj2 (cl_handlers _ Ht))) as (w' & E & Hw' & He).
  unfold wp. rewrite E. exists tt. split; [reflexivity|]. split; [exact Hw'|]. split; [exact He|].
  apply closable_shut. exact Ht.
Qed.

(** *** The queue and the stream *)

(** Of a session that goes on, these parts do not change while frames are queued. *)
Definition keeps (t t' : TlsTunnelSession) : Prop :=
  close_after_write_ t' = close_after_write_ t /\ reading (stream_ t') = reading (stream_ t) /\
  route_lease_ t' = route_lease_ t.

Lemma enqueue_frame_live (w : Shared S W) frame t :
  stopped_ t = false -> valid_frame frame ->
  enqueue_frame frame (w, t) =
  match try_enqueue_buffer (wire frame) (outbound_queue_ t) with
  | (Ok true, q) =>
      (let* _ := if negb (write_in_progress_ t) then write_next else ret tt in ret true) (w, put_queue q t)
  | (Ok false, q) => (Ok false, (w, put_queue q t))
  | (Throw e, q) => (Throw e, (w, put_queue q t))
  end.
Proof.
  intros Hl Hv. unfold enqueue_frame, bind at 1, self at 1. cbn [snd]. rewrite Hl.
  unfold bind at 1, on_queue at 1. rewrite try_enqueue_eq, (encode_frame_wire _ Hv).
  destruct (try_enqueue_buffer _ _) as [[[]|e] q]; reflexivity.
Qed.

Lemma write_next_first (w : Shared S W) t b :
  stopped_ t = false -> queue_ (outbound_queue_ t) = [b] ->
  write_next (w, t) = (Ok tt, (w, put_stream (async_write b (stream_ t)) (put_writing_flag true t))).
Proof.
  intros Hl Hq. unfold write_next, bind, self, assign, on_stream, lift, front, queue_empty. cbn [snd].
  rewrite Hl, Hq. reflexivity.
Qed.

Lemma queue_end (w : Shared S W) frame t pending c :
  running (frame :: pending) t c ->
  enqueue_frame frame (w, t) = (Ok false, (w, t)) \/
  (enqueue_frame frame (w, t) = (Ok true, (w, queued frame t)) /\
   queue_ok (outbound_queue_ (queued frame t))).
Proof.
  intros [[Hl Ho Hs Hq Hc _ _] Hcon Hdec Hdl Hsh Hwr Hpend _].
  apply Forall_cons in Hpend as [Hv _]. rewrite enqueue_frame_live by assumption.
  pose proof (encode_frame_nonempty _ _ (encode_frame_wire _ Hv)) as Hne.
  destruct (try_enqueue_buffer_spec (wire frame) (outbound_queue_ t) Hq ltac:(lia)) as [Hy Hn].
  destruct (decide (zlen (queue_ (outbound_queue_ t)) < maximum_frames_ (outbound_queue_ t) /\
    total (queue_ (outbound_queue_ t)) + zlen (wire frame) <= maximum_bytes_ (outbound_queue_ t))) as [Hf|Hf].
  - right. rewrite (Hy Hf).
    split; [|unfold queued; destruct (write_in_progress_ t); apply enqueued_ok; tauto].
    unfold queued. destruct (write_in_progress_ t); [reflexivity|]. destruct Hwr as [Hwn Hqn].
    cbn [negb]. unfold bind. rewrite (write_next_first _ _ (wire frame)); [reflexivity|exact Hl|].
    cbn [outbound_queue_ put_queue queue_]. rewrite Hqn. reflexivity.
  - left. rewrite (Hn Hf). destruct t; reflexivity.
Qed.

(** The stream after a frame was queued, and the frames that wait. *)
Lemma queued_parts frame t :
  (if write_in_progress_ t
   then exists b rest, writing (stream_ t) = Some b /\ queue_ (outbound_queue_ t) = b :: rest
   else writing (stream_ t) = None /\ queue_ (outbound_queue_ t) = []) ->
  closed (stream_ t) = false -> misused (stream_ t) = false ->
  closed (stream_ (queued frame t)) = false /\ misused (stream_ (queued frame t)) = false /\
  write_in_progress_ (queued frame t) = true /\
  (exists b rest, writing (stream_ (queued frame t)) = Some b /\
     queue_ (outbound_queue_ (queued frame t)) = b :: rest) /\
  written (stream_ (queued frame t)) ++ unsent (queued frame t) =
    (written (stream_ t) ++ unsent t) ++ [wire frame] /\
  (written (stream_ (queued frame t)) = written (stream_ t) \/
   written (stream_ (queued frame t)) = written (stream_ t) ++ [wire frame] /\ unsent t = []) /\
  handshaking (stream_ (queued frame t)) = handshaking (stream_ t) /\
  keeps t (queued frame t).
Proof.
  unfold queued, unsent, keeps. destruct (write_in_progress_ t) eqn:Ew.
  - intros (b & rest & Hb & Hq) Ho Hs. cbn. rewrite Ew, Hq. cbn [tail app].
    split_goal; auto; [eauto|]. rewrite app_assoc. reflexivity.
  - intros [Hb Hq] Ho Hs. cbn. rewrite Hb, Hq, Ho, Hs. cbn [tail app].
    rewrite !app_nil_r. split_goal; auto. eauto.
Qed.

Lemma queued_running frame t pending c :
  running (frame :: pending) t c -> queue_ok (outbound_queue_ (queued frame t)) ->
  running pending (queued frame t) c.
Proof.
  intros [[Hl Ho Hs Hq Hc Hsent Hhd] Hcon Hdec Hdl Hsh Hwr Hpend (fs & Hv & Hw & Hn & Hx)] Hq'.
  apply Forall_cons in Hpend as [Hvf Hpend].
  destruct (queued_parts frame t Hwr Ho Hs) as (Ho' & Hs' & Hwp & Hwr' & Hbytes & Hwritten & Hsh' & Hk).
  assert (Hsame : stopped_ (queued frame t) = stopped_ t /\ controller_ (queued frame t) = controller_ t /\
    decoder_ (queued frame t) = decoder_ t /\ deadline_ (queued frame t) = deadline_ t /\
    has_established (queued frame t) = has_established t /\ has_close (queued frame t) = has_close t)
    by (unfold queued; destruct (write_in_progress_ t); auto 10).
  destruct Hsame as (E1 & E2 & E3 & E4 & E5 & E6).
  assert (Hfs : Forall valid_frame (fs ++ [frame])) by (apply Forall_app; auto).
  assert (Happ : (fs ++ [frame]) ++ pending = fs ++ frame :: pending) by (rewrite <- app_assoc; reflexivity).
  assert (Hwire : written (stream_ (queued frame t)) ++ unsent (queued frame t) = map wire (fs ++ [frame]))
    by (rewrite Hbytes, Hw, map_app; reflexivity).
  constructor; rewrite ?E2, ?E3, ?E4, ?Hwp, ?Hsh'; auto.
  - constructor; rewrite ?E1, ?E2, ?E5, ?E6; auto.
    unfold sent_ok in *. destruct Hwritten as [->|[-> Hu]]; [exact Hsent|].
    exists (fs ++ [frame]). rewrite Hu, app_nil_r in Hw. rewrite Hw, map_app. split_goal; auto.
    rewrite <- Happ in Hn. apply (consecutive_prefix _ _ _ Hn).
  - exists (fs ++ [frame]). rewrite Happ. auto.
Qed.

(** *** The parts of the handlers *)

Lemma wp_self {A} (k : _ -> M St A) (w : Shared S W) t Q : wp (k t) Q (w, t) -> wp (bind self k) Q (w, t).
Proof. auto. Qed.
Lemma wp_assign {A} f (k : unit -> M St A) (w : Shared S W) t Q :
  wp (k tt) Q (w, f t) -> wp (bind (assign f) k) Q (w, t).
Proof. auto. Qed.
Lemma wp_assign_last f (w : Shared S W) t (Q : outcome unit -> St -> Prop) :
  Q (Ok tt) (w, f t) -> wp (assign f) Q (w, t).
Proof. auto. Qed.
Lemma wp_on_stream {A} f (k : unit -> M St A) (w : Shared S W) t Q :
  wp (k tt) Q (w, put_stream (f (stream_ t)) t) -> wp (bind (on_stream f) k) Q (w, t).
Proof. auto. Qed.

Lemma count_wp k n w t (Q : outcome unit -> St -> Prop) :
  shared_ok w t -> k <> C_closed_sessions ->
  (forall w', shared_ok w' t -> effect (w, t) (w', t) -> Q (Ok tt) (w', t)) ->
  wp (count k n) Q (w, t).
Proof.
  intros Hw Hk H. unfold wp. rewrite count_eq. cbn [fst snd]. apply H; destruct (has_metrics t); auto.
  - apply effect_local; try reflexivity. cbn [sh_metrics].
    change (closed_sessions ?m) with (counter C_closed_sessions m). rewrite counter_fetch_add.
    rewrite bool_decide_eq_false_2 by congruence. reflexivity.
  - apply effect_refl.
Qed.

Lemma on_host_wp {A} (m : M W A) w t (Q : outcome A -> St -> Prop) :
  shared_ok w t ->
  (forall r h, m (sh_host w) = (r, h) ->
     let w' := mkShared (sh_leases w) h (sh_metrics w) in
     ls_ok (sh_leases w') -> effect (w, t) (w', t) -> Q r (w', t)) ->
  wp (on_host m) Q (w, t).
Proof.
  intros [Hs Hh] H. unfold wp, on_host. destruct (m (sh_host w)) as [r h].
  apply H; [reflexivity|exact Hs|]. apply effect_local; reflexivity.
Qed.

Lemma outcome_trans w t w' t' P st' :
  effect (w, t) (w', t') -> outcome_ok w' t' P st' -> outcome_ok w t P st'.
Proof. intros He (Hw & Hf & Hp). split; [exact Hw|]. split; [eapply effect_trans; eassumption|exact Hp]. Qed.

Lemma forward_packets_wp packets w t :
  shared_ok w t -> stopped_ t = false ->
  wp (forward_packets packets) (fun _ => outcome_ok w t (fun t' => t' = t)) (w, t).
Proof.
  intros Hw Hst. revert w Hw. induction packets as [|packet packets IH]; intros w Hw.
  - split; [exact Hw|]. split; [apply effect_refl|reflexivity].
  - cbn [forward_packets].
    apply wp_bind, count_wp; [exact Hw|discriminate|]. intros w1 Hw1 He1.
    apply wp_bind, count_wp; [exact Hw1|discriminate|]. intros w2 Hw2 He2.
    pose proof (effect_trans _ _ _ He1 He2) as He. clear w1 Hw1 He1 He2.
    apply wp_self, wp_bind. destruct (has_sink t).
    + apply on_host_wp; [exact Hw2|]. intros r h E w3 Hs3 He3.
      pose proof (effect_trans _ _ _ He He3) as He'.
      assert (Hw3 : shared_ok w3 t).
      { split; [exact Hs3|]. destruct Hw2 as [_ Hh2]. rewrite Hst in *.
        apply (packet_sink_law _ _ packet) in Hh2. rewrite E in Hh2. exact Hh2. }
      destruct r.
      * eapply wp_mono; [apply IH; exact Hw3|]. intros r st'. apply outcome_trans. exact He'.
      * split; [exact Hw3|]. split; [exact He'|reflexivity].
    + apply wp_ret. eapply wp_mono; [apply IH; exact Hw2|]. intros r st'. apply outcome_trans. exact He.
Qed.

Lemma queued_effect (w : Shared S W) frame t : effect (w, t) (w, queued frame t).
Proof. unfold queued. destruct (write_in_progress_ t); apply effect_local; reflexivity. Qed.

Lemma queued_shared (w : Shared S W) frame t : shared_ok w t -> shared_ok w (queued frame t).
Proof.
  intros Hw. unfold queued. destruct (write_in_progress_ t); (eapply shared_ok_local; [exact Hw|reflexivity..]).
Qed.

Lemma keeps_trans t1 t2 t3 : keeps t1 t2 -> keeps t2 t3 -> keeps t1 t3.
Proof. unfold keeps. intros (? & ? & ?) (? & ? & ?). split_goal; congruence. Qed.

Lemma running_keeps frame t pending c :
  running (frame :: pending) t c -> keeps t (queued frame t).
Proof.
  intros [[] ? ? ? ? Hwr ? ?].
  apply (queued_parts frame t Hwr); assumption.
Qed.

Lemma enqueue_frames_wp frames w t c :
  shared_ok w t -> running frames t c ->
  wp (enqueue_frames frames) (returns (fun b : bool => outcome_ok w t (fun t' =>
    if b then running [] t' c /\ keeps t t' else over t'))) (w, t).
Proof.
  revert w t. induction frames as [|frame frames IH]; intros w t Hw Hr.
  - exists true. split; [reflexivity|]. split; [exact Hw|]. split; [apply effect_refl|].
    split; [exact Hr|]. unfold keeps. auto.
  - cbn [enqueue_frames]. apply wp_bind. unfold wp at 1.
    destruct (queue_end w frame t frames c Hr) as [->|[-> Hq]]; cbn [fst snd negb].
    + apply wp_bind, count_wp; [exact Hw|discriminate|]. intros w1 Hw1 He1.
      pose proof (rn_closable _ _ _ Hr) as Hcl.
      eapply wp_returns; [apply close_now_wp; [apply (shared_closing w1 t Hw1), Hcl|exact Hcl]|].
      intros [] st' Ho. exists false. split; [reflexivity|]. exact (outcome_trans _ _ _ _ _ _ He1 Ho).
    + pose proof (queued_running _ _ _ _ Hr Hq) as Hr'.
      eapply wp_mono; [apply (IH w (queued frame t) (queued_shared _ _ _ Hw) Hr')|].
      intros r st' (b & -> & Hw' & He & Hb). exists b. split; [reflexivity|]. split; [exact Hw'|].
      split; [eapply effect_trans; [apply queued_effect|exact He]|].
      destruct b; [|exact Hb]. destruct Hb as [Hb Hk]. split; [exact Hb|].
      eapply keeps_trans; [eapply running_keeps; exact Hr|exact Hk].
Qed.

(** *** Calls of the controller *)

Lemma renewed_generation now leases c k e :
  well_keyed leases -> renewed now leases c k -> sc_lease c = Some e ->
  lease_id k = lease_id e /\ l_identity k = l_identity e /\ l_address k = l_address e.
Proof.
  intros Hw (e0 & l & He & (Hl & Hid & Had)%matches_some & Hk) He'. simplify_eq.
  apply unexpired_some, Hw in Hl as [Hl _]. destruct Hk as (<- & <- & <- & _). auto.
Qed.

Lemma handle_claims e leases c frame now r leases' c' w t w' t' :
  session_ok c -> well_keyed leases -> handle_rel leases c frame now r leases' c' ->
  controller_ t = Some c -> controller_ t' = Some c' ->
  ls_leases (sh_leases w) = leases -> ls_leases (sh_leases w') = leases' ->
  claims e w t -> claims e w' t'.
Proof.
  intros Hc Hk Hr Ht Ht' Hw Hw' (c0 & Hc0 & Ha & He). rewrite Ht in Hc0. injection Hc0 as <-.
  exists c'. split; [exact Ht'|]. rewrite Hw'. rewrite Hw in He.
  pose proof (handle_effect _ _ _ _ _ _ _ Hc Hk Hr) as Hef.
  assert (Hgen : forall k, renewed now leases c k ->
    lease_id k = lease_id e /\ l_identity k = l_identity e /\ l_address k = l_address e).
  { intros k Hn. pose proof Hn as (e0 & _ & He0 & _). rewrite He0 in He.
    destruct (renewed_generation _ _ _ _ _ Hk Hn He0) as (-> & -> & ->). exact He. }
  assert (Hend : sc_state c' <> Established -> sc_lease c' = None /\ (is_Some (sc_lease c) -> matches e leases' = None)).
  { intros Hst. destruct (le_ended _ _ _ _ _ Hef Hst) as [Hn Hg]. split; [exact Hn|]. intros [k Hk'].
    rewrite Hk' in He. destruct He as (Hi & Hn' & Had). rewrite (matches_generation e k) by assumption. auto. }
  assert (Hsome : sc_state c = Established -> is_Some (sc_lease c)) by apply (so_lease _ Hc).
  destruct Hr as [Hst|? ? ? ? [Hst|Hst] ? ?|? ? ? ? Hst|k Hst ? Hn|k Hst ? Hn|Hst]; try contradiction.
  - split; [destruct Hst; congruence|exact He].
  - split; [discriminate|]. destruct Hend as [-> Hg]; [discriminate|auto].
  - split; [cbn; congruence|]. exact (Hgen k Hn).
  - split; [cbn; congruence|]. exact (Hgen k Hn).
  - split; [discriminate|]. destruct Hend as [-> Hg]; [discriminate|auto].
Qed.

Lemma downlink_claims e leases c packet now r leases' c' w t w' t' :
  session_ok c -> well_keyed leases -> downlink_rel leases c packet now r leases' c' ->
  controller_ t = Some c -> controller_ t' = Some c' ->
  ls_leases (sh_leases w) = leases -> ls_leases (sh_leases w') = leases' ->
  claims e w t -> claims e w' t'.
Proof.
  intros Hc Hk Hr Ht Ht' Hw Hw' (c0 & Hc0 & Ha & He). rewrite Ht in Hc0. injection Hc0 as <-.
  exists c'. split; [exact Ht'|]. rewrite Hw'. rewrite Hw in He.
  destruct Hr as [|e0 t0 Hst He0 ? Hm|e0 t0 k Hst He0 ? Hn].
  - auto.
  - split; [discriminate|]. cbn. rewrite He0 in He. destruct He as (? & ? & ?).
    rewrite (matches_generation e e0) by assumption. exact Hm.
  - split; [cbn; congruence|]. cbn. rewrite He0 in He.
    destruct (renewed_generation _ _ _ _ _ Hk Hn He0) as (-> & -> & ->). exact He.
Qed.

(** Running goes on with another state of the controller and its new frames. *)
Lemma running_controller t c c' out :
  running [] t c -> session_ok c' -> Forall valid_frame out ->
  consecutive (sc_next_outbound_sequence c) out ->
  sc_next_outbound_sequence c' = advance (sc_next_outbound_sequence c) out ->
  running out (put_controller (Some c') t) c'.
Proof.
  intros [[Hl Ho Hs Hq Hc Hsent Hhd] Hcon Hdec Hdl Hsh Hwr _ (fs & Hv & Hw & Hn & Hx)] Hc' Hout Hnum Hnext.
  rewrite app_nil_r in Hn, Hx. constructor; auto.
  - constructor; auto. intros ? [= <-]. exact Hc'.
  - exists fs. split; [exact Hv|]. split; [exact Hw|]. rewrite Hx in Hnum, Hnext. split.
    + apply consecutive_app; [int_lia|exact Hn|exact Hnum].
    + rewrite Hnext, advance_app. reflexivity.
Qed.

Lemma on_handle_wp frame now w t c :
  shared_ok w t -> running [] t c -> is_bytes (f_payload frame) ->
  wp (on_controller (handle frame now)) (returns (fun r => outcome_ok w t (fun t' =>
    exists c' leases', t' = put_controller (Some c') t /\ running (outbound_frames r) t' c' /\
      handle_rel (ls_leases (sh_leases w)) c frame now r leases' c'))) (w, t).
Proof.
  intros [Hs Hh] Hr Hb. pose proof (rn_controller _ _ _ Hr) as Hcon.
  pose proof (cl_session _ (rn_closable _ _ _ Hr) c Hcon) as Hc. pose proof (ls_well_keyed _ Hs) as Hk.
  destruct (handle_sound frame now (sh_leases w) c Hs Hc Hb) as (r & s' & c' & E & Hs' & Hrel).
  pose proof (handle_ipv6 frame now (sh_leases w, c)) as H6. rewrite E in H6. cbn [fst snd] in H6.
  unfold wp, on_controller. rewrite Hcon, E. exists r. split; [reflexivity|].
  split; [split; assumption|]. split.
  - constructor; try reflexivity; [auto|cbn; destruct (stopped_ t); reflexivity|..].
    + intros e. eapply handle_claims; try eassumption; reflexivity.
    + exact H6.
    + intros [H1 H2]. split; [|intros l Hl; unfold pooled; cbn; rewrite H6; exact (H2 l Hl)].
      cbn. intros ? k [= <-]. apply (handle_pooled (sh_leases w) c frame now r s' c'); eauto.
  - exists c', (ls_leases s'). split; [reflexivity|]. split; [|exact Hrel].
    destruct (handle_rel_numbers _ _ _ _ _ _ _ Hc Hrel).
    apply (running_controller t c); eauto using handle_rel_ok, handle_rel_valid.
Qed.

Lemma on_downlink_wp packet now w t c :
  shared_ok w t -> running [] t c -> is_bytes packet ->
  wp (on_controller (make_data_to_client packet now)) (returns (fun r => outcome_ok w t (fun t' =>
    exists c' leases', t' = put_controller (Some c') t /\ running (option_list r) t' c' /\
      downlink_rel (ls_leases (sh_leases w)) c packet now r leases' c'))) (w, t).
Proof.
  intros [Hs Hh] Hr Hb. pose proof (rn_controller _ _ _ Hr) as Hcon.
  pose proof (cl_session _ (rn_closable _ _ _ Hr) c Hcon) as Hc. pose proof (ls_well_keyed _ Hs) as Hk.
  destruct (downlink_sound packet now (sh_leases w) c Hs Hc Hb) as (r & s' & c' & E & Hs' & Hrel).
  pose proof (downlink_ipv6 packet now (sh_leases w, c)) as H6. rewrite E in H6. cbn [fst snd] in H6.
  unfold wp, on_controller. rewrite Hcon, E. exists r. split; [reflexivity|].
  split; [split; assumption|]. split.
  - constructor; try reflexivity; [auto|cbn; destruct (stopped_ t); reflexivity|..].
    + intros e. eapply downlink_claims; try eassumption; reflexivity.
    + exact H6.
    + intros [H1 H2]. split; [|intros l Hl; unfold pooled; cbn; rewrite H6; exact (H2 l Hl)].
      cbn. intros ? k [= <-]. apply (downlink_pooled (sh_leases w) c packet now r s' c'); eauto.
  - exists c', (ls_leases s'). split; [reflexivity|]. split; [|exact Hrel].
    destruct (downlink_rel_numbers _ _ _ _ _ _ _ Hc Hrel).
    apply (running_controller t c); eauto using downlink_rel_ok, downlink_rel_valid.
Qed.

(** *** Handlers *)

(** An exception leaves a session that can be closed. *)
Definition guarded {A} (w : Shared S W) t (P : A -> TlsTunnelSession -> Prop) (r : outcome A) (st' : St) : Prop :=
  match r with
  | Ok a => outcome_ok w t (P a) st'
  | Throw _ => closing_ok st'.1 st'.2 /\ effect (w, t) st' /\ closable st'.2
  end.

Lemma guarded_trans {A} w t w' t' (P : A -> _ -> Prop) r st' :
  effect (w, t) (w', t') -> guarded w' t' P r st' -> guarded w t P r st'.
Proof.
  intros He. destruct r as [a|e]; [apply outcome_trans; exact He|]. intros (Hw & He' & Hc).
  split; [exact Hw|]. split; [eapply effect_trans; eassumption|exact Hc].
Qed.

(** Changes of fields that [running] does not mention. *)
Lemma running_flag f pending t c :
  running pending t c ->
  (forall u, stopped_ (f u) = stopped_ u /\ stream_ (f u) = stream_ u /\
     outbound_queue_ (f u) = outbound_queue_ u /\ controller_ (f u) = controller_ u /\
     decoder_ (f u) = decoder_ u /\ (is_Some (deadline_ u) -> is_Some (deadline_ (f u))) /\
     write_in_progress_ (f u) = write_in_progress_ u /\
     has_established (f u) = has_established u /\ has_close (f u) = has_close u) ->
  running pending (f t) c.
Proof.
  intros [[Hl Ho Hs Hq Hc Hsent Hhd] Hcon Hdec Hdl Hsh Hwr Hpend Hwire] Hf.
  destruct (Hf t) as (E1 & E2 & E3 & E4 & E5 & E6 & E7 & E8 & E9).
  constructor; rewrite ?E2, ?E3, ?E4, ?E5, ?E7; auto.
  - constructor; unfold sent_ok; rewrite ?E1, ?E2, ?E3, ?E4, ?E8, ?E9; auto.
  - unfold unsent. rewrite E3, E7. exact Hwire.
Qed.

Lemma apply_result_wp r w t c :
  shared_ok w t -> running (outbound_frames r) t c ->
  reading (stream_ t) = false -> close_after_write_ t = false ->
  (if close_transport r then ~ open_session c
   else open_session c /\ routes_for c t) ->
  wp (apply_result r) (guarded w t (fun _ t' => over t' \/ resting false t')) (w, t).
Proof.
  intros Hw Hr Hrd Hca Hcl. unfold apply_result. apply wp_bind.
  pose proof (rn_closable _ _ _ Hr) as Hcl0.
  eapply wp_mono; [apply forward_packets_wp; [exact Hw|apply Hcl0]|].
  intros [[]|e] [w1 t1] (Hw1 & He1 & Et); cbn [fst snd] in *; subst t1.
  2: { split; [apply (shared_closing _ _ Hw1), Hcl0|]. split; [exact He1|exact Hcl0]. }
  eapply wp_returns; [apply (enqueue_frames_wp _ _ _ _ Hw1 Hr)|].
  intros [] [w2 t2] (Hw2 & He2 & Hb); cbn [fst snd] in *; pose proof (effect_trans _ _ _ He1 He2) as He.
  2: { apply wp_ret. split; [exact Hw2|]. split; [exact He|]. auto. }
  destruct Hb as (Hr2 & Kc & Kr & Kl). cbn [negb].
  destruct (close_transport r).
  2: { apply wp_ret. split; [exact Hw2|]. split; [exact He|]. right. exists c. split; [exact Hr2|].
       cbn [snd]. rewrite Kc, Hca, Kr, Hrd. split; [reflexivity|]. split; [apply Hcl|].
       apply (routes_for_same c t); [exact Kl|apply Hcl]. }
  apply wp_assign, wp_self.
  assert (Hr3 : running [] (put_close_after true t2) c)
    by (apply (running_flag (put_close_after true)); [exact Hr2|auto 12]).
  assert (He3 : effect (w, t) (w2, put_close_after true t2))
    by (eapply effect_trans; [exact He|apply effect_local; reflexivity]).
  destruct (negb _ && _)%bool eqn:Eq.
  - pose proof (rn_closable _ _ _ Hr3) as Hcl3.
    eapply wp_mono; [apply close_now_wp; [apply (shared_closing w2 t2 Hw2), Hcl3|exact Hcl3]|].
    intros r' st' (a & -> & Ho). apply (guarded_trans w t w2 (put_close_after true t2)); [exact He3|].
    destruct Ho as (? & ? & ?). split; [assumption|]. split; [assumption|]. left. assumption.
  - apply wp_ret. split; [exact Hw2|]. split; [exact He3|]. right. exists c. split; [exact Hr3|].
    cbn. rewrite Kr. split_goal; auto. pose proof (rn_writer _ _ _ Hr2) as Hwr.
    destruct (write_in_progress_ t2) eqn:Ewp; [reflexivity|]. destruct Hwr as [_ Hq].
    cbn in Eq. rewrite Ewp in Eq. unfold queue_empty in Eq. rewrite Hq in Eq. discriminate.
Qed.

Definition routed pending t c (b : bool) (t' : TlsTunnelSession) : Prop :=
  if b then running pending t' c /\ reading (stream_ t') = reading (stream_ t) /\
            close_after_write_ t' = close_after_write_ t /\
            (open_session c -> routes_for c t')
  else over t'.

Lemma accept_session_wp (accepted : bool) w t pending c :
  (if accepted then shared_ok w t else closing_ok w t) -> running pending t c -> routes_for c t ->
  wp (accept_session accepted) (guarded w t (routed pending t c)) (w, t).
Proof.
  intros Hw Hr Hl. unfold accept_session. apply wp_self. destruct accepted; cbn [negb].
  - apply wp_bind. destruct (_ && _)%bool.
    + apply wp_bind, count_wp; [exact Hw|discriminate|]. intros w2 Hw2 He2.
      apply wp_assign_last, wp_ret. split; [exact Hw2|].
      split; [eapply effect_trans; [exact He2|]; apply effect_local; reflexivity|].
      split; [apply (running_flag (put_counted_flag true)); [exact Hr|auto 12]|auto].
    + apply wp_ret, wp_ret. split; [exact Hw|]. split; [apply effect_refl|]. split; auto.
  - eapply wp_returns; [apply close_now_wp; [exact Hw|apply (rn_closable _ _ _ Hr)]|].
    intros [] [w2 t2] (Hw2 & He2 & Ho). apply wp_ret. split; [exact Hw2|]. split; [exact He2|exact Ho].
Qed.

Lemma route_established_wp w t pending c :
  shared_ok w t -> running pending t c ->
  (open_session c -> route_lease_ t = None \/ routes_for c t) ->
  wp route_established (guarded w t (routed pending t c)) (w, t).
Proof.
  intros Hw Hr Hroute. pose proof (rn_controller _ _ _ Hr) as Hcon. unfold route_established. apply wp_self.
  pose proof (rn_closable _ _ _ Hr) as Hcl.
  rewrite Hcon. pose proof (so_lease _ (cl_session _ Hcl c Hcon)) as Hso.
  assert (Hdone : (open_session c -> routes_for c t) ->
    wp (ret true) (guarded w t (routed pending t c)) (w, t)).
  { intros H. apply wp_ret. split; [exact Hw|]. split; [apply effect_refl|]. split; auto. }
  destruct (route_lease_ t) as [rl|] eqn:Erl.
  { apply Hdone. intros Ho. destruct (Hroute Ho); [discriminate|assumption]. }
  assert (Hnone : sc_state c <> Established -> routes_for c t).
  { intros Hst. unfold routes_for. rewrite Erl. destruct (sc_lease c); [|exact I].
    destruct Hst. apply Hso. eauto. }
  destruct (sc_state c) eqn:Est; try (apply Hdone; intros _; apply Hnone; discriminate).
  destruct (sc_lease c) as [lease|] eqn:Ele; [|destruct (proj1 Hso eq_refl); discriminate].
  apply wp_assign. set (t1 := put_route_lease (Some lease) t).
  assert (Hr1 : running pending t1 c) by (apply (running_flag (put_route_lease (Some lease))); [exact Hr|auto 12]).
  assert (Hf1 : routes_for c t1) by (unfold routes_for; rewrite Ele; reflexivity).
  assert (He1 : effect (w, t) (w, t1)) by (apply (effect_routed _ _ c); assumption).
  rewrite (proj1 (cl_handlers _ Hcl)). apply wp_bind.
  destruct Hw as [Hs Hh]. rewrite (cl_live _ Hcl), Erl in Hh.
  pose proof (established_handler_law _ lease _ (so_shape _ (cl_session _ Hcl c Hcon) lease Ele) Hh) as Hlaw.
  unfold wp at 1. unfold on_host.
  destruct (established_handler lease (ts_peer t) (sh_host w)) as [o h]. cbn [fst snd].
  assert (He : effect (w, t) (mkShared (sh_leases w) h (sh_metrics w), t1))
    by (eapply effect_trans; [exact He1|apply effect_local; reflexivity]).
  destruct o as [b|e].
  - eapply wp_mono; [apply (accept_session_wp b _ t1 pending c); [|exact Hr1|exact Hf1]|].
    + destruct b; (split; [exact Hs|]); [|exact Hlaw].
      change (stopped_ t1) with (stopped_ t). rewrite (cl_live _ Hcl). exact Hlaw.
    + intros r st' Ho. eapply guarded_trans; [exact He|]. exact Ho.
  - split; [split; [exact Hs|exact Hlaw]|]. split; [exact He|]. apply (rn_closable _ _ _ Hr1).
Qed.

(** A session that goes on keeps the address it is registered for. *)
Lemma handle_rel_routes s c frame now r leases' c' t :
  session_ok c -> open_session c -> routes_for c t -> handle_rel (ls_leases s) c frame now r leases' c' ->
  open_session c' -> route_lease_ t = None \/ routes_for c' t.
Proof.
  intros Hc Ho Hf Hr Ho'.
  assert (Hk : forall k, renewed now (ls_leases s) c k -> sc_lease c' = Some k -> routes_for c' t).
  { intros k Hk Hk'. pose proof Hk as (e & _ & He & _). apply (routes_for_renewed c); [|exact Hf].
    rewrite Hk', He. cbn. f_equal. apply (renewed_keeps_address now s c); assumption. }
  destruct Hr as [|? ? ? ? ? ? ?|hello l a payload Hst|k ? ? Hn|k ? ? Hn|]; eauto;
    try (destruct Ho'; discriminate).
  left. unfold routes_for in Hf. destruct (sc_lease c) eqn:El.
  - pose proof (proj2 (so_lease _ Hc) ltac:(eauto)). congruence.
  - destruct (route_lease_ t); [contradiction|reflexivity].
Qed.

(** A frame after which the controller is closed or open, as the result says. *)
Lemma handle_rel_open leases c frame now r leases' c' :
  open_session c -> handle_rel leases c frame now r leases' c' ->
  if close_transport r then ~ open_session c' else open_session c'.
Proof.
  intros Ho Hr. unfold open_session in *. destruct Hr as [Hst|code what leases1 c1|hello l a payload| | |];
    cbn [close_transport]; try (right; assumption); try (intros [?|?]; discriminate).
  - destruct Ho, Hst; congruence.
  - right. reflexivity.
Qed.

Lemma handle_frames_wp frames clock i w t :
  shared_ok w t -> resting false t -> close_after_write_ t = false ->
  Forall (fun f => is_bytes (f_payload f)) frames ->
  wp (handle_frames frames clock i) (guarded w t (fun (b : bool) t' =>
    over t' \/ (b = true /\ resting false t'))) (w, t).
Proof.
  revert i w t. induction frames as [|frame frames IH]; intros i w t Hw Hrest Hca Hfs.
  - apply wp_ret. split; [exact Hw|]. split; [apply effect_refl|]. auto.
  - apply Forall_cons in Hfs as [Hb Hfs]. cbn [handle_frames].
    destruct Hrest as (c & Hr & Hrest). rewrite Hca in Hrest. destruct Hrest as (Hrd & Hop & Hrt).
    apply wp_assign. set (t1 := put_deadline (Some (IdleDeadline (idle_timeout_ t))) t).
    assert (Hr1 : running [] t1 c).
    { apply (running_flag (fun u => put_deadline (Some (IdleDeadline (idle_timeout_ t))) u)); [exact Hr|].
      intros u. cbn. split_goal; eauto. }
    assert (He1 : effect (w, t) (w, t1)) by (apply effect_local; reflexivity).
    eapply wp_returns; [apply (on_handle_wp frame (clock i) w t1 c Hw Hr1 Hb)|].
    intros r [w2 t2] (Hw2 & He2 & c' & leases' & Et2 & Hr2 & Hrel); cbn [fst snd] in *.
    pose proof (effect_trans _ _ _ He1 He2) as He. clear He1 He2.
    apply wp_bind. eapply wp_mono; [apply (route_established_wp w2 t2 _ c' Hw2 Hr2)|].
    { intros Ho'. rewrite Et2. change (routes_for c' (put_controller (Some c') t1)) with (routes_for c' t1).
      apply (handle_rel_routes _ c _ _ _ _ c' t1 (cl_session _ (rn_closable _ _ _ Hr1) c
        (rn_controller _ _ _ Hr1)) Hop Hrt Hrel Ho'). }
    intros [b|e] [w3 t3] H3.
    2: { eapply guarded_trans; [exact He|exact H3]. }
    destruct H3 as (Hw3 & He3 & Hb3); cbn [fst snd] in *; pose proof (effect_trans _ _ _ He He3) as He'.
    destruct b; cbn [negb].
    2: { apply wp_ret. split; [exact Hw3|]. split; [exact He'|]. left. exact Hb3. }
    destruct Hb3 as (Hr3 & Hrd3 & Hca3 & Hro).
    assert (Hrd' : reading (stream_ t3) = false) by (rewrite Hrd3, Et2; exact Hrd).
    assert (Hca' : close_after_write_ t3 = false) by (rewrite Hca3, Et2; exact Hca).
    apply wp_bind. eapply wp_mono.
    + apply (apply_result_wp r w3 t3 c' Hw3 Hr3 Hrd' Hca').
      pose proof (handle_rel_open _ _ _ _ _ _ _ Hop Hrel) as Hx. destruct (close_transport r); auto.
    + intros [[]|e] [w4 t4] H4.
      2: { eapply guarded_trans; [exact He'|exact H4]. }
      destruct H4 as (Hw4 & He4 & Ho4); cbn [fst snd] in *; pose proof (effect_trans _ _ _ He' He4) as He5.
      apply wp_self. destruct (stopped_ t4 || close_after_write_ t4)%bool eqn:Et4.
      * apply wp_ret. split; [exact Hw4|]. split; [exact He5|]. destruct Ho4; auto.
      * destruct Ho4 as [Hov|Hrest4]; [rewrite (ov_stopped _ Hov) in Et4; discriminate|]. b2p.
        eapply wp_mono; [apply (IH (i + 1)%nat w4 t4 Hw4 Hrest4); assumption|].
        intros res st'. apply guarded_trans. exact He5.
Qed.

(** *** Events *)

Lemma closable_stream f t :
  closable t -> closed (f (stream_ t)) = false -> misused (f (stream_ t)) = false ->
  written (f (stream_ t)) = written (stream_ t) -> closable (put_stream (f (stream_ t)) t).
Proof.
  intros [Hl Ho Hs Hq Hc Hsent Hhd] Ho' Hs' Hw. constructor; auto.
  unfold sent_ok in *. cbn [stream_ put_stream]. rewrite Hw. exact Hsent.
Qed.

Lemma running_stream f pending t c :
  running pending t c ->
  closed (f (stream_ t)) = closed (stream_ t) -> misused (f (stream_ t)) = misused (stream_ t) ->
  writing (f (stream_ t)) = writing (stream_ t) -> written (f (stream_ t)) = written (stream_ t) ->
  handshaking (f (stream_ t)) = handshaking (stream_ t) ->
  running pending (put_stream (f (stream_ t)) t) c.
Proof.
  intros [Hcl Hcon Hdec Hdl Hsh Hwr Hpend Hwire] E1 E2 E3 E4 E5.
  constructor; cbn [stream_ put_stream controller_ decoder_ deadline_ write_in_progress_ outbound_queue_];
    rewrite ?E3, ?E4, ?E5; auto.
  apply closable_stream; [exact Hcl| | |exact E4]; rewrite ?E1, ?E2; apply Hcl.
Qed.

Lemma resting_read t :
  resting true t -> reading (stream_ t) = true ->
  resting false (put_stream (read_completes (stream_ t)) t) /\ close_after_write_ t = false.
Proof.
  intros (c & Hr & Hx) Hrd. destruct (close_after_write_ t) eqn:Eca;
    [destruct Hx as (_ & Hn & _); congruence|]. split; [|reflexivity].
  exists c. split; [apply (running_stream read_completes); [exact Hr|reflexivity..]|].
  cbn [close_after_write_ put_stream]. rewrite Eca. destruct Hx as (_ & Ho & Hl). auto.
Qed.

Lemma read_next_wp w t :
  shared_ok w t -> resting false t -> close_after_write_ t = false ->
  wp read_next (returns (fun _ => outcome_ok w t begun)) (w, t).
Proof.
  intros Hw (c & Hr & Hx) Hca. rewrite Hca in Hx. destruct Hx as (Hrd & Ho & Hl).
  pose proof (rn_closable _ _ _ Hr) as Hcl.
  unfold read_next. apply wp_self. rewrite (cl_live _ Hcl).
  exists tt. split; [reflexivity|]. split; [exact Hw|]. split; [apply effect_local; reflexivity|].
  right. left. exists c. split.
  - apply (running_stream async_read_some); try reflexivity; [exact Hr|].
    cbn. rewrite Hrd, (cl_open _ Hcl), !orb_false_r. reflexivity.
  - cbn. rewrite Hca. auto.
Qed.

Lemma over_stream f t :
  over t -> closed (f (stream_ t)) = true -> misused (f (stream_ t)) = misused (stream_ t) ->
  written (f (stream_ t)) = written (stream_ t) -> over (put_stream (f (stream_ t)) t).
Proof.
  intros [Hst Ho Hs Hq Hd Hh Hc Hsent] Ho' Hs' Hw. constructor; auto.
  - cbn. rewrite Hs'. exact Hs.
  - unfold sent_ok in *. cbn [stream_ put_stream]. rewrite Hw. exact Hsent.
Qed.

Lemma closes_wp w t :
  closing_ok w t -> closable t ->
  wp close_now (returns (fun _ => outcome_ok w t begun)) (w, t).
Proof.
  intros Hw Ht. eapply wp_mono; [apply close_now_wp; assumption|].
  intros r st' (a & -> & ? & ? & ?). exists a. split; [reflexivity|]. split; [assumption|].
  split; [assumption|]. right. right. assumption.
Qed.

(** A part that ends the handler, after an effect. *)
Lemma returns_after {A} (m : M St A) w t w' t' (P : TlsTunnelSession -> Prop) :
  effect (w, t) (w', t') ->
  wp m (returns (fun _ => outcome_ok w' t' P)) (w', t') -> wp m (returns (fun _ => outcome_ok w t P)) (w', t').
Proof.
  intros He Hm. eapply wp_mono; [exact Hm|]. intros r st' (a & -> & Ho). exists a. split; [reflexivity|].
  exact (outcome_trans _ _ _ _ _ _ He Ho).
Qed.

(** [decoder_.push] under the invariant. *)
Lemma on_push_wp data (w : Shared S W) t c :
  running [] t c -> is_bytes data ->
  wp (on_decoder (push data)) (fun r st' => match r with
    | Ok fs => Forall (fun f => is_bytes (f_payload f)) fs /\
        exists d, st' = (w, put_decoder d t) /\ decoder_ready d
    | Throw _ => exists d, st' = (w, put_decoder d t)
    end) (w, t).
Proof.
  intros Hr Hb. destruct (push_ready data (decoder_ t) Hb (rn_decoder _ _ _ Hr))
    as (fs & rest & e & d & Hp & E & _ & _ & Hd).
  unfold wp, on_decoder. rewrite E. cbn [fst snd]. destruct e as [e|]; [eauto|]. split; [|eauto].
  assert (Hb' : is_bytes (unread (decoder_ t) ++ data)).
  { apply is_bytes_app. split; [|exact Hb].
    destruct (rn_decoder _ _ _ Hr) as (Hd0 & _). apply is_bytes_drop, Hd0. }
  destruct (parses_sound _ _ _ _ Hb' Hp) as [Hv _].
  eapply Forall_impl; [exact Hv|]. intros f (_ & _ & _ & _ & Hf & _). exact Hf.
Qed.

Lemma running_decoder d pending t c :
  running pending t c -> decoder_ready d -> running pending (put_decoder d t) c.
Proof.
  intros [[Hl Ho Hs Hq Hc Hsent Hhd] Hcon Hdec Hdl Hsh Hwr Hpend Hwire] Hd. constructor; auto. constructor; auto.
Qed.
Lemma closable_decoder d t : closable t -> closable (put_decoder d t).
Proof. intros [Hl Ho Hs Hq Hc Hsent Hhd]. constructor; auto. Qed.

Lemma handle_read_wp error data clock w t :
  shared_ok w t -> resting false t -> close_after_write_ t = false -> is_bytes data ->
  wp (handle_read error data clock) (returns (fun _ => outcome_ok w t begun)) (w, t).
Proof.
  intros Hw Hrest Hca Hb. pose proof Hrest as (c & Hr & Hx). pose proof (rn_closable _ _ _ Hr) as Hcl.
  unfold handle_read. apply wp_self. rewrite (cl_live _ Hcl). pose proof (shared_closing _ _ Hw (cl_live _ Hcl)) as Hcw.
  destruct error; [apply closes_wp; assumption|].
  apply wp_bind, wp_try, wp_bind. eapply wp_mono; [apply (on_push_wp data w t c Hr Hb)|].
  assert (Hcatch : forall w1 t1, closing_ok w1 t1 -> closable t1 -> effect (w, t) (w1, t1) ->
    wp (let* _ := close_now in ret false) (fun r s' => match r with
      | Ok b => wp (if negb b then ret tt else
            let* t := self in if negb (stopped_ t) && negb (close_after_write_ t) then read_next else ret tt)
          (returns (fun _ : unit => outcome_ok w t begun)) s'
      | Throw e => returns (fun _ : unit => outcome_ok w t begun) (Throw e) s'
      end) (w1, t1)).
  { intros w1 t1 Hw1 Hc1 He1. eapply wp_returns; [apply closes_wp; assumption|].
    intros [] st' Ho. apply wp_ret, wp_ret. exists tt. split; [reflexivity|].
    exact (outcome_trans _ _ _ _ _ _ He1 Ho). }
  intros [fs|e] st' H.
  2: { destruct H as (d & ->). apply Hcatch; [exact Hcw|apply closable_decoder; exact Hcl|].
       apply effect_local; reflexivity. }
  destruct H as (Hfs & d & -> & Hd).
  assert (Hrest' : resting false (put_decoder d t)).
  { exists c. split; [apply running_decoder; assumption|]. exact Hx. }
  assert (He : effect (w, t) (w, put_decoder d t)) by (apply effect_local; reflexivity).
  eapply wp_mono; [apply (handle_frames_wp fs clock 0 w (put_decoder d t) Hw Hrest' Hca Hfs)|].
  intros [b|e] [w2 t2] H2.
  2: { destruct H2 as (Hw2 & He2 & Hc2); cbn [fst snd] in *. apply Hcatch; [assumption..|].
       eapply effect_trans; eassumption. }
  destruct H2 as (Hw2 & He2 & Ho); cbn [fst snd] in *; pose proof (effect_trans _ _ _ He He2) as He'.
  assert (Hstay : begun t2 -> wp (ret tt) (returns (fun _ : unit => outcome_ok w t begun)) (w2, t2)).
  { intros Ht2. apply wp_ret. exists tt. split; [reflexivity|]. split_goal; auto. split; auto. }
  destruct Ho as [Hov|[-> Hrest2]].
  - destruct b; cbn [negb]; [|apply Hstay; right; right; exact Hov].
    apply wp_self. rewrite (ov_stopped _ Hov). apply Hstay. right. right. exact Hov.
  - cbn [negb]. apply wp_self. pose proof Hrest2 as (c2 & Hr2 & Hx2).
    rewrite (cl_live _ (rn_closable _ _ _ Hr2)). destruct (close_after_write_ t2) eqn:Eca; cbn [negb andb].
    + apply Hstay. right. left. exists c2. split; [exact Hr2|]. rewrite Eca. exact Hx2.
    + eapply returns_after; [exact He'|]. apply read_next_wp; assumption.
Qed.

Lemma sent_prefix l k fs :
  Forall valid_frame fs -> l ++ k = map wire fs -> consecutive 1 fs ->
  exists fs1, Forall valid_frame fs1 /\ l = map wire fs1 /\ consecutive 1 fs1.
Proof.
  intros Hv Hl Hn. symmetry in Hl. apply map_eq_app in Hl as (fs1 & fs2 & -> & <- & _).
  apply Forall_app in Hv as [Hv _]. exists fs1. split_goal; auto. exact (consecutive_prefix _ _ _ Hn).
Qed.

(** The session after the frame in flight was sent and [rest] is left. *)
Definition popped (rest : list bytes) (t : TlsTunnelSession) : TlsTunnelSession :=
  put_queue (mkQueue (maximum_frames_ (outbound_queue_ t)) (maximum_bytes_ (outbound_queue_ t)) (total rest) rest)
    (put_stream (write_completes (stream_ t)) t).
Definition next_write (rest : list bytes) (t : TlsTunnelSession) : TlsTunnelSession :=
  match rest with
  | [] => put_writing_flag false (popped rest t)
  | b :: _ => put_stream (async_write b (stream_ (popped rest t))) (put_writing_flag true (popped rest t))
  end.

Lemma next_write_running pending t c b rest :
  running pending t c -> writing (stream_ t) = Some b -> queue_ (outbound_queue_ t) = b :: rest ->
  write_in_progress_ t = true -> running pending (next_write rest t) c.
Proof.
  intros [[Hl Ho Hs Hq Hc Hsent Hhd] Hcon Hdec Hdl Hsh _ Hpend (fs & Hv & Hw & Hn & Hx)] Hb Hqr Hwp.
  unfold unsent in Hw. rewrite Hwp, Hqr in Hw. cbn [tail] in Hw.
  assert (Hq' : queue_ok (outbound_queue_ (next_write rest t))).
  { unfold next_write. destruct rest; exact (popped_ok b _ _ Hq Hqr). }
  assert (Hpre := consecutive_prefix _ _ _ Hn).
  destruct rest as [|b2 rest]; unfold next_write in *; (constructor; auto; [constructor; auto| |]).
  - cbn. auto.
  - exists fs. split_goal; auto.
  - cbn. rewrite Hs, Ho. reflexivity.
  - unfold sent_ok. cbn. replace (b2 :: rest) with ([b2] ++ rest) in Hw by reflexivity.
    rewrite app_assoc in Hw. destruct (sent_prefix _ _ _ Hv Hw Hpre) as (fs1 & ? & ? & ?). eauto.
  - cbn. eauto.
  - exists fs. split_goal; auto. unfold unsent. cbn. rewrite <- app_assoc. exact Hw.
Qed.

Lemma write_next_after (w : Shared S W) t rest :
  stopped_ t = false ->
  write_next (w, popped rest t) =
  match rest with
  | [] => if close_after_write_ t then close_now (w, next_write rest t) else (Ok tt, (w, next_write rest t))
  | _ :: _ => (Ok tt, (w, next_write rest t))
  end.
Proof.
  intros Hl. unfold write_next, bind, self, assign, on_stream, lift, front, queue_empty. cbn [snd].
  change (stopped_ (popped rest t)) with (stopped_ t). rewrite Hl.
  change (queue_ (outbound_queue_ (popped rest t))) with rest.
  destruct rest as [|b rest].
  - change (close_after_write_ (popped [] t)) with (close_after_write_ t).
    destruct (close_after_write_ t); reflexivity.
  - rewrite zlen_cons. pose proof (zlen_nonneg rest). rewrite (proj2 (Z.eqb_neq _ _)) by lia. reflexivity.
Qed.

Lemma handle_write_wp error w t :
  shared_ok w t -> resting true t -> is_Some (writing (stream_ t)) ->
  wp (handle_write error) (returns (fun _ => outcome_ok w t begun))
    (w, put_stream (write_completes (stream_ t)) t).
Proof.
  intros Hw (c & Hr & Hx) [b Hb]. pose proof (rn_closable _ _ _ Hr) as Hcl.
  assert (He0 : effect (w, t) (w, put_stream (write_completes (stream_ t)) t))
    by (apply effect_local; reflexivity).
  unfold handle_write. apply wp_self. cbn [stopped_ put_stream]. rewrite (cl_live _ Hcl). destruct error.
  { eapply returns_after; [exact He0|]. apply closes_wp; [exact (shared_closing _ _ Hw (cl_live _ Hcl))|].
    apply (closable_stream write_completes); [exact Hcl|apply Hcl|apply Hcl|reflexivity]. }
  pose proof (rn_writer _ _ _ Hr) as Hwr.
  destruct (write_in_progress_ t) eqn:Ewp; [|destruct Hwr as [Hn _]; congruence].
  destruct Hwr as (b' & rest & Hb' & Hq). assert (b' = b) as -> by congruence.
  apply wp_bind. unfold wp at 1. unfold on_queue at 1 2. cbn [outbound_queue_ put_stream].
  rewrite (pop_front_eq b rest _ (cl_queue _ Hcl) Hq). cbn [fst snd].
  change (put_queue _ _) with (popped rest t).
  pose proof (next_write_running [] t c b rest Hr Hb Hq Ewp) as Hr'.
  assert (He : effect (w, t) (w, next_write rest t)).
  { unfold next_write. destruct rest; apply effect_local; reflexivity. }
  assert (Hkeep : keeps t (next_write rest t)) by (unfold next_write, keeps; destruct rest; auto).
  destruct Hkeep as (Kc & Kr & Kl).
  assert (Hw' : shared_ok w (next_write rest t)).
  { unfold next_write. destruct rest; (eapply shared_ok_local; [exact Hw|reflexivity..]). }
  assert (Hdone : (close_after_write_ t = true -> rest <> []) ->
    returns (fun _ : unit => outcome_ok w t begun) (Ok tt) (w, next_write rest t)).
  { intros Hnc. exists tt. split; [reflexivity|]. split; [exact Hw'|]. split; [exact He|].
    right. left. exists c. split; [exact Hr'|]. cbn [snd]. rewrite Kc, Kr.
    destruct (close_after_write_ t);
      [|destruct Hx as (? & ? & ?); split_goal; auto; apply (routes_for_same c t); assumption]. destruct Hx as (_ & ? & ?). split_goal; auto.
    destruct rest; [destruct Hnc; reflexivity|reflexivity]. }
  unfold wp. rewrite (write_next_after w t rest (cl_live _ Hcl)).
  destruct rest as [|b2 rest]; [|apply Hdone; discriminate].
  destruct (close_after_write_ t); [|apply Hdone; discriminate].
  exact (returns_after close_now w t w _ begun He (closes_wp w _
    (shared_closing _ _ Hw' (cl_live _ (rn_closable _ _ _ Hr'))) (rn_closable _ _ _ Hr'))).
Qed.

Lemma stays w t t' :
  shared_ok w t' -> effect (w, t) (w, t') -> begun t' ->
  wp (ret tt) (returns (fun _ => outcome_ok w t begun)) (w, t').
Proof. intros Hw He Ht. exists tt. split; [reflexivity|]. split; [exact Hw|]. split; [exact He|exact Ht]. Qed.

(** Counting and closing, as the deadlines do. *)
Lemma count_close_wp k w t :
  shared_ok w t -> closable t -> k <> C_closed_sessions ->
  wp (let* _ := count k 1 in close_now) (returns (fun _ => outcome_ok w t begun)) (w, t).
Proof.
  intros Hw Ht Hk. apply wp_bind, count_wp; [exact Hw|exact Hk|]. intros w1 Hw1 He.
  eapply returns_after; [exact He|]. apply closes_wp; [apply shared_closing; [assumption|apply Ht]|assumption].
Qed.

Lemma downlink_open leases c packet now r leases' c' :
  open_session c -> downlink_rel leases c packet now r leases' c' ->
  (is_Some r -> open_session c' /\ sc_state c' = sc_state c) /\
  (r = None -> sc_state c' = Established \/ c' = c -> open_session c' /\ sc_state c' = sc_state c).
Proof.
  intros Ho Hr. unfold open_session in *. destruct Hr.
  - split; [intros [? [=]]|auto].
  - split; [intros [? [=]]|]. intros _ [Hx|Hx]; [discriminate|]. rewrite Hx. auto.
  - split; [|discriminate]. intros _. cbn. auto.
Qed.

Lemma downlink_rel_routes s c packet now r leases' c' t :
  routes_for c t -> downlink_rel (ls_leases s) c packet now r leases' c' ->
  open_session c' -> routes_for c' t.
Proof.
  intros Hf Hr Ho. destruct Hr as [|e t0 Hst He ? ?|e t0 k Hst He ? Hk]; [exact Hf|destruct Ho; discriminate|].
  apply (routes_for_renewed c); [|exact Hf]. rewrite He. cbn. f_equal. apply (renewed_keeps_address now s c); assumption.
Qed.

(** A frame made of a packet from the TUN device is queued and counted, or the
    session ends. *)
Lemma tun_frame_wp (counted : bool) (packet : bytes) frame w t w1 t1 c1 :
  shared_ok w1 t1 -> effect (w, t) (w1, t1) -> running [frame] t1 c1 -> close_after_write_ t1 = false ->
  reading (stream_ t1) = true -> open_session c1 -> routes_for c1 t1 ->
  wp (let* queued := enqueue_frame frame in
      if negb queued then
        let* _ := if counted then count C_queue_overflows 1 else ret tt in
        close_now
      else if counted then
        let* _ := count C_downlink_packets 1 in
        count C_downlink_bytes (zlen packet)
      else ret tt) (returns (fun _ => outcome_ok w t begun)) (w1, t1).
Proof.
  intros Hw1 He Hr1 Hca Hrd Ho1 Hl1. pose proof (rn_closable _ _ _ Hr1) as Hcl1. apply wp_bind. unfold wp at 1.
  destruct (queue_end w1 frame t1 [] c1 Hr1) as [->|[-> Hq]]; cbn [fst snd negb].
  - eapply returns_after; [exact He|].
    destruct counted; [|apply (closes_wp w1 t1); [apply shared_closing; [assumption|apply Hcl1]|assumption]].
    apply count_close_wp; [assumption..|discriminate].
  - pose proof (queued_running _ _ _ _ Hr1 Hq) as Hr2.
    pose proof (running_keeps _ _ _ _ Hr1) as (Kc2 & Kr2 & Kl2).
    pose proof (effect_trans _ _ _ He (queued_effect w1 frame t1)) as He2.
    assert (Hok : begun (queued frame t1)).
    { right. left. exists c1. split; [exact Hr2|]. rewrite Kc2, Kr2, Hca. split; [exact Hrd|].
      split; [exact Ho1|]. apply (routes_for_same c1 t1); assumption. }
    assert (Hend : forall w', shared_ok w' (queued frame t1) -> effect (w1, queued frame t1) (w', queued frame t1) ->
      returns (fun _ : unit => outcome_ok w t begun) (Ok tt) (w', queued frame t1)).
    { intros w' Hw' He'. exists tt. split; [reflexivity|]. split; [exact Hw'|].
      split; [eapply effect_trans; eassumption|exact Hok]. }
    pose proof (queued_shared w1 frame t1 Hw1) as Hw1q.
    destruct counted; [|apply Hend; [exact Hw1q|apply effect_refl]].
    apply wp_bind, count_wp; [exact Hw1q|discriminate|]. intros w2 Hw2 He3.
    apply count_wp; [exact Hw2|discriminate|]. intros w3 Hw3 He4.
    apply Hend; [exact Hw3|]. eapply effect_trans; eassumption.
Qed.

Lemma send_from_tun_wp counted packet now w t :
  shared_ok w t -> resting true t -> is_bytes packet ->
  wp (send_from_tun counted packet now) (returns (fun _ => outcome_ok w t begun)) (w, t).
Proof.
  intros Hw (c & Hr & Hx) Hb. pose proof (rn_closable _ _ _ Hr) as Hcl.
  unfold send_from_tun. apply wp_self. rewrite (cl_live _ Hcl), (rn_controller _ _ _ Hr).
  eapply wp_returns; [apply (on_downlink_wp packet now w t c Hw Hr Hb)|].
  intros r [w1 t1] (Hw1 & He & c1 & leases' & Et1 & Hr1 & Hrel). cbn [fst snd] in *.
  pose proof (rn_closable _ _ _ Hr1) as Hcl1.
  assert (Hsame : close_after_write_ t1 = close_after_write_ t /\ reading (stream_ t1) = reading (stream_ t) /\
    route_lease_ t1 = route_lease_ t /\ write_in_progress_ t1 = write_in_progress_ t) by (subst t1; auto).
  destruct Hsame as (Kc & Kr & Kl & Kw).
  destruct r as [frame|].
  - assert (Hop : close_after_write_ t = false /\ reading (stream_ t) = true /\ open_session c1 /\
      routes_for c1 t).
    { destruct (close_after_write_ t).
      - destruct Hx as (_ & _ & Hno). destruct Hno. inversion Hrel; subst. right. assumption.
      - destruct Hx as (Hrd & Ho & Hl). destruct (downlink_open _ _ _ _ _ _ _ Ho Hrel) as [Hs _].
        destruct Hs as [Ho1 Hst]; [eauto|]. split_goal; auto. eapply downlink_rel_routes; eassumption. }
    destruct Hop as (Hca & Hrd & Ho1 & Hl1). eapply tun_frame_wp; try eassumption;
      [rewrite Kc; assumption|rewrite Kr; assumption|apply (routes_for_same _ t); assumption].
  - apply wp_self. rewrite (rn_controller _ _ _ Hr1). case_bool_decide as Hst; cbn [negb].
    + eapply returns_after; [exact He|]. apply stays; [exact Hw1|apply effect_refl|].
      right. left. exists c1. split; [exact Hr1|]. rewrite Kc, Kr, Kw.
      destruct (close_after_write_ t).
      * destruct Hx as (_ & _ & Hno). destruct Hno. inversion Hrel; subst; cbn in *; [right; assumption|discriminate].
      * destruct Hx as (Hrd & Ho & Hl). destruct (downlink_open _ _ _ _ _ _ _ Ho Hrel) as [_ Hs].
        destruct Hs as [Ho1 Heq]; [reflexivity|auto|]. split_goal; auto.
        apply (routes_for_same _ t); [exact Kl|]. eapply downlink_rel_routes; eassumption.
    + eapply returns_after; [exact He|].
      apply closes_wp; [apply shared_closing; [assumption|apply Hcl1]|assumption].
Qed.

(** The session when its controller is made. *)
Lemma handshaken_resting c identity t :
  unshaken t -> handshaking (stream_ t) = false -> make_session identity = Ok c ->
  resting false (put_deadline (Some (IdleDeadline (idle_timeout_ t)))
    (put_deadline None (put_controller (Some c) t))).
Proof.
  intros [Hcl Hcon Hdec (Hr & Hw & Hwr) (Fw & Fc & Fl) Hq] Hsh Hm.
  pose proof (make_session_ok _ _ Hm) as Hc. destruct Hcl as [Hl Ho Hs Hqok _ Hsent Hhd].
  exists c. split; [constructor|]; cbn.
  - constructor; auto. intros ? [= <-]. exact Hc.
  - reflexivity.
  - rewrite Hdec. exact decoder_init_ready.
  - eauto.
  - exact Hsh.
  - rewrite Fw. auto.
  - constructor.
  - exists []. unfold unsent. cbn. rewrite Hwr, Fw, Hq. split_goal; auto; try reflexivity.
    unfold make_session in Hm. case_bool_decide; [discriminate|]. apply ok_inj in Hm as <-. reflexivity.
  - rewrite Fc. split; [exact Hr|]. unfold make_session in Hm. case_bool_decide; [discriminate|].
    apply ok_inj in Hm as <-. split; [left; reflexivity|]. unfold routes_for. cbn. rewrite Fl. exact I.
Qed.

Lemma unshaken_completes t :
  unshaken t -> unshaken (put_stream (handshake_completes (stream_ t)) t).
Proof.
  intros [Hcl Hcon Hdec Hstr Hfl Hq]. constructor; auto.
  apply (closable_stream handshake_completes); [exact Hcl|apply Hcl|apply Hcl|reflexivity].
Qed.

Lemma handle_handshake_wp error identity w t :
  shared_ok w t -> unshaken t -> handshaking (stream_ t) = false ->
  wp (handle_handshake error identity) (returns (fun _ => outcome_ok w t begun)) (w, t).
Proof.
  intros Hw Ht Hsh. pose proof (sg_closable _ Ht) as Hcl.
  unfold handle_handshake. apply wp_self. rewrite (cl_live _ Hcl). destruct error.
  { apply count_close_wp; [assumption..|discriminate]. }
  apply wp_try, wp_bind, wp_lift. destruct identity as [id|e]; [|apply closes_wp; [apply shared_closing; [assumption|apply Hcl]|assumption]].
  apply wp_bind, wp_lift. destruct (make_session id) as [c|e] eqn:Em; [|apply closes_wp; [apply shared_closing; [assumption|apply Hcl]|assumption]].
  apply wp_assign, wp_assign. unfold arm_idle_timeout. apply wp_assign.
  pose proof (handshaken_resting c id t Ht Hsh Em) as Hrest.
  eapply wp_mono; [apply read_next_wp; [exact Hw|exact Hrest|exact (proj1 (proj2 (sg_flags _ Ht)))]|].
  intros r st' (a & -> & Hw' & [Hp Hm Hs Hk _ H6 Hd] & Hok). exists a. split; [reflexivity|].
  split; [exact Hw'|]. split; [|exact Hok]. constructor; auto.
  - intros e (c0 & Hc0 & _). cbn in Hc0. rewrite (sg_controller _ Ht) in Hc0. discriminate.
  - intros [_ Hl]. apply Hd. split; [|exact Hl]. cbn. intros ? k [= <-] Hk'.
    unfold make_session in Em. case_bool_decide; [discriminate|]. apply ok_inj in Em as <-. discriminate.
Qed.

Lemma start_wp w t :
  shared_ok w t -> unshaken t -> handshaking (stream_ t) = false ->
  wp start_on_strand (returns (fun _ => outcome_ok w t begun)) (w, t).
Proof.
  intros Hw Ht Hsh. pose proof (sg_closable _ Ht) as Hcl. unfold start_on_strand. apply wp_self.
  rewrite (cl_live _ Hcl), (sg_controller _ Ht). exists tt. split; [reflexivity|].
  split; [exact Hw|]. split; [apply effect_local; reflexivity|]. left.
  destruct Ht as [_ Hcon Hdec Hstr Hfl Hq]. split; [constructor; auto|cbn; eauto].
  destruct Hcl as [Hl Ho Hs Hqok Hc Hsent Hhd]. constructor; auto. cbn. rewrite Hs, Hsh, Ho. reflexivity.
Qed.

(** A closed session ignores every event. *)
Lemma over_event e (w : Shared S W) t :
  stopped_ t = true ->
  exists f, run_event e (w, t) = (Ok tt, (w, put_stream (f (stream_ t)) t)) /\
    (forall s, closed (f s) = closed s /\ misused (f s) = misused s /\ written (f s) = written s).
Proof.
  intros Hs.
  assert (Hsame : put_stream (stream_ t) t = t) by (destruct t; reflexivity).
  assert (Hid : forall r, r = (Ok tt, (w, t)) -> exists f : Stream -> Stream,
    r = (Ok tt, (w, put_stream (f (stream_ t)) t)) /\
    (forall s, closed (f s) = closed s /\ misused (f s) = misused s /\ written (f s) = written s)).
  { intros r ->. exists (fun s => s). rewrite Hsame. auto. }
  assert (Hcn := close_now_stopped w t Hs).
  destruct e; cbn [run_event].
  - apply Hid. unfold start_on_strand, bind, self, ret. cbn. rewrite Hs. reflexivity.
  - exists handshake_completes. split; [|auto]. unfold handle_handshake, bind, on_stream, assign, self, ret. cbn. rewrite Hs. reflexivity.
  - apply Hid. unfold on_handshake_deadline, bind, self, ret. cbn. rewrite Hs. destruct (controller_ t), error; reflexivity.
  - apply Hid. unfold on_idle_deadline, bind, self, ret. cbn. rewrite Hs. destruct error; reflexivity.
  - exists read_completes. split; [|auto]. unfold handle_read, bind, on_stream, assign, self, ret. cbn. rewrite Hs. reflexivity.
  - exists write_completes. split; [|auto]. unfold handle_write, bind, on_stream, assign, self, ret. cbn. rewrite Hs. reflexivity.
  - apply Hid. unfold send_ipv4_from_tun, send_from_tun, bind, self, ret. cbn. rewrite Hs. reflexivity.
  - apply Hid. unfold send_ipv6_from_tun, send_from_tun, bind, self, ret. cbn. rewrite Hs. reflexivity.
  - apply Hid. exact Hcn.
Qed.

(** The events of a session without a controller. *)
Lemma unshaken_event e w t (P : TlsTunnelSession -> Prop) :
  shared_ok w t -> unshaken t -> possible e t -> (forall t', begun t' -> P t') ->
  (e <> EvStart -> P t) ->
  wp (run_event e) (returns (fun _ => outcome_ok w t P)) (w, t).
Proof.
  intros Hw Ht Hp Hb Hstays. pose proof (sg_closable _ Ht) as Hcl. pose proof (cl_live _ Hcl) as Hl.
  pose proof (sg_controller _ Ht) as Hcon. pose proof (sg_stream _ Ht) as (Hrd & Hwr & _).
  assert (Hstay : e <> EvStart -> wp (ret tt) (returns (fun _ : unit => outcome_ok w t P)) (w, t))
    by (intros Hne; exists tt; split; [reflexivity|]; split; [exact Hw|]; split; [apply effect_refl|auto]).
  assert (Hgo : forall m : M St unit, wp m (returns (fun _ => outcome_ok w t begun)) (w, t) ->
    wp m (returns (fun _ => outcome_ok w t P)) (w, t)).
  { intros m Hm. eapply wp_mono; [exact Hm|]. intros r st' (a & -> & H1 & H2 & H3).
    exists a. split; [reflexivity|]. split; [assumption|]. split; [assumption|]. apply Hb, H3. }
  destruct e; cbn [run_event possible] in *.
  - apply Hgo, start_wp; assumption.
  - apply Hgo, wp_on_stream. eapply returns_after; [apply effect_local; reflexivity|].
    apply handle_handshake_wp; [exact Hw|apply unshaken_completes; exact Ht|reflexivity].
  - unfold on_handshake_deadline. apply wp_self. rewrite Hcon, Hl. destruct error; [apply Hstay; discriminate|].
    apply Hgo, count_close_wp; [assumption..|discriminate].
  - unfold on_idle_deadline. apply wp_self. rewrite Hl. destruct error; [apply Hstay; discriminate|].
    apply Hgo, count_close_wp; [assumption..|discriminate].
  - destruct Hp. congruence.
  - rewrite Hwr in Hp. destruct Hp as [? [=]].
  - unfold send_ipv4_from_tun, send_from_tun. apply wp_self. rewrite Hl, Hcon. apply Hstay. discriminate.
  - unfold send_ipv6_from_tun, send_from_tun. apply wp_self. rewrite Hl, Hcon. apply Hstay. discriminate.
  - apply Hgo, closes_wp; [apply shared_closing; assumption|assumption].
Qed.

Lemma resting_event e w t :
  shared_ok w t -> resting true t -> possible e t ->
  wp (run_event e) (returns (fun _ => outcome_ok w t begun)) (w, t).
Proof.
  intros Hw Ht Hp. pose proof Ht as (c & Hr & Hx). pose proof (rn_closable _ _ _ Hr) as Hcl.
  pose proof (cl_live _ Hcl) as Hl. pose proof (rn_controller _ _ _ Hr) as Hcon.
  assert (Hstay : wp (ret tt) (returns (fun _ : unit => outcome_ok w t begun)) (w, t))
    by (apply stays; [exact Hw|apply effect_refl|right; left; exact Ht]).
  destruct e; cbn [run_event possible] in *.
  - unfold start_on_strand. apply wp_self. rewrite Hl, Hcon. exact Hstay.
  - rewrite (rn_shaken _ _ _ Hr) in Hp. discriminate.
  - unfold on_handshake_deadline. apply wp_self. rewrite Hcon. exact Hstay.
  - unfold on_idle_deadline. apply wp_self. rewrite Hl. destruct error; [exact Hstay|].
    apply count_close_wp; [assumption..|discriminate].
  - destruct Hp as [Hrd Hb]. destruct (resting_read t Ht Hrd) as [Ht' Hca]. apply wp_on_stream.
    eapply returns_after; [apply effect_local; reflexivity|]. apply handle_read_wp; assumption.
  - apply wp_on_stream, handle_write_wp; assumption.
  - apply send_from_tun_wp; assumption.
  - apply send_from_tun_wp; assumption.
  - apply closes_wp; [apply shared_closing; assumption|assumption].
Qed.

Lemma begun_event e w t :
  shared_ok w t -> begun t -> possible e t ->
  wp (run_event e) (returns (fun _ => outcome_ok w t begun)) (w, t).
Proof.
  intros Hw [Ht|[Ht|Ht]] Hp; [|apply resting_event; assumption|].
  - apply unshaken_event; auto; [apply Ht|]. intros _. left. exact Ht.
  - destruct (over_event e w t (ov_stopped _ Ht)) as (f & E & Hf).
    destruct (Hf (stream_ t)) as (F1 & F2 & F3). unfold wp. rewrite E. exists tt. split; [reflexivity|].
    split; [exact Hw|]. split; [apply effect_local; reflexivity|]. right. right.
    apply over_stream; [exact Ht| |exact F2|exact F3]. rewrite F1. apply (ov_closed _ Ht).
Qed.

(** An event leaves a session that was started, or it is ignored by one that
    was not. *)
Lemma event_begins e w t :
  shared_ok w t -> tls_ok t -> possible e t ->
  wp (run_event e) (returns (fun _ => outcome_ok w t (fun t' =>
    begun t' \/ unstarted t /\ t' = t /\ e <> EvStart))) (w, t).
Proof.
  intros Hw [Ht|Ht] Hp.
  - apply unshaken_event; auto. apply Ht.
  - eapply wp_mono; [apply begun_event; eassumption|]. intros r st' (a & -> & H1 & H2 & H3).
    exists a. split; [reflexivity|]. split; [assumption|]. split; [assumption|]. left. exact H3.
Qed.

Lemma event_wp e w t :
  shared_ok w t -> tls_ok t -> possible e t ->
  wp (run_event e) (returns (fun _ => outcome_ok w t tls_ok)) (w, t).
Proof.
  intros Hw Ht Hp. eapply wp_mono; [apply event_begins; eassumption|]. intros r st' (a & -> & H1 & H2 & H3).
  exists a. split; [reflexivity|]. split; [assumption|]. split; [assumption|].
  destruct H3 as [H3|(H3 & -> & _)]; [right|left]; exact H3.
Qed.

(** ** Runs *)

(** A session after any history, with the handlers that the server always
    sets; between its events the shared state moves on by itself, since other
    sessions use it too. *)
Inductive tls_reachable : Shared S W -> TlsTunnelSession -> Prop :=
| tr_make peer m k mf mb ht it w t :
    in_u64 mf -> in_u64 mb -> make_tls peer m k true true mf mb ht it = Ok t -> shared_ok w t ->
    tls_reachable w t
| tr_event ev w t r w' t' :
    tls_reachable w t -> possible ev t -> run_event ev (w, t) = (r, (w', t')) -> tls_reachable w' t'
| tr_others w w' t : tls_reachable w t -> shared_ok w' t -> tls_reachable w' t.

Lemma make_tls_ok peer m k mf mb ht it t :
  in_u64 mf -> in_u64 mb -> make_tls peer m k true true mf mb ht it = Ok t -> tls_ok t.
Proof.
  intros Hf Hb H. unfold make_tls in H. apply obind_ok in H as (q & Hq & H).
  apply reject_then in H as [_ H]. apply ok_inj in H as <-. left.
  unfold make_queue in Hq. destruct (_ || _)%bool eqn:E in Hq; [discriminate|]. apply ok_inj in Hq as <-.
  b2p. split; [|split; reflexivity]. constructor; cbn; auto.
  constructor; cbn; auto; [|discriminate|].
  - constructor; cbn; auto; unfold kHeaderSize in *; change (zlen (@nil bytes)) with 0; int_lia.
  - exists []. split_goal; auto; constructor.
Qed.

Lemma tls_reachable_ok w t : tls_reachable w t -> shared_ok w t /\ tls_ok t.
Proof.
  induction 1 as [peer m k mf mb ht it w t Hf Hb Hm Hw|ev w t r w' t' _ [Hw Ht] Hp E|w w' t _ [_ Ht] Hw].
  - eauto using make_tls_ok.
  - apply (wp_result _ _ _ _ _ (event_wp ev w t Hw Ht Hp)) in E as (a & _ & Hw' & _ & Ht'). auto.
  - auto.
Qed.

(** ** Properties *)

(** C15: every handler of a session returns, whatever the client sends and
    whatever fails, and keeps the rules of asynchronous input and output: it
    never starts an operation while one of its kind is in flight or on a
    closed stream, and the buffer in flight is the front of the queue, so it
    stays alive.  A session that is not closed can always go on: a deadline is
    armed, and it is waiting for the client, or, when it is to close, for the
    last frames to leave; before there is a controller the TLS handshake is in
    flight, unless the session has not been started yet, and then every event
    but the start leaves it as it is. *)
Theorem session_handlers_safe e w t :
  tls_reachable w t -> possible e t ->
  exists w' t', run_event e (w, t) = (Ok tt, (w', t')) /\ misused (stream_ t') = false /\
    (stopped_ t' = false ->
     match controller_ t' with
     | None =>
         (handshaking (stream_ t') = true /\ is_Some (deadline_ t')) \/
         (t' = t /\ e <> EvStart /\ stream_ t = fresh_stream /\ deadline_ t = None)
     | Some c => is_Some (deadline_ t') /\ writing (stream_ t') = head (queue_ (outbound_queue_ t')) /\
         if close_after_write_ t' then is_Some (writing (stream_ t'))
         else reading (stream_ t') = true /\ open_session c
     end).
Proof.
  intros [Hw Ht]%tls_reachable_ok Hp.
  pose proof (event_begins e w t Hw Ht Hp) as H. destruct (run_event e (w, t)) as [r [w' t']] eqn:E.
  unfold wp in H. rewrite E in H. destruct H as ([] & Er & _ & _ & Ht'). cbn [fst snd] in *. subst r.
  exists w', t'. split; [reflexivity|].
  destruct Ht' as [[(Hs & Hh & Hd)|[(c & Hr & Hx)|Ho]]|((Hs & Hf & Hd) & -> & Hne)].
  - pose proof (sg_closable _ Hs) as Hcl. split; [apply Hcl|]. rewrite (sg_controller _ Hs). auto.
  - split; [apply (rn_closable _ _ _ Hr)|]. intros _. rewrite (rn_controller _ _ _ Hr).
    split; [apply (rn_deadline _ _ _ Hr)|]. pose proof (rn_writer _ _ _ Hr) as Hwr.
    destruct (write_in_progress_ t') eqn:Ewp.
    + destruct Hwr as (b & rest & Hb & Hq). rewrite Hb, Hq. split; [reflexivity|].
      destruct (close_after_write_ t'); [eauto|tauto].
    + destruct Hwr as [Hb Hq]. rewrite Hb, Hq. split; [reflexivity|].
      destruct (close_after_write_ t'); [destruct Hx; discriminate|tauto].
  - split; [apply (ov_safe _ Ho)|]. rewrite (ov_stopped _ Ho). discriminate.
  - pose proof (sg_closable _ Hs) as Hcl. split; [apply Hcl|]. rewrite (sg_controller _ Hs). auto 6.
Qed.

(** C16: what a session has handed to the TLS stream, at any time, under any
    interleaving of client frames, TUN packets, failures and timeouts, is a
    sequence of whole frames numbered 1, 2, 3, ...: a decoder fed with these
    bytes in any chunks delivers exactly those frames and has nothing left
    over. *)
Theorem session_wire_exact w t chunks :
  tls_reachable w t -> concat chunks = concat (written (stream_ t)) ->
  exists fs d, consecutive 1 fs /\ feed chunks decoder_init = (fs, None, d) /\ buffered_bytes d = 0.
Proof.
  intros [_ Ht]%tls_reachable_ok Hc.
  assert (Hs : sent_ok t) by (destruct Ht as [[H _]|[[H _]|[(c & H & _)|H]]]; apply H).
  destruct Hs as (fs & Hv & Hw & Hn). rewrite Hw in Hc.
  destruct (feed_wires chunks fs Hv Hc) as (d & Hd & Hbuf & _). eauto.
Qed.

(** C17: a session closes once and completely.  The event that closes it gives
    its lease back to the manager, drops what is queued, cancels the deadline,
    closes the stream, uses up the close handler and adds one to
    [closed_sessions]; no other event touches that counter.  A closed session
    changes nothing any more: the leases, the server and the counters stay as
    they are on every later event, and nothing more is written. *)
Theorem session_shutdown e w t r w' t' :
  tls_reachable w t -> possible e t -> run_event e (w, t) = (r, (w', t')) ->
  (stopped_ t = true ->
     w' = w /\ stopped_ t' = true /\ controller_ t' = controller_ t /\
     written (stream_ t') = written (stream_ t)) /\
  (stopped_ t = false -> stopped_ t' = true ->
     closed (stream_ t') = true /\ queue_ (outbound_queue_ t') = [] /\ deadline_ t' = None /\
     has_close t' = false /\
     (forall c, controller_ t' = Some c -> sc_state c = Closed /\ sc_lease c = None) /\
     (forall c l, controller_ t = Some c -> sc_lease c = Some l ->
        matches l (ls_leases (sh_leases w')) = None)) /\
  closed_sessions (sh_metrics w') =
    if negb (stopped_ t) && stopped_ t' && has_metrics t
    then u64 (closed_sessions (sh_metrics w) + 1) else closed_sessions (sh_metrics w).
Proof.
  intros [Hw Ht]%tls_reachable_ok Hp E.
  pose proof (wp_result _ _ _ _ _ (event_wp e w t Hw Ht Hp) E) as (a & _ & _ & [_ _ _ Hk Hcl _ _] & Ht').
  cbn [fst snd] in *. split; [|split; [|exact Hk]].
  - intros Hs. destruct (over_event e w t Hs) as (f & Ef & Hf). rewrite Ef in E.
    injection E as _ <- <-. cbn. destruct (Hf (stream_ t)) as (_ & _ & ->). auto.
  - intros Hs Hs'. destruct Ht' as [[Hx _]|[[Hx _]|[(c & Hx & _)|Ho]]];
      [rewrite (cl_live _ (sg_closable _ Hx)) in Hs'; discriminate..
      |rewrite (cl_live _ (rn_closable _ _ _ Hx)) in Hs'; discriminate|].
    destruct Ho as [_ Hc Hsafe Hq Hd Hh Hses _]. split_goal; auto.
    intros c l Hc0 Hl.
    assert (Hest : sc_state c = Established).
    { destruct Ht as [[Hx _]|[[Hx _]|[(c1 & Hx & _)|Hx]]].
      1, 2: rewrite (sg_controller _ Hx) in Hc0; discriminate.
      - apply (so_lease _ (cl_session _ (rn_closable _ _ _ Hx) c Hc0)). eauto.
      - rewrite (ov_stopped _ Hx) in Hs. discriminate. }
    destruct (Hcl l) as (c' & Hc' & _ & Hm).
    { exists c. split; [exact Hc0|]. split; [congruence|]. rewrite Hl. auto. }
    destruct (Hses c' Hc') as [_ Hn]. rewrite Hn in Hm. exact Hm.
Qed.
End Laws.

(** ** Witnesses: a session of the lease manager under a server that records *)

Record Recorder := mkRecorder { rc_packets : list bytes; rc_routes : list Peer }.

#[export] Instance recorder_host : SessionHost Recorder := {
  packet_sink p := fun h => (Ok tt, mkRecorder (rc_packets h ++ [p]) (rc_routes h));
  established_handler _ peer := fun h => (Ok true, mkRecorder (rc_packets h) (peer :: rc_routes h));
  close_handler _ peer := fun h =>
    (Ok tt, mkRecorder (rc_packets h) (filter (fun q => q <> peer) (rc_routes h)))
}.
#[export] Instance recorder_laws : SessionHostLaws Recorder.
Proof.
  refine {| host_open _ _ _ := True; host_closing _ _ _ := True; host_gone _ _ := True |}; auto.
  intros p l w _. eauto.
Defined.

Definition sample_tls : TlsTunnelSession :=
  mkTls 1 true true true 10000 300000 true None decoder_init (mkQueue 256 1048576 0 [])
    None fresh_stream None false false false false.
Definition sample_shared : Shared LeaseManager Recorder :=
  mkShared sample_pool (mkRecorder [] []) empty_metrics.

Fixpoint run_all (es : list session_event) (st : Shared LeaseManager Recorder * TlsTunnelSession) :=
  match es with
  | [] => st
  | e :: es => run_all es (run_event e st).2
  end.
Fixpoint all_possible (es : list session_event) (st : Shared LeaseManager Recorder * TlsTunnelSession) : Prop :=
  match es with
  | [] => True
  | e :: es => possible e st.2 /\ all_possible es (run_event e st).2
  end.

Lemma run_all_reachable es st :
  tls_reachable st.1 st.2 -> all_possible es st -> tls_reachable (run_all es st).1 (run_all es st).2.
Proof.
  revert st. induction es as [|e es IH]; intros st Hr Hp; [exact Hr|]. destruct Hp as [Hp Hps].
  apply IH; [|exact Hps]. destruct st as [w t]. cbn [fst snd] in *.
  destruct (run_event e (w, t)) as [r [w' t']] eqn:E. exact (tr_event e w t r w' t' Hr Hp E).
Qed.

Lemma sample_tls_reachable : tls_reachable sample_shared sample_tls.
Proof.
  apply (tr_make 1 true true 256 1048576 10000 300000); [int_lia|int_lia|reflexivity|].
  split; [exact sample_pool_inv|exact I].
Qed.

(** The client connects, is assigned an address and sends a packet. *)
Definition connected : list session_event :=
  [EvStart; EvHandshake false (Ok "alice");
   EvRead false (wire hello_frame ++ wire data_frame) (fun _ => 0)].

Lemma connected_possible : all_possible connected (sample_shared, sample_tls).
Proof.
  split; [reflexivity|]. split; [reflexivity|]. split; [|exact I].
  split; [vm_compute; reflexivity|]. decide_prop.
Qed.

Definition after_connect := run_all connected (sample_shared, sample_tls).

Lemma after_connect_reachable : tls_reachable after_connect.1 after_connect.2.
Proof. apply run_all_reachable; [exact sample_tls_reachable|exact connected_possible]. Qed.

(** The packet went to the TUN device and the assignment is on its way. *)
Example connected_state :
  rc_packets (sh_host after_connect.1) = [sample_packet] /\
  rc_routes (sh_host after_connect.1) = [1] /\
  established_sessions (sh_metrics after_connect.1) = 1 /\
  length (written (stream_ after_connect.2)) = 1%nat.
Proof. vm_compute. auto. Qed.

Lemma session_handlers_safe_witness :
  possible (EvWrite false) after_connect.2 /\
  exists w' t', run_event (EvWrite false) (after_connect.1, after_connect.2) = (Ok tt, (w', t')) /\
    misused (stream_ t') = false.
Proof.
  assert (Hp : possible (EvWrite false) after_connect.2) by (vm_compute; eauto).
  split; [exact Hp|].
  destruct (session_handlers_safe (EvWrite false) _ _ after_connect_reachable Hp)
    as (w' & t' & E & Hm & _).
  exists w', t'. split; [exact E|exact Hm].
Defined.

Lemma session_wire_exact_witness :
  exists fs d, consecutive 1 fs /\
    feed (written (stream_ after_connect.2)) decoder_init = (fs, None, d) /\ buffered_bytes d = 0.
Proof.
  exact (session_wire_exact after_connect.1 after_connect.2 _ after_connect_reachable eq_refl).
Defined.

Lemma session_shutdown_witness :
  stopped_ after_connect.2 = false /\
  closed_sessions (sh_metrics (run_event (EvIdleDeadline false) after_connect).2.1) = 1.
Proof.
  split; [vm_compute; reflexivity|].
  destruct (run_event (EvIdleDeadline false) (after_connect.1, after_connect.2)) as [r [w' t']] eqn:E.
  pose proof (session_shutdown (EvIdleDeadline false) _ _ r w' t' after_connect_reachable I E)
    as (_ & _ & Hk).
  rewrite <- surjective_pairing in E. rewrite E. cbn [fst snd]. rewrite Hk.
  assert (stopped_ t' = true) as ->.
  { change t' with (r, (w', t')).2.2. rewrite <- E. vm_compute. reflexivity. }
  vm_compute. reflexivity.
Defined.
