(* ===== verification/SessionFrame.v ===== *)
(** * What an event of a session leaves alone

    A session of the server (TunnelSession.v) reaches the server through its
    three handlers only.  Whatever these keep of the server, every event of
    the session keeps ([run_event_frame]); the session stays the one it is, it
    starts the TLS handshake in its start only, and does not count connections. *)
From S2P Require Import Prelude Bytes Protocol LeaseManager LeaseService Traffic.
From S2P Require Import SessionController TunnelRouter OutboundQueue ServerMetrics AsyncIo TunnelSession.

Section Frame.
Context {S W : Type} {LS : LeaseService S} {SH : SessionHost W}.
Abbreviation St := (Shared S W * TlsTunnelSession)%type.

(** The session, and a property of the server that its handlers keep. *)
Context (q : Peer) (I : W -> Prop).
Context (Isink : forall p h, I h -> I (packet_sink p h).2).
Context (Iestablished : forall l h, I h -> I (established_handler l q h).2).
Context (Iclose : forall l h, I h -> I (close_handler l q h).2).
#[local] Set Default Proof Using "All".

Definition calm (st st' : St) : Prop :=
  ts_peer st'.2 = q /\
  (handshaking (stream_ st.2) = false -> handshaking (stream_ st'.2) = false) /\
  (I (sh_host st.1) -> I (sh_host st'.1)) /\
  accepted_connections (sh_metrics st'.1) = accepted_connections (sh_metrics st.1).
Definition calmly {A} (m : M St A) : Prop :=
  forall st, ts_peer st.2 = q -> calm st (m st).2.

Lemma calm_refl st : ts_peer st.2 = q -> calm st st.
Proof. unfold calm. auto. Qed.
Lemma calm_trans st1 st2 st3 : calm st1 st2 -> calm st2 st3 -> calm st1 st3.
Proof. intros (P1 & H1 & I1 & A1) (P2 & H2 & I2 & A2). unfold calm. split_goal; auto. congruence. Qed.

Lemma calmly_ret {A} (a : A) : calmly (ret a).
Proof. intros st. apply calm_refl. Qed.
Lemma calmly_lift {A} (o : outcome A) : calmly (lift o).
Proof. intros st. apply calm_refl. Qed.
Lemma calmly_bind {A B} (m : M St A) (k : A -> M St B) :
  calmly m -> (forall a, calmly (k a)) -> calmly (bind m k).
Proof.
  intros Hm Hk st Hst. unfold bind. pose proof (Hm st Hst) as H. destruct (m st) as [[a|e] st1]; [|exact H].
  eapply calm_trans; [exact H|]. apply Hk, H.
Qed.
(** A handler reads the fields of its own session. *)
Lemma calmly_self {A} (k : TlsTunnelSession -> M St A) :
  (forall t, ts_peer t = q -> calmly (k t)) -> calmly (bind self k).
Proof. intros Hk st Hst. exact (Hk st.2 Hst st Hst). Qed.
Lemma calmly_try {A} (m : M St A) (f : exn -> M St A) :
  calmly m -> (forall e, calmly (f e)) -> calmly (try_catch m (fun e => Some (f e))).
Proof.
  intros Hm Hf st Hst. unfold try_catch. pose proof (Hm st Hst) as H.
  destruct (m st) as [[a|e] st1]; [exact H|]. eapply calm_trans; [exact H|]. apply Hf, H.
Qed.
Lemma calmly_assign f :
  (forall t, ts_peer (f t) = ts_peer t /\ handshaking (stream_ (f t)) = handshaking (stream_ t)) ->
  calmly (assign f).
Proof. intros Hf [w t] Ht. destruct (Hf t) as [H1 H2]. unfold calm. cbn in *. rewrite H1, H2. auto. Qed.
Lemma calmly_on_stream f :
  (forall s, handshaking s = false -> handshaking (f s) = false) -> calmly (on_stream f).
Proof. intros Hf [w t] Ht. unfold calm. cbn. auto. Qed.
Lemma calmly_on_queue {A} (m : M OutboundFrameQueue A) : calmly (on_queue m).
Proof. intros [w t] Ht. unfold calm, on_queue. destruct (m (outbound_queue_ t)). cbn. auto. Qed.
Lemma calmly_on_decoder {A} (m : M FrameDecoder A) : calmly (on_decoder m).
Proof. intros [w t] Ht. unfold calm, on_decoder. destruct (m (decoder_ t)). cbn. auto. Qed.
Lemma calmly_on_controller {A} (m : M (S * SessionController) A) : calmly (on_controller m).
Proof.
  intros [w t] Ht. unfold on_controller. destruct (controller_ t); [|apply calm_refl; exact Ht].
  destruct (m _) as [? [? ?]]. unfold calm. cbn. auto.
Qed.
Lemma calmly_count k n : k <> C_accepted_connections -> calmly (count k n).
Proof.
  intros Hk [w t] Ht. unfold calm. destruct k; [contradiction|..]; cbn; destruct (has_metrics t); auto.
Qed.
Lemma calmly_on_host {A} (m : M W A) : (forall h, I h -> I (m h).2) -> calmly (on_host m).
Proof.
  intros Hm [w t] Ht. unfold calm, on_host. pose proof (Hm (sh_host w)) as H.
  destruct (m (sh_host w)). cbn in *. auto.
Qed.
Lemma calmly_sink p : calmly (on_host (packet_sink p)).
Proof. apply calmly_on_host. auto. Qed.
Lemma calmly_established l p : p = q -> calmly (on_host (established_handler l p)).
Proof. intros ->. apply calmly_on_host. auto. Qed.
Lemma calmly_close l p : p = q -> calmly (on_host (close_handler l p)).
Proof. intros ->. apply calmly_on_host. auto. Qed.

Ltac calm_step :=
  match goal with
  | |- calmly (bind self _) => apply calmly_self; intros ? ?
  | |- calmly (bind _ _) => apply calmly_bind; [|intros ?]
  | |- calmly (try_catch _ _) => apply calmly_try; [|intros ?]
  | |- calmly (if ?b then _ else _) => destruct b
  | |- calmly (match ?x with _ => _ end) => destruct x
  | |- calmly (ret _) => apply calmly_ret
  | |- calmly (lift _) => apply calmly_lift
  | |- calmly (assign _) => apply calmly_assign; intros ?; split; reflexivity
  | |- calmly (on_stream _) => apply calmly_on_stream; intros ?; cbn; tauto
  | |- calmly (on_queue _) => apply calmly_on_queue
  | |- calmly (on_decoder _) => apply calmly_on_decoder
  | |- calmly (on_controller _) => apply calmly_on_controller
  | |- calmly (count _ _) => apply calmly_count; discriminate
  | |- calmly (on_host (packet_sink _)) => apply calmly_sink
  | |- calmly (on_host (established_handler _ _)) => apply calmly_established
  | |- calmly (on_host (close_handler _ _)) => apply calmly_close
  end; auto.
Ltac calm := repeat calm_step.

Lemma calmly_close_now : calmly close_now.
Proof. unfold close_now. calm. Qed.
Lemma calmly_write_next : calmly write_next.
Proof. pose proof calmly_close_now. unfold write_next. calm. Qed.
Lemma calmly_enqueue_frame f : calmly (enqueue_frame f).
Proof. pose proof calmly_write_next. unfold enqueue_frame. calm. Qed.
Lemma calmly_forward_packets ps : calmly (forward_packets ps).
Proof. induction ps; cbn [forward_packets]; calm. Qed.
Lemma calmly_enqueue_frames fs : calmly (enqueue_frames fs).
Proof.
  pose proof calmly_close_now. pose proof calmly_enqueue_frame.
  induction fs; cbn [enqueue_frames]; calm.
Qed.
Lemma calmly_apply_result r : calmly (apply_result r).
Proof.
  pose proof calmly_close_now. pose proof calmly_forward_packets. pose proof calmly_enqueue_frames.
  unfold apply_result. calm.
Qed.
Lemma calmly_read_next : calmly read_next.
Proof. unfold read_next. calm. Qed.
Lemma calmly_route_established : calmly route_established.
Proof. pose proof calmly_close_now. unfold route_established, accept_session. calm. Qed.
Lemma calmly_handle_frames fs clock i : calmly (handle_frames fs clock i).
Proof.
  pose proof calmly_route_established. pose proof calmly_apply_result.
  revert i. induction fs; intros i; cbn [handle_frames]; unfold arm_idle_timeout; calm.
Qed.
Lemma calmly_handle_read error data clock : calmly (handle_read error data clock).
Proof.
  pose proof calmly_close_now. pose proof calmly_handle_frames. pose proof calmly_read_next.
  unfold handle_read. calm.
Qed.
Lemma calmly_handle_handshake error identity : calmly (handle_handshake error identity).
Proof.
  pose proof calmly_close_now. pose proof calmly_read_next.
  unfold handle_handshake, arm_idle_timeout. calm.
Qed.
Lemma calmly_send_from_tun b p now : calmly (send_from_tun b p now).
Proof. pose proof calmly_close_now. pose proof calmly_enqueue_frame. unfold send_from_tun. calm. Qed.

Lemma run_event_calm e : e <> EvStart -> calmly (run_event e).
Proof.
  pose proof calmly_close_now. pose proof calmly_handle_handshake. pose proof calmly_handle_read.
  pose proof calmly_write_next. pose proof calmly_send_from_tun.
  intros He. destruct e; cbn [run_event]; [contradiction|..];
    unfold on_handshake_deadline, on_idle_deadline, handle_write, send_ipv4_from_tun, send_ipv6_from_tun, stop;
    calm; auto.
Qed.

Lemma run_event_frame e w t r w' t' :
  ts_peer t = q -> run_event e (w, t) = (r, (w', t')) ->
  ts_peer t' = q /\ (I (sh_host w) -> I (sh_host w')) /\
  accepted_connections (sh_metrics w') = accepted_connections (sh_metrics w) /\
  (e <> EvStart -> handshaking (stream_ t) = false -> handshaking (stream_ t') = false).
Proof.
  intros Ht E. assert (e = EvStart \/ e <> EvStart) as [->|He] by (destruct e; auto; right; discriminate).
  - cbn [run_event] in E. unfold start_on_strand, bind, self in E. cbn [snd] in E.
    destruct (stopped_ t), (controller_ t); injection E as <- <- <-; auto; split_goal; auto; contradiction.
  - pose proof (run_event_calm e He (w, t) Ht) as H. rewrite E in H. destruct H as (H1 & H2 & H3 & H4). auto.
Qed.
End Frame.
