(* ===== verification/TunnelServer.v ===== *)
(** * The server and its sessions

    Models src/server/tls_tunnel_server.cpp and its header: the acceptor, the
    set of sessions, the router and the TUN device, as the handlers that the
    server's strand runs, and the three handlers the server gives to each
    session ([SessionHost]); the server is shown to be a host as the sessions
    rely on ([server_laws]).  The server object outlives its sessions
    (src/server/main.cpp holds it until the event loop ends), so locking a weak
    pointer to it succeeds.  ServerSystem.v runs the server with its sessions. *)
From S2P Require Import Prelude Bytes Protocol ControlMessages Traffic LeaseManager LeaseService.
From S2P Require Import SessionController TunnelRouter OutboundQueue ServerMetrics AsyncIo TunnelSession.

(** What the server posts to a strand: its own, or a session's. *)
Inductive Task :=
| StartServer
| StopServer
| ReloadTls (permissions : outcome unit) (replacement : outcome Z)
| RemoveSession (peer : Peer)
| StartSession (peer : Peer)
| StopSession (peer : Peer)
| SendIpv4 (peer : Peer) (packet : bytes)
| SendIpv6 (peer : Peer) (packet : bytes).

(** The strand a task runs on; [None] is the server's. *)
Definition strand_of (k : Task) : option Peer :=
  match k with
  | StartServer | StopServer | ReloadTls _ _ | RemoveSession _ => None
  | StartSession p | StopSession p | SendIpv4 p _ | SendIpv6 p _ => Some p
  end.

(** Calls into the TUN device, the shutdown handler and the completion of a
    reload. *)
Inductive Call := TunStart | TunStop | TunWrite (packet : bytes) | Shutdown | Reloaded (ok : bool).

(** An acceptor; [misused_accept] records, as in [Stream], an operation that
    asio does not allow. *)
Record Acceptor := mkAcceptor { accepting : bool; accept_closed : bool; misused_accept : bool }.

Definition async_accept (a : Acceptor) : Acceptor :=
  mkAcceptor true (accept_closed a) (misused_accept a || accepting a || accept_closed a).
Definition accept_completes (a : Acceptor) : Acceptor :=
  mkAcceptor false (accept_closed a) (misused_accept a).
Definition close_acceptor (a : Acceptor) : Acceptor :=
  mkAcceptor (accepting a) true (misused_accept a).

(** [alive] are the sessions that have not been destroyed, [posted] the tasks
    posted and not yet run, oldest first, [calls] what has been called.  The
    TLS context is a number, since only its identity matters here. *)
Record TlsTunnelServer := mkServer {
  acceptor_ : Acceptor;
  tls_context_ : Z;
  maximum_sessions_ : Z;
  session_handshake_timeout_ : Z;
  session_idle_timeout_ : Z;
  shutdown_handler_ : bool;
  router_ : TunnelRouter;
  sessions_ : gset Peer;
  active_session_count_ : Z;
  started_ : bool;
  stopping_ : bool;
  alive : gset Peer;
  posted : list Task;
  calls : list Call
}.

Definition put_acceptor (x : Acceptor) (s : TlsTunnelServer) : TlsTunnelServer :=
  mkServer x (tls_context_ s) (maximum_sessions_ s) (session_handshake_timeout_ s)
    (session_idle_timeout_ s) (shutdown_handler_ s) (router_ s) (sessions_ s)
    (active_session_count_ s) (started_ s) (stopping_ s) (alive s) (posted s) (calls s).
Definition put_tls_context (x : Z) (s : TlsTunnelServer) : TlsTunnelServer :=
  mkServer (acceptor_ s) x (maximum_sessions_ s) (session_handshake_timeout_ s)
    (session_idle_timeout_ s) (shutdown_handler_ s) (router_ s) (sessions_ s)
    (active_session_count_ s) (started_ s) (stopping_ s) (alive s) (posted s) (calls s).
Definition put_shutdown_handler (x : bool) (s : TlsTunnelServer) : TlsTunnelServer :=
  mkServer (acceptor_ s) (tls_context_ s) (maximum_sessions_ s) (session_handshake_timeout_ s)
    (session_idle_timeout_ s) x (router_ s) (sessions_ s)
    (active_session_count_ s) (started_ s) (stopping_ s) (alive s) (posted s) (calls s).
Definition put_router (x : TunnelRouter) (s : TlsTunnelServer) : TlsTunnelServer :=
  mkServer (acceptor_ s) (tls_context_ s) (maximum_sessions_ s) (session_handshake_timeout_ s)
    (session_idle_timeout_ s) (shutdown_handler_ s) x (sessions_ s)
    (active_session_count_ s) (started_ s) (stopping_ s) (alive s) (posted s) (calls s).
(** The set of sessions and [active_session_count_], stored after it. *)
Definition put_sessions (x : gset Peer) (s : TlsTunnelServer) : TlsTunnelServer :=
  mkServer (acceptor_ s) (tls_context_ s) (maximum_sessions_ s) (session_handshake_timeout_ s)
    (session_idle_timeout_ s) (shutdown_handler_ s) (router_ s) x
    (Z.of_nat (size x)) (started_ s) (stopping_ s) (alive s) (posted s) (calls s).
Definition put_started (x : bool) (s : TlsTunnelServer) : TlsTunnelServer :=
  mkServer (acceptor_ s) (tls_context_ s) (maximum_sessions_ s) (session_handshake_timeout_ s)
    (session_idle_timeout_ s) (shutdown_handler_ s) (router_ s) (sessions_ s)
    (active_session_count_ s) x (stopping_ s) (alive s) (posted s) (calls s).
Definition put_stopping (x : bool) (s : TlsTunnelServer) : TlsTunnelServer :=
  mkServer (acceptor_ s) (tls_context_ s) (maximum_sessions_ s) (session_handshake_timeout_ s)
    (session_idle_timeout_ s) (shutdown_handler_ s) (router_ s) (sessions_ s)
    (active_session_count_ s) (started_ s) x (alive s) (posted s) (calls s).
Definition put_alive (x : gset Peer) (s : TlsTunnelServer) : TlsTunnelServer :=
  mkServer (acceptor_ s) (tls_context_ s) (maximum_sessions_ s) (session_handshake_timeout_ s)
    (session_idle_timeout_ s) (shutdown_handler_ s) (router_ s) (sessions_ s)
    (active_session_count_ s) (started_ s) (stopping_ s) x (posted s) (calls s).
Definition put_posted (x : list Task) (s : TlsTunnelServer) : TlsTunnelServer :=
  mkServer (acceptor_ s) (tls_context_ s) (maximum_sessions_ s) (session_handshake_timeout_ s)
    (session_idle_timeout_ s) (shutdown_handler_ s) (router_ s) (sessions_ s)
    (active_session_count_ s) (started_ s) (stopping_ s) (alive s) x (calls s).
Definition put_calls (x : list Call) (s : TlsTunnelServer) : TlsTunnelServer :=
  mkServer (acceptor_ s) (tls_context_ s) (maximum_sessions_ s) (session_handshake_timeout_ s)
    (session_idle_timeout_ s) (shutdown_handler_ s) (router_ s) (sessions_ s)
    (active_session_count_ s) (started_ s) (stopping_ s) (alive s) (posted s) x.

Definition post (k : Task) : M TlsTunnelServer unit := modify (fun s => put_posted (posted s ++ [k]) s).
Definition call (c : Call) : M TlsTunnelServer unit := modify (fun s => put_calls (calls s ++ [c]) s).
Definition on_router {A} (m : gset Peer -> M TunnelRouter A) : M TlsTunnelServer A := fun s =>
  let '(r, x) := m (alive s) (router_ s) in (r, put_router x s).
Definition on_acceptor (f : Acceptor -> Acceptor) : M TlsTunnelServer unit :=
  modify (fun s => put_acceptor (f (acceptor_ s)) s).

(** [TlsTunnelServer::TlsTunnelServer]; [listening] is the outcome of opening,
    binding and listening. *)
Definition make_server (tls_context : option Z) (tun_device : bool) (maximum_sessions : Z)
    (shutdown_handler : bool) (handshake_timeout idle_timeout : Z) (listening : outcome unit)
  : outcome TlsTunnelServer :=
  match tls_context with
  | None => Throw (InvalidArgument "TLS context must not be null")
  | Some context =>
      let? _ := reject_if (negb tun_device) (InvalidArgument "TUN device must not be null") in
      let? _ := reject_if (maximum_sessions =? 0)
        (InvalidArgument "maximum session count must be positive") in
      let? _ := reject_if ((handshake_timeout <=? 0) || (idle_timeout <=? 0))
        (InvalidArgument "server session timeouts must be positive") in
      let? _ := listening in
      Ok (mkServer (mkAcceptor false false false) context maximum_sessions handshake_timeout
            idle_timeout shutdown_handler empty_router ∅ 0 false false ∅ [] [])
  end.

(** ** The handlers given to a session *)

Definition no_ipv6 : bytes := zeros 16.

(** The second handler given in [handle_accept]. *)
Definition register_session (lease : Lease) (peer : Peer) : M TlsTunnelServer bool :=
  let* registered := on_router (fun alive => register_peer alive (l_address lease) (Some peer)) in
  if negb registered then ret false
  else
    let* registered_v6 :=
      if negb (bool_decide (l_ipv6_address lease = no_ipv6))
      then on_router (fun alive => register_peer_v6 alive (l_ipv6_address lease) (Some peer))
      else ret true in
    if negb registered_v6 then
      let* _ := on_router (fun alive => unregister_peer alive (l_address lease) (Some peer)) in
      ret false
    else ret true.

Definition handle_session_closed (lease : option Lease) (peer : Peer) : M TlsTunnelServer unit :=
  let* _ := match lease with
            | None => ret tt
            | Some lease =>
                let* _ := on_router (fun alive => unregister_peer alive (l_address lease) (Some peer)) in
                if negb (bool_decide (l_ipv6_address lease = no_ipv6)) then
                  let* _ := on_router (fun alive =>
                    unregister_peer_v6 alive (l_ipv6_address lease) (Some peer)) in
                  ret tt
                else ret tt
            end in
  post (RemoveSession peer).

#[export] Instance server_host : SessionHost TlsTunnelServer := {
  packet_sink packet := call (TunWrite packet);
  established_handler := register_session;
  close_handler := handle_session_closed
}.

(** ** The handlers of the server's strand *)

Definition remove_session (peer : Peer) : M TlsTunnelServer unit :=
  let* s := get in
  if bool_decide (peer ∈ sessions_ s) then modify (put_sessions (sessions_ s ∖ {[peer]})) else ret tt.

Definition accept_next : M TlsTunnelServer unit :=
  let* s := get in
  if stopping_ s then ret tt else on_acceptor async_accept.

(** [TlsTunnelServer::start_on_strand] *)
Definition start_accepting : M TlsTunnelServer unit :=
  let* s := get in
  if started_ s || stopping_ s then ret tt
  else
    let* _ := modify (put_started true) in
    let* _ := call TunStart in
    accept_next.

(** The loop over [sessions_]. *)
Fixpoint stop_sessions (peers : list Peer) : M TlsTunnelServer unit :=
  match peers with
  | [] => ret tt
  | peer :: peers => let* _ := post (StopSession peer) in stop_sessions peers
  end.

Definition stop_on_strand : M TlsTunnelServer unit :=
  let* s := get in
  if stopping_ s then ret tt
  else
    let* _ := modify (put_stopping true) in
    let* _ := on_acceptor close_acceptor in
    let* _ := call TunStop in
    let* _ := stop_sessions (elements (sessions_ s)) in
    if shutdown_handler_ s then
      let* _ := modify (put_shutdown_handler false) in
      call Shutdown
    else ret tt.

Definition reload_tls_context (permissions : outcome unit) (replacement : outcome Z)
  : M TlsTunnelServer unit :=
  let* s := get in
  if stopping_ s then call (Reloaded false)
  else
    try_catch
      (let* _ := lift permissions in
       let* context := lift replacement in
       let* _ := modify (put_tls_context context) in
       call (Reloaded true))
      (fun _ => Some (call (Reloaded false))).

(** The two handlers given to the TUN device.  The router hands a packet to
    its session, which posts it to its own strand. *)
Definition on_tun_packet (packet : bytes) : M TlsTunnelServer unit :=
  if negb (zlen packet =? 0) && (Z.shiftr (at_ packet 0) 4 =? 6) then
    let* peer := on_router (fun alive => route_ipv6_packet alive packet) in
    match peer with Some peer => post (SendIpv6 peer packet) | None => ret tt end
  else
    let* peer := on_router (fun alive => route_ipv4_packet alive packet) in
    match peer with Some peer => post (SendIpv4 peer packet) | None => ret tt end.
Definition on_tun_error : M TlsTunnelServer unit := post StopServer.

(** ** Specification *)

(** How many tasks of a kind are posted. *)
Fixpoint tally (f : Task -> bool) (l : list Task) : nat :=
  match l with
  | [] => 0
  | k :: l => (if f k then 1 else 0) + tally f l
  end.
Definition is_remove (p : Peer) (k : Task) : bool :=
  match k with RemoveSession q => bool_decide (q = p) | _ => false end.
Definition is_start (p : Peer) (k : Task) : bool :=
  match k with StartSession q => bool_decide (q = p) | _ => false end.
Definition is_stop (p : Peer) (k : Task) : bool :=
  match k with StopSession q => bool_decide (q = p) | _ => false end.
Definition is_any_remove (k : Task) : bool :=
  match k with RemoveSession _ => true | _ => false end.

(** The addresses [p] owns are those of lease [l]; or at most those. *)
Definition holds (p : Peer) (l : option Lease) (s : TlsTunnelServer) : Prop :=
  (forall a, owner (alive s) (router_ s) a = Some p <->
     exists k, l = Some k /\ address_key (l_address k) = address_key a) /\
  (forall a, owner_v6 (alive s) (router_ s) a = Some p <->
     exists k, l = Some k /\ l_ipv6_address k = a /\ a <> no_ipv6).
Definition holds_at_most (p : Peer) (l : option Lease) (s : TlsTunnelServer) : Prop :=
  (forall a, owner (alive s) (router_ s) a = Some p ->
     exists k, l = Some k /\ address_key (l_address k) = address_key a) /\
  (forall a, owner_v6 (alive s) (router_ s) a = Some p ->
     exists k, l = Some k /\ l_ipv6_address k = a /\ a <> no_ipv6).

(** A session of the server that has not closed: its removal is not posted. *)
Definition present (p : Peer) (s : TlsTunnelServer) : Prop :=
  p ∈ alive s /\ p ∈ sessions_ s /\ tally (is_remove p) (posted s) = 0%nat.

(** The router only refers to sessions that exist, under the keys of addresses. *)
Definition all_alive (alive : gset Peer) (r : TunnelRouter) : Prop :=
  (forall k q, peers_ r !! k = Some q -> q ∈ alive /\ exists a, k = address_key a) /\
  (forall k q, ipv6_peers_ r !! k = Some q -> q ∈ alive).

(** The routes of sessions other than [q] are the same. *)
Definition other_routes (q : Peer) (alive : gset Peer) (r r' : TunnelRouter) : Prop :=
  (forall p a, p <> q -> (owner alive r' a = Some p <-> owner alive r a = Some p)) /\
  (forall p a, p <> q -> (owner_v6 alive r' a = Some p <-> owner_v6 alive r a = Some p)) /\
  (q ∈ alive -> all_alive alive r -> all_alive alive r').

(** What the handlers of session [q] may do to the server. *)
Definition served (q : Peer) (s s' : TlsTunnelServer) : Prop :=
  exists r n c, s' = put_calls c (put_posted (posted s ++ replicate n (RemoveSession q)) (put_router r s)) /\
    other_routes q (alive s) (router_ s) r.

(** ** Lemmas *)

Lemma tally_app f l k : tally f (l ++ k) = (tally f l + tally f k)%nat.
Proof. induction l; cbn; lia. Qed.
Lemma tally_replicate f n k : tally f (replicate n k) = if f k then n else 0%nat.
Proof. induction n as [|n IH]; cbn; [destruct (f k); reflexivity|]. rewrite IH. destruct (f k); lia. Qed.
Lemma tally_zero f l : tally f l = 0%nat <-> Forall (fun k => f k = false) l.
Proof.
  induction l as [|k l IH]; cbn; [split; [constructor|reflexivity]|].
  rewrite Forall_cons, <- IH. destruct (f k); intuition lia.
Qed.
Lemma tally_in f k l : k ∈ l -> f k = true -> (1 <= tally f l)%nat.
Proof.
  intros Hk E. induction l as [|j l IH]; [inversion Hk|]. cbn.
  apply elem_of_cons in Hk as [<-|Hk]; [rewrite E|specialize (IH Hk)]; lia.
Qed.
Lemma tally_found f l : (1 <= tally f l)%nat -> exists k, k ∈ l /\ f k = true.
Proof.
  induction l as [|k l IH]; cbn; [lia|]. destruct (f k) eqn:E.
  - intros _. exists k. split; [apply elem_of_cons; auto|exact E].
  - intros H. destruct IH as (j & Hj & Ej); [lia|]. exists j. rewrite elem_of_cons. auto.
Qed.
Lemma is_remove_self p : is_remove p (RemoveSession p) = true.
Proof. apply bool_decide_eq_true. reflexivity. Qed.

(** *** The router under the calls of one session *)

Lemma other_routes_refl q al r : other_routes q al r r.
Proof. unfold other_routes. split_goal; auto; reflexivity. Qed.
Lemma other_routes_trans q al r1 r2 r3 : other_routes q al r1 r2 -> other_routes q al r2 r3 -> other_routes q al r1 r3.
Proof.
  intros (A1 & B1 & C1) (A2 & B2 & C2). split; [|split]; [intros p a Hp..|auto].
  - rewrite A2, A1 by assumption. reflexivity.
  - rewrite B2, B1 by assumption. reflexivity.
Qed.

Section RegistryAlive.
Context `{Countable K}.
Context (P : K -> Peer -> Prop).
Implicit Types (peers : gmap K Peer).
Lemma register_in_all al peers key p :
  P key p -> (forall k q, peers !! k = Some q -> P k q) ->
  forall k q, (register_in al peers key (Some p)).2 !! k = Some q -> P k q.
Proof.
  intros Hp Ha k q. unfold register_in. destruct (peers !! key) as [e|] eqn:E; [destruct (lock al e)|];
    cbn [snd]; eauto; intros Hk; destruct (decide (key = k)) as [->|Hne];
    rewrite ?lookup_insert_eq, ?lookup_insert_ne, ?lookup_delete_ne in Hk by assumption;
    first [injection Hk as <-; assumption|eauto].
Qed.
Lemma unregister_in_all al peers key p :
  (forall k q, peers !! k = Some q -> P k q) ->
  forall k q, (unregister_in al peers key p).2 !! k = Some q -> P k q.
Proof.
  intros Ha k q. unfold unregister_in. destruct p; [|eauto]. destruct (peers !! key); [|eauto].
  destruct (lock _ _); [destruct (negb _)|]; cbn [snd]; eauto;
    intros Hk; apply lookup_delete_Some in Hk as [_ Hk]; eauto.
Qed.
Lemma find_in_all al peers key :
  (forall k q, peers !! k = Some q -> P k q) ->
  forall k q, (find_in al peers key).2 !! k = Some q -> P k q.
Proof.
  intros Ha k q. unfold find_in. destruct (peers !! key); [|eauto].
  destruct (lock _ _); cbn [snd]; eauto; intros Hk; apply lookup_delete_Some in Hk as [_ Hk]; eauto.
Qed.
End RegistryAlive.


Lemma register_others q al a r : other_routes q al r (register_peer al a (Some q) r).2.
Proof.
  split; [|split].
  - intros p b Hp. rewrite register_peer_owner. case_decide as E; [|reflexivity].
    replace (owner al r b) with (owner al r a) by (unfold owner; rewrite E; reflexivity).
    destruct (owner al r a) as [x|]; [reflexivity|]. cbn. rewrite lock_some. split; [intros [? _]; congruence|discriminate].
  - intros p b Hp. unfold register_peer. destruct (register_in _ _ _ _). reflexivity.
  - intros Hq [A B]. unfold register_peer. destruct (register_in _ _ _ _) as [ok m] eqn:E. split; [|exact B].
    pose proof (register_in_all (fun k q => q ∈ al /\ exists a, k = address_key a) al (peers_ r) (address_key a) q) as H.
    rewrite E in H. cbn [snd] in H. apply H; eauto.
Qed.
Lemma register_v6_others q al a r : other_routes q al r (register_peer_v6 al a (Some q) r).2.
Proof.
  split; [|split].
  - intros p b Hp. unfold register_peer_v6. destruct (register_in _ _ _ _). reflexivity.
  - intros p b Hp. rewrite register_peer_v6_owner. case_decide as E; [subst b|reflexivity].
    destruct (owner_v6 al r a) as [x|]; [reflexivity|]. cbn. rewrite lock_some. split; [intros [? _]; congruence|discriminate].
  - intros Hq [A B]. unfold register_peer_v6. destruct (register_in _ _ _ _) as [ok m] eqn:E. split; [exact A|].
    pose proof (register_in_all (fun _ q => q ∈ al) al (ipv6_peers_ r) a q Hq B) as H. rewrite E in H. exact H.
Qed.
Lemma unregister_others q al a r : other_routes q al r (unregister_peer al a (Some q) r).2.
Proof.
  split; [|split].
  - intros p b Hp. rewrite unregister_peer_owner. case_decide as E; [|reflexivity].
    replace (owner al r b) with (owner al r a) by (unfold owner; rewrite E; reflexivity).
    case_decide as E2; [rewrite E2|reflexivity]. split; [discriminate|congruence].
  - intros p b Hp. unfold unregister_peer. destruct (unregister_in _ _ _ _). reflexivity.
  - intros Hq [A B]. unfold unregister_peer. destruct (unregister_in _ _ _ _) as [ok m] eqn:E. split; [|exact B].
    pose proof (unregister_in_all _ al (peers_ r) (address_key a) (Some q) A) as H. rewrite E in H. exact H.
Qed.
Lemma unregister_v6_others q al a r : other_routes q al r (unregister_peer_v6 al a (Some q) r).2.
Proof.
  split; [|split].
  - intros p b Hp. unfold unregister_peer_v6. destruct (unregister_in _ _ _ _). reflexivity.
  - intros p b Hp. rewrite unregister_peer_v6_owner. case_decide as E; [subst b|reflexivity].
    case_decide as E2; [rewrite E2|reflexivity]. split; [discriminate|congruence].
  - intros Hq [A B]. unfold unregister_peer_v6. destruct (unregister_in _ _ _ _) as [ok m] eqn:E. split; [exact A|].
    pose proof (unregister_in_all _ al (ipv6_peers_ r) a (Some q) B) as H. rewrite E in H. exact H.
Qed.

(** *** The handlers given to session [q] *)

Lemma served_refl q s : served q s s.
Proof.
  exists (router_ s), 0%nat, (calls s). split; [|apply other_routes_refl]. cbn. rewrite app_nil_r. destruct s. reflexivity.
Qed.
Lemma served_router q s0 s (m : gset Peer -> M TunnelRouter bool) :
  (forall al r, other_routes q al r (m al r).2) -> served q s0 s -> served q s0 (on_router m s).2.
Proof.
  intros Hm (r & n & c & -> & Ho). unfold on_router. cbn. specialize (Hm (alive s0) r).
  destruct (m (alive s0) r) as [b r']. exists r', n, c. split; [reflexivity|]. eapply other_routes_trans; eassumption.
Qed.
Lemma served_bind {A B} q s0 s (m : M TlsTunnelServer A) (k : A -> M TlsTunnelServer B) :
  (served q s0 s -> served q s0 (m s).2) -> (forall a s, served q s0 s -> served q s0 (k a s).2) ->
  served q s0 s -> served q s0 (bind m k s).2.
Proof.
  intros Hm Hk Hs. unfold bind. specialize (Hm Hs). destruct (m s) as [[a|e] s']; [|exact Hm]. apply Hk, Hm.
Qed.
Lemma served_ret {A} q s0 s (a : A) : served q s0 s -> served q s0 (ret a s).2.
Proof. auto. Qed.
Lemma served_remove q s0 s : served q s0 s -> served q s0 (post (RemoveSession q) s).2.
Proof.
  intros (r & n & c & -> & Ho). exists r, (Datatypes.S n), c. split; [|exact Ho]. rewrite replicate_S_end, app_assoc. reflexivity.
Qed.

Ltac served_step :=
  match goal with
  | |- served _ _ (bind _ _ _).2 => apply served_bind; [intros ?|intros ? ? ?|]
  | |- served _ _ (on_router _ _).2 => apply served_router; [intros ? ?|]
  | |- served _ _ ((if ?b then _ else _) _).2 => destruct b
  | |- served _ _ ((match ?x with _ => _ end) _).2 => destruct x
  | |- served _ _ (ret _ _).2 => apply served_ret
  | |- other_routes _ _ _ (register_peer _ _ _ _).2 => apply register_others
  | |- other_routes _ _ _ (register_peer_v6 _ _ _ _).2 => apply register_v6_others
  | |- other_routes _ _ _ (unregister_peer _ _ _ _).2 => apply unregister_others
  | |- other_routes _ _ _ (unregister_peer_v6 _ _ _ _).2 => apply unregister_v6_others
  | |- served _ _ (post (RemoveSession _) _).2 => apply served_remove
  end; auto.

Lemma served_sink q s0 packet s : served q s0 s -> served q s0 (packet_sink packet s).2.
Proof. intros (r & n & c & -> & Ho). exists r, n, (c ++ [TunWrite packet]). auto. Qed.
Lemma served_established q s0 l s : served q s0 s -> served q s0 (established_handler l q s).2.
Proof. intros H. cbn [established_handler server_host]. unfold register_session. repeat served_step. Qed.
Lemma served_close q s0 l s : served q s0 s -> served q s0 (close_handler l q s).2.
Proof. intros H. cbn [close_handler server_host]. unfold handle_session_closed. repeat served_step. Qed.

(** *** What a session is promised *)


Lemma register_outcome p al b r :
  p ∈ al -> (forall a, owner al r a <> Some p) ->
  exists ok r', register_peer al b (Some p) r = (Ok ok, r') /\ ipv6_peers_ r' = ipv6_peers_ r /\
    forall a, owner al r' a = Some p <-> ok = true /\ address_key b = address_key a.
Proof.
  intros Hp Hn. pose proof (fun a => register_peer_owner al b (Some p) r a) as Ho.
  pose proof (register_result al (peers_ r) (address_key b) p) as Hr.
  unfold register_peer in *. destruct (register_in _ _ _ _) as [ok m] eqn:E. cbn [fst snd] in *.
  exists ok, (mkRouter m (ipv6_peers_ r)). split; [reflexivity|]. split; [reflexivity|]. intros a.
  rewrite Ho. fold (owner al r b) in Hr. specialize (Hn b) as Hb.
  case_decide as Ek; [|split; [intros H; destruct (Hn a H)|intros [_ ?]; contradiction]].
  cbn [mbind option_bind]. destruct (owner al r b) as [x|].
  - split; [congruence|]. intros [Hok _]. apply Hr in Hok as [[=]|[=]]. congruence.
  - rewrite lock_some. split; [|auto]. intros _. split; [apply Hr; auto|exact Ek].
Qed.
Lemma register_v6_outcome p al b r :
  p ∈ al -> (forall a, owner_v6 al r a <> Some p) ->
  exists ok r', register_peer_v6 al b (Some p) r = (Ok ok, r') /\ peers_ r' = peers_ r /\
    forall a, owner_v6 al r' a = Some p <-> ok = true /\ b = a.
Proof.
  intros Hp Hn. pose proof (fun a => register_peer_v6_owner al b (Some p) r a) as Ho.
  pose proof (register_result al (ipv6_peers_ r) b p) as Hr.
  unfold register_peer_v6 in *. destruct (register_in _ _ _ _) as [ok m] eqn:E. cbn [fst snd] in *.
  exists ok, (mkRouter (peers_ r) m). split; [reflexivity|]. split; [reflexivity|]. intros a.
  rewrite Ho. fold (owner_v6 al r b) in Hr. specialize (Hn b) as Hb.
  case_decide as Ek; [|split; [intros H; destruct (Hn a H)|intros [_ ?]; contradiction]].
  cbn [mbind option_bind]. destruct (owner_v6 al r b) as [x|].
  - split; [congruence|]. intros [Hok _]. apply Hr in Hok as [[=]|[=]]. congruence.
  - rewrite lock_some. split; [|auto]. intros _. split; [apply Hr; auto|exact Ek].
Qed.
Lemma unregister_outcome p al b r :
  (forall a, owner al r a = Some p -> address_key b = address_key a) ->
  exists ok r', unregister_peer al b (Some p) r = (Ok ok, r') /\ ipv6_peers_ r' = ipv6_peers_ r /\
    forall a, owner al r' a <> Some p.
Proof.
  intros Hn. pose proof (fun a => unregister_peer_owner al b (Some p) r a) as Ho.
  unfold unregister_peer in *. destruct (unregister_in _ _ _ _) as [ok m]. cbn [snd] in Ho.
  exists ok, (mkRouter m (ipv6_peers_ r)). split; [reflexivity|]. split; [reflexivity|]. intros a.
  rewrite Ho. destruct (decide (address_key b = address_key a)) as [Ek|Ek].
  - destruct (decide (owner al r b = Some p)); [discriminate|assumption].
  - intros H. apply Ek, Hn, H.
Qed.
Lemma unregister_v6_outcome p al b r :
  (forall a, owner_v6 al r a = Some p -> b = a) ->
  exists ok r', unregister_peer_v6 al b (Some p) r = (Ok ok, r') /\ peers_ r' = peers_ r /\
    forall a, owner_v6 al r' a <> Some p.
Proof.
  intros Hn. pose proof (fun a => unregister_peer_v6_owner al b (Some p) r a) as Ho.
  unfold unregister_peer_v6 in *. destruct (unregister_in _ _ _ _) as [ok m]. cbn [snd] in Ho.
  exists ok, (mkRouter (peers_ r) m). split; [reflexivity|]. split; [reflexivity|]. intros a.
  rewrite Ho. destruct (decide (b = a)) as [Ek|Ek].
  - destruct (decide (owner_v6 al r b = Some p)); [discriminate|assumption].
  - intros H. apply Ek, Hn, H.
Qed.

Lemma on_router_eq {A} (m : gset Peer -> M TunnelRouter A) s r x :
  m (alive s) (router_ s) = (r, x) -> on_router m s = (r, put_router x s).
Proof. unfold on_router. intros ->. reflexivity. Qed.

Lemma owner_peers al r r' a : peers_ r' = peers_ r -> owner al r' a = owner al r a.
Proof. unfold owner. intros ->. reflexivity. Qed.
Lemma owner_v6_peers al r r' a : ipv6_peers_ r' = ipv6_peers_ r -> owner_v6 al r' a = owner_v6 al r a.
Proof. unfold owner_v6. intros ->. reflexivity. Qed.

Definition opened (p : Peer) (l : option Lease) (s : TlsTunnelServer) : Prop :=
  present p s /\ holds p l s /\ (forall k, l = Some k -> lease_shape k).
Definition closing (p : Peer) (l : option Lease) (s : TlsTunnelServer) : Prop :=
  present p s /\ holds_at_most p l s.
Definition gone (p : Peer) (s : TlsTunnelServer) : Prop :=
  holds p None s /\ tally (is_remove p) (posted s) = if decide (p ∈ sessions_ s) then 1%nat else 0%nat.

Lemma holds_weaken p l s : holds p l s -> holds_at_most p l s.
Proof. intros [A B]. split; [apply A|apply B]. Qed.
Lemma holds_none p s : holds p None s ->
  (forall a, owner (alive s) (router_ s) a <> Some p) /\ (forall a, owner_v6 (alive s) (router_ s) a <> Some p).
Proof. intros [A B]. split; intros a H; [apply A in H|apply B in H]; destruct H as (? & [=] & _). Qed.
Lemma none_holds p s :
  (forall a, owner (alive s) (router_ s) a <> Some p) ->
  (forall a, owner_v6 (alive s) (router_ s) a <> Some p) -> holds p None s.
Proof. intros A B. split; intros a; (split; [intros H; destruct (A _ H) || destruct (B _ H)|intros (? & [=] & _)]). Qed.

Lemma none_at_most p l s :
  (forall a, owner (alive s) (router_ s) a <> Some p) ->
  (forall a, owner_v6 (alive s) (router_ s) a <> Some p) -> holds_at_most p l s.
Proof. intros A B. split; intros a H; [destruct (A a H)|destruct (B a H)]. Qed.

Lemma register_session_law p l s : lease_shape l -> opened p None s ->
  match register_session l p s with
  | (Ok true, s') => opened p (Some l) s'
  | (_, s') => closing p (Some l) s'
  end.
Proof.
  intros Hl (Hp & [H4 H6]%holds_none & _). unfold register_session, bind at 1.
  destruct (register_outcome p (alive s) (l_address l) (router_ s)) as (ok & r1 & E1 & V6 & O4); [apply Hp|auto|].
  erewrite on_router_eq by exact E1. cbn beta iota.
  assert (O6 : forall a, owner_v6 (alive s) r1 a <> Some p)
    by (intros a; erewrite owner_v6_peers by exact V6; apply H6).
  destruct ok; cbn [negb].
  2:{ split; [exact Hp|]. apply none_at_most; intros a; cbn; [|apply O6].
      rewrite O4. intros [? _]. discriminate. }
  unfold bind at 1. case_bool_decide as Ez; cbn [negb ret].
  - split; [exact Hp|]. split; [|intros k [= <-]; exact Hl]. split; intros a; cbn.
    + rewrite O4. split; [intros [_ ?]; eauto|intros (k & [= <-] & ?); auto].
    + split; [intros H; destruct (O6 a H)|intros (k & [= <-] & <- & ?); contradiction].
  - destruct (register_v6_outcome p (alive s) (l_ipv6_address l) r1) as (ok & r2 & E2 & V4 & O6'); [apply Hp|auto|].
    erewrite on_router_eq by (cbn; exact E2). cbn beta iota.
    assert (O4' : forall a, owner (alive s) r2 a = Some p <-> address_key (l_address l) = address_key a)
      by (intros a; erewrite owner_peers by exact V4; rewrite O4; intuition).
    destruct ok; cbn [negb].
    + split; [exact Hp|]. split; [|intros k [= <-]; exact Hl]. split; intros a; cbn.
      * rewrite O4'. split; [eauto|intros (k & [= <-] & ?); auto].
      * rewrite O6'. split; [intros [_ <-]; eauto|intros (k & [= <-] & ? & ?); auto].
    + unfold bind at 1.
      destruct (unregister_outcome p (alive s) (l_address l) r2) as (ok & r3 & E3 & V6' & O4''); [apply O4'|].
      erewrite on_router_eq by (cbn; exact E3). cbn beta iota.
      split; [exact Hp|]. apply none_at_most; intros a; cbn; [apply O4''|].
      erewrite owner_v6_peers by exact V6'. rewrite O6'. intros [? _]. discriminate.
Qed.

Lemma post_remove_gone p s :
  present p s -> holds p None s ->
  exists s', post (RemoveSession p) s = (Ok tt, s') /\ gone p s'.
Proof.
  intros (_ & Hs & Hr) Hn. eexists. split; [reflexivity|]. split; [exact Hn|]. cbn.
  rewrite tally_app, Hr. cbn. rewrite bool_decide_eq_true_2, decide_True by auto. reflexivity.
Qed.

Lemma session_closed_law p l s : closing p l s ->
  exists s', handle_session_closed l p s = (Ok tt, s') /\ gone p s'.
Proof.
  intros [Hp [H4 H6]]. unfold handle_session_closed. destruct l as [l|].
  2:{ apply post_remove_gone; [exact Hp|]. apply none_holds; intros a H;
        [apply H4 in H|apply H6 in H]; destruct H as (? & [=] & _). }
  assert (K4 : forall a, owner (alive s) (router_ s) a = Some p -> address_key (l_address l) = address_key a)
    by (intros a H; apply H4 in H as (? & [= <-] & ?); assumption).
  destruct (unregister_outcome p (alive s) (l_address l) (router_ s) K4) as (ok & r1 & E1 & V6 & O4).
  unfold bind. erewrite on_router_eq by exact E1. cbn beta iota.
  assert (K6 : forall a, owner_v6 (alive s) r1 a = Some p -> l_ipv6_address l = a /\ a <> no_ipv6).
  { intros a H. erewrite owner_v6_peers in H by exact V6. apply H6 in H as (? & [= <-] & ?). assumption. }
  case_bool_decide as Ez; cbn [negb].
  - unfold ret. cbn beta iota. apply post_remove_gone; [exact Hp|].
    apply none_holds; intros a; cbn; [apply O4|]. intros H. apply K6 in H as [<- ?]. contradiction.
  - destruct (unregister_v6_outcome p (alive s) (l_ipv6_address l) r1) as (ok2 & r2 & E2 & V4 & O6);
      [intros a H; apply K6, H|].
    erewrite on_router_eq by (cbn; exact E2). cbn [ret]. apply post_remove_gone; [exact Hp|].
    apply none_holds; intros a; cbn; [|apply O6]. erewrite owner_peers by exact V4. apply O4.
Qed.

#[export] Instance server_laws : SessionHostLaws TlsTunnelServer.
Proof.
  refine {| host_open := opened; host_closing := closing; host_gone := gone |}.
  - intros p l s (A & B & _). split; [exact A|]. apply holds_weaken, B.
  - auto.
  - intros p l s. exact (register_session_law p l s).
  - intros p l s. exact (session_closed_law p l s).
Defined.
