(* ===== verification/ServerSystem.v ===== *)
(** * The server and its sessions as one system

    The server of TunnelServer.v, the sessions of TunnelSession.v, the lease
    manager and the counters, run together: the handlers of the different
    strands in any order, the tasks posted to one strand in their order.  The
    invariant [sys_ok] holds in every reachable state; from it follow the
    properties of the whole server side. *)
From S2P Require Import Prelude Bytes Protocol ControlMessages Traffic LeaseManager LeaseService.
From S2P Require Import SessionController TunnelRouter OutboundQueue ServerMetrics AsyncIo TunnelSession.
From S2P Require Import SessionFrame TunnelServer.

(** ** The system: the server, its sessions by address, and what they share *)

Section System.
Context {S : Type} `{LS : LeaseService S}.

Definition System : Type := Shared S TlsTunnelServer * gmap Peer TlsTunnelSession.

Definition on_server {A} (m : M TlsTunnelServer A) : M System A := fun '(w, heap) =>
  let '(r, h) := m (sh_host w) in (r, (mkShared (sh_leases w) h (sh_metrics w), heap)).
(** [++metrics_.k;] *)
Definition increment (k : Counter) : M System unit := fun '(w, heap) =>
  (Ok tt, (mkShared (sh_leases w) (sh_host w) (fetch_add k 1 (sh_metrics w)), heap)).
(** A new object, at [peer]. *)
Definition allocate (peer : Peer) (t : TlsTunnelSession) : M System unit := fun '(w, heap) =>
  (Ok tt, (mkShared (sh_leases w) (put_alive ({[peer]} ∪ alive (sh_host w)) (sh_host w)) (sh_metrics w),
           <[peer := t]> heap)).
Definition on_session (peer : Peer) (e : session_event) : M System unit := fun '(w, heap) =>
  match heap !! peer with
  | None => (Throw (LogicError "destroyed session"), (w, heap))
  | Some t => let '(r, (w', t')) := run_event e (w, t) in (r, (w', <[peer := t']> heap))
  end.

Inductive AcceptError := Accepted | ConnectionAborted | AcceptFailed.

(** [peer] is the address [std::make_shared] gives to a new session. *)
Definition handle_accept (error : AcceptError) (peer : Peer) : M System unit :=
  let* s := on_server get in
  if stopping_ s then ret tt
  else
    match error with
    | ConnectionAborted => on_server accept_next
    | AcceptFailed => on_server stop_on_strand
    | Accepted =>
        let* _ := if maximum_sessions_ s <=? Z.of_nat (size (sessions_ s)) then
                    increment C_capacity_rejections
                  else
                    let* _ := increment C_accepted_connections in
                    let* session := lift (make_tls peer true true true true 256 (Z.shiftl 1 20)
                      (session_handshake_timeout_ s) (session_idle_timeout_ s)) in
                    let* _ := allocate peer session in
                    let* _ := on_server (modify (fun s => put_sessions ({[peer]} ∪ sessions_ s) s)) in
                    on_server (post (StartSession peer)) in
        on_server accept_next
    end.

(** [now] is the time at which a packet is handed to the session controller. *)
Definition run_task (k : Task) (now : Z) : M System unit :=
  match k with
  | StartServer => on_server start_accepting
  | StopServer => on_server stop_on_strand
  | ReloadTls permissions replacement => on_server (reload_tls_context permissions replacement)
  | RemoveSession peer => on_server (remove_session peer)
  | StartSession peer => on_session peer EvStart
  | StopSession peer => on_session peer EvStop
  | SendIpv4 peer packet => on_session peer (EvTunIpv4 packet now)
  | SendIpv6 peer packet => on_session peer (EvTunIpv6 packet now)
  end.

(** What the public methods of the server post. *)
Definition external (k : Task) : Prop :=
  match k with StartServer | StopServer | ReloadTls _ _ => True | _ => False end.

(** The events of a session that its socket and its timer cause. *)
Definition io_event (e : session_event) : Prop :=
  match e with
  | EvHandshake _ _ | EvHandshakeDeadline _ | EvIdleDeadline _ | EvRead _ _ _ | EvWrite _ => True
  | _ => False
  end.

(** Nothing in flight and no timer: nothing but the server's set and posted
    tasks keeps the session. *)
Definition idle (t : TlsTunnelSession) : Prop :=
  handshaking (stream_ t) = false /\ reading (stream_ t) = false /\ writing (stream_ t) = None /\
  deadline_ t = None.

(** One step, with the outcome of the handler that ran: tasks of one strand
    run in the order in which they were posted, everything else in any order. *)
Inductive step : System -> outcome unit -> System -> Prop :=
| step_call st k r st' :
    external k -> on_server (post k) st = (r, st') -> step st r st'
| step_task w heap before k after now r st' :
    posted (sh_host w) = before ++ k :: after ->
    Forall (fun j => strand_of j <> strand_of k) before ->
    (let* _ := on_server (modify (put_posted (before ++ after))) in run_task k now) (w, heap) = (r, st') ->
    step (w, heap) r st'
| step_io w heap peer t e r st' :
    heap !! peer = Some t -> io_event e -> possible e t ->
    on_session peer e (w, heap) = (r, st') -> step (w, heap) r st'
| step_accept w heap error peer r st' :
    accepting (acceptor_ (sh_host w)) = true -> heap !! peer = None ->
    (let* _ := on_server (on_acceptor accept_completes) in handle_accept error peer) (w, heap) = (r, st') ->
    step (w, heap) r st'
| step_tun st packet r st' :
    is_bytes packet -> on_server (on_tun_packet packet) st = (r, st') -> step st r st'
| step_tun_error st r st' :
    on_server on_tun_error st = (r, st') -> step st r st'
| step_destroy w heap peer t :
    heap !! peer = Some t -> peer ∉ sessions_ (sh_host w) -> idle t ->
    Forall (fun k => strand_of k <> Some peer) (posted (sh_host w)) ->
    step (w, heap) (Ok tt)
      (mkShared (sh_leases w) (put_alive (alive (sh_host w) ∖ {[peer]}) (sh_host w)) (sh_metrics w),
       delete peer heap).
End System.

Lemma owner_alive al r a : all_alive al r -> owner al r a = peers_ r !! address_key a.
Proof.
  intros [H _]. unfold owner. destruct (peers_ r !! address_key a) as [q|] eqn:E; [|reflexivity].
  cbn. apply lock_some. split; [reflexivity|]. eapply H, E.
Qed.
Lemma owner_v6_alive al r a : all_alive al r -> owner_v6 al r a = ipv6_peers_ r !! a.
Proof.
  intros [_ H]. unfold owner_v6. destruct (ipv6_peers_ r !! a) as [q|] eqn:E; [|reflexivity].
  cbn. apply lock_some. split; [reflexivity|]. eapply H, E.
Qed.

(** *** The invariant of the system *)

(** A posted task is for a session that exists, a removal for one that the
    server still has. *)
Definition task_ok (s : TlsTunnelServer) (k : Task) : Prop :=
  (forall p, strand_of k = Some p -> p ∈ alive s) /\
  match k with
  | RemoveSession p => p ∈ sessions_ s
  | SendIpv4 _ packet | SendIpv6 _ packet => is_bytes packet
  | _ => True
  end.

Record server_ok (s : TlsTunnelServer) : Prop := {
  sr_count : active_session_count_ s = Z.of_nat (size (sessions_ s));
  sr_bound : Z.of_nat (size (sessions_ s)) <= maximum_sessions_ s;
  sr_timeouts : 0 < session_handshake_timeout_ s /\ 0 < session_idle_timeout_ s;
  sr_sessions : sessions_ s ⊆ alive s;
  sr_router : all_alive (alive s) (router_ s);
  sr_acceptor : misused_accept (acceptor_ s) = false /\ accept_closed (acceptor_ s) = stopping_ s /\
    (stopping_ s = false -> accepting (acceptor_ s) = started_ s);
  sr_tasks k : k ∈ posted s -> task_ok s k
}.

Section Invariant.
Context {S : Type} {LS : LeaseService S} {LSL : LeaseServiceLaws S}.
Abbreviation System := (Shared S TlsTunnelServer * gmap Peer TlsTunnelSession)%type.

(** While the server stops, every open session has been told to; [x] is the
    session whose task is running. *)
Definition stops_ok (x : option Peer) (s : TlsTunnelServer) (p : Peer) (t : TlsTunnelSession) : Prop :=
  x <> Some p -> stopping_ s = true -> stopped_ t = false -> tally (is_stop p) (posted s) <> 0%nat.

Record session_in (x : option Peer) (w : Shared S TlsTunnelServer) (p : Peer) (t : TlsTunnelSession) : Prop := {
  si_peer : ts_peer t = p;
  si_metrics : has_metrics t = true;
  si_starts : (tally (is_start p) (posted (sh_host w)) <= 1)%nat;
  si_fresh : tally (is_start p) (posted (sh_host w)) <> 0%nat -> handshaking (stream_ t) = false;
  si_stop : stops_ok x (sh_host w) p t;
  si_shared : shared_ok w t;
  si_ok : tls_ok t;
  si_derived : derived w t
}.

(** Every accepted connection is open, or closed and counted; the sessions that
    are closed and not yet removed have their removal posted. *)
Definition balanced (w : Shared S TlsTunnelServer) : Prop :=
  accepted_connections (sh_metrics w) =
  u64 (closed_sessions (sh_metrics w) + Z.of_nat (size (sessions_ (sh_host w))) -
       Z.of_nat (tally is_any_remove (posted (sh_host w)))).

Record sys_okx (x : option Peer) (st : System) : Prop := {
  sy_leases : ls_ok (sh_leases st.1);
  sy_heap : dom st.2 = alive (sh_host st.1);
  sy_server : server_ok (sh_host st.1);
  sy_balanced : balanced st.1;
  sy_session p t : st.2 !! p = Some t -> session_in x st.1 p t
}.
Abbreviation sys_ok := (sys_okx None).

(** What a session sees of the server. *)
Record similar (p : Peer) (s s' : TlsTunnelServer) : Prop := {
  sm_alive : p ∈ alive s -> p ∈ alive s';
  sm_sessions : p ∈ sessions_ s' <-> p ∈ sessions_ s;
  sm_removals : tally (is_remove p) (posted s') = tally (is_remove p) (posted s);
  sm_owner a : owner (alive s') (router_ s') a = Some p <-> owner (alive s) (router_ s) a = Some p;
  sm_owner_v6 a : owner_v6 (alive s') (router_ s') a = Some p <-> owner_v6 (alive s) (router_ s) a = Some p
}.

Lemma similar_holds p l s s' : similar p s s' -> holds p l s -> holds p l s'.
Proof.
  intros Hs [A B]. split; intros a; [rewrite (sm_owner _ _ _ Hs)|rewrite (sm_owner_v6 _ _ _ Hs)]; [apply A|apply B].
Qed.
Lemma similar_opened p l s s' : similar p s s' -> opened p l s -> opened p l s'.
Proof.
  intros Hs ((H1 & H2 & H3) & Hh & Hl). split; [|split; [eapply similar_holds; eassumption|exact Hl]].
  split; [apply Hs, H1|]. split; [apply Hs, H2|]. rewrite (sm_removals _ _ _ Hs). exact H3.
Qed.
Lemma similar_gone p s s' : similar p s s' -> gone p s -> gone p s'.
Proof.
  intros Hs [Hh Hr]. split; [eapply similar_holds; eassumption|]. rewrite (sm_removals _ _ _ Hs), Hr.
  pose proof (sm_sessions _ _ _ Hs). do 2 case_decide; tauto.
Qed.
Lemma similar_session x x' w w' p t :
  similar p (sh_host w) (sh_host w') -> ls_ok (sh_leases w') ->
  (forall a, ls_ipv6 (sh_leases w') a = ls_ipv6 (sh_leases w) a) ->
  (tally (is_start p) (posted (sh_host w')) <= tally (is_start p) (posted (sh_host w)))%nat ->
  (shared_ok w t -> stops_ok x (sh_host w) p t -> stops_ok x' (sh_host w') p t) ->
  session_in x w p t -> session_in x' w' p t.
Proof.
  intros Hs Hl H6 Hst Hsp [Hp Hm H1 H2 H0 [H5 H3] H4 Hd].
  constructor; auto; [lia|intros ?; apply H2; lia|apply Hsp; [split; assumption|exact H0]| |
    apply (derived_keeps w w' t t); auto].
  split; [exact Hl|]. rewrite Hp in *. destruct (stopped_ t).
  - eapply similar_gone; eassumption.
  - eapply similar_opened; eassumption.
Qed.

Lemma served_similar q p s s' : p <> q -> served q s s' -> similar p s s'.
Proof.
  intros Hne (r & n & c & -> & H4 & H6 & _). constructor; cbn; auto.
  rewrite tally_app, tally_replicate. cbn. rewrite bool_decide_eq_false_2 by congruence. lia.
Qed.
Lemma served_starts q p s s' :
  served q s s' -> tally (is_start p) (posted s') = tally (is_start p) (posted s).
Proof. intros (r & n & c & -> & _). cbn. rewrite tally_app, tally_replicate. cbn. lia. Qed.

(** *** Events of a session *)

Lemma served_removals p s s' (t' : TlsTunnelSession) :
  served p s s' -> (if stopped_ t' then gone p s' else present p s') ->
  (forall k, k ∈ posted s' -> k ∈ posted s \/ k = RemoveSession p /\ p ∈ sessions_ s).
Proof.
  intros (r & n & c & -> & _) Ht k Hk. cbn in Hk. apply elem_of_app in Hk as [Hk|Hk]; [auto|right].
  apply elem_of_replicate in Hk as [-> Hn]. split; [reflexivity|].
  destruct (stopped_ t').
  - destruct Ht as [_ Ht]. cbn in Ht. case_decide; [assumption|].
    rewrite tally_app, tally_replicate, is_remove_self in Ht. lia.
  - apply Ht.
Qed.

(** A session that closes posts its removal, once. *)
Lemma served_tally p s s' (b b' : bool) :
  served p s s' -> (if b then gone p s else present p s) -> (if b' then gone p s' else present p s') ->
  (b = true -> b' = true) ->
  tally is_any_remove (posted s') = (tally is_any_remove (posted s) + if negb b && b' then 1 else 0)%nat.
Proof.
  intros (r & n & c & -> & _) Hb Hb' Hbb. cbn. rewrite tally_app, tally_replicate. cbn.
  assert (Hn : forall k, tally (is_remove p) (posted s ++ replicate n (RemoveSession p)) = k ->
    (tally (is_remove p) (posted s) + n = k)%nat)
    by (intros k; rewrite tally_app, tally_replicate, is_remove_self; auto).
  destruct b; cbn.
  - rewrite Hbb in Hb' by reflexivity. destruct Hb as [_ Hb], Hb' as [_ Hb']. apply Hn in Hb'. cbn in Hb'. lia.
  - destruct Hb as (_ & Hin & Hz). destruct b'.
    + destruct Hb' as [_ Hb']. apply Hn in Hb'. cbn in Hb'. rewrite decide_True in Hb' by exact Hin. lia.
    + destruct Hb' as (_ & _ & Hb'). apply Hn in Hb'. lia.
Qed.

Lemma u64_add_l a b : u64 (u64 a + b) = u64 (a + b).
Proof. apply Zplus_mod_idemp_l. Qed.

Lemma served_server p s s' :
  served p s s' -> p ∈ alive s -> (forall k, k ∈ posted s' -> k ∈ posted s \/ k = RemoveSession p /\ p ∈ sessions_ s) ->
  server_ok s -> server_ok s'.
Proof.
  intros (r & n & c & -> & _ & _ & Ho) Hp Hk [H1 H2 H3 H4 H5 H6 H7]. constructor; cbn; auto.
  intros k Hin. cbn in Hk. destruct (Hk k Hin) as [Hk'|[-> Hs]]; [exact (H7 k Hk')|].
  split; [discriminate|exact Hs].
Qed.

Lemma stop_event_stops w t r w' t' :
  has_close t = true \/ stopped_ t = true -> shared_ok w t -> run_event EvStop (w, t) = (r, (w', t')) -> stopped_ t' = true.
Proof.
  intros Hc Hsh E. destruct (stopped_ t) eqn:Est.
  - cbn [run_event] in E. unfold stop in E. rewrite close_now_stopped in E by exact Est. congruence.
  - destruct (close_now_eq w t (shared_closing _ _ Hsh Est) Est) as (w1 & E1 & _); [destruct Hc; congruence|].
    cbn [run_event] in E. unfold stop in E. rewrite E1 in E. injection E as _ _ <-. reflexivity.
Qed.
Lemma tls_ok_close t : tls_ok t -> has_close t = true \/ stopped_ t = true.
Proof.
  intros [[H _]|[[H _]|[(c & H & _)|H]]]; [left; apply (cl_handlers _ (sg_closable _ H))..
    |left; apply (cl_handlers _ (rn_closable _ _ _ H))|right; apply H].
Qed.

Lemma on_session_ok x w heap p t e :
  sys_okx x (w, heap) -> x = None \/ e = EvStop /\ x = Some p -> heap !! p = Some t -> possible e t ->
  (e = EvStart -> tally (is_start p) (posted (sh_host w)) = 0%nat) ->
  exists w' t', run_event e (w, t) = (Ok tt, (w', t')) /\ sys_ok (w', <[p := t']> heap) /\
    served p (sh_host w) (sh_host w') /\ effect (w, t) (w', t') /\
    accepted_connections (sh_metrics w') = accepted_connections (sh_metrics w).
Proof.
  intros [Hl Hd Hsv Hba Hses] Hx Ht Hp He. cbn [fst snd] in *. pose proof (Hses p t Ht) as [Hpeer Hm H1 H2 H0 Hsh Hok Hdv].
  pose proof (event_wp e w t Hsh Hok Hp) as Hw. destruct (run_event e (w, t)) as [r [w' t']] eqn:E.
  unfold wp in Hw. rewrite E in Hw. destruct Hw as ([] & Er & Hsh' & Hef & Hok'). cbn [fst snd] in *. subst r.
  destruct (run_event_frame p (served p (sh_host w)) (fun x h => served_sink p _ x h)
    (fun l h => served_established p _ l h) (fun l h => served_close p _ l h) e w t _ w' t' Hpeer E)
    as (Hpeer' & Hserved & Hacc & Hhs).
  specialize (Hserved (served_refl _ _)). exists w', t'. split_goal; auto.
  assert (Halive : p ∈ alive (sh_host w)) by (rewrite <- Hd; apply elem_of_dom; eauto).
  assert (Hkeep : if stopped_ t' then gone p (sh_host w') else present p (sh_host w')).
  { destruct Hsh' as [_ Hy]. rewrite Hpeer' in Hy. destruct (stopped_ t'); [exact Hy|apply Hy]. }
  assert (Hkeep0 : if stopped_ t then gone p (sh_host w) else present p (sh_host w)).
  { destruct Hsh as [_ Hy]. rewrite Hpeer in Hy. destruct (stopped_ t); [exact Hy|apply Hy]. }
  constructor; cbn [fst snd].
  - apply Hsh'.
  - rewrite dom_insert_lookup_L by eauto. destruct Hserved as (r & n & c & -> & _). exact Hd.
  - eapply served_server; eauto using served_removals.
  - pose proof (served_tally p _ _ _ _ Hserved Hkeep0 Hkeep (ef_stopped _ _ Hef)) as Htl.
    pose proof (ef_closed _ _ Hef) as Hcl. cbn [fst snd] in *. unfold balanced in *. rewrite Hacc, Hba, Htl, Hcl, Hm, andb_true_r.
    destruct Hserved as (r & n & c & -> & _). cbn [sessions_ put_calls put_posted put_router].
    destruct (negb (stopped_ t) && stopped_ t')%bool; [|f_equal; lia].
    symmetry. rewrite <- Z.add_sub_assoc, u64_add_l. f_equal. lia.
  - intros p2 t2 H. apply lookup_insert_Some in H as [[<- <-]|[Hne H]].
    + constructor; auto.
      * pose proof (ef_has _ _ Hef) as Hhas. cbn [snd] in Hhas. congruence.
      * rewrite (served_starts _ _ _ _ Hserved). exact H1.
      * rewrite (served_starts _ _ _ _ Hserved). intros Hn. apply Hhs; [|auto]. intros He'. auto.
      * intros _ Hst Hlive. assert (Hnx : x <> Some p).
        { intros ->. destruct Hx as [[=]|[-> _]].
          rewrite (stop_event_stops _ _ _ _ _ (tls_ok_close _ Hok) Hsh E) in Hlive. discriminate. }
        assert (Hlive0 : stopped_ t = false).
        { destruct (stopped_ t) eqn:E0; [|reflexivity]. pose proof (ef_stopped _ _ Hef E0) as Hy. cbn [snd] in Hy. congruence. }
        destruct Hserved as (r & n & c & Eh & _). rewrite Eh in Hst |- *. specialize (H0 Hnx Hst Hlive0).
        cbn [posted put_calls put_posted]. rewrite tally_app. intros ?. apply H0. lia.
      * exact (ef_derived _ _ Hef Hdv).
    + apply (similar_session x None w); [|apply Hsh'|exact (ef_ipv6 _ _ Hef)| | |auto].
      * eapply served_similar; eauto.
      * rewrite (served_starts _ _ _ _ Hserved). lia.
      * intros _ Hs2 _ Hst Hlive. assert (Hnx : x <> Some p2) by (destruct Hx as [->|[_ ->]]; congruence).
        destruct Hserved as (r & n & c & Eh & _). rewrite Eh in Hst |- *. specialize (Hs2 Hnx Hst Hlive).
        cbn [posted put_calls put_posted]. rewrite tally_app. intros ?. apply Hs2. lia.
Qed.

(** *** Handlers of the server *)

Lemma similar_refl p s : similar p s s.
Proof. constructor; auto; reflexivity. Qed.

(** A change of the server that the sessions do not notice. *)
Record unnoticed (s s' : TlsTunnelServer) : Prop := {
  un_alive : alive s' = alive s;
  un_sessions : sessions_ s' = sessions_ s;
  un_stopping : stopping_ s' = stopping_ s;
  un_removals f : (forall k, f k = true -> is_any_remove k = true) -> tally f (posted s') = tally f (posted s);
  un_starts p : (tally (is_start p) (posted s') <= tally (is_start p) (posted s))%nat;
  un_owner a : owner (alive s) (router_ s') a = owner (alive s) (router_ s) a;
  un_owner_v6 a : owner_v6 (alive s) (router_ s') a = owner_v6 (alive s) (router_ s) a
}.

Lemma unnoticed_similar p s s' : unnoticed s s' -> similar p s s'.
Proof.
  intros [H1 H2 H3 H4 H5 H6 H7]. constructor.
  - rewrite H1. auto.
  - rewrite H2. reflexivity.
  - apply H4. intros [] E; try discriminate. reflexivity.
  - intros a. rewrite H1, H6. reflexivity.
  - intros a. rewrite H1, H7. reflexivity.
Qed.

Lemma server_change x x' w heap s' m :
  sys_okx x (w, heap) -> server_ok s' -> unnoticed (sh_host w) s' ->
  accepted_connections m = accepted_connections (sh_metrics w) -> closed_sessions m = closed_sessions (sh_metrics w) ->
  (forall p t, stops_ok x (sh_host w) p t -> stops_ok x' s' p t) ->
  sys_okx x' (mkShared (sh_leases w) s' m, heap).
Proof.
  intros [Hl Hd Hsv Hba Hses] Hs Hsim Ha Hc Hst. constructor; cbn [fst snd sh_leases sh_host sh_metrics] in *; auto.
  - rewrite Hd. symmetry. apply Hsim.
  - unfold balanced in *. cbn. rewrite Ha, Hc, Hba, (un_sessions _ _ Hsim), (un_removals _ _ Hsim) by auto. reflexivity.
  - intros p t Ht. apply (similar_session x x' w); auto; [apply unnoticed_similar, Hsim|apply Hsim].
Qed.

(** A change that touches neither the router nor the tasks nor the sessions. *)
Lemma server_same x w heap s' m :
  sys_okx x (w, heap) -> server_ok s' ->
  alive s' = alive (sh_host w) -> sessions_ s' = sessions_ (sh_host w) -> stopping_ s' = stopping_ (sh_host w) ->
  posted s' = posted (sh_host w) -> router_ s' = router_ (sh_host w) ->
  accepted_connections m = accepted_connections (sh_metrics w) -> closed_sessions m = closed_sessions (sh_metrics w) ->
  sys_okx x (mkShared (sh_leases w) s' m, heap).
Proof.
  intros H Hs H1 H2 H3 H4 H5 Ha Hc. apply (server_change x); auto.
  - constructor; auto; rewrite ?H4, ?H5; auto.
  - intros p t. unfold stops_ok. rewrite H3, H4. auto.
Qed.

Lemma server_ok_posted s l :
  server_ok s -> (forall k, k ∈ l -> k ∈ posted s \/ task_ok s k) -> server_ok (put_posted l s).
Proof.
  intros [H1 H2 H3 H4 H5 H6 H7] Hl. constructor; auto. intros k Hk. destruct (Hl k Hk) as [Hk'|Hk']; [|exact Hk'].
  exact (H7 k Hk').
Qed.

Definition plain (k : Task) : Prop :=
  match k with RemoveSession _ | StartSession _ => False | _ => True end.

Lemma post_ok w heap k :
  plain k -> task_ok (sh_host w) k -> sys_ok (w, heap) ->
  sys_ok (on_server (post k) (w, heap)).2.
Proof.
  intros Hk Hok H. apply (server_change None); [exact H| | |reflexivity..|].
  - apply server_ok_posted; [apply H|]. intros j Hj. apply elem_of_app in Hj as [Hj|Hj%list_elem_of_singleton]; [auto|].
    subst j. auto.
  - constructor; cbn; auto.
    + intros f Hf. rewrite tally_app. cbn. destruct (f k) eqn:E; [apply Hf in E; destruct k; contradiction || discriminate|lia].
    + intros p. rewrite tally_app. destruct k; try contradiction; cbn; lia.
  - intros p t Hs Hx. cbn. rewrite tally_app. intros Hst Hl. specialize (Hs Hx Hst Hl). lia.
Qed.

Definition popped (l : list Task) (w : Shared S TlsTunnelServer) : Shared S TlsTunnelServer :=
  mkShared (sh_leases w) (put_posted l (sh_host w)) (sh_metrics w).

(** The session whose stop is being run. *)
Definition exempt (k : Task) : option Peer := match k with StopSession p => Some p | _ => None end.

Lemma pop_ok w heap before k after :
  posted (sh_host w) = before ++ k :: after -> is_any_remove k = false ->
  sys_ok (w, heap) -> sys_okx (exempt k) (popped (before ++ after) w, heap).
Proof.
  intros E Hk H. apply (server_change None); [exact H| | |reflexivity..|].
  - apply server_ok_posted; [apply H|]. intros j Hj. left. rewrite E. apply elem_of_app in Hj.
    apply elem_of_app. rewrite elem_of_cons. tauto.
  - constructor; cbn; auto.
    + intros f Hf. rewrite E, !tally_app. cbn. destruct (f k) eqn:Ef; [apply Hf in Ef; congruence|lia].
    + intros p. rewrite E, !tally_app. cbn. lia.
  - intros p t Hs Hx Hst Hl. cbn in Hst. specialize (Hs ltac:(discriminate) Hst Hl). cbn.
    rewrite E, tally_app in Hs. cbn in Hs. rewrite tally_app. destruct (is_stop p k) eqn:Ek; [|lia].
    destruct k; try discriminate. apply bool_decide_eq_true in Ek as ->. destruct (Hx eq_refl).
Qed.

(** Starting and stopping. *)
Lemma start_accepting_ok w heap :
  sys_ok (w, heap) -> exists s', start_accepting (sh_host w) = (Ok tt, s') /\
    sys_ok (mkShared (sh_leases w) s' (sh_metrics w), heap).
Proof.
  intros H. unfold start_accepting, bind at 1, get. destruct (started_ (sh_host w) || _)%bool eqn:E.
  { eexists. split; [reflexivity|]. destruct w; exact H. }
  apply orb_false_iff in E as [Est Esp]. pose proof (sy_server _ _ H) as [H1 H2 H3 H4 H5 (H6 & H7 & H8) H9]. cbn [fst] in *.
  eexists. split.
  { unfold bind, modify, call, accept_next, on_acceptor, get. cbn. rewrite Esp. reflexivity. }
  apply server_same; auto.
  constructor; cbn; auto. split_goal; [|exact H7|auto].
  rewrite H6, H7, H8, Est, Esp by exact Esp. reflexivity.
Qed.

Lemma stop_sessions_eq l s : stop_sessions l s = (Ok tt, put_posted (posted s ++ map StopSession l) s).
Proof.
  revert s. induction l as [|p l IH]; intros s; cbn [stop_sessions map].
  - rewrite app_nil_r. destruct s; reflexivity.
  - unfold bind, post, modify. rewrite IH. cbn. rewrite <- app_assoc. destruct s; reflexivity.
Qed.

Lemma stop_on_strand_eq s :
  stop_on_strand s = (Ok tt,
    if stopping_ s then s else
    mkServer (close_acceptor (acceptor_ s)) (tls_context_ s) (maximum_sessions_ s)
      (session_handshake_timeout_ s) (session_idle_timeout_ s) false (router_ s) (sessions_ s)
      (active_session_count_ s) (started_ s) true (alive s)
      (posted s ++ map StopSession (elements (sessions_ s)))
      (calls s ++ [TunStop] ++ if shutdown_handler_ s then [Shutdown] else [])).
Proof.
  unfold stop_on_strand, bind at 1, get. destruct (stopping_ s) eqn:E; [reflexivity|].
  unfold bind, modify, on_acceptor, call, modify. rewrite stop_sessions_eq. cbn.
  destruct (shutdown_handler_ s) eqn:Eh; cbn; rewrite <- ?app_assoc; [reflexivity|]. destruct s. cbn in *. subst. reflexivity.
Qed.

Lemma tally_stops f l : (forall p, f (StopSession p) = false) -> tally f (map StopSession l) = 0%nat.
Proof. intros Hf. induction l as [|p l IH]; cbn; [reflexivity|]. rewrite Hf, IH. reflexivity. Qed.

Lemma stop_ok w heap a :
  sys_ok (w, heap) -> misused_accept a = false -> accept_closed a = stopping_ (sh_host w) ->
  exists s', stop_on_strand (put_acceptor a (sh_host w)) = (Ok tt, s') /\
    sys_ok (mkShared (sh_leases w) s' (sh_metrics w), heap).
Proof.
  intros H Ha Hc. rewrite stop_on_strand_eq. eexists. split; [reflexivity|].
  pose proof (sy_server _ _ H) as [H1 H2 H3 H4 H5 (H6 & H7 & H8) H9]. cbn [fst] in *.
  cbn [stopping_ put_acceptor]. destruct (stopping_ (sh_host w)) eqn:E.
  - apply server_same; auto. constructor; cbn; auto. split_goal; auto; congruence.
  - constructor; cbn [fst snd sh_leases sh_host sh_metrics]; [apply H|apply H| | |].
    + constructor; cbn; auto; [split_goal; auto; discriminate|].
      intros k Hk. apply elem_of_app in Hk as [Hk|Hk]; [exact (H9 k Hk)|].
      apply list_elem_of_fmap in Hk as (p & -> & Hp). apply elem_of_elements in Hp.
      split; [|exact I]. intros q [= <-]. apply H4, Hp.
    + unfold balanced. cbn. rewrite tally_app, tally_stops by reflexivity. rewrite (sy_balanced _ _ H). cbn. f_equal. lia.
    + intros p t Ht. apply (similar_session None None w); [| |reflexivity|cbn| |apply H, Ht].
      * constructor; cbn; auto; try reflexivity. rewrite tally_app, tally_stops by reflexivity. lia.
      * apply H.
      * rewrite tally_app, tally_stops by reflexivity. lia.
      * intros [_ Hsh] _ _ _ Hl. cbn. rewrite tally_app.
        enough (tally (is_stop p) (map StopSession (elements (sessions_ (sh_host w)))) <> 0%nat) by lia.
        pose proof (si_peer _ _ _ _ (sy_session _ _ H p t Ht)) as Hpeer. rewrite Hl, Hpeer in Hsh.
        destruct Hsh as [(_ & Hin & _) _].
        enough (1 <= tally (is_stop p) (map StopSession (elements (sessions_ (sh_host w)))))%nat by lia.
        apply (tally_in _ (StopSession p)); [|apply bool_decide_eq_true; reflexivity].
        apply list_elem_of_fmap. exists p. split; [reflexivity|]. apply elem_of_elements, Hin.
Qed.

Lemma reload_ok w heap perm repl :
  sys_ok (w, heap) -> exists s', reload_tls_context perm repl (sh_host w) = (Ok tt, s') /\
    sys_ok (mkShared (sh_leases w) s' (sh_metrics w), heap).
Proof.
  intros H. pose proof (sy_server _ _ H) as [H1 H2 H3 H4 H5 H6 H7]. cbn [fst] in *.
  assert (Hgo : forall x c, sys_ok (mkShared (sh_leases w) (put_calls c (put_tls_context x (sh_host w))) (sh_metrics w), heap)).
  { intros x c. apply server_same; auto. constructor; cbn; auto. }
  unfold reload_tls_context, bind at 1, get.
  destruct (stopping_ (sh_host w)), perm as [[]|e], repl as [x|e2]; eexists; (split; [reflexivity|]);
    first [apply Hgo|apply (Hgo (tls_context_ (sh_host w)))].
Qed.

(** Removing session [p]. *)
Definition removed (p : Peer) (l : list Task) (s : TlsTunnelServer) : TlsTunnelServer :=
  put_sessions (sessions_ s ∖ {[p]}) (put_posted l s).

Lemma tally_popped f before k after :
  tally f (before ++ k :: after) = ((if f k then 1 else 0) + tally f (before ++ after))%nat.
Proof. rewrite !tally_app. cbn. lia. Qed.

(** A removal is posted once, for a session that has closed. *)
Lemma removal_once w heap before p after :
  posted (sh_host w) = before ++ RemoveSession p :: after -> sys_ok (w, heap) ->
  p ∈ sessions_ (sh_host w) /\ tally (is_remove p) (before ++ after) = 0%nat /\
  forall t, heap !! p = Some t -> stopped_ t = true.
Proof.
  intros E H. pose proof (sy_server _ _ H) as Hsv. cbn [fst] in Hsv.
  assert (Hin : RemoveSession p ∈ posted (sh_host w)).
  { rewrite E. apply elem_of_app. right. apply elem_of_cons. auto. }
  destruct (sr_tasks _ Hsv _ Hin) as [_ Hp]. split; [exact Hp|].
  pose proof (tally_popped (is_remove p) before (RemoveSession p) after) as Ht.
  rewrite is_remove_self, <- E in Ht.
  assert (Hstop : forall t, heap !! p = Some t -> stopped_ t = true /\ tally (is_remove p) (posted (sh_host w)) = 1%nat).
  { intros t Hpt. destruct (sy_session _ _ H p t Hpt) as [Hpeer _ _ _ _ [_ Hsh] _ _]. cbn [fst] in Hsh.
    rewrite Hpeer in Hsh. destruct (stopped_ t).
    - destruct Hsh as [_ ->]. rewrite decide_True by exact Hp. auto.
    - destruct Hsh as [(_ & _ & Hz) _]. lia. }
  split; [|intros t Hpt; apply Hstop, Hpt].
  assert (exists t, heap !! p = Some t) as [t Hpt].
  { apply elem_of_dom. pose proof (sy_heap _ _ H) as Hd. cbn [fst snd] in Hd. rewrite Hd. apply (sr_sessions _ Hsv), Hp. }
  destruct (Hstop t Hpt). lia.
Qed.

Lemma removed_server s before p after :
  posted s = before ++ RemoveSession p :: after -> tally (is_remove p) (before ++ after) = 0%nat ->
  p ∈ sessions_ s -> server_ok s -> server_ok (removed p (before ++ after) s).
Proof.
  intros E Hrest Hp [H1 H2 H3 H4 H5 H6 H7]. constructor; cbn; auto.
  - rewrite (size_removed p) in H2 by exact Hp. lia.
  - intros q [Hq _]%elem_of_removed. apply H4, Hq.
  - intros k Hk. assert (Hk' : k ∈ posted s).
    { rewrite E. apply elem_of_app in Hk. apply elem_of_app. rewrite elem_of_cons. tauto. }
    destruct (H7 k Hk') as [Ha Hb]. split; [exact Ha|]. destruct k; try exact Hb. cbn.
    apply elem_of_removed. split; [exact Hb|]. intros ->.
    pose proof (tally_in _ _ _ Hk (is_remove_self p)). lia.
Qed.

Lemma removed_session w before p after q t :
  posted (sh_host w) = before ++ RemoveSession p :: after -> tally (is_remove p) (before ++ after) = 0%nat ->
  (q = p -> stopped_ t = true) -> session_in None w q t ->
  session_in None (mkShared (sh_leases w) (removed p (before ++ after) (sh_host w)) (sh_metrics w)) q t.
Proof.
  intros E Hrest Hstop Hses.
  assert (Hst : (tally (is_start q) (before ++ after) <= tally (is_start q) (posted (sh_host w)))%nat)
    by (rewrite E, tally_popped; cbn; lia).
  assert (Hsp : stops_ok None (sh_host w) q t -> stops_ok None (removed p (before ++ after) (sh_host w)) q t).
  { intros Hs Hx Hg Hl. specialize (Hs Hx Hg Hl). rewrite E, tally_popped in Hs. exact Hs. }
  destruct (decide (q = p)) as [->|Hne].
  - destruct Hses as [Hpeer Hm Hs Hf Hst0 [Hls Hsh] Hok]. constructor; cbn; auto; [lia|intros ?; apply Hf; lia|].
    split; [exact Hls|]. rewrite Hstop, Hpeer in * by reflexivity. destruct Hsh as [Hh _]. split; [exact Hh|].
    cbn. rewrite Hrest, decide_False; [reflexivity|]. rewrite elem_of_removed. tauto.
  - apply (similar_session None None w); auto; [|apply Hses]. constructor; cbn; auto; try reflexivity.
    + rewrite elem_of_removed. tauto.
    + rewrite E, tally_popped. cbn. rewrite bool_decide_eq_false_2 by congruence. reflexivity.
Qed.

Lemma remove_ok w heap before p after :
  posted (sh_host w) = before ++ RemoveSession p :: after -> sys_ok (w, heap) ->
  exists s', remove_session p (sh_host (popped (before ++ after) w)) = (Ok tt, s') /\
    sys_ok (mkShared (sh_leases w) s' (sh_metrics w), heap).
Proof.
  intros E H. destruct (removal_once w heap before p after E H) as (Hp & Hrest & Hstop).
  exists (removed p (before ++ after) (sh_host w)). split.
  { unfold remove_session, bind, get, modify. cbn. rewrite bool_decide_eq_true_2 by exact Hp. reflexivity. }
  constructor; cbn [fst snd sh_leases sh_host sh_metrics]; [apply H|apply H| | |].
  - apply removed_server; auto. apply H.
  - pose proof (sy_balanced _ _ H) as Hba. unfold balanced in *. cbn [fst] in Hba. cbn.
    rewrite Hba, E, tally_popped, (size_removed p) by exact Hp. cbn. f_equal. lia.
  - intros q t Ht. apply (removed_session w before p after); auto; [intros ->; auto|]. apply H, Ht.
Qed.

(** A router operation that keeps every owner. *)
Lemma routed_ok w heap r :
  sys_ok (w, heap) -> all_alive (alive (sh_host w)) r ->
  (forall a, owner (alive (sh_host w)) r a = owner (alive (sh_host w)) (router_ (sh_host w)) a) ->
  (forall a, owner_v6 (alive (sh_host w)) r a = owner_v6 (alive (sh_host w)) (router_ (sh_host w)) a) ->
  sys_ok (mkShared (sh_leases w) (put_router r (sh_host w)) (sh_metrics w), heap).
Proof.
  intros H Ha H4 H6. pose proof (sy_server _ _ H) as []. apply (server_change None); auto.
  - constructor; cbn; auto.
  - constructor; cbn; auto.
Qed.

Lemma route_ipv4_alive al packet r :
  all_alive al r -> is_bytes packet -> all_alive al (route_ipv4_packet al packet r).2.
Proof.
  intros [A B] Hb. destruct (route_ipv4_eq al packet r Hb) as [[-> _]|[-> _]]; [|split; assumption].
  unfold find_peer. destruct (find_in _ _ _) as [p m] eqn:E. split; [|exact B].
  pose proof (find_in_all _ al (peers_ r) (address_key (slice packet 16 4)) A) as H. rewrite E in H. exact H.
Qed.
Lemma route_ipv6_alive al packet r :
  all_alive al r -> is_bytes packet -> all_alive al (route_ipv6_packet al packet r).2.
Proof.
  intros [A B] Hb. destruct (route_ipv6_eq al packet r Hb) as [[-> _]|[-> _]]; [|split; assumption].
  unfold find_v6. destruct (find_in _ _ _) as [p m] eqn:E. split; [exact A|].
  pose proof (find_in_all _ al (ipv6_peers_ r) (slice packet 24 16) B) as H. rewrite E in H. exact H.
Qed.

Lemma is_owner_alive al r a p : owner al r a = Some p -> p ∈ al.
Proof. unfold owner. destruct (_ !! _); cbn; [|discriminate]. rewrite lock_some. intros [<- ?]. assumption. Qed.
Lemma is_owner_v6_alive al r a p : owner_v6 al r a = Some p -> p ∈ al.
Proof. unfold owner_v6. destruct (_ !! _); cbn; [|discriminate]. rewrite lock_some. intros [<- ?]. assumption. Qed.

(** The session that a packet from the TUN device is for. *)
Definition destination_peer (s : TlsTunnelServer) (packet : bytes) : option Peer :=
  match (route_ipv4_packet (alive s) packet (router_ s)).1, (route_ipv6_packet (alive s) packet (router_ s)).1 with
  | Ok (Some p), _ => Some p
  | _, Ok (Some p) => Some p
  | _, _ => None
  end.

Lemma tun_packet_ok w heap packet :
  sys_ok (w, heap) -> is_bytes packet ->
  exists s', on_tun_packet packet (sh_host w) = (Ok tt, s') /\
    sys_ok (mkShared (sh_leases w) s' (sh_metrics w), heap).
Proof.
  intros H Hb. pose proof (sr_router _ (sy_server _ _ H)) as Ha. cbn [fst] in Ha. unfold on_tun_packet. destruct (_ && _)%bool.
  - destruct (route_ipv6_spec (alive (sh_host w)) packet (router_ (sh_host w)) Hb) as (Hp & H4 & H6).
    pose proof (route_ipv6_alive _ packet _ Ha Hb) as Hal. unfold bind, on_router.
    assert (Hr : exists o, (route_ipv6_packet (alive (sh_host w)) packet (router_ (sh_host w))).1 = Ok o).
    { destruct (route_ipv6_eq (alive (sh_host w)) packet (router_ (sh_host w)) Hb) as [[-> _]|[-> _]];
        [rewrite (proj1 (find_v6_owner _ _ _))|]; eauto. }
    destruct Hr as [o Ho]. destruct (route_ipv6_packet _ _ _) as [x r'] eqn:E. cbn [fst snd] in *. subst x.
    pose proof (routed_ok w heap r' H Hal H4 H6) as H'. destruct o as [p|]; (eexists; split; [reflexivity|]); [|exact H'].
    apply (post_ok _ heap (SendIpv6 p packet)) in H'; [exact H'|exact I|].
    split; [|exact Hb]. cbn. intros q [= <-]. destruct (proj1 (Hp p) eq_refl) as [_ Hown].
    eapply is_owner_v6_alive, Hown.
  - destruct (route_ipv4_spec (alive (sh_host w)) packet (router_ (sh_host w)) Hb) as (Hp & H4 & H6).
    pose proof (route_ipv4_alive _ packet _ Ha Hb) as Hal. unfold bind, on_router.
    assert (Hr : exists o, (route_ipv4_packet (alive (sh_host w)) packet (router_ (sh_host w))).1 = Ok o).
    { destruct (route_ipv4_eq (alive (sh_host w)) packet (router_ (sh_host w)) Hb) as [[-> _]|[-> _]];
        [rewrite (proj1 (find_peer_owner _ _ _))|]; eauto. }
    destruct Hr as [o Ho]. destruct (route_ipv4_packet _ _ _) as [x r'] eqn:E. cbn [fst snd] in *. subst x.
    pose proof (routed_ok w heap r' H Hal H4 H6) as H'. destruct o as [p|]; (eexists; split; [reflexivity|]); [|exact H'].
    apply (post_ok _ heap (SendIpv4 p packet)) in H'; [exact H'|exact I|].
    split; [|exact Hb]. cbn. intros q [= <-]. destruct (proj1 (Hp p) eq_refl) as [_ Hown].
    eapply is_owner_alive, Hown.
Qed.

(** *** New and destroyed sessions *)

Definition admitted (p : Peer) (s : TlsTunnelServer) : TlsTunnelServer :=
  put_posted (posted s ++ [StartSession p]) (put_sessions ({[p]} ∪ sessions_ s) (put_alive ({[p]} ∪ alive s) s)).

Definition new_session (p : Peer) (s : TlsTunnelServer) : TlsTunnelSession :=
  mkTls p true true true (session_handshake_timeout_ s) (session_idle_timeout_ s) true None decoder_init
    (mkQueue 256 1048576 0 []) None fresh_stream None false false false false.

Lemma make_new_session p s : server_ok s ->
  make_tls p true true true true 256 (Z.shiftl 1 20) (session_handshake_timeout_ s) (session_idle_timeout_ s) =
  Ok (new_session p s).
Proof.
  intros H. destruct (sr_timeouts _ H) as [H1 H2]. unfold make_tls.
  change (make_queue 256 (Z.shiftl 1 20)) with (Ok (mkQueue 256 1048576 0 [])). cbn [obind].
  rewrite (proj2 (Z.leb_gt _ _) H1), (proj2 (Z.leb_gt _ _) H2). reflexivity.
Qed.

Lemma absent_tally s f p :
  server_ok s -> p ∉ alive s -> (forall k, f k = true -> k = RemoveSession p \/ k = StartSession p) ->
  tally f (posted s) = 0%nat.
Proof.
  intros H Hp Hf. apply tally_zero, Forall_forall. intros k Hk. destruct (f k) eqn:E; [|reflexivity].
  destruct (sr_tasks _ H k Hk) as [H1 H2]. apply Hf in E as [->| ->].
  - destruct Hp. apply (sr_sessions _ H), H2.
  - destruct Hp. apply H1. reflexivity.
Qed.
Lemma absent_remove s p : server_ok s -> p ∉ alive s -> tally (is_remove p) (posted s) = 0%nat.
Proof.
  intros H Hp. apply (absent_tally s _ p); auto. intros [] E; try discriminate. cbn in E.
  apply bool_decide_eq_true in E as ->. auto.
Qed.
Lemma absent_start s p : server_ok s -> p ∉ alive s -> tally (is_start p) (posted s) = 0%nat.
Proof.
  intros H Hp. apply (absent_tally s _ p); auto. intros [] E; try discriminate. cbn in E.
  apply bool_decide_eq_true in E as ->. auto.
Qed.

Lemma all_alive_mono al al' r : al ⊆ al' -> all_alive al r -> all_alive al' r.
Proof. intros Hs [A B]. split; intros k q Hk; [destruct (A k q Hk)|]; eauto. Qed.

Lemma admitted_server s p :
  server_ok s -> p ∉ alive s -> Z.of_nat (size (sessions_ s)) < maximum_sessions_ s ->
  server_ok (admitted p s).
Proof.
  intros H Hp Hlt. pose proof H as [H1 H2 H3 H4 H5 H6 H7].
  constructor; cbn; auto.
  - rewrite size_added; [lia|]. intros Hin. apply Hp, H4, Hin.
  - intros q Hq. apply elem_of_added in Hq as [->|Hq]; apply elem_of_added; auto.
  - eapply all_alive_mono; [|exact H5]. apply added_subseteq.
  - intros k Hk. apply elem_of_app in Hk as [Hk|Hk%list_elem_of_singleton].
    + destruct (H7 k Hk) as [Ha Hb]. split; [intros q Hq; apply elem_of_union_r, Ha, Hq|].
      destruct k; try exact Hb. apply elem_of_union_r, Hb.
    + subst k. split; [|exact I]. intros q [= <-]. apply elem_of_added. auto.
Qed.

Lemma admitted_similar s p q :
  server_ok s -> p ∉ alive s -> q <> p -> similar q s (admitted p s).
Proof.
  intros H Hp Hne. pose proof (sr_router _ H) as Ha.
  assert (Ha' : all_alive ({[p]} ∪ alive s) (router_ s)) by (eapply all_alive_mono; [|exact Ha]; apply added_subseteq).
  constructor; cbn; [apply added_subseteq|rewrite elem_of_added; tauto| | |].
  - rewrite tally_app. cbn. lia.
  - intros a. rewrite !owner_alive by assumption. reflexivity.
  - intros a. rewrite !owner_v6_alive by assumption. reflexivity.
Qed.

Lemma admit_ok w heap p m : stopping_ (sh_host w) = false ->
  accepted_connections m = u64 (accepted_connections (sh_metrics w) + 1) ->
  closed_sessions m = closed_sessions (sh_metrics w) ->
  sys_ok (w, heap) -> heap !! p = None ->
  Z.of_nat (size (sessions_ (sh_host w))) < maximum_sessions_ (sh_host w) ->
  sys_ok (mkShared (sh_leases w) (admitted p (sh_host w)) m, <[p := new_session p (sh_host w)]> heap).
Proof.
  intros Hst Ha Hc [Hl Hd Hsv Hba Hses] Hp Hlt. cbn [fst snd] in *.
  assert (Hna : p ∉ alive (sh_host w)) by (rewrite <- Hd; apply not_elem_of_dom, Hp).
  constructor; cbn [fst snd sh_leases sh_host].
  - exact Hl.
  - rewrite dom_insert_L, Hd. reflexivity.
  - apply admitted_server; assumption.
  - unfold balanced in *. cbn. rewrite Ha, Hc, Hba, u64_add_l, tally_app, size_added.
    + cbn. f_equal. lia.
    + intros Hin. apply Hna, (sr_sessions _ Hsv), Hin.
  - intros q t Ht. apply lookup_insert_Some in Ht as [[<- <-]|[Hne Ht]].
    + assert (Htls : tls_ok (new_session p (sh_host w))).
      { apply (make_tls_ok p true true 256 (Z.shiftl 1 20) (session_handshake_timeout_ (sh_host w)) (session_idle_timeout_ (sh_host w)));
        [split; reflexivity || discriminate..|apply make_new_session, Hsv]. }
      constructor; cbn [ts_peer has_metrics new_session stream_ handshaking fresh_stream]; auto.
      * cbn. rewrite tally_app, (absent_start _ _ Hsv Hna). cbn. destruct (bool_decide _); lia.
      * intros _ Hx. cbn in Hx. congruence.
      * split; [exact Hl|]. cbn. split; [|split; [|discriminate]].
        { split; [apply elem_of_added; auto|]. split; [apply elem_of_added; auto|]. cbn.
          rewrite tally_app, (absent_remove _ _ Hsv Hna). reflexivity. }
        destruct (sr_router _ Hsv) as [A B].
        apply none_holds; intros a H; cbn in H.
        -- unfold owner in H. destruct (peers_ _ !! _) eqn:E; [|discriminate]. cbn in H.
           apply lock_some in H as [-> _]. apply Hna. eapply A, E.
        -- unfold owner_v6 in H. destruct (ipv6_peers_ _ !! _) eqn:E; [|discriminate]. cbn in H.
           apply lock_some in H as [-> _]. apply Hna. eapply B, E.
      * split; discriminate.
    + apply (similar_session None None w); auto; cbn [sh_host sh_leases].
      * apply admitted_similar; auto.
      * cbn. rewrite tally_app. cbn. rewrite bool_decide_eq_false_2 by congruence. lia.
      * intros _ _ _ Hx. cbn in Hx. congruence.
Qed.

Lemma destroy_ok w heap p t :
  sys_ok (w, heap) -> heap !! p = Some t -> p ∉ sessions_ (sh_host w) ->
  Forall (fun k => strand_of k <> Some p) (posted (sh_host w)) ->
  sys_ok (mkShared (sh_leases w) (put_alive (alive (sh_host w) ∖ {[p]}) (sh_host w)) (sh_metrics w), delete p heap).
Proof.
  intros [Hl Hd Hsv Hba Hses] Hp Hns Hk. cbn [fst snd] in *.
  assert (Hgone : gone p (sh_host w)).
  { destruct (Hses p t Hp) as [Hpeer _ _ _ _ [_ Hsh] _ _]. rewrite Hpeer in Hsh. destruct (stopped_ t); [exact Hsh|].
    destruct Hsh as [(_ & ? & _) _]. contradiction. }
  pose proof Hsv as [H1 H2 H3 H4 H5 H6 H7].
  assert (Hal : all_alive (alive (sh_host w) ∖ {[p]}) (router_ (sh_host w))).
  { destruct Hgone as [[G4 G6]%holds_none _]. destruct H5 as [A B].
    split; intros k q Hq; rewrite elem_of_difference, elem_of_singleton.
    - destruct (A k q Hq) as [Hq1 (a & ->)]. split; [|eauto]. split; [exact Hq1|]. intros ->.
      apply (G4 a). rewrite owner_alive by (split; assumption). exact Hq.
    - split; [eapply B, Hq|]. intros ->.
      apply (G6 k). rewrite owner_v6_alive by (split; assumption). exact Hq. }
  constructor; cbn [fst snd sh_leases sh_host].
  - exact Hl.
  - rewrite dom_delete_L, Hd. reflexivity.
  - constructor; cbn; auto.
    + intros q Hq. apply elem_of_difference. split; [apply H4, Hq|]. rewrite elem_of_singleton. congruence.
    + intros k Hin. destruct (H7 k Hin) as [Ha Hb]. split; [|exact Hb]. intros q Hq. cbn.
      apply elem_of_difference. split; [apply Ha, Hq|]. rewrite elem_of_singleton. intros ->.
      rewrite Forall_forall in Hk. exact (Hk k Hin Hq).
  - exact Hba.
  - intros q u Hu. apply lookup_delete_Some in Hu as [Hne Hu]. apply (similar_session None None w); auto.
    constructor; cbn; auto; try reflexivity.
    + intros Hq. apply elem_of_difference. split; [exact Hq|]. rewrite elem_of_singleton. congruence.
    + intros a. rewrite !owner_alive by assumption. reflexivity.
    + intros a. rewrite !owner_v6_alive by assumption. reflexivity.
Qed.

Lemma acceptor_again a :
  accepting a = true -> accept_closed a = false -> misused_accept a = false ->
  async_accept (accept_completes a) = a.
Proof. destruct a as [x y z]. cbn. intros -> -> ->. reflexivity. Qed.

(** Nothing changes but counters. *)
Lemma metrics_ok w heap m :
  accepted_connections m = accepted_connections (sh_metrics w) -> closed_sessions m = closed_sessions (sh_metrics w) ->
  sys_ok (w, heap) -> sys_ok (mkShared (sh_leases w) (sh_host w) m, heap).
Proof. intros Ha Hc H. apply server_same; auto. apply H. Qed.

Lemma accept_ok w heap error p :
  sys_ok (w, heap) -> accepting (acceptor_ (sh_host w)) = true -> heap !! p = None ->
  exists st', (let* _ := on_server (on_acceptor accept_completes) in handle_accept error p) (w, heap) = (Ok tt, st') /\
    sys_ok st'.
Proof.
  intros H Hac Hp. pose proof (sy_server _ _ H) as Hsv. cbn [fst] in Hsv.
  destruct (sr_acceptor _ Hsv) as (A1 & A2 & A3).
  unfold bind at 1, on_server at 1, on_acceptor at 1, modify at 1. cbn beta iota. cbn [sh_leases sh_host sh_metrics].
  set (s1 := put_acceptor _ _). unfold handle_accept, bind at 1, on_server at 1, get at 1. cbn beta iota.
  cbn [sh_leases sh_host sh_metrics]. change (stopping_ s1) with (stopping_ (sh_host w)).
  destruct (stopping_ (sh_host w)) eqn:Est.
  { eexists. split; [reflexivity|]. apply server_same; auto.
    destruct Hsv. constructor; cbn; auto. split_goal; auto; [congruence|]. intros; congruence. }
  assert (Hagain : forall s', stopping_ s' = false -> acceptor_ s' = accept_completes (acceptor_ (sh_host w)) ->
    accept_next s' = (Ok tt, put_acceptor (acceptor_ (sh_host w)) s')).
  { intros s' E1 E2. unfold accept_next, bind, get, on_acceptor, modify. rewrite E1, E2, acceptor_again; auto. }
  assert (Hsame : forall m, accepted_connections m = accepted_connections (sh_metrics w) ->
    closed_sessions m = closed_sessions (sh_metrics w) -> sys_ok (mkShared (sh_leases w) (put_acceptor (acceptor_ (sh_host w)) s1) m, heap)).
  { intros m Ha Hc. replace (put_acceptor _ s1) with (sh_host w) by (destruct (sh_host w); reflexivity). apply metrics_ok; assumption. }
  destruct error.
  - unfold bind at 1. change (maximum_sessions_ s1) with (maximum_sessions_ (sh_host w)).
    change (sessions_ s1) with (sessions_ (sh_host w)). destruct (_ <=? _) eqn:Ecap.
    + cbn [increment]. unfold on_server. cbn beta iota. rewrite Hagain by (auto; reflexivity).
      eexists. split; [reflexivity|]. apply Hsame; reflexivity.
    + unfold bind, increment, lift. cbn beta iota.
      change (session_handshake_timeout_ s1) with (session_handshake_timeout_ (sh_host w)).
      change (session_idle_timeout_ s1) with (session_idle_timeout_ (sh_host w)).
      rewrite make_new_session by exact Hsv. unfold allocate, on_server, modify, post, modify.
      cbn beta iota. rewrite Hagain by (auto; reflexivity). eexists. split; [reflexivity|].
      apply Z.leb_gt in Ecap. pose proof (admit_ok w heap p (fetch_add C_accepted_connections 1 (sh_metrics w)) Est eq_refl eq_refl H Hp Ecap) as Hx.
      replace (put_acceptor _ _) with (admitted p (sh_host w)) by (subst s1; destruct (sh_host w); reflexivity).
      exact Hx.
  - unfold on_server. cbn beta iota. rewrite Hagain by (auto; reflexivity). eexists. split; [reflexivity|]. apply Hsame; reflexivity.
  - unfold on_server. cbn beta iota.
    destruct (stop_ok w heap (accept_completes (acceptor_ (sh_host w))) H A1) as (s' & E & Hs'); [cbn; congruence|].
    cbn [sh_host]. fold s1 in E. rewrite E. eexists. split; [reflexivity|exact Hs'].
Qed.

(** *** Every step *)

Lemma on_server_ok {A} (m : M TlsTunnelServer A) w heap (P : System -> Prop) :
  (exists a s', m (sh_host w) = (Ok a, s') /\ P (mkShared (sh_leases w) s' (sh_metrics w), heap)) ->
  exists a st', on_server m (w, heap) = (Ok a, st') /\ P st'.
Proof. intros (a & s' & E & Hp). unfold on_server. rewrite E. eauto. Qed.

Lemma put_acceptor_same s : put_acceptor (acceptor_ s) s = s.
Proof. destruct s. reflexivity. Qed.

Lemma posted_task_ok w heap before k after :
  sys_ok (w, heap) -> posted (sh_host w) = before ++ k :: after ->
  task_ok (sh_host w) k /\ forall p, strand_of k = Some p -> exists t, heap !! p = Some t.
Proof.
  intros H E. assert (Hk : task_ok (sh_host w) k).
  { apply (sr_tasks _ (sy_server _ _ H)). cbn [fst]. rewrite E. apply elem_of_app. right. apply elem_of_cons. auto. }
  split; [exact Hk|]. intros p Hp. apply elem_of_dom. pose proof (sy_heap _ _ H) as Hd. cbn [fst snd] in Hd.
  rewrite Hd. apply Hk, Hp.
Qed.

Definition task_event (k : Task) (now : Z) : session_event :=
  match k with
  | StartSession _ => EvStart
  | SendIpv4 _ packet => EvTunIpv4 packet now
  | SendIpv6 _ packet => EvTunIpv6 packet now
  | _ => EvStop
  end.

Lemma session_task_ok w heap before k after now p :
  sys_ok (w, heap) -> posted (sh_host w) = before ++ k :: after -> strand_of k = Some p ->
  let wp := popped (before ++ after) w in
  exists t w' t', heap !! p = Some t /\ run_task k now = on_session p (task_event k now) /\
    run_event (task_event k now) (wp, t) = (Ok tt, (w', t')) /\ sys_ok (w', <[p := t']> heap) /\
    sys_okx (exempt k) (wp, heap) /\ served p (sh_host wp) (sh_host w') /\ effect (wp, t) (w', t').
Proof.
  intros H E Hp wp. destruct (posted_task_ok w heap before k after H E) as [Hk Hses].
  destruct (Hses p Hp) as [t Ht].
  assert (Hr : is_any_remove k = false) by (destruct k; first [reflexivity|discriminate]).
  pose proof (pop_ok w heap before k after E Hr H) as Hpop.
  assert (Hx : exempt k = None \/ task_event k now = EvStop /\ exempt k = Some p)
    by (destruct k; cbn in *; auto; injection Hp as <-; auto).
  assert (Hs : k = StartSession p ->
    tally (is_start p) (before ++ after) = 0%nat /\ handshaking (stream_ t) = false).
  { intros ->. destruct (sy_session _ _ H p t Ht) as [_ _ H1 H2 _ _ _]. cbn [fst] in *.
    rewrite E, tally_app in H1, H2. cbn in H1, H2. rewrite bool_decide_eq_true_2 in H1, H2 by reflexivity.
    rewrite tally_app. split; [lia|apply H2; lia]. }
  assert (Hpos : possible (task_event k now) t).
  { destruct k; try discriminate; injection Hp as ->; cbn; auto; [apply Hs; reflexivity|apply Hk..]. }
  assert (He : task_event k now = EvStart -> tally (is_start p) (posted (sh_host wp)) = 0%nat).
  { intros He. destruct k; try discriminate. injection Hp as ->. apply Hs. reflexivity. }
  destruct (on_session_ok _ wp heap p t _ Hpop Hx Ht Hpos He) as (w' & t' & Er & Hok & Hsv & Hef & _).
  exists t, w', t'. split_goal; auto. destruct k; try discriminate; injection Hp as ->; reflexivity.
Qed.

Lemma task_step_ok w heap before k after now :
  sys_ok (w, heap) -> posted (sh_host w) = before ++ k :: after ->
  exists st', run_task k now (popped (before ++ after) w, heap) = (Ok tt, st') /\ sys_ok st'.
Proof.
  intros H E. destruct (strand_of k) as [p|] eqn:Hp.
  { destruct (session_task_ok w heap before k after now p H E Hp) as (t & w' & t' & Ht & -> & Er & Hok & _).
    unfold on_session. rewrite Ht, Er. eauto. }
  assert (Hpop : is_any_remove k = false -> sys_okx (exempt k) (popped (before ++ after) w, heap))
    by (intros Hr; eapply pop_ok; eassumption).
  destruct k; try discriminate; cbn [run_task].
  - destruct (on_server_ok start_accepting (popped (before ++ after) w) heap sys_ok) as ([] & st' & Es & Hs);
      [destruct (start_accepting_ok _ _ (Hpop eq_refl)) as (s' & ? & ?)|]; eauto.
  - destruct (on_server_ok stop_on_strand (popped (before ++ after) w) heap sys_ok) as ([] & st' & Es & Hs); [|eauto].
    destruct (sr_acceptor _ (sy_server _ _ (Hpop eq_refl))) as (A1 & A2 & _).
    destruct (stop_ok _ _ _ (Hpop eq_refl) A1 A2) as (s' & Es & ?). rewrite put_acceptor_same in Es. eauto.
  - destruct (on_server_ok (reload_tls_context permissions replacement) (popped (before ++ after) w) heap sys_ok)
      as ([] & st' & Es & Hs); [destruct (reload_ok _ _ permissions replacement (Hpop eq_refl)) as (s' & ? & ?)|]; eauto.
  - destruct (on_server_ok (remove_session peer) (popped (before ++ after) w) heap sys_ok) as ([] & st' & Es & Hs);
      [destruct (remove_ok w heap before peer after E H) as (s' & ? & ?)|]; eauto.
Qed.

Lemma step_ok st r st' : sys_ok st -> step st r st' -> r = Ok tt /\ sys_ok st'.
Proof.
  intros H Hs. destruct Hs as [[w heap] k r st' Hk E|w heap before k after now r st' Ep _ E|
    w heap p t e r st' Ht Hio Hp E|w heap error p r st' Ha Hp E|[w heap] packet r st' Hb E|[w heap] r st' E|w heap p t Hp Hn _ Hk].
  - pose proof (post_ok w heap k) as Hx. rewrite E in Hx. split; [injection E as <- <-; reflexivity|].
    apply Hx; [destruct k; try contradiction; exact I| |exact H]. destruct k; try contradiction; (split; [discriminate|exact I]).
  - destruct (task_step_ok w heap before k after now H Ep) as (st1 & E1 & H1).
    assert ((Ok tt, st1) = (r, st')) as [= <- <-] by (rewrite <- E, <- E1; reflexivity). auto.
  - destruct (on_session_ok None w heap p t e H (or_introl eq_refl) Ht Hp) as (w' & t' & E1 & H1 & _); [intros ->; contradiction|].
    unfold on_session in E. rewrite Ht, E1 in E. injection E as <- <-. auto.
  - destruct (accept_ok w heap error p H Ha Hp) as (st1 & E1 & H1). rewrite E1 in E. injection E as <- <-. auto.
  - destruct (tun_packet_ok w heap packet H Hb) as (s' & E1 & H1). unfold on_server in E. rewrite E1 in E.
    injection E as <- <-. auto.
  - pose proof (post_ok w heap StopServer I) as Hx. unfold on_tun_error in E. rewrite E in Hx.
    split; [injection E as <- <-; reflexivity|]. apply Hx; [split; [discriminate|exact I]|exact H].
  - split; [reflexivity|]. eapply destroy_ok; eassumption.
Qed.

(** ** Reachable systems *)

(** [server->start] comes later: a new server is idle and has no sessions. *)
Inductive reachable : System -> Prop :=
| reachable_init leases context tun maximum shutdown handshake idle listening s :
    ls_ok leases -> in_u64 maximum ->
    make_server context tun maximum shutdown handshake idle listening = Ok s ->
    reachable (mkShared leases s empty_metrics, ∅)
| reachable_step st r st' : reachable st -> step st r st' -> reachable st'.

Lemma init_ok leases context tun maximum shutdown handshake idle listening s :
  ls_ok leases -> in_u64 maximum ->
  make_server context tun maximum shutdown handshake idle listening = Ok s ->
  sys_ok (mkShared leases s empty_metrics, ∅).
Proof.
  intros Hl Hm E. unfold make_server in E. destruct context as [c|]; [|discriminate].
  apply reject_then in E as [_ E]. apply reject_then in E as [Hz E]. apply reject_then in E as [Ht E].
  apply obind_ok in E as (u & _ & E). apply ok_inj in E as <-. apply orb_false_iff in Ht as [T1 T2].
  apply Z.eqb_neq in Hz. apply Z.leb_gt in T1, T2.
  constructor; cbn [fst snd sh_leases sh_host sh_metrics].
  - exact Hl.
  - reflexivity.
  - constructor; cbn; auto.
    + unfold in_u64 in Hm. rewrite size_empty. lia.
    + split; intros k q H; cbn in H; rewrite lookup_empty in H; discriminate.
    + intros k H. inversion H.
  - reflexivity.
  - intros p t H. rewrite lookup_empty in H. discriminate.
Qed.

Lemma reachable_ok st : reachable st -> sys_ok st.
Proof. induction 1 as [|st r st' _ IH Hs]; [eapply init_ok; eassumption|]. eapply step_ok; eassumption. Qed.

(** The lease that an established session holds, and the one that a session
    which only waits for its last frames to leave is still registered for. *)
Definition leased (heap : gmap Peer TlsTunnelSession) (p : Peer) (l : Lease) : Prop :=
  exists t c, heap !! p = Some t /\ stopped_ t = false /\ controller_ t = Some c /\
    sc_state c = Established /\ sc_lease c = Some l.
Definition draining (heap : gmap Peer TlsTunnelSession) (p : Peer) (l : Lease) : Prop :=
  exists t, heap !! p = Some t /\ stopped_ t = false /\ close_after_write_ t = true /\
    route_lease_ t = Some l.

(** An open session and the lease its routes are for. *)
Definition open_route (heap : gmap Peer TlsTunnelSession) (p : Peer) (l : Lease) : Prop :=
  exists t, heap !! p = Some t /\ stopped_ t = false /\ route_lease_ t = Some l.

Lemma session_holds w heap p t : sys_ok (w, heap) -> heap !! p = Some t ->
  holds p (if stopped_ t then None else route_lease_ t) (sh_host w) /\
  (forall l, stopped_ t = false -> route_lease_ t = Some l -> lease_shape l).
Proof.
  intros H Ht. destruct (sy_session _ _ H p t Ht) as [Hpeer _ _ _ _ [_ Hsh] _ _]. cbn [fst] in *.
  rewrite Hpeer in Hsh. destruct (stopped_ t).
  - split; [apply Hsh|discriminate].
  - destruct Hsh as (_ & Hh & Hl). split; [exact Hh|auto].
Qed.

Lemma owner_session w heap p a : sys_ok (w, heap) ->
  owner (alive (sh_host w)) (router_ (sh_host w)) a = Some p \/
  owner_v6 (alive (sh_host w)) (router_ (sh_host w)) a = Some p -> exists t, heap !! p = Some t.
Proof.
  intros H Ho. apply elem_of_dom. pose proof (sy_heap _ _ H) as Hd. cbn [fst snd] in Hd. rewrite Hd.
  destruct Ho as [Ho|Ho]; [eapply is_owner_alive|eapply is_owner_v6_alive]; exact Ho.
Qed.

Lemma owner_route w heap p a : sys_ok (w, heap) -> is_array 4 a ->
  owner (alive (sh_host w)) (router_ (sh_host w)) a = Some p <->
  exists l, open_route heap p l /\ l_address l = a.
Proof.
  intros H Ha. split.
  - intros Ho. destruct (owner_session w heap p a H) as [t Ht]; [auto|].
    destruct (session_holds w heap p t H Ht) as [[Hh _] Hl]. destruct (proj1 (Hh a) Ho) as (k & Hk & Hkey).
    destruct (stopped_ t) eqn:Es; [discriminate|]. exists k. split; [exists t; auto|].
    apply address_key_inj; auto. apply (Hl k); auto.
  - intros (l & (t & Ht & Hs & Hr) & <-). destruct (session_holds w heap p t H Ht) as [[Hh _] _].
    apply Hh. rewrite Hs. eauto.
Qed.
Lemma owner_v6_route w heap p a : sys_ok (w, heap) ->
  owner_v6 (alive (sh_host w)) (router_ (sh_host w)) a = Some p <->
  exists l, open_route heap p l /\ l_ipv6_address l = a /\ a <> no_ipv6.
Proof.
  intros Hok. split.
  - intros Ho. destruct (owner_session w heap p a Hok) as [t Ht]; [auto|].
    destruct (session_holds w heap p t Hok Ht) as [[_ Hh] _]. destruct (proj1 (Hh a) Ho) as (k & Hk & Hkey).
    destruct (stopped_ t) eqn:Es; [discriminate|]. exists k. split; [exists t; auto|exact Hkey].
  - intros (l & (t & Ht & Hs & Hr) & Hx). destruct (session_holds w heap p t Hok Ht) as [[_ Hh] _].
    apply Hh. rewrite Hs. eauto.
Qed.

(** *** Routes and leases *)

Definition same_addresses (l k : Lease) : Prop :=
  l_address l = l_address k /\ l_ipv6_address l = l_ipv6_address k.

(** What is registered is what is leased, up to the expiry and the generation. *)
Lemma route_leased w heap p l : sys_ok (w, heap) -> open_route heap p l ->
  exists k, (leased heap p k \/ draining heap p k) /\ same_addresses l k.
Proof.
  intros H (t & Ht & Hs & Hr). pose proof (sy_session _ _ H p t Ht) as [_ _ _ _ _ _ Hok Hd].
  destruct Hok as [[Hx _]|[[Hx _]|[(c & Hx & Hy)|Hx]]].
  1, 2: destruct (sg_flags _ Hx) as (_ & _ & Hn); congruence.
  - destruct (close_after_write_ t) eqn:Eca; [exists l; split; [right; exists t; auto|split; reflexivity]|].
    destruct Hy as (_ & Ho & Hf). unfold routes_for in Hf. rewrite Hr in Hf.
    destruct (sc_lease c) as [k|] eqn:Ek; [|contradiction]. pose proof (rn_controller _ _ _ Hx) as Hc.
    exists k. split; [left; exists t, c; split_goal; auto|].
    + apply (so_lease _ (cl_session _ (rn_closable _ _ _ Hx) c Hc)). eauto.
    + destruct Hd as [Hdc Hdr]. split; [exact Hf|]. rewrite (Hdr l Hr), (Hdc c k Hc Ek), Hf. reflexivity.
  - rewrite (ov_stopped _ Hx) in Hs. discriminate.
Qed.
Lemma leased_route w heap p k : sys_ok (w, heap) -> leased heap p k \/ draining heap p k ->
  exists l, open_route heap p l /\ same_addresses l k.
Proof.
  intros H [(t & c & Ht & Hs & Hc & Hst & Hk)|(t & Ht & Hs & _ & Hr)];
    [|exists k; split; [exists t; auto|split; reflexivity]].
  pose proof (sy_session _ _ H p t Ht) as [_ _ _ _ _ _ Hok Hd].
  destruct Hok as [[Hx _]|[[Hx _]|[(c' & Hx & Hy)|Hx]]].
  1, 2: rewrite (sg_controller _ Hx) in Hc; discriminate.
  - assert (c' = c) as -> by (pose proof (rn_controller _ _ _ Hx); congruence).
    destruct (close_after_write_ t); [destruct Hy as (_ & _ & Hy); destruct Hy; right; exact Hst|].
    destruct Hy as (_ & _ & Hf). unfold routes_for in Hf. rewrite Hk in Hf.
    destruct (route_lease_ t) as [l|] eqn:Hr; [|contradiction]. exists l. split; [exists t; auto|].
    destruct Hd as [Hdc Hdr]. split; [exact Hf|]. rewrite (Hdr l Hr), (Hdc c k Hc Hk), Hf. reflexivity.
  - rewrite (ov_stopped _ Hx) in Hs. discriminate.
Qed.

(** ** Properties *)

(** C18: the routes of the server are exactly the addresses its sessions have
    leased, in every reachable state of the whole system: an IPv4 or IPv6
    address leads to a session when and only when the session is established
    and its controller holds a lease of that address, or has been ended and
    waits for its last frames to leave.  So no two of these share an address,
    nothing leads to a closed or destroyed session, and a packet from the TUN
    device is only ever posted to the session that has its destination. *)
Theorem routes_follow_sessions w heap :
  reachable (w, heap) ->
  let s := sh_host w in
  (forall p a, is_array 4 a ->
     owner (alive s) (router_ s) a = Some p <->
     exists l, (leased heap p l \/ draining heap p l) /\ l_address l = a) /\
  (forall p a, owner_v6 (alive s) (router_ s) a = Some p <->
     exists l, (leased heap p l \/ draining heap p l) /\ l_ipv6_address l = a /\ a <> no_ipv6) /\
  (forall p q l k, leased heap p l \/ draining heap p l -> leased heap q k \/ draining heap q k ->
     l_address l = l_address k -> p = q) /\
  (forall packet k, is_bytes packet -> k ∈ posted (on_tun_packet packet s).2 ->
     k ∈ posted s \/ exists p l, (leased heap p l \/ draining heap p l) /\
       (k = SendIpv4 p packet /\ slice packet 16 4 = l_address l \/
        k = SendIpv6 p packet /\ slice packet 24 16 = l_ipv6_address l)).
Proof.
  intros H%reachable_ok s. split; [|split; [|split]].
  - intros p a Ha. unfold s. rewrite (owner_route w heap p a H Ha). split.
    + intros (l & Hl & <-). destruct (route_leased w heap p l H Hl) as (k & Hk & -> & _). eauto.
    + intros (l & Hl & <-). destruct (leased_route w heap p l H Hl) as (k & Hk & E & _). eauto.
  - intros p a. unfold s. rewrite (owner_v6_route w heap p a H). split.
    + intros (l & Hl & <- & Hn). destruct (route_leased w heap p l H Hl) as (k & Hk & _ & E). exists k. split_goal; auto.
    + intros (l & Hl & <- & Hn). destruct (leased_route w heap p l H Hl) as (k & Hk & _ & E). exists k. split_goal; auto.
  - intros p q l k Hl Hk E.
    destruct (leased_route w heap p l H Hl) as (l' & (t & Ht & Hs & Hr) & El & _).
    destruct (leased_route w heap q k H Hk) as (k' & (u & Hu & Hsu & Hru) & Ek & _).
    destruct (session_holds w heap p t H Ht) as [[Hp _] _], (session_holds w heap q u H Hu) as [[Hq _] _].
    rewrite Hs in Hp. rewrite Hsu in Hq.
    assert (owner (alive s) (router_ s) (l_address l) = Some p) by (apply Hp; rewrite <- El; eauto).
    assert (owner (alive s) (router_ s) (l_address l) = Some q) by (apply Hq; rewrite E, <- Ek; eauto). congruence.
  - intros packet k Hb. unfold on_tun_packet. destruct (_ && _)%bool; unfold bind, on_router.
    + destruct (route_ipv6_spec (alive s) packet (router_ s) Hb) as (Hp & _).
      destruct (route_ipv6_packet _ _ _) as [[[p|]|e] r'] eqn:E; cbn; auto.
      intros Hk. apply elem_of_app in Hk as [Hk|Hk%list_elem_of_singleton]; [auto|]. subst k. right.
      destruct (proj1 (Hp p) eq_refl) as [_ Ho]. apply (owner_v6_route w heap) in Ho as (l & Hl & Ha & _); [|exact H].
      destruct (route_leased w heap p l H Hl) as (k & Hk & _ & E6). exists p, k. split; [exact Hk|]. right. rewrite <- E6. auto.
    + destruct (route_ipv4_spec (alive s) packet (router_ s) Hb) as (Hp & _).
      destruct (route_ipv4_packet _ _ _) as [[[p|]|e] r'] eqn:E; cbn; auto.
      intros Hk. apply elem_of_app in Hk as [Hk|Hk%list_elem_of_singleton]; [auto|]. subst k. right.
      destruct (proj1 (Hp p) eq_refl) as [[Hlen _ _ _] Ho]. apply (owner_route w heap) in Ho as (l & Hl & Ha); [|exact H|].
      * destruct (route_leased w heap p l H Hl) as (k & Hk & E4 & _). exists p, k. split; [exact Hk|]. left. rewrite <- E4. auto.
      * split; [apply is_bytes_slice, Hb|]. rewrite zlen_slice by lia. lia.
Qed.

(** C19: no step of the whole system throws out of its handler, which would end
    the event loop, or misuses the acceptor or a stream; the server never has
    more sessions than its maximum, never loses an open one, and keeps a
    closed one only while its removal is posted; every accepted connection is
    still a session or has been counted as closed; and while it runs it is
    always accepting. *)
Theorem sessions_accounted w heap r st' :
  reachable (w, heap) -> step (w, heap) r st' ->
  let s := sh_host w in
  r = Ok tt /\
  misused_accept (acceptor_ s) = false /\ (forall p t, heap !! p = Some t -> misused (stream_ t) = false) /\
  active_session_count_ s = Z.of_nat (size (sessions_ s)) /\ active_session_count_ s <= maximum_sessions_ s /\
  (forall p t, heap !! p = Some t -> stopped_ t = false -> p ∈ sessions_ s) /\
  (forall p, p ∈ sessions_ s ->
     exists t, heap !! p = Some t /\ (stopped_ t = true -> RemoveSession p ∈ posted s)) /\
  accepted_connections (sh_metrics w) =
    u64 (closed_sessions (sh_metrics w) + active_session_count_ s - Z.of_nat (tally is_any_remove (posted s))) /\
  (started_ s = true -> stopping_ s = false -> accepting (acceptor_ s) = true).
Proof.
  intros H%reachable_ok Hstep s. destruct (step_ok _ _ _ H Hstep) as [-> _].
  pose proof (sy_server _ _ H) as [H1 H2 _ H4 _ (A1 & _ & A3) _]. cbn [fst] in *. fold s in H1, H2, H4, A1, A3.
  split_goal; auto.
  - intros p t Ht. destruct (si_ok _ _ _ _ (sy_session _ _ H p t Ht)) as [[Hx _]|[[Hx _]|[(c & Hx & _)|Hx]]];
      [apply (sg_closable _ Hx)..|apply (rn_closable _ _ _ Hx)|apply (ov_safe _ Hx)].
  - lia.
  - intros p t Ht Hl. destruct (sy_session _ _ H p t Ht) as [Hpeer _ _ _ _ [_ Hsh] _ _].
    rewrite Hl, Hpeer in Hsh. apply Hsh.
  - intros p Hp. assert (exists t, heap !! p = Some t) as [t Ht].
    { apply elem_of_dom. pose proof (sy_heap _ _ H) as Hd. cbn [fst snd] in Hd. rewrite Hd. apply H4, Hp. }
    exists t. split; [exact Ht|]. intros Hl. destruct (sy_session _ _ H p t Ht) as [Hpeer _ _ _ _ [_ Hsh] _ _].
    rewrite Hl, Hpeer in Hsh. destruct Hsh as [_ Hr]. rewrite decide_True in Hr by exact Hp. cbn [fst] in Hr. fold s in Hr.
    destruct (tally_found (is_remove p) (posted s)) as (k & Hk & Ek); [lia|].
    destruct k; try discriminate. apply bool_decide_eq_true in Ek as ->. exact Hk.
  - rewrite H1. exact (sy_balanced _ _ H).
  - intros Hst Hsp. rewrite A3; auto.
Qed.

(** ** Draining *)

(** Only the tasks already posted run, oldest first. *)
Definition run_oldest (now : Z) (st : System) : System :=
  match posted (sh_host st.1) with
  | [] => st
  | k :: rest => (run_task k now (popped rest st.1, st.2)).2
  end.
Fixpoint drain (fuel : nat) (now : Z) (st : System) : System :=
  match fuel with
  | O => st
  | Datatypes.S fuel => drain fuel now (run_oldest now st)
  end.

(** A session that is told something posts at most its removal. *)
Fixpoint work (l : list Task) : nat :=
  match l with
  | [] => 0
  | k :: l => (if is_any_remove k then 1 else 2) + work l
  end.

Lemma work_app l k : work (l ++ k) = (work l + work k)%nat.
Proof. induction l; cbn; lia. Qed.

Lemma run_oldest_step now st :
  posted (sh_host st.1) <> [] -> exists r, step st r (run_oldest now st).
Proof.
  destruct st as [w heap]. cbn [fst]. unfold run_oldest. cbn [fst snd].
  destruct (posted (sh_host w)) as [|k rest] eqn:E; [contradiction|]. intros _.
  destruct (run_task k now (popped rest w, heap)) as [r st'] eqn:Er. exists r. cbn [snd].
  apply (step_task w heap [] k rest now r st'); [exact E|constructor|exact Er].
Qed.

Lemma session_work x w heap p t w' t' :
  sys_okx x (w, heap) -> heap !! p = Some t ->
  served p (sh_host w) (sh_host w') -> effect (w, t) (w', t') -> sys_ok (w', <[p := t']> heap) ->
  stopping_ (sh_host w') = stopping_ (sh_host w) /\
  (work (posted (sh_host w')) <= work (posted (sh_host w)) + 1)%nat.
Proof.
  intros H Ht Hs Hef H'. destruct (sy_session _ _ H p t Ht) as [Hpeer _ _ _ _ [_ Hsh] _ _].
  destruct (sy_session _ _ H' p t') as [Hpeer' _ _ _ _ [_ Hsh'] _ _]; [apply lookup_insert_eq|].
  cbn [fst snd] in *. rewrite Hpeer in Hsh. rewrite Hpeer' in Hsh'.
  assert (Htl : tally is_any_remove (posted (sh_host w')) =
    (tally is_any_remove (posted (sh_host w)) + if negb (stopped_ t) && stopped_ t' then 1 else 0)%nat).
  { eapply served_tally; [exact Hs| | |apply (ef_stopped _ _ Hef)].
    - destruct (stopped_ t); [exact Hsh|apply Hsh].
    - destruct (stopped_ t'); [exact Hsh'|apply Hsh']. }
  destruct Hs as (r & n & c & E & _). rewrite E in Htl |- *. cbn in Htl |- *. split; [reflexivity|].
  rewrite tally_app, tally_replicate in Htl. cbn in Htl.
  rewrite work_app. assert (n <= 1)%nat by (destruct (_ && _)%bool; lia). destruct n as [|[|n]]; cbn; lia.
Qed.

Lemma reload_stopping perm repl s : stopping_ s = true ->
  reload_tls_context perm repl s = (Ok tt, put_calls (calls s ++ [Reloaded false]) s).
Proof. intros H. unfold reload_tls_context, bind, get. rewrite H. reflexivity. Qed.

Lemma run_oldest_work now st :
  sys_ok st -> stopping_ (sh_host st.1) = true -> posted (sh_host st.1) <> [] ->
  stopping_ (sh_host (run_oldest now st).1) = true /\
  (work (posted (sh_host (run_oldest now st).1)) < work (posted (sh_host st.1)))%nat.
Proof.
  destruct st as [w heap]. intros H Hst. cbn [fst] in *. unfold run_oldest. cbn [fst snd].
  destruct (posted (sh_host w)) as [|k rest] eqn:E; [contradiction|]. intros _.
  destruct (strand_of k) as [p|] eqn:Hp.
  { destruct (session_task_ok w heap [] k rest now p H E Hp) as (t & w' & t' & Ht & -> & Er & Hok & Hpop & Hs & Hef).
    unfold on_session. cbn [app] in *. rewrite Ht, Er. cbn [fst snd].
    destruct (session_work _ _ heap p t w' t' Hpop Ht Hs Hef Hok) as [-> Hw].
    split; [exact Hst|]. cbn in Hw |- *. destruct k; try discriminate; cbn; lia. }
  assert (Hsame : forall s' heap', stopping_ s' = true -> posted s' = rest ->
    stopping_ (sh_host (mkShared (sh_leases w) s' (sh_metrics w), heap' : gmap Peer TlsTunnelSession).1) = true /\
    (work (posted (sh_host (mkShared (sh_leases w) s' (sh_metrics w), heap').1)) < work (k :: rest))%nat).
  { intros s' heap' Hs' Hp'. cbn [fst sh_host]. rewrite Hs', Hp'. split; [reflexivity|].
    cbn. destruct (is_any_remove k); lia. }
  destruct k; try discriminate; cbn [run_task]; unfold on_server, popped; cbn [sh_host sh_leases sh_metrics].
  - unfold start_accepting, bind, get. cbn [stopping_ started_ put_posted]. rewrite Hst, orb_true_r.
    apply (Hsame _ heap); auto.
  - rewrite stop_on_strand_eq. cbn [stopping_ put_posted]. rewrite Hst. apply (Hsame _ heap); auto.
  - rewrite reload_stopping by exact Hst. apply (Hsame _ heap); auto.
  - unfold remove_session, bind, get, modify. case_bool_decide; apply (Hsame _ heap); auto.
Qed.

Lemma drain_empties now : forall fuel st,
  reachable st -> stopping_ (sh_host st.1) = true -> (work (posted (sh_host st.1)) <= fuel)%nat ->
  reachable (drain fuel now st) /\ stopping_ (sh_host (drain fuel now st).1) = true /\
  posted (sh_host (drain fuel now st).1) = [].
Proof.
  induction fuel as [|fuel IH]; intros st H Hst Hf; cbn [drain].
  - split_goal; auto. destruct (posted _) as [|k l]; [reflexivity|]. cbn in Hf. destruct (is_any_remove k); lia.
  - destruct (posted (sh_host st.1)) as [|k l] eqn:E.
    + assert (run_oldest now st = st) as -> by (unfold run_oldest; rewrite E; reflexivity).
      apply IH; auto. rewrite E. cbn. lia.
    + assert (Hne : posted (sh_host st.1) <> []) by congruence.
      destruct (run_oldest_step now st Hne) as [r Hr].
      destruct (run_oldest_work now st (reachable_ok _ H) Hst Hne) as [Hst' Hw].
      apply IH; [econstructor; eassumption|exact Hst'|]. rewrite E in Hw. lia.
Qed.

Lemma stopped_empty st :
  sys_ok st -> stopping_ (sh_host st.1) = true -> posted (sh_host st.1) = [] ->
  sessions_ (sh_host st.1) = ∅ /\ forall p t, st.2 !! p = Some t -> stopped_ t = true.
Proof.
  intros H Hst E.
  assert (Hall : forall p t, st.2 !! p = Some t -> stopped_ t = true).
  { intros p t Ht. destruct (stopped_ t) eqn:Es; [reflexivity|].
    destruct (si_stop _ _ _ _ (sy_session _ _ H p t Ht) ltac:(discriminate) Hst Es). rewrite E. reflexivity. }
  split; [|exact Hall]. apply set_eq. intros p. split; [|intros Hp; destruct (not_elem_of_empty p Hp)]. intros Hp.
  assert (exists t, st.2 !! p = Some t) as [t Ht].
  { apply elem_of_dom. rewrite (sy_heap _ _ H). apply (sr_sessions _ (sy_server _ _ H)), Hp. }
  destruct (sy_session _ _ H p t Ht) as [Hpeer _ _ _ _ [_ Hsh] _ _]. rewrite Hpeer, (Hall p t Ht) in Hsh.
  destruct Hsh as [_ Hr]. rewrite E, decide_True in Hr by exact Hp. discriminate.
Qed.

(** C20: stopping ends.  Once the server is stopping, running the tasks that
    are posted, oldest first, comes to an end after at most two per posted
    task, without waiting for any client; then every session is closed and
    removed, no route is left, every accepted connection has been counted as
    closed, and the server never accepts again. *)
Theorem server_drains st now :
  reachable st -> stopping_ (sh_host st.1) = true ->
  let st' := drain (2 * length (posted (sh_host st.1))) now st in
  let s := sh_host st'.1 in
  reachable st' /\ posted s = [] /\ sessions_ s = ∅ /\ active_session_count_ s = 0 /\
  (forall p t, st'.2 !! p = Some t -> stopped_ t = true) /\
  (forall a p, owner (alive s) (router_ s) a <> Some p) /\
  (forall a p, owner_v6 (alive s) (router_ s) a <> Some p) /\
  accepted_connections (sh_metrics st'.1) = u64 (closed_sessions (sh_metrics st'.1)) /\
  accept_next s = (Ok tt, s).
Proof.
  intros H Hst st' s.
  assert (Hf : (work (posted (sh_host st.1)) <= 2 * length (posted (sh_host st.1)))%nat).
  { induction (posted (sh_host st.1)) as [|k l IH]; cbn in *; [lia|]. destruct (is_any_remove k); lia. }
  destruct (drain_empties now _ st H Hst Hf) as (Hr & Hs & Hp). fold st' in Hr, Hs, Hp. fold s in Hs, Hp.
  pose proof (reachable_ok _ Hr) as Hok. destruct (stopped_empty _ Hok Hs Hp) as [He Hall]. fold s in He.
  pose proof (sr_count _ (sy_server _ _ Hok)) as Hc. fold s in Hc. rewrite He, size_empty in Hc.
  assert (Hn : forall p, holds p None s \/ st'.2 !! p = None).
  { intros p. destruct (st'.2 !! p) as [t|] eqn:Ht; [left|auto]. rewrite (surjective_pairing st') in Hok.
    pose proof (session_holds _ _ p t Hok Ht) as [Hh _]. rewrite (Hall p t Ht) in Hh. exact Hh. }
  rewrite (surjective_pairing st') in Hok.
  split_goal; auto.
  - intros a p Ho. destruct (Hn p) as [Hh|Hnone]; [apply (proj1 (holds_none _ _ Hh) a Ho)|].
    destruct (owner_session _ _ p a Hok) as [t Ht]; [left; exact Ho|congruence].
  - intros a p Ho. destruct (Hn p) as [Hh|Hnone]; [apply (proj2 (holds_none _ _ Hh) a Ho)|].
    destruct (owner_session _ _ p a Hok) as [t Ht]; [right; exact Ho|congruence].
  - pose proof (sy_balanced _ _ Hok) as Hb. unfold balanced in Hb. cbn [fst] in Hb. fold s in Hb.
    rewrite He, Hp, size_empty in Hb. etransitivity; [exact Hb|]. f_equal. cbn [tally]. lia.
  - unfold accept_next, bind, get. rewrite Hs. reflexivity.
Qed.
End Invariant.

(** ** Witnesses: a server with one client *)

Inductive move :=
| MCall (k : Task)
| MOldest
| MIo (peer : Peer) (e : session_event)
| MAccept (peer : Peer).

Section Moves.
Context {S : Type} {LS : LeaseService S} {LSL : LeaseServiceLaws S}.
Abbreviation System := (Shared S TlsTunnelServer * gmap Peer TlsTunnelSession)%type.

Definition make_move (m : move) (st : System) : System :=
  match m with
  | MCall k => (on_server (post k) st).2
  | MOldest => run_oldest 0 st
  | MIo peer e => (on_session peer e st).2
  | MAccept peer => ((let* _ := on_server (on_acceptor accept_completes) in handle_accept Accepted peer) st).2
  end.
(** Whether a move is a step of the system. *)
Definition io_possible (e : session_event) (s : Stream) : bool :=
  match e with
  | EvHandshake _ _ => handshaking s
  | EvRead _ data _ => reading s && bool_decide (is_bytes data)
  | EvWrite _ => bool_decide (is_Some (writing s))
  | EvHandshakeDeadline _ | EvIdleDeadline _ => true
  | _ => false
  end.
Definition move_ok (m : move) (st : System) : bool :=
  match m with
  | MCall StartServer | MCall StopServer => true
  | MCall _ => false
  | MOldest => negb (Nat.eqb (length (posted (sh_host st.1))) 0)
  | MIo peer e => match st.2 !! peer with Some t => io_possible e (stream_ t) | None => false end
  | MAccept peer => accepting (acceptor_ (sh_host st.1)) && bool_decide (st.2 !! peer = None)
  end.
Fixpoint make_moves (ms : list move) (st : System) : System :=
  match ms with
  | [] => st
  | m :: ms => make_moves ms (make_move m st)
  end.
Fixpoint moves_ok (ms : list move) (st : System) : bool :=
  match ms with
  | [] => true
  | m :: ms => move_ok m st && moves_ok ms (make_move m st)
  end.

Lemma io_possible_ok e s t : stream_ t = s -> io_possible e s = true -> io_event e /\ possible e t.
Proof.
  intros <-. destruct e; cbn; try discriminate; auto.
  - intros [H1 H2%bool_decide_eq_true]%andb_true_iff. auto.
  - intros H%bool_decide_eq_true. auto.
Qed.

Lemma move_step m st : move_ok m st = true -> exists r, step st r (make_move m st).
Proof.
  destruct st as [w heap], m as [k| |p e|p]; cbn [move_ok make_move fst snd].
  - intros Hk. destruct (on_server (post k) (w, heap)) as [r st'] eqn:E. exists r.
    apply (step_call _ k r st'); [destruct k; discriminate || exact I|exact E].
  - intros H. apply (run_oldest_step 0 (w, heap)). cbn [fst]. destruct (posted (sh_host w)); discriminate.
  - destruct (heap !! p) as [t|] eqn:Ht; [|discriminate]. intros H. apply (io_possible_ok e _ t) in H as [Hio Hp]; [|reflexivity].
    destruct (on_session p e (w, heap)) as [r st'] eqn:E. exists r. exact (step_io w heap p t e r st' Ht Hio Hp E).
  - intros [Ha Hp%bool_decide_eq_true]%andb_true_iff.
    destruct ((let* _ := on_server (on_acceptor accept_completes) in handle_accept Accepted p) (w, heap))
      as [r st'] eqn:E. exists r. exact (step_accept w heap Accepted p r st' Ha Hp E).
Qed.

Lemma moves_reachable ms : forall st, reachable st -> moves_ok ms st = true -> reachable (make_moves ms st).
Proof.
  induction ms as [|m ms IH]; intros st Hr Hm; [exact Hr|]. cbn [moves_ok] in Hm. apply andb_true_iff in Hm as [Hm Hms].
  destruct (move_step m st Hm) as [r Hs]. apply IH; [|exact Hms]. eapply reachable_step; eassumption.
Qed.
End Moves.

Definition sample_server : TlsTunnelServer :=
  mkServer (mkAcceptor false false false) 7 2 10000 300000 true empty_router ∅ 0 false false ∅ [] [].
Definition idle_server : Shared LeaseManager TlsTunnelServer * gmap Peer TlsTunnelSession :=
  (mkShared sample_pool sample_server empty_metrics, ∅).

Lemma idle_server_reachable : reachable idle_server.
Proof.
  apply (reachable_init sample_pool (Some 7) true 2 true 10000 300000 (Ok tt));
    [exact sample_pool_inv|int_lia|reflexivity].
Qed.

(** The server starts, and a client connects and is assigned an address. *)
Definition one_client : list move :=
  [MCall StartServer; MOldest; MAccept 1; MOldest; MIo 1 (EvHandshake false (Ok "alice"));
   MIo 1 (EvRead false (wire hello_frame ++ wire data_frame) (fun _ => 0))].

Lemma one_client_ok : moves_ok one_client idle_server = true.
Proof. vm_compute. reflexivity. Qed.

Definition serving := make_moves one_client idle_server.

Lemma serving_reachable : reachable serving.
Proof. exact (moves_reachable one_client idle_server idle_server_reachable one_client_ok). Qed.

(** Its packet was written to the TUN device, and its address leads to it. *)
Example serving_state :
  calls (sh_host serving.1) = [TunStart; TunWrite sample_packet] /\
  owner (alive (sh_host serving.1)) (router_ (sh_host serving.1)) [10; 8; 0; 2] = Some 1 /\
  established_sessions (sh_metrics serving.1) = 1.
Proof. vm_compute. auto. Qed.

(** The lease of the client's session, and the route to it. *)
Lemma routes_follow_sessions_witness :
  exists l, leased serving.2 1 l /\ l_address l = [10; 8; 0; 2] /\
    owner (alive (sh_host serving.1)) (router_ (sh_host serving.1)) [10; 8; 0; 2] = Some 1.
Proof.
  destruct (routes_follow_sessions serving.1 serving.2) as (H & _).
  { rewrite <- surjective_pairing. exact serving_reachable. }
  destruct (serving.2 !! 1) as [t|] eqn:Et; [|vm_compute in Et; discriminate].
  destruct (controller_ t) as [c|] eqn:Ec; [|vm_compute in Et; injection Et as <-; discriminate].
  destruct (sc_lease c) as [l|] eqn:El;
    [|vm_compute in Et; injection Et as <-; vm_compute in Ec; injection Ec as <-; discriminate].
  assert (Hl : leased serving.2 1 l /\ l_address l = [10; 8; 0; 2]).
  { split; [exists t, c; split_goal; auto|]; vm_compute in Et; injection Et as <-; vm_compute in Ec;
      injection Ec as <-; try reflexivity. vm_compute in El. injection El as <-. reflexivity. }
  exists l. split; [apply Hl|]. split; [apply Hl|].
  apply H; [split; [decide_prop|reflexivity]|]. exists l. split; [left; apply Hl|apply Hl].
Defined.

Lemma sessions_accounted_witness :
  active_session_count_ (sh_host serving.1) = Z.of_nat (size (sessions_ (sh_host serving.1))) /\
  accepting (acceptor_ (sh_host serving.1)) = true.
Proof.
  destruct (sessions_accounted serving.1 serving.2 (Ok tt) (on_server on_tun_error serving).2)
    as (_ & _ & _ & Hc & _ & _ & _ & _ & Ha).
  - rewrite <- surjective_pairing. exact serving_reachable.
  - rewrite <- surjective_pairing. apply step_tun_error. vm_compute. reflexivity.
  - split; [exact Hc|apply Ha; vm_compute; reflexivity].
Defined.

(** The server is told to stop; one task stops it, and the rest drains. *)
Definition stopped_by_user := make_moves [MCall StopServer; MOldest] serving.

Lemma server_drains_witness :
  active_session_count_ (sh_host serving.1) = 1 /\
  active_session_count_ (sh_host (drain 2 0 stopped_by_user).1) = 0.
Proof.
  split; [vm_compute; reflexivity|].
  assert (Hr : reachable stopped_by_user).
  { apply moves_reachable; [exact serving_reachable|vm_compute; reflexivity]. }
  assert (Hst : stopping_ (sh_host stopped_by_user.1) = true) by (vm_compute; reflexivity).
  destruct (server_drains stopped_by_user 0 Hr Hst) as (_ & _ & _ & Hc & _). exact Hc.
Defined.
