(* ===== verification/TunnelClient.v ===== *)
(** * The client's tunnel

    Models src/client/tls_tunnel_client.cpp and its header: the client's end of
    the connection, as the completion handlers that its strand runs one at a
    time.  Handlers into the runtime ([assignment_handler_], [packet_sink_],
    [close_handler_]) are the interface [ClientHost]. *)
From S2P Require Import Prelude Bytes Protocol ControlMessages Traffic.
From S2P Require Import ClientSession OutboundQueue AsyncIo FrameWriter.

Class ClientHost (W : Type) := {
  assignment_handler : IpAssignment -> M W bool;
  client_packet_sink : bytes -> M W unit;
  client_close_handler : option ErrorMessage -> bool -> M W unit
}.

(** The error code of a completion handler: none, one of the TLS category, or
    another one. *)
Inductive IoStatus := IoOk | IoSslError | IoOtherError.

(** [error.category() != boost::asio::error::get_ssl_category()] *)
Definition not_ssl (error : IoStatus) : bool :=
  match error with IoSslError => false | _ => true end.
Definition failed (error : IoStatus) : bool :=
  match error with IoOk => false | _ => true end.

(** [has_x] says whether the handler [x] is set. *)
Record TlsTunnelClient := mkTunnel {
  server_name_ : string;
  has_assignment : bool;
  has_sink : bool;
  has_close : bool;
  controller_ : ClientSessionController;
  decoder_ : FrameDecoder;
  outbound_queue_ : OutboundFrameQueue;
  remote_error_ : option ErrorMessage;
  retryable_close_ : bool;
  stream_ : Stream;
  started_ : bool;
  write_in_progress_ : bool;
  close_after_write_ : bool;
  stopped_ : bool
}.

Definition put_close_handler (x : bool) (t : TlsTunnelClient) : TlsTunnelClient :=
  mkTunnel (server_name_ t) (has_assignment t) (has_sink t) x (controller_ t) (decoder_ t)
    (outbound_queue_ t) (remote_error_ t) (retryable_close_ t) (stream_ t) (started_ t)
    (write_in_progress_ t) (close_after_write_ t) (stopped_ t).
Definition put_controller (x : ClientSessionController) (t : TlsTunnelClient) : TlsTunnelClient :=
  mkTunnel (server_name_ t) (has_assignment t) (has_sink t) (has_close t) x (decoder_ t)
    (outbound_queue_ t) (remote_error_ t) (retryable_close_ t) (stream_ t) (started_ t)
    (write_in_progress_ t) (close_after_write_ t) (stopped_ t).
Definition put_decoder (x : FrameDecoder) (t : TlsTunnelClient) : TlsTunnelClient :=
  mkTunnel (server_name_ t) (has_assignment t) (has_sink t) (has_close t) (controller_ t) x
    (outbound_queue_ t) (remote_error_ t) (retryable_close_ t) (stream_ t) (started_ t)
    (write_in_progress_ t) (close_after_write_ t) (stopped_ t).
Definition put_queue (x : OutboundFrameQueue) (t : TlsTunnelClient) : TlsTunnelClient :=
  mkTunnel (server_name_ t) (has_assignment t) (has_sink t) (has_close t) (controller_ t)
    (decoder_ t) x (remote_error_ t) (retryable_close_ t) (stream_ t) (started_ t)
    (write_in_progress_ t) (close_after_write_ t) (stopped_ t).
Definition put_remote_error (x : option ErrorMessage) (t : TlsTunnelClient) : TlsTunnelClient :=
  mkTunnel (server_name_ t) (has_assignment t) (has_sink t) (has_close t) (controller_ t)
    (decoder_ t) (outbound_queue_ t) x (retryable_close_ t) (stream_ t) (started_ t)
    (write_in_progress_ t) (close_after_write_ t) (stopped_ t).
Definition put_retryable (x : bool) (t : TlsTunnelClient) : TlsTunnelClient :=
  mkTunnel (server_name_ t) (has_assignment t) (has_sink t) (has_close t) (controller_ t)
    (decoder_ t) (outbound_queue_ t) (remote_error_ t) x (stream_ t) (started_ t)
    (write_in_progress_ t) (close_after_write_ t) (stopped_ t).
Definition put_stream (x : Stream) (t : TlsTunnelClient) : TlsTunnelClient :=
  mkTunnel (server_name_ t) (has_assignment t) (has_sink t) (has_close t) (controller_ t)
    (decoder_ t) (outbound_queue_ t) (remote_error_ t) (retryable_close_ t) x (started_ t)
    (write_in_progress_ t) (close_after_write_ t) (stopped_ t).
Definition put_started (x : bool) (t : TlsTunnelClient) : TlsTunnelClient :=
  mkTunnel (server_name_ t) (has_assignment t) (has_sink t) (has_close t) (controller_ t)
    (decoder_ t) (outbound_queue_ t) (remote_error_ t) (retryable_close_ t) (stream_ t) x
    (write_in_progress_ t) (close_after_write_ t) (stopped_ t).
Definition put_writing_flag (x : bool) (t : TlsTunnelClient) : TlsTunnelClient :=
  mkTunnel (server_name_ t) (has_assignment t) (has_sink t) (has_close t) (controller_ t)
    (decoder_ t) (outbound_queue_ t) (remote_error_ t) (retryable_close_ t) (stream_ t)
    (started_ t) x (close_after_write_ t) (stopped_ t).
Definition put_close_after (x : bool) (t : TlsTunnelClient) : TlsTunnelClient :=
  mkTunnel (server_name_ t) (has_assignment t) (has_sink t) (has_close t) (controller_ t)
    (decoder_ t) (outbound_queue_ t) (remote_error_ t) (retryable_close_ t) (stream_ t)
    (started_ t) (write_in_progress_ t) x (stopped_ t).
Definition put_stopped (x : bool) (t : TlsTunnelClient) : TlsTunnelClient :=
  mkTunnel (server_name_ t) (has_assignment t) (has_sink t) (has_close t) (controller_ t)
    (decoder_ t) (outbound_queue_ t) (remote_error_ t) (retryable_close_ t) (stream_ t)
    (started_ t) (write_in_progress_ t) (close_after_write_ t) x.

(** [TlsTunnelClient::TlsTunnelClient] *)
Definition make_tunnel (expected_server_name : string) (assignment sink close : bool)
    (requested_mtu maximum_queued_frames maximum_queued_bytes : Z) : outcome TlsTunnelClient :=
  let? controller := make_client requested_mtu in
  let? queue := make_queue maximum_queued_frames maximum_queued_bytes in
  let? _ := reject_if (bool_decide (expected_server_name = ""))
    (InvalidArgument "expected server name must not be empty") in
  Ok (mkTunnel expected_server_name assignment sink close controller decoder_init queue None true
        fresh_stream false false false false).

Section Tunnel.
Context {W : Type} `{CH : ClientHost W}.

Abbreviation St := (W * TlsTunnelClient)%type.

Definition self : M St TlsTunnelClient := fun st => (Ok st.2, st).
Definition assign (f : TlsTunnelClient -> TlsTunnelClient) : M St unit :=
  fun '(w, t) => (Ok tt, (w, f t)).
Definition on_stream (f : Stream -> Stream) : M St unit :=
  assign (fun t => put_stream (f (stream_ t)) t).
Definition on_host {A} (m : M W A) : M St A := fun '(w, t) => let '(r, w') := m w in (r, (w', t)).
Definition on_queue {A} (m : M OutboundFrameQueue A) : M St A := fun '(w, t) =>
  let '(r, q) := m (outbound_queue_ t) in (r, (w, put_queue q t)).
Definition on_decoder {A} (m : M FrameDecoder A) : M St A := fun '(w, t) =>
  let '(r, d) := m (decoder_ t) in (r, (w, put_decoder d t)).
Definition on_controller {A} (m : M ClientSessionController A) : M St A := fun '(w, t) =>
  let '(r, c) := m (controller_ t) in (r, (w, put_controller c t)).

Definition close_now : M St unit :=
  let* t := self in
  if stopped_ t then ret tt else
    let* _ := assign (put_stopped true) in
    let* _ := on_controller on_transport_closed in
    let* _ := on_queue clear in
    let* _ := on_stream close_stream in
    if has_close t then
      let* _ := assign (put_close_handler false) in
      let* t := self in
      on_host (client_close_handler (remote_error_ t) (retryable_close_ t))
    else ret tt.

Definition write_next : M St unit :=
  let* t := self in
  if stopped_ t || queue_empty (outbound_queue_ t) then
    let* _ := assign (put_writing_flag false) in
    if close_after_write_ t then close_now else ret tt
  else
    let* _ := assign (put_writing_flag true) in
    let* buffer := lift (front (outbound_queue_ t)) in
    on_stream (async_write buffer).

Definition enqueue_frame (frame : Frame) : M St bool :=
  let* t := self in
  let* queued := if stopped_ t then ret false else on_queue (try_enqueue frame) in
  if negb queued then
    let* _ := assign (put_retryable false) in
    ret false
  else
    let* t := self in
    let* _ := if negb (write_in_progress_ t) then write_next else ret tt in
    ret true.

(** The loop over [packets_to_tun]. *)
Fixpoint forward_packets (packets : list bytes) : M St unit :=
  match packets with
  | [] => ret tt
  | packet :: packets =>
      let* t := self in
      let* _ := if has_sink t then on_host (client_packet_sink packet) else ret tt in
      forward_packets packets
  end.

(** The loop over [outbound_frames]; [false] when a frame did not fit. *)
Fixpoint enqueue_frames (frames : list Frame) : M St bool :=
  match frames with
  | [] => ret true
  | frame :: frames =>
      let* queued := enqueue_frame frame in
      if negb queued then
        let* _ := assign (put_retryable false) in
        let* _ := close_now in
        ret false
      else enqueue_frames frames
  end.

Definition apply_result (result : ClientSessionResult) : M St unit :=
  let* _ := match cr_remote_error result with
            | Some _ => assign (fun t => put_retryable false (put_remote_error (cr_remote_error result) t))
            | None => ret tt
            end in
  let* t := self in
  let* configured := match cr_assignment result with
                     | Some assignment =>
                         if has_assignment t then on_host (assignment_handler assignment) else ret true
                     | None => ret true
                     end in
  if negb configured then
    let* _ := assign (put_retryable false) in
    close_now
  else
    let* _ := forward_packets (cr_packets_to_tun result) in
    let* queued := enqueue_frames (cr_outbound_frames result) in
    if negb queued then ret tt
    else if cr_close_transport result then
      let* _ := assign (put_close_after true) in
      let* t := self in
      if negb (write_in_progress_ t) && queue_empty (outbound_queue_ t) then close_now else ret tt
    else ret tt.

Definition read_next : M St unit :=
  let* t := self in
  if stopped_ t || close_after_write_ t then ret tt else on_stream async_read_some.

(** The loop over the decoded frames. *)
Fixpoint handle_frames (frames : list Frame) : M St unit :=
  match frames with
  | [] => ret tt
  | frame :: frames =>
      let* result := on_controller (handle frame) in
      let* _ := apply_result result in
      let* t := self in
      if stopped_ t || close_after_write_ t then ret tt else handle_frames frames
  end.

Definition handle_read (error : IoStatus) (read_buffer : bytes) : M St unit :=
  let* t := self in
  if stopped_ t then ret tt
  else if failed error then
    let* _ := assign (put_retryable (not_ssl error)) in
    close_now
  else
    let* continued := try_catch
      (let* frames := on_decoder (push read_buffer) in
       let* _ := handle_frames frames in
       ret true)
      (fun _ => Some (let* _ := assign (put_retryable false) in
                      let* _ := close_now in
                      ret false)) in
    if negb continued then ret tt
    else
      let* t := self in
      if negb (stopped_ t) && negb (close_after_write_ t) then read_next else ret tt.

Definition handle_handshake (error : IoStatus) : M St unit :=
  let* t := self in
  if stopped_ t then ret tt
  else if failed error then
    let* _ := assign (put_retryable (not_ssl error)) in
    close_now
  else
    let* frame := on_controller start in
    let* queued := enqueue_frame frame in
    if negb queued then
      let* _ := assign (put_retryable false) in
      close_now
    else read_next.

(** [sni] is what [configure_client_sni] does. *)
Definition start_on_strand (sni : outcome unit) : M St unit :=
  let* t := self in
  if stopped_ t || started_ t then ret tt
  else
    let* _ := assign (put_started true) in
    let* configured := try_catch
      (let* _ := lift sni in ret true)
      (fun _ => Some (let* _ := assign (put_retryable false) in
                      let* _ := close_now in
                      ret false)) in
    if negb configured then ret tt else on_stream async_handshake.

Definition handle_write (error : IoStatus) : M St unit :=
  let* t := self in
  if stopped_ t then ret tt
  else if failed error then
    let* _ := assign (put_retryable (not_ssl error)) in
    close_now
  else
    let* _ := on_queue pop_front in
    write_next.

(** A frame the controller has or has not made, as [send_ipv4_from_tun] and
    [ping] queue it. *)
Definition enqueue_made (made : M ClientSessionController (option Frame)) : M St unit :=
  let* t := self in
  if stopped_ t || close_after_write_ t then ret tt
  else
    let* frame := on_controller made in
    match frame with
    | Some frame =>
        let* queued := enqueue_frame frame in
        if negb queued then close_now else ret tt
    | None => ret tt
    end.
Definition send_ipv4_from_tun (packet : bytes) : M St unit := enqueue_made (make_data_to_server packet).
Definition ping (nonce : Z) : M St unit := enqueue_made (make_ping nonce).

Definition stop (code : Z) : M St unit :=
  let* t := self in
  if stopped_ t then ret tt
  else
    let* frame := on_controller (make_close code) in
    match frame with
    | None => close_now
    | Some frame =>
        let* _ := assign (put_close_after true) in
        let* queued := enqueue_frame frame in
        if negb queued then close_now else ret tt
    end.

Definition abort : M St unit := close_now.

(** ** The events of the tunnel *)

Inductive tunnel_event :=
| TeStart (sni : outcome unit)
| TeHandshake (error : IoStatus)
| TeRead (error : IoStatus) (data : bytes)
| TeWrite (error : IoStatus)
| TeTun (packet : bytes)
| TePing (nonce : Z)
| TeStop (code : Z)
| TeAbort.

Definition run_event (e : tunnel_event) : M St unit :=
  match e with
  | TeStart sni => start_on_strand sni
  | TeHandshake error => let* _ := on_stream handshake_completes in handle_handshake error
  | TeRead error data => let* _ := on_stream read_completes in handle_read error data
  | TeWrite error => let* _ := on_stream write_completes in handle_write error
  | TeTun packet => send_ipv4_from_tun packet
  | TePing nonce => ping nonce
  | TeStop code => stop code
  | TeAbort => abort
  end.

(** Completions belong to operations in flight; arguments are of their types. *)
Definition possible (e : tunnel_event) (t : TlsTunnelClient) : Prop :=
  match e with
  | TeHandshake _ => handshaking (stream_ t) = true
  | TeRead _ data => reading (stream_ t) = true /\ is_bytes data
  | TeWrite _ => is_Some (writing (stream_ t))
  | TeTun packet => is_bytes packet
  | TePing nonce => in_u64 nonce
  | TeStop code => in_u16 code
  | TeStart _ | TeAbort => True
  end.
End Tunnel.

(** What the tunnel relies on: its handlers keep the host open, whatever they
    return, and the close handler returns.  [ch_open] says whether the host has
    been given the assignment, which happens once. *)
Class ClientHostLaws (W : Type) `{ClientHost W} := {
  ch_open : bool -> W -> Prop;
  ch_done : W -> Prop;
  ch_handed w : ch_open false w -> ch_open true w;
  ch_assignment a w : ip_assignment_wf a -> ch_open false w -> ch_open true (assignment_handler a w).2;
  ch_sink packet b w : ch_open b w -> ch_open b (client_packet_sink packet w).2;
  ch_close error retryable b w : ch_open b w ->
    exists w', client_close_handler error retryable w = (Ok tt, w') /\ ch_done w'
}.

(** ** Specification *)

Definition active (c : ClientSessionController) : Prop :=
  cs_state c = AwaitingAssignment \/ cs_state c = Established.

(** The assignment has been handed over, or never will be. *)
Definition handed (c : ClientSessionController) : bool :=
  match cs_state c with Idle | AwaitingAssignment => false | _ => true end.

(** An open tunnel that has still to send [pending]. *)
Record live (pending : list Frame) (t : TlsTunnelClient) : Prop := {
  lv_open : stopped_ t = false;
  lv_writer : writer_ok (stream_ t) (outbound_queue_ t) (write_in_progress_ t);
  lv_controller : client_ok (controller_ t);
  lv_decoder : decoder_ready (decoder_ t);
  lv_close : has_close t = true;
  lv_pending : Forall valid_frame pending;
  lv_wire : stream_of (stream_ t) (outbound_queue_ t) (write_in_progress_ t) pending
              (cs_next_outbound_sequence (controller_ t))
}.

(** A tunnel that can be closed. *)
Record closable (t : TlsTunnelClient) : Prop := {
  cb_open : stopped_ t = false;
  cb_safe : misused (stream_ t) = false;
  cb_close : has_close t = true;
  cb_sent : sent (stream_ t)
}.

(** Before the TLS handshake is over; [hs] says whether it is in flight. *)
Record beginning (hs : bool) (t : TlsTunnelClient) : Prop := {
  bg_live : live [] t;
  bg_idle : cs_state (controller_ t) = Idle;
  bg_stream : reading (stream_ t) = false /\ handshaking (stream_ t) = hs;
  bg_flags : write_in_progress_ t = false /\ close_after_write_ t = false
}.

(** Afterwards; [rd] says whether a read is in flight. *)
Definition resting (rd : bool) (t : TlsTunnelClient) : Prop :=
  live [] t /\ handshaking (stream_ t) = false /\ started_ t = true /\
  if close_after_write_ t
  then write_in_progress_ t = true /\ ~ active (controller_ t) /\ cs_state (controller_ t) <> Idle
  else reading (stream_ t) = rd /\ active (controller_ t).

Record over (t : TlsTunnelClient) : Prop := {
  ov_stopped : stopped_ t = true;
  ov_closed : closed (stream_ t) = true;
  ov_safe : misused (stream_ t) = false;
  ov_queue : queue_ (outbound_queue_ t) = [];
  ov_handler : has_close t = false;
  ov_controller : cs_state (controller_ t) = Closed;
  ov_sent : sent (stream_ t)
}.

Definition tunnel_ok (t : TlsTunnelClient) : Prop :=
  beginning (started_ t) t \/ resting true t \/ over t.

(** ** Lemmas *)

Section Frame.
Context {W : Type} {CH : ClientHost W}.
Abbreviation St := (W * TlsTunnelClient)%type.

(** *** What an event leaves alone

    Whatever the three handlers keep of the host, every event keeps; and a
    tunnel that was started stays so. *)
Context (R : relation W) {R_preorder : PreOrder R}.
Context (R_assignment : forall a w, R w (assignment_handler a w).2).
Context (R_sink : forall packet w, R w (client_packet_sink packet w).2).
Context (R_close : forall e retryable w, R w (client_close_handler e retryable w).2).
#[local] Set Default Proof Using "All".

Definition spares {A} (m : M St A) : Prop :=
  forall st, R st.1 (m st).2.1 /\ (started_ st.2 = true -> started_ (m st).2.2 = true).

Lemma spares_bind {A B} (m : M St A) (k : A -> M St B) : spares m -> (forall a, spares (k a)) -> spares (bind m k).
Proof.
  intros Hm Hk st. unfold bind. destruct (Hm st) as [Hr Hs]. destruct (m st) as [[a|e] st']; [|auto].
  destruct (Hk a st') as [Hr' Hs']. split; [etransitivity; eassumption|auto].
Qed.
Lemma spares_try {A} (m : M St A) h :
  spares m -> (forall e m', h e = Some m' -> spares m') -> spares (try_catch m h).
Proof.
  intros Hm Hh st. unfold try_catch. destruct (Hm st) as [Hr Hs]. destruct (m st) as [[a|e] st']; [auto|].
  destruct (h e) as [m'|] eqn:E; [|auto]. destruct (Hh e _ E st') as [Hr' Hs']. split; [etransitivity; eassumption|auto].
Qed.
Lemma spares_ret {A} (a : A) : spares (ret a).
Proof. intros st. split; [reflexivity|auto]. Qed.
Lemma spares_lift {A} (o : outcome A) : spares (lift o).
Proof. intros st. split; [reflexivity|auto]. Qed.
Lemma spares_self : spares self.
Proof. intros st. split; [reflexivity|auto]. Qed.
Lemma spares_assign f : (forall t, started_ (f t) = started_ t \/ started_ (f t) = true) -> spares (assign f).
Proof. intros Hf [w t]. split; [reflexivity|]. cbn. destruct (Hf t) as [->| ->]; auto. Qed.
Lemma spares_host {A} (m : M W A) : (forall w, R w (m w).2) -> spares (on_host m).
Proof. intros Hm [w t]. unfold on_host. specialize (Hm w). destruct (m w). cbn in *. auto. Qed.
Lemma spares_queue {A} (m : M OutboundFrameQueue A) : spares (on_queue m).
Proof. intros [w t]. unfold on_queue. destruct (m (outbound_queue_ t)). cbn. split; [reflexivity|auto]. Qed.
Lemma spares_decoder {A} (m : M FrameDecoder A) : spares (on_decoder m).
Proof. intros [w t]. unfold on_decoder. destruct (m (decoder_ t)). cbn. split; [reflexivity|auto]. Qed.
Lemma spares_controller {A} (m : M ClientSessionController A) : spares (on_controller m).
Proof. intros [w t]. unfold on_controller. destruct (m (controller_ t)). cbn. split; [reflexivity|auto]. Qed.
Lemma spares_if {A} (b : bool) (m n : M St A) : spares m -> spares n -> spares (if b then m else n).
Proof. destruct b; auto. Qed.

Ltac keep :=
  repeat first
    [ assumption | match goal with H : forall _, spares _ |- _ => apply H end
    | apply spares_ret | apply spares_lift | apply spares_self | apply spares_host; auto; fail | apply spares_queue
    | apply spares_decoder | apply spares_controller | apply spares_bind; [|intros ?]
    | apply spares_if | apply spares_assign; intros; cbn; auto; fail
    | apply spares_try; [|intros ? ? [= <-]] | progress intros
    | match goal with |- spares (match ?x with _ => _ end) => destruct x end ].

Lemma spares_close_now : spares close_now.
Proof. unfold close_now. keep. Qed.
Lemma spares_write_next : spares write_next.
Proof. pose proof spares_close_now. unfold write_next, on_stream. keep. Qed.
Lemma spares_enqueue_frame frame : spares (enqueue_frame frame).
Proof. pose proof spares_write_next. unfold enqueue_frame. keep. Qed.
Lemma spares_enqueue_frames frames : spares (enqueue_frames frames).
Proof.
  pose proof spares_close_now. pose proof spares_enqueue_frame.
  induction frames as [|frame frames IH]; cbn [enqueue_frames]; keep.
Qed.
Lemma spares_forward_packets packets : spares (forward_packets packets).
Proof. induction packets as [|packet packets IH]; cbn [forward_packets]; keep. Qed.
Lemma spares_apply_result r : spares (apply_result r).
Proof.
  pose proof spares_close_now. pose proof (spares_enqueue_frames (cr_outbound_frames r)).
  pose proof (spares_forward_packets (cr_packets_to_tun r)). unfold apply_result. keep.
Qed.
Lemma spares_read_next : spares read_next.
Proof. unfold read_next, on_stream. keep. Qed.
Lemma spares_handle_frames frames : spares (handle_frames frames).
Proof. pose proof spares_apply_result. induction frames as [|frame frames IH]; cbn [handle_frames]; keep. Qed.
Lemma spares_enqueue_made made : spares (enqueue_made made).
Proof. pose proof spares_close_now. pose proof spares_enqueue_frame. unfold enqueue_made. keep. Qed.

Lemma spares_run_event e : spares (run_event e).
Proof.
  pose proof spares_close_now. pose proof spares_read_next. pose proof spares_enqueue_frame. pose proof spares_handle_frames.
  pose proof spares_write_next. pose proof spares_enqueue_made.
  destruct e; cbn [run_event]; unfold start_on_strand, handle_handshake, handle_read, handle_write, send_ipv4_from_tun,
    ping, stop, abort, on_stream; keep.
Qed.

(** Starting an open tunnel starts it. *)
Lemma spares_start sni w t : stopped_ t = false -> started_ (run_event (TeStart sni) (w, t)).2.2 = true.
Proof.
  intros Hs. cbn [run_event]. unfold start_on_strand, bind at 1, self. cbn [snd]. rewrite Hs. cbn [orb].
  destruct (started_ t) eqn:Es; [exact Es|]. unfold bind at 1, assign. pose proof spares_close_now.
  assert (Hk : spares (let* configured := try_catch (let* _ := lift sni in ret true)
      (fun _ => Some (let* _ := assign (put_retryable false) in let* _ := close_now in ret false)) in
    if negb configured then ret tt else on_stream async_handshake)) by (unfold on_stream; keep).
  apply (Hk (w, put_started true t)). reflexivity.
Qed.
End Frame.

#[local] Instance anything_preorder {W : Type} : PreOrder (fun _ _ : W => True).
Proof. split; repeat intros ?; exact I. Qed.

Lemma run_event_started {W} {CH : ClientHost W} e st :
  started_ st.2 = true -> started_ (run_event e st).2.2 = true.
Proof. exact (proj2 (spares_run_event (fun _ _ => True) (fun _ _ => I) (fun _ _ => I) (fun _ _ _ => I) e st)). Qed.
Lemma start_starts {W} {CH : ClientHost W} sni (w : W) t :
  stopped_ t = false -> started_ (run_event (TeStart sni) (w, t)).2.2 = true.
Proof. exact (spares_start (fun _ _ => True) (fun _ _ => I) (fun _ _ => I) (fun _ _ _ => I) sni w t). Qed.

Section Laws.
Context {W : Type} {CH : ClientHost W} {CHL : ClientHostLaws W}.
Abbreviation St := (W * TlsTunnelClient)%type.

(** The host of an open tunnel. *)
Definition opened (w : W) (t : TlsTunnelClient) : Prop := ch_open (handed (controller_ t)) w.

Lemma opened_mono (w : W) t t' :
  opened w t -> (handed (controller_ t) = true -> handed (controller_ t') = true) -> opened w t'.
Proof.
  unfold opened. intros Hw Hm. destruct (handed (controller_ t)); [rewrite Hm by reflexivity; exact Hw|].
  destruct (handed (controller_ t')); [apply ch_handed|]; exact Hw.
Qed.

(** *** Closing *)

Definition shut (t : TlsTunnelClient) : TlsTunnelClient :=
  put_close_handler false (put_stream (close_stream (stream_ t))
    (put_queue (mkQueue (maximum_frames_ (outbound_queue_ t)) (maximum_bytes_ (outbound_queue_ t)) 0 [])
      (put_controller (set_state Closed (controller_ t)) (put_stopped true t)))).

(** The tunnel is closed, and the last thing it did was to say so. *)
Definition ended (st : St) : Prop :=
  over st.2 /\ ch_done st.1 /\
  exists b h, ch_open b h /\ client_close_handler (remote_error_ st.2) (retryable_close_ st.2) h = (Ok tt, st.1).

Lemma client_close_now_stopped (w : W) t : stopped_ t = true -> close_now (w, t) = (Ok tt, (w, t)).
Proof. intros H. unfold close_now, bind, self. cbn [snd]. rewrite H. reflexivity. Qed.

Lemma client_close_now_wp b (w : W) t :
  ch_open b w -> closable t -> wp close_now (returns (fun _ => ended)) (w, t).
Proof.
  intros Hw [Hl Hs Hc Hsent]. destruct (ch_close (remote_error_ t) (retryable_close_ t) b w Hw) as (w' & E & Hd).
  assert (Hr : close_now (w, t) = (Ok tt, (w', shut t))).
  { unfold close_now, bind, self. cbn [snd]. rewrite Hl. unfold assign, on_controller, on_queue, on_stream, on_host.
    cbn. rewrite Hc. cbn. rewrite E. reflexivity. }
  unfold wp. rewrite Hr. exists tt. split; [reflexivity|]. split; [constructor; auto|]. split; [exact Hd|].
  exists b, w. split; [exact Hw|exact E].
Qed.

Lemma live_closable pending t : live pending t -> closable t.
Proof.
  intros [Hl Hw Hc Hd Hcl Hp Hwire]. constructor; auto; [apply Hw|eapply stream_of_sent, Hwire].
Qed.

(** Setting [retryable_close_] and closing. *)
Lemma client_wp_self {A} (k : _ -> M St A) (w : W) t Q : wp (k t) Q (w, t) -> wp (bind self k) Q (w, t).
Proof. auto. Qed.
Lemma client_wp_assign {A} f (k : unit -> M St A) (w : W) t Q :
  wp (k tt) Q (w, f t) -> wp (bind (assign f) k) Q (w, t).
Proof. auto. Qed.

Lemma live_retryable b pending t : live pending t -> live pending (put_retryable b t).
Proof. intros []. constructor; auto. Qed.
Lemma closable_retryable b t : closable t -> closable (put_retryable b t).
Proof. intros []. constructor; auto. Qed.

Lemma refuse_wp h b (w : W) t :
  ch_open h w -> closable t ->
  wp (let* _ := assign (put_retryable b) in close_now) (returns (fun _ => ended)) (w, t).
Proof. intros Hw Ht. apply client_wp_assign. eapply client_close_now_wp; [exact Hw|apply closable_retryable, Ht]. Qed.

(** *** Queueing frames *)

(** What queueing leaves alone. *)
Definition kept (t t' : TlsTunnelClient) : Prop :=
  close_after_write_ t' = close_after_write_ t /\ reading (stream_ t') = reading (stream_ t) /\
  handshaking (stream_ t') = handshaking (stream_ t) /\ started_ t' = started_ t /\
  controller_ t' = controller_ t.

Lemma kept_refl t : kept t t.
Proof. unfold kept. auto. Qed.
Lemma kept_trans t1 t2 t3 : kept t1 t2 -> kept t2 t3 -> kept t1 t3.
Proof. unfold kept. intros (?&?&?&?&?) (?&?&?&?&?). split_goal; congruence. Qed.

Definition queued (frame : Frame) (t : TlsTunnelClient) : TlsTunnelClient :=
  put_stream (push_write (wire frame) (stream_ t) (write_in_progress_ t))
    (put_writing_flag true (put_queue (pushed (wire frame) (outbound_queue_ t)) t)).

Lemma queued_live frame pending t :
  live (frame :: pending) t -> queue_ok (pushed (wire frame) (outbound_queue_ t)) ->
  live pending (queued frame t) /\ kept t (queued frame t) /\ write_in_progress_ (queued frame t) = true.
Proof.
  intros [Hl Hw Hc Hd Hcl Hp Hwire] Hq. apply Forall_cons in Hp as [Hf Hp].
  destruct (writer_push (wire frame) _ _ _ Hw Hq) as [Hw' _]. split; [|split; [|reflexivity]].
  - constructor; auto. apply stream_of_push; assumption.
  - unfold kept, queued, push_write. destruct (write_in_progress_ t); auto 10.
Qed.

Lemma enqueue_frame_cases (w : W) frame pending t :
  live (frame :: pending) t ->
  (enqueue_frame frame (w, t) = (Ok true, (w, queued frame t)) /\
     queue_ok (pushed (wire frame) (outbound_queue_ t))) \/
  enqueue_frame frame (w, t) = (Ok false, (w, put_retryable false t)).
Proof.
  intros [Hl Hw Hc Hd Hcl Hp Hwire]. apply Forall_cons in Hp as [Hf _].
  unfold enqueue_frame, bind, self. cbn [snd]. rewrite Hl. unfold on_queue.
  destruct (enqueue_cases frame (outbound_queue_ t) (wo_queue _ _ _ Hw) Hf) as [[-> Hq]| ->]; cbn [negb].
  - left. split; [|exact Hq]. cbn [snd write_in_progress_ put_queue].
    pose proof (wo_busy _ _ _ Hw) as Hb. unfold queued, push_write.
    destruct (write_in_progress_ t) eqn:Ef; cbn [negb ret].
    + do 2 f_equal. destruct t; cbn in *. subst. reflexivity.
    + destruct Hb as [_ Eq]. unfold write_next, bind, self, assign, on_stream, lift, front, queue_empty. cbn.
      rewrite Hl, Eq. reflexivity.
  - right. destruct t; reflexivity.
Qed.

(** The loop over the frames of a result. *)
Lemma client_enqueue_frames_wp h frames (w : W) t :
  ch_open h w -> live frames t ->
  wp (enqueue_frames frames) (returns (fun (b : bool) st' =>
    if b then ch_open h st'.1 /\ live [] st'.2 /\ kept t st'.2 else ended st')) (w, t).
Proof.
  intros Hw. revert t. induction frames as [|frame frames IH]; intros t Ht.
  - exists true. split; [reflexivity|]. split; [exact Hw|]. split; [exact Ht|apply kept_refl].
  - cbn [enqueue_frames]. apply wp_bind. unfold wp at 1.
    destruct (enqueue_frame_cases w frame frames t Ht) as [[-> Hq]| ->]; cbn [fst snd negb].
    + destruct (queued_live _ _ _ Ht Hq) as (Ht' & Hk & _).
      eapply wp_mono; [apply IH, Ht'|]. intros r st' (b & -> & Hb). exists b. split; [reflexivity|].
      destruct b; [|exact Hb]. destruct Hb as (? & ? & Hk'). split_goal; auto. eapply kept_trans; eassumption.
    + apply client_wp_assign. eapply wp_returns.
      * eapply client_close_now_wp; [exact Hw|]. apply closable_retryable, closable_retryable. eapply live_closable, Ht.
      * intros [] st' He. exists false. auto.
Qed.

(** *** The parts of the handlers *)

Lemma client_forward_packets_wp h packets (w : W) t :
  ch_open h w -> wp (forward_packets packets) (fun _ st' => ch_open h st'.1 /\ st'.2 = t) (w, t).
Proof.
  intros Hw. revert w Hw. induction packets as [|packet packets IH]; intros w Hw; [split; auto|].
  cbn [forward_packets]. apply client_wp_self, wp_bind. destruct (has_sink t).
  - unfold wp, on_host. pose proof (ch_sink packet h w Hw) as Hs.
    destruct (client_packet_sink packet w) as [[[]|e] w']; cbn [fst snd] in *; [apply (IH w' Hs)|auto].
  - apply wp_ret, IH, Hw.
Qed.

(** An exception leaves a tunnel that can be closed. *)
Definition guarded (P : St -> Prop) (r : outcome unit) (st' : St) : Prop :=
  match r with
  | Ok _ => P st'
  | Throw _ => (exists b, ch_open b st'.1) /\ closable st'.2
  end.

Definition rests (st : St) : Prop := ended st \/ opened st.1 st.2 /\ resting false st.2.

Lemma finish_wp r (w : W) t :
  opened w t -> live (cr_outbound_frames r) t ->
  handshaking (stream_ t) = false -> started_ t = true ->
  (if cr_close_transport r then ~ active (controller_ t) /\ cs_state (controller_ t) <> Idle
   else close_after_write_ t = false /\ reading (stream_ t) = false /\ active (controller_ t)) ->
  wp (let* queued := enqueue_frames (cr_outbound_frames r) in
      if negb queued then ret tt
      else if cr_close_transport r then
        let* _ := assign (put_close_after true) in
        let* t := self in
        if negb (write_in_progress_ t) && queue_empty (outbound_queue_ t) then close_now else ret tt
      else ret tt) (guarded rests) (w, t).
Proof.
  intros Hw Ht Hh Hst Hr. eapply wp_returns; [apply client_enqueue_frames_wp; [exact Hw|exact Ht]|].
  intros [] [w1 t1]; cbn [fst snd negb].
  2:{ intros He. apply wp_ret. left. exact He. }
  intros (Hw1 & Ht1 & Kc & Kr & Kh & Ks & Kq). destruct (cr_close_transport r).
  - apply client_wp_assign, client_wp_self. cbn [write_in_progress_ outbound_queue_ put_close_after].
    assert (Hl : live [] (put_close_after true t1)) by (destruct Ht1; constructor; auto).
    destruct (negb _ && _)%bool eqn:E.
    + eapply wp_mono; [eapply client_close_now_wp; [exact Hw1|eapply live_closable, Hl]|].
      intros r' st' (a & -> & He). left. exact He.
    + apply wp_ret. right. split; [unfold opened; cbn; rewrite Kq; exact Hw1|]. split; [exact Hl|].
      cbn [snd stream_ started_ close_after_write_ write_in_progress_ controller_ put_close_after].
      rewrite Kh, Ks, Kq. split_goal; auto; [|apply Hr..].
      pose proof (wo_busy _ _ _ (lv_writer _ _ Ht1)) as Hb.
      destruct (write_in_progress_ t1); [reflexivity|]. destruct Hb as [_ Hb].
      unfold queue_empty in E. rewrite Hb in E. discriminate.
  - apply wp_ret. right. split; [unfold opened; cbn; rewrite Kq; exact Hw1|]. split; [exact Ht1|]. cbn [snd].
    rewrite Kh, Ks, Kc, Kr, Kq. destruct Hr as (-> & -> & Ha). auto.
Qed.

Lemma client_apply_result_wp r (w : W) t :
  match cr_assignment r with
  | Some _ => ch_open false w /\ handed (controller_ t) = true
  | None => opened w t
  end ->
  live (cr_outbound_frames r) t ->
  handshaking (stream_ t) = false -> started_ t = true ->
  (forall a, cr_assignment r = Some a -> ip_assignment_wf a) ->
  (if cr_close_transport r then ~ active (controller_ t) /\ cs_state (controller_ t) <> Idle
   else close_after_write_ t = false /\ reading (stream_ t) = false /\ active (controller_ t)) ->
  wp (apply_result r) (guarded rests) (w, t).
Proof.
  intros Hw Ht Hh Hst Ha Hr. unfold apply_result.
  assert (Hx : exists t1, (match cr_remote_error r with
      | Some _ => assign (fun t => put_retryable false (put_remote_error (cr_remote_error r) t))
      | None => ret tt end) (w, t) = (Ok tt, (w, t1)) /\ live (cr_outbound_frames r) t1 /\
      stream_ t1 = stream_ t /\ started_ t1 = started_ t /\ controller_ t1 = controller_ t /\
      close_after_write_ t1 = close_after_write_ t).
  { destruct (cr_remote_error r); eexists; (split; [reflexivity|]); [|auto].
    split; [destruct Ht; constructor; auto|auto]. }
  destruct Hx as (t1 & E & Ht1 & E1 & E2 & E3 & E4). apply wp_bind. unfold wp at 1. rewrite E. cbn [fst snd]. clear E.
  rewrite <- E1 in Hh. rewrite <- E2 in Hst.
  assert (Hr1 : if cr_close_transport r then ~ active (controller_ t1) /\ cs_state (controller_ t1) <> Idle
    else close_after_write_ t1 = false /\ reading (stream_ t1) = false /\ active (controller_ t1))
    by (rewrite E1, E3, E4; exact Hr).
  unfold opened in Hw. rewrite <- E3 in Hw. fold (opened w t1) in Hw.
  clear t Ht Hr E1 E2 E3 E4. apply client_wp_self.
  assert (Hgo : forall w1, opened w1 t1 ->
    wp (let* _ := forward_packets (cr_packets_to_tun r) in
        let* queued := enqueue_frames (cr_outbound_frames r) in
        if negb queued then ret tt
        else if cr_close_transport r then
          let* _ := assign (put_close_after true) in
          let* t := self in
          if negb (write_in_progress_ t) && queue_empty (outbound_queue_ t) then close_now else ret tt
        else ret tt) (guarded rests) (w1, t1)).
  { intros w1 Hw1. apply wp_bind. eapply wp_mono; [eapply client_forward_packets_wp, Hw1|].
    intros [[]|e] [w2 t2] [Hw2 Et]; cbn [fst snd] in *; subst t2; [apply finish_wp; assumption|].
    split; [eexists; exact Hw2|eapply live_closable, Ht1]. }
  apply wp_bind. destruct (cr_assignment r) as [a|]; [|apply wp_ret, Hgo, Hw].
  destruct Hw as [Hw Hd]. destruct (has_assignment t1); [|apply wp_ret, Hgo; unfold opened; rewrite Hd; apply ch_handed, Hw].
  unfold wp at 1, on_host. pose proof (ch_assignment a w (Ha a eq_refl) Hw) as Hw1.
  destruct (assignment_handler a w) as [[[]|e] w1]; cbn [fst snd negb] in *.
  - apply Hgo. unfold opened. rewrite Hd. exact Hw1.
  - eapply wp_mono; [eapply refuse_wp; [exact Hw1|eapply live_closable, Ht1]|].
    intros r' st' (x & -> & He). left. exact He.
  - split; [eexists; exact Hw1|eapply live_closable, Ht1].
Qed.

(** The controller takes a frame. *)
Lemma handle_rel_active c frame r c' :
  handle_rel c frame r c' ->
  if cr_close_transport r then (active c -> ~ active c' /\ cs_state c' <> Idle) /\ (~ active c -> c' = c)
  else active c /\ active c'.
Proof.
  unfold active. intros Hr. destruct Hr as [H1 H2|code what c1 Hst ? ? ?|a| | | | |]; cbn [cr_close_transport]; cbn.
  - split; [intros [?|?]; contradiction|auto].
  - split; [|intros Hn; destruct (Hn Hst)]. intros _. split; [intros [?|?]; discriminate|discriminate].
  - auto.
  - auto.
  - auto.
  - auto.
  - split; [|intros H'; destruct H'; auto]. intros _. split; [intros [?|?]; discriminate|discriminate].
  - split; [|intros H'; destruct H'; auto]. intros _. split; [intros [?|?]; discriminate|discriminate].
Qed.

(** The assignment is handed over once. *)
Lemma handle_rel_handed c frame r c' :
  handle_rel c frame r c' ->
  match cr_assignment r with
  | Some _ => handed c = false /\ handed c' = true
  | None => handed c = true -> handed c' = true
  end.
Proof. unfold handed. intros Hr. destruct Hr; cbn; repeat destr_if; try discriminate; auto.
  match goal with E : cs_state c = _ |- _ => rewrite E; auto end.
Qed.

Lemma handle_rel_assignment c frame r c' a :
  is_bytes (f_payload frame) -> handle_rel c frame r c' -> cr_assignment r = Some a -> ip_assignment_wf a.
Proof.
  intros Hb Hr. destruct Hr; cbn; try discriminate. intros [= <-].
  eapply decode_ip_assignment_facts; eassumption.
Qed.

Lemma live_controller t c' out :
  live [] t -> call_ok (controller_ t) out c' -> Forall valid_frame out -> live out (put_controller c' t).
Proof.
  intros [Hl Hw Hc Hd Hcl _ Hwire] [Hok Hn Ha _] Hv. constructor; auto.
  eapply stream_of_pending; eassumption.
Qed.

Lemma client_handle_frames_wp frames (w : W) t :
  opened w t -> resting false t -> Forall (fun f => is_bytes (f_payload f)) frames ->
  wp (handle_frames frames) (guarded rests) (w, t).
Proof.
  revert w t. induction frames as [|frame frames IH]; intros w t Hw Ht Hfs; [right; auto|].
  apply Forall_cons in Hfs as [Hb Hfs]. cbn [handle_frames]. destruct Ht as (Hl & Hh & Hst & Hx).
  destruct (client_handle_sound frame _ (lv_controller _ _ Hl) Hb) as (r & c' & E & Hrel).
  apply wp_bind. unfold wp at 1, on_controller. rewrite E. cbn [fst snd].
  pose proof (live_controller _ _ _ Hl (handle_call _ _ _ _ (lv_controller _ _ Hl) Hb Hrel)
    (client_handle_valid _ _ _ _ (lv_controller _ _ Hl) Hb Hrel)) as Hl'.
  apply wp_bind. eapply wp_mono.
  - apply (client_apply_result_wp r w (put_controller c' t)); auto; [|eauto using handle_rel_assignment|].
    { pose proof (handle_rel_handed _ _ _ _ Hrel) as Hd. destruct (cr_assignment r).
      - destruct Hd as [E1 E2]. unfold opened in Hw. rewrite E1 in Hw. auto.
      - eapply opened_mono; [exact Hw|exact Hd]. }
    cbn [controller_ put_controller close_after_write_ stream_].
    pose proof (handle_rel_active _ _ _ _ Hrel) as Ha. destruct (close_after_write_ t), (cr_close_transport r).
    + destruct Hx as (_ & Hn & Hi). destruct Ha as [_ Ha]. rewrite (Ha Hn). auto.
    + destruct Hx as (_ & Hn & _), Ha as [Ha _]. contradiction.
    + apply Ha, Hx.
    + destruct Hx as [-> _]. split_goal; auto. apply Ha.
  - intros [[]|e] [w1 t1] H1; [|exact H1]. apply client_wp_self. cbn [fst snd] in *.
    destruct (stopped_ t1 || close_after_write_ t1)%bool eqn:Es; [apply wp_ret; exact H1|].
    destruct H1 as [(Ho & _)|[Hw1 Hr1]]; [pose proof (ov_stopped _ Ho); cbn [snd] in *; rewrite H in Es; discriminate|].
    apply IH; assumption.
Qed.

(** *** Events *)

Definition landed (st : St) : Prop :=
  ended st \/ opened st.1 st.2 /\ (beginning (started_ st.2) st.2 \/ resting true st.2).

Lemma ends_wp (m : M St unit) (st : St) :
  wp m (returns (fun _ => ended)) st -> wp m (returns (fun _ => landed)) st.
Proof. intros H. eapply wp_mono; [exact H|]. intros r st' (a & -> & He). exists a. unfold landed. auto. Qed.

Lemma live_stream f pending t :
  live pending t ->
  closed (f (stream_ t)) = closed (stream_ t) -> misused (f (stream_ t)) = misused (stream_ t) ->
  writing (f (stream_ t)) = writing (stream_ t) -> written (f (stream_ t)) = written (stream_ t) ->
  live pending (put_stream (f (stream_ t)) t).
Proof.
  intros [Hl [Ho Hs Hq Hb] Hc Hd Hcl Hp Hwire] E1 E2 E3 E4. constructor; auto.
  - constructor; cbn; rewrite ?E1, ?E2, ?E3; auto.
  - unfold stream_of in *. cbn. rewrite E4. exact Hwire.
Qed.

Lemma client_read_next_wp (w : W) t :
  opened w t -> resting false t -> close_after_write_ t = false ->
  wp read_next (returns (fun _ => landed)) (w, t).
Proof.
  intros Hw (Hl & Hh & Hst & Hx) Hca. unfold read_next. apply client_wp_self.
  rewrite (lv_open _ _ Hl), Hca in *. destruct Hx as [Hrd Ha]. exists tt. split; [reflexivity|].
  right. split; [exact Hw|]. right. split; [|cbn; rewrite Hca; auto].
  apply (live_stream async_read_some); auto. cbn. pose proof (wo_open _ _ _ (lv_writer _ _ Hl)) as Ho.
  rewrite Hrd, Ho, !orb_false_r. reflexivity.
Qed.

Lemma live_decoder d pending t : live pending t -> decoder_ready d -> live pending (put_decoder d t).
Proof. intros [] Hd. constructor; auto. Qed.
Lemma client_closable_decoder d t : closable t -> closable (put_decoder d t).
Proof. intros []. constructor; auto. Qed.

(** The catch block of [handle_read], and what follows it. *)
Lemma catch_wp h (w : W) t :
  ch_open h w -> closable t ->
  wp (let* _ := assign (put_retryable false) in let* _ := close_now in ret false)
    (fun r st' => match r with
      | Ok continued => wp (if negb continued then ret tt else
            let* t := self in if negb (stopped_ t) && negb (close_after_write_ t) then read_next else ret tt)
          (returns (fun _ : unit => landed)) st'
      | Throw e => returns (fun _ : unit => landed) (Throw e) st'
      end) (w, t).
Proof.
  intros Hw Ht. apply client_wp_assign. eapply wp_returns;
    [eapply client_close_now_wp; [exact Hw|apply closable_retryable, Ht]|].
  intros [] st' He. apply wp_ret, wp_ret. exists tt. split; [reflexivity|]. left. exact He.
Qed.

Lemma client_handle_read_wp error data (w : W) t :
  opened w t -> resting false t -> is_bytes data ->
  wp (handle_read error data) (returns (fun _ => landed)) (w, t).
Proof.
  intros Hw Hrest Hb. pose proof Hrest as (Hl & Hh & Hst & Hx).
  unfold handle_read. apply client_wp_self. rewrite (lv_open _ _ Hl). destruct (failed error).
  { eapply ends_wp, refuse_wp; [exact Hw|eapply live_closable, Hl]. }
  apply wp_bind, wp_try, wp_bind.
  destruct (push_ready data (decoder_ t) Hb (lv_decoder _ _ Hl)) as (fs & rest & e & d & Hp & E & _ & _ & Hd).
  unfold wp at 1. unfold on_decoder. rewrite E. cbn [fst snd]. destruct e as [e|].
  { eapply catch_wp; [exact Hw|apply client_closable_decoder; eapply live_closable, Hl]. }
  assert (Hfs : Forall (fun f => is_bytes (f_payload f)) fs).
  { assert (Hb' : is_bytes (unread (decoder_ t) ++ data)).
    { apply is_bytes_app. split; [|exact Hb]. destruct (lv_decoder _ _ Hl) as (Hd0 & _). apply is_bytes_drop, Hd0. }
    destruct (parses_sound _ _ _ _ Hb' Hp) as [Hv _].
    eapply Forall_impl; [exact Hv|]. intros f (_ & _ & _ & _ & Hf & _). exact Hf. }
  apply wp_bind. eapply wp_mono.
  - apply (client_handle_frames_wp fs w (put_decoder d t) Hw); [|exact Hfs].
    split; [apply live_decoder; auto|]. auto.
  - intros [[]|e] [w1 t1] H1; [|destruct H1 as [[b1 Hb1] H1]; eapply catch_wp; [exact Hb1|exact H1]].
    apply wp_ret. cbn [negb]. apply client_wp_self.
    destruct H1 as [He|[Hw1 Hr1]]; cbn [fst snd] in *.
    + pose proof (ov_stopped _ (proj1 He)) as Hs. cbn [snd] in Hs. rewrite Hs. cbn [negb andb]. apply wp_ret.
      exists tt. split; [reflexivity|]. left. exact He.
    + destruct (close_after_write_ t1) eqn:Ec; [|rewrite andb_true_r].
      * rewrite andb_false_r. apply wp_ret. exists tt. split; [reflexivity|]. right. split; [exact Hw1|]. right.
        destruct Hr1 as (A & B & C & D). split; [exact A|]. split; [exact B|]. split; [exact C|].
        cbn [snd]. rewrite Ec in *. exact D.
      * rewrite (lv_open _ _ (proj1 Hr1)). apply client_read_next_wp; auto.
Qed.

Lemma client_handle_handshake_wp error (w : W) t :
  opened w t -> beginning false t -> started_ t = true ->
  wp (handle_handshake error) (returns (fun _ => landed)) (w, t).
Proof.
  intros Hw [Hl Hi [Hrd Hh] [Hf Hca]] Hst. unfold handle_handshake. apply client_wp_self.
  rewrite (lv_open _ _ Hl). destruct (failed error).
  { eapply ends_wp, refuse_wp; [exact Hw|eapply live_closable, Hl]. }
  destruct (start_eq _ (lv_controller _ _ Hl) Hi) as (payload & _ & E).
  pose proof (live_controller _ _ _ Hl (start_call _ _ _ (lv_controller _ _ Hl) E)
    (start_valid _ _ _ (lv_controller _ _ Hl) E)) as Hl'.
  apply wp_bind. unfold wp at 1, on_controller. rewrite E. cbn [fst snd].
  apply wp_bind. unfold wp at 1.
  destruct (enqueue_frame_cases w _ [] _ Hl') as [[-> Hq]| ->]; cbn [fst snd negb].
  - destruct (queued_live _ _ _ Hl' Hq) as (Hl2 & (Kc & Kr & Kh & Ks & Kq) & _). apply client_read_next_wp.
    + eapply opened_mono; [exact Hw|]. unfold handed. rewrite Kq, Hi. discriminate.
    + split; [exact Hl2|]. rewrite Kc, Kr, Kh, Ks, Kq. cbn. rewrite Hca. split_goal; auto. left. reflexivity.
    + rewrite Kc. exact Hca.
  - eapply ends_wp, refuse_wp; [exact Hw|apply closable_retryable; eapply live_closable, Hl'].
Qed.

Lemma client_start_wp sni (w : W) t :
  opened w t -> beginning (started_ t) t -> wp (start_on_strand sni) (returns (fun _ => landed)) (w, t).
Proof.
  intros Hw Hb. pose proof Hb as [Hl Hi [Hrd Hh] [Hf Hca]]. unfold start_on_strand. apply client_wp_self.
  rewrite (lv_open _ _ Hl). cbn [orb]. destruct (started_ t) eqn:Est.
  { apply wp_ret. exists tt. split; [reflexivity|]. right. split; [exact Hw|]. left. cbn [snd]. rewrite Est. exact Hb. }
  apply client_wp_assign.
  assert (Hl1 : live [] (put_started true t)) by (destruct Hl; constructor; auto).
  destruct sni as [[]|e].
  - unfold try_catch, bind, lift, ret. unfold wp at 1. cbn [fst snd negb on_stream assign].
    exists tt. split; [reflexivity|]. right. split; [exact Hw|]. left.
    constructor; [|exact Hi|split; [exact Hrd|reflexivity]|split; assumption].
    apply (live_stream async_handshake); auto. cbn.
    pose proof (wo_open _ _ _ (lv_writer _ _ Hl)) as Ho. rewrite Hh, Ho, !orb_false_r. reflexivity.
  - apply wp_bind, wp_try, wp_bind, wp_lift, client_wp_assign. eapply wp_returns.
    + eapply client_close_now_wp; [exact Hw|]. apply closable_retryable. eapply live_closable, Hl1.
    + intros [] st' He. apply wp_ret, wp_ret. exists tt. split; [reflexivity|]. left. exact He.
Qed.

Lemma client_handle_write_wp error (w : W) t :
  opened w t -> resting true t -> is_Some (writing (stream_ t)) ->
  wp (let* _ := on_stream write_completes in handle_write error) (returns (fun _ => landed)) (w, t).
Proof.
  intros Hw (Hl & Hh & Hst & Hx) [b Hb]. unfold on_stream. apply client_wp_assign. unfold handle_write. apply client_wp_self.
  cbn [stopped_ put_stream]. rewrite (lv_open _ _ Hl).
  pose proof (lv_writer _ _ Hl) as Hwr. pose proof (live_closable _ _ Hl) as Hcb.
  destruct (failed error).
  { eapply ends_wp, refuse_wp; [exact Hw|]. destruct Hcb. constructor; auto. }
  assert (Hf : write_in_progress_ t = true).
  { pose proof (wo_busy _ _ _ Hwr) as Hx0. destruct (write_in_progress_ t); [reflexivity|].
    destruct Hx0. congruence. }
  rewrite Hf in Hwr. pose proof (writer_pop _ _ Hwr) as (Epop & Hwr' & Hbytes).
  pose proof (lv_wire _ _ Hl) as Hwire. rewrite Hf in Hwire.
  pose proof (stream_of_pop _ _ _ _ Hwr Hwire) as Hwire'.
  apply wp_bind. unfold wp at 1. unfold on_queue at 1 2. cbn [outbound_queue_ put_stream]. rewrite Epop. cbn [fst snd].
  set (t1 := put_writing_flag (more (outbound_queue_ t)) (put_stream (next_write (stream_ t) (outbound_queue_ t))
    (put_queue (taken (outbound_queue_ t)) t))).
  assert (Hl1 : live [] t1) by (destruct Hl; constructor; auto).
  assert (Hr1 : close_after_write_ t = false \/ more (outbound_queue_ t) = true -> resting true t1).
  { intros Hm. split; [exact Hl1|]. cbn. unfold next_write.
    split; [destruct (tail _); exact Hh|]. split; [exact Hst|].
    destruct (close_after_write_ t); [|destruct (tail _); exact Hx].
    destruct Hm as [[=]|Hm]. rewrite Hm. tauto. }
  assert (E : write_next (w, put_queue (taken (outbound_queue_ t)) (put_stream (write_completes (stream_ t)) t)) =
    if more (outbound_queue_ t) then (Ok tt, (w, t1))
    else if close_after_write_ t then close_now (w, t1) else (Ok tt, (w, t1))).
  { subst t1. unfold next_write, more, taken. destruct (tail (queue_ (outbound_queue_ t))) as [|b2 rest] eqn:Et;
      unfold write_next, bind, self, assign, on_stream, lift, front, queue_empty; cbn [snd]; unfold wp in *;
      cbn [stopped_ put_queue put_stream outbound_queue_ queue_ close_after_write_ put_writing_flag]; rewrite (lv_open _ _ Hl).
    - change (zlen (@nil bytes) =? 0) with true. cbn [orb].
      destruct (close_after_write_ t); reflexivity.
    - rewrite zlen_cons. pose proof (zlen_nonneg rest). rewrite (proj2 (Z.eqb_neq _ _)) by lia. reflexivity. }
  unfold wp. rewrite E. destruct (more (outbound_queue_ t)) eqn:Em; [|destruct (close_after_write_ t) eqn:Ec].
  - exists tt. split; [reflexivity|]. right. auto.
  - change (wp close_now (returns (fun _ => landed)) (w, t1)).
    eapply ends_wp, client_close_now_wp; [exact Hw|eapply live_closable, Hl1].
  - exists tt. split; [reflexivity|]. right. auto.
Qed.

(** A call that makes at most one frame and keeps the state of the session. *)
Lemma enqueue_made_wp made (w : W) t c' f :
  opened w t -> beginning (started_ t) t \/ resting true t ->
  made (controller_ t) = (Ok f, c') -> call_ok (controller_ t) (option_list f) c' ->
  Forall valid_frame (option_list f) -> cs_state c' = cs_state (controller_ t) ->
  (f <> None -> cs_state (controller_ t) = Established) ->
  wp (enqueue_made made) (returns (fun _ => landed)) (w, t).
Proof.
  intros Hw Ht E Hcall Hv Hst Hf. unfold enqueue_made. apply client_wp_self.
  assert (Hl : live [] t) by (destruct Ht as [[]|[]]; assumption).
  assert (Hstay : landed (w, t)) by (right; auto). rewrite (lv_open _ _ Hl). cbn [orb].
  destruct (close_after_write_ t) eqn:Eca; [apply wp_ret; exists tt; auto|].
  pose proof (live_controller _ _ _ Hl Hcall Hv) as Hl1.
  apply wp_bind. unfold wp at 1, on_controller. rewrite E. cbn [fst snd]. destruct f as [frame|].
  - assert (Hr : resting true t).
    { destruct Ht as [[_ Hi _ _]|Hr]; [|exact Hr]. specialize (Hf ltac:(discriminate)). congruence. }
    destruct Hr as (_ & Hh & Hs & Hx). rewrite Eca in Hx.
    apply wp_bind. unfold wp at 1.
    destruct (enqueue_frame_cases w frame [] _ Hl1) as [[-> Hq]| ->]; cbn [fst snd negb].
    + destruct (queued_live _ _ _ Hl1 Hq) as (Hl2 & (Kc & Kr & Kh & Ks & Kq) & _).
      apply wp_ret. exists tt. split; [reflexivity|]. right.
      split; [eapply opened_mono; [exact Hw|]; unfold handed; cbn [snd]; rewrite Kq; cbn; rewrite Hst; auto|]. right.
      split; [exact Hl2|]. cbn [snd]. rewrite Kc, Kr, Kh, Ks, Kq. cbn. rewrite Eca.
      unfold active in *. rewrite Hst. tauto.
    + eapply ends_wp, client_close_now_wp; [exact Hw|apply closable_retryable; eapply live_closable, Hl1].
  - apply wp_ret. exists tt. split; [reflexivity|]. right.
    split; [eapply opened_mono; [exact Hw|]; unfold handed; cbn; rewrite Hst; auto|]. cbn [option_list] in Hl1.
    destruct Ht as [[_ Hi Hs Hfl]|(_ & Hh & Hs & Hx)]; [left|right].
    + constructor; auto. cbn. congruence.
    + split; [exact Hl1|]. cbn. rewrite Eca in *. unfold active in *. rewrite Hst. tauto.
Qed.

Lemma stop_wp code (w : W) t :
  opened w t -> beginning (started_ t) t \/ resting true t -> in_u16 code ->
  wp (stop code) (returns (fun _ => landed)) (w, t).
Proof.
  intros Hw Ht Hcode. unfold stop. apply client_wp_self.
  assert (Hl : live [] t) by (destruct Ht as [[]|[]]; assumption). rewrite (lv_open _ _ Hl).
  destruct (make_close code (controller_ t)) as [[f|e] c'] eqn:E.
  2:{ rewrite make_close_eq in E. destruct (_ || _)%bool; discriminate. }
  pose proof (live_controller _ _ _ Hl (close_call _ _ _ _ (lv_controller _ _ Hl) E)
    (close_valid _ _ _ _ (lv_controller _ _ Hl) Hcode E)) as Hl1.
  apply wp_bind. unfold wp at 1, on_controller. rewrite E. cbn [fst snd].
  rewrite make_close_eq in E. destruct (_ || _)%bool eqn:Est; injection E as <- <-.
  - apply client_wp_assign.
    assert (Hl2 : live (option_list (Some (mkFrame MtClose 0 (cs_next_outbound_sequence (controller_ t)) (append_u16 [] code))))
      (put_close_after true (put_controller (numbered (set_state Closing (controller_ t))) t)))
      by (destruct Hl1; constructor; auto).
    apply wp_bind. unfold wp at 1.
    destruct (enqueue_frame_cases w _ [] _ Hl2) as [[-> Hq]| ->]; cbn [fst snd negb].
    + destruct (queued_live _ _ _ Hl2 Hq) as (Hl3 & (Kc & Kr & Kh & Ks & Kq) & Kf).
      apply wp_ret. exists tt. split; [reflexivity|]. right.
      split; [eapply opened_mono; [exact Hw|]; unfold handed; cbn [snd]; rewrite Kq; reflexivity|]. right.
      assert (Hr : resting true t).
      { destruct Ht as [[_ Hi _ _]|Hr]; [|exact Hr]. rewrite Hi in Est. discriminate. }
      destruct Hr as (_ & Hh & Hs & _). split; [exact Hl3|]. cbn [snd]. rewrite Kc, Kh, Ks, Kq. cbn.
      split_goal; auto. intros [?|?]; discriminate.
    + eapply ends_wp, client_close_now_wp; [exact Hw|apply closable_retryable; eapply live_closable, Hl2].
  - eapply ends_wp, client_close_now_wp; [exact Hw|eapply live_closable, Hl1].
Qed.

(** A closed tunnel ignores every event. *)
Lemma client_over_event e (w : W) t :
  stopped_ t = true ->
  exists f, run_event e (w, t) = (Ok tt, (w, put_stream (f (stream_ t)) t)) /\
    (forall s, closed (f s) = closed s /\ misused (f s) = misused s /\ written (f s) = written s).
Proof.
  intros Hs. assert (Hcn := client_close_now_stopped w t Hs).
  assert (Hid : forall r, r = (Ok tt, (w, t)) -> exists f : Stream -> Stream,
    r = (Ok tt, (w, put_stream (f (stream_ t)) t)) /\
    (forall s, closed (f s) = closed s /\ misused (f s) = misused s /\ written (f s) = written s)).
  { intros r ->. exists (fun s => s). split; [destruct t; reflexivity|auto]. }
  destruct e; cbn [run_event].
  - apply Hid. unfold start_on_strand, bind, self. cbn. rewrite Hs. reflexivity.
  - exists handshake_completes. split; [|auto]. unfold handle_handshake, bind, on_stream, assign, self. cbn. rewrite Hs. reflexivity.
  - exists read_completes. split; [|auto]. unfold handle_read, bind, on_stream, assign, self. cbn. rewrite Hs. reflexivity.
  - exists write_completes. split; [|auto]. unfold handle_write, bind, on_stream, assign, self. cbn. rewrite Hs. reflexivity.
  - apply Hid. unfold send_ipv4_from_tun, enqueue_made, bind, self. cbn. rewrite Hs. reflexivity.
  - apply Hid. unfold ping, enqueue_made, bind, self. cbn. rewrite Hs. reflexivity.
  - apply Hid. unfold stop, bind, self. cbn. rewrite Hs. reflexivity.
  - apply Hid. exact Hcn.
Qed.

Lemma beginning_shaken t :
  beginning true t -> beginning false (put_stream (handshake_completes (stream_ t)) t).
Proof.
  intros [Hl Hi [Hrd _] Hf]. constructor; auto. apply (live_stream handshake_completes); auto.
Qed.

Lemma open_event e (w : W) t :
  opened w t -> beginning (started_ t) t \/ resting true t -> possible e t ->
  wp (run_event e) (returns (fun _ => landed)) (w, t).
Proof.
  intros Hw Ht Hp. assert (Hl : live [] t) by (destruct Ht as [[]|[]]; assumption).
  assert (Hstay : landed (w, t)) by (right; auto).
  destruct e; cbn [run_event possible] in *.
  - destruct Ht as [Hb|(_ & _ & Hs & _)]; [apply client_start_wp; assumption|].
    unfold start_on_strand. apply client_wp_self. rewrite Hs, orb_true_r. apply wp_ret. exists tt. auto.
  - unfold on_stream. apply client_wp_assign. destruct Ht as [Hb|(_ & Hh & _)]; [|congruence].
    destruct (bg_stream _ _ Hb) as [_ Hst]. rewrite Hp in Hst. rewrite <- Hst in Hb.
    apply client_handle_handshake_wp; [exact Hw|apply beginning_shaken, Hb|auto].
  - destruct Hp as [Hrd Hb]. destruct Ht as [[_ _ [Hn _] _]|(_ & Hh & Hs & Hx)]; [congruence|].
    unfold on_stream. apply client_wp_assign, client_handle_read_wp; [exact Hw| |exact Hb].
    split; [apply (live_stream read_completes); auto|]. cbn. split; [exact Hh|]. split; [exact Hs|].
    destruct (close_after_write_ t); [exact Hx|]. split; [reflexivity|apply Hx].
  - destruct Ht as [[_ _ _ [Hf _]]|Hr]; [|apply client_handle_write_wp; assumption].
    pose proof (wo_busy _ _ _ (lv_writer _ _ Hl)) as Hb. rewrite Hf in Hb. destruct Hb as [Hb _].
    rewrite Hb in Hp. destruct Hp as [? [=]].
  - destruct (send_sound packet _ (lv_controller _ _ Hl) Hp) as (f & c' & E & Hrel).
    eapply enqueue_made_wp; eauto using send_call, send_valid, lv_controller.
    + destruct Hrel as [(_ & -> & _)|(a & ty & _ & _ & _ & _ & ->)]; reflexivity.
    + destruct Hrel as [(-> & _)|(a & ty & Hst & _)]; [contradiction|auto].
  - destruct (make_ping nonce (controller_ t)) as [r c'] eqn:E. pose proof E as E'. rewrite make_ping_eq in E.
    destruct r as [f|x]; [|destruct (_ && _)%bool; discriminate].
    eapply enqueue_made_wp; eauto using ping_call, ping_valid, lv_controller.
    + destruct (_ && _)%bool; injection E as <- <-; reflexivity.
    + destruct (_ && _)%bool eqn:Eb; injection E as <- <-; [|contradiction]. intros _.
      apply andb_true_iff in Eb as [Eb _]. apply bool_decide_eq_true in Eb. exact Eb.
  - apply stop_wp; assumption.
  - eapply ends_wp, client_close_now_wp; [exact Hw|eapply live_closable, Hl].
Qed.

(** ** Runs *)

(** A tunnel after any history, with the close handler that the runtime always
    sets; while it is open, the host may move on by itself. *)
Inductive tunnel_reachable : W -> TlsTunnelClient -> Prop :=
| tur_make name a k mtu mf mb w t :
    in_u64 mf -> in_u64 mb -> make_tunnel name a k true mtu mf mb = Ok t -> ch_open false w ->
    tunnel_reachable w t
| tur_event ev w t r w' t' :
    tunnel_reachable w t -> possible ev t -> run_event ev (w, t) = (r, (w', t')) -> tunnel_reachable w' t'
| tur_host w w' t : tunnel_reachable w t -> (stopped_ t = false -> opened w' t) -> tunnel_reachable w' t.

Lemma make_tunnel_ok name a k mtu mf mb t :
  in_u64 mf -> in_u64 mb -> make_tunnel name a k true mtu mf mb = Ok t -> beginning (started_ t) t.
Proof.
  intros Hf Hb H. unfold make_tunnel in H. apply obind_ok in H as (c & Hc & H).
  apply obind_ok in H as (q & Hq & H). apply reject_then in H as [_ H]. apply ok_inj in H as <-.
  destruct (make_client_ok _ _ Hc) as [Hok Hn].
  unfold make_queue in Hq. destruct (_ || _)%bool eqn:E in Hq; [discriminate|]. apply ok_inj in Hq as <-. b2p.
  assert (Hi : cs_state c = Idle).
  { unfold make_client in Hc. apply obind_ok in Hc as (p & _ & Hc). apply ok_inj in Hc as <-. reflexivity. }
  constructor; cbn; auto. constructor; cbn; auto.
  - constructor; cbn; auto. constructor; cbn; auto; unfold kHeaderSize in *; change (zlen (@nil bytes)) with 0; int_lia.
  - exact decoder_init_ready.
  - exists []. unfold waiting. cbn. rewrite Hn. split_goal; auto; try reflexivity.
Qed.

Definition hosted (w : W) (t : TlsTunnelClient) : Prop :=
  if stopped_ t then over t else opened w t /\ (beginning (started_ t) t \/ resting true t).

Lemma landed_hosted w t : landed (w, t) -> hosted w t.
Proof.
  intros [(Ho & _)|[Hw Ht]]; cbn [fst snd] in *; unfold hosted.
  - rewrite (ov_stopped _ Ho). exact Ho.
  - assert (Hl : live [] t) by (destruct Ht as [[]|[]]; assumption). rewrite (lv_open _ _ Hl). auto.
Qed.

Lemma client_over_stream f t :
  over t -> (forall s, closed (f s) = closed s /\ misused (f s) = misused s /\ written (f s) = written s) ->
  over (put_stream (f (stream_ t)) t).
Proof.
  intros [] Hf. destruct (Hf (stream_ t)) as (E1 & E2 & E3). constructor; cbn; auto; try congruence.
  unfold sent in *. rewrite E3. assumption.
Qed.

Lemma event_hosted e (w : W) t r w' t' :
  hosted w t -> possible e t -> run_event e (w, t) = (r, (w', t')) ->
  r = Ok tt /\ hosted w' t' /\
  (stopped_ t = true -> w' = w /\ written (stream_ t') = written (stream_ t)) /\
  (stopped_ t = false -> stopped_ t' = true -> ended (w', t')).
Proof.
  unfold hosted at 1. intros Hh Hp E. destruct (stopped_ t) eqn:Es.
  - destruct (client_over_event e w t Es) as (f & Ef & Hf). rewrite Ef in E. injection E as <- <- <-.
    destruct (Hf (stream_ t)) as (_ & _ & Hw). split; [reflexivity|].
    split; [|split; [auto|discriminate]]. unfold hosted. cbn. rewrite Es. apply client_over_stream; assumption.
  - destruct Hh as [Hw Ht]. pose proof (open_event e w t Hw Ht Hp) as H. unfold wp in H. rewrite E in H.
    destruct H as ([] & Hr & Hl). cbn [fst snd] in Hr, Hl. subst r. split; [reflexivity|].
    split; [exact (landed_hosted _ _ Hl)|]. split; [discriminate|]. intros _ Hs.
    destruct Hl as [He|[_ Ht']]; [exact He|].
    assert (Hl : live [] t') by (destruct Ht' as [[]|[]]; assumption). pose proof (lv_open _ _ Hl). congruence.
Qed.

Lemma tunnel_reachable_ok w t : tunnel_reachable w t -> hosted w t.
Proof.
  induction 1 as [name a k mtu mf mb w t Hf Hb Hm Hw|ev w t r w' t' _ Hh Hp E|w w' t _ Hh Hw].
  - pose proof (make_tunnel_ok _ _ _ _ _ _ _ Hf Hb Hm) as Hbg. unfold hosted.
    rewrite (lv_open _ _ (bg_live _ _ Hbg)). split; [|auto]. unfold opened, handed.
    rewrite (bg_idle _ _ Hbg). exact Hw.
  - eapply event_hosted; eassumption.
  - unfold hosted in *. destruct (stopped_ t); [exact Hh|]. split; [auto|apply Hh].
Qed.

(** ** Properties *)

(** C21: every handler of the client's tunnel returns, whatever the server
    sends and whatever fails, and never misuses the stream; what has been
    written is whole frames numbered 1, 2, 3, ..., which a decoder delivers
    however the bytes are split.  A tunnel that is not closed always waits for
    something: for the handshake once it is started, for the server while the
    session is on, and for the last frames to leave when it is to close. *)
Theorem tunnel_handlers_safe e w t r w' t' chunks :
  tunnel_reachable w t -> possible e t -> run_event e (w, t) = (r, (w', t')) ->
  concat chunks = concat (written (stream_ t')) ->
  r = Ok tt /\ misused (stream_ t') = false /\
  (exists fs d, consecutive 1 fs /\ feed chunks decoder_init = (fs, None, d) /\ buffered_bytes d = 0) /\
  (stopped_ t' = false ->
   if close_after_write_ t' then is_Some (writing (stream_ t'))
   else match cs_state (controller_ t') with
        | Idle => started_ t' = true -> handshaking (stream_ t') = true
        | AwaitingAssignment | Established => reading (stream_ t') = true
        | Closing | Closed => False
        end).
Proof.
  intros Hh%tunnel_reachable_ok Hp E Hc.
  destruct (event_hosted _ _ _ _ _ _ Hh Hp E) as (-> & Hh' & _). split; [reflexivity|]. unfold hosted in Hh'.
  assert (Hgoal : misused (stream_ t') = false /\ sent (stream_ t') /\
    (stopped_ t' = false -> if close_after_write_ t' then is_Some (writing (stream_ t'))
      else match cs_state (controller_ t') with
        | Idle => started_ t' = true -> handshaking (stream_ t') = true
        | AwaitingAssignment | Established => reading (stream_ t') = true
        | Closing | Closed => False
        end)).
  { destruct (stopped_ t'); [split; [apply Hh'|split; [apply Hh'|discriminate]]|]. destruct Hh' as [_ Ht].
    assert (Hl : live [] t') by (destruct Ht as [[]|[]]; assumption).
    split; [apply (live_closable _ _ Hl)|]. split; [apply (live_closable _ _ Hl)|]. intros _.
    destruct Ht as [[_ Hi [_ Hs] [_ Hca]]|(_ & _ & _ & Hx)].
    - rewrite Hca, Hi, Hs. auto.
    - destruct (close_after_write_ t').
      + destruct Hx as (Hf & _). pose proof (wo_busy _ _ _ (lv_writer _ _ Hl)) as Hb. rewrite Hf in Hb.
        destruct Hb as (b & rest & -> & _). eauto.
      + destruct Hx as [Hrd [-> | ->]]; exact Hrd. }
  destruct Hgoal as (Hm & (fs & Hv & Hw & Hn) & Hlive). split; [exact Hm|]. split; [|exact Hlive].
  rewrite Hw in Hc. destruct (feed_wires chunks fs Hv Hc) as (d & Hd & Hbuf & _). eauto.
Qed.

(** C22: the tunnel reports its end to the runtime once, as the last thing it
    does: the event that closes it ends with one call of the close handler,
    with the error the server sent, if any, and the verdict whether to
    reconnect, and leaves the stream closed, the queue empty and the session
    over; afterwards no event reaches the runtime or the stream any more. *)
Theorem tunnel_reports_once e w t r w' t' :
  tunnel_reachable w t -> possible e t -> run_event e (w, t) = (r, (w', t')) ->
  (stopped_ t = false -> stopped_ t' = true ->
     (exists b h, ch_open b h /\
        client_close_handler (remote_error_ t') (retryable_close_ t') h = (Ok tt, w')) /\
     ch_done w' /\ has_close t' = false /\ closed (stream_ t') = true /\
     queue_ (outbound_queue_ t') = [] /\ cs_state (controller_ t') = Closed) /\
  (stopped_ t = true -> w' = w /\ stopped_ t' = true /\ written (stream_ t') = written (stream_ t)).
Proof.
  intros Hh%tunnel_reachable_ok Hp E.
  destruct (event_hosted _ _ _ _ _ _ Hh Hp E) as (_ & Hh' & Hs & He). split.
  - intros H1 H2. destruct (He H1 H2) as (Ho & Hd & Hx). cbn [fst snd] in *. split; [exact Hx|].
    destruct Ho. auto.
  - intros H1. destruct (Hs H1) as [-> Hw]. split_goal; auto.
    destruct (client_over_event e w t H1) as (f & Ef & _). rewrite Ef in E. injection E as <- <-. exact H1.
Qed.
End Laws.

(** ** Witnesses: a tunnel of a runtime that records *)

Record ClientLog := mkClientLog {
  lg_assignments : list IpAssignment;
  lg_packets : list bytes;
  lg_closes : list (option ErrorMessage * bool)
}.

#[export] Instance client_log_host : ClientHost ClientLog := {
  assignment_handler a := fun h =>
    (Ok true, mkClientLog (lg_assignments h ++ [a]) (lg_packets h) (lg_closes h));
  client_packet_sink p := fun h =>
    (Ok tt, mkClientLog (lg_assignments h) (lg_packets h ++ [p]) (lg_closes h));
  client_close_handler error retryable := fun h =>
    (Ok tt, mkClientLog (lg_assignments h) (lg_packets h) (lg_closes h ++ [(error, retryable)]))
}.
#[export] Instance client_log_laws : ClientHostLaws ClientLog.
Proof.
  refine {| ch_open (given : bool) h := lg_closes h = [] /\ (length (lg_assignments h) <= if given then 1 else 0)%nat;
    ch_done h := length (lg_closes h) = 1%nat |}.
  - intros h [Hc Ha]. split; [exact Hc|lia].
  - intros a h _ [Hc Ha]. split; [exact Hc|]. cbn. rewrite length_app. cbn. lia.
  - intros p given h Hh. exact Hh.
  - intros e retryable given h [Hc _]. eexists. split; [reflexivity|]. cbn. rewrite Hc. reflexivity.
Defined.

Definition sample_tunnel : TlsTunnelClient :=
  mkTunnel "vpn.example" true true true sample_client decoder_init (mkQueue 256 1048576 0 []) None true
    fresh_stream false false false false.

Fixpoint tunnel_run (es : list tunnel_event) (st : ClientLog * TlsTunnelClient) :=
  match es with
  | [] => st
  | e :: es => tunnel_run es (run_event e st).2
  end.
Fixpoint tunnel_possible (es : list tunnel_event) (st : ClientLog * TlsTunnelClient) : Prop :=
  match es with
  | [] => True
  | e :: es => possible e st.2 /\ tunnel_possible es (run_event e st).2
  end.

Lemma tunnel_run_reachable es st :
  tunnel_reachable st.1 st.2 -> tunnel_possible es st ->
  tunnel_reachable (tunnel_run es st).1 (tunnel_run es st).2.
Proof.
  revert st. induction es as [|e es IH]; intros [w t] Hr Hp; [exact Hr|]. destruct Hp as [Hp Hps].
  apply IH; [|exact Hps]. cbn [fst snd] in *.
  destruct (run_event e (w, t)) as [r [w' t']] eqn:E. exact (tur_event e w t r w' t' Hr Hp E).
Qed.

(** The tunnel connects, is assigned an address, sends a packet of the device
    and the server resets the connection. *)
Definition tunnel_story : list tunnel_event :=
  [TeStart (Ok tt); TeHandshake IoOk; TeWrite IoOk; TeRead IoOk (wire assign_frame); TeTun local_packet].
Definition tunnel_up := tunnel_run tunnel_story (mkClientLog [] [] [], sample_tunnel).

Lemma tunnel_up_reachable : tunnel_reachable tunnel_up.1 tunnel_up.2.
Proof.
  apply tunnel_run_reachable.
  - apply (tur_make "vpn.example" true true 1400 256 1048576); [int_lia|int_lia|reflexivity|split; [reflexivity|cbn; lia]].
  - split; [exact I|]. split; [reflexivity|]. split; [vm_compute; eauto|].
    split; [split; [vm_compute; reflexivity|decide_prop]|]. split; [decide_prop|exact I].
Qed.

Example tunnel_up_state :
  lg_assignments tunnel_up.1 = [sample_assignment] /\ cs_state (controller_ tunnel_up.2) = Established /\
  length (written (stream_ tunnel_up.2)) = 2%nat /\ write_in_progress_ tunnel_up.2 = true.
Proof. vm_compute. auto. Qed.

Lemma tunnel_handlers_safe_witness :
  possible (TeWrite IoOk) tunnel_up.2 /\
  misused (stream_ (run_event (TeWrite IoOk) tunnel_up).2.2) = false.
Proof.
  assert (Hp : possible (TeWrite IoOk) tunnel_up.2) by (vm_compute; eauto).
  split; [exact Hp|].
  destruct (run_event (TeWrite IoOk) (tunnel_up.1, tunnel_up.2)) as [r [w' t']] eqn:E.
  destruct (tunnel_handlers_safe (TeWrite IoOk) _ _ r w' t' (written (stream_ t'))
    tunnel_up_reachable Hp E eq_refl) as (_ & Hm & _).
  rewrite <- surjective_pairing in E. rewrite E. exact Hm.
Defined.

Lemma tunnel_reports_once_witness :
  stopped_ tunnel_up.2 = false /\
  (let st := (run_event (TeRead IoOtherError []) tunnel_up).2 in
   lg_closes st.1 = [(None, true)] /\ closed (stream_ st.2) = true).
Proof.
  assert (Hp : possible (TeRead IoOtherError []) tunnel_up.2) by (split; [vm_compute; reflexivity|constructor]).
  assert (Hs : stopped_ tunnel_up.2 = false) by (vm_compute; reflexivity). split; [exact Hs|].
  destruct (run_event (TeRead IoOtherError []) (tunnel_up.1, tunnel_up.2)) as [r [w' t']] eqn:E.
  destruct (tunnel_reports_once (TeRead IoOtherError []) _ _ r w' t' tunnel_up_reachable Hp E) as [H _].
  rewrite <- surjective_pairing in E. rewrite E. cbn [fst snd].
  assert (let st := (r, (w', t')).2 in stopped_ st.2 = true /\ lg_closes st.1 = [(None, true)]) as [Hs' Hl].
  { rewrite <- E. vm_compute. auto. }
  destruct (H Hs Hs') as (_ & _ & _ & Hc & _). auto.
Defined.
