(* ===== verification/ServerConfig.v ===== *)
(** * The server's configuration

    Models src/server/server_config.cpp and its header: the command line, and
    the checks that an accepted configuration has passed; and, of
    src/server/main.cpp, what [run_server] builds from it. *)
From S2P Require Import Prelude Bytes ControlMessages Address LeaseManager LeaseService TunnelServer.

Inductive MetricsFormat := FormatJson | FormatPrometheus.

Record ServerConfig := mkServerConfig {
  cf_listen_address : string;
  cf_listen_port : Z;
  cf_tun_name : string;
  cf_certificate_chain_file : string;
  cf_private_key_file : string;
  cf_client_ca_file : string;
  cf_client_crl_file : string;
  cf_first_lease_address : string;
  cf_last_lease_address : string;
  cf_gateway_address : string;
  cf_ipv6_prefix_address : string;
  cf_ipv6_gateway : string;
  cf_prefix_length : Z;
  cf_mtu : Z;
  cf_lease_seconds : Z;
  cf_worker_threads : Z;
  cf_maximum_sessions : Z;
  cf_handshake_timeout_seconds : Z;
  cf_idle_timeout_seconds : Z;
  cf_metrics_interval_seconds : Z;
  cf_metrics_format : MetricsFormat;
  cf_show_help : bool;
  cf_show_version : bool
}.

Definition default_config : ServerConfig :=
  mkServerConfig "0.0.0.0" 8443 "pvpn0" "" "" "" "" "10.8.0.2" "10.8.0.254" "10.8.0.1" "fd00:8::"
    "fd00:8::1" 24 1400 3600 2 1024 10 300 60 FormatJson false false.

Definition put_listen_address (x : string) (c : ServerConfig) : ServerConfig :=
  mkServerConfig x (cf_listen_port c) (cf_tun_name c) (cf_certificate_chain_file c)
    (cf_private_key_file c) (cf_client_ca_file c) (cf_client_crl_file c)
    (cf_first_lease_address c) (cf_last_lease_address c) (cf_gateway_address c)
    (cf_ipv6_prefix_address c) (cf_ipv6_gateway c) (cf_prefix_length c) (cf_mtu c)
    (cf_lease_seconds c) (cf_worker_threads c) (cf_maximum_sessions c)
    (cf_handshake_timeout_seconds c) (cf_idle_timeout_seconds c) (cf_metrics_interval_seconds c)
    (cf_metrics_format c) (cf_show_help c) (cf_show_version c).
Definition put_listen_port (x : Z) (c : ServerConfig) : ServerConfig :=
  mkServerConfig (cf_listen_address c) x (cf_tun_name c) (cf_certificate_chain_file c)
    (cf_private_key_file c) (cf_client_ca_file c) (cf_client_crl_file c)
    (cf_first_lease_address c) (cf_last_lease_address c) (cf_gateway_address c)
    (cf_ipv6_prefix_address c) (cf_ipv6_gateway c) (cf_prefix_length c) (cf_mtu c)
    (cf_lease_seconds c) (cf_worker_threads c) (cf_maximum_sessions c)
    (cf_handshake_timeout_seconds c) (cf_idle_timeout_seconds c) (cf_metrics_interval_seconds c)
    (cf_metrics_format c) (cf_show_help c) (cf_show_version c).
Definition put_tun_name (x : string) (c : ServerConfig) : ServerConfig :=
  mkServerConfig (cf_listen_address c) (cf_listen_port c) x (cf_certificate_chain_file c)
    (cf_private_key_file c) (cf_client_ca_file c) (cf_client_crl_file c)
    (cf_first_lease_address c) (cf_last_lease_address c) (cf_gateway_address c)
    (cf_ipv6_prefix_address c) (cf_ipv6_gateway c) (cf_prefix_length c) (cf_mtu c)
    (cf_lease_seconds c) (cf_worker_threads c) (cf_maximum_sessions c)
    (cf_handshake_timeout_seconds c) (cf_idle_timeout_seconds c) (cf_metrics_interval_seconds c)
    (cf_metrics_format c) (cf_show_help c) (cf_show_version c).
Definition put_certificate_chain_file (x : string) (c : ServerConfig) : ServerConfig :=
  mkServerConfig (cf_listen_address c) (cf_listen_port c) (cf_tun_name c) x
    (cf_private_key_file c) (cf_client_ca_file c) (cf_client_crl_file c)
    (cf_first_lease_address c) (cf_last_lease_address c) (cf_gateway_address c)
    (cf_ipv6_prefix_address c) (cf_ipv6_gateway c) (cf_prefix_length c) (cf_mtu c)
    (cf_lease_seconds c) (cf_worker_threads c) (cf_maximum_sessions c)
    (cf_handshake_timeout_seconds c) (cf_idle_timeout_seconds c) (cf_metrics_interval_seconds c)
    (cf_metrics_format c) (cf_show_help c) (cf_show_version c).
Definition put_private_key_file (x : string) (c : ServerConfig) : ServerConfig :=
  mkServerConfig (cf_listen_address c) (cf_listen_port c) (cf_tun_name c)
    (cf_certificate_chain_file c) x (cf_client_ca_file c) (cf_client_crl_file c)
    (cf_first_lease_address c) (cf_last_lease_address c) (cf_gateway_address c)
    (cf_ipv6_prefix_address c) (cf_ipv6_gateway c) (cf_prefix_length c) (cf_mtu c)
    (cf_lease_seconds c) (cf_worker_threads c) (cf_maximum_sessions c)
    (cf_handshake_timeout_seconds c) (cf_idle_timeout_seconds c) (cf_metrics_interval_seconds c)
    (cf_metrics_format c) (cf_show_help c) (cf_show_version c).
Definition put_client_ca_file (x : string) (c : ServerConfig) : ServerConfig :=
  mkServerConfig (cf_listen_address c) (cf_listen_port c) (cf_tun_name c)
    (cf_certificate_chain_file c) (cf_private_key_file c) x (cf_client_crl_file c)
    (cf_first_lease_address c) (cf_last_lease_address c) (cf_gateway_address c)
    (cf_ipv6_prefix_address c) (cf_ipv6_gateway c) (cf_prefix_length c) (cf_mtu c)
    (cf_lease_seconds c) (cf_worker_threads c) (cf_maximum_sessions c)
    (cf_handshake_timeout_seconds c) (cf_idle_timeout_seconds c) (cf_metrics_interval_seconds c)
    (cf_metrics_format c) (cf_show_help c) (cf_show_version c).
Definition put_client_crl_file (x : string) (c : ServerConfig) : ServerConfig :=
  mkServerConfig (cf_listen_address c) (cf_listen_port c) (cf_tun_name c)
    (cf_certificate_chain_file c) (cf_private_key_file c) (cf_client_ca_file c) x
    (cf_first_lease_address c) (cf_last_lease_address c) (cf_gateway_address c)
    (cf_ipv6_prefix_address c) (cf_ipv6_gateway c) (cf_prefix_length c) (cf_mtu c)
    (cf_lease_seconds c) (cf_worker_threads c) (cf_maximum_sessions c)
    (cf_handshake_timeout_seconds c) (cf_idle_timeout_seconds c) (cf_metrics_interval_seconds c)
    (cf_metrics_format c) (cf_show_help c) (cf_show_version c).
Definition put_first_lease_address (x : string) (c : ServerConfig) : ServerConfig :=
  mkServerConfig (cf_listen_address c) (cf_listen_port c) (cf_tun_name c)
    (cf_certificate_chain_file c) (cf_private_key_file c) (cf_client_ca_file c)
    (cf_client_crl_file c) x (cf_last_lease_address c) (cf_gateway_address c)
    (cf_ipv6_prefix_address c) (cf_ipv6_gateway c) (cf_prefix_length c) (cf_mtu c)
    (cf_lease_seconds c) (cf_worker_threads c) (cf_maximum_sessions c)
    (cf_handshake_timeout_seconds c) (cf_idle_timeout_seconds c) (cf_metrics_interval_seconds c)
    (cf_metrics_format c) (cf_show_help c) (cf_show_version c).
Definition put_last_lease_address (x : string) (c : ServerConfig) : ServerConfig :=
  mkServerConfig (cf_listen_address c) (cf_listen_port c) (cf_tun_name c)
    (cf_certificate_chain_file c) (cf_private_key_file c) (cf_client_ca_file c)
    (cf_client_crl_file c) (cf_first_lease_address c) x (cf_gateway_address c)
    (cf_ipv6_prefix_address c) (cf_ipv6_gateway c) (cf_prefix_length c) (cf_mtu c)
    (cf_lease_seconds c) (cf_worker_threads c) (cf_maximum_sessions c)
    (cf_handshake_timeout_seconds c) (cf_idle_timeout_seconds c) (cf_metrics_interval_seconds c)
    (cf_metrics_format c) (cf_show_help c) (cf_show_version c).
Definition put_gateway_address (x : string) (c : ServerConfig) : ServerConfig :=
  mkServerConfig (cf_listen_address c) (cf_listen_port c) (cf_tun_name c)
    (cf_certificate_chain_file c) (cf_private_key_file c) (cf_client_ca_file c)
    (cf_client_crl_file c) (cf_first_lease_address c) (cf_last_lease_address c) x
    (cf_ipv6_prefix_address c) (cf_ipv6_gateway c) (cf_prefix_length c) (cf_mtu c)
    (cf_lease_seconds c) (cf_worker_threads c) (cf_maximum_sessions c)
    (cf_handshake_timeout_seconds c) (cf_idle_timeout_seconds c) (cf_metrics_interval_seconds c)
    (cf_metrics_format c) (cf_show_help c) (cf_show_version c).
Definition put_ipv6_prefix_address (x : string) (c : ServerConfig) : ServerConfig :=
  mkServerConfig (cf_listen_address c) (cf_listen_port c) (cf_tun_name c)
    (cf_certificate_chain_file c) (cf_private_key_file c) (cf_client_ca_file c)
    (cf_client_crl_file c) (cf_first_lease_address c) (cf_last_lease_address c)
    (cf_gateway_address c) x (cf_ipv6_gateway c) (cf_prefix_length c) (cf_mtu c)
    (cf_lease_seconds c) (cf_worker_threads c) (cf_maximum_sessions c)
    (cf_handshake_timeout_seconds c) (cf_idle_timeout_seconds c) (cf_metrics_interval_seconds c)
    (cf_metrics_format c) (cf_show_help c) (cf_show_version c).
Definition put_ipv6_gateway (x : string) (c : ServerConfig) : ServerConfig :=
  mkServerConfig (cf_listen_address c) (cf_listen_port c) (cf_tun_name c)
    (cf_certificate_chain_file c) (cf_private_key_file c) (cf_client_ca_file c)
    (cf_client_crl_file c) (cf_first_lease_address c) (cf_last_lease_address c)
    (cf_gateway_address c) (cf_ipv6_prefix_address c) x (cf_prefix_length c) (cf_mtu c)
    (cf_lease_seconds c) (cf_worker_threads c) (cf_maximum_sessions c)
    (cf_handshake_timeout_seconds c) (cf_idle_timeout_seconds c) (cf_metrics_interval_seconds c)
    (cf_metrics_format c) (cf_show_help c) (cf_show_version c).
Definition put_prefix_length (x : Z) (c : ServerConfig) : ServerConfig :=
  mkServerConfig (cf_listen_address c) (cf_listen_port c) (cf_tun_name c)
    (cf_certificate_chain_file c) (cf_private_key_file c) (cf_client_ca_file c)
    (cf_client_crl_file c) (cf_first_lease_address c) (cf_last_lease_address c)
    (cf_gateway_address c) (cf_ipv6_prefix_address c) (cf_ipv6_gateway c) x (cf_mtu c)
    (cf_lease_seconds c) (cf_worker_threads c) (cf_maximum_sessions c)
    (cf_handshake_timeout_seconds c) (cf_idle_timeout_seconds c) (cf_metrics_interval_seconds c)
    (cf_metrics_format c) (cf_show_help c) (cf_show_version c).
Definition put_mtu (x : Z) (c : ServerConfig) : ServerConfig :=
  mkServerConfig (cf_listen_address c) (cf_listen_port c) (cf_tun_name c)
    (cf_certificate_chain_file c) (cf_private_key_file c) (cf_client_ca_file c)
    (cf_client_crl_file c) (cf_first_lease_address c) (cf_last_lease_address c)
    (cf_gateway_address c) (cf_ipv6_prefix_address c) (cf_ipv6_gateway c) (cf_prefix_length c) x
    (cf_lease_seconds c) (cf_worker_threads c) (cf_maximum_sessions c)
    (cf_handshake_timeout_seconds c) (cf_idle_timeout_seconds c) (cf_metrics_interval_seconds c)
    (cf_metrics_format c) (cf_show_help c) (cf_show_version c).
Definition put_lease_seconds (x : Z) (c : ServerConfig) : ServerConfig :=
  mkServerConfig (cf_listen_address c) (cf_listen_port c) (cf_tun_name c)
    (cf_certificate_chain_file c) (cf_private_key_file c) (cf_client_ca_file c)
    (cf_client_crl_file c) (cf_first_lease_address c) (cf_last_lease_address c)
    (cf_gateway_address c) (cf_ipv6_prefix_address c) (cf_ipv6_gateway c) (cf_prefix_length c)
    (cf_mtu c) x (cf_worker_threads c) (cf_maximum_sessions c) (cf_handshake_timeout_seconds c)
    (cf_idle_timeout_seconds c) (cf_metrics_interval_seconds c) (cf_metrics_format c)
    (cf_show_help c) (cf_show_version c).
Definition put_worker_threads (x : Z) (c : ServerConfig) : ServerConfig :=
  mkServerConfig (cf_listen_address c) (cf_listen_port c) (cf_tun_name c)
    (cf_certificate_chain_file c) (cf_private_key_file c) (cf_client_ca_file c)
    (cf_client_crl_file c) (cf_first_lease_address c) (cf_last_lease_address c)
    (cf_gateway_address c) (cf_ipv6_prefix_address c) (cf_ipv6_gateway c) (cf_prefix_length c)
    (cf_mtu c) (cf_lease_seconds c) x (cf_maximum_sessions c) (cf_handshake_timeout_seconds c)
    (cf_idle_timeout_seconds c) (cf_metrics_interval_seconds c) (cf_metrics_format c)
    (cf_show_help c) (cf_show_version c).
Definition put_maximum_sessions (x : Z) (c : ServerConfig) : ServerConfig :=
  mkServerConfig (cf_listen_address c) (cf_listen_port c) (cf_tun_name c)
    (cf_certificate_chain_file c) (cf_private_key_file c) (cf_client_ca_file c)
    (cf_client_crl_file c) (cf_first_lease_address c) (cf_last_lease_address c)
    (cf_gateway_address c) (cf_ipv6_prefix_address c) (cf_ipv6_gateway c) (cf_prefix_length c)
    (cf_mtu c) (cf_lease_seconds c) (cf_worker_threads c) x (cf_handshake_timeout_seconds c)
    (cf_idle_timeout_seconds c) (cf_metrics_interval_seconds c) (cf_metrics_format c)
    (cf_show_help c) (cf_show_version c).
Definition put_handshake_timeout_seconds (x : Z) (c : ServerConfig) : ServerConfig :=
  mkServerConfig (cf_listen_address c) (cf_listen_port c) (cf_tun_name c)
    (cf_certificate_chain_file c) (cf_private_key_file c) (cf_client_ca_file c)
    (cf_client_crl_file c) (cf_first_lease_address c) (cf_last_lease_address c)
    (cf_gateway_address c) (cf_ipv6_prefix_address c) (cf_ipv6_gateway c) (cf_prefix_length c)
    (cf_mtu c) (cf_lease_seconds c) (cf_worker_threads c) (cf_maximum_sessions c) x
    (cf_idle_timeout_seconds c) (cf_metrics_interval_seconds c) (cf_metrics_format c)
    (cf_show_help c) (cf_show_version c).
Definition put_idle_timeout_seconds (x : Z) (c : ServerConfig) : ServerConfig :=
  mkServerConfig (cf_listen_address c) (cf_listen_port c) (cf_tun_name c)
    (cf_certificate_chain_file c) (cf_private_key_file c) (cf_client_ca_file c)
    (cf_client_crl_file c) (cf_first_lease_address c) (cf_last_lease_address c)
    (cf_gateway_address c) (cf_ipv6_prefix_address c) (cf_ipv6_gateway c) (cf_prefix_length c)
    (cf_mtu c) (cf_lease_seconds c) (cf_worker_threads c) (cf_maximum_sessions c)
    (cf_handshake_timeout_seconds c) x (cf_metrics_interval_seconds c) (cf_metrics_format c)
    (cf_show_help c) (cf_show_version c).
Definition put_metrics_interval_seconds (x : Z) (c : ServerConfig) : ServerConfig :=
  mkServerConfig (cf_listen_address c) (cf_listen_port c) (cf_tun_name c)
    (cf_certificate_chain_file c) (cf_private_key_file c) (cf_client_ca_file c)
    (cf_client_crl_file c) (cf_first_lease_address c) (cf_last_lease_address c)
    (cf_gateway_address c) (cf_ipv6_prefix_address c) (cf_ipv6_gateway c) (cf_prefix_length c)
    (cf_mtu c) (cf_lease_seconds c) (cf_worker_threads c) (cf_maximum_sessions c)
    (cf_handshake_timeout_seconds c) (cf_idle_timeout_seconds c) x (cf_metrics_format c)
    (cf_show_help c) (cf_show_version c).
Definition put_metrics_format (x : MetricsFormat) (c : ServerConfig) : ServerConfig :=
  mkServerConfig (cf_listen_address c) (cf_listen_port c) (cf_tun_name c)
    (cf_certificate_chain_file c) (cf_private_key_file c) (cf_client_ca_file c)
    (cf_client_crl_file c) (cf_first_lease_address c) (cf_last_lease_address c)
    (cf_gateway_address c) (cf_ipv6_prefix_address c) (cf_ipv6_gateway c) (cf_prefix_length c)
    (cf_mtu c) (cf_lease_seconds c) (cf_worker_threads c) (cf_maximum_sessions c)
    (cf_handshake_timeout_seconds c) (cf_idle_timeout_seconds c) (cf_metrics_interval_seconds c) x
    (cf_show_help c) (cf_show_version c).
Definition put_show_help (x : bool) (c : ServerConfig) : ServerConfig :=
  mkServerConfig (cf_listen_address c) (cf_listen_port c) (cf_tun_name c)
    (cf_certificate_chain_file c) (cf_private_key_file c) (cf_client_ca_file c)
    (cf_client_crl_file c) (cf_first_lease_address c) (cf_last_lease_address c)
    (cf_gateway_address c) (cf_ipv6_prefix_address c) (cf_ipv6_gateway c) (cf_prefix_length c)
    (cf_mtu c) (cf_lease_seconds c) (cf_worker_threads c) (cf_maximum_sessions c)
    (cf_handshake_timeout_seconds c) (cf_idle_timeout_seconds c) (cf_metrics_interval_seconds c)
    (cf_metrics_format c) x (cf_show_version c).
Definition put_show_version (x : bool) (c : ServerConfig) : ServerConfig :=
  mkServerConfig (cf_listen_address c) (cf_listen_port c) (cf_tun_name c)
    (cf_certificate_chain_file c) (cf_private_key_file c) (cf_client_ca_file c)
    (cf_client_crl_file c) (cf_first_lease_address c) (cf_last_lease_address c)
    (cf_gateway_address c) (cf_ipv6_prefix_address c) (cf_ipv6_gateway c) (cf_prefix_length c)
    (cf_mtu c) (cf_lease_seconds c) (cf_worker_threads c) (cf_maximum_sessions c)
    (cf_handshake_timeout_seconds c) (cf_idle_timeout_seconds c) (cf_metrics_interval_seconds c)
    (cf_metrics_format c) (cf_show_help c) x.

(** The exception names the option. *)
Definition parse_unsigned (option value : string) (minimum maximum : Z) : outcome Z :=
  match from_chars_all (2 ^ 64 - 1) (string_bytes value) with
  | Some parsed =>
      if (parsed <? minimum) || (maximum <? parsed)
      then Throw (InvalidArgument ("invalid value for " +:+ option +:+ ": " +:+ value))
      else Ok parsed
  | None => Throw (InvalidArgument ("invalid value for " +:+ option +:+ ": " +:+ value))
  end.

(** The branches of [parse_server_arguments] on an option with a value. *)
Definition apply_option (option value : string) (config : ServerConfig) : outcome ServerConfig :=
  if bool_decide (option = "--listen-address") then
    Ok (put_listen_address value config)
  else if bool_decide (option = "--port") then
    let? parsed := parse_unsigned option value 1 (2 ^ 16 - 1) in Ok (put_listen_port (u16 parsed) config)
  else if bool_decide (option = "--tun-name") then
    Ok (put_tun_name value config)
  else if bool_decide (option = "--server-cert") then
    Ok (put_certificate_chain_file value config)
  else if bool_decide (option = "--server-key") then
    Ok (put_private_key_file value config)
  else if bool_decide (option = "--client-ca") then
    Ok (put_client_ca_file value config)
  else if bool_decide (option = "--client-crl") then
    Ok (put_client_crl_file value config)
  else if bool_decide (option = "--lease-start") then
    Ok (put_first_lease_address value config)
  else if bool_decide (option = "--lease-end") then
    Ok (put_last_lease_address value config)
  else if bool_decide (option = "--gateway") then
    Ok (put_gateway_address value config)
  else if bool_decide (option = "--ipv6-prefix") then
    Ok (put_ipv6_prefix_address value config)
  else if bool_decide (option = "--ipv6-gateway") then
    Ok (put_ipv6_gateway value config)
  else if bool_decide (option = "--prefix-length") then
    let? parsed := parse_unsigned option value 1 32 in Ok (put_prefix_length (u8 parsed) config)
  else if bool_decide (option = "--mtu") then
    let? parsed := parse_unsigned option value kMinimumIpv6Mtu kMaximumTunnelMtu in Ok (put_mtu (u16 parsed) config)
  else if bool_decide (option = "--lease-seconds") then
    let? parsed := parse_unsigned option value 1 (2 ^ 32 - 1) in Ok (put_lease_seconds (u32 parsed) config)
  else if bool_decide (option = "--threads") then
    let? parsed := parse_unsigned option value 1 256 in Ok (put_worker_threads (u64 parsed) config)
  else if bool_decide (option = "--max-sessions") then
    let? parsed := parse_unsigned option value 1 1000000 in Ok (put_maximum_sessions (u64 parsed) config)
  else if bool_decide (option = "--handshake-timeout") then
    let? parsed := parse_unsigned option value 1 300 in Ok (put_handshake_timeout_seconds (u32 parsed) config)
  else if bool_decide (option = "--idle-timeout") then
    let? parsed := parse_unsigned option value 1 86400 in Ok (put_idle_timeout_seconds (u32 parsed) config)
  else if bool_decide (option = "--metrics-interval") then
    let? parsed := parse_unsigned option value 0 86400 in Ok (put_metrics_interval_seconds (u32 parsed) config)
  else if bool_decide (option = "--metrics-format") then
    if bool_decide (value = "json") then Ok (put_metrics_format FormatJson config)
    else if bool_decide (value = "prometheus") then Ok (put_metrics_format FormatPrometheus config)
    else Throw (InvalidArgument "--metrics-format must be json or prometheus")
  else Throw (InvalidArgument ("unknown option: " +:+ option)).

(** The loop over the arguments, with [require_value]. *)
Fixpoint parse_loop (arguments : list string) (config : ServerConfig) : outcome ServerConfig :=
  match arguments with
  | [] => Ok config
  | option :: arguments =>
      if bool_decide (option = "--help") || bool_decide (option = "-h")
      then parse_loop arguments (put_show_help true config)
      else if bool_decide (option = "--version")
      then parse_loop arguments (put_show_version true config)
      else
        match arguments with
        | [] => Throw (InvalidArgument ("missing value for " +:+ option))
        | value :: arguments =>
            let? config := apply_option option value config in
            parse_loop arguments config
        end
  end.

Section Config.
Context `{IpLibrary}.

(** The lease manager that [validate] builds to check the policy and
    [run_server] to serve. *)
Definition make_policy (config : ServerConfig) : outcome LeaseManager :=
  let? first_address := parse_ipv4_address (cf_first_lease_address config) in
  let? last_address := parse_ipv4_address (cf_last_lease_address config) in
  let? gateway := parse_ipv4_address (cf_gateway_address config) in
  let? ipv6_prefix := parse_ipv6_address (cf_ipv6_prefix_address config) in
  let? ipv6_gateway := parse_ipv6_address (cf_ipv6_gateway config) in
  make_LeaseManager first_address last_address gateway (cf_prefix_length config) (cf_mtu config)
    (cf_lease_seconds config) ipv6_prefix ipv6_gateway 64.

Definition is_empty (s : string) : bool := bool_decide (s = "").

Definition validate (config : ServerConfig) : outcome unit :=
  if cf_show_help config || cf_show_version config then Ok tt
  else
    let? _ := reject_if (is_empty (cf_certificate_chain_file config) ||
                         is_empty (cf_private_key_file config) ||
                         is_empty (cf_client_ca_file config))
      (InvalidArgument "--server-cert, --server-key, and --client-ca are required") in
    let? _ := reject_if (bool_decide (make_address (cf_listen_address config) = None))
      (InvalidArgument "--listen-address must be a valid IPv4 or IPv6 address") in
    let? _ := reject_if (is_empty (cf_tun_name config) || (15 <? zlen (string_bytes (cf_tun_name config))))
      (InvalidArgument "--tun-name must contain between 1 and 15 bytes") in
    let? _ := make_policy config in
    Ok tt.

Definition parse_server_arguments (arguments : list string) : outcome ServerConfig :=
  let? config := parse_loop arguments default_config in
  let? _ := validate config in
  Ok config.

(** [std::chrono::seconds] as the [std::chrono::milliseconds] of a timeout. *)
Definition milliseconds (n : Z) : Z := n * 1000.

(** [run_server] up to the server object: the private key's permissions, the
    TLS context, the TUN device and the listening socket are outside. *)
Definition run_server (config : ServerConfig) (private_key tls_context tun_device listening : outcome unit)
  : outcome (LeaseManager * TlsTunnelServer) :=
  let? _ := private_key in
  let? _ := tls_context in
  let? lease_manager := make_policy config in
  let? _ := tun_device in
  let? server := make_server (Some 0) true (cf_maximum_sessions config) true
    (milliseconds (cf_handshake_timeout_seconds config)) (milliseconds (cf_idle_timeout_seconds config)) listening in
  Ok (lease_manager, server).
End Config.

(** ** Specification *)

(** The fields with a numeric option are in the option's range. *)
Record fields_ok (c : ServerConfig) : Prop := {
  fo_port : 1 <= cf_listen_port c < 2 ^ 16;
  fo_prefix : 1 <= cf_prefix_length c <= 32;
  fo_mtu : kMinimumIpv6Mtu <= cf_mtu c <= kMaximumTunnelMtu;
  fo_lease : 1 <= cf_lease_seconds c < 2 ^ 32;
  fo_threads : 1 <= cf_worker_threads c <= 256;
  fo_sessions : 1 <= cf_maximum_sessions c <= 1000000;
  fo_handshake : 1 <= cf_handshake_timeout_seconds c <= 300;
  fo_idle : 1 <= cf_idle_timeout_seconds c <= 86400;
  fo_metrics : 0 <= cf_metrics_interval_seconds c <= 86400
}.

(** The texts that are required, and what they name. *)
Record texts_ok `{IpLibrary} (c : ServerConfig) : Prop := {
  to_files : cf_certificate_chain_file c <> "" /\ cf_private_key_file c <> "" /\ cf_client_ca_file c <> "";
  to_listen : make_address (cf_listen_address c) <> None;
  to_tun : 1 <= zlen (string_bytes (cf_tun_name c)) <= 15
}.

(** What the address library promises: an IPv6 address has 16 bytes. *)
Class IpLibraryLaws (IP : IpLibrary) : Prop :=
  ip_v6_array text a scope : make_address_v6 text = Some (a, scope) -> is_array 16 a.

(** The only exception is [std::invalid_argument]. *)
Definition invalid_argument_only {A} (m : outcome A) : Prop :=
  match m with Throw e => exists what, e = InvalidArgument what | Ok _ => True end.

(** ** Lemmas *)

Lemma only_invalid_bind {A B} (m : outcome A) (k : A -> outcome B) :
  invalid_argument_only m -> (forall a, m = Ok a -> invalid_argument_only (k a)) ->
  invalid_argument_only (obind m k).
Proof. destruct m; cbn; auto. Qed.
Lemma only_invalid_reject b what : invalid_argument_only (reject_if b (InvalidArgument what)).
Proof. destruct b; cbn; eauto. Qed.
Lemma only_invalid_if {A} (b : bool) (m n : outcome A) :
  invalid_argument_only m -> invalid_argument_only n -> invalid_argument_only (if b then m else n).
Proof. destruct b; auto. Qed.
Lemma only_invalid_throw {A} what : invalid_argument_only (@Throw A (InvalidArgument what)).
Proof. exists what. reflexivity. Qed.
Lemma only_invalid_ok {A} (a : A) : invalid_argument_only (Ok a).
Proof. exact I. Qed.

#[export] Hint Resolve only_invalid_reject only_invalid_if only_invalid_throw only_invalid_ok : vpn.
Ltac only_invalid :=
  repeat first [ apply only_invalid_bind; [|intros ? ?] | progress auto with vpn | apply only_invalid_if ].

Lemma parse_unsigned_throws option value lo hi : invalid_argument_only (parse_unsigned option value lo hi).
Proof. unfold parse_unsigned. destruct (from_chars_all _ _); only_invalid. Qed.
Lemma parse_ipv4_throws text : invalid_argument_only (parse_ipv4_address text).
Proof.
  unfold parse_ipv4_address. generalize 4%nat (string_bytes text) 0. intros n.
  induction n as [|n IH]; intros l b; cbn [parse_components]; [exact I|].
  apply only_invalid_if; [apply only_invalid_throw|].
  destruct (from_chars_all _ _) as [v|]; [|apply only_invalid_throw].
  apply only_invalid_if; [apply only_invalid_throw|].
  destruct n, (find l 46 b); only_invalid; apply IH.
Qed.
Lemma parse_ipv6_throws `{IpLibrary} text : invalid_argument_only (parse_ipv6_address text).
Proof. unfold parse_ipv6_address. destruct (make_address_v6 text) as [[a s]|]; only_invalid. Qed.

Lemma make_manager_throws f l g p m d p6 g6 n :
  invalid_argument_only (make_LeaseManager f l g p m d p6 g6 n).
Proof. unfold make_LeaseManager. only_invalid. Qed.

#[export] Hint Resolve parse_unsigned_throws parse_ipv4_throws parse_ipv6_throws make_manager_throws : vpn.

Lemma apply_option_throws option value c : invalid_argument_only (apply_option option value c).
Proof. unfold apply_option. only_invalid. Qed.
#[export] Hint Resolve apply_option_throws : vpn.

Lemma parse_loop_throws n args c :
  (length args <= n)%nat -> invalid_argument_only (parse_loop args c).
Proof.
  revert args c. induction n as [|n IH]; intros [|o args] c Hl; cbn in Hl; try lia; try exact I.
  cbn [parse_loop]. apply only_invalid_if; [apply IH; lia|]. apply only_invalid_if; [apply IH; lia|].
  destruct args as [|v args]; [apply only_invalid_throw|]. cbn in Hl. only_invalid. apply IH. lia.
Qed.

Lemma make_policy_throws `{IpLibrary} c : invalid_argument_only (make_policy c).
Proof. unfold make_policy. only_invalid. Qed.
#[export] Hint Resolve make_policy_throws : vpn.
Lemma validate_throws `{IpLibrary} c : invalid_argument_only (validate c).
Proof. unfold validate. only_invalid. Qed.

(** *** Accepted fields *)

Lemma parse_unsigned_ok option value lo hi n :
  parse_unsigned option value lo hi = Ok n -> lo <= n <= hi.
Proof.
  unfold parse_unsigned. destruct (from_chars_all _ _) as [m|]; [|discriminate].
  destr_if; [discriminate|]. intros <-%ok_inj. b2p. lia.
Qed.

Lemma apply_option_ok option value c c' :
  fields_ok c -> apply_option option value c = Ok c' -> fields_ok c'.
Proof.
  intros Hc H. unfold apply_option in H.
  repeat (case_bool_decide; [|]); try discriminate H;
    try (apply ok_inj in H as <-; destruct Hc; constructor; cbn; assumption).
  all: apply obind_ok in H as (n & Hn%parse_unsigned_ok & <-%ok_inj); destruct Hc; constructor; cbn;
    try assumption; unfold kMinimumIpv6Mtu, kMaximumTunnelMtu, u8, u16, u32, u64 in *;
    rewrite Z.mod_small by lia; lia.
Qed.

Lemma parse_loop_ok n args c c' :
  (length args <= n)%nat -> fields_ok c -> parse_loop args c = Ok c' -> fields_ok c'.
Proof.
  revert args c. induction n as [|n IH]; intros [|o args] c Hl Hc H; cbn in Hl; try lia;
    try (apply ok_inj in H as <-; exact Hc).
  cbn [parse_loop] in H. destruct (_ || _)%bool; [|destruct (bool_decide _)].
  - apply (IH args _ ltac:(lia)) in H; [exact H|]. destruct Hc; constructor; assumption.
  - apply (IH args _ ltac:(lia)) in H; [exact H|]. destruct Hc; constructor; assumption.
  - destruct args as [|v args]; [discriminate|]. cbn in Hl. apply obind_ok in H as (c1 & H1 & H).
    apply (IH args _ ltac:(lia)) in H; [exact H|]. eapply apply_option_ok; eassumption.
Qed.

Lemma default_config_ok : fields_ok default_config.
Proof. constructor; cbn; unfold kMinimumIpv6Mtu, kMaximumTunnelMtu; lia. Qed.

Lemma parse_components_array n l b a :
  parse_components n l b = Ok a -> is_bytes a /\ zlen a = Z.of_nat n.
Proof.
  revert b a. induction n as [|n IH]; intros b a; cbn [parse_components].
  { intros <-%ok_inj. split; [constructor|reflexivity]. }
  destr_if; [discriminate|]. destruct (from_chars_all _ _) as [v|]; [|discriminate].
  destr_if; [discriminate|]. destruct n as [|n], (find l 46 b) as [e|]; try discriminate.
  - intros <-%ok_inj. split; [|reflexivity]. constructor; [apply u8_range|constructor].
  - intros (rest & Hr & <-%ok_inj)%obind_ok. apply IH in Hr as [Hb Hl].
    split; [constructor; [apply u8_range|exact Hb]|]. rewrite zlen_cons, Hl. lia.
Qed.
Lemma parse_ipv4_array text a : parse_ipv4_address text = Ok a -> is_array 4 a.
Proof. intros [Hb Hl]%parse_components_array. split; assumption. Qed.

Lemma parse_ipv6_array `{IpLibraryLaws} text a : parse_ipv6_address text = Ok a -> is_array 16 a.
Proof.
  unfold parse_ipv6_address. destruct (make_address_v6 text) as [[b s]|] eqn:E; [|discriminate].
  destr_if; [discriminate|]. intros <-%ok_inj. eapply ip_v6_array. exact E.
Qed.

(** A manager of an accepted configuration, before its first lease. *)
Lemma make_policy_ok `{IpLibraryLaws} c lm :
  fields_ok c -> make_policy c = Ok lm ->
  lm_reachable lm /\ ipv6_prefix_length_ lm = 64 /\ mtu_ lm = cf_mtu c /\
  prefix_length_ lm = cf_prefix_length c /\ leases_by_identity_ lm = ∅.
Proof.
  intros Hc Hp. unfold make_policy in Hp.
  apply obind_ok in Hp as (f & Hf%parse_ipv4_array & Hp). apply obind_ok in Hp as (l & Hl%parse_ipv4_array & Hp).
  apply obind_ok in Hp as (g & Hg%parse_ipv4_array & Hp). apply obind_ok in Hp as (p6 & Hp6%parse_ipv6_array & Hp).
  apply obind_ok in Hp as (g6 & Hg6%parse_ipv6_array & Hp). split.
  - destruct Hc. unfold kMinimumIpv6Mtu, kMaximumTunnelMtu in *.
    exists f, l, g, (cf_prefix_length c), (cf_mtu c), (cf_lease_seconds c), p6, g6, 64, lm.
    split; [split_goal; auto; int_lia|]. split; [exact Hp|reflexivity].
  - unfold make_LeaseManager in Hp. inv_ok. subst lm. auto.
Qed.

(** ** Properties *)

(** C23: what an accepted command line is.  Every refusal is a
    [std::invalid_argument], which [main] reports.  An accepted configuration
    has every number in the range of its option and, unless it asks for help
    or the version, the required files, a listen address and an interface name
    that fits; [run_server] then gets, from the same texts, a lease manager in
    its initial state, with a /64 IPv6 prefix and the MTU of the command line,
    and a server with its session limit and positive deadlines: none of their
    constructors can refuse any more. *)
Theorem server_arguments_sound `{IpLibraryLaws} args :
  match parse_server_arguments args with
  | Throw e => exists what, e = InvalidArgument what
  | Ok c => fields_ok c /\
      (cf_show_help c || cf_show_version c = false -> texts_ok c /\
       exists lm server, run_server c (Ok tt) (Ok tt) (Ok tt) (Ok tt) = Ok (lm, server) /\
         lm_reachable lm /\ leases_by_identity_ lm = ∅ /\ ipv6_prefix_length_ lm = 64 /\
         mtu_ lm = cf_mtu c /\ prefix_length_ lm = cf_prefix_length c /\
         maximum_sessions_ server = cf_maximum_sessions c /\
         0 < session_handshake_timeout_ server /\ 0 < session_idle_timeout_ server)
  end.
Proof.
  destruct (parse_server_arguments args) as [c|e] eqn:E.
  2:{ assert (Ht : invalid_argument_only (parse_server_arguments args)).
      { unfold parse_server_arguments. apply only_invalid_bind; [eapply parse_loop_throws; reflexivity|].
        intros c _. apply only_invalid_bind; [apply validate_throws|]. intros; exact I. }
      rewrite E in Ht. exact Ht. }
  unfold parse_server_arguments in E. apply obind_ok in E as (c' & Hloop & E).
  apply obind_ok in E as ([] & Hv & <-%ok_inj).
  assert (Hc : fields_ok c') by (eapply parse_loop_ok; [reflexivity|exact default_config_ok|exact Hloop]).
  split; [exact Hc|]. intros Hshow. unfold validate in Hv. rewrite Hshow in Hv.
  apply obind_ok in Hv as ([] & Hf%reject_if_ok & Hv). apply obind_ok in Hv as ([] & Hl%reject_if_ok & Hv).
  apply obind_ok in Hv as ([] & Ht%reject_if_ok & Hv). apply obind_ok in Hv as (lm & Hp & _).
  unfold is_empty in *. b2p. split.
  - assert (zlen (string_bytes (cf_tun_name c')) <> 0).
    { destruct (cf_tun_name c'); [congruence|]. cbn. rewrite zlen_cons. pose proof (zlen_nonneg (string_bytes s)). lia. }
    pose proof (zlen_nonneg (string_bytes (cf_tun_name c'))).
    constructor; [auto|assumption|lia].
  - destruct (make_policy_ok c' lm Hc Hp) as (Hr & Hv6 & Hm & Hpl & He). destruct Hc as [_ _ _ _ _ Hs Hh Hi _].
    unfold run_server. cbn [obind]. rewrite Hp. cbn [obind]. unfold make_server, milliseconds.
    rewrite (proj2 (Z.eqb_neq _ _)), !(proj2 (Z.leb_gt _ _)) by lia. cbn [negb orb obind reject_if].
    eexists lm, _. split; [reflexivity|]. cbn. split_goal; auto; lia.
Qed.

(** ** Witnesses *)

(** An IP library that knows the default addresses. *)
Definition default_addresses : IpLibrary := {|
  make_address_v6 text :=
    if bool_decide (text = "fd00:8::") then Some ([253; 0; 0; 8] ++ zeros 12, 0)
    else if bool_decide (text = "fd00:8::1") then Some ([253; 0; 0; 8] ++ zeros 11 ++ [1], 0)
    else None;
  address_v6_to_string _ := "fd00:8::";
  make_address text := if bool_decide (text = "0.0.0.0") then Some (false, 0) else None
|}.
#[export] Instance default_addresses_laws : IpLibraryLaws default_addresses.
Proof.
  intros text a scope H. cbn in H.
  repeat (case_bool_decide; [injection H as <- _; decide_prop|]). discriminate.
Defined.

Definition sample_arguments : list string :=
  ["--server-cert"; "server.pem"; "--server-key"; "server.key"; "--client-ca"; "ca.pem";
   "--lease-end"; "10.8.0.3"; "--lease-seconds"; "60"].
Definition sample_config : ServerConfig :=
  match @parse_server_arguments default_addresses sample_arguments with Ok c => c | Throw _ => default_config end.

Lemma server_arguments_sound_witness :
  @parse_server_arguments default_addresses sample_arguments = Ok sample_config /\
  cf_lease_seconds sample_config = 60 /\
  exists lm server, @run_server default_addresses sample_config (Ok tt) (Ok tt) (Ok tt) (Ok tt) = Ok (lm, server) /\
    maximum_sessions_ server = 1024.
Proof.
  pose proof (@server_arguments_sound default_addresses default_addresses_laws sample_arguments) as H.
  assert (E : @parse_server_arguments default_addresses sample_arguments = Ok sample_config)
    by (vm_compute; reflexivity).
  rewrite E in H. split; [exact E|]. split; [vm_compute; reflexivity|].
  destruct H as [_ H]. destruct (H ltac:(vm_compute; reflexivity)) as (_ & lm & server & Hr & _ & _ & _ & _ & _ & Hm & _).
  exists lm, server. split; [exact Hr|]. rewrite Hm. vm_compute. reflexivity.
Defined.
