(* ===== verification/ServerMain.v ===== *)
(** * The server's process

    Models what src/server/main.cpp does around the server object that
    ServerConfig.v and ServerSystem.v describe: [main] and its exit status, the
    signals, the periodic metrics and the workers of the event loop; and
    [server_usage] of src/server/server_config.cpp. *)
From S2P Require Import Prelude Bytes LeaseManager LeaseService TunnelRouter ServerMetrics AsyncIo.
From S2P Require Import SessionController TunnelSession SessionFrame TunnelServer ServerSystem ServerConfig.

(** ** The command line *)

(** Each line with the line ends that follow it. *)
Definition usage_lines : list (string * nat) :=
  [("Required:", 1%nat);
   ("  --server-cert PATH       Server certificate chain (PEM)", 1%nat);
   ("  --server-key PATH        Server private key (PEM)", 1%nat);
   ("  --client-ca PATH         CA bundle trusted for client certificates", 2%nat);
   ("Optional security:", 1%nat);
   ("  --client-crl PATH        PEM CRL for revoked client certificates", 2%nat);
   ("Network:", 1%nat);
   ("  --listen-address IP      Listen address (default: 0.0.0.0)", 1%nat);
   ("  --port NUMBER            Listen port (default: 8443)", 1%nat);
   ("  --tun-name NAME          Existing/created TUN name (default: pvpn0)", 1%nat);
   ("  --lease-start IPV4       First client address (default: 10.8.0.2)", 1%nat);
   ("  --lease-end IPV4         Last client address (default: 10.8.0.254)", 1%nat);
   ("  --gateway IPV4           Tunnel gateway (default: 10.8.0.1)", 1%nat);
   ("  --ipv6-prefix IPV6        Canonical /64 ULA prefix (default: fd00:8::)", 1%nat);
   ("  --ipv6-gateway IPV6       IPv6 tunnel gateway (default: fd00:8::1)", 1%nat);
   ("  --prefix-length NUMBER   Tunnel prefix length (default: 24)", 1%nat);
   ("  --mtu NUMBER             Tunnel MTU (default: 1400)", 1%nat);
   ("  --lease-seconds NUMBER   Lease lifetime (default: 3600)", 2%nat);
   ("Runtime:", 1%nat);
   ("  --threads NUMBER         I/O workers, 1-256 (default: 2)", 1%nat);
   ("  --max-sessions NUMBER    Admission limit (default: 1024)", 1%nat);
   ("  --handshake-timeout SEC  TLS handshake deadline, 1-300 (default: 10)", 1%nat);
   ("  --idle-timeout SEC       Inbound frame idle deadline (default: 300)", 1%nat);
   ("  --metrics-interval SEC   Metrics interval; 0 disables (default: 60)", 1%nat);
   ("  --metrics-format FORMAT  json or prometheus (default: json)", 1%nat);
   ("  --version                Show the product version", 1%nat);
   ("  -h, --help               Show this help", 1%nat)].
Fixpoint newlines (n : nat) : string := match n with O => "" | S n => newline +:+ newlines n end.
Definition server_usage (executable_name : string) : string :=
  "Usage: " +:+ executable_name +:+ " [options]" +:+ newlines 2 +:+
  String.concat "" (map (fun '(line, n) => line +:+ newlines n) usage_lines).

Definition EXIT_SUCCESS : Z := 0.
Definition EXIT_FAILURE : Z := 1.
Definition SIGHUP : Z := 1.
Definition SIGINT : Z := 2.
Definition SIGTERM : Z := 15.

(** [main]: the exit status, and what is written to the two streams.  [parse]
    is [parse_server_arguments] of the arguments, [run] is [run_server], and
    [argv0] the name of the program, if there is one. *)
Definition main (version : string) (argv0 : option string) (parse : outcome ServerConfig)
    (run : ServerConfig -> outcome Z) : Z * string * string :=
  let usage := server_usage (default "personal-vpn-server" argv0) in
  let result :=
    let? config := parse in
    if cf_show_help config then Ok (EXIT_SUCCESS, usage)
    else if cf_show_version config then Ok (EXIT_SUCCESS, "personal-vpn-server " +:+ version +:+ newline)
    else let? status := run config in Ok (status, "") in
  match result with
  | Ok (status, out) => (status, out, "")
  | Throw e => (EXIT_FAILURE, "", "personal-vpn-server: " +:+ exn_what e +:+ newlines 2 +:+ usage)
  end.

(** ** The event loop of the process *)

(** A wait given to asio: none, one that waits, or one whose handler has been
    queued with its result, [None] for [operation_aborted]. *)
Inductive Wait (A : Type) :=
| NoWait
| Waiting
| Queued (result : option A).
Arguments NoWait {A}.
Arguments Waiting {A}.
Arguments Queued {A} result.

(** [cancel]: a handler that has been queued is not affected. *)
Definition cancel {A} (w : Wait A) : Wait A := match w with Waiting => Queued None | _ => w end.

Section Process.
Context {S : Type} {LS : LeaseService S} {LSL : LeaseServiceLaws S}.

(** The server with its sessions, the wait on the signals and the signals that
    no wait has taken, the wait on the metrics timer, what has been written to
    the standard output, and [worker_failed].  The parameters are the interval
    and the format of the metrics. *)
Record Process := mkProcess {
  pr_system : System (S := S);
  pr_signals : Wait Z;
  pr_pending : list Z;
  pr_timer : Wait unit;
  pr_output : list string;
  pr_failed : bool
}.
Definition put_system (x : System (S := S)) (p : Process) : Process :=
  mkProcess x (pr_signals p) (pr_pending p) (pr_timer p) (pr_output p) (pr_failed p).
Definition put_signals (x : Wait Z) (p : Process) : Process :=
  mkProcess (pr_system p) x (pr_pending p) (pr_timer p) (pr_output p) (pr_failed p).
Definition put_pending (x : list Z) (p : Process) : Process :=
  mkProcess (pr_system p) (pr_signals p) x (pr_timer p) (pr_output p) (pr_failed p).
Definition put_timer (x : Wait unit) (p : Process) : Process :=
  mkProcess (pr_system p) (pr_signals p) (pr_pending p) x (pr_output p) (pr_failed p).
Definition put_output (x : list string) (p : Process) : Process :=
  mkProcess (pr_system p) (pr_signals p) (pr_pending p) (pr_timer p) x (pr_failed p).
Definition put_failed (x : bool) (p : Process) : Process :=
  mkProcess (pr_system p) (pr_signals p) (pr_pending p) (pr_timer p) (pr_output p) x.

Definition print (text : string) (p : Process) : Process := put_output (pr_output p ++ [text]) p.
Definition server_of (p : Process) : TlsTunnelServer := sh_host (pr_system p).1.
(** A public method of the server posts to its strand. *)
Definition post_server (k : Task) (p : Process) : Process := put_system (on_server (post k) (pr_system p)).2 p.

(** The shutdown handler, and the completion of a reload. *)
Definition shutdown_handler (p : Process) : Process :=
  put_timer (cancel (pr_timer p)) (put_signals (cancel (pr_signals p)) p).
Definition print_reload (success : bool) (p : Process) : Process :=
  print ("{" +:+ quote +:+ "event" +:+ quote +:+ ":" +:+ quote +:+ "tls_context_reload" +:+ quote +:+ "," +:+
         quote +:+ "success" +:+ quote +:+ ":" +:+ (if success then "true" else "false") +:+ "}" +:+ newline) p.
Definition on_call (c : Call) (p : Process) : Process :=
  match c with
  | Shutdown => shutdown_handler p
  | Reloaded success => print_reload success p
  | TunStart | TunStop | TunWrite _ => p
  end.

(** [signals.async_wait]: a signal that has arrived without a wait completes it
    at once. *)
Definition wait_for_signal (p : Process) : Process :=
  match pr_pending p with
  | [] => put_signals Waiting p
  | signal :: rest => put_pending rest (put_signals (Queued (Some signal)) p)
  end.
(** The handler of the wait.  [permissions] and [replacement] are what the
    reload will find. *)
Definition handle_signal (permissions : outcome unit) (replacement : outcome Z) (result : option Z)
    (p : Process) : Process :=
  match result with
  | None => p
  | Some signal =>
      if signal =? SIGHUP then wait_for_signal (post_server (ReloadTls permissions replacement) p)
      else post_server StopServer p
  end.

Section Metrics.
Context (interval : Z) (format : MetricsFormat).

Definition schedule_metrics (p : Process) : Process :=
  if interval =? 0 then p else put_timer Waiting p.
(** The handler of the timer.  [run_server] holds the server until the workers
    have ended, so the weak pointer still leads to it. *)
Definition handle_metrics (result : option unit) (p : Process) : Process :=
  match result with
  | None => p
  | Some _ =>
      let metrics := sh_metrics (pr_system p).1 in
      let active_sessions := active_session_count_ (server_of p) in
      schedule_metrics (print
        (match format with
         | FormatPrometheus => render_server_metrics_prometheus metrics active_sessions
         | FormatJson => render_server_metrics_json metrics active_sessions
         end) p)
  end.

(** From the server object to the event loop. *)
Definition launch (listening : string) (system : System (S := S)) : Process :=
  let p := mkProcess system NoWait [] NoWait [] false in
  let p := wait_for_signal p in
  let p := post_server StartServer p in
  let p := schedule_metrics p in
  print listening p.

(** A step of the event loop.  The handlers of the server and its sessions make
    their calls into the process; an exception ends a worker.  Any holder of
    the server may use its public methods. *)
Inductive pstep : Process -> Process -> Prop :=
| pstep_server p r system' :
    step (pr_system p) r system' ->
    pstep p (fold_left (fun p c => on_call c p)
               (drop (length (calls (server_of p))) (calls (sh_host system'.1)))
               (put_failed (pr_failed p || negb (is_ok r)) (put_system system' p)))
| pstep_signal p signal :
    signal ∈ [SIGINT; SIGTERM; SIGHUP] ->
    pstep p (match pr_signals p with
             | Waiting => put_signals (Queued (Some signal)) p
             | _ => put_pending (pr_pending p ++ [signal]) p
             end)
| pstep_signal_handler p permissions replacement result :
    pr_signals p = Queued result ->
    pstep p (handle_signal permissions replacement result (put_signals NoWait p))
| pstep_timer p :
    pr_timer p = Waiting -> pstep p (put_timer (Queued (Some tt)) p)
| pstep_timer_handler p result :
    pr_timer p = Queued result -> pstep p (handle_metrics result (put_timer NoWait p)).

(** A process that has launched a server that its constructor made. *)
Inductive running : Process -> Prop :=
| running_launch leases context tun maximum handshake idle listening text s :
    ls_ok leases -> in_u64 maximum ->
    make_server context tun maximum true handshake idle listening = Ok s ->
    running (launch text (mkShared leases s empty_metrics, ∅))
| running_step p p' : running p -> pstep p p' -> running p'.
End Metrics.

(** [run_server] once the workers have ended. *)
Definition exit_status (p : Process) : Z := if pr_failed p then EXIT_FAILURE else EXIT_SUCCESS.
End Process.

(** ** What a step of the server does to its process *)

(** A step calls the shutdown handler exactly when it begins to stop, keeps a
    stop that has been asked for until then, and reports reloads freely. *)
Definition quiet_calls (c : list Call) : Prop := Shutdown ∉ c.
Definition stop_asked (s : TlsTunnelServer) : Prop := StopServer ∈ posted s \/ stopping_ s = true.
Record goes_on (s s' : TlsTunnelServer) : Prop := {
  go_calls : exists c, calls s' = calls s ++ c /\
    if negb (stopping_ s) && stopping_ s'
    then shutdown_handler_ s' = false /\ exists c', quiet_calls c' /\ c = c' ++ (if shutdown_handler_ s then [Shutdown] else [])
    else shutdown_handler_ s' = shutdown_handler_ s /\ stopping_ s' = stopping_ s /\ quiet_calls c;
  go_asked : stop_asked s -> stop_asked s'
}.

(** The usual step: only more is posted, and no shutdown. *)
Record carries_on (s s' : TlsTunnelServer) : Prop := {
  co_calls : exists c, calls s' = calls s ++ c /\ quiet_calls c;
  co_handler : shutdown_handler_ s' = shutdown_handler_ s;
  co_stopping : stopping_ s' = stopping_ s;
  co_posted : StopServer ∈ posted s -> StopServer ∈ posted s'
}.

Lemma carries_goes s s' : carries_on s s' -> goes_on s s'.
Proof.
  intros [(c & Hc & Hq) Hh Hst Hp]. constructor.
  - exists c. split; [exact Hc|]. rewrite Hst. destruct (stopping_ s); cbn; auto.
  - unfold stop_asked. rewrite Hst. intros [?|?]; auto.
Qed.
Lemma carries_refl s : carries_on s s.
Proof. constructor; auto. exists []. rewrite app_nil_r. split; [reflexivity|apply not_elem_of_nil]. Qed.
Lemma carries_trans s1 s2 s3 : carries_on s1 s2 -> carries_on s2 s3 -> carries_on s1 s3.
Proof.
  intros [(c & Hc & Hq) Hh Hst Hp] [(c2 & Hc2 & Hq2) Hh2 Hst2 Hp2]. constructor; [|congruence..|auto].
  exists (c ++ c2). rewrite Hc2, Hc, app_assoc. split; [reflexivity|]. unfold quiet_calls in *. rewrite elem_of_app. tauto.
Qed.
Lemma carries_call s c : c <> Shutdown -> carries_on s (put_calls (calls s ++ [c]) s).
Proof.
  intros Hc. constructor; auto. exists [c]. split; [reflexivity|]. unfold quiet_calls. rewrite list_elem_of_singleton. congruence.
Qed.
Lemma carries_posted s l : carries_on s (put_posted (posted s ++ l) s).
Proof.
  constructor; auto; [exists []; rewrite app_nil_r; split; [reflexivity|apply not_elem_of_nil]|].
  cbn. rewrite elem_of_app. auto.
Qed.
Lemma carries_same s s' : calls s' = calls s -> shutdown_handler_ s' = shutdown_handler_ s -> stopping_ s' = stopping_ s ->
  posted s' = posted s -> carries_on s s'.
Proof.
  intros Hc Hh Hst Hp. constructor; auto; [|rewrite Hp; auto].
  exists []. rewrite app_nil_r. split; [exact Hc|apply not_elem_of_nil].
Qed.

(** Computations on the server that carry on. *)
Definition carrying {A} (m : M TlsTunnelServer A) : Prop := forall s, carries_on s (m s).2.
Lemma carrying_bind {A B} (m : M TlsTunnelServer A) (k : A -> M TlsTunnelServer B) :
  carrying m -> (forall a, carrying (k a)) -> carrying (bind m k).
Proof.
  intros Hm Hk s. unfold bind. specialize (Hm s). destruct (m s) as [[a|e] s1]; [|exact Hm].
  eapply carries_trans; [exact Hm|apply Hk].
Qed.
Lemma carrying_ret {A} (a : A) : carrying (ret a).
Proof. intros s. apply carries_refl. Qed.
Lemma carrying_get : carrying get.
Proof. intros s. apply carries_refl. Qed.
Lemma carrying_router {A} (m : gset Peer -> M TunnelRouter A) : carrying (on_router m).
Proof. intros s. unfold on_router. destruct (m (alive s) (router_ s)). apply carries_same; reflexivity. Qed.
Lemma carrying_post k : carrying (post k).
Proof. intros s. apply carries_posted. Qed.
Lemma carrying_call c : c <> Shutdown -> carrying (call c).
Proof. intros Hc s. apply carries_call, Hc. Qed.
Lemma carrying_put (f : TlsTunnelServer -> TlsTunnelServer) :
  (forall s, calls (f s) = calls s /\ shutdown_handler_ (f s) = shutdown_handler_ s /\ stopping_ (f s) = stopping_ s /\
             posted (f s) = posted s) -> carrying (modify f).
Proof. intros Hf s. destruct (Hf s) as (? & ? & ? & ?). apply carries_same; assumption. Qed.
Ltac carrying_step :=
  match goal with
  | |- carrying (bind _ _) => apply carrying_bind; [|intros ?]
  | |- carrying (ret _) => apply carrying_ret
  | |- carrying get => apply carrying_get
  | |- carrying (on_router _) => apply carrying_router
  | |- carrying (post _) => apply carrying_post
  | |- carrying (call _) => apply carrying_call; discriminate
  | |- carrying (modify _) => apply carrying_put; intros; cbn; auto
  | |- carrying (on_acceptor _) => unfold on_acceptor
  | |- carrying (if ?b then _ else _) => destruct b
  | |- carrying (match ?x with _ => _ end) => destruct x
  end.
Ltac carrying := repeat carrying_step.

Lemma carrying_established l q : carrying (register_session l q).
Proof. unfold register_session. carrying. Qed.
Lemma carrying_closed l q : carrying (handle_session_closed l q).
Proof. unfold handle_session_closed. carrying. Qed.
Lemma carrying_start : carrying start_accepting.
Proof. unfold start_accepting, accept_next. carrying. Qed.
Lemma carrying_remove p : carrying (remove_session p).
Proof. unfold remove_session. carrying. Qed.
Lemma carrying_packet packet : carrying (on_tun_packet packet).
Proof. unfold on_tun_packet. carrying. Qed.
Lemma carrying_reload permissions replacement : carrying (reload_tls_context permissions replacement).
Proof.
  unfold reload_tls_context. apply carrying_bind; [apply carrying_get|]. intros s0. destruct (stopping_ s0); [carrying|].
  intros s. unfold try_catch, bind, lift, modify, call. destruct permissions as [[]|e]; [destruct replacement as [c|e]|].
  - apply (carries_trans _ (put_tls_context c s)); [apply carries_same; reflexivity|apply carries_call; discriminate].
  - apply carries_call. discriminate.
  - apply carries_call. discriminate.
Qed.

(** Stopping, from a server that differs from [s0] in other ways only. *)
Lemma stop_goes s0 s : calls s = calls s0 -> shutdown_handler_ s = shutdown_handler_ s0 -> stopping_ s = stopping_ s0 ->
  goes_on s0 (stop_on_strand s).2.
Proof.
  intros Hc Hh Hst. rewrite stop_on_strand_eq. cbn [snd]. rewrite Hst. destruct (stopping_ s0) eqn:E.
  - constructor; [|right; congruence]. exists []. rewrite app_nil_r, Hst, E. cbn.
    split; [exact Hc|]. split; [exact Hh|]. split; [reflexivity|apply not_elem_of_nil].
  - constructor; [|right; reflexivity]. exists ([TunStop] ++ if shutdown_handler_ s then [Shutdown] else []).
    split; [cbn; rewrite Hc; reflexivity|]. rewrite E. cbn [stopping_ negb andb]. split; [reflexivity|].
    exists [TunStop]. rewrite Hh. split; [|reflexivity]. unfold quiet_calls. rewrite list_elem_of_singleton. discriminate.
Qed.

Section Steps.
Context {S : Type} {LS : LeaseService S} {LSL : LeaseServiceLaws S}.

Definition host_of (st : System (S := S)) : TlsTunnelServer := sh_host st.1.

Lemma session_carries peer e (st : System (S := S)) : carries_on (host_of st) (host_of (on_session peer e st).2).
Proof.
  destruct st as [w heap]. unfold on_session. destruct (heap !! peer) as [t|]; [|apply carries_refl].
  destruct (run_event e (w, t)) as [r [w' t']] eqn:E.
  destruct (run_event_frame (ts_peer t) (carries_on (sh_host w))) with (e := e) (w := w) (t := t) (r := r) (w' := w') (t' := t')
    as (_ & Hc & _); [|  | |reflexivity|exact E|apply Hc, carries_refl].
  - intros p h Hh. eapply carries_trans; [exact Hh|]. apply carries_call. discriminate.
  - intros l h Hh. eapply carries_trans; [exact Hh|]. apply carrying_established.
  - intros l h Hh. eapply carries_trans; [exact Hh|]. apply carrying_closed.
Qed.
Lemma server_carries {A} (m : M TlsTunnelServer A) (st : System (S := S)) :
  carrying m -> carries_on (host_of st) (host_of (on_server m st).2).
Proof. intros Hm. destruct st as [w heap]. unfold on_server. specialize (Hm (sh_host w)). destruct (m (sh_host w)). exact Hm. Qed.

(** Handlers of the whole system that carry on. *)
Definition all_carrying {A} (m : M (System (S := S)) A) : Prop := forall st, carries_on (host_of st) (host_of (m st).2).
Lemma all_bind {A B} (m : M System A) (k : A -> M System B) : all_carrying m -> (forall a, all_carrying (k a)) -> all_carrying (bind m k).
Proof.
  intros Hm Hk st. unfold bind. specialize (Hm st). destruct (m st) as [[a|e] st1]; [|exact Hm].
  eapply carries_trans; [exact Hm|apply Hk].
Qed.
Lemma all_server {A} (m : M TlsTunnelServer A) : carrying m -> all_carrying (on_server m).
Proof. intros Hm st. apply server_carries, Hm. Qed.
Lemma all_increment k : all_carrying (increment k).
Proof. intros [w heap]. apply carries_refl. Qed.
Lemma all_allocate peer t : all_carrying (allocate peer t).
Proof. intros [w heap]. apply carries_same; reflexivity. Qed.
Lemma all_lift {A} (o : outcome A) : all_carrying (lift o).
Proof. intros [w heap]. apply carries_refl. Qed.
Lemma all_admit peer s0 :
  all_carrying (let* _ := if maximum_sessions_ s0 <=? Z.of_nat (size (sessions_ s0)) then increment C_capacity_rejections
    else
      let* _ := increment C_accepted_connections in
      let* session := lift (make_tls peer true true true true 256 (Z.shiftl 1 20)
        (session_handshake_timeout_ s0) (session_idle_timeout_ s0)) in
      let* _ := allocate peer session in
      let* _ := on_server (modify (fun s => put_sessions ({[peer]} ∪ sessions_ s) s)) in
      on_server (post (StartSession peer)) in
    on_server accept_next).
Proof.
  apply all_bind; [destruct (_ <=? _); [apply all_increment|]|intros _; apply all_server; unfold accept_next; carrying].
  apply all_bind; [apply all_increment|intros _]. apply all_bind; [apply all_lift|intros session].
  apply all_bind; [apply all_allocate|intros _]. apply all_bind; [apply all_server; carrying|intros _]. apply all_server. carrying.
Qed.

Lemma accept_goes error peer (st : System (S := S)) :
  goes_on (host_of st) (host_of ((let* _ := on_server (on_acceptor accept_completes) in handle_accept error peer) st).2).
Proof.
  destruct st as [w heap]. unfold bind at 1, on_server at 1, on_acceptor, modify. unfold handle_accept, bind at 1, on_server at 1, get.
  set (s1 := put_acceptor (accept_completes (acceptor_ (sh_host w))) (sh_host w)).
  assert (H1 : carries_on (sh_host w) s1) by (apply carries_same; reflexivity).
  change (stopping_ (sh_host (mkShared (sh_leases w) s1 (sh_metrics w)))) with (stopping_ (sh_host w)).
  cbn [sh_host]. change (stopping_ s1) with (stopping_ (sh_host w)).
  destruct (stopping_ (sh_host w)) eqn:Est; [apply carries_goes; exact H1|].
  change (host_of (w, heap)) with (sh_host w). destruct error.
  - apply carries_goes. eapply carries_trans; [exact H1|].
    exact (all_admit peer s1 (mkShared (sh_leases w) s1 (sh_metrics w), heap)).
  - apply carries_goes. eapply carries_trans; [exact H1|].
    apply (server_carries accept_next (mkShared (sh_leases w) s1 (sh_metrics w), heap)). unfold accept_next. carrying.
  - unfold on_server. cbn [sh_host]. pose proof (stop_goes (sh_host w) s1 eq_refl eq_refl eq_refl) as Hs.
    destruct (stop_on_strand s1). exact Hs.
Qed.

Lemma popped_carries (w : Shared S TlsTunnelServer) before k after :
  posted (sh_host w) = before ++ k :: after -> k <> StopServer -> carries_on (sh_host w) (sh_host (popped (before ++ after) w)).
Proof.
  intros E Hk. constructor; try reflexivity; [exists []; rewrite app_nil_r; split; [reflexivity|apply not_elem_of_nil]|].
  cbn. rewrite E, !elem_of_app, elem_of_cons. intros [?|[?|?]]; [auto|congruence|auto].
Qed.

Lemma task_goes (w : Shared S TlsTunnelServer) heap before k after now :
  posted (sh_host w) = before ++ k :: after ->
  goes_on (sh_host w) (host_of (run_task k now (popped (before ++ after) w, heap)).2).
Proof.
  intros E. set (st := (popped (before ++ after) w, heap) : System (S := S)).
  assert (Hc : k <> StopServer -> all_carrying (run_task k now) -> goes_on (sh_host w) (host_of (run_task k now st).2)).
  { intros Hk Hm. apply carries_goes. eapply carries_trans; [eapply popped_carries; eassumption|]. exact (Hm st). }
  destruct k; try (apply Hc; [discriminate|]; cbn [run_task];
    first [apply all_server; first [apply carrying_start|apply carrying_reload|apply carrying_remove]
          |intros st'; apply session_carries]).
  cbn [run_task]. unfold on_server, st. pose proof (stop_goes (sh_host w) (sh_host (popped (before ++ after) w)) eq_refl eq_refl eq_refl) as Hs.
  destruct (stop_on_strand _). exact Hs.
Qed.

Lemma step_goes (st : System (S := S)) r st' : step st r st' -> goes_on (host_of st) (host_of st').
Proof.
  intros Hs. destruct Hs as [st k r st' Hk E|w heap before k after now r st' Ep _ E|
    w heap p t e r st' Ht Hio Hp E|w heap error p r st' Ha Hp E|st packet r st' Hb E|st r st' E|w heap p t Hp Hn _ Hk].
  - apply carries_goes. replace st' with (on_server (post k) st).2 by (rewrite E; reflexivity). apply server_carries. carrying.
  - replace st' with (run_task k now (popped (before ++ after) w, heap)).2; [apply task_goes, Ep|].
    change ((let* _ := on_server (modify (put_posted (before ++ after))) in run_task k now) (w, heap))
      with (run_task k now (popped (before ++ after) w, heap)) in E. rewrite E. reflexivity.
  - apply carries_goes. replace st' with (on_session p e (w, heap)).2 by (rewrite E; reflexivity).
    exact (session_carries p e (w, heap)).
  - replace st' with ((let* _ := on_server (on_acceptor accept_completes) in handle_accept error p) (w, heap)).2 by (rewrite E; reflexivity).
    apply (accept_goes error p (w, heap)).
  - apply carries_goes. replace st' with (on_server (on_tun_packet packet) st).2 by (rewrite E; reflexivity).
    apply server_carries, carrying_packet.
  - apply carries_goes. replace st' with (on_server on_tun_error st).2 by (rewrite E; reflexivity).
    apply server_carries. unfold on_tun_error. carrying.
  - apply carries_goes, carries_same; reflexivity.
Qed.
End Steps.

(** ** The process *)

Section Invariant.
Context {S : Type} {LS : LeaseService S} {LSL : LeaseServiceLaws S}.
Context (interval : Z) (format : MetricsFormat).
Abbreviation Proc := (Process (S := S)).
Implicit Types (p : Proc).

(** What keeps the process alive of its own: a wait that goes on. *)
Definition waiting p : Prop := pr_signals p = Waiting \/ pr_timer p = Waiting.
(** A handler that will wait again, or is queued and would: SIGHUP with
    nothing but SIGHUP behind it, and the timer. *)
Definition rearms p : bool :=
  match pr_signals p with Queued (Some signal) => forallb (Z.eqb SIGHUP) (signal :: pr_pending p) | _ => false end ||
  match pr_timer p with Queued (Some _) => true | _ => false end.
Definition late p : bool :=
  match pr_signals p with Waiting => true | _ => false end || match pr_timer p with Waiting => true | _ => false end ||
  rearms p.

Definition psteps : relation Proc := rtc (pstep interval format).

Record proc_ok p : Prop := {
  po_reachable : reachable (pr_system p);
  po_failed : pr_failed p = false;
  po_handler : shutdown_handler_ (server_of p) = negb (stopping_ (server_of p));
  po_interval : pr_timer p <> NoWait -> interval <> 0;
  po_asked : pr_signals p = NoWait -> stop_asked (server_of p);
  po_pending : pr_signals p = Waiting -> pr_pending p = [];
  po_serving : stopping_ (server_of p) = false -> pr_signals p <> Queued None /\
    (interval <> 0 -> pr_timer p = Waiting \/ exists u, pr_timer p = Queued (Some u))
}.

Lemma fold_quiet c p : quiet_calls c ->
  let p' := fold_left (fun p c => on_call c p) c p in
  pr_system p' = pr_system p /\ pr_signals p' = pr_signals p /\ pr_pending p' = pr_pending p /\
  pr_timer p' = pr_timer p /\ pr_failed p' = pr_failed p.
Proof.
  revert p. induction c as [|x c IH]; intros p Hq; cbn [fold_left]; [auto|].
  unfold quiet_calls in *. rewrite elem_of_cons in Hq.
  destruct (IH (on_call x p)) as (A & B & C & D & F); [tauto|]. rewrite A, B, C, D, F.
  destruct x; cbn; auto. exfalso. apply Hq. left. reflexivity.
Qed.

(** What the server's steps leave of the process, and what a shutdown does. *)
Definition after_server (p : Proc) (r : outcome unit) (system' : System (S := S)) : Proc :=
  fold_left (fun p c => on_call c p) (drop (length (calls (server_of p))) (calls (sh_host system'.1)))
    (put_failed (pr_failed p || negb (is_ok r)) (put_system system' p)).
Lemma after_server_spec p r system' :
  proc_ok p -> step (pr_system p) r system' ->
  let p' := after_server p r system' in
  pr_system p' = system' /\ pr_pending p' = pr_pending p /\ pr_failed p' = false /\
  if negb (stopping_ (server_of p)) && stopping_ (server_of p')
  then pr_signals p' = cancel (pr_signals p) /\ pr_timer p' = cancel (pr_timer p) /\ shutdown_handler_ (server_of p') = false
  else pr_signals p' = pr_signals p /\ pr_timer p' = pr_timer p /\
       shutdown_handler_ (server_of p') = shutdown_handler_ (server_of p) /\ stopping_ (server_of p') = stopping_ (server_of p).
Proof.
  intros Hp Hs. destruct (step_goes _ _ _ Hs) as [(c & Hc & Hcase) _].
  destruct (step_ok _ _ _ (reachable_ok _ (po_reachable _ Hp)) Hs) as [-> _].
  intros p'. assert (Ed : drop (length (calls (server_of p))) (calls (sh_host system'.1)) = c).
  { change (sh_host system'.1) with (host_of system'). rewrite Hc. apply drop_app_length. }
  unfold p', after_server in *. clear p'. rewrite Ed. cbn [is_ok negb]. rewrite orb_false_r, (po_failed _ Hp).
  change (server_of p) with (host_of (pr_system p)). pose proof (po_handler _ Hp) as Hh. change (server_of p) with (host_of (pr_system p)) in Hh.
  destruct (negb (stopping_ (host_of (pr_system p))) && stopping_ (host_of system')) eqn:E.
  - destruct Hcase as (Hoff & c' & Hq & ->). apply andb_true_iff in E as [En Es]. rewrite Hh, En, fold_left_app. cbn [fold_left].
    destruct (fold_quiet c' (put_failed false (put_system system' p)) Hq) as (A & B & C & D & F).
    set (p1 := fold_left _ c' _) in *. cbn [on_call shutdown_handler put_timer put_signals pr_system pr_signals pr_pending pr_timer pr_failed].
    split; [exact A|]. split; [exact C|]. split; [exact F|].
    unfold server_of. change (pr_system (shutdown_handler p1)) with (pr_system p1). rewrite A. cbn [put_system put_failed pr_signals pr_timer] in B, D. cbn [pr_system put_system put_failed].
    change (sh_host system'.1) with (host_of system'). rewrite Es, B, D. cbn [andb]. auto.
  - destruct Hcase as (Hsame & Hst & Hq). destruct (fold_quiet c (put_failed false (put_system system' p)) Hq) as (A & B & C & D & F).
    set (p1 := fold_left _ c _) in *. split; [exact A|]. split; [exact C|]. split; [exact F|].
    unfold server_of. rewrite A. cbn [pr_system put_system put_failed]. change (sh_host system'.1) with (host_of system').
    rewrite E. auto.
Qed.

Lemma post_asked k p : stop_asked (server_of p) \/ k = StopServer -> stop_asked (server_of (post_server k p)).
Proof.
  unfold stop_asked, server_of, post_server. destruct p as [[w heap] ? ? ? ? ?]. cbn. rewrite elem_of_app, list_elem_of_singleton.
  intros [[Hin|Hst]| ->]; auto.
Qed.
Lemma post_reachable k p : external k -> reachable (pr_system p) -> reachable (pr_system (post_server k p)).
Proof.
  intros Hk Hr. unfold post_server. cbn [pr_system put_system]. destruct (on_server (post k) (pr_system p)) as [r st'] eqn:E.
  eapply reachable_step; [exact Hr|]. apply (step_call _ k r st'); assumption.
Qed.
Lemma post_server_same k p :
  stopping_ (server_of (post_server k p)) = stopping_ (server_of p) /\
  shutdown_handler_ (server_of (post_server k p)) = shutdown_handler_ (server_of p).
Proof. destruct p as [[w heap] ? ? ? ? ?]. auto. Qed.

Lemma server_step_ok p r system' : proc_ok p -> step (pr_system p) r system' -> proc_ok (after_server p r system').
Proof.
  intros Hp Hs. pose proof (after_server_spec p r system' Hp Hs) as (A & B & C & D). set (p' := after_server p r system') in *.
  assert (Hask : stop_asked (server_of p) -> stop_asked (server_of p')).
  { intros Ha. unfold server_of. rewrite A. exact (go_asked _ _ (step_goes _ _ _ Hs) Ha). }
  destruct Hp as [P1 P2 P3 P4 P5 P6 P7].
  assert (Hr : reachable (pr_system p')) by (rewrite A; eapply reachable_step; eassumption).
  destruct (negb (stopping_ (server_of p)) && stopping_ (server_of p')) eqn:E.
  - destruct D as (Es & Et & Eh). apply andb_true_iff in E as [En E]. constructor; auto.
    + rewrite Eh, E. reflexivity.
    + rewrite Et. destruct (pr_timer p); intros Hn; apply P4; try discriminate. exact Hn.
    + rewrite Es. destruct (pr_signals p) eqn:E1; try discriminate. auto.
    + rewrite Es. destruct (pr_signals p); discriminate.
    + intros Hst. congruence.
  - destruct D as (Es & Et & Eh & Est). constructor; auto.
    + rewrite Eh, Est. exact P3.
    + rewrite Et. exact P4.
    + rewrite Es. auto.
    + rewrite Es, B. exact P6.
    + rewrite Est, Es, Et. exact P7.
Qed.

Lemma wait_ok p : pr_signals p = NoWait ->
  pr_system (wait_for_signal p) = pr_system p /\ pr_timer (wait_for_signal p) = pr_timer p /\
  pr_failed (wait_for_signal p) = pr_failed p /\ pr_signals (wait_for_signal p) <> NoWait /\
  pr_signals (wait_for_signal p) <> Queued None /\
  (pr_signals (wait_for_signal p) = Waiting -> pr_pending (wait_for_signal p) = []).
Proof. intros _. unfold wait_for_signal. destruct (pr_pending p) eqn:E; cbn; repeat split; try discriminate; auto. Qed.

Lemma signal_ok p permissions replacement result :
  proc_ok p -> pr_signals p = Queued result -> proc_ok (handle_signal permissions replacement result (put_signals NoWait p)).
Proof.
  intros [P1 P2 P3 P4 P5 P6 P7] Es. set (p0 := put_signals NoWait p). destruct result as [signal|]; cbn [handle_signal].
  - destruct (signal =? SIGHUP).
    + set (p1 := post_server _ p0). destruct (wait_ok p1 eq_refl) as (A & B & C & D & F & G).
      destruct (post_server_same (ReloadTls permissions replacement) p0) as [H1 H2].
      assert (Hs : server_of (wait_for_signal p1) = server_of p1) by (unfold server_of; rewrite A; reflexivity).
      constructor; rewrite ?A, ?Hs, ?B, ?C; auto.
      * apply post_reachable; [exact I|exact P1].
      * unfold p1. rewrite H1, H2. exact P3.
      * contradiction.
      * unfold p1. rewrite H1. intros Hst. split; [exact F|]. exact (proj2 (P7 Hst)).
    + destruct (post_server_same StopServer p0) as [H1 H2]. constructor; rewrite ?H1, ?H2; auto.
      * apply post_reachable; [exact I|exact P1].
      * intros _. apply post_asked. auto.
      * discriminate.
      * intros Hst. split; [discriminate|exact (proj2 (P7 Hst))].
  - assert (Hst : stopping_ (server_of p) = true).
    { destruct (stopping_ (server_of p)) eqn:E; [reflexivity|]. destruct (P7 eq_refl) as [Hn _]. congruence. }
    constructor; auto; [intros _; right; exact Hst|discriminate|intros Hf; change (stopping_ (server_of p) = false) in Hf; congruence].
Qed.

Lemma timer_handler_ok p result : proc_ok p -> pr_timer p = Queued result -> proc_ok (handle_metrics interval format result (put_timer NoWait p)).
Proof.
  intros [P1 P2 P3 P4 P5 P6 P7] Et. assert (Hi : interval <> 0) by (apply P4; rewrite Et; discriminate).
  destruct result as [u|]; cbn [handle_metrics].
  - unfold schedule_metrics. rewrite (proj2 (Z.eqb_neq _ _) Hi). constructor; auto.
    intros Hst. split; [exact (proj1 (P7 Hst))|]. intros _. left. reflexivity.
  - constructor; auto. intros Hst. destruct (P7 Hst) as [_ Hw].
    destruct (Hw Hi) as [?|[u ?]]; congruence.
Qed.

Lemma pstep_ok p p' : proc_ok p -> pstep interval format p p' -> proc_ok p'.
Proof.
  intros Hp Hs. destruct Hs as [p r system' Hs|p signal Hsig|p permissions replacement result Es|p Et|p result Et].
  - apply server_step_ok; assumption.
  - destruct Hp as [P1 P2 P3 P4 P5 P6 P7]. destruct (pr_signals p) eqn:Es; constructor; auto; try discriminate.
    + intros H. change (pr_signals p = Waiting) in H. congruence.
    + cbn. rewrite Es. exact P7.
    + intros Hst. split; [discriminate|exact (proj2 (P7 Hst))].
    + intros H. change (pr_signals p = NoWait) in H. congruence.
    + intros H. change (pr_signals p = Waiting) in H. congruence.
    + cbn. rewrite Es. exact P7.
  - apply signal_ok; assumption.
  - destruct Hp as [P1 P2 P3 P4 P5 P6 P7]. constructor; auto.
    + intros _. apply P4. rewrite Et. discriminate.
    + intros Hst. split; [exact (proj1 (P7 Hst))|]. intros _. right. exists tt. reflexivity.
  - apply timer_handler_ok; assumption.
Qed.

Lemma launch_ok leases context tun maximum handshake idle listening text s :
  ls_ok leases -> in_u64 maximum ->
  make_server context tun maximum true handshake idle listening = Ok s ->
  proc_ok (launch interval text (mkShared leases s empty_metrics, ∅)).
Proof.
  intros Hl Hm E. assert (Hs : stopping_ s = false /\ shutdown_handler_ s = true).
  { unfold make_server in E. destruct context; [|discriminate]. inv_ok. subst s. auto. }
  destruct Hs as [Hs1 Hs2]. unfold launch, schedule_metrics. cbn [wait_for_signal pr_pending].
  assert (Hr : reachable (on_server (post StartServer) (mkShared leases s empty_metrics, ∅)).2).
  { destruct (on_server (post StartServer) (mkShared leases s empty_metrics, ∅)) as [r st'] eqn:Ep.
    eapply reachable_step; [eapply reachable_init; eassumption|]. exact (step_call _ StartServer r st' I Ep). }
  destruct (interval =? 0) eqn:Ei; b2p; constructor; auto; try discriminate; cbn; try (rewrite Hs1, Hs2; reflexivity).
  all: intros _; (split; [discriminate|]); first [contradiction|auto].
Qed.
Lemma running_ok p : running interval format p -> proc_ok p.
Proof. induction 1 as [|p p' _ IH Hs]; [eapply launch_ok; eassumption|eapply pstep_ok; eassumption]. Qed.

(** ** Coming to an end *)

(** The server stops and nothing of the process waits again. *)
Definition settled p : Prop := stopping_ (server_of p) = true /\ late p = false.

Lemma late_parts p : late p = false <->
  pr_signals p <> Waiting /\ pr_timer p <> Waiting /\
  (forall signal, pr_signals p = Queued (Some signal) -> forallb (Z.eqb SIGHUP) (signal :: pr_pending p) = false) /\
  (forall u, pr_timer p <> Queued (Some u)).
Proof.
  unfold late, rearms. rewrite !orb_false_iff. split.
  - intros ((A & B) & C & D). split_goal.
    + intros E. rewrite E in A. discriminate.
    + intros E. rewrite E in B. discriminate.
    + intros signal E. rewrite E in C. exact C.
    + intros u E. rewrite E in D. discriminate.
  - intros (A & B & C & D). split; split.
    + destruct (pr_signals p); first [reflexivity|destruct (A eq_refl)].
    + destruct (pr_timer p); first [reflexivity|destruct (B eq_refl)].
    + destruct (pr_signals p) as [| |[signal|]]; [reflexivity..|exact (C signal eq_refl)|reflexivity].
    + destruct (pr_timer p) as [| |[u|]]; [reflexivity..|destruct (D u eq_refl)|reflexivity].
Qed.

Lemma settled_step p p' : proc_ok p -> settled p -> pstep interval format p p' -> settled p'.
Proof.
  intros Hp [Hst Hl] Hs. apply late_parts in Hl as (L1 & L2 & L3 & L4).
  destruct Hs as [p r system' Hs|p signal Hsig|p permissions replacement result Es|p Et|p result Et].
  - destruct (after_server_spec p r system' Hp Hs) as (A & B & C & D). rewrite Hst in D. cbn [negb andb] in D.
    destruct D as (Es & Et & _ & Est). change (settled (after_server p r system')). split; [congruence|]. apply late_parts.
    rewrite Es, Et, B. auto.
  - split; [destruct (pr_signals p); exact Hst|]. apply late_parts. destruct (pr_signals p) as [| |[s|]] eqn:Es;
      [|congruence|..]; cbn; rewrite Es; split_goal; auto; try discriminate.
    intros s' [= <-]. change (forallb (Z.eqb SIGHUP) ((s :: pr_pending p) ++ [signal]) = false).
    rewrite forallb_app, (L3 s eq_refl). reflexivity.
  - destruct result as [signal|]; cbn [handle_signal]; [|split; [exact Hst|apply late_parts; cbn; split_goal; auto; discriminate]].
    specialize (L3 signal Es). cbn [forallb] in L3. rewrite Z.eqb_sym. destruct (SIGHUP =? signal).
    + unfold wait_for_signal. cbn [post_server pr_pending put_system put_signals]. destruct (pr_pending p) as [|s' rest]; [discriminate|].
      split; [destruct p as [[w heap] ? ? ? ? ?]; exact Hst|]. apply late_parts. cbn. split_goal; auto; try discriminate.
      intros s'' [= <-]. exact L3.
    + split; [destruct p as [[w heap] ? ? ? ? ?]; exact Hst|]. apply late_parts. cbn. split_goal; auto; discriminate.
  - congruence.
  - destruct result as [u|]; [destruct (L4 u Et)|]. split; [exact Hst|]. apply late_parts. cbn. split_goal; auto; discriminate.
Qed.
Lemma settled_steps p p' : psteps p p' -> proc_ok p -> settled p -> settled p'.
Proof. induction 1; eauto using settled_step, pstep_ok. Qed.
Lemma steps_ok p p' : psteps p p' -> proc_ok p -> proc_ok p'.
Proof. induction 1; eauto using pstep_ok. Qed.

(** A late handler does wait again. *)
Lemma hangups_wait p rest : forall signal p', pr_signals p' = Queued (Some signal) -> pr_pending p' = rest ->
  forallb (Z.eqb SIGHUP) (signal :: rest) = true -> pr_timer p' = pr_timer p -> exists q, psteps p' q /\ waiting q.
Proof.
  induction rest as [|next rest IH]; intros signal p' Es Ep Hall Ht; cbn [forallb] in Hall; apply andb_true_iff in Hall as [E Hall].
  - eexists. split; [apply rtc_once; apply (pstep_signal_handler interval format p' (Ok tt) (Ok 0) _ Es)|].
    cbn [handle_signal]. rewrite Z.eqb_sym, E. left. unfold wait_for_signal. cbn [post_server pr_pending put_system put_signals]. rewrite Ep. reflexivity.
  - set (p1 := handle_signal (Ok tt) (Ok 0) (Some signal) (put_signals NoWait p')).
    assert (H1 : p1 = put_pending rest (put_signals (Queued (Some next)) (post_server (ReloadTls (Ok tt) (Ok 0)) (put_signals NoWait p')))).
    { unfold p1. cbn [handle_signal]. rewrite Z.eqb_sym, E. unfold wait_for_signal. cbn [post_server pr_pending put_system put_signals].
      rewrite Ep. reflexivity. }
    destruct (IH next p1) as (q & Hq & Hw); [rewrite H1; reflexivity..|exact Hall|rewrite H1; exact Ht|].
    exists q. split; [|exact Hw]. eapply rtc_l; [|exact Hq]. exact (pstep_signal_handler interval format p' (Ok tt) (Ok 0) _ Es).
Qed.
Lemma late_waits p : proc_ok p -> late p = true -> exists q, psteps p q /\ waiting q.
Proof.
  intros Hp Hl. unfold late, rearms in Hl. apply orb_true_iff in Hl as [Hl|Hl]; apply orb_true_iff in Hl as [Hl|Hl].
  - exists p. split; [constructor|]. left. destruct (pr_signals p); first [reflexivity|discriminate].
  - exists p. split; [constructor|]. right. destruct (pr_timer p); first [reflexivity|discriminate].
  - destruct (pr_signals p) as [| |[signal|]] eqn:Es; try discriminate. eapply (hangups_wait p); eauto.
  - destruct (pr_timer p) as [| |[u|]] eqn:Et; try discriminate.
    eexists. split; [apply rtc_once, (pstep_timer_handler interval format p _ Et)|]. right. cbn [handle_metrics]. unfold schedule_metrics.
    rewrite (proj2 (Z.eqb_neq _ _)); [reflexivity|]. apply (po_interval _ Hp). rewrite Et. discriminate.
Qed.

(** Otherwise the queued handlers run out. *)
Lemma signals_end rest : forall p, proc_ok p -> settled p -> pr_pending p = rest ->
  exists q, psteps p q /\ pr_signals q = NoWait.
Proof.
  induction rest as [|next rest IH]; intros p Hp Hs Ep; pose proof Hs as [_ Hl]; apply late_parts in Hl as (L1 & _ & L3 & _);
    destruct (pr_signals p) as [| |[signal|]] eqn:Es; try congruence; try (exists p; split; [constructor|exact Es]).
  all: pose proof (pstep_signal_handler interval format p (Ok tt) (Ok 0) _ Es) as Hstep;
    pose proof (pstep_ok _ _ Hp Hstep) as Hp'; pose proof (settled_step _ _ Hp Hs Hstep) as Hs'; cbn [handle_signal] in *.
  all: try (eexists; split; [apply rtc_once, Hstep|reflexivity]).
  all: specialize (L3 signal eq_refl); rewrite Ep in L3; cbn [forallb] in L3; rewrite Z.eqb_sym in L3;
    destruct (signal =? SIGHUP); try discriminate; try (eexists; split; [apply rtc_once, Hstep|reflexivity]).
  unfold wait_for_signal in *. cbn [post_server pr_pending put_system put_signals] in *. rewrite Ep in *.
  destruct (IH _ Hp' Hs' eq_refl) as (q & Hq & E). exists q. split; [eapply rtc_l; eassumption|exact E].
Qed.
Lemma timer_ends p : proc_ok p -> settled p -> exists q, psteps p q /\ pr_timer q = NoWait /\ pr_signals q = pr_signals p.
Proof.
  intros Hp [_ Hl]. apply late_parts in Hl as (_ & L2 & _ & L4). destruct (pr_timer p) as [| |[u|]] eqn:Et.
  - exists p. split; [constructor|auto].
  - congruence.
  - destruct (L4 u eq_refl).
  - eexists. split; [apply rtc_once, (pstep_timer_handler interval format p _ Et)|auto].
Qed.
Lemma drain_steps now fuel : forall p, proc_ok p -> stopping_ (server_of p) = true ->
  exists q, psteps p q /\ pr_system q = drain fuel now (pr_system p) /\ pr_signals q = pr_signals p /\ pr_timer q = pr_timer p.
Proof.
  induction fuel as [|fuel IH]; intros p Hp Hst; [exists p; split; [constructor|auto]|]. cbn [drain].
  destruct (decide (posted (server_of p) = [])) as [E|E].
  - assert (run_oldest now (pr_system p) = pr_system p) as -> by (unfold run_oldest; unfold server_of in E; rewrite E; reflexivity).
    apply IH; assumption.
  - destruct (run_oldest_step now (pr_system p) E) as [r Hr].
    destruct (after_server_spec p r _ Hp Hr) as (A & _ & _ & D). rewrite Hst in D. cbn [negb andb] in D.
    destruct D as (Es & Et & _ & Est). destruct (IH (after_server p r (run_oldest now (pr_system p)))) as (q & Hq & Hsys & Hs & Ht);
      [apply server_step_ok; assumption|congruence|].
    exists q. split; [eapply rtc_l; [apply (pstep_server interval format p r _ Hr)|exact Hq]|]. rewrite Hsys, Hs, Ht, A. auto.
Qed.

(** Nothing left to run and nothing of the process that waits. *)
Definition ended p : Prop :=
  posted (server_of p) = [] /\ sessions_ (server_of p) = ∅ /\ pr_signals p = NoWait /\ pr_timer p = NoWait.
Lemma settled_ends p : proc_ok p -> settled p -> exists q, psteps p q /\ ended q.
Proof.
  intros Hp Hs. destruct (signals_end _ p Hp Hs eq_refl) as (p1 & H1 & E1).
  pose proof (steps_ok _ _ H1 Hp) as Hp1. pose proof (settled_steps _ _ H1 Hp Hs) as Hs1.
  destruct (timer_ends p1 Hp1 Hs1) as (p2 & H2 & E2 & E2').
  pose proof (steps_ok _ _ H2 Hp1) as Hp2. pose proof (settled_steps _ _ H2 Hp1 Hs1) as Hs2.
  destruct (drain_steps 0 (work (posted (server_of p2))) p2 Hp2 (proj1 Hs2)) as (q & H3 & Esys & Es & Et).
  exists q. split; [etransitivity; [exact H1|]; etransitivity; [exact H2|exact H3]|].
  destruct (drain_empties 0 _ (pr_system p2) (po_reachable _ Hp2) (proj1 Hs2) (le_n _)) as (Hr & Hst & Hpost).
  destruct (stopped_empty _ (reachable_ok _ Hr) Hst Hpost) as [Hses _].
  unfold ended, server_of. rewrite Esys, Es, Et, E2', E1. auto.
Qed.

(** What the shutdown handler finds queued is what can outlive it. *)
Lemma shutdown_late p q : proc_ok p -> pstep interval format p q ->
  stopping_ (server_of p) = false -> stopping_ (server_of q) = true -> late q = rearms p.
Proof.
  intros Hp Hs Hst Hq. destruct Hs as [p r system' Hs|p signal Hsig|p permissions replacement result Es|p Et|p result Et].
  - destruct (after_server_spec p r system' Hp Hs) as (A & B & C & D). change (stopping_ (server_of (after_server p r system')) = true) in Hq.
    rewrite Hst, Hq in D. cbn [negb andb] in D. destruct D as (Es & Et & _). change (late (after_server p r system') = rearms p).
    unfold late, rearms. rewrite Es, Et, B. destruct (pr_signals p) as [| |[s|]], (pr_timer p) as [| |[u|]]; reflexivity.
  - exfalso. revert Hq. destruct (pr_signals p); change (stopping_ (server_of p) = true -> False); congruence.
  - exfalso. revert Hq. destruct result as [signal|]; cbn [handle_signal]; [|change (stopping_ (server_of p) = true -> False); congruence].
    assert (Hsame : forall k, stopping_ (server_of (post_server k (put_signals NoWait p))) = false).
    { intros k. rewrite (proj1 (post_server_same k _)). exact Hst. }
    destruct (signal =? SIGHUP); [|rewrite Hsame; discriminate].
    destruct (wait_ok (post_server (ReloadTls permissions replacement) (put_signals NoWait p)) eq_refl) as (A & _).
    unfold server_of at 1. rewrite A. fold (server_of (post_server (ReloadTls permissions replacement) (put_signals NoWait p))).
    rewrite Hsame. discriminate.
  - exfalso. change (stopping_ (server_of p) = true) in Hq. congruence.
  - exfalso. revert Hq. destruct result as [u|]; cbn [handle_metrics]; [unfold schedule_metrics; destruct (interval =? 0)|];
      change (stopping_ (server_of p) = true -> False); congruence.
Qed.
End Invariant.

(** ** Properties *)

(** C39: The server's process ends as it should, except after one race.  In
    every state that [run_server] can reach, no handler has thrown, so the
    exit status is success; the signals are listened to, and the metrics timer
    runs, until the server has been asked to stop; and the step that begins to stop
    cancels both waits.  From then on, if no handler was queued that would wait
    again, the tasks and handlers that are left run out: there are no sessions
    and nothing waits, now or later.  If such a handler was queued, a metrics timer that
    had just expired or a SIGHUP with no other signal behind it, it does wait
    again, and the process goes on without a server. *)
Theorem process_shuts_down {S} `{LSL : LeaseServiceLaws S} interval format (p : Process) :
  running interval format p ->
  exit_status p = EXIT_SUCCESS /\
  (pr_signals p = NoWait -> stop_asked (server_of p)) /\
  (stopping_ (server_of p) = false -> interval <> 0 -> pr_timer p <> NoWait) /\
  (forall q, pstep interval format p q -> stopping_ (server_of p) = false -> stopping_ (server_of q) = true -> late q = rearms p) /\
  (stopping_ (server_of p) = true ->
   ((exists q, psteps interval format p q /\ waiting q) <-> late p = true) /\
   (late p = false -> exists q, psteps interval format p q /\ ended q)).
Proof.
  intros Hr. pose proof (running_ok interval format p Hr) as Hp. split; [unfold exit_status; rewrite (po_failed _ _ Hp); reflexivity|].
  split; [apply (po_asked _ _ Hp)|]. split.
  { intros Hst Hi E. destruct (po_serving _ _ Hp Hst) as [_ Hw]. destruct (Hw Hi) as [?|[u ?]]; congruence. }
  split; [intros q; apply (shutdown_late interval format p q Hp)|]. intros Hst. split; [split|].
  - intros (q & Hq & Hw). destruct (late p) eqn:El; [reflexivity|]. exfalso.
    destruct (settled_steps interval format p q Hq Hp (conj Hst El)) as [_ Hl]. apply late_parts in Hl as (? & ? & _).
    destruct Hw; contradiction.
  - apply late_waits, Hp.
  - intros El. apply (settled_ends interval format p Hp). split; assumption.
Qed.

(** ** Witness *)

Section Oldest.
Context {S : Type} {LS : LeaseService S} {LSL : LeaseServiceLaws S} (interval : Z) (format : MetricsFormat).
(** The oldest task of the server runs. *)
Definition server_oldest (p : Process (S := S)) : Process (S := S) := after_server p (Ok tt) (run_oldest 0 (pr_system p)).
Lemma running_oldest p : running interval format p -> posted (server_of p) <> [] -> running interval format (server_oldest p).
Proof.
  intros Hr Hp. eapply running_step; [exact Hr|]. destruct (run_oldest_step 0 (pr_system p) Hp) as [r Hs].
  pose proof (running_ok _ _ _ Hr) as Hok. destruct (step_ok _ _ _ (reachable_ok _ (po_reachable _ _ Hok)) Hs) as [-> _].
  exact (pstep_server interval format p (Ok tt) _ Hs).
Qed.
End Oldest.

(** A server that reports its metrics every minute, told to stop: before the
    timer expires, and just after. *)
Definition launched : Process := launch 60 "listening" idle_server.
Definition expired : Process := put_timer (Queued (Some tt)) launched.
Definition told_to_stop (p : Process (S := LeaseManager)) : Process :=
  server_oldest (server_oldest (handle_signal (Ok tt) (Ok 0) (Some SIGTERM) (put_signals NoWait (put_signals (Queued (Some SIGTERM)) p)))).

Lemma told_to_stop_running p :
  running 60 FormatJson p -> pr_signals p = Waiting -> posted (server_of p) = [StartServer] ->
  posted (server_of (server_oldest (handle_signal (Ok tt) (Ok 0) (Some SIGTERM)
    (put_signals NoWait (put_signals (Queued (Some SIGTERM)) p))))) <> [] ->
  running 60 FormatJson (told_to_stop p).
Proof.
  intros Hr Es Ep Hnext. assert (Hsig : running 60 FormatJson (put_signals (Queued (Some SIGTERM)) p)).
  { eapply running_step; [exact Hr|]. pose proof (pstep_signal 60 FormatJson p SIGTERM ltac:(set_solver)) as Hs.
    rewrite Es in Hs. exact Hs. }
  apply running_oldest; [|exact Hnext]. apply running_oldest.
  - eapply running_step; [exact Hsig|]. apply (pstep_signal_handler 60 FormatJson). reflexivity.
  - destruct p as [[w heap] ? ? ? ? ?]. cbn. destruct (posted (sh_host w)); discriminate.
Qed.
Lemma launched_running : running 60 FormatJson launched.
Proof.
  apply (running_launch 60 FormatJson sample_pool (Some 7) true 2 10000 300000 (Ok tt) "listening" sample_server);
    [exact sample_pool_inv|int_lia|reflexivity].
Qed.
Lemma expired_running : running 60 FormatJson expired.
Proof. eapply running_step; [exact launched_running|]. apply (pstep_timer 60 FormatJson). reflexivity. Qed.

Lemma process_shuts_down_witness :
  (exists q, psteps 60 FormatJson (told_to_stop launched) q /\ ended q) /\
  (exists q, psteps 60 FormatJson (told_to_stop expired) q /\ waiting q).
Proof.
  assert (H1 : running 60 FormatJson (told_to_stop launched)).
  { apply told_to_stop_running; [exact launched_running|reflexivity|reflexivity|vm_compute; discriminate]. }
  assert (H2 : running 60 FormatJson (told_to_stop expired)).
  { apply told_to_stop_running; [exact expired_running|reflexivity|reflexivity|vm_compute; discriminate]. }
  destruct (process_shuts_down 60 FormatJson _ H1) as (_ & _ & _ & _ & Hs1).
  destruct (process_shuts_down 60 FormatJson _ H2) as (_ & _ & _ & _ & Hs2).
  split.
  - apply Hs1; vm_compute; reflexivity.
  - apply Hs2; vm_compute; reflexivity.
Defined.
