(* ===== verification/LeasePolicy.v ===== *)
(** * What a lease pool promises to clients

    The server makes assignments (LeaseManager.v), the client checks them
    against a policy of its own (ClientSession.v).  [AssignmentPolicy] is what
    the two have to agree on; a lease manager satisfies it when its gateway is
    a host address, which the constructor does not check. *)
From S2P Require Import SessionController ClientSession.
From S2P Require Import Prelude Bytes ControlMessages LeaseManager LeaseService.

(** The assignment that a session sends for lease [l]: with the MTU agreed. *)
Abbreviation with_mtu := SessionController.with_mtu.

(** [fair d s]: the pool [s] makes such assignments, and the IPv6 address that
    goes with an IPv4 address is the one [d] says. *)
Class AssignmentPolicy (S : Type) `{LSL : LeaseServiceLaws S} := {
  fair : (bytes -> bytes) -> S -> Prop;
  fair_ok d s : fair d s -> ls_ok s;
  fair_acquire d i now s : fair d s -> fair d (ls_acquire i now s).2;
  fair_renew d l now s : fair d s -> fair d (ls_renew l now s).2;
  fair_release d l s : fair d s -> fair d (ls_release l s).2;
  fair_mtu d s l : fair d s -> kMinimumIpv6Mtu <= ia_mtu (ls_to_assignment s l);
  fair_ipv6 d s i l : fair d s -> ls_leases s !! i = Some l -> l_ipv6_address l = d (l_address l);
  fair_offer d s i l mtu : fair d s -> ls_leases s !! i = Some l ->
    let a := ls_to_assignment s l in
    kMinimumIpv6Mtu <= mtu <= ia_mtu a ->
    assignment_valid (with_mtu mtu a) /\ ClientSession.acceptable mtu (with_mtu mtu a) /\
    (ipv6_prefix_length a <> 0 <-> l_ipv6_address l <> zeros 16)
}.

(** ** The lease manager *)

(** The host part of an address under prefix [p] is neither 0 nor all ones. *)
Definition host_address (a p : Z) : Prop :=
  p <= 30 -> 0 < a mod 2 ^ (32 - p) < 2 ^ (32 - p) - 1.

(** A manager whose assignments clients accept. *)
Record serves (lm : LeaseManager) : Prop := {
  sv_mtu : kMinimumIpv6Mtu <= mtu_ lm;
  sv_ipv6 : ipv6_prefix_length_ lm = 64;
  sv_first : 0 < first_address_ lm;
  sv_gateway : host_address (to_integer (gateway_address_ lm)) (prefix_length_ lm);
  sv_subnet a : first_address_ lm <= a <= last_address_ lm ->
    a / 2 ^ (32 - prefix_length_ lm) = to_integer (gateway_address_ lm) / 2 ^ (32 - prefix_length_ lm);
  sv_hosts a : first_address_ lm <= a <= last_address_ lm -> host_address a (prefix_length_ lm)
}.

Lemma serves_same_pool lm lm' : same_pool lm lm' -> serves lm -> serves lm'.
Proof. intros (leases & ids & next & ->) []. constructor; assumption. Qed.

Lemma serves_step lm lm' : lm_inv lm -> lm_step lm lm' -> serves lm -> lm_inv lm' /\ serves lm'.
Proof.
  intros Hi Hs Hv. destruct (step_moved lm lm' Hi Hs) as (leases & next & Hm & _).
  split; [apply (mv_inv _ _ _ _ Hm)|]. eapply serves_same_pool; [apply (mv_pool _ _ _ _ Hm)|exact Hv].
Qed.

Lemma manager_fair (d : bytes -> bytes) lm lm' :
  (lm_inv lm /\ serves lm /\ forall a, derive_ipv6 lm a = d a) -> lm_step lm lm' ->
  lm_inv lm' /\ serves lm' /\ forall a, derive_ipv6 lm' a = d a.
Proof.
  intros (Hi & Hv & Hd) Hs. destruct (serves_step lm lm' Hi Hs Hv) as [Hi' Hv'].
  split; [exact Hi'|]. split; [exact Hv'|]. intros a. rewrite <- Hd.
  destruct (step_moved lm lm' Hi Hs) as (leases & next & [_ (l1 & i1 & n1 & ->) _ _] & _). reflexivity.
Qed.

(** The constructor checks everything but the gateway. *)
Lemma prefix_block x y p :
  1 <= p <= 32 -> in_u32 x -> in_u32 y ->
  Z.land x (prefix_mask p) = Z.land y (prefix_mask p) -> x / 2 ^ (32 - p) = y / 2 ^ (32 - p).
Proof.
  intros Hp Hx Hy. change (prefix_mask p) with (ClientSession.netmask p).
  rewrite !ClientSession.land_netmask by assumption.
  assert (0 < 2 ^ (32 - p)) by (apply Z.pow_pos_nonneg; lia).
  intros E. apply Z.mul_reg_r in E; [exact E|lia].
Qed.

Lemma block_between a b x n : 0 < n -> a / n = b / n -> a <= x <= b -> x / n = a / n.
Proof.
  intros Hn E Hx. apply Z.le_antisymm; [rewrite E|]; apply Z.div_le_mono; lia.
Qed.

Lemma host_between a b x n :
  0 < n -> a / n = b / n -> a <= x <= b -> a / n * n < a -> b < b / n * n + (n - 1) ->
  0 < x mod n < n - 1.
Proof.
  intros Hn E Hx Ha Hb. pose proof (block_between a b x n Hn E Hx) as Ex.
  rewrite Z.mod_eq by lia. rewrite Ex, (Z.mul_comm n), E in *. lia.
Qed.

Lemma make_serves f l g pl mtu d p6 g6 lm :
  is_array 4 f -> is_array 4 l -> is_array 4 g -> in_u8 pl -> kMinimumIpv6Mtu <= mtu ->
  make_LeaseManager f l g pl mtu d p6 g6 64 = Ok lm -> 0 < to_integer f ->
  host_address (to_integer g) pl -> serves lm.
Proof.
  intros Hf Hl Hg Hpl Hm H Hpos Hhost. apply to_integer_range in Hf, Hl, Hg.
  unfold make_LeaseManager in H. inv_ok. subst lm.
  assert (Hp : 1 <= pl <= 32) by int_lia.
  match goal with H1 : Z.land (to_integer f) _ = _, H2 : Z.land (to_integer l) _ = _ |- _ =>
    apply prefix_block in H1, H2; auto; rename H1 into Ef, H2 into El end.
  assert (Hn : 0 < 2 ^ (32 - pl)) by (apply Z.pow_pos_nonneg; lia).
  assert (Efl : to_integer f / 2 ^ (32 - pl) = to_integer l / 2 ^ (32 - pl)) by congruence.
  constructor; cbn; auto.
  - intros a Ha. rewrite <- Ef. eapply block_between; eauto.
  - intros a Ha H30. apply (host_between (to_integer f) (to_integer l)); auto.
    all: rewrite (proj2 (Z.leb_le pl 30)) in * by assumption.
    all: match goal with H : reject_if _ _ = Ok _ |- _ => apply reject_if_ok in H end; b2p.
    all: change (prefix_mask pl) with (ClientSession.netmask pl) in *.
    all: rewrite ClientSession.broadcast_eq, ClientSession.land_netmask in * by assumption.
    all: rewrite ?Ef, ?El; lia.
Qed.

Lemma lease_valid lm i l mtu :
  lm_inv lm -> serves lm -> leases_by_identity_ lm !! i = Some l ->
  kMinimumIpv6Mtu <= mtu <= mtu_ lm -> assignment_valid (with_mtu mtu (to_assignment lm l)).
Proof.
  intros Hi Hv Hl Hm. pose proof (inv_config _ Hi) as Hc. pose proof (inv_lease _ Hi i l Hl) as Hlo.
  destruct (lease_ok_arrays lm i l Hc Hlo) as (_ & _ & H6). destruct Hlo as [_ _ Ha Hp Ha6 Hg6 _], Hv as [_ E6 Hpos _ _ _].
  unfold collides6 in Hg6. rewrite <- Ha6, E6 in Hg6. cbn [negb Z.eqb andb] in Hg6. apply bool_decide_eq_false in Hg6.
  assert (Hnz : l_address l <> zeros 4).
  { intros E. rewrite E in Hp. change (to_integer (zeros 4)) with 0 in Hp. lia. }
  destruct Hc as [_ _ _ [_ Lg] Hg _ Hpl Hmtu Hd _ [_ Lg6] Hx]. rewrite E6 in Hx.
  destruct Hx as [[=]|(_ & Hz & _)].
  unfold kMinimumIpv6Mtu, kMinimumIpv4Mtu, kMaximumTunnelMtu in *.
  constructor; cbn; rewrite ?E6; auto; try (unfold kMinimumIpv4Mtu, kMaximumTunnelMtu; lia).
  - intros E. apply (proj2 (is_unspecified_zeros _ Lg)) in E. congruence.
  - rewrite u32_id by int_lia. lia.
  - intros _. split_goal; auto; try (unfold kMinimumIpv6Mtu; lia).
    + rewrite Ha6. unfold derive_ipv6. rewrite E6. cbn [negb Z.eqb].
      intros E. apply (f_equal (drop 12)) in E.
      assert (Hl8 : length (slice (ipv6_prefix_ lm) 0 8) = 8%nat).
      { rewrite Ha6 in H6. unfold derive_ipv6 in H6. rewrite E6 in H6. cbn [negb Z.eqb] in H6. destruct H6 as [_ H6].
        unfold zlen in H6. rewrite !length_app in H6. change (length (zeros 4)) with 4%nat in H6.
        rewrite Ha in H6. change (length (from_integer _)) with 4%nat in H6. lia. }
      rewrite app_assoc, drop_app_length' in E by (rewrite length_app, Hl8; reflexivity).
      apply Hnz. exact E.
    + intros E. apply (proj2 (all_zero_zeros _ 16 Lg6)) in E. congruence.
Qed.

Lemma lease_acceptable lm i l mtu :
  lm_inv lm -> serves lm -> leases_by_identity_ lm !! i = Some l ->
  ClientSession.acceptable mtu (with_mtu mtu (to_assignment lm l)).
Proof.
  intros Hi Hv Hl. pose proof (inv_config _ Hi) as Hc. pose proof (inv_lease _ Hi i l Hl) as Hlo.
  destruct Hlo as [_ _ Ha Hp Ha6 Hg6 _], Hv as [_ E6 _ Hg Hs Hh].
  unfold collides6 in Hg6. rewrite <- Ha6, E6 in Hg6. cbn [negb Z.eqb andb] in Hg6. apply bool_decide_eq_false in Hg6.
  destruct Hc as [_ _ _ [_ Lg] _ Hout Hpl _ _ [_ L6] [_ Lg6] Hx]. rewrite E6 in Hx.
  destruct Hx as [[=]|(_ & _ & Hsl)].
  constructor; cbn; [lia|intros E; rewrite E in Hp; auto| | |].
  - exact (Hs _ Hp).
  - intros H30. split; [exact (Hh _ Hp H30)|exact (Hg H30)].
  - right. split; [exact E6|]. split; [exact Hg6|]. rewrite <- Hsl, Ha6. unfold derive_ipv6. rewrite E6. cbn [negb Z.eqb].
    unfold slice. const_to_nat. rewrite !drop_0, take_app_length'; [reflexivity|].
    rewrite length_take. unfold zlen in L6. lia.
Qed.

#[export] Instance LeaseManager_policy : AssignmentPolicy LeaseManager.
Proof.
  refine {| fair d lm := lm_inv lm /\ serves lm /\ forall a, derive_ipv6 lm a = d a |}.
  1: intros d lm [Hi _]; exact Hi.
  1: intros d i now lm Hf; exact (manager_fair d lm _ Hf (step_acquire i now lm)).
  1: intros d l now lm Hf; exact (manager_fair d lm _ Hf (step_renew l now lm)).
  1: intros d l lm Hf; exact (manager_fair d lm _ Hf (step_release l lm)).
  - intros d lm l (_ & Hv & _). exact (sv_mtu _ Hv).
  - intros d lm i l (Hi & _ & Hd) Hl. rewrite <- Hd. exact (lo_ipv6 _ _ _ (inv_lease _ Hi i l Hl)).
  - intros d lm i l mtu (Hi & Hv & _) Hl a Hm. pose proof (lease_valid lm i l mtu Hi Hv Hl Hm) as Hva.
    split; [exact Hva|]. split; [eapply lease_acceptable; eassumption|].
    split; intros H; [apply (av_ipv6 _ Hva H)|]. cbn. rewrite (sv_ipv6 _ Hv). discriminate.
Defined.
