(* ===== verification/SessionPair.v ===== *)
(** * A client and the server, connected

    The two session controllers (ClientSession.v, SessionController.v) joined
    by the two directions of one reliable, ordered connection, on top of a
    lease pool that also serves others: what holds when both ends are this
    program. *)
From S2P Require Import SessionController ClientSession.
From S2P Require Import Prelude Bytes Protocol ControlMessages Traffic Address LeaseManager LeaseService.
From S2P Require Import ServerConfig LeasePolicy.

Abbreviation ServerEnd := SessionController.SessionController.
Abbreviation ClientEnd := ClientSession.ClientSessionController.

(** Both controllers, the frames under way in each direction, and the packets
    that the TUN devices gave to and got from either end so far. *)
Record Pair (S : Type) := mkPair {
  pr_leases : S;
  pr_server : ServerEnd;
  pr_client : ClientEnd;
  pr_up : list Frame;
  pr_down : list Frame;
  pr_up_sent : list bytes;
  pr_up_received : list bytes;
  pr_down_sent : list bytes;
  pr_down_received : list bytes
}.
Arguments mkPair {S}.
Arguments pr_leases {S}.
Arguments pr_server {S}.
Arguments pr_client {S}.
Arguments pr_up {S}.
Arguments pr_down {S}.
Arguments pr_up_sent {S}.
Arguments pr_up_received {S}.
Arguments pr_down_sent {S}.
Arguments pr_down_received {S}.

Section Steps.
Context {S : Type} `{AP : AssignmentPolicy S} (d : bytes -> bytes).

(** One call at one end: a local one, the arrival of the oldest frame, or a
    change of the pool by somebody else. *)
Inductive pair_step : Pair S -> Pair S -> Prop :=
| ps_start s sv c up dn us ur ds dr f c' :
    ClientSession.start c = (Ok f, c') ->
    pair_step (mkPair s sv c up dn us ur ds dr) (mkPair s sv c' (up ++ [f]) dn us ur ds dr)
| ps_packet_up s sv c up dn us ur ds dr packet f c' :
    is_bytes packet -> ClientSession.make_data_to_server packet c = (Ok f, c') ->
    pair_step (mkPair s sv c up dn us ur ds dr)
      (mkPair s sv c' (up ++ option_list f) dn (us ++ map f_payload (option_list f)) ur ds dr)
| ps_ping s sv c up dn us ur ds dr n f c' :
    in_u64 n -> ClientSession.make_ping n c = (Ok f, c') ->
    pair_step (mkPair s sv c up dn us ur ds dr) (mkPair s sv c' (up ++ option_list f) dn us ur ds dr)
| ps_close s sv c up dn us ur ds dr code f c' :
    in_u16 code -> ClientSession.make_close code c = (Ok f, c') ->
    pair_step (mkPair s sv c up dn us ur ds dr) (mkPair s sv c' (up ++ option_list f) dn us ur ds dr)
| ps_packet_down s sv c up dn us ur ds dr packet now f s' sv' :
    is_bytes packet -> SessionController.make_data_to_client packet now (s, sv) = (Ok f, (s', sv')) ->
    pair_step (mkPair s sv c up dn us ur ds dr)
      (mkPair s' sv' c up (dn ++ option_list f) us ur (ds ++ map f_payload (option_list f)) dr)
| ps_serve s sv c frame up dn us ur ds dr now r s' sv' :
    SessionController.handle frame now (s, sv) = (Ok r, (s', sv')) ->
    pair_step (mkPair s sv c (frame :: up) dn us ur ds dr)
      (mkPair s' sv' c up (dn ++ SessionController.outbound_frames r) us
         (ur ++ SessionController.packets_to_tun r) ds dr)
| ps_receive s sv c up frame dn us ur ds dr r c' :
    ClientSession.handle frame c = (Ok r, c') ->
    pair_step (mkPair s sv c up (frame :: dn) us ur ds dr)
      (mkPair s sv c' (up ++ ClientSession.cr_outbound_frames r) dn us ur ds
         (dr ++ ClientSession.cr_packets_to_tun r))
| ps_others s sv c up dn us ur ds dr s' :
    fair d s' ->
    pair_step (mkPair s sv c up dn us ur ds dr) (mkPair s' sv c up dn us ur ds dr).

(** An authenticated connection before the client starts. *)
Definition pair_init (p : Pair S) : Prop :=
  exists s identity mtu sv c,
    fair d s /\ SessionController.make_session identity = Ok sv /\ ClientSession.make_client mtu = Ok c /\
    p = mkPair s sv c [] [] [] [] [] [].
Definition pair_reachable (p : Pair S) : Prop := exists p0, pair_init p0 /\ rtc pair_step p0 p.

(** ** Specification *)

Definition server_over (sv : ServerEnd) : Prop :=
  SessionController.sc_state sv = SessionController.Closing \/ SessionController.sc_state sv = SessionController.Closed.
Definition client_over (c : ClientEnd) : Prop :=
  ClientSession.cs_state c = ClientSession.Closing \/ ClientSession.cs_state c = ClientSession.Closed.

(** The assignment the client holds has the addresses of the server's lease
    and the MTU the server negotiated, and IPv6 exactly if the lease has. *)
Record agreed (mtu : Z) (l : Lease) (a : IpAssignment) : Prop := {
  ag_v4 : client_address a = l_address l;
  ag_v6 : client_ipv6_address a = l_ipv6_address l;
  ag_mtu : ia_mtu a = mtu;
  ag_has_v6 : ipv6_prefix_length a <> 0 <-> l_ipv6_address l <> zeros 16
}.

(** The one error a server reports to this client: the lease is gone. *)
Definition lost_lease (f : Frame) : Prop :=
  exists what n, zlen (string_bytes what) <= kMaximumErrorMessageSize /\
    f = SessionController.error_frame SessionController.LeaseUnavailable what n.

Definition close_frame (f : Frame) : Prop :=
  f_type f = MtClose /\ is_ok (decode_close_message (f_payload f)) = true.

(** The frames that an established end expects of the other. *)
Definition up_frame (mtu : Z) (l : Lease) (f : Frame) : Prop :=
  SessionController.from_lease mtu l (f_type f) (f_payload f) \/
  (f_type f = MtPing /\ zlen (f_payload f) = 8) \/ close_frame f.
Definition down_frame (a : IpAssignment) (f : Frame) : Prop :=
  ClientSession.to_client a (f_type f) (f_payload f) \/ f_type f = MtPong \/ lost_lease f.

(** The frames of a client that has not been answered. *)
Definition greeting (c : ClientEnd) (up : list Frame) : Prop :=
  exists hello rest, up = hello :: rest /\ f_type hello = MtClientHello /\
    decode_client_hello (f_payload hello) = Ok (ClientSession.hello_of (ClientSession.requested_mtu_ c)) /\
    Forall close_frame rest /\ (ClientSession.cs_state c = ClientSession.AwaitingAssignment -> rest = []).

(** What is on its way to a client whose server made assignment [a]. *)
Definition answered (a : IpAssignment) (c : ClientEnd) (down : list Frame) : Prop :=
  match ClientSession.cs_state c with
  | ClientSession.Idle => False
  | ClientSession.AwaitingAssignment =>
      exists f rest, down = f :: rest /\ f_type f = MtIpAssign /\
        decode_ip_assignment (f_payload f) = Ok a /\
        ClientSession.acceptable (ClientSession.requested_mtu_ c) a /\ Forall (down_frame a) rest
  | ClientSession.Established =>
      ClientSession.cs_assignment c = Some a /\ Forall (down_frame a) down
  | ClientSession.Closing | ClientSession.Closed => True
  end.

(** How far the two have come. *)
Inductive phase (sv : ServerEnd) (c : ClientEnd) (up down : list Frame) : Prop :=
| ph_idle :
    SessionController.sc_state sv = SessionController.AwaitingHello ->
    ClientSession.cs_state c = ClientSession.Idle -> up = [] -> down = [] -> phase sv c up down
| ph_hello :
    SessionController.sc_state sv = SessionController.AwaitingHello ->
    ClientSession.cs_state c = ClientSession.AwaitingAssignment \/ client_over c ->
    greeting c up -> down = [] -> phase sv c up down
| ph_up l a :
    SessionController.sc_state sv = SessionController.Established ->
    SessionController.sc_lease sv = Some l -> agreed (SessionController.sc_negotiated_mtu sv) l a ->
    Forall (up_frame (SessionController.sc_negotiated_mtu sv) l) up -> answered a c down ->
    phase sv c up down
| ph_over :
    server_over sv ->
    (exists a, answered a c down) \/
    (ClientSession.cs_state c = ClientSession.AwaitingAssignment /\ exists f, down = [f] /\ lost_lease f) ->
    phase sv c up down.

(** The payloads of the frames of one kind, and of the packets. *)
Definition payloads (t : MessageType) (fs : list Frame) : list bytes :=
  map f_payload (filter (fun f => f_type f = t) fs).
Definition is_data (f : Frame) : bool :=
  bool_decide (f_type f = MtDataIpv4) || bool_decide (f_type f = MtDataIpv6).
Definition packets (fs : list Frame) : list bytes := map f_payload (filter (fun f => is_data f = true) fs).

(** At most the one outstanding probe is under way, in one direction. *)
Definition probing (c : ClientEnd) (up down : list Frame) : Prop :=
  match ClientSession.cs_pending_ping_nonce c with
  | None => payloads MtPing up ++ payloads MtPong down = []
  | Some n => payloads MtPing up ++ payloads MtPong down `sublist_of` [be64 n]
  end.

(** The packets received are those sent, as far as they have arrived; once the
    receiver is over it takes no more. *)
Definition in_transit (over : Prop) (sent received : list bytes) (fs : list Frame) : Prop :=
  received `prefix_of` sent /\ (~ over -> sent = received ++ packets fs).

Record pair_ok (p : Pair S) : Prop := {
  pk_fair : fair d (pr_leases p);
  pk_server : SessionController.session_ok (pr_server p);
  pk_lease l : SessionController.sc_lease (pr_server p) = Some l -> l_ipv6_address l = d (l_address l);
  pk_client : ClientSession.client_ok (pr_client p);
  pk_bytes : Forall (fun f => is_bytes (f_payload f)) (pr_up p ++ pr_down p);
  pk_phase : phase (pr_server p) (pr_client p) (pr_up p) (pr_down p);
  pk_up_numbers : ~ server_over (pr_server p) ->
    consecutive (SessionController.sc_next_expected_sequence (pr_server p)) (pr_up p) /\
    ClientSession.cs_next_outbound_sequence (pr_client p) =
      advance (SessionController.sc_next_expected_sequence (pr_server p)) (pr_up p);
  pk_down_numbers : ~ client_over (pr_client p) ->
    consecutive (ClientSession.cs_next_expected_sequence (pr_client p)) (pr_down p) /\
    SessionController.sc_next_outbound_sequence (pr_server p) =
      advance (ClientSession.cs_next_expected_sequence (pr_client p)) (pr_down p);
  pk_probe : probing (pr_client p) (pr_up p) (pr_down p);
  pk_up : in_transit (server_over (pr_server p)) (pr_up_sent p) (pr_up_received p) (pr_up p);
  pk_down : in_transit (client_over (pr_client p)) (pr_down_sent p) (pr_down_received p) (pr_down p)
}.
End Steps.

(** ** Lemmas *)

(** *** What the session's calls do to the pool *)

Section Keeps.
Context {S : Type} `{AP : AssignmentPolicy S} {d : bytes -> bytes}.

(** The computation keeps the pool fair. *)
Definition keeps {A} (m : M (S * ServerEnd) A) : Prop := forall s c, fair d s -> fair d (m (s, c)).2.1.

Lemma keeps_ret {A} (a : A) : keeps (ret a).
Proof. intros s c Hf. exact Hf. Qed.
Lemma keeps_throw {A} e : keeps (throw (A := A) e).
Proof. intros s c Hf. exact Hf. Qed.
Lemma keeps_lift {A} (o : outcome A) : keeps (lift o).
Proof. intros s c Hf. exact Hf. Qed.
Lemma keeps_get : keeps get.
Proof. intros s c Hf. exact Hf. Qed.
Lemma keeps_session : keeps SessionController.session.
Proof. intros s c Hf. exact Hf. Qed.
Lemma keeps_update f : keeps (SessionController.update f).
Proof. intros s c Hf. exact Hf. Qed.
Lemma keeps_bind {A B} (m : M _ A) (k : A -> M _ B) : keeps m -> (forall a, keeps (k a)) -> keeps (bind m k).
Proof.
  intros Hm Hk s c Hf. specialize (Hm s c Hf). unfold bind. destruct (m (s, c)) as [[a|e] [s' c']]; [|exact Hm].
  apply Hk. exact Hm.
Qed.
Lemma keeps_try {A} (m : M _ A) h :
  keeps m -> (forall e m', h e = Some m' -> keeps m') -> keeps (try_catch m h).
Proof.
  intros Hm Hh s c Hf. specialize (Hm s c Hf). unfold try_catch.
  destruct (m (s, c)) as [[a|e] [s' c']]; [exact Hm|]. destruct (h e) eqn:E; [|exact Hm]. eapply Hh; eauto.
Qed.
Lemma keeps_leases {A} (m : M S A) : (forall s, fair d s -> fair d (m s).2) -> keeps (SessionController.on_leases m).
Proof.
  intros Hm s c Hf. specialize (Hm s Hf). unfold SessionController.on_leases. destruct (m s). exact Hm.
Qed.

Ltac keeping :=
  repeat first
    [ apply keeps_ret | apply keeps_throw | apply keeps_lift | apply keeps_get | apply keeps_session
    | apply keeps_update | apply keeps_bind; [|intros ?]
    | apply keeps_leases; intros ? ?; solve [eauto using fair_acquire, fair_renew, fair_release]
    | match goal with |- keeps (if ?b then _ else _) => destruct b end
    | match goal with |- keeps (match ?x with _ => _ end) => destruct x end
    | progress unfold SessionController.fail, SessionController.make_outbound,
        SessionController.release_lease, SessionController.renew_lease, SessionController.deliver,
        SessionController.close_session, SessionController.decoding ].

Lemma handle_keeps frame now : keeps (SessionController.handle frame now).
Proof.
  unfold SessionController.handle, SessionController.handle_hello, SessionController.handle_established,
    SessionController.dispatch. keeping.
  apply keeps_try; [keeping|]. intros e m Hm.
  destruct e; cbn in Hm; try discriminate Hm; injection Hm as <-; keeping.
Qed.

Lemma downlink_keeps packet now : keeps (SessionController.make_data_to_client packet now).
Proof. unfold SessionController.make_data_to_client, SessionController.renew_and_send. keeping. Qed.

(** A hello is refused only when the pool has no lease to give. *)
Lemma hello_outcome frame now s c hello :
  fair d s -> SessionController.session_ok c ->
  SessionController.sc_state c = SessionController.AwaitingHello ->
  SessionController.expects frame c -> f_type frame = MtClientHello ->
  decode_client_hello (f_payload frame) = Ok hello ->
  exists r s' c', SessionController.handle frame now (s, c) = (Ok r, (s', c')) /\
    ((exists l a payload, let mtu := Z.min (requested_mtu hello) (ia_mtu a) in
        r = SessionController.mkSessionResult
              [mkFrame MtIpAssign 0 (SessionController.sc_next_outbound_sequence c) payload] [] false /\
        c' = SessionController.numbered (SessionController.established mtu l (SessionController.counted c)) /\
        decode_ip_assignment payload = Ok (with_mtu mtu a) /\ agreed mtu l (with_mtu mtu a) /\ l_ipv6_address l = d (l_address l) /\
        ClientSession.acceptable mtu (with_mtu mtu a)) \/
     (exists e, zlen (string_bytes (exn_what e)) <= kMaximumErrorMessageSize /\
        r = SessionController.mkSessionResult
              [SessionController.error_frame SessionController.LeaseUnavailable (exn_what e)
                 (SessionController.sc_next_outbound_sequence c)] [] true /\
        c' = SessionController.ended SessionController.Closing (SessionController.numbered (SessionController.counted c)))).
Proof.
  intros Hf Hc Hst Hex Ht Hd. pose proof (fair_ok d s Hf) as Hs.
  assert (Hn : SessionController.sc_lease c = None).
  { apply eq_None_not_Some. rewrite <- (SessionController.so_lease _ Hc). congruence. }
  unfold SessionController.handle, bind at 1, SessionController.session at 1. cbn [snd]. rewrite Hst, (proj2 (Z.eqb_eq _ _) Hex).
  cbn [negb]. unfold bind at 1, SessionController.update at 1.
  fold (SessionController.counted c). unfold SessionController.handle_hello. rewrite Ht.
  cbn [negb bool_decide decide_rel]. rewrite bool_decide_eq_true_2 by reflexivity. cbn [negb].
  unfold try_catch, bind at 1, lift at 1. rewrite Hd.
  unfold bind, SessionController.session, SessionController.on_leases, get, SessionController.update, lift. cbn [snd].
  change (SessionController.sc_identity (SessionController.counted c)) with (SessionController.sc_identity c).
  pose proof (ls_acquire_law s (SessionController.sc_identity c) now Hs (SessionController.so_identity _ Hc)) as Hacq.
  pose proof (fair_acquire d (SessionController.sc_identity c) now s Hf) as Hf1.
  destruct (ls_acquire (SessionController.sc_identity c) now s) as [[l|e] s1]; cbn [snd] in Hf1.
  - destruct Hacq as (Hs1 & _ & Hl).
    assert (Hin : ls_leases s1 !! SessionController.sc_identity c = Some l) by (rewrite Hl; apply lookup_insert_eq).
    destruct (ls_assignment_law s1 _ l Hs1 Hin) as (Hwf & Hca & Hca6 & Hmtu). cbn iota beta zeta. cbn [fst snd].
    set (a := ls_to_assignment s1 l) in *. set (mtu := Z.min (requested_mtu hello) (ia_mtu a)).
    pose proof (SessionController.decode_client_hello_mtu _ _ Hd) as Hreq. pose proof (fair_mtu d s1 l Hf1) as Hmin.
    destruct (fair_offer d s1 _ l mtu Hf1 Hin) as (Hv & Hacc & H6); [cbn zeta; fold a; fold a in Hmin; unfold mtu; clearbody a; lia|].
    assert (Hwf' : ip_assignment_wf (with_mtu mtu a)).
    { destruct Hwf as (? & ? & ? & ? & ?). unfold ip_assignment_wf. split_goal; try assumption; try tauto.
      cbn. unfold kMinimumIpv6Mtu, kMaximumTunnelMtu in *. subst mtu. int_lia. }
    change (encode_ip_assignment _) with (encode_ip_assignment (with_mtu mtu a)).
    destruct (encode_ip_assignment (with_mtu mtu a)) as [payload|e] eqn:Ea.
    2:{ rewrite encode_ip_assignment_eq, (proj2 (validate_ip_assignment_spec _ Hwf') Hv) in Ea. discriminate. }
    rewrite SessionController.make_outbound_eq. eexists _, _, _. split; [reflexivity|]. left. exists l, a, payload.
    cbn zeta. split; [reflexivity|]. split; [reflexivity|]. split; [|split; [constructor; auto|split; [exact (fair_ipv6 d s1 _ l Hf1 Hin)|exact Hacc]]].
    exact (codec_roundtrip (A := IpAssignment) (with_mtu mtu a) payload Hwf' Ea).
  - destruct Hacq as (Hs1 & Hre & Hw & Hl).
    destruct (SessionController.fail_eq SessionController.LeaseUnavailable (exn_what e) s1 (SessionController.counted c) Hs1 Hw)
      as (s' & E & _). eexists _, s', _. split; [destruct e; try discriminate Hre; exact E|].
    right. exists e. auto.
Qed.
End Keeps.

(** *** Numbered frames, and frames of a kind *)

Lemma link_push n fs m out m' :
  in_u64 n -> consecutive n fs /\ m = advance n fs -> consecutive m out -> m' = advance m out ->
  consecutive n (fs ++ out) /\ m' = advance n (fs ++ out).
Proof.
  intros Hn [Hc ->] Ho ->. split; [apply consecutive_app; assumption|]. symmetry. apply advance_app.
Qed.

Lemma link_pop n f fs m :
  consecutive n (f :: fs) /\ m = advance n (f :: fs) ->
  f_sequence f = n /\ consecutive (u64 (n + 1)) fs /\ m = advance (u64 (n + 1)) fs.
Proof.
  intros [(Hs & _ & Hc) ->]. split_goal; auto. unfold advance, u64. rewrite zlen_cons, Zplus_mod_idemp_l.
  f_equal. lia.
Qed.

Lemma payloads_app t a b : payloads t (a ++ b) = payloads t a ++ payloads t b.
Proof. unfold payloads. rewrite filter_app, map_app. reflexivity. Qed.
Lemma packets_app a b : packets (a ++ b) = packets a ++ packets b.
Proof. unfold packets. rewrite filter_app, map_app. reflexivity. Qed.
Lemma payloads_none t f : f_type f <> t -> payloads t [f] = [].
Proof. intros Hf. unfold payloads. rewrite filter_cons_False by exact Hf. reflexivity. Qed.
Lemma payloads_one t f : f_type f = t -> payloads t [f] = [f_payload f].
Proof. intros Hf. unfold payloads. rewrite filter_cons_True by exact Hf. reflexivity. Qed.
Lemma packets_data f : is_data f = true -> packets [f] = [f_payload f].
Proof. intros Hf. unfold packets. rewrite filter_cons_True by exact Hf. reflexivity. Qed.
Lemma packets_other f : is_data f = false -> packets [f] = [].
Proof. intros Hf. unfold packets. rewrite filter_cons_False by congruence. reflexivity. Qed.

Lemma data_types f : is_data f = true <-> f_type f = MtDataIpv4 \/ f_type f = MtDataIpv6.
Proof. unfold is_data. rewrite orb_true_iff, !bool_decide_eq_true. reflexivity. Qed.

(** *** The two views of an agreement *)

Lemma same_agreed mtu l k a : agreed mtu l a -> l_address k = l_address l -> l_ipv6_address k = l_ipv6_address l -> agreed mtu k a.
Proof. intros [] E4 E6. constructor; rewrite ?E4, ?E6; assumption. Qed.

Lemma up_packet mtu l a t p :
  agreed mtu l a -> ClientSession.to_server a t p -> SessionController.from_lease mtu l t p.
Proof.
  intros [E4 E6 Em H6] [(-> & Hp & Hs)|(-> & Hp & Hn & Hs)]; rewrite Em in Hp; [left|right]; split_goal; auto;
    [congruence|apply H6; exact Hn|congruence].
Qed.
Lemma down_packet mtu l a t p :
  agreed mtu l a -> SessionController.for_lease mtu l t p -> ClientSession.to_client a t p.
Proof.
  intros [E4 E6 Em H6] [(-> & Hp & Hs)|(-> & Hp & Hn & Hs)]; rewrite <- Em in Hp; [left|right]; split_goal; auto;
    [congruence|apply H6; exact Hn|congruence].
Qed.

Lemma up_frame_same mtu l k f :
  l_address k = l_address l -> l_ipv6_address k = l_ipv6_address l -> up_frame mtu l f -> up_frame mtu k f.
Proof.
  intros E4 E6 [Hx|Hx]; [left|right; exact Hx].
  unfold SessionController.from_lease in *. rewrite E4, E6. exact Hx.
Qed.

Lemma client_over_rank c : client_over c <-> 3 <= ClientSession.rank (ClientSession.cs_state c).
Proof.
  unfold client_over. destruct (ClientSession.cs_state c); cbn; intuition (congruence || lia).
Qed.

Lemma is_over_dec c : client_over c \/ ~ client_over c.
Proof. rewrite client_over_rank. lia. Qed.

Lemma server_up_not_over c : SessionController.sc_state c = SessionController.Established -> ~ server_over c.
Proof. intros E [Hx|Hx]; congruence. Qed.

(** *** What an established server does with the frames of this client *)

Section Answers.
Context {S : Type} `{AP : AssignmentPolicy S} {d : bytes -> bytes}.

Inductive server_answer (c : ServerEnd) (frame : Frame) : SessionController.SessionResult -> ServerEnd -> Prop :=
| sa_data k : is_data frame = true ->
    (forall e, SessionController.sc_lease c = Some e -> l_address k = l_address e /\ l_ipv6_address k = l_ipv6_address e) ->
    server_answer c frame (SessionController.mkSessionResult [] [f_payload frame] false)
      (SessionController.set_lease (Some k) (SessionController.counted c))
| sa_ping k : f_type frame = MtPing ->
    (forall e, SessionController.sc_lease c = Some e -> l_address k = l_address e /\ l_ipv6_address k = l_ipv6_address e) ->
    server_answer c frame
      (SessionController.mkSessionResult
         [mkFrame MtPong 0 (SessionController.sc_next_outbound_sequence c) (f_payload frame)] [] false)
      (SessionController.numbered (SessionController.set_lease (Some k) (SessionController.counted c)))
| sa_close : close_frame frame ->
    server_answer c frame (SessionController.mkSessionResult [] [] true)
      (SessionController.ended SessionController.Closed (SessionController.counted c))
| sa_lost f : lost_lease f ->
    f_sequence f = SessionController.sc_next_outbound_sequence c -> f_flags f = 0 ->
    server_answer c frame (SessionController.mkSessionResult [f] [] true)
      (SessionController.ended SessionController.Closing (SessionController.numbered (SessionController.counted c))).

Lemma renewed_address now leases c k :
  SessionController.renewed now leases c k ->
  exists e, SessionController.sc_lease c = Some e /\ l_address k = l_address e.
Proof.
  intros (e & l & He & Hm & _ & _ & Ha & _). exists e. split; [exact He|].
  apply matches_some in Hm as (_ & _ & Hl). congruence.
Qed.

Lemma probe_decodes p : zlen p = 8 -> exists m, decode_liveness_probe p = Ok m.
Proof.
  intros Hz. unfold decode_liveness_probe, require_size. rewrite Hz. eexists. reflexivity.
Qed.

Lemma server_answers leases c frame now r leases' c' l :
  SessionController.session_ok c -> SessionController.sc_state c = SessionController.Established ->
  SessionController.sc_lease c = Some l -> is_bytes (f_payload frame) ->
  SessionController.expects frame c -> up_frame (SessionController.sc_negotiated_mtu c) l frame ->
  l_ipv6_address l = d (l_address l) ->
  (forall k, SessionController.renewed now leases c k -> l_ipv6_address k = d (l_address k)) ->
  SessionController.handle_rel leases c frame now r leases' c' -> server_answer c frame r c'.
Proof.
  intros Hc Hst Hl Hb Hex Hup Hd Hk Hr.
  assert (Hsame : forall k, SessionController.renewed now leases c k -> forall e, SessionController.sc_lease c = Some e ->
    l_address k = l_address e /\ l_ipv6_address k = l_ipv6_address e).
  { intros k Hren e He. destruct (renewed_address _ _ _ _ Hren) as (e' & He' & Ha). rewrite He in He'.
    injection He' as <-. rewrite Hl in He. injection He as <-. rewrite (Hk k Hren), Ha, Hd. auto. }
  destruct Hr as [Hs|code what leases1 c1 _ Hw Href|hello l0 a payload Hs|k _ _ Hren Hp|k _ _ Hren Ht Hz|_ _ Hcl].
  - destruct Hs; congruence.
  - destruct Href as [Hn| | | | |e _ _ _ He Hm|k code what _ _ Hren Hv|k what _ _ Hren Ht Hx|what _ _ Hx|what _ _ Ht];
      try congruence; try contradiction.
    + apply sa_lost; [|reflexivity|reflexivity]. eexists _, _. split; [exact Hw|reflexivity].
    + exfalso. assert (Hcl : SessionController.from_lease (SessionController.sc_negotiated_mtu c) k (f_type frame) (f_payload frame)).
      { destruct (renewed_address _ _ _ _ Hren) as (e & He & Ha). rewrite Hl in He. injection He as <-.
        destruct Hup as [Hp|[[Ht _]|[Ht _]]]; [|destruct Hv as [[? _]|[? _]]; congruence..].
        unfold SessionController.from_lease in *. rewrite (Hk k Hren), Ha, <- Hd. exact Hp. }
      destruct Hv as [[Ht Hv]|[Ht Hv]], Hcl as [(Ht' & Hp)|(Ht' & Hp)]; try congruence.
      * apply (SessionController.validate_ipv4_none (SessionController.set_lease (Some k) (SessionController.counted c)) k) in Hp;
          [congruence|assumption|reflexivity].
      * apply (SessionController.validate_ipv6_none (SessionController.set_lease (Some k) (SessionController.counted c)) k) in Hp;
          [congruence|assumption|reflexivity].
    + exfalso. destruct Hup as [[(? & _)|(? & _)]|[[_ Hz]|[? _]]]; try congruence.
      destruct (probe_decodes _ Hz) as [m Hm]. congruence.
    + exfalso. destruct Hup as [[(? & _)|(? & _)]|[[? _]|[? Hok]]]; destruct Hx as [[? Hx]|[? Hx]]; try congruence.
      rewrite Hx in Hok. discriminate.
    + exfalso. apply Ht. rewrite !elem_of_cons.
      destruct Hup as [[(? & _)|(? & _)]|[[? _]|[? _]]]; auto.
  - congruence.
  - apply sa_data; [|exact (Hsame k Hren)]. apply data_types.
    destruct Hp as [(? & _)|(? & _)]; auto.
  - apply sa_ping; [exact Ht|exact (Hsame k Hren)].
  - apply sa_close. destruct Hup as [[(? & _)|(? & _)]|[[? _]|?]]; destruct Hcl as [[? _]|[? _]]; try congruence; auto.
Qed.

Lemma renewed_ipv6 now s c k :
  fair d s -> SessionController.renewed now (ls_leases s) c k -> l_ipv6_address k = d (l_address k).
Proof.
  intros Hf (e & l & _ & Hm & _ & _ & Ha & H6). apply matches_some in Hm as (Hl & _ & _).
  apply map_lookup_filter_Some in Hl as [Hl _]. rewrite <- Ha, <- H6. exact (fair_ipv6 d s _ l Hf Hl).
Qed.

(** *** What a client does with the frames of its server *)

Inductive client_answer (c : ClientEnd) (frame : Frame) : ClientSession.ClientSessionResult -> ClientEnd -> Prop :=
| ca_data : is_data frame = true ->
    client_answer c frame (ClientSession.mkClientResult [] [f_payload frame] None None false) (ClientSession.counted c)
| ca_pong : f_type frame = MtPong ->
    client_answer c frame (ClientSession.mkClientResult [] [] None None false)
      (ClientSession.set_pending None (ClientSession.counted c))
| ca_error m : lost_lease frame ->
    client_answer c frame (ClientSession.mkClientResult [] [] None (Some m) true)
      (ClientSession.set_state ClientSession.Closed (ClientSession.counted c)).

Lemma lost_decodes f : lost_lease f -> exists m, decode_error_message (f_payload f) = Ok m.
Proof.
  intros (what & n & Hw & ->). eexists. apply (decode_error_payload (SessionController.SessionErrorCode_to_u16 SessionController.LeaseUnavailable) what);
    [cbn; int_lia|exact Hw].
Qed.

Lemma client_error_eq c frame m :
  ClientSession.cs_state c = ClientSession.Established -> ClientSession.expects frame c ->
  f_type frame = MtError -> decode_error_message (f_payload frame) = Ok m ->
  ClientSession.handle frame c =
    (Ok (ClientSession.mkClientResult [] [] None (Some m) true),
     ClientSession.set_state ClientSession.Closed (ClientSession.counted c)).
Proof.
  intros Hst Hex Ht Hm. unfold ClientSession.handle, bind, get. rewrite Hst, (proj2 (Z.eqb_eq _ _) Hex).
  cbn [negb]. unfold modify. fold (ClientSession.counted c).
  unfold ClientSession.dispatch, bind, get. rewrite Ht. unfold ClientSession.decoding. rewrite Hm. reflexivity.
Qed.

(** Nothing else than a lost lease is refused. *)
Lemma client_accepts c frame code what a :
  ClientSession.cs_state c = ClientSession.Established -> ClientSession.cs_assignment c = Some a ->
  is_bytes (f_payload frame) -> ClientSession.expects frame c ->
  (ClientSession.to_client a (f_type frame) (f_payload frame) \/
   f_type frame = MtPong /\ exists n, ClientSession.cs_pending_ping_nonce c = Some n /\
     decode_liveness_probe (f_payload frame) = Ok (mkLivenessProbe n)) ->
  ~ ClientSession.refusal c frame code what.
Proof.
  intros Hst Ha Hb Hex Hdn Href.
  destruct Href as [|? ?|? ?|? ? ?|code what _ _ Hv|what _ _ Ht Hx|what _ _ Ht]; try congruence; try contradiction.
  - destruct Hdn as [Hp|[Ht _]]; [|destruct Hv as [[? _]|[? _]]; congruence].
    destruct Hv as [[Ht Hv]|[Ht Hv]], Hp as [(Ht' & Hp)|(Ht' & Hp)]; try congruence.
    + apply (ClientSession.client_validate_ipv4_none c a _ true Hb Ha) in Hp. congruence.
    + apply (ClientSession.client_validate_ipv6_none c a _ true Hb Ha) in Hp. congruence.
  - destruct Hdn as [[(Hd & _)|(Hd & _)]|(Hd & n & Hn & Hp)].
    1, 2: rewrite Hd, !elem_of_cons in Ht; intuition (try discriminate); set_solver.
    exact (Hx Hd n Hn Hp).
  - apply Ht. rewrite !elem_of_cons. destruct Hdn as [[(Hd & _)|(Hd & _)]|(Hd & _)]; auto 10.
Qed.

Lemma client_answers c frame r c' a :
  ClientSession.client_ok c -> ClientSession.cs_state c = ClientSession.Established ->
  ClientSession.cs_assignment c = Some a -> is_bytes (f_payload frame) ->
  ClientSession.expects frame c -> down_frame a frame ->
  (f_type frame = MtPong -> exists n, ClientSession.cs_pending_ping_nonce c = Some n /\ f_payload frame = be64 n) ->
  ClientSession.handle frame c = (Ok r, c') -> client_answer c frame r c'.
Proof.
  intros Hc Hst Ha Hb Hex Hdn Hn E.
  assert (Hlost : lost_lease frame -> client_answer c frame r c').
  { intros Hl. destruct (lost_decodes _ Hl) as [m Hm]. pose proof Hl as (what & n & _ & Ef).
    rewrite (client_error_eq c frame m Hst Hex) in E; [|rewrite Ef; reflexivity|exact Hm].
    injection E as <- <-. apply ca_error. exact Hl. }
  apply (ClientSession.client_yields_inv _ _ _ _ _ (ClientSession.client_handle_sound frame c Hc Hb)) in E as Hr.
  assert (Hok : lost_lease frame \/ ClientSession.to_client a (f_type frame) (f_payload frame) \/
    f_type frame = MtPong /\ exists n, ClientSession.cs_pending_ping_nonce c = Some n /\
      decode_liveness_probe (f_payload frame) = Ok (mkLivenessProbe n)).
  { destruct Hdn as [?|[Ht|?]]; auto. right. right. split; [exact Ht|]. destruct (Hn Ht) as (n & Hp & Eb).
    exists n. split; [exact Hp|]. rewrite Eb.
    refine (codec_roundtrip (A := LivenessProbe) (mkLivenessProbe n) (be64 n) (ClientSession.co_pending _ Hc n Hp) _).
    cbn. unfold encode_liveness_probe. rewrite append_u64_eq. reflexivity. }
  destruct Hok as [Hl|Hok]; [auto|].
  assert (Ht : is_data frame = true \/ f_type frame = MtPong).
  { destruct Hok as [[(? & _)|(? & _)]|(? & _)]; auto; left; apply data_types; auto. }
  destruct Hr as [? ?|code what c1 _ Hw _ Href|a0 Hs|a0 _ _ _ Hp|_ _ Ht' Hz|n _ _ Ht' _ _|m _ _ Ht' _|_ _ Ht' _];
    try congruence; try (destruct Ht as [Ht|Ht]; [apply data_types in Ht as [Ht|Ht]|]; congruence).
  - destruct (client_accepts c frame code what a Hst Ha Hb Hex Hok Href).
  - apply ca_data. apply data_types. destruct Hp as [(? & _)|(? & _)]; auto.
  - apply ca_pong. exact Ht'.
Qed.
End Answers.

(** *** The parts of the invariant under pushing and popping *)

Lemma transit_weaken (P Q : Prop) sent received fs :
  (P -> Q) -> in_transit P sent received fs -> in_transit Q sent received fs.
Proof. intros HPQ [Hp Hx]. split; auto. Qed.
Lemma transit_push P sent received fs out :
  in_transit P sent received fs -> in_transit P (sent ++ packets out) received (fs ++ out).
Proof.
  intros [Hp Hx]. split; [apply prefix_app_r; exact Hp|]. intros Hn.
  rewrite (Hx Hn) at 1. rewrite packets_app, app_assoc. reflexivity.
Qed.
Lemma transit_pop (P Q : Prop) sent received f fs :
  in_transit P sent received (f :: fs) -> ~ P -> in_transit Q sent (received ++ packets [f]) fs.
Proof.
  intros [_ Hx] Hn. specialize (Hx Hn). change (f :: fs) with ([f] ++ fs) in Hx.
  rewrite packets_app, app_assoc in Hx. split; [exists (packets fs); exact Hx|auto].
Qed.
Lemma transit_over (P Q : Prop) sent received fs fs' :
  in_transit P sent received fs -> Q -> in_transit Q sent received fs'.
Proof. intros [Hp _] Hq. split; [exact Hp|]. intros Hn. contradiction. Qed.

Lemma probing_pop_up c f up dn : probing c (f :: up) dn -> probing c up dn.
Proof.
  unfold probing. change (f :: up) with ([f] ++ up). rewrite payloads_app, <- app_assoc.
  destruct (ClientSession.cs_pending_ping_nonce c).
  - intros Hx. etrans; [apply sublist_inserts_l; reflexivity|exact Hx].
  - intros [_ Hx]%app_eq_nil. exact Hx.
Qed.
Lemma probing_pop_down c up f dn : probing c up (f :: dn) -> probing c up dn.
Proof.
  unfold probing. change (f :: dn) with ([f] ++ dn). rewrite payloads_app.
  destruct (ClientSession.cs_pending_ping_nonce c).
  - intros Hx. etrans; [|exact Hx]. apply sublist_app; [reflexivity|apply sublist_inserts_l; reflexivity].
  - intros [-> [_ ->]%app_eq_nil]%app_eq_nil. reflexivity.
Qed.
Lemma probing_push_up c up out dn : payloads MtPing out = [] -> probing c up dn -> probing c (up ++ out) dn.
Proof. unfold probing. rewrite payloads_app. intros ->. rewrite app_nil_r. auto. Qed.
Lemma probing_push_down c up dn out : payloads MtPong out = [] -> probing c up dn -> probing c up (dn ++ out).
Proof. unfold probing. rewrite payloads_app. intros ->. rewrite app_nil_r. auto. Qed.
Lemma probing_pending c c' up dn :
  ClientSession.cs_pending_ping_nonce c' = ClientSession.cs_pending_ping_nonce c ->
  probing c up dn -> probing c' up dn.
Proof. unfold probing. intros ->. auto. Qed.

(** The reply to a ping takes its place. *)
Lemma probing_reply c f up dn g :
  f_type f = MtPing -> f_type g = MtPong -> f_payload g = f_payload f ->
  probing c (f :: up) dn -> probing c up (dn ++ [g]).
Proof.
  intros Hf Hg E. unfold probing. change (f :: up) with ([f] ++ up).
  rewrite !payloads_app, payloads_one, (payloads_one MtPong), E by assumption.
  destruct (ClientSession.cs_pending_ping_nonce c).
  - intros Hx. assert (Hz : payloads MtPing up = [] /\ payloads MtPong dn = []).
    { apply sublist_length in Hx. rewrite !length_app in Hx. cbn in Hx.
      split; apply length_zero_iff_nil; lia. }
    destruct Hz as [E1 E2]. rewrite E1, E2 in *. exact Hx.
  - discriminate.
Qed.

(** The reply that arrives has the nonce of the outstanding ping, and no other
    probe is under way. *)
Lemma probing_pong c up f dn :
  f_type f = MtPong -> probing c up (f :: dn) ->
  (exists n, ClientSession.cs_pending_ping_nonce c = Some n /\ f_payload f = be64 n) /\
  payloads MtPing up ++ payloads MtPong dn = [].
Proof.
  intros Hf. unfold probing. change (f :: dn) with ([f] ++ dn). rewrite payloads_app, payloads_one by exact Hf.
  destruct (ClientSession.cs_pending_ping_nonce c) as [n|].
  - intros Hx. pose proof (sublist_length _ _ Hx) as Hl. rewrite !length_app in Hl. cbn in Hl.
    assert (Hz : payloads MtPing up = [] /\ payloads MtPong dn = []) by (split; apply length_zero_iff_nil; lia).
    destruct Hz as [E1 E2]. rewrite E1, E2 in *. cbn in Hx. split; [|reflexivity]. exists n. split; [reflexivity|].
    apply sublist_cons_l in Hx as (k1 & k2 & E & _).
    destruct k1 as [|x k1]; [injection E; auto|]. destruct k1; discriminate.
  - intros E. apply app_eq_nil in E as [_ E]. discriminate.
Qed.

Lemma answered_push a c dn f : answered a c dn -> down_frame a f -> answered a c (dn ++ [f]).
Proof.
  unfold answered. destruct (ClientSession.cs_state c); auto.
  - intros (g & rest & -> & Ht & Hd & Ha & Hf) Hn. exists g, (rest ++ [f]). split_goal; auto.
    apply Forall_app. auto.
  - intros [Ha Hf] Hn. split; [exact Ha|]. apply Forall_app. auto.
Qed.

Lemma answered_lost a c dn f : answered a c dn -> lost_lease f -> answered a c (dn ++ [f]).
Proof. intros Ha Hf. apply answered_push; [exact Ha|]. right. right. exact Hf. Qed.

Definition no_assignment : IpAssignment := mkIpAssignment [] [] 0 0 0 [] [] 0.
Lemma answered_over c dn : client_over c -> exists a, answered a c dn.
Proof. intros [E|E]; exists no_assignment; unfold answered; rewrite E; exact I. Qed.

(** *** Each call keeps the invariant *)

(** The parts of a pair that is written out. *)
Ltac pair_cbn :=
  cbn [pr_leases pr_server pr_client pr_up pr_down pr_up_sent pr_up_received pr_down_sent pr_down_received] in *.

Section Preservation.
Context {S : Type} `{AP : AssignmentPolicy S} {d : bytes -> bytes}.
Implicit Types (s : S) (sv : ServerEnd) (c : ClientEnd) (up dn : list Frame).

Lemma valid_bytes fs : Forall valid_frame fs -> Forall (fun f => is_bytes (f_payload f)) fs.
Proof. intros Hv. eapply Forall_impl; [exact Hv|]. intros f (_ & _ & _ & _ & Hf & _). exact Hf. Qed.

(** A call of the client's that takes nothing in. *)
Lemma client_call s sv c up dn us ur ds dr out c' :
  pair_ok d (mkPair s sv c up dn us ur ds dr) ->
  ClientSession.call_ok c out c' -> Forall valid_frame out ->
  ClientSession.cs_next_expected_sequence c' = ClientSession.cs_next_expected_sequence c ->
  probing c' (up ++ out) dn -> phase sv c' (up ++ out) dn ->
  pair_ok d (mkPair s sv c' (up ++ out) dn (us ++ packets out) ur ds dr).
Proof.
  intros [Hf Hs Hl Hc Hb Hph Hu Hd Hpr Htu Htd] [Hc' Hn Ha Hr] Hv Hex Hpr' Hph'. cbn in *.
  apply Forall_app in Hb as [Hbu Hbd].
  assert (Hov : client_over c -> client_over c') by (rewrite !client_over_rank; lia).
  constructor; cbn; auto.
  - rewrite !Forall_app. auto using valid_bytes.
  - intros Hno. apply (link_push _ _ (ClientSession.cs_next_outbound_sequence c));
      auto using SessionController.so_expected.
  - rewrite Hex. auto.
  - apply transit_push. exact Htu.
  - eapply transit_weaken; eassumption.
Qed.

(** A call of the server's: [up'] is what it leaves on the way to it. *)
Lemma server_call s sv c up up' dn us ur ur' ds dr s' sv' out :
  pair_ok d (mkPair s sv c up dn us ur ds dr) ->
  fair d s' -> SessionController.session_ok sv' ->
  (forall l, SessionController.sc_lease sv' = Some l -> l_ipv6_address l = d (l_address l)) ->
  Forall valid_frame out -> Forall (fun f => is_bytes (f_payload f)) up' ->
  (~ server_over sv' ->
     consecutive (SessionController.sc_next_expected_sequence sv') up' /\
     ClientSession.cs_next_outbound_sequence c = advance (SessionController.sc_next_expected_sequence sv') up') ->
  consecutive (SessionController.sc_next_outbound_sequence sv) out /\
  SessionController.sc_next_outbound_sequence sv' = advance (SessionController.sc_next_outbound_sequence sv) out ->
  probing c up' (dn ++ out) -> in_transit (server_over sv') us ur' up' -> phase sv' c up' (dn ++ out) ->
  pair_ok d (mkPair s' sv' c up' (dn ++ out) us ur' (ds ++ packets out) dr).
Proof.
  intros [Hf Hs Hl Hc Hb Hph Hu Hd Hpr Htu Htd] Hf' Hs' Hl' Hv Hb' Hu' [Hn Ha] Hpr' Htu' Hph'. cbn in *.
  apply Forall_app in Hb as [_ Hbd]. constructor; cbn; auto.
  - rewrite !Forall_app. auto using valid_bytes.
  - intros Hno. apply (link_push _ _ (SessionController.sc_next_outbound_sequence sv));
      auto using ClientSession.co_expected.
  - apply transit_push. exact Htd.
Qed.

Lemma start_step s sv c up dn us ur ds dr f c' :
  pair_ok d (mkPair s sv c up dn us ur ds dr) -> ClientSession.start c = (Ok f, c') ->
  pair_ok d (mkPair s sv c' (up ++ [f]) dn us ur ds dr).
Proof.
  intros Hp E. pose proof (pk_client _ _ Hp) as Hc. cbn in Hc.
  pose proof (ClientSession.start_call _ _ _ Hc E) as Hcall. pose proof (ClientSession.start_valid _ _ _ Hc E) as Hv.
  assert (Hst : ClientSession.cs_state c = ClientSession.Idle).
  { destruct (ClientSession.cs_state c) eqn:Est; auto; rewrite ClientSession.start_again in E by congruence; discriminate. }
  destruct (ClientSession.start_eq c Hc Hst) as (payload & He & E'). rewrite E' in E. injection E as <- <-.
  rewrite <- (app_nil_r us). change (us ++ []) with (us ++ packets [mkFrame MtClientHello 0 (ClientSession.cs_next_outbound_sequence c) payload]).
  apply (client_call s sv c up dn us ur ds dr); auto.
  - apply probing_push_up; [reflexivity|exact (pk_probe _ _ Hp)].
  - destruct (pk_phase _ _ Hp) as [Hsv _ Hup Hdn|? [?|[?|?]]|? a ? ? ? ? Ha|? [[a Ha]|[? _]]]; cbn in *; try congruence;
      try (unfold answered in Ha; rewrite Hst in Ha; contradiction).
    subst up dn. apply ph_hello; auto. eexists _, []. split; [reflexivity|].
    split; [reflexivity|]. split; [|auto]. cbn.
    refine (codec_roundtrip (A := ClientHello) _ payload _ He). pose proof (ClientSession.co_requested _ Hc).
    unfold kMinimumIpv6Mtu, kMaximumTunnelMtu in *. split; [cbn; int_lia|]. vm_compute. split; [discriminate|reflexivity].
Qed.

(** The phase after an established client has said something. *)
Lemma phase_says sv c c' up dn f :
  phase sv c up dn -> ClientSession.cs_state c = ClientSession.Established ->
  ClientSession.cs_state c' = ClientSession.cs_state c ->
  ClientSession.cs_assignment c' = ClientSession.cs_assignment c ->
  (forall l a, ClientSession.cs_assignment c = Some a -> agreed (SessionController.sc_negotiated_mtu sv) l a ->
     up_frame (SessionController.sc_negotiated_mtu sv) l f) ->
  phase sv c' (up ++ [f]) dn.
Proof.
  intros Hph Hst Es Ea Hf.
  assert (Hans : forall a, answered a c dn -> answered a c' dn /\ ClientSession.cs_assignment c = Some a).
  { intros a Ha. unfold answered in *. rewrite Es, Ea. rewrite Hst in *. tauto. }
  destruct Hph as [? ?|? [?|[?|?]]|l a Hsv Hl Hag Hup Ha|Hov [[a Ha]|[? _]]]; try congruence.
  - apply Hans in Ha as [Ha Hc]. apply (ph_up _ _ _ _ l a); auto. apply Forall_app. split; [exact Hup|].
    constructor; [|constructor]. eapply Hf; eassumption.
  - apply Hans in Ha as [Ha _]. apply ph_over; eauto.
Qed.

Lemma packet_up_step s sv c up dn us ur ds dr packet f c' :
  pair_ok d (mkPair s sv c up dn us ur ds dr) -> is_bytes packet ->
  ClientSession.make_data_to_server packet c = (Ok f, c') ->
  pair_ok d (mkPair s sv c' (up ++ option_list f) dn (us ++ map f_payload (option_list f)) ur ds dr).
Proof.
  intros Hp Hb E. pose proof (pk_client _ _ Hp) as Hc. cbn in Hc.
  apply (ClientSession.client_yields_inv _ _ _ _ _ (ClientSession.send_sound packet c Hc Hb)) in E as Hr.
  pose proof (ClientSession.send_call _ _ _ _ Hc Hr) as Hcall. pose proof (ClientSession.send_valid _ _ _ _ Hc Hb Hr) as Hv.
  destruct Hr as [(-> & -> & _)|(a & t & Hst & Ha & Ht & -> & ->)]; cbn [option_list option_rect map] in *;
    [rewrite !app_nil_r; exact Hp|].
  set (f := mkFrame t 0 (ClientSession.cs_next_outbound_sequence c) packet) in *.
  assert (Hdt : is_data f = true) by (apply data_types; destruct Ht as [(-> & _)|(-> & _)]; auto).
  change (f_payload f) with packet. replace [packet] with (packets [f]) by (apply packets_data; exact Hdt).
  apply (client_call s sv c); auto.
  - apply probing_push_up; [apply payloads_none; apply data_types in Hdt as [->| ->]; discriminate|exact (pk_probe _ _ Hp)].
  - apply (phase_says sv c); auto; [exact (pk_phase _ _ Hp)|]. intros l a' Ha' Hag. left.
    eapply up_packet; [exact Hag|]. cbn. congruence.
Qed.

Lemma ping_step s sv c up dn us ur ds dr n f c' :
  pair_ok d (mkPair s sv c up dn us ur ds dr) -> in_u64 n -> ClientSession.make_ping n c = (Ok f, c') ->
  pair_ok d (mkPair s sv c' (up ++ option_list f) dn us ur ds dr).
Proof.
  intros Hp Hn E. pose proof (pk_client _ _ Hp) as Hc. cbn in Hc.
  pose proof (ClientSession.ping_call _ _ _ _ Hc Hn E) as Hcall. pose proof (ClientSession.ping_valid _ _ _ _ Hc Hn E) as Hv.
  rewrite ClientSession.make_ping_eq in E. destruct (_ && _)%bool eqn:Eb; injection E as <- <-; cbn [option_list option_rect] in *;
    [|rewrite app_nil_r; exact Hp].
  apply andb_true_iff in Eb as [Est Epe]. apply bool_decide_eq_true in Est, Epe.
  rewrite <- (app_nil_r us). change (us ++ []) with (us ++ packets [mkFrame MtPing 0 (ClientSession.cs_next_outbound_sequence c) (append_u64 [] n)]).
  apply (client_call s sv c); auto.
  - pose proof (pk_probe _ _ Hp) as Hpr. cbn in Hpr. unfold probing in *. rewrite Epe in Hpr. cbn -[append_u64].
    apply app_eq_nil in Hpr as [E1 E2]. rewrite payloads_app, E1, E2, append_u64_eq. reflexivity.
  - apply (phase_says sv c); auto; [exact (pk_phase _ _ Hp)|]. intros l a _ _. right. left. split; [reflexivity|].
    cbn -[append_u64]. rewrite append_u64_eq. reflexivity.
Qed.

Lemma close_step s sv c up dn us ur ds dr code f c' :
  pair_ok d (mkPair s sv c up dn us ur ds dr) -> in_u16 code -> ClientSession.make_close code c = (Ok f, c') ->
  pair_ok d (mkPair s sv c' (up ++ option_list f) dn us ur ds dr).
Proof.
  intros Hp Hn E. pose proof (pk_client _ _ Hp) as Hc. cbn in Hc.
  pose proof (ClientSession.close_call _ _ _ _ Hc E) as Hcall. pose proof (ClientSession.close_valid _ _ _ _ Hc Hn E) as Hv.
  rewrite ClientSession.make_close_eq in E. destruct (_ || _)%bool eqn:Eb; injection E as <- <-; cbn [option_list option_rect] in *;
    [|rewrite app_nil_r; exact Hp].
  set (f := mkFrame MtClose 0 (ClientSession.cs_next_outbound_sequence c) (append_u16 [] code)) in *.
  assert (Hcl : close_frame f).
  { split; [reflexivity|]. cbn -[append_u16]. rewrite append_u16_eq. reflexivity. }
  rewrite <- (app_nil_r us). change (us ++ []) with (us ++ packets [f]). apply (client_call s sv c); auto.
  - apply probing_push_up; [reflexivity|]. exact (pk_probe _ _ Hp).
  - set (c' := ClientSession.numbered _) in *. assert (Hov : client_over c') by (left; reflexivity).
    pose proof (pk_phase _ _ Hp) as Hph. cbn in Hph.
    destruct Hph as [_ Hst|Hsv Hst (h & rest & -> & Ht & Hd & Hfr & Hr) Hdn|l a Hsv Hl Hag Hup Ha|Hsov _].
    + rewrite Hst in Eb. discriminate.
    + destruct Hst as [Hst|[Hst|Hst]]; [|rewrite Hst in Eb; discriminate..]. rewrite (Hr Hst).
      apply ph_hello; auto. exists h, [f]. split_goal; auto. discriminate.
    + apply (ph_up _ _ _ _ l a); auto; [|exact I]. apply Forall_app. split; [exact Hup|].
      constructor; [right; right; exact Hcl|constructor].
    + apply ph_over; [exact Hsov|left; apply answered_over; exact Hov].
Qed.
End Preservation.

Section ServerSteps.
Context {S : Type} `{AP : AssignmentPolicy S} {d : bytes -> bytes}.
Implicit Types (s : S) (sv : ServerEnd) (c : ClientEnd) (up dn : list Frame).

(** What the answers have in common: all but the first kind end the session. *)
Lemma renewed_lease s now sv k :
  fair d s -> SessionController.renewed now (ls_leases s) sv k ->
  (forall l, SessionController.sc_lease sv = Some l -> l_ipv6_address l = d (l_address l)) ->
  exists l, SessionController.sc_lease sv = Some l /\ l_address k = l_address l /\
    l_ipv6_address k = l_ipv6_address l.
Proof.
  intros Hf Hr Hd. destruct (renewed_address _ _ _ _ Hr) as (l & Hl & Ha). exists l. split_goal; auto.
  rewrite (renewed_ipv6 _ _ _ _ Hf Hr), (Hd l Hl), Ha. reflexivity.
Qed.

Lemma ended_over st sv : st = SessionController.Closing \/ st = SessionController.Closed ->
  server_over (SessionController.numbered (SessionController.ended st sv)) /\
  server_over (SessionController.ended st (SessionController.numbered sv)) /\ server_over (SessionController.ended st sv).
Proof. intros Hst. split_goal; exact Hst. Qed.

Lemma packet_down_step s sv c up dn us ur ds dr packet now f s' sv' :
  pair_ok d (mkPair s sv c up dn us ur ds dr) -> is_bytes packet ->
  SessionController.make_data_to_client packet now (s, sv) = (Ok f, (s', sv')) ->
  pair_ok d (mkPair s' sv' c up (dn ++ option_list f) us ur (ds ++ map f_payload (option_list f)) dr).
Proof.
  intros Hp Hb E. pose proof Hp as [Hf Hs Hl Hc Hbs Hph Hu Hd Hpr Htu Htd]. pair_cbn.
  pose proof (downlink_keeps packet now s sv Hf) as Hf'. rewrite E in Hf'. cbn [fst snd] in Hf'.
  pose proof (fair_ok d s Hf) as Hls.
  apply (SessionController.yields_inv _ _ _ _ _ _ (SessionController.downlink_sound packet now s sv Hls Hs Hb)) in E as [_ Hr].
  pose proof (SessionController.downlink_rel_ok _ _ _ _ _ _ _ Hs (SessionController.ls_well_keyed s Hls) Hr) as Hs'.
  pose proof (SessionController.downlink_rel_numbers _ _ _ _ _ _ _ Hs Hr) as Hn.
  pose proof (SessionController.downlink_rel_valid _ _ _ _ _ _ _ Hs Hb Hr) as Hv.
  apply Forall_app in Hbs as [Hbu _].
  destruct Hr as [_|e t Hst He _ _|e t k Hst He Hp4 Hren]; cbn [option_list option_rect map] in *.
  - apply (server_call s sv c up up dn us ur ur ds dr s' sv []); auto. all: rewrite app_nil_r; assumption.
  - assert (Hov : server_over (SessionController.ended SessionController.Closing sv)) by (left; reflexivity).
    apply (server_call s sv c up up dn us ur ur ds dr s' _ []); auto; try (rewrite app_nil_r).
    + intros l [=].
    + assumption.
    + eapply transit_over; eassumption.
    + apply ph_over; [exact Hov|]. destruct Hph as [? _|? _|l a _ _ _ _ Ha|[?|?] _]; try congruence. left. eauto.
  - destruct (renewed_lease s now sv k Hf Hren Hl) as (l & Hl' & E4 & E6). rewrite He in Hl'. injection Hl' as <-.
    set (f := mkFrame t 0 _ packet) in *.
    assert (Hdt : is_data f = true) by (apply data_types; destruct Hp4 as [(-> & _)|(-> & _)]; auto).
    change (f_payload f) with packet. replace [packet] with (packets [f]) by (apply packets_data; exact Hdt).
    pose proof (server_up_not_over sv Hst) as Hno.
    apply (server_call s sv c up up dn us ur ur ds dr s'); auto.
    + intros l [= <-]. exact (renewed_ipv6 _ _ _ _ Hf Hren).
    + apply probing_push_down; [|exact Hpr]. apply payloads_none. apply data_types in Hdt as [->| ->]; discriminate.
    + destruct Hph as [? _|? _|l a _ Hl1 Hag Hup Ha|[?|?] _]; try congruence. rewrite He in Hl1. injection Hl1 as <-.
      apply (ph_up _ _ _ _ k a); auto.
      * eapply same_agreed; [exact Hag|exact E4|exact E6].
      * eapply Forall_impl; [exact Hup|]. intros g. apply up_frame_same; assumption.
      * apply answered_push; [exact Ha|]. left. eapply down_packet; [exact Hag|exact Hp4].
Qed.

(** What the server's part of a step amounts to. *)
Record serve_ok (sv : ServerEnd) (c : ClientEnd) (frame : Frame) (up dn : list Frame)
    (r : SessionController.SessionResult) (sv' : ServerEnd) : Prop := {
  sk_ipv6 l : SessionController.sc_lease sv' = Some l -> l_ipv6_address l = d (l_address l);
  sk_taken : ~ server_over sv' -> ~ server_over sv /\
    SessionController.sc_next_expected_sequence sv' = u64 (SessionController.sc_next_expected_sequence sv + 1) /\
    SessionController.packets_to_tun r = packets [frame];
  sk_none : server_over sv' -> SessionController.packets_to_tun r = [];
  sk_replies : packets (SessionController.outbound_frames r) = [];
  sk_probe : payloads MtPong (SessionController.outbound_frames r) = [] \/
    f_type frame = MtPing /\ exists g, SessionController.outbound_frames r = [g] /\ f_type g = MtPong /\
      f_payload g = f_payload frame;
  sk_phase : phase sv' c up (dn ++ SessionController.outbound_frames r);
  sk_errors g : g ∈ SessionController.outbound_frames r -> f_type g = MtError -> lost_lease g
}.

(** The frames that the server takes. *)
Lemma serve_hello s sv c frame up dn us ur ds dr now :
  pair_ok d (mkPair s sv c (frame :: up) dn us ur ds dr) ->
  SessionController.sc_state sv = SessionController.AwaitingHello ->
  exists r s' sv', SessionController.handle frame now (s, sv) = (Ok r, (s', sv')) /\
    serve_ok sv c frame up dn r sv'.
Proof.
  intros [Hf Hs Hl Hc Hbs Hph Hu Hd Hpr Htu Htd] Hst. cbn in *.
  destruct Hph as [? ? [=]|_ Hcs Hg ->|l a Hx|[Hx|Hx] _]; try congruence.
  destruct Hg as (h & rest & [= <- <-] & Ht & Hdec & Hcl & Hrest).
  assert (Hno : ~ server_over sv) by (intros [?|?]; congruence).
  destruct (link_pop _ _ _ _ (Hu Hno)) as (Hseq & _).
  destruct (hello_outcome frame now s sv _ Hf Hs Hst Hseq Ht Hdec) as (r & s' & sv' & E & Hr).
  assert (Hdata : is_data frame = false).
  { destruct (is_data frame) eqn:Eb; [|reflexivity]. apply data_types in Eb as [?|?]; congruence. }
  exists r, s', sv'. split; [exact E|].
  destruct Hr as [(l & a & payload & -> & -> & Hdp & Hag & Hd6 & Hacc)|(e & Hw & -> & ->)];
    constructor; cbn [SessionController.packets_to_tun SessionController.outbound_frames]; auto.
  - intros l' [= <-]. exact Hd6.
  - intros _. rewrite packets_other by exact Hdata. auto.
  - apply (ph_up _ _ _ _ l (with_mtu (Z.min (requested_mtu (ClientSession.hello_of (ClientSession.requested_mtu_ c))) (ia_mtu a)) a)); auto.
    + eapply Forall_impl; [exact Hcl|]. intros g Hgc. right. right. exact Hgc.
    + unfold answered. destruct (ClientSession.cs_state c) eqn:Ec; try exact I;
        try (destruct Hcs as [?|[?|?]]; congruence).
      eexists _, []. split; [reflexivity|]. split; [reflexivity|]. split; [exact Hdp|]. split; [|constructor].
      destruct Hacc as [Hm H1 H2 H3 H4]. constructor; auto. cbn in *. lia.
  - intros g ->%list_elem_of_singleton. discriminate.
  - intros l [=].
  - intros Hx. destruct Hx. left. reflexivity.
  - assert (Hlost : lost_lease (SessionController.error_frame SessionController.LeaseUnavailable (exn_what e)
      (SessionController.sc_next_outbound_sequence sv))) by (eexists _, _; split; [exact Hw|reflexivity]).
    apply ph_over; [left; reflexivity|]. destruct Hcs as [Hcs|Hcs]; [right|left; apply answered_over; exact Hcs].
    split; [exact Hcs|]. eexists. split; [reflexivity|exact Hlost].
  - intros g ->%list_elem_of_singleton _. eexists _, _. split; [exact Hw|reflexivity].
Qed.

Lemma error_not_pong what n code :
  payloads MtPong [SessionController.error_frame code what n] = [] /\ packets [SessionController.error_frame code what n] = [].
Proof. split; reflexivity. Qed.

Lemma serve_up s sv c frame up dn us ur ds dr now r s' sv' :
  pair_ok d (mkPair s sv c (frame :: up) dn us ur ds dr) ->
  SessionController.sc_state sv = SessionController.Established ->
  SessionController.handle frame now (s, sv) = (Ok r, (s', sv')) -> serve_ok sv c frame up dn r sv'.
Proof.
  intros [Hf Hs Hl Hc Hbs Hph Hu Hd Hpr Htu Htd] Hst E. pair_cbn. pose proof (fair_ok d s Hf) as Hls.
  apply Forall_cons in Hbs as [Hb _]. pose proof (server_up_not_over sv Hst) as Hno.
  destruct (link_pop _ _ _ _ (Hu Hno)) as (Hseq & _).
  destruct Hph as [Hx _|Hx _ _|l a _ He Hag Hup Ha|[Hx|Hx] _]; try congruence.
  apply Forall_cons in Hup as [Hup1 Hup].
  apply (SessionController.yields_inv _ _ _ _ _ _ (SessionController.handle_sound frame now s sv Hls Hs Hb)) in E as [_ Hr].
  apply (server_answers (d := d) (ls_leases s) sv frame now r (ls_leases s') sv' l) in Hr; auto;
    [|intros k; apply renewed_ipv6; exact Hf].
  assert (Hphase : forall k st, (forall e, SessionController.sc_lease sv = Some e ->
      l_address k = l_address e /\ l_ipv6_address k = l_ipv6_address e) ->
    SessionController.sc_state st = SessionController.Established -> SessionController.sc_lease st = Some k ->
    SessionController.sc_negotiated_mtu st = SessionController.sc_negotiated_mtu sv ->
    forall out, Forall (down_frame a) out -> phase st c up (dn ++ out)).
  { intros k st Hk Est Ek Em out Ho. destruct (Hk l He) as [E4 E6]. apply (ph_up _ _ _ _ k a); auto.
    - rewrite Em. eapply same_agreed; eassumption.
    - rewrite Em. eapply Forall_impl; [exact Hup|]. intros g. apply up_frame_same; assumption.
    - clear -Ha Ho. revert dn Ha. induction Ho as [|g out Hg _ IH]; intros dn Ha; [rewrite app_nil_r; exact Ha|].
      rewrite cons_middle, app_assoc. apply IH, answered_push; assumption. }
  assert (Hk6 : forall k, (forall e, SessionController.sc_lease sv = Some e ->
      l_address k = l_address e /\ l_ipv6_address k = l_ipv6_address e) -> l_ipv6_address k = d (l_address k)).
  { intros k Hk. destruct (Hk l He) as [E4 E6]. rewrite E4, E6. auto. }
  destruct Hr as [k Hdt Hk|k Ht Hk|Hcl|f Hlf Hsq _]; constructor;
    cbn [SessionController.packets_to_tun SessionController.outbound_frames]; auto.
  all: try (intros l' [= <-]; auto; fail).
  all: try (intros l' [=]; fail).
  all: try (intros Hx; destruct Hx; first [left; reflexivity|right; reflexivity]; fail).
  all: try (intros [Hx|Hx]; cbn in Hx; congruence).
  - intros _. rewrite packets_data by exact Hdt. auto.
  - apply (Hphase k); auto.
  - intros g []%not_elem_of_nil.
  - intros _. rewrite packets_other; [auto|]. unfold is_data. rewrite Ht. reflexivity.
  - right. split; [exact Ht|]. eexists. split; [reflexivity|]. auto.
  - apply (Hphase k); auto. constructor; [right; left; reflexivity|constructor].
  - intros g ->%list_elem_of_singleton. discriminate.
  - rewrite app_nil_r. apply ph_over; [right; reflexivity|eauto].
  - intros g []%not_elem_of_nil.
  - destruct Hlf as (what & n & _ & ->). reflexivity.
  - left. destruct Hlf as (what & n & _ & ->). reflexivity.
  - apply ph_over; [left; reflexivity|]. left. exists a. apply answered_lost; assumption.
  - intros g ->%list_elem_of_singleton _. exact Hlf.
Qed.

Lemma serve_over s sv c frame up dn us ur ds dr now r s' sv' :
  pair_ok d (mkPair s sv c (frame :: up) dn us ur ds dr) -> server_over sv ->
  SessionController.handle frame now (s, sv) = (Ok r, (s', sv')) -> serve_ok sv c frame up dn r sv'.
Proof.
  intros [Hf Hs Hl Hc Hbs Hph Hu Hd Hpr Htu Htd] Hov E. pair_cbn. pose proof (fair_ok d s Hf) as Hls.
  apply Forall_cons in Hbs as [Hb _].
  apply (SessionController.yields_inv _ _ _ _ _ _ (SessionController.handle_sound frame now s sv Hls Hs Hb)) in E as [_ Hr].
  destruct Hr as [_|? ? ? ? Hst|? ? ? ? Hst|? Hst|? Hst|Hst _ _];
    try (destruct Hov; repeat destruct Hst as [Hst|Hst]; congruence).
  constructor; cbn [SessionController.packets_to_tun SessionController.outbound_frames]; auto.
  - intros Hx. contradiction.
  - rewrite app_nil_r. destruct Hph as [Hx _|Hx _ _|? ? Hx|_ Ha]; [destruct Hov; congruence..|].
    apply ph_over; assumption.
  - intros g []%not_elem_of_nil.
Qed.

Lemma serve_step s sv c frame up dn us ur ds dr now r s' sv' :
  pair_ok d (mkPair s sv c (frame :: up) dn us ur ds dr) ->
  SessionController.handle frame now (s, sv) = (Ok r, (s', sv')) ->
  serve_ok sv c frame up dn r sv' /\
  pair_ok d (mkPair s' sv' c up (dn ++ SessionController.outbound_frames r) us
    (ur ++ SessionController.packets_to_tun r) ds dr).
Proof.
  intros Hp E.
  assert (Hok : serve_ok sv c frame up dn r sv').
  { destruct (SessionController.sc_state sv) eqn:Est.
    - destruct (serve_hello _ _ _ _ _ _ _ _ _ _ now Hp Est) as (r1 & s1 & sv1 & E1 & Hok).
      rewrite E1 in E. injection E as <- <- <-. exact Hok.
    - eapply serve_up; eassumption.
    - eapply serve_over; [eassumption|left; exact Est|eassumption].
    - eapply serve_over; [eassumption|right; exact Est|eassumption]. }
  split; [exact Hok|]. destruct Hok as [Hl' Ht Hn Hr0 Hpb Hph' _].
  pose proof Hp as [Hf Hs Hl Hc Hbs Hph Hu Hd Hpr Htu Htd]. pair_cbn. pose proof (fair_ok d s Hf) as Hls.
  pose proof (handle_keeps (d := d) frame now s sv Hf) as Hf'. rewrite E in Hf'. cbn [fst snd] in Hf'.
  apply Forall_cons in Hbs as [Hb Hbs]. apply Forall_app in Hbs as [Hbu _].
  apply (SessionController.yields_inv _ _ _ _ _ _ (SessionController.handle_sound frame now s sv Hls Hs Hb)) in E as [_ Hr].
  pose proof (SessionController.handle_rel_ok _ _ _ _ _ _ _ Hs (SessionController.ls_well_keyed s Hls) Hr) as Hs'.
  pose proof (SessionController.handle_rel_numbers _ _ _ _ _ _ _ Hs Hr) as Hnum.
  pose proof (SessionController.handle_rel_valid _ _ _ _ _ _ _ Hs Hb Hr) as Hv.
  rewrite <- (app_nil_r ds), <- Hr0.
  apply (server_call s sv c (frame :: up) up dn us ur _ ds dr s' sv'); auto.
  - intros Hno. destruct (Ht Hno) as (Hno0 & -> & _). destruct (link_pop _ _ _ _ (Hu Hno0)) as (_ & H1 & H2). auto.
  - destruct Hpb as [Hz|(Hft & g & -> & Hg & Eg)].
    + apply probing_push_down; [exact Hz|]. eapply probing_pop_up. exact Hpr.
    + eapply probing_reply; eassumption.
  - destruct (SessionController.sc_state sv') eqn:Est'.
    1, 2: assert (Hno : ~ server_over sv') by (intros [?|?]; congruence);
      destruct (Ht Hno) as (Hno0 & _ & ->); eapply transit_pop; eassumption.
    1, 2: assert (Hov : server_over sv') by (unfold server_over; auto);
      rewrite (Hn Hov), app_nil_r; eapply transit_over; eassumption.
Qed.

Lemma others_step s sv c up dn us ur ds dr s' :
  pair_ok d (mkPair s sv c up dn us ur ds dr) -> fair d s' -> pair_ok d (mkPair s' sv c up dn us ur ds dr).
Proof. intros [] Hf. constructor; assumption. Qed.
End ServerSteps.

Section ClientSteps.
Context {S : Type} `{AP : AssignmentPolicy S} {d : bytes -> bytes}.
Implicit Types (s : S) (sv : ServerEnd) (c : ClientEnd) (up dn : list Frame).

(** What the client's part of a step amounts to. *)
Record receive_ok (sv : ServerEnd) (c : ClientEnd) (frame : Frame) (up dn : list Frame)
    (r : ClientSession.ClientSessionResult) (c' : ClientEnd) : Prop := {
  rk_taken : ~ client_over c' -> ~ client_over c /\
    ClientSession.cs_next_expected_sequence c' = u64 (ClientSession.cs_next_expected_sequence c + 1) /\
    ClientSession.cr_packets_to_tun r = packets [frame];
  rk_none : client_over c' -> ClientSession.cr_packets_to_tun r = [];
  rk_sent : packets (ClientSession.cr_outbound_frames r) = [];
  rk_probe : probing c' (up ++ ClientSession.cr_outbound_frames r) dn;
  rk_phase : phase sv c' (up ++ ClientSession.cr_outbound_frames r) dn;
  rk_errors g : g ∈ ClientSession.cr_outbound_frames r -> f_type g = MtError ->
    lost_lease frame /\ ClientSession.cs_state c = ClientSession.AwaitingAssignment
}.

Lemma over_client st c : st = ClientSession.Closing \/ st = ClientSession.Closed ->
  client_over (ClientSession.set_state st c).
Proof. intros Hst. exact Hst. Qed.

Lemma receive_over s sv c up frame dn us ur ds dr r c' :
  pair_ok d (mkPair s sv c up (frame :: dn) us ur ds dr) -> client_over c ->
  ClientSession.handle_rel c frame r c' -> receive_ok sv c frame up dn r c'.
Proof.
  intros [Hf Hs Hl Hc Hbs Hph Hu Hd Hpr Htu Htd] Hov Hr. pair_cbn.
  destruct Hr as [_ _|? ? ? Hst|? Hst|? Hst|Hst|? Hst|? Hst|Hst];
    try (destruct Hov; repeat destruct Hst as [Hst|Hst]; congruence).
  constructor; cbn [ClientSession.cr_packets_to_tun ClientSession.cr_outbound_frames]; rewrite ?app_nil_r; auto.
  - intros Hx. contradiction.
  - eapply probing_pop_down. exact Hpr.
  - destruct (answered_over c dn Hov) as [a Ha].
    destruct Hph as [_ Hx _ _|? ? ? [=]|l a' H1 H2 H3 H4 _|H1 _]; [destruct Hov; congruence| |].
    + apply (ph_up _ _ _ _ l a'); auto. unfold answered. destruct Hov as [->| ->]; exact I.
    + apply ph_over; eauto.
  - intros g []%not_elem_of_nil.
Qed.

(** The assignment arrives. *)
Lemma receive_assignment s sv c up frame dn us ur ds dr r c' a :
  pair_ok d (mkPair s sv c up (frame :: dn) us ur ds dr) ->
  ClientSession.cs_state c = ClientSession.AwaitingAssignment -> answered a c (frame :: dn) ->
  (forall c1, answered a c1 dn -> phase sv c1 up dn) ->
  ClientSession.handle_rel c frame r c' -> receive_ok sv c frame up dn r c'.
Proof.
  intros [Hf Hs Hl Hc Hbs _ Hu Hd Hpr Htu Htd] Hst Ha Hphase Hr. pair_cbn.
  apply Forall_app in Hbs as [_ Hb]. apply Forall_cons in Hb as [Hb _].
  assert (Hno : ~ client_over c) by (intros [?|?]; congruence).
  destruct (link_pop _ _ _ _ (Hd Hno)) as (Hseq & _).
  unfold answered in Ha. rewrite Hst in Ha. destruct Ha as (f & rest & [= <- <-] & Ht & Hdec & Hacc & Hfr).
  apply (ClientSession.acceptable_assignment _ _ c Hb Hdec) in Hacc.
  destruct Hr as [? ?|code what c1 _ _ _ Href|a0 _ _ _ Hdec' _|? Hx|Hx|? Hx|? Hx|Hx]; try congruence.
  - exfalso. destruct Href; solve [congruence|contradiction].
  - rewrite Hdec in Hdec'. injection Hdec' as <-.
    assert (Hpk : packets [frame] = []) by (apply packets_other; unfold is_data; rewrite Ht; reflexivity).
    constructor; cbn [ClientSession.cr_packets_to_tun ClientSession.cr_outbound_frames]; rewrite ?app_nil_r; auto.
    + eapply (probing_pending c); [reflexivity|]. eapply probing_pop_down. exact Hpr.
    + apply Hphase. split; [reflexivity|exact Hfr].
    + intros g []%not_elem_of_nil.
Qed.

(** A lost lease is reported before there was an assignment: the client takes
    this for a protocol error of the server. *)
Lemma receive_refusal s sv c up frame us ur ds dr r c' :
  pair_ok d (mkPair s sv c up [frame] us ur ds dr) -> server_over sv ->
  ClientSession.cs_state c = ClientSession.AwaitingAssignment -> lost_lease frame ->
  ClientSession.handle_rel c frame r c' -> receive_ok sv c frame up [] r c'.
Proof.
  intros [Hf Hs Hl Hc Hbs _ Hu Hd Hpr Htu Htd] Hov Hst Hlost Hr. pair_cbn.
  assert (Ht : f_type frame = MtError) by (destruct Hlost as (what & n & _ & ->); reflexivity).
  destruct Hr as [? ?|code what c1 _ Hw Hc1 Href|a0 ? ? Hx|? Hx|Hx|? Hx|? Hx|Hx]; try congruence.
  assert (Hcov : client_over (ClientSession.set_state ClientSession.Closing (ClientSession.numbered c1))) by (left; reflexivity).
  constructor; cbn [ClientSession.cr_packets_to_tun ClientSession.cr_outbound_frames]; auto.
  - intros Hx. contradiction.
  - eapply (probing_pending c); [destruct Hc1 as [->| ->]; reflexivity|].
    apply probing_push_up; [reflexivity|]. eapply probing_pop_down. exact Hpr.
  - apply ph_over; [exact Hov|left; apply answered_over; exact Hcov].
Qed.

Lemma receive_up s sv c up frame dn us ur ds dr r c' a :
  pair_ok d (mkPair s sv c up (frame :: dn) us ur ds dr) ->
  ClientSession.cs_state c = ClientSession.Established -> answered a c (frame :: dn) ->
  (forall c1 out, answered a c1 dn -> (forall l, agreed (SessionController.sc_negotiated_mtu sv) l a ->
     Forall (up_frame (SessionController.sc_negotiated_mtu sv) l) out) -> phase sv c1 (up ++ out) dn) ->
  ClientSession.handle frame c = (Ok r, c') -> receive_ok sv c frame up dn r c'.
Proof.
  intros [Hf Hs Hl Hc Hbs _ Hu Hd Hpr Htu Htd] Hst Ha Hphase E. pair_cbn.
  apply Forall_app in Hbs as [_ Hb]. apply Forall_cons in Hb as [Hb _].
  assert (Hno : ~ client_over c) by (intros [?|?]; congruence).
  destruct (link_pop _ _ _ _ (Hd Hno)) as (Hseq & _).
  unfold answered in Ha. rewrite Hst in Ha. destruct Ha as [Hca Hfr]. apply Forall_cons in Hfr as [Hf1 Hfr].
  assert (Hpong : f_type frame = MtPong -> (exists n, ClientSession.cs_pending_ping_nonce c = Some n /\ f_payload frame = be64 n) /\
    payloads MtPing up ++ payloads MtPong dn = []) by (intros Ht; eapply probing_pong; eassumption).
  apply (client_answers c frame r c' a) in E; auto; [|intros Ht; apply Hpong; exact Ht].
  assert (Hans : forall c1, ClientSession.cs_state c1 = ClientSession.Established -> ClientSession.cs_assignment c1 = Some a ->
    phase sv c1 (up ++ []) dn).
  { intros c1 E1 E2. apply Hphase; [|intros; constructor]. unfold answered. rewrite E1. auto. }
  destruct E as [Hdt|Ht|m Hlost]; constructor;
    cbn [ClientSession.cr_packets_to_tun ClientSession.cr_outbound_frames]; auto;
    try (intros g []%not_elem_of_nil; fail); try (intros [Hx|Hx]; cbn in Hx; congruence).
  - intros _. rewrite packets_data by exact Hdt. auto.
  - rewrite app_nil_r. eapply (probing_pending c); [reflexivity|]. eapply probing_pop_down. exact Hpr.
  - intros _. rewrite packets_other; [auto|]. unfold is_data. rewrite Ht. reflexivity.
  - rewrite app_nil_r. destruct (Hpong Ht) as [_ Hz]. exact Hz.
  - intros Hx. destruct Hx. right. reflexivity.
  - rewrite app_nil_r. eapply (probing_pending c); [reflexivity|]. eapply probing_pop_down. exact Hpr.
  - apply Hphase; [exact I|intros; constructor].
Qed.

Lemma receive_step s sv c up frame dn us ur ds dr r c' :
  pair_ok d (mkPair s sv c up (frame :: dn) us ur ds dr) -> ClientSession.handle frame c = (Ok r, c') ->
  receive_ok sv c frame up dn r c' /\
  pair_ok d (mkPair s sv c' (up ++ ClientSession.cr_outbound_frames r) dn us ur ds
    (dr ++ ClientSession.cr_packets_to_tun r)).
Proof.
  intros Hp E. pose proof Hp as [Hf Hs Hl Hc Hbs Hph Hu Hd Hpr Htu Htd]. pair_cbn.
  apply Forall_app in Hbs as [Hbu Hb]. apply Forall_cons in Hb as [Hb Hbd].
  pose proof (ClientSession.client_yields_inv _ _ _ _ _ (ClientSession.client_handle_sound frame c Hc Hb) E) as Hr.
  assert (Hok : receive_ok sv c frame up dn r c').
  { destruct (is_over_dec c) as [Hov|Hno]; [eapply receive_over; eassumption|].
    destruct Hph as [? ? ? [=]|? ? ? [=]|l a H1 H2 H3 H4 Ha|Hsov [[a Ha]|[Hst (f & Ef & Hlost)]]].
    - destruct (ClientSession.cs_state c) eqn:Est; try (destruct Hno; unfold client_over; auto; fail).
      + unfold answered in Ha. rewrite Est in Ha. contradiction.
      + eapply (receive_assignment s sv c up frame dn); eauto. intros c1 Hc1. apply (ph_up _ _ _ _ l a); auto.
      + eapply (receive_up s sv c up frame dn); eauto. intros c1 out Hc1 Ho. apply (ph_up _ _ _ _ l a); auto.
        apply Forall_app. auto.
    - destruct (ClientSession.cs_state c) eqn:Est; try (destruct Hno; unfold client_over; auto; fail).
      + unfold answered in Ha. rewrite Est in Ha. contradiction.
      + eapply (receive_assignment s sv c up frame dn); eauto. intros c1 Hc1. apply ph_over; eauto.
      + eapply (receive_up s sv c up frame dn); eauto. intros c1 out Hc1 Ho. apply ph_over; eauto.
    - injection Ef as -> ->. eapply receive_refusal; eassumption. }
  split; [exact Hok|]. destruct Hok as [Ht Hn Hpk Hpb Hph' _].
  pose proof (ClientSession.handle_call _ _ _ _ Hc Hb Hr) as [Hc' Hnum Hadv Hrank].
  pose proof (ClientSession.client_handle_valid _ _ _ _ Hc Hb Hr) as Hv.
  constructor; pair_cbn; auto.
  - rewrite !Forall_app. auto using valid_bytes.
  - intros Hno. apply (link_push _ _ (ClientSession.cs_next_outbound_sequence c)); auto using SessionController.so_expected.
  - intros Hno. destruct (Ht Hno) as (Hno0 & -> & _). destruct (link_pop _ _ _ _ (Hd Hno0)) as (_ & H1 & H2). auto.
  - rewrite <- (app_nil_r us), <- Hpk. apply transit_push. exact Htu.
  - destruct (is_over_dec c') as [Hov|Hno].
    + rewrite (Hn Hov), app_nil_r. eapply transit_over; eassumption.
    + destruct (Ht Hno) as (Hno0 & _ & ->). eapply transit_pop; eassumption.
Qed.
End ClientSteps.

(** *** Runs *)

Section Runs.
Context {S : Type} `{AP : AssignmentPolicy S} {d : bytes -> bytes}.

Lemma pair_init_ok (p : Pair S) : pair_init d p -> pair_ok d p.
Proof.
  intros (s & identity & mtu & sv & c & Hf & Hsv & Hc & ->).
  pose proof (SessionController.make_session_ok _ _ Hsv) as Hs. destruct (ClientSession.make_client_ok _ _ Hc) as [Hcl Hn].
  assert (Hst : SessionController.sc_state sv = SessionController.AwaitingHello /\
    SessionController.sc_next_expected_sequence sv = 1 /\ SessionController.sc_next_outbound_sequence sv = 1 /\
    SessionController.sc_lease sv = None).
  { unfold SessionController.make_session in Hsv. case_bool_decide; [discriminate|]. apply ok_inj in Hsv as <-. auto. }
  assert (Hct : ClientSession.cs_state c = ClientSession.Idle /\ ClientSession.cs_next_expected_sequence c = 1 /\
    ClientSession.cs_pending_ping_nonce c = None).
  { unfold ClientSession.make_client in Hc. apply obind_ok in Hc as (? & _ & <-%ok_inj). auto. }
  destruct Hst as (Hst & He & Ho & Hl), Hct as (Hct & Hce & Hp). constructor; pair_cbn; auto.
  - rewrite Hl. discriminate.
  - apply ph_idle; auto.
  - rewrite He, Hn. intros _. split; [exact I|reflexivity].
  - rewrite Hce, Ho. intros _. split; [exact I|reflexivity].
  - unfold probing. rewrite Hp. reflexivity.
  - split; [reflexivity|auto].
  - split; [reflexivity|auto].
Qed.

Lemma pair_step_ok (p p' : Pair S) : pair_step d p p' -> pair_ok d p -> pair_ok d p'.
Proof.
  destruct 1; intros Hp.
  - eapply start_step; eassumption.
  - eapply packet_up_step; eassumption.
  - eapply ping_step; eassumption.
  - eapply close_step; eassumption.
  - eapply packet_down_step; eassumption.
  - eapply serve_step; eassumption.
  - eapply receive_step; eassumption.
  - eapply others_step; eassumption.
Qed.

Lemma pair_reachable_ok (p : Pair S) : pair_reachable d p -> pair_ok d p.
Proof.
  intros (p0 & H0 & Hr). apply pair_init_ok in H0. induction Hr as [|p p1 p2 Hs _ IH]; [exact H0|].
  apply IH. eapply pair_step_ok; eassumption.
Qed.

Lemma established_agreed sv c up dn :
  phase sv c up dn -> SessionController.sc_state sv = SessionController.Established ->
  ClientSession.cs_state c = ClientSession.Established ->
  exists l a, SessionController.sc_lease sv = Some l /\ ClientSession.cs_assignment c = Some a /\
    agreed (SessionController.sc_negotiated_mtu sv) l a.
Proof.
  intros Hph Hs Hc. destruct Hph as [Hx _|Hx _|l a _ Hl Hag _ Ha|[Hx|Hx] _]; try congruence.
  unfold answered in Ha. rewrite Hc in Ha. exists l, a. tauto.
Qed.

(** ** Properties *)

(** C24: two ends of this program understand each other, for a pool that
    makes assignments clients accept ([fair]; [configured_fair] says when a
    configured pool is one, and [gateway_unchecked] that not every pool the
    constructor admits is).  Whatever happens at either end of an authenticated
    connection and in the pool behind it, in any interleaving with the frames
    under way: when both ends are established, the client's assignment has the
    IPv4 and IPv6 addresses of the lease the server's end holds and the MTU it
    has negotiated, which is all the two share (the message carries neither
    the lease's generation nor a session number); the packets that come out of
    one TUN device are those that went into the other, in their order, without
    loss or repetition, up to the frames still under way.  Of the errors, only
    two can occur: a server reports that the pool has no lease (any more), and
    a client that still waits for its assignment answers that report with an
    error of its own. *)
Theorem connected_ends_agree (p : Pair S) :
  pair_reachable d p ->
  (SessionController.sc_state (pr_server p) = SessionController.Established ->
   ClientSession.cs_state (pr_client p) = ClientSession.Established ->
   exists l a, SessionController.sc_lease (pr_server p) = Some l /\ ClientSession.cs_assignment (pr_client p) = Some a /\
     agreed (SessionController.sc_negotiated_mtu (pr_server p)) l a) /\
  (pr_up_received p `prefix_of` pr_up_sent p /\
   (~ server_over (pr_server p) -> pr_up_sent p = pr_up_received p ++ packets (pr_up p))) /\
  (pr_down_received p `prefix_of` pr_down_sent p /\
   (~ client_over (pr_client p) -> pr_down_sent p = pr_down_received p ++ packets (pr_down p))) /\
  (forall frame up now r s' sv', pr_up p = frame :: up ->
     SessionController.handle frame now (pr_leases p, pr_server p) = (Ok r, (s', sv')) ->
     forall g, g ∈ SessionController.outbound_frames r -> f_type g = MtError -> lost_lease g) /\
  (forall frame dn r c', pr_down p = frame :: dn -> ClientSession.handle frame (pr_client p) = (Ok r, c') ->
     forall g, g ∈ ClientSession.cr_outbound_frames r -> f_type g = MtError ->
       lost_lease frame /\ ClientSession.cs_state (pr_client p) = ClientSession.AwaitingAssignment).
Proof.
  intros Hp%pair_reachable_ok. split; [|split; [|split; [|split]]].
  - eapply established_agreed, (pk_phase _ _ Hp).
  - exact (pk_up _ _ Hp).
  - exact (pk_down _ _ Hp).
  - destruct p as [s sv c up0 dn us ur ds dr]. cbn -[SessionController.handle]. intros frame up now r s' sv' -> E g.
    destruct (serve_step _ _ _ _ _ _ _ _ _ _ _ _ _ _ Hp E) as [Hok _]. exact (sk_errors _ _ _ _ _ _ _ Hok g).
  - destruct p as [s sv c up dn0 us ur ds dr]. cbn -[ClientSession.handle]. intros frame dn r c' -> E g.
    destruct (receive_step _ _ _ _ _ _ _ _ _ _ _ _ Hp E) as [Hok _]. exact (rk_errors _ _ _ _ _ _ _ Hok g).
Qed.

(** ** Runs that can be computed *)

Inductive pair_move := PmStart | PmPacketUp (packet : bytes) | PmPacketDown (packet : bytes) (now : Z)
  | PmServe (now : Z) | PmReceive.

Definition move (m : pair_move) (p : Pair S) : option (Pair S) :=
  let '(mkPair s sv c up dn us ur ds dr) := p in
  match m with
  | PmStart => match ClientSession.start c with
      | (Ok f, c') => Some (mkPair s sv c' (up ++ [f]) dn us ur ds dr) | _ => None end
  | PmPacketUp packet => match decide (is_bytes packet), ClientSession.make_data_to_server packet c with
      | left _, (Ok f, c') => Some (mkPair s sv c' (up ++ option_list f) dn (us ++ map f_payload (option_list f)) ur ds dr)
      | _, _ => None end
  | PmPacketDown packet now => match decide (is_bytes packet), SessionController.make_data_to_client packet now (s, sv) with
      | left _, (Ok f, (s', sv')) =>
          Some (mkPair s' sv' c up (dn ++ option_list f) us ur (ds ++ map f_payload (option_list f)) dr)
      | _, _ => None end
  | PmServe now => match up with
      | frame :: up => match SessionController.handle frame now (s, sv) with
          | (Ok r, (s', sv')) => Some (mkPair s' sv' c up (dn ++ SessionController.outbound_frames r) us
              (ur ++ SessionController.packets_to_tun r) ds dr)
          | _ => None end
      | [] => None end
  | PmReceive => match dn with
      | frame :: dn => match ClientSession.handle frame c with
          | (Ok r, c') => Some (mkPair s sv c' (up ++ ClientSession.cr_outbound_frames r) dn us ur ds
              (dr ++ ClientSession.cr_packets_to_tun r))
          | _ => None end
      | [] => None end
  end.

Fixpoint moves (ms : list pair_move) (p : Pair S) : option (Pair S) :=
  match ms with
  | [] => Some p
  | m :: ms => match move m p with Some p' => moves ms p' | None => None end
  end.

Lemma pair_move_step m p p' : move m p = Some p' -> pair_step d p p'.
Proof.
  destruct p as [s sv c up dn us ur ds dr], m; cbn [move].
  - destruct (ClientSession.start c) as [[f|e] c'] eqn:E; [|discriminate]. intros [= <-]. apply ps_start. exact E.
  - destruct (decide _) as [Hb|]; [|discriminate].
    destruct (ClientSession.make_data_to_server packet c) as [[f|e] c'] eqn:E; [|discriminate]. intros [= <-].
    exact (ps_packet_up d s sv c up dn us ur ds dr packet f c' Hb E).
  - destruct (decide _) as [Hb|]; [|discriminate].
    destruct (SessionController.make_data_to_client packet now (s, sv)) as [[f|e] [s' sv']] eqn:E; [|discriminate].
    intros [= <-]. exact (ps_packet_down d s sv c up dn us ur ds dr packet now f s' sv' Hb E).
  - destruct up as [|frame up]; [discriminate|].
    destruct (SessionController.handle frame now (s, sv)) as [[r|e] [s' sv']] eqn:E; [|discriminate].
    intros [= <-]. exact (ps_serve d s sv c frame up dn us ur ds dr now r s' sv' E).
  - destruct dn as [|frame dn]; [discriminate|].
    destruct (ClientSession.handle frame c) as [[r|e] c'] eqn:E; [|discriminate].
    intros [= <-]. exact (ps_receive d s sv c up frame dn us ur ds dr r c' E).
Qed.

Lemma moves_steps ms p p' : moves ms p = Some p' -> rtc (pair_step d) p p'.
Proof.
  revert p. induction ms as [|m ms IH]; intros p; cbn [moves]; [intros [= <-]; reflexivity|].
  destruct (move m p) as [p1|] eqn:E; [|discriminate]. intros Hm.
  eapply rtc_l; [eapply pair_move_step; exact E|]. apply IH. exact Hm.
Qed.
End Runs.

(** ** The pool of a configured server *)

(** With a gateway that is a host address of its network, the pool of an
    accepted configuration is one that clients understand, and stays so. *)
Lemma configured_fair `{IpLibraryLaws} c lm g :
  fields_ok c -> make_policy c = Ok lm -> parse_ipv4_address (cf_gateway_address c) = Ok g ->
  host_address (to_integer g) (cf_prefix_length c) -> 0 < first_address_ lm ->
  fair (derive_ipv6 lm) lm.
Proof.
  intros Hc Hp Hg Hh Hpos. destruct (make_policy_ok c lm Hc Hp) as (Hr%lm_reachable_inv & _).
  split; [exact Hr|]. split; [|reflexivity]. unfold make_policy in Hp.
  apply obind_ok in Hp as (f & Hf%parse_ipv4_array & Hp). apply obind_ok in Hp as (l & Hl%parse_ipv4_array & Hp).
  rewrite Hg in Hp. cbn [obind] in Hp. apply parse_ipv4_array in Hg.
  apply obind_ok in Hp as (p6 & _ & Hp). apply obind_ok in Hp as (g6 & _ & Hp).
  pose proof (fo_prefix _ Hc) as Hpl. pose proof (fo_mtu _ Hc) as Hmtu.
  assert (Ef : first_address_ lm = to_integer f) by (unfold make_LeaseManager in Hp; inv_ok; subst lm; reflexivity).
  eapply make_serves; [exact Hf|exact Hl|exact Hg| | |exact Hp| |exact Hh].
  - unfold in_u8. clear -Hpl. lia.
  - apply Hmtu.
  - rewrite <- Ef. exact Hpos.
Qed.

(** The constructor of the pool lets the gateway be the network's own address,
    and then no client accepts the assignment of its server. *)
Definition misconfigured : outcome LeaseManager :=
  make_LeaseManager [10; 8; 0; 2] [10; 8; 0; 3] [10; 8; 0; 0] 24 1400 60
    ([253; 0; 0; 8] ++ zeros 12) ([253; 0; 0; 8] ++ zeros 11 ++ [1]) 64.

(** ** Witnesses *)

Definition sample_pair (lm : LeaseManager) : Pair LeaseManager :=
  mkPair lm SessionController.sample_session ClientSession.sample_client [] [] [] [] [] [].

Example gateway_unchecked : exists lm p,
  misconfigured = Ok lm /\ moves [PmStart; PmServe 0; PmReceive] (sample_pair lm) = Some p /\
  ClientSession.cs_state (pr_client p) = ClientSession.Closing /\
  map f_type (pr_up p) = [MtError].
Proof. eexists _, _. split; [vm_compute; reflexivity|]. split; [vm_compute; reflexivity|]. split; reflexivity. Qed.

Lemma sample_pool_fair : fair (derive_ipv6 sample_pool) sample_pool.
Proof.
  split; [exact SessionController.sample_pool_inv|]. split; [|reflexivity].
  apply (make_serves [10; 8; 0; 2] [10; 8; 0; 3] [10; 8; 0; 1] 24 1400 60
    ([253; 0; 0; 8] ++ zeros 12) ([253; 0; 0; 8] ++ zeros 11 ++ [1])); try decide_prop.
  vm_compute. reflexivity.
Qed.

(** The client starts, is assigned an address, and one packet goes each way. *)
Definition conversation : list pair_move :=
  [PmStart; PmServe 0; PmReceive; PmPacketUp ClientSession.local_packet;
   PmPacketDown ClientSession.remote_packet 1; PmServe 2].
Definition conversed : Pair LeaseManager :=
  match moves conversation (sample_pair sample_pool) with Some p => p | None => sample_pair sample_pool end.

Lemma conversed_reachable : pair_reachable (derive_ipv6 sample_pool) conversed.
Proof.
  exists (sample_pair sample_pool). split.
  - exists sample_pool, "alice", 1400, SessionController.sample_session, ClientSession.sample_client.
    split; [exact sample_pool_fair|]. split; [reflexivity|]. split; [vm_compute; reflexivity|reflexivity].
  - apply (moves_steps conversation). vm_compute. reflexivity.
Qed.

Lemma connected_ends_agree_witness :
  SessionController.sc_state (pr_server conversed) = SessionController.Established /\
  ClientSession.cs_state (pr_client conversed) = ClientSession.Established /\
  pr_up_received conversed = [ClientSession.local_packet] /\
  (exists a, ClientSession.cs_assignment (pr_client conversed) = Some a /\
     ia_mtu a = SessionController.sc_negotiated_mtu (pr_server conversed)) /\
  pr_down_sent conversed = pr_down_received conversed ++ [ClientSession.remote_packet].
Proof.
  destruct (connected_ends_agree conversed conversed_reachable) as (Ha & _ & [_ Hd] & _).
  assert (Hs : SessionController.sc_state (pr_server conversed) = SessionController.Established) by (vm_compute; reflexivity).
  assert (Hc : ClientSession.cs_state (pr_client conversed) = ClientSession.Established) by (vm_compute; reflexivity).
  split; [exact Hs|]. split; [exact Hc|]. split; [vm_compute; reflexivity|]. split.
  - destruct (Ha Hs Hc) as (l & a & _ & E & Hag). exists a. split; [exact E|exact (ag_mtu _ _ _ Hag)].
  - rewrite Hd by (intros [?|?]; congruence). vm_compute. reflexivity.
Defined.
