(* ===== verification/KeyFiles.v ===== *)
(** * Private-key files

    Models src/client/credential_security.cpp (both platforms),
    [open_validated_server_private_key] of src/server/tls_security.cpp, and the
    reading of the key in src/client/client_tls_security.cpp and
    src/server/tls_security.cpp.  What the operating system answers is a
    parameter; which of its objects are open is the state. *)
From S2P Require Import Prelude.

(** ** Owned objects *)

(** What must be given back: [HandlePtr], [descriptor_owner], and what
    becomes of the file's handle, a descriptor and then a stream. *)
Inductive Resource := ResFile | ResToken | ResSecurityDescriptor | ResFd | ResStream | ResBuffer.
#[export] Instance Resource_eq_dec : EqDecision Resource.
Proof. solve_decision. Defined.

Abbreviation Open := (list Resource).

Fixpoint give_back (r : Resource) (open_ : Open) : Open :=
  match open_ with
  | [] => []
  | r' :: rest => if decide (r = r') then rest else r' :: give_back r rest
  end.

(** The scope of an owner: its object is given back on every way out. *)
Definition scoped {A} (r : Resource) (m : M Open A) : M Open A :=
  fun s => let '(o, s') := m (r :: s) in (o, give_back r s').
(** The scope of an owner that is released at its end: an exception gives the
    object back, a value leaves it to what comes next. *)
Definition guarded {A} (r : Resource) (m : M Open A) : M Open A :=
  fun s => match m (r :: s) with
           | (Ok a, s') => (Ok a, s')
           | (Throw e, s') => (Throw e, give_back r s')
           end.
(** The object turns into another one. *)
Definition becomes (r r' : Resource) : M Open unit := modify (fun s => r' :: give_back r s).
Definition close (r : Resource) : M Open unit := modify (give_back r).

(** A system call that may fail with an error code. *)
Definition checked {S A} (result : Z + A) (what : string) : M S A :=
  match result with inl code => throw (SystemError code what) | inr a => ret a end.
Definition reject {S} (b : bool) (e : exn) : M S unit := lift (reject_if b e).

(** ** The client's key on Windows *)

Definition FILE_ATTRIBUTE_DIRECTORY : Z := 0x10.
Definition FILE_ATTRIBUTE_REPARSE_POINT : Z := 0x400.
Definition FILE_TYPE_DISK : Z := 1.
Definition ERROR_INSUFFICIENT_BUFFER : Z := 122.
Definition ACCESS_ALLOWED_ACE_TYPE : Z := 0.
Definition ACCESS_DENIED_ACE_TYPE : Z := 1.
Definition FILE_READ_DATA : Z := 0x1.
Definition GENERIC_READ : Z := 0x80000000.
Definition GENERIC_ALL : Z := 0x10000000.

Inductive WellKnownSid := WinLocalSystemSid | WinBuiltinAdministratorsSid.

(** An entry of an access-control list: its type and, of those types that
    have them, the mask and the principal. *)
Record Ace (Sid : Type) := mkAce { ace_type : Z; ace_mask : Z; ace_sid : Sid }.
Arguments mkAce {Sid}.
Arguments ace_type {Sid}.
Arguments ace_mask {Sid}.
Arguments ace_sid {Sid}.

(** The answers of Windows: [inl] is a failed call with its error code. *)
Class WindowsFiles (Sid : Type) := {
  EqualSid : Sid -> Sid -> bool;
  CreateFileW : string -> Z + unit;
  GetFileInformationByHandleEx : string -> Z + Z;      (* FileAttributes *)
  GetFileType : string -> Z;
  (* the result, the list ([None]: no list), and whether there is a descriptor *)
  GetSecurityInfo : string -> Z * option (list (Z + Ace Sid)) * bool;
  OpenProcessToken : Z + unit;
  GetTokenInformation_size : Z * Z;                    (* GetLastError(), token_user_size *)
  GetTokenInformation_user : Z + Sid;
  CreateWellKnownSid : WellKnownSid -> Z + Sid;
  open_osfhandle : string -> Z + unit;
  fdopen : string -> Z + unit
}.

Definition readable : Z := Z.lor (Z.lor FILE_READ_DATA GENERIC_READ) GENERIC_ALL.

Section Windows.
Context {Sid : Type} `{WindowsFiles Sid}.

(** One iteration of the loop over the entries. *)
Definition check_ace (user : Sid) (system_sids : list Sid) (entry : Z + Ace Sid) : outcome unit :=
  match entry with
  | inl code => Throw (SystemError code "inspect client private-key ACL entry")
  | inr ace =>
      if ace_type ace =? ACCESS_DENIED_ACE_TYPE then Ok tt
      else if negb (ace_type ace =? ACCESS_ALLOWED_ACE_TYPE)
      then Throw (InvalidArgument "client private key ACL contains an unsupported access ACE")
      else if Z.land (ace_mask ace) readable =? 0 then Ok tt
      else
        let trusted_principal := fold_left (fun trusted trusted_sid => trusted || EqualSid (ace_sid ace) trusted_sid)
          system_sids (EqualSid (ace_sid ace) user) in
        reject_if (negb trusted_principal)
          (InvalidArgument "client private key ACL grants read access to an unauthorized principal")
  end.
Fixpoint check_aces (user : Sid) (system_sids : list Sid) (entries : list (Z + Ace Sid)) : outcome unit :=
  match entries with
  | [] => Ok tt
  | entry :: rest => let? _ := check_ace user system_sids entry in check_aces user system_sids rest
  end.

(** The loop over [system_principals]. *)
Fixpoint create_sids (principals : list WellKnownSid) : outcome (list Sid) :=
  match principals with
  | [] => Ok []
  | principal :: rest =>
      match CreateWellKnownSid principal with
      | inl code => Throw (SystemError code "create trusted ACL policy SID")
      | inr sid => let? sids := create_sids rest in Ok (sid :: sids)
      end
  end.

Definition validate_private_key_acl (handle : string) : M Open unit :=
  let '(result, dacl, descriptor) := GetSecurityInfo handle in
  (if descriptor : bool then scoped ResSecurityDescriptor else fun m => m)
  (let* _ := reject (negb (result =? 0)) (SystemError result "read client private-key ACL") in
   match dacl with
   | None => throw (InvalidArgument "client private key must not have an unrestricted DACL")
   | Some entries =>
       let* _ := checked OpenProcessToken "open client process token" in
       scoped ResToken
       (let '(error, token_user_size) := GetTokenInformation_size in
        let* _ := reject (negb (error =? ERROR_INSUFFICIENT_BUFFER) || (token_user_size =? 0))
          (SystemError error "query client token user size") in
        let* user := checked GetTokenInformation_user "read client token user" in
        let* system_sids := lift (create_sids [WinLocalSystemSid; WinBuiltinAdministratorsSid]) in
        lift (check_aces user system_sids entries))
   end).

(** [open_validated_private_key_file], its [_WIN32] branch. *)
Definition open_validated_private_key_file_windows (private_key_file : string) : M Open unit :=
  let* _ := checked (CreateFileW private_key_file) "open client private key" in
  let* _ := guarded ResFile
    (let* attributes := checked (GetFileInformationByHandleEx private_key_file) "inspect client private key" in
     let* _ := reject (negb (Z.land attributes (Z.lor FILE_ATTRIBUTE_REPARSE_POINT FILE_ATTRIBUTE_DIRECTORY) =? 0)
                       || negb (GetFileType private_key_file =? FILE_TYPE_DISK))
       (InvalidArgument "client private key must be a regular non-reparse file") in
     let* _ := validate_private_key_acl private_key_file in
     checked (open_osfhandle private_key_file) "create client private-key stream") in
  let* _ := becomes ResFile ResFd in
  match fdopen private_key_file with
  | inl error =>
      let* _ := close ResFd in throw (SystemError error "read client private key")
  | inr _ => becomes ResFd ResStream
  end.
End Windows.

(** ** The client's key elsewhere *)

(** The answers of a POSIX system; [fstat] reads [st_mode] and [st_uid]. *)
Class PosixFiles := {
  fopen : string -> Z + unit;
  open_nofollow : string -> Z + unit;   (* O_RDONLY | O_CLOEXEC | O_NOFOLLOW | O_NONBLOCK *)
  fdopen_posix : string -> Z + unit;
  fstat : string -> Z + (Z * Z);
  geteuid : Z
}.

Section Posix.
Context `{PosixFiles}.

(** [open_validated_private_key_file], its other branch. *)
Definition open_validated_private_key_file_posix (private_key_file : string) : M Open unit :=
  let* _ := checked (fopen private_key_file) "open client private key" in
  modify (cons ResStream).

(** ** The server's key *)

Definition ELOOP : Z := 40.
Definition S_ISREG (mode : Z) : bool := Z.land mode 0xF000 =? 0x8000.
Definition S_IRWXG : Z := 0x38.
Definition S_IRWXO : Z := 0x7.

Definition open_validated_server_private_key (path : string) : M Open unit :=
  match open_nofollow path with
  | inl error =>
      if error =? ELOOP then throw (InvalidArgument "server private key must not be a symlink")
      else throw (SystemError error "failed to open server private key")
  | inr _ =>
      let* _ := modify (cons ResFd) in
      match fdopen_posix path with
      | inl error =>
          let* _ := close ResFd in throw (SystemError error "failed to read server private key")
      | inr _ =>
          let* _ := close ResFd in
          guarded ResStream
          (let* status := checked (fstat path) "failed to inspect server private key permissions" in
           let '(st_mode, st_uid) := status in
           let* _ := reject (negb (S_ISREG st_mode))
             (InvalidArgument "server private key must be a regular file") in
           let* _ := reject (negb (st_uid =? geteuid))
             (InvalidArgument "server private key must be owned by the service user") in
           reject (negb (Z.land st_mode (Z.lor S_IRWXG S_IRWXO) =? 0))
             (InvalidArgument "server private key must not grant group or other permissions"))
      end
  end.

Definition validate_server_private_key_permissions (private_key_file : string) : M Open unit :=
  let* _ := reject (bool_decide (private_key_file = ""))
    (InvalidArgument "server private key path must not be empty") in
  let* _ := open_validated_server_private_key private_key_file in
  close ResStream.
End Posix.

(** The two platforms of the client. *)
Inductive Platform := Windows | Posix.
Class ClientFiles (Sid : Type) := {
  client_platform : Platform;
  client_windows :: WindowsFiles Sid;
  client_posix :: PosixFiles
}.

Section Client.
Context {Sid : Type} `{ClientFiles Sid}.

Definition open_validated_private_key_file (private_key_file : string) : M Open unit :=
  match client_platform with
  | Windows => open_validated_private_key_file_windows private_key_file
  | Posix => open_validated_private_key_file_posix private_key_file
  end.

Definition validate_private_key_permissions (private_key_file : string) : M Open unit :=
  let* _ := open_validated_private_key_file private_key_file in close ResStream.
End Client.

(** ** Reading the key *)

Definition kMaximumPrivateKeyBytes : Z := 1024 * 1024.
Definition maximum_private_key_file_size : Z := 1024 * 1024.

(** An open stream: [std::fread] with element size 1 for at most so many
    bytes, and [std::ferror]. *)
Class InputStream (F : Type) := {
  fread : Z -> F -> bytes * F;
  ferror : F -> bool
}.

Section Reading.
Context {F : Type} `{InputStream F}.

(** The loop of [make_client_tls_context] with [data] in the buffer so far,
    whose size is [capacity]; one unit of fuel an iteration, [None] without. *)
Fixpoint read_loop (fuel : nat) (capacity : Z) (data : bytes) (file : F) : option (outcome bytes) :=
  match fuel with
  | O => None
  | S fuel' =>
      if zlen data <? capacity then
        let '(chunk, file') := fread (capacity - zlen data) file in
        if zlen chunk =? 0 then
          if ferror file' then Some (Throw (RuntimeError "failed to read client private key"))
          else Some (Ok data)
        else read_loop fuel' capacity (data ++ chunk) file'
      else Some (Ok data)
  end.
Definition read_client_key (fuel : nat) (file : F) : option (outcome bytes) :=
  match read_loop fuel (kMaximumPrivateKeyBytes + 1) [] file with
  | Some (Ok data) => Some (
      let? _ := reject_if ((zlen data =? 0) || (kMaximumPrivateKeyBytes <? zlen data))
        (InvalidArgument "client private key must be between 1 byte and 1 MiB") in
      Ok data)
  | r => r
  end.

(** The server's single read. *)
Definition read_server_key (file : F) : outcome bytes :=
  let '(data, file') := fread (maximum_private_key_file_size + 1) file in
  let? _ := reject_if (ferror file') (RuntimeError "failed to read server private key") in
  let? _ := reject_if (maximum_private_key_file_size <? zlen data)
    (InvalidArgument "server private key file must not exceed 1 MiB") in
  Ok data.
End Reading.

(** What the standard promises of a stream with [contents] still to be read:
    [fread] stores the next bytes, and fewer than it was asked for only at the
    end or after an error. *)
Class InputStreamLaws (F : Type) `{InputStream F} := {
  contents : F -> bytes;
  fread_next n file : 0 < n ->
    let '(chunk, file') := fread n file in
    contents file = chunk ++ contents file' /\ zlen chunk <= n /\
    (zlen chunk < n -> contents file' = [] \/ ferror file' = true)
}.

(** ** Specification *)

(** Who may read a Windows key: the process's user, the system, and the
    administrators. *)
Definition trusted {Sid} `{WindowsFiles Sid} (sid : Sid) : Prop :=
  (exists user, GetTokenInformation_user = inr user /\ EqualSid sid user = true) \/
  (exists p system, CreateWellKnownSid p = inr system /\ EqualSid sid system = true).

(** An entry that lets nobody else read. *)
Definition harmless {Sid} `{WindowsFiles Sid} (ace : Ace Sid) : Prop :=
  ace_type ace = ACCESS_DENIED_ACE_TYPE \/
  (ace_type ace = ACCESS_ALLOWED_ACE_TYPE /\ (Z.land (ace_mask ace) readable <> 0 -> trusted (ace_sid ace))).

Record windows_guarded {Sid} `{WindowsFiles Sid} (path : string) : Prop := {
  wg_file : GetFileType path = FILE_TYPE_DISK;
  wg_attributes : exists attributes, GetFileInformationByHandleEx path = inr attributes /\
    Z.testbit attributes 4 = false /\ Z.testbit attributes 10 = false;
  wg_acl : exists entries aces, snd (fst (GetSecurityInfo path)) = Some entries /\
    entries = map inr aces /\ Forall harmless aces
}.

Record posix_guarded `{PosixFiles} (path : string) : Prop := {
  pg_status : exists st_mode, fstat path = inr (st_mode, geteuid) /\ S_ISREG st_mode = true /\
    forall b, 0 <= b < 6 -> Z.testbit st_mode b = false
}.

(** ** Lemmas *)

(** An operation whose value satisfies [P], with [after] newly open when it
    returns and nothing of its own when it throws. *)
Definition opens {A} (after : Open) (P : A -> Prop) (m : M Open A) : Prop :=
  forall s, match m s with
            | (Ok a, s') => P a /\ s' = after ++ s
            | (Throw _, s') => s' = s
            end.

Lemma opens_bind {A B} before after (P : A -> Prop) (Q : B -> Prop) m k :
  opens before P m ->
  (forall a, P a -> forall s, match k a (before ++ s) with (Ok b, s') => Q b /\ s' = after ++ s | (Throw _, s') => s' = s end) ->
  opens after Q (bind m k).
Proof.
  intros Hm Hk s. unfold bind. specialize (Hm s). destruct (m s) as [[a|e] s']; [|exact Hm].
  destruct Hm as [Ha ->]. apply Hk, Ha.
Qed.
(** The usual case: nothing is open in between. *)
Lemma opens_seq {A B} after (P : A -> Prop) (Q : B -> Prop) m k :
  opens [] P m -> (forall a, P a -> opens after Q (k a)) -> opens after Q (bind m k).
Proof. intros Hm Hk. eapply opens_bind; [exact Hm|]. intros a Ha s. apply (Hk a Ha). Qed.
Lemma opens_mono {A} after (P Q : A -> Prop) (m : M Open A) :
  opens after P m -> (forall a, P a -> Q a) -> opens after Q m.
Proof. intros Hm HPQ s. specialize (Hm s). destruct (m s) as [[a|e] s']; [destruct Hm; auto|exact Hm]. Qed.
Lemma opens_lift {A} (o : outcome A) : opens [] (fun a => o = Ok a) (lift o).
Proof. intros s. unfold lift. destruct o; auto. Qed.
Lemma opens_checked {A} (r : Z + A) what : opens [] (fun a => r = inr a) (checked r what).
Proof. intros s. destruct r; cbn; auto. Qed.
Lemma opens_reject b e : opens [] (fun _ => b = false) (reject b e).
Proof. intros s. destruct b; cbn; auto. Qed.
Lemma opens_throw {A} after (P : A -> Prop) e : opens after P (throw e).
Proof. intros s. reflexivity. Qed.
Lemma give_back_head r s : give_back r (r :: s) = s.
Proof. cbn. rewrite decide_True by reflexivity. reflexivity. Qed.
Lemma opens_scoped {A} r (P : A -> Prop) m : opens [] P m -> opens [] P (scoped r m).
Proof.
  intros Hm s. unfold scoped. specialize (Hm (r :: s)). destruct (m (r :: s)) as [[a|e] s'].
  - destruct Hm as [Ha ->]. split; [exact Ha|]. apply give_back_head.
  - rewrite Hm. apply give_back_head.
Qed.
Lemma opens_owned {A} (b : bool) r (P : A -> Prop) m :
  opens [] P m -> opens [] P ((if b then scoped r else fun m => m) m).
Proof. intros Hm. destruct b; [apply opens_scoped|]; exact Hm. Qed.
Lemma opens_guarded {A} r (P : A -> Prop) m : opens [] P m -> opens [r] P (guarded r m).
Proof.
  intros Hm s. unfold guarded. specialize (Hm (r :: s)). destruct (m (r :: s)) as [[a|e] s'].
  - exact Hm.
  - rewrite Hm. apply give_back_head.
Qed.
Lemma opens_modify r : opens [r] (fun _ => True) (modify (cons r)).
Proof. intros s. split; reflexivity. Qed.
Lemma opens_closing {A} r (P : A -> Prop) m : opens [r] P m -> opens [] (fun _ => exists a, P a) (let* _ := m in close r).
Proof. intros Hm. eapply opens_bind; [exact Hm|]. intros a Ha s. split; [eauto|]. apply give_back_head. Qed.

(** Walks through such an operation, keeping what its checks established. *)
Ltac opens_step :=
  match goal with
  | |- opens _ _ (bind (checked _ _) _) => eapply opens_seq; [apply opens_checked|intros ? ?; cbn beta in *]
  | |- opens _ _ (bind (reject _ _) _) => eapply opens_seq; [apply opens_reject|intros ? ?; cbn beta in *]
  | |- opens _ _ (bind (lift _) _) => eapply opens_seq; [apply opens_lift|intros ? ?; cbn beta in *]
  | |- opens _ _ (scoped _ _) => apply opens_scoped
  | |- opens _ _ (throw _) => apply opens_throw
  end.

Section WindowsFacts.
Context {Sid : Type} `{WindowsFiles Sid}.

Lemma fold_trusted (sid : Sid) sids b :
  fold_left (fun trusted s => trusted || EqualSid sid s) sids b = true <->
  b = true \/ exists s, s ∈ sids /\ EqualSid sid s = true.
Proof.
  revert b. induction sids as [|s sids IH]; intros b; cbn [fold_left].
  - split; [auto|]. intros [?|(s & []%not_elem_of_nil & _)]. assumption.
  - rewrite IH, orb_true_iff. setoid_rewrite elem_of_cons. split.
    + intros [[Hb|Hs]|(s' & Hin & Hs)]; eauto.
    + intros [Hb|(s' & [->|Hin] & Hs)]; eauto.
Qed.

Lemma create_sids_ok ps sids s :
  create_sids ps = Ok sids -> s ∈ sids -> exists p, CreateWellKnownSid p = inr s.
Proof.
  revert sids. induction ps as [|p ps IH]; intros sids; cbn [create_sids].
  - intros <-%ok_inj []%not_elem_of_nil.
  - destruct (CreateWellKnownSid p) as [|s'] eqn:E; [discriminate|].
    intros (rest & Hr & <-%ok_inj)%obind_ok. rewrite elem_of_cons. intros [->|Hs]; eauto.
Qed.

Lemma check_aces_ok user sids entries :
  GetTokenInformation_user = inr user -> (forall s, s ∈ sids -> exists p, CreateWellKnownSid p = inr s) ->
  check_aces user sids entries = Ok tt ->
  exists aces, entries = map inr aces /\ Forall harmless aces.
Proof.
  intros Hu Hs. induction entries as [|e entries IH]; cbn [check_aces].
  { exists []. split; [reflexivity|constructor]. }
  intros ([] & He & Hrest)%obind_ok. destruct (IH Hrest) as (aces & -> & Haces).
  destruct e as [|ace]; [discriminate|]. exists (ace :: aces). split; [reflexivity|]. constructor; [|exact Haces].
  unfold check_ace in He. destruct (ace_type ace =? ACCESS_DENIED_ACE_TYPE) eqn:Hd; [left; apply Z.eqb_eq, Hd|].
  destruct (ace_type ace =? ACCESS_ALLOWED_ACE_TYPE) eqn:Ha; [|discriminate]. right. split; [apply Z.eqb_eq, Ha|].
  intros Hm. cbn [negb] in He. rewrite (proj2 (Z.eqb_neq _ _) Hm) in He.
  apply reject_if_ok, negb_false_iff, fold_trusted in He as [E|(s & Hin & E)]; [left; eauto|].
  destruct (Hs s Hin) as [p Hp]. right. eauto.
Qed.

Lemma acl_opens path :
  opens [] (fun _ => exists entries aces, snd (fst (GetSecurityInfo path)) = Some entries /\
    entries = map inr aces /\ Forall harmless aces) (validate_private_key_acl path).
Proof.
  unfold validate_private_key_acl. destruct (GetSecurityInfo path) as [[result dacl] descriptor]. cbn [fst snd].
  apply opens_owned. opens_step. destruct dacl as [entries|]; [|opens_step]. opens_step. opens_step.
  destruct GetTokenInformation_size as [error size]. opens_step. opens_step. opens_step.
  eapply opens_mono; [apply opens_lift|]. intros [] Hc.
  match goal with Hu : GetTokenInformation_user = inr _, Hs : create_sids _ = Ok _ |- _ =>
    destruct (check_aces_ok _ _ entries Hu (fun s => create_sids_ok _ _ s Hs) Hc) as (aces & ? & ?) end.
  exists entries, aces. auto.
Qed.

Lemma no_bits x y n : 0 <= n -> Z.land x y = 0 -> Z.testbit y n = true -> Z.testbit x n = false.
Proof.
  intros Hn E Hy. apply (f_equal (fun v => Z.testbit v n)) in E. rewrite Z.land_spec, Hy, Z.bits_0, andb_true_r in E.
  exact E.
Qed.

Lemma windows_opens path :
  opens [ResStream] (fun _ => windows_guarded path) (open_validated_private_key_file_windows path).
Proof.
  unfold open_validated_private_key_file_windows. opens_step.
  eapply opens_bind.
  - apply opens_guarded. opens_step. opens_step. eapply opens_seq; [apply acl_opens|]. intros [] Hacl.
    eapply opens_mono; [apply opens_checked|]. intros [] _. revert Hacl.
    instantiate (1 := fun _ => windows_guarded path). intros Hacl. b2p.
    constructor; [assumption| |exact Hacl]. eexists. split; [eassumption|].
    split; (eapply no_bits; [|eassumption|]); [lia|reflexivity|lia|reflexivity].
  - intros [] Hw s. unfold bind, becomes, close, modify, throw. cbn [app]. rewrite give_back_head.
    destruct (fdopen path); rewrite give_back_head; auto.
Qed.
End WindowsFacts.

(** ** The POSIX files *)

Section PosixFacts.
Context `{PosixFiles}.

Lemma posix_opens path : opens [ResStream] (fun _ => True) (open_validated_private_key_file_posix path).
Proof.
  unfold open_validated_private_key_file_posix. eapply opens_seq; [apply opens_checked|]. intros _ _. apply opens_modify.
Qed.

Lemma server_opens path : opens [ResStream] (fun _ => posix_guarded path) (open_validated_server_private_key path).
Proof.
  unfold open_validated_server_private_key. destruct (open_nofollow path) as [error|].
  { destruct (error =? ELOOP); opens_step. }
  eapply opens_bind; [apply opens_modify|]. intros [] _ s. destruct (fdopen_posix path) as [error|].
  - unfold bind, close, modify, throw. apply give_back_head.
  - unfold bind at 1, close, modify. cbn [app]. rewrite give_back_head. revert s. apply opens_guarded.
    opens_step. destruct a as [st_mode st_uid]. opens_step. opens_step.
    eapply opens_mono; [apply opens_reject|]. cbn beta. intros _ ?. b2p. subst st_uid. constructor.
    exists st_mode. split; [assumption|]. split; [assumption|]. intros b Hb. eapply no_bits; [lia|eassumption|].
    assert (Hc : b = 0 \/ b = 1 \/ b = 2 \/ b = 3 \/ b = 4 \/ b = 5) by lia.
    repeat destruct Hc as [->|Hc]; [reflexivity..|]. subst b. reflexivity.
Qed.
End PosixFacts.

Section ClientFacts.
Context {Sid : Type} `{ClientFiles Sid}.

Lemma client_opens path : opens [ResStream] (fun _ => client_platform = Windows -> windows_guarded path)
  (open_validated_private_key_file path).
Proof.
  unfold open_validated_private_key_file. destruct client_platform.
  - eapply opens_mono; [apply windows_opens|auto].
  - eapply opens_mono; [apply posix_opens|discriminate].
Qed.
Lemma key_check_opens path :
  opens [] (fun _ => client_platform = Windows -> windows_guarded path) (validate_private_key_permissions path).
Proof. eapply opens_mono; [eapply opens_closing, client_opens|]. intros _ [[] Ha]. exact Ha. Qed.
End ClientFacts.

(** ** Reading *)

Section ReadingFacts.
Context {F : Type} `{InputStreamLaws F}.

(** Each iteration takes something from the stream or is the last. *)
Lemma read_loop_spec fuel capacity data file :
  (Z.to_nat (capacity - zlen data) < fuel)%nat -> zlen data <= capacity ->
  match read_loop fuel capacity data file with
  | None => False
  | Some (Throw e) => exists what, e = RuntimeError what
  | Some (Ok all) => exists rest, data ++ contents file = all ++ rest /\ zlen all <= capacity /\
      (zlen all < capacity -> rest = [])
  end.
Proof.
  revert data file. induction fuel as [|fuel IH]; intros data file Hf Hd; [lia|]. cbn [read_loop].
  destruct (zlen data <? capacity) eqn:Hc; b2p.
  2:{ exists (contents file). split; [reflexivity|]. lia. }
  pose proof (fread_next (capacity - zlen data) file ltac:(lia)) as Hr.
  destruct (fread (capacity - zlen data) file) as [chunk file'] eqn:Er. destruct Hr as (Hcon & Hlen & Hend).
  pose proof (zlen_nonneg chunk). destruct (zlen chunk =? 0) eqn:Hz; b2p.
  - destruct (ferror file') eqn:Hfe; [eauto|]. destruct (Hend ltac:(lia)) as [Hnil|]; [|congruence].
    apply zlen_0 in Hz as ->. rewrite Hcon, Hnil. exists []. auto.
  - specialize (IH (data ++ chunk) file'). rewrite zlen_app in IH. specialize (IH ltac:(lia) ltac:(lia)).
    rewrite <- app_assoc, <- Hcon in IH. exact IH.
Qed.
End ReadingFacts.

(** ** Properties *)

(** C25: which private keys the program accepts, and that checking one leaks
    nothing.  A client on Windows accepts a regular file on a disk that is no
    link and whose access list denies, or lets nobody read but the user, the
    system and the administrators; a client elsewhere checks nothing, and
    accepts every file it can open.  A server key is a regular file of the
    service's user without a permission for anybody else.  When the opening
    returns, the stream is the one thing newly open; when it throws, everything
    opened on the way has been closed, and the two checks without a result
    leave nothing open at all. *)
Theorem private_keys_guarded {Sid} `{ClientFiles Sid} path :
  opens [ResStream] (fun _ => client_platform = Windows -> windows_guarded path) (open_validated_private_key_file path) /\
  opens [ResStream] (fun _ => posix_guarded path) (open_validated_server_private_key path) /\
  opens [] (fun _ => client_platform = Windows -> windows_guarded path) (validate_private_key_permissions path) /\
  opens [] (fun _ => path <> "") (validate_server_private_key_permissions path) /\
  (client_platform = Posix -> forall s,
     is_ok (open_validated_private_key_file path s).1 = true <-> fopen path = inr tt).
Proof.
  split; [apply client_opens|]. split; [apply server_opens|].
  split; [apply key_check_opens|]. split.
  - unfold validate_server_private_key_permissions. opens_step. b2p.
    eapply opens_mono; [eapply opens_closing, server_opens|auto].
  - intros Hp s. unfold open_validated_private_key_file. rewrite Hp.
    unfold open_validated_private_key_file_posix, bind, checked. destruct (fopen path) as [e|[]]; cbn; split; congruence.
Qed.

(** Reading a private key ends, and with the whole file.  The client's loop
    needs no more iterations than its buffer has bytes, however little each
    read returns: it ends with exactly what the file held, which is 1 byte to
    1 MiB, or refuses a file that is empty or larger, or reports a failed
    read.  The server's single read has the same limit but lets an empty file
    through to the parser. *)
Theorem private_keys_read {F} `{InputStreamLaws F} (file : F) :
  (exists r, read_client_key (Z.to_nat (kMaximumPrivateKeyBytes + 2)) file = Some r /\
     match r with
     | Ok data => data = contents file /\ 1 <= zlen data <= kMaximumPrivateKeyBytes
     | Throw (InvalidArgument _) => contents file = [] \/ kMaximumPrivateKeyBytes < zlen (contents file)
     | Throw e => exists what, e = RuntimeError what
     end) /\
  match read_server_key file with
  | Ok data => data = contents file /\ zlen data <= maximum_private_key_file_size
  | Throw (InvalidArgument _) => maximum_private_key_file_size < zlen (contents file)
  | Throw e => exists what, e = RuntimeError what
  end.
Proof.
  split.
  - unfold read_client_key. change (zlen (@nil Z)) with 0.
    pose proof (read_loop_spec (Z.to_nat (kMaximumPrivateKeyBytes + 2)) (kMaximumPrivateKeyBytes + 1) [] file
      ltac:(rewrite zlen_nil; unfold kMaximumPrivateKeyBytes; lia) ltac:(rewrite zlen_nil; discriminate)) as Hl.
    destruct (read_loop _ _ _ _) as [[data|e]|]; [| |contradiction].
    2:{ eexists. split; [reflexivity|]. destruct Hl as [what ->]. eauto. }
    destruct Hl as (rest & Hcon & Hle & Hrest). cbn [app] in Hcon. eexists. split; [reflexivity|].
    rewrite obind_reject. destruct (_ || _) eqn:Hbad.
    + rewrite Hcon. apply orb_true_iff in Hbad as [Hz|Hbig]; b2p.
      * left. rewrite Hrest by (unfold kMaximumPrivateKeyBytes; lia). apply zlen_0 in Hz as ->. reflexivity.
      * right. rewrite zlen_app. pose proof (zlen_nonneg rest). lia.
    + b2p. pose proof (zlen_nonneg data). rewrite Hcon, Hrest, app_nil_r by lia. split; [reflexivity|lia].
  - unfold read_server_key. pose proof (fread_next (maximum_private_key_file_size + 1) file ltac:(reflexivity)) as Hr.
    destruct (fread _ file) as [data file']. destruct Hr as (Hcon & Hle & Hend). rewrite !obind_reject.
    destruct (ferror file') eqn:Hfe; [eauto|]. destruct (maximum_private_key_file_size <? zlen data) eqn:Hbig; b2p.
    + rewrite Hcon, zlen_app. pose proof (zlen_nonneg (contents file')). lia.
    + split; [|exact Hbig]. destruct Hend as [Hnil|]; [lia| |congruence]. rewrite Hcon, Hnil, app_nil_r. reflexivity.
Qed.

(** ** Witnesses *)

(** A Windows with two keys: one that its user and the system may read, and
    one that everybody may. *)
Definition sample_windows : WindowsFiles string := {|
  EqualSid a b := bool_decide (a = b);
  CreateFileW _ := inr tt;
  GetFileInformationByHandleEx _ := inr 0x20;
  GetFileType _ := FILE_TYPE_DISK;
  GetSecurityInfo path :=
    (0, Some (inr (mkAce ACCESS_DENIED_ACE_TYPE GENERIC_ALL "guest") ::
        inr (mkAce ACCESS_ALLOWED_ACE_TYPE GENERIC_ALL "system") ::
        inr (mkAce ACCESS_ALLOWED_ACE_TYPE FILE_READ_DATA "alice") ::
        (if bool_decide (path = "open.key") then [inr (mkAce ACCESS_ALLOWED_ACE_TYPE GENERIC_READ "everyone")] else [])),
     true);
  OpenProcessToken := inr tt;
  GetTokenInformation_size := (ERROR_INSUFFICIENT_BUFFER, 44);
  GetTokenInformation_user := inr "alice";
  CreateWellKnownSid p := match p with WinLocalSystemSid => inr "system" | WinBuiltinAdministratorsSid => inr "administrators" end;
  open_osfhandle _ := inr tt;
  fdopen _ := inr tt
|}.
Definition sample_posix : PosixFiles := {|
  fopen _ := inr tt;
  open_nofollow path := if bool_decide (path = "link.key") then inl ELOOP else inr tt;
  fdopen_posix _ := inr tt;
  fstat path := if bool_decide (path = "server.key") then inr (0x8180, 1000) else inr (0x81A0, 1000);
  geteuid := 1000
|}.
Definition sample_files : ClientFiles string := {|
  client_platform := Windows; client_windows := sample_windows; client_posix := sample_posix
|}.

Lemma private_keys_guarded_witness :
  @open_validated_private_key_file _ sample_files "client.key" [] = (Ok tt, [ResStream]) /\
  @windows_guarded _ sample_windows "client.key" /\
  @open_validated_private_key_file _ sample_files "open.key" [] =
    (Throw (InvalidArgument "client private key ACL grants read access to an unauthorized principal"), []) /\
  @open_validated_server_private_key sample_posix "link.key" [] =
    (Throw (InvalidArgument "server private key must not be a symlink"), []) /\
  @posix_guarded sample_posix "server.key".
Proof.
  destruct (@private_keys_guarded _ sample_files "client.key") as (Hc & _).
  destruct (@private_keys_guarded _ sample_files "server.key") as (_ & Hs & _).
  split; [vm_compute; reflexivity|]. split; [exact (proj1 (Hc []) eq_refl)|].
  split; [vm_compute; reflexivity|]. split; [vm_compute; reflexivity|]. exact (proj1 (Hs [])).
Defined.

(** A file in memory. *)
#[export] Instance memory_file : InputStream bytes := {|
  fread n file := (take (Z.to_nat n) file, drop (Z.to_nat n) file);
  ferror _ := false
|}.
#[export] Instance memory_file_laws : InputStreamLaws bytes.
Proof.
  refine {| contents file := file |}.
  intros n file Hn. cbn. split; [symmetry; apply take_drop|]. unfold zlen. rewrite length_take.
  split; [lia|]. intros Hl. left. apply nil_length_inv. rewrite length_drop. lia.
Defined.

Lemma private_keys_read_witness :
  read_client_key (Z.to_nat (kMaximumPrivateKeyBytes + 2)) [45; 45; 45] = Some (Ok [45; 45; 45]) /\
  read_server_key [45; 45; 45] = Ok [45; 45; 45] /\ read_server_key [] = Ok [].
Proof.
  destruct (private_keys_read [45; 45; 45]) as ((r & Hr & Hd) & Hs).
  assert (r = Ok [45; 45; 45]) as ->.
  { destruct r as [data|[what|what|what|code what| |code what]].
    - destruct Hd as [-> _]. reflexivity.
    - destruct Hd as [|Hd]; [discriminate|]. vm_compute in Hd. discriminate.
    - destruct Hd as [? [=]].
    - exfalso. revert Hr. vm_compute. discriminate.
    - destruct Hd as [? [=]].
    - destruct Hd as [? [=]].
    - destruct Hd as [? [=]]. }
  split; [exact Hr|]. split; vm_compute; reflexivity.
Defined.
