(* ===== verification/ClientConfig.v ===== *)
(** * The client's configuration

    Models src/client/client_config.cpp and its header: the JSON file's keys
    and values, the routes, and the checks that an accepted configuration has
    passed.  The JSON parser's tree and the file system are parameters. *)
From S2P Require Import ClientSession.
From S2P Require Import Prelude Bytes ControlMessages Address LeaseManager LeaseService NetworkTransaction.
From S2P Require Import ServerConfig KeyFiles.

(** ** What the libraries answer *)

(** [boost::property_tree::ptree]: the children in their order, the child with
    a key, a child's text and a node's own, and the JSON parser. *)
Class PropertyTree (T : Type) := {
  pt_children : T -> list (string * T);
  get_child_optional : T -> string -> option T;
  get_optional : T -> string -> option string;
  get_value : T -> string;
  read_json : string -> option T
}.

(** [std::filesystem], with paths as their texts; [file_size] is [None] and
    [is_regular_file] false when the call sets its error code. *)
Class FileSystem := {
  absolute : string -> string;
  lexically_normal : string -> string;
  parent_path : string -> string;
  is_relative : string -> bool;
  path_append : string -> string -> string;
  file_size : string -> option Z;
  is_regular_file : string -> bool
}.

Record ClientConfig := mkClientConfig {
  cc_server_host : string;
  cc_server_port : Z;
  cc_expected_server_name : string;
  cc_ca_file : string;
  cc_certificate_chain_file : string;
  cc_private_key_file : string;
  cc_requested_mtu : Z;
  cc_routes : list string;
  cc_allow_default_route : bool
}.

Definition kMaximumConfigBytes : Z := 64 * 1024.

(** ** Fields *)

(** [std::iscntrl] and [std::isspace] in the C locale. *)
Definition iscntrl (byte : Z) : bool := (byte <? 32) || (byte =? 127).
Definition isspace (byte : Z) : bool := (byte =? 32) || ((9 <=? byte) && (byte <=? 13)).

Section Fields.
Context {T : Type} `{PropertyTree T}.

(** The loop over the entries, with the keys seen so far. *)
Fixpoint ensure_keys_loop (allowed : list string) (section : string) (seen : gset string)
    (entries : list (string * T)) : outcome unit :=
  match entries with
  | [] => Ok tt
  | (key, _) :: rest =>
      let? _ := reject_if (bool_decide (key = "") || negb (bool_decide (key ∈ allowed)))
        (InvalidArgument ("unknown field in " +:+ section +:+ ": " +:+ key)) in
      let? _ := reject_if (bool_decide (key ∈ seen))
        (InvalidArgument ("duplicate field in " +:+ section +:+ ": " +:+ key)) in
      ensure_keys_loop allowed section ({[key]} ∪ seen) rest
  end.
Definition ensure_keys (tree : T) (allowed : list string) (section : string) : outcome unit :=
  ensure_keys_loop allowed section ∅ (pt_children tree).

Definition require_section (root : T) (name : string) : outcome T :=
  match get_child_optional root name with
  | Some section =>
      let? _ := reject_if (bool_decide (pt_children section = []))
        (InvalidArgument ("missing or empty configuration section: " +:+ name)) in
      Ok section
  | None => Throw (InvalidArgument ("missing or empty configuration section: " +:+ name))
  end.

Definition require_text (tree : T) (field : string) (maximum_length : Z) : outcome string :=
  match get_optional tree field with
  | Some value =>
      let? _ := reject_if (bool_decide (value = "") || (maximum_length <? zlen (string_bytes value)))
        (InvalidArgument ("missing or invalid text field: " +:+ field)) in
      let? _ := reject_if (existsb (fun byte => iscntrl byte || isspace byte) (string_bytes value))
        (InvalidArgument ("whitespace and control bytes are forbidden in: " +:+ field)) in
      Ok value
  | None => Throw (InvalidArgument ("missing or invalid text field: " +:+ field))
  end.

Definition require_unsigned (tree : T) (field : string) (minimum maximum : Z) : outcome Z :=
  match get_optional tree field with
  | None => Throw (InvalidArgument ("missing numeric field: " +:+ field))
  | Some text =>
      match from_chars_all (2 ^ 64 - 1) (string_bytes text) with
      | Some value =>
          let? _ := reject_if ((value <? minimum) || (maximum <? value))
            (InvalidArgument ("numeric field is out of range: " +:+ field)) in
          Ok value
      | None => Throw (InvalidArgument ("numeric field is out of range: " +:+ field))
      end
  end.

Definition optional_boolean (tree : T) (field : string) (fallback : bool) : outcome bool :=
  match get_optional tree field with
  | None => Ok fallback
  | Some text =>
      if bool_decide (text = "true") then Ok true
      else if bool_decide (text = "false") then Ok false
      else Throw (InvalidArgument ("boolean field must be true or false: " +:+ field))
  end.

Definition credential_path `{FileSystem} (config_directory : string) (tls : T) (field : string) : outcome string :=
  let? text := require_text tls field 4096 in
  let path := if is_relative text then path_append config_directory text else text in
  let path := lexically_normal (absolute path) in
  let? _ := reject_if (negb (is_regular_file path))
    (InvalidArgument ("credential is not a readable regular file: " +:+ field)) in
  Ok path.
End Fields.

(** ** Routes *)

(** [value = (value << 8U) | octet] over the address. *)
Definition fold_octets (address : bytes) : Z :=
  fold_left (fun value octet => Z.lor (u32 (Z.shiftl value 8)) octet) address 0.
(** [prefix == 0U ? 0U : max << (32U - prefix)] *)
Definition route_mask (prefix : Z) : Z := if prefix =? 0 then 0 else u32 (Z.shiftl (2 ^ 32 - 1) (32 - prefix)).

Definition validate_route `{IpLibrary} (route : string) (allow_default_route : bool) : outcome string :=
  let text := string_bytes route in
  let default_route := InvalidArgument "a default route requires tunnel.allow_default_route=true" in
  let not_canonical := InvalidArgument ("route address must be the canonical network address: " +:+ route) in
  match find text 58 0 with
  | Some _ =>
      match find text 47 0 with
      | None => Throw (InvalidArgument ("route must use IPv6 CIDR notation: " +:+ route))
      | Some slash =>
          let? _ := reject_if ((slash =? 0) || (zlen text <=? slash + 1))
            (InvalidArgument ("route must use IPv6 CIDR notation: " +:+ route)) in
          match parse_prefix 128 (drop (Z.to_nat (slash + 1)) text) with
          | None => Throw (InvalidArgument ("IPv6 route prefix is out of range: " +:+ route))
          | Some prefix =>
              let? _ := reject_if ((prefix =? 0) && negb allow_default_route) default_route in
              match make_address_v6 (bytes_string (slice text 0 slash)) with
              | Some (network, scope_id) =>
                  let? _ := reject_if (negb (scope_id =? 0))
                    (InvalidArgument ("IPv6 route address is invalid: " +:+ route)) in
                  let? _ := reject_if (negb (bool_decide (network = clear_host_bits network prefix))) not_canonical in
                  Ok route
              | None => Throw (InvalidArgument ("IPv6 route address is invalid: " +:+ route))
              end
          end
      end
  | None =>
      match find text 47 0 with
      | None => Throw (InvalidArgument ("route must use IPv4 or IPv6 CIDR notation: " +:+ route))
      | Some slash =>
          let? _ := reject_if ((slash =? 0) || (zlen text <=? slash + 1)
                               || match find text 47 (slash + 1) with Some _ => true | None => false end)
            (InvalidArgument ("route must use IPv4 or IPv6 CIDR notation: " +:+ route)) in
          let address_text := bytes_string (slice text 0 slash) in
          match parse_prefix 32 (drop (Z.to_nat (slash + 1)) text) with
          | None => Throw (InvalidArgument ("route prefix is out of range: " +:+ route))
          | Some prefix =>
              let? _ := reject_if ((prefix =? 0) && negb allow_default_route) default_route in
              let? address := parse_ipv4_address address_text in
              let value := fold_octets address in
              let? _ := reject_if (negb (Z.land value (route_mask prefix) =? value)) not_canonical in
              Ok route
          end
      end
  end.

(** ** Loading *)

Section Loading.
Context {T : Type} `{PropertyTree T} `{FileSystem} `{IpLibrary} {Sid : Type} `{ClientFiles Sid}.

(** The loop over the entries of [tunnel.routes]. *)
Fixpoint routes_loop (allow_default_route : bool) (unique_routes : gset string) (entries : list (string * T)) :
    outcome (list string) :=
  match entries with
  | [] => Ok []
  | (key, child) :: rest =>
      let? _ := reject_if (negb (bool_decide (key = "")) || negb (bool_decide (pt_children child = [])))
        (InvalidArgument "tunnel.routes must be an array of CIDR strings") in
      let? route := validate_route (get_value child) allow_default_route in
      let? _ := reject_if (bool_decide (route ∈ unique_routes)) (InvalidArgument ("duplicate route: " +:+ route)) in
      let? routes := routes_loop allow_default_route ({[route]} ∪ unique_routes) rest in
      Ok (route :: routes)
  end.

(** The test for full-tunnel mode, which needs a numeric server address. *)
Definition check_full_tunnel (config : ClientConfig) : outcome unit :=
  if cc_allow_default_route config &&
     (bool_decide ("0.0.0.0/0" ∈ cc_routes config) || bool_decide ("::/0" ∈ cc_routes config))
  then reject_if (match make_address (cc_server_host config) with
                  | Some (is_v6, scope_id) => is_v6 && negb (scope_id =? 0)
                  | None => true
                  end)
         (InvalidArgument "full-tunnel mode requires a numeric server IP to prevent DNS leakage")
  else Ok tt.

(** The part after the credentials. *)
Definition load_tunnel (tunnel : T) (server_host : string) (server_port : Z) (expected_server_name ca_file
    certificate_chain_file private_key_file : string) : outcome ClientConfig :=
  let? requested_mtu := require_unsigned tunnel "requested_mtu" kMinimumIpv6Mtu kMaximumTunnelMtu in
  let? allow_default_route := optional_boolean tunnel "allow_default_route" false in
  match get_child_optional tunnel "routes" with
  | None => Throw (InvalidArgument "tunnel.routes must contain between 1 and 64 routes")
  | Some routes =>
      let? _ := reject_if (bool_decide (pt_children routes = []) || (64 <? zlen (pt_children routes)))
        (InvalidArgument "tunnel.routes must contain between 1 and 64 routes") in
      let? validated := routes_loop allow_default_route ∅ (pt_children routes) in
      let config := mkClientConfig server_host (u16 server_port) expected_server_name ca_file certificate_chain_file
        private_key_file (u16 requested_mtu) validated allow_default_route in
      let? _ := check_full_tunnel config in
      Ok config
  end.

Definition load_client_config (config_file : string) : M Open ClientConfig :=
  let absolute_config := lexically_normal (absolute config_file) in
  let* _ := reject (match file_size absolute_config with
                    | Some size => (size =? 0) || (kMaximumConfigBytes <? size)
                    | None => true
                    end)
    (InvalidArgument "configuration must be a non-empty regular file up to 64 KiB") in
  match read_json absolute_config with
  | None => throw (InvalidArgument "configuration is not valid JSON")
  | Some root =>
      let* _ := lift (ensure_keys root ["schema_version"; "server"; "tls"; "tunnel"] "root") in
      let* schema_version := lift (require_unsigned root "schema_version" 1 1) in
      let* _ := reject (negb (schema_version =? 1)) (InvalidArgument "unsupported client configuration schema") in
      let* server := lift (require_section root "server") in
      let* _ := lift (ensure_keys server ["host"; "port"; "expected_name"] "server") in
      let* tls := lift (require_section root "tls") in
      let* _ := lift (ensure_keys tls ["ca_file"; "certificate_chain_file"; "private_key_file"] "tls") in
      let* tunnel := lift (require_section root "tunnel") in
      let* _ := lift (ensure_keys tunnel ["requested_mtu"; "routes"; "allow_default_route"] "tunnel") in
      let* server_host := lift (require_text server "host" 253) in
      let* server_port := lift (require_unsigned server "port" 1 (2 ^ 16 - 1)) in
      let* expected_server_name := lift (require_text server "expected_name" 253) in
      let directory := parent_path absolute_config in
      let* ca_file := lift (credential_path directory tls "ca_file") in
      let* certificate_chain_file := lift (credential_path directory tls "certificate_chain_file") in
      let* private_key_file := lift (credential_path directory tls "private_key_file") in
      let* _ := validate_private_key_permissions private_key_file in
      lift (load_tunnel tunnel server_host server_port expected_server_name ca_file certificate_chain_file
        private_key_file)
  end.
End Loading.

(** ** Specification *)

Definition route_prefix (r : Route) : Z :=
  match r with RouteV4 r => r4_prefix_length r | RouteV6 r => r6_prefix_length r end.
(** No bit is set after the prefix. *)
Definition canonical (r : Route) : Prop :=
  match r with
  | RouteV4 r => to_integer (r4_network r) mod 2 ^ (32 - r4_prefix_length r) = 0
  | RouteV6 r => host_bits_clear (r6_network r) (r6_prefix_length r)
  end.

(** ** Lemmas *)

Lemma fold_octets_value a : is_array 4 a -> fold_octets a = to_integer a.
Proof.
  intros (b0 & b1 & b2 & b3 & -> & ? & ? & ? & ?)%is_array_4. unfold to_integer. rewrite read_u32_cons by assumption.
  unfold fold_octets. cbn [fold_left]. rewrite !Z.shiftl_mul_pow2 by lia.
  assert (E : forall v b, in_u32 (v * 2 ^ 8) -> in_u8 b -> Z.lor (u32 (v * 2 ^ 8)) b = v * 2 ^ 8 + b).
  { intros v b Hv Hb. rewrite u32_id by exact Hv. rewrite <- Z.shiftl_mul_pow2 by lia.
    rewrite lor_shiftl_add by int_lia. rewrite Z.shiftl_mul_pow2 by lia. reflexivity. }
  rewrite (E 0 b0) by int_lia. rewrite (E _ b1) by int_lia. rewrite (E _ b2) by int_lia.
  rewrite (E _ b3) by int_lia. lia.
Qed.

Lemma route_mask_test x p : 0 <= p <= 32 -> in_u32 x -> Z.land x (route_mask p) = x <-> x mod 2 ^ (32 - p) = 0.
Proof.
  intros Hp Hx. destruct (Z.eq_dec p 0) as [->|Hn].
  - change (route_mask 0) with 0. rewrite Z.land_0_r, Z.sub_0_r, Z.mod_small by exact Hx. split; congruence.
  - assert (route_mask p = ClientSession.netmask p) as ->.
    { unfold route_mask, ClientSession.netmask. rewrite (proj2 (Z.eqb_neq p 0)) by lia.
      destruct (Z.eqb_spec p 32) as [->|]; reflexivity. }
    rewrite ClientSession.land_netmask by (assumption || lia).
    assert (0 < 2 ^ (32 - p)) by (apply Z.pow_pos_nonneg; lia).
    pose proof (Z.div_mod x (2 ^ (32 - p)) ltac:(lia)). lia.
Qed.

Lemma scan_digits_digits l v n :
  snd (scan_digits v n l) = n + zlen l -> forallb is_digit l = true.
Proof.
  revert v n. induction l as [|c l IH]; intros v n; [reflexivity|]. cbn [scan_digits forallb]. rewrite zlen_cons.
  destruct (is_digit c); [intros Hs; cbn; eapply IH; rewrite Hs; lia|]. cbn. pose proof (zlen_nonneg l). lia.
Qed.
Lemma from_chars_all_digits maximum l v : from_chars_all maximum l = Some v -> forallb is_digit l = true.
Proof.
  unfold from_chars_all, from_chars. destruct (scan_digits 0 0 l) as [value count] eqn:E.
  destruct (count =? 0); [discriminate|]. destruct (maximum <? value); [discriminate|].
  destruct (Z.eqb_spec count (zlen l)) as [Ec|]; [|discriminate]. intros _. eapply (scan_digits_digits _ 0 0).
  rewrite E. exact Ec.
Qed.
Lemma scan_digits_nonneg l v n : 0 <= v -> 0 <= fst (scan_digits v n l).
Proof.
  revert v n. induction l as [|c l IH]; intros v n Hv; cbn [scan_digits]; [exact Hv|].
  unfold is_digit. destruct (_ && _) eqn:Hd; [|exact Hv]. b2p. apply IH. lia.
Qed.
Lemma from_chars_all_nonneg maximum l v : from_chars_all maximum l = Some v -> 0 <= v.
Proof.
  unfold from_chars_all, from_chars. pose proof (scan_digits_nonneg l 0 0 ltac:(lia)) as Hs.
  destruct (scan_digits 0 0 l) as [value count]. destruct (count =? 0); [discriminate|].
  destruct (maximum <? value); [discriminate|]. destruct (count =? zlen l); [|discriminate]. intros [= <-]. exact Hs.
Qed.
Lemma parse_prefix_ok maximum l p : maximum <= 2 ^ 16 - 1 -> parse_prefix maximum l = Some p ->
  0 <= p <= maximum /\ forallb is_digit l = true.
Proof.
  unfold parse_prefix. intros Hm. destruct (from_chars_all _ l) as [v|] eqn:E; [|discriminate].
  destruct (maximum <? v) eqn:Hv; [discriminate|]. intros [= <-]. b2p. split; [|eapply from_chars_all_digits; exact E].
  split; [|exact Hv]. eapply from_chars_all_nonneg. exact E.
Qed.

Lemma find_absent l c begin_ : c ∉ drop (Z.to_nat begin_) l -> find l c begin_ = None.
Proof. intros Hc. unfold find. rewrite index_of_none by exact Hc. reflexivity. Qed.
Lemma digits_absent l c : forallb is_digit l = true -> is_digit c = false -> c ∉ l.
Proof.
  intros Hl Hc Hin. rewrite forallb_forall in Hl. apply list_elem_of_In, Hl in Hin. congruence.
Qed.

(** The two tests on a prefix length. *)
Lemma default_test p (allow : bool) : (p =? 0) && negb allow = false <-> (p = 0 -> allow = true).
Proof. destruct (Z.eqb_spec p 0), allow; cbn; intuition congruence. Qed.
Lemma u8_prefix p maximum : 0 <= p <= maximum -> maximum <= 255 -> u8 p = p.
Proof. intros. apply u8_id. int_lia. Qed.

Lemma validate_v6 `{IpLibraryLaws} route allow gateway :
  find (string_bytes route) 58 0 <> None ->
  validate_route route allow = Ok route <->
  exists r, parse_route_v6 route gateway = Ok r /\ canonical (RouteV6 r) /\ (r6_prefix_length r = 0 -> allow = true).
Proof.
  intros Hf. unfold validate_route, parse_route_v6. destruct (find (string_bytes route) 58 0) as [colon|]; [|congruence].
  destruct (find (string_bytes route) 47 0) as [slash|]; [|split; [discriminate|intros (? & ? & _); discriminate]].
  rewrite !obind_reject. destruct (_ || _); [split; [discriminate|intros (? & ? & _); discriminate]|].
  destruct (parse_prefix 128 _) as [p|] eqn:Hp; [|split; [discriminate|intros (? & ? & _); discriminate]].
  apply parse_prefix_ok in Hp as [Hp _]; [|discriminate]. rewrite obind_reject.
  unfold parse_ipv6_address. set (address := bytes_string _).
  destruct (make_address_v6 address) as [[network scope]|] eqn:Ha.
  2:{ destruct (_ && _); split; try discriminate; intros (? & ? & _); discriminate. }
  apply ip_v6_array in Ha. rewrite !obind_reject. destruct (negb (scope =? 0)).
  { destruct (_ && _); split; try discriminate; intros (? & ? & _); discriminate. }
  cbn [obind]. rewrite !obind_reject.
  destruct (bool_decide (network = clear_host_bits network p)) eqn:Hc; cbn [negb].
  - b2p. apply (canonical_iff network p Ha Hp) in Hc. split.
    + intros Hv. eexists. split; [reflexivity|]. cbn. rewrite (u8_prefix p 128) by lia. split; [exact Hc|].
      apply default_test. destruct (_ && _); [discriminate|reflexivity].
    + intros (r & <-%ok_inj & _ & Hall). cbn in Hall. rewrite (u8_prefix p 128) in Hall by lia.
      apply default_test in Hall as ->. reflexivity.
  - split; [|intros (? & ? & _); discriminate]. destruct (_ && _); discriminate.
Qed.

Lemma validate_v4 `{IpLibrary} route allow gateway :
  find (string_bytes route) 58 0 = None ->
  validate_route route allow = Ok route <->
  exists r, parse_route route gateway = Ok r /\ canonical (RouteV4 r) /\ (r4_prefix_length r = 0 -> allow = true).
Proof.
  intros Hf. unfold validate_route, parse_route. rewrite Hf.
  destruct (find (string_bytes route) 47 0) as [slash|]; [|split; [discriminate|intros (? & ? & _); discriminate]].
  rewrite !obind_reject. destruct ((slash =? 0) || _); [split; [discriminate|intros (? & ? & _); discriminate]|].
  cbn [orb]. destruct (parse_prefix 32 _) as [p|] eqn:Hp.
  2:{ destruct (find _ 47 (slash + 1)); split; try discriminate; intros (? & ? & _); discriminate. }
  apply parse_prefix_ok in Hp as [Hp Hd]; [|discriminate].
  rewrite find_absent by (eapply digits_absent; [exact Hd|reflexivity]). rewrite obind_reject.
  set (address := bytes_string _). destruct (parse_ipv4_address address) as [network|] eqn:Ha.
  2:{ destruct (_ && _); split; try discriminate; intros (? & ? & _); discriminate. }
  apply parse_ipv4_array in Ha. cbn [obind]. rewrite obind_reject, fold_octets_value by exact Ha.
  pose proof (route_mask_test (to_integer network) p Hp (to_integer_range _ Ha)) as Hm. split.
  - destruct ((p =? 0) && negb allow) eqn:Hdef; [discriminate|].
    destruct (Z.eqb_spec (Z.land (to_integer network) (route_mask p)) (to_integer network)) as [E|]; [|discriminate].
    intros _. eexists. split; [reflexivity|]. cbn. rewrite (u8_prefix p 32) by lia.
    split; [apply Hm, E|apply default_test, Hdef].
  - intros (r & <-%ok_inj & Hc & Hall). cbn in Hc, Hall. rewrite (u8_prefix p 32) in Hc, Hall by lia.
    apply default_test in Hall as ->. rewrite (proj2 (Z.eqb_eq _ _)) by (apply Hm, Hc). reflexivity.
Qed.

Lemma validate_route_text `{IpLibrary} route allow r : validate_route route allow = Ok r -> r = route.
Proof.
  unfold validate_route. destruct (find (string_bytes route) 58 0), (find (string_bytes route) 47 0); try discriminate;
    intros Hv; inv_ok; destruct (parse_prefix _ _); try discriminate; inv_ok.
  - destruct (make_address_v6 _) as [[? ?]|]; [|discriminate]. inv_ok. congruence.
  - congruence.
Qed.

(** What a route text is to the client's network transaction. *)
Definition applies `{IpLibrary} (a : IpAssignment) (allow : bool) (cidr : string) (r : Route) : Prop :=
  parse_any_route a cidr = Ok r /\ canonical r /\ (route_prefix r = 0 -> allow = true).

Lemma validate_route_applies `{IpLibraryLaws} a route allow :
  validate_route route allow = Ok route <-> exists r, applies a allow route r.
Proof.
  unfold applies, parse_any_route. destruct (find (string_bytes route) 58 0) as [colon|] eqn:Hf.
  - rewrite (validate_v6 route allow (gateway_ipv6_address a)) by congruence. split.
    + intros (r & Hr & Hc & Hall). exists (RouteV6 r). rewrite Hr. auto.
    + intros (r & (r6 & Hr & <-%ok_inj)%obind_ok & Hc & Hall). eauto.
  - rewrite (validate_v4 route allow (gateway_address a)) by exact Hf. split.
    + intros (r & Hr & Hc & Hall). exists (RouteV4 r). rewrite Hr. auto.
    + intros (r & (r4 & Hr & <-%ok_inj)%obind_ok & Hc & Hall). eauto.
Qed.

(** A text that the configuration may hold. *)
Definition is_token (maximum_length : Z) (text : string) : Prop :=
  1 <= zlen (string_bytes text) <= maximum_length /\
  Forall (fun byte => 33 <= byte /\ byte <> 127) (string_bytes text).

Section LoadFacts.
Context {T : Type} `{PropertyTree T} `{FileSystem} {IP : IpLibrary}.

(** An accepted configuration. *)
Record config_sound (c : ClientConfig) : Prop := {
  co_host : is_token 253 (cc_server_host c);
  co_name : is_token 253 (cc_expected_server_name c);
  co_port : 1 <= cc_server_port c < 2 ^ 16;
  co_mtu : kMinimumIpv6Mtu <= cc_requested_mtu c <= kMaximumTunnelMtu;
  co_files : is_regular_file (cc_ca_file c) = true /\ is_regular_file (cc_certificate_chain_file c) = true /\
    is_regular_file (cc_private_key_file c) = true;
  co_count : 1 <= zlen (cc_routes c) <= 64;
  co_distinct : NoDup (cc_routes c);
  co_apply a : exists rs, Forall2 (applies a (cc_allow_default_route c)) (cc_routes c) rs;
  co_full : cc_allow_default_route c = true -> "0.0.0.0/0" ∈ cc_routes c \/ "::/0" ∈ cc_routes c ->
    exists is_v6 scope_id, make_address (cc_server_host c) = Some (is_v6, scope_id) /\
      (is_v6 = true -> scope_id = 0)
}.

Lemma require_text_token (tree : T) field n v : require_text tree field n = Ok v -> is_token n v.
Proof.
  unfold require_text. destruct (get_optional tree field) as [text|]; [|discriminate]. intros Hv. inv_ok. subst v. split.
  - split; [|assumption]. destruct text; [congruence|]. cbn [string_bytes]. rewrite zlen_cons.
    pose proof (zlen_nonneg (string_bytes text)). lia.
  - apply Forall_forall. intros byte Hin.
    match goal with E : existsb ?f _ = false |- _ => assert (f byte = false) as Hb end.
    { apply not_true_iff_false. intros Ht. match goal with E : existsb _ _ = false |- _ =>
        apply not_true_iff_false in E; apply E end. apply existsb_exists. exists byte.
      split; [apply list_elem_of_In, Hin|exact Ht]. }
    cbn beta in Hb. unfold iscntrl, isspace in Hb. b2p_all; lia.
Qed.

Lemma require_unsigned_range (tree : T) field lo hi v : require_unsigned tree field lo hi = Ok v -> lo <= v <= hi.
Proof.
  unfold require_unsigned. destruct (get_optional tree field) as [text|]; [|discriminate].
  destruct (from_chars_all _ _) as [n|]; [|discriminate]. intros Hv. inv_ok. subst v. lia.
Qed.

Lemma credential_path_file directory (tls : T) field path :
  credential_path directory tls field = Ok path -> is_regular_file path = true.
Proof. unfold credential_path. intros Hp. inv_ok. subst path. assumption. Qed.

Lemma routes_loop_ok allow seen (entries : list (string * T)) routes :
  routes_loop allow seen entries = Ok routes ->
  zlen routes = zlen entries /\ NoDup routes /\ (forall r, r ∈ routes -> r ∉ seen) /\
  Forall (fun r => validate_route r allow = Ok r) routes.
Proof.
  revert seen routes. induction entries as [|[key child] entries IH]; intros seen routes Hr; cbn [routes_loop] in Hr.
  { apply ok_inj in Hr as <-. split; [reflexivity|]. split; [constructor|]. split; [|constructor].
    intros r []%not_elem_of_nil. }
  apply obind_ok in Hr as ([] & _ & Hr). apply obind_ok in Hr as (route & Hv & Hr).
  apply obind_ok in Hr as ([] & Hs%reject_if_ok & Hr). apply obind_ok in Hr as (rest & Hrest & <-%ok_inj). b2p.
  apply IH in Hrest as (Hlen & Hnd & Hfresh & Hall). pose proof (validate_route_text _ _ _ Hv) as Et. rewrite <- Et in Hv.
  rewrite !zlen_cons, Hlen. split; [reflexivity|]. split; [|split].
  - constructor; [|exact Hnd]. intros Hin. apply (Hfresh _ Hin), elem_of_added. auto.
  - intros r [->|Hin]%elem_of_cons; [exact Hs|]. intros Hr. apply (Hfresh r Hin), elem_of_added. auto.
  - constructor; [|exact Hall]. exact Hv.
Qed.

Lemma routes_apply `{!IpLibraryLaws IP} a allow routes :
  Forall (fun r => validate_route r allow = Ok r) routes -> exists rs, Forall2 (applies a allow) routes rs.
Proof.
  induction 1 as [|route routes Hv _ (rs & IH)]; [exists []; constructor|].
  apply (validate_route_applies a) in Hv as [r Hr]. exists (r :: rs). constructor; assumption.
Qed.

Lemma check_full_tunnel_ok c : check_full_tunnel c = Ok tt ->
  cc_allow_default_route c = true -> "0.0.0.0/0" ∈ cc_routes c \/ "::/0" ∈ cc_routes c ->
  exists is_v6 scope_id, make_address (cc_server_host c) = Some (is_v6, scope_id) /\ (is_v6 = true -> scope_id = 0).
Proof.
  unfold check_full_tunnel. intros Hc Hallow Hin. rewrite Hallow in Hc. cbn [andb] in Hc.
  rewrite (proj2 (orb_true_iff _ _)) in Hc by (rewrite !bool_decide_eq_true; exact Hin).
  apply reject_if_ok in Hc. destruct (make_address (cc_server_host c)) as [[is_v6 scope_id]|]; [|discriminate].
  exists is_v6, scope_id. split; [reflexivity|]. intros ->. cbn in Hc. b2p. assumption.
Qed.

Lemma load_tunnel_sound `{!IpLibraryLaws IP} (tunnel : T) host port name ca chain key c :
  is_token 253 host -> is_token 253 name -> 1 <= port <= 2 ^ 16 - 1 ->
  is_regular_file ca = true -> is_regular_file chain = true -> is_regular_file key = true ->
  load_tunnel tunnel host port name ca chain key = Ok c -> config_sound c.
Proof.
  intros Hhost Hname Hport Hca Hchain Hkey Hl. unfold load_tunnel in Hl.
  apply obind_ok in Hl as (mtu & Hmtu%require_unsigned_range & Hl). apply obind_ok in Hl as (allow & _ & Hl).
  destruct (get_child_optional tunnel "routes") as [routes|]; [|discriminate].
  apply obind_ok in Hl as ([] & Hcount%reject_if_ok & Hl).
  apply obind_ok in Hl as (validated & (Hlen & Hnd & _ & Hall)%routes_loop_ok & Hl).
  apply obind_ok in Hl as ([] & Hfull & <-%ok_inj).
  pose proof (check_full_tunnel_ok _ Hfull) as Hf. cbn in Hf.
  unfold kMinimumIpv6Mtu, kMaximumTunnelMtu in *.
  constructor; cbn; auto.
  - rewrite u16_id by int_lia. lia.
  - rewrite u16_id by int_lia. unfold kMinimumIpv6Mtu, kMaximumTunnelMtu. lia.
  - rewrite Hlen. b2p. split; [|assumption]. destruct (pt_children routes); [congruence|].
    rewrite zlen_cons. pose proof (zlen_nonneg l). lia.
  - intros a. apply routes_apply, Hall.
Qed.
End LoadFacts.

Lemma loaded_config {T} `{PropertyTree T} `{FileSystem} `{IpLibraryLaws} {Sid} `{ClientFiles Sid} config_file :
  opens [] (fun c => config_sound c /\ (client_platform = Windows -> windows_guarded (cc_private_key_file c)))
    (load_client_config config_file).
Proof.
  unfold load_client_config. opens_step. destruct (read_json _) as [root|]; [|opens_step].
  do 15 opens_step. eapply opens_seq; [apply key_check_opens|]. intros [] Hkey. cbn beta in Hkey.
  eapply opens_mono; [apply opens_lift|]. cbn beta. intros c Hl. split.
  - eapply load_tunnel_sound; [..|exact Hl]; eauto using require_text_token, require_unsigned_range, credential_path_file.
  - intros Hw. unfold load_tunnel in Hl. inv_ok. destruct (get_child_optional _ "routes"); [|discriminate].
    inv_ok. subst c. exact (Hkey Hw).
Qed.

(** ** Properties *)

(** C26: the configuration and the network transaction read routes alike.  The
    configuration accepts a text exactly when the transaction parses it, for
    any assignment, to a route whose address has no bit after its prefix, and
    which is a default route only if those are allowed; it keeps the text as it
    is.  So of the texts that it accepts, none fails when the routes are added,
    and of the others the transaction, whose IPv4 parser has no check of the
    host bits, could accept only those two kinds. *)
Theorem route_checks_agree `{IpLibraryLaws} (a : IpAssignment) route allow_default_route :
  (forall r, validate_route route allow_default_route = Ok r -> r = route) /\
  (validate_route route allow_default_route = Ok route <->
   exists r, parse_any_route a route = Ok r /\ canonical r /\ (route_prefix r = 0 -> allow_default_route = true)).
Proof. split; [intros r; apply validate_route_text|apply validate_route_applies]. Qed.

(** C27: what a loaded configuration is.  Whatever the file holds, loading it
    either throws, or gives a configuration whose names are free of spaces and
    control bytes and not too long, whose port and MTU are in range, whose
    credentials are regular files, the private key, on Windows, one that only
    its user, the system and the administrators can read, whose routes are 1
    to 64 different ones that all apply to every assignment.  Its server is a
    numeric address when one of the routes is the text ["0.0.0.0/0"] or
    ["::/0"], and only then: under another spelling of a default route a host
    name is accepted ([default_route_by_another_name]), though
    docs/security/client-configuration.md requires a literal address of every
    full tunnel.  Either way no file is left open. *)
Theorem client_config_sound {T} `{PropertyTree T} `{FileSystem} `{IpLibraryLaws} {Sid} `{ClientFiles Sid} config_file :
  opens [] (fun c => config_sound c /\ (client_platform = Windows -> windows_guarded (cc_private_key_file c)))
    (load_client_config config_file).
Proof. apply loaded_config. Qed.

(** ** Witnesses *)

(** A tree in memory; [read_json] knows one file. *)
Inductive Tree := Node (data : string) (children : list (string * Tree)).
Definition tree_data (t : Tree) : string := match t with Node data _ => data end.
Definition tree_children (t : Tree) : list (string * Tree) := match t with Node _ children => children end.
Definition tree_child (t : Tree) (key : string) : option Tree :=
  snd <$> List.find (fun entry => bool_decide (fst entry = key)) (tree_children t).
Definition leaf (data : string) : Tree := Node data [].

Definition sample_json (host : string) (routes : list string) : Tree :=
  Node "" [("schema_version", leaf "1");
    ("server", Node "" [("host", leaf host); ("port", leaf "8443"); ("expected_name", leaf "vpn.example")]);
    ("tls", Node "" [("ca_file", leaf "ca.pem"); ("certificate_chain_file", leaf "client.pem");
                     ("private_key_file", leaf "client.key")]);
    ("tunnel", Node "" [("requested_mtu", leaf "1400"); ("allow_default_route", leaf "true");
                        ("routes", Node "" (map (fun r => ("", leaf r)) routes))])].
Definition sample_trees (root : Tree) : PropertyTree Tree := {|
  pt_children := tree_children;
  get_child_optional := tree_child;
  get_optional t key := tree_data <$> tree_child t key;
  get_value := tree_data;
  read_json _ := Some root
|}.
Definition sample_directory : FileSystem := {|
  absolute path := path; lexically_normal path := path; parent_path _ := "";
  is_relative _ := true; path_append directory path := directory +:+ path;
  file_size _ := Some 500; is_regular_file _ := true
|}.
(** An IP library that knows the IPv6 default route under two names. *)
Definition two_names : IpLibrary := {|
  make_address_v6 text := if bool_decide (text = "::") || bool_decide (text = "0::") then Some (zeros 16, 0) else None;
  address_v6_to_string _ := "::";
  make_address text := if bool_decide (text = "192.0.2.1") then Some (false, 0) else None
|}.
#[export] Instance two_names_laws : IpLibraryLaws two_names.
Proof.
  intros text a scope E. cbn in E. destruct (_ || _); [|discriminate]. injection E as <- _. decide_prop.
Defined.

Definition load_sample (host : string) (routes : list string) : outcome ClientConfig * Open :=
  @load_client_config _ (sample_trees (sample_json host routes)) sample_directory two_names _ sample_files "client.json" [].

Lemma client_config_sound_witness :
  exists c, load_sample "192.0.2.1" ["10.9.0.0/16"; "::/0"] = (Ok c, []) /\
    @config_sound sample_directory two_names c /\
    load_sample "vpn.example" ["10.9.0.0/16"; "::/0"] = (Throw (InvalidArgument
      "full-tunnel mode requires a numeric server IP to prevent DNS leakage"), []).
Proof.
  pose proof (@client_config_sound _ (sample_trees (sample_json "192.0.2.1" ["10.9.0.0/16"; "::/0"])) sample_directory
    two_names two_names_laws _ sample_files "client.json" []) as Hs.
  change (@load_client_config _ (sample_trees (sample_json "192.0.2.1" ["10.9.0.0/16"; "::/0"])) sample_directory
    two_names _ sample_files "client.json" []) with (load_sample "192.0.2.1" ["10.9.0.0/16"; "::/0"]) in Hs.
  assert (E : exists c, load_sample "192.0.2.1" ["10.9.0.0/16"; "::/0"] = (Ok c, []))
    by (eexists; vm_compute; reflexivity).
  destruct E as [c E]. rewrite E in Hs. exists c. split; [exact E|]. split; [apply Hs|]. vm_compute. reflexivity.
Defined.

Lemma route_checks_agree_witness :
  @validate_route two_names "10.9.0.0/16" false = Ok "10.9.0.0/16" /\
  @validate_route two_names "::/0" false = Throw (InvalidArgument
    "a default route requires tunnel.allow_default_route=true") /\
  @parse_any_route two_names sample_assignment "10.9.0.1/16" =
    Ok (RouteV4 (mkIpv4Route [10; 9; 0; 1] 16 [10; 8; 0; 1])) /\
  @validate_route two_names "10.9.0.1/16" true <> Ok "10.9.0.1/16".
Proof.
  pose proof (@route_checks_agree two_names two_names_laws sample_assignment "10.9.0.0/16" false) as [_ H1].
  pose proof (@route_checks_agree two_names two_names_laws sample_assignment "10.9.0.1/16" true) as [_ H2].
  split.
  { apply H1. exists (RouteV4 (mkIpv4Route [10; 9; 0; 0] 16 [10; 8; 0; 1])).
    split; [vm_compute; reflexivity|]. split; [vm_compute; reflexivity|discriminate]. }
  split; [vm_compute; reflexivity|].
  assert (E : @parse_any_route two_names sample_assignment "10.9.0.1/16" =
    Ok (RouteV4 (mkIpv4Route [10; 9; 0; 1] 16 [10; 8; 0; 1]))) by (vm_compute; reflexivity).
  split; [exact E|]. intros Hv. apply H2 in Hv as (r & Hr & Hc & _). rewrite E in Hr. apply ok_inj in Hr as <-.
  vm_compute in Hc. discriminate.
Defined.

(** A default route under another name passes with a server that has to be
    looked up: the check of the full tunnel compares texts. *)
Example default_route_by_another_name : exists c,
  load_sample "vpn.example" ["0::/0"] = (Ok c, []) /\
  @parse_any_route two_names sample_assignment "0::/0" =
  @parse_any_route two_names sample_assignment "::/0".
Proof. eexists. split; [vm_compute; reflexivity|]. vm_compute. reflexivity. Qed.
