(* ===== verification/TlsContext.v ===== *)
(** * TLS contexts

    Models [make_server_tls_context], [peer_certificate_sha256] and
    [certificate_file_sha256] of src/server/tls_security.cpp (its Unix branch)
    and src/client/client_tls_security.cpp.  OpenSSL is an interface: what its
    calls answer is a parameter, and [OpenSslLaws] states what they document
    to do to the contexts, BIOs, keys and certificates that exist. *)
From S2P Require Import Prelude Address KeyFiles ClientConfig.

(** ** OpenSSL *)

(** Constants of its headers and of Boost's wrapper. *)
Definition default_workarounds : Z := 0x80000850.
Definition no_sslv2 : Z := 0.
Definition no_sslv3 : Z := 0x02000000.
Definition no_tlsv1 : Z := 0x04000000.
Definition no_tlsv1_1 : Z := 0x10000000.
Definition verify_peer : Z := 1.
Definition verify_fail_if_no_peer_cert : Z := 2.
Definition TLS1_2_VERSION : Z := 0x0303.
Definition X509_V_OK : Z := 0.
Definition X509_V_FLAG_CRL_CHECK : Z := 0x4.
Definition X509_V_FLAG_CRL_CHECK_ALL : Z := 0x8.

Inductive TlsMethod := tls_server | tls_client.

(** [W] is the world the calls act on.  A handle is a [Z], 0 a null pointer;
    the calls of Boost's context that can throw answer an error code, 0 for
    none; the others answer what OpenSSL's functions return. *)
Class OpenSsl (W : Type) := {
  ERR_get_error : W -> Z * W;
  ERR_error_string_n : Z -> Z -> string;   (* of the code, for a buffer of that size *)
  new_context : TlsMethod -> W -> (Z * Z) * W;   (* error code, context *)
  free_context : Z -> W -> W;
  set_options : Z -> Z -> W -> W;
  use_certificate_chain_file : Z -> string -> W -> Z * W;
  load_verify_file : Z -> string -> W -> Z * W;
  set_verify_mode : Z -> Z -> W -> W;
  set_verify_callback : Z -> string -> W -> W;   (* host_name_verification(name) *)
  BIO_new_mem_buf : bytes -> W -> Z * W;
  BIO_free : Z -> W -> W;
  PEM_read_bio_PrivateKey : Z -> W -> Z * W;
  EVP_PKEY_free : Z -> W -> W;
  SSL_CTX_use_PrivateKey : Z -> Z -> W -> Z * W;
  SSL_CTX_get_cert_store : Z -> W -> Z;
  X509_STORE_add_lookup : Z -> W -> Z * W;   (* with X509_LOOKUP_file() *)
  X509_load_crl_file : Z -> string -> W -> Z * W;   (* X509_FILETYPE_PEM *)
  X509_STORE_set_flags : Z -> Z -> W -> Z * W;
  SSL_CTX_check_private_key : Z -> W -> Z;
  SSL_CTX_set_min_proto_version : Z -> Z -> W -> Z * W;
  SSL_CTX_set_cipher_list : Z -> string -> W -> Z * W;
  SSL_CTX_set_ciphersuites : Z -> string -> W -> Z * W;
  SSL_get_verify_result : Z -> W -> Z;
  SSL_get1_peer_certificate : Z -> W -> Z * W;
  PEM_read_X509 : string -> W -> Z * W;   (* of the file with that name *)
  X509_digest : Z -> W -> (Z * bytes) * W;   (* with EVP_sha256() *)
  X509_free : Z -> W -> W;
  SSL_set_tlsext_host_name : Z -> string -> W -> Z * W
}.

(** ** The operations *)

(** The world and what else is open: the stream of the key's file and the
    buffer its bytes are in.  [PrivateKeyBuffer] and [SensitiveBuffer] clear
    the bytes when they end, so a buffer given back is one that was cleared. *)
Record Tls (W : Type) := mkTls { tls_world : W; tls_open : Open }.
Arguments mkTls {W}.
Arguments tls_world {W}.
Arguments tls_open {W}.

Record ServerTlsConfig := mkServerTls {
  certificate_chain_file : string;
  private_key_file : string;
  client_ca_file : string;
  client_crl_file : string
}.
Record ClientTlsConfig := mkClientTls {
  ca_file : string;
  ct_certificate_chain_file : string;
  ct_private_key_file : string;
  ct_expected_server_name : string
}.

(** The second [make_client_tls_context]. *)
Definition client_tls_config (config : ClientConfig) : ClientTlsConfig :=
  mkClientTls (cc_ca_file config) (cc_certificate_chain_file config) (cc_private_key_file config)
    (cc_expected_server_name config).

(** The two lists of suites, the same in both programs. *)
Definition tls12_ciphers : string :=
  "ECDHE-ECDSA-AES256-GCM-SHA384:" +:+ "ECDHE-RSA-AES256-GCM-SHA384:" +:+
  "ECDHE-ECDSA-CHACHA20-POLY1305:" +:+ "ECDHE-RSA-CHACHA20-POLY1305:" +:+
  "ECDHE-ECDSA-AES128-GCM-SHA256:" +:+ "ECDHE-RSA-AES128-GCM-SHA256".
Definition tls13_ciphersuites : string :=
  "TLS_AES_256_GCM_SHA384:" +:+ "TLS_CHACHA20_POLY1305_SHA256:" +:+ "TLS_AES_128_GCM_SHA256".

Definition hex : list string :=
  ["0"; "1"; "2"; "3"; "4"; "5"; "6"; "7"; "8"; "9"; "a"; "b"; "c"; "d"; "e"; "f"].
Definition hex_digit (n : Z) : string := nth (Z.to_nat (Z.land n 0x0F)) hex "".
(** The loop of [certificate_sha256]. *)
Fixpoint hex_digits (digest : bytes) : string :=
  match digest with
  | [] => ""
  | b :: rest => hex_digit (Z.shiftr b 4) +:+ hex_digit b +:+ hex_digits rest
  end.

Section Contexts.
Context {W : Type} `{OpenSsl W}.

Definition call {A} (f : W -> A * W) : M (Tls W) A := fun s =>
  let '(a, w) := f (tls_world s) in (Ok a, mkTls w (tls_open s)).
Definition do_call (f : W -> W) : M (Tls W) unit := modify (fun s => mkTls (f (tls_world s)) (tls_open s)).
(** An operation on what is open. *)
Definition on_open {A} (m : M Open A) : M (Tls W) A := fun s =>
  let '(r, o) := m (tls_open s) in (r, mkTls (tls_world s) o).
(** The scope of a [std::unique_ptr] over a handle that is not null. *)
Definition owned {A} (free : W -> W) (m : M (Tls W) A) : M (Tls W) A := fun s =>
  let '(r, s') := m s in (r, mkTls (free (tls_world s')) (tls_open s')).
(** The scope of a context that is returned at its end. *)
Definition released {A} (free : W -> W) (m : M (Tls W) A) : M (Tls W) A := fun s =>
  match m s with
  | (Ok a, s') => (Ok a, s')
  | (Throw e, s') => (Throw e, mkTls (free (tls_world s')) (tls_open s'))
  end.
(** The scope of a stream or a buffer. *)
Definition held {A} (r : Resource) (m : M (Tls W) A) : M (Tls W) A := fun s =>
  let '(o, s') := m (mkTls (tls_world s) (r :: tls_open s)) in
  (o, mkTls (tls_world s') (give_back r (tls_open s'))).
(** The scope of a stream that is open already. *)
Definition kept {A} (r : Resource) (m : M (Tls W) A) : M (Tls W) A := fun s =>
  let '(o, s') := m s in (o, mkTls (tls_world s') (give_back r (tls_open s'))).

(** [openssl_error], thrown. *)
Definition throw_openssl_error {A} (prefix : string) : M (Tls W) A :=
  let* code := call ERR_get_error in
  throw (RuntimeError (if code =? 0 then prefix else prefix +:+ ": " +:+ ERR_error_string_n code 256)).
(** [if (!ok) throw std::runtime_error(openssl_error(prefix))] *)
Definition require (ok : bool) (prefix : string) : M (Tls W) unit :=
  if ok then ret tt else throw_openssl_error prefix.
(** A call of Boost's context that throws on an error. *)
Definition boost (f : W -> Z * W) (what : string) : M (Tls W) unit :=
  let* code := call f in
  if negb (code =? 0) then throw (SystemError code what) else ret tt.

(** What both programs end with, once the verification is set. *)
Definition restrict_protocols (context : Z) (mismatch : string) : M (Tls W) unit :=
  let* s := get in
  let* _ := require (SSL_CTX_check_private_key context (tls_world s) =? 1) mismatch in
  let* r := call (SSL_CTX_set_min_proto_version context TLS1_2_VERSION) in
  let* _ := require (r =? 1) "failed to set minimum TLS version" in
  let* r := call (SSL_CTX_set_cipher_list context tls12_ciphers) in
  let* _ := require (r =? 1) "failed to configure TLS 1.2 cipher suites" in
  let* r := call (SSL_CTX_set_ciphersuites context tls13_ciphersuites) in
  require (r =? 1) "failed to configure TLS 1.3 cipher suites".

(** The key, from the bytes of its file; [rest] is what the function goes on
    to do before the BIO and the key are given back. *)
Definition use_private_key (context : Z) (key : bytes) (no_bio no_key not_used : string)
    (rest : M (Tls W) Z) : M (Tls W) Z :=
  let* key_bio := call (BIO_new_mem_buf key) in
  let* _ := require (negb (key_bio =? 0)) no_bio in
  owned (BIO_free key_bio)
  (let* private_key := call (PEM_read_bio_PrivateKey key_bio) in
   let* _ := require (negb (private_key =? 0)) no_key in
   owned (EVP_PKEY_free private_key)
   (let* r := call (SSL_CTX_use_PrivateKey context private_key) in
    let* _ := require (r =? 1) not_used in
    rest)).

Definition disabled_protocols : Z :=
  Z.lor (Z.lor (Z.lor (Z.lor default_workarounds no_sslv2) no_sslv3) no_tlsv1) no_tlsv1_1.

(** The client's revocation lists, when there are any. *)
Definition check_revocations (context : Z) (crl : string) : M (Tls W) unit :=
  if bool_decide (crl = "") then ret tt
  else
    let* s := get in
    let store := SSL_CTX_get_cert_store context (tls_world s) in
    let* lookup := call (X509_STORE_add_lookup store) in
    let* _ := (if lookup =? 0 then throw_openssl_error "failed to load client certificate CRL"
               else
                 let* r := call (X509_load_crl_file lookup crl) in
                 require (r =? 1) "failed to load client certificate CRL") in
    let* r := call (X509_STORE_set_flags store (Z.lor X509_V_FLAG_CRL_CHECK X509_V_FLAG_CRL_CHECK_ALL)) in
    require (r =? 1) "failed to enable client CRL checking".

Section Server.
Context `{PosixFiles} {F : Type} `{InputStream F} (stream : string -> F).

Definition make_server_tls_context (config : ServerTlsConfig) : M (Tls W) Z :=
  let* _ := lift (reject_if (bool_decide (certificate_chain_file config = "") ||
      bool_decide (private_key_file config = "") || bool_decide (client_ca_file config = ""))
    (InvalidArgument "server TLS credential paths must not be empty")) in
  let* (code, context) := call (new_context tls_server) in
  if negb (code =? 0) then throw (SystemError code "context")
  else
    released (free_context context)
    (let* _ := do_call (set_options context disabled_protocols) in
     let* _ := boost (use_certificate_chain_file context (certificate_chain_file config)) "use_certificate_chain_file" in
     let* _ := on_open (open_validated_server_private_key (private_key_file config)) in
     kept ResStream (held ResBuffer
     (let* key := lift (read_server_key (stream (private_key_file config))) in
      use_private_key context key "failed to buffer server private key" "failed to parse server private key"
        "failed to load server private key"
      (let* _ := boost (load_verify_file context (client_ca_file config)) "load_verify_file" in
       let* _ := do_call (set_verify_mode context (Z.lor verify_peer verify_fail_if_no_peer_cert)) in
       let* _ := check_revocations context (client_crl_file config) in
       let* _ := restrict_protocols context "server private key does not match certificate" in
       ret context)))).
End Server.

Section Client.
Context {Sid : Type} `{ClientFiles Sid} {F : Type} `{InputStream F} (stream : string -> F).

(** [None] when the loop that reads the key runs out of fuel. *)
Definition make_client_tls_context (fuel : nat) (config : ClientTlsConfig) : M (Tls W) (option Z) :=
  let* _ := lift (reject_if (bool_decide (ca_file config = "") || bool_decide (ct_certificate_chain_file config = "") ||
      bool_decide (ct_private_key_file config = "") || bool_decide (ct_expected_server_name config = ""))
    (InvalidArgument "client TLS credential paths and server name must not be empty")) in
  let* (code, context) := call (new_context tls_client) in
  if negb (code =? 0) then throw (SystemError code "context")
  else
    released (free_context context)
    (let* _ := do_call (set_options context disabled_protocols) in
     let* _ := boost (load_verify_file context (ca_file config)) "load_verify_file" in
     let* _ := boost (use_certificate_chain_file context (ct_certificate_chain_file config)) "use_certificate_chain_file" in
     let* _ := on_open (open_validated_private_key_file (ct_private_key_file config)) in
     kept ResStream (held ResBuffer
     (match read_client_key fuel (stream (ct_private_key_file config)) with
      | None => ret None
      | Some (Throw e) => throw e
      | Some (Ok key) =>
          let* context := use_private_key context key "failed to create private-key memory BIO"
            "failed to parse client private key" "failed to load client private key"
          (let* _ := do_call (set_verify_mode context verify_peer) in
           let* _ := do_call (set_verify_callback context (ct_expected_server_name config)) in
           let* _ := restrict_protocols context "client private key does not match certificate" in
           ret context) in
          ret (Some context)
      end))).
End Client.

(** The name is sent only when it is not the text of an address. *)
Definition configure_client_sni `{IpLibrary} (ssl_handle : Z) (expected_server_name : string) : M (Tls W) unit :=
  let* _ := lift (reject_if ((ssl_handle =? 0) || bool_decide (expected_server_name = ""))
    (InvalidArgument "SSL handle and expected server name must be provided")) in
  match make_address expected_server_name with
  | Some _ => ret tt
  | None =>
      let* r := call (SSL_set_tlsext_host_name ssl_handle expected_server_name) in
      require (r =? 1) "failed to configure TLS server name indication"
  end.

(** ** Certificate identities *)

Definition certificate_sha256 (certificate : Z) : M (Tls W) string :=
  if certificate =? 0 then throw (RuntimeError "peer did not provide an X.509 certificate")
  else
    let* (r, digest) := call (X509_digest certificate) in
    let* _ := require (r =? 1) "failed to calculate certificate fingerprint" in
    ret ("sha256:" +:+ hex_digits digest).

(** The certificate is owned; a null one is not freed. *)
Definition with_certificate (certificate : Z) (m : M (Tls W) string) : M (Tls W) string :=
  if certificate =? 0 then m else owned (X509_free certificate) m.

Definition peer_certificate_sha256 (ssl_handle : Z) : M (Tls W) string :=
  let* _ := lift (reject_if (ssl_handle =? 0) (InvalidArgument "SSL handle must not be null")) in
  let* s := get in
  let* _ := lift (reject_if (negb (SSL_get_verify_result ssl_handle (tls_world s) =? X509_V_OK))
    (RuntimeError "peer certificate verification did not succeed")) in
  let* certificate := call (SSL_get1_peer_certificate ssl_handle) in
  with_certificate certificate (certificate_sha256 certificate).

Definition certificate_file_sha256 (can_open : string -> bool) (certificate_file : string) : M (Tls W) string :=
  let* _ := lift (reject_if (negb (can_open certificate_file))
    (RuntimeError ("failed to open certificate file: " +:+ certificate_file))) in
  held ResStream
  (let* certificate := call (PEM_read_X509 certificate_file) in
   let* _ := require (negb (certificate =? 0)) "failed to parse certificate file" in
   with_certificate certificate (certificate_sha256 certificate)).
End Contexts.

(** ** What OpenSSL documents *)

(** The settings of a context.  The key is the PEM text that it was read from. *)
Record Settings := mkSettings {
  st_method : TlsMethod;
  st_options : Z;
  st_chain : option string;
  st_key : option bytes;
  st_verify_mode : Z;
  st_host_name : option string;
  st_authorities : list string;
  st_revocations : list string;
  st_store_flags : Z;
  st_min_version : Z;
  st_cipher_list : option string;
  st_ciphersuites : option string
}.
Definition add_options (x : Z) (t : Settings) : Settings :=
  mkSettings (st_method t) (Z.lor (st_options t) x) (st_chain t) (st_key t) (st_verify_mode t) (st_host_name t)
    (st_authorities t) (st_revocations t) (st_store_flags t) (st_min_version t) (st_cipher_list t) (st_ciphersuites t).
Definition put_chain (x : string) (t : Settings) : Settings :=
  mkSettings (st_method t) (st_options t) (Some x) (st_key t) (st_verify_mode t) (st_host_name t)
    (st_authorities t) (st_revocations t) (st_store_flags t) (st_min_version t) (st_cipher_list t) (st_ciphersuites t).
Definition put_key (x : option bytes) (t : Settings) : Settings :=
  mkSettings (st_method t) (st_options t) (st_chain t) x (st_verify_mode t) (st_host_name t)
    (st_authorities t) (st_revocations t) (st_store_flags t) (st_min_version t) (st_cipher_list t) (st_ciphersuites t).
Definition put_verify_mode (x : Z) (t : Settings) : Settings :=
  mkSettings (st_method t) (st_options t) (st_chain t) (st_key t) x (st_host_name t)
    (st_authorities t) (st_revocations t) (st_store_flags t) (st_min_version t) (st_cipher_list t) (st_ciphersuites t).
Definition put_host_name (x : string) (t : Settings) : Settings :=
  mkSettings (st_method t) (st_options t) (st_chain t) (st_key t) (st_verify_mode t) (Some x)
    (st_authorities t) (st_revocations t) (st_store_flags t) (st_min_version t) (st_cipher_list t) (st_ciphersuites t).
Definition add_authority (x : string) (t : Settings) : Settings :=
  mkSettings (st_method t) (st_options t) (st_chain t) (st_key t) (st_verify_mode t) (st_host_name t)
    (x :: st_authorities t) (st_revocations t) (st_store_flags t) (st_min_version t) (st_cipher_list t) (st_ciphersuites t).
Definition add_revocations (x : string) (t : Settings) : Settings :=
  mkSettings (st_method t) (st_options t) (st_chain t) (st_key t) (st_verify_mode t) (st_host_name t)
    (st_authorities t) (x :: st_revocations t) (st_store_flags t) (st_min_version t) (st_cipher_list t) (st_ciphersuites t).
Definition add_store_flags (x : Z) (t : Settings) : Settings :=
  mkSettings (st_method t) (st_options t) (st_chain t) (st_key t) (st_verify_mode t) (st_host_name t)
    (st_authorities t) (st_revocations t) (Z.lor (st_store_flags t) x) (st_min_version t) (st_cipher_list t) (st_ciphersuites t).
Definition put_min_version (x : Z) (t : Settings) : Settings :=
  mkSettings (st_method t) (st_options t) (st_chain t) (st_key t) (st_verify_mode t) (st_host_name t)
    (st_authorities t) (st_revocations t) (st_store_flags t) x (st_cipher_list t) (st_ciphersuites t).
Definition put_cipher_list (x : string) (t : Settings) : Settings :=
  mkSettings (st_method t) (st_options t) (st_chain t) (st_key t) (st_verify_mode t) (st_host_name t)
    (st_authorities t) (st_revocations t) (st_store_flags t) (st_min_version t) (Some x) (st_ciphersuites t).
Definition put_ciphersuites (x : string) (t : Settings) : Settings :=
  mkSettings (st_method t) (st_options t) (st_chain t) (st_key t) (st_verify_mode t) (st_host_name t)
    (st_authorities t) (st_revocations t) (st_store_flags t) (st_min_version t) (st_cipher_list t) (Some x).

(** What exists: the contexts, what the BIOs were made over, the keys with the text they
    come from and the certificates. *)
Record Objects := mkObjects {
  ob_contexts : gmap Z Settings;
  ob_bios : gmap Z bytes;
  ob_keys : gmap Z bytes;
  ob_certificates : gmap Z bytes
}.
Definition with_contexts (x : gmap Z Settings) (o : Objects) : Objects :=
  mkObjects x (ob_bios o) (ob_keys o) (ob_certificates o).
Definition with_bios (x : gmap Z bytes) (o : Objects) : Objects :=
  mkObjects (ob_contexts o) x (ob_keys o) (ob_certificates o).
Definition with_keys (x : gmap Z bytes) (o : Objects) : Objects :=
  mkObjects (ob_contexts o) (ob_bios o) x (ob_certificates o).
Definition with_certificates (x : gmap Z bytes) (o : Objects) : Objects :=
  mkObjects (ob_contexts o) (ob_bios o) (ob_keys o) x.
(** A change of one context; there is none without the context. *)
Definition on_context (context : Z) (f : Settings -> Settings) (o : Objects) : Objects :=
  with_contexts (alter f context (ob_contexts o)) o.
(** A call on a context that succeeds when [ok]; what a failed one leaves of
    that context is not documented. *)
Definition changed (c : Z) (ok : bool) (f : Settings -> Settings) (o o' : Objects) : Prop :=
  if ok then o' = on_context c f o else exists g, o' = on_context c g o.

(** [sha256] is the digest that [EVP_sha256] names. *)
Class OpenSslLaws (W : Type) `{OpenSsl W} := {
  objects : W -> Objects;
  store_context : W -> Z -> option Z;    (* the context of a certificate store *)
  lookup_context : W -> Z -> option Z;   (* and of a lookup added to one *)
  peer_certificate : W -> Z -> option bytes;   (* what the peer of a connection presented *)
  file_certificate : string -> option bytes;   (* what a PEM file holds *)
  sha256 : bytes -> bytes;
  sha256_bytes der : is_bytes (sha256 der) /\ zlen (sha256 der) = 32;
  law_get_error w : objects (ERR_get_error w).2 = objects w;
  law_new_context m w : match new_context m w with
    | ((0, c), w') => exists t, ob_contexts (objects w) !! c = None /\ st_method t = m /\ st_authorities t = [] /\
        st_revocations t = [] /\ st_chain t = None /\ st_key t = None /\
        objects w' = with_contexts (<[c := t]> (ob_contexts (objects w))) (objects w)
    | (_, w') => objects w' = objects w
    end;
  law_free_context c w : objects (free_context c w) = with_contexts (delete c (ob_contexts (objects w))) (objects w);
  law_options c x w : objects (set_options c x w) = on_context c (add_options x) (objects w);
  law_chain c f w : let '(r, w') := use_certificate_chain_file c f w in changed c (r =? 0) (put_chain f) (objects w) (objects w');
  law_verify_file c f w : let '(r, w') := load_verify_file c f w in changed c (r =? 0) (add_authority f) (objects w) (objects w');
  law_verify_mode c x w : objects (set_verify_mode c x w) = on_context c (put_verify_mode x) (objects w);
  law_verify_callback c x w : objects (set_verify_callback c x w) = on_context c (put_host_name x) (objects w);
  law_bio data w : let '(b, w') := BIO_new_mem_buf data w in
    if b =? 0 then objects w' = objects w
    else ob_bios (objects w) !! b = None /\
         objects w' = with_bios (<[b := data]> (ob_bios (objects w))) (objects w);
  law_bio_free b w : objects (BIO_free b w) = with_bios (delete b (ob_bios (objects w))) (objects w);
  law_read_key b w : let '(k, w') := PEM_read_bio_PrivateKey b w in
    if k =? 0 then objects w' = objects w
    else exists data, ob_bios (objects w) !! b = Some data /\ ob_keys (objects w) !! k = None /\
         objects w' = with_keys (<[k := data]> (ob_keys (objects w))) (objects w);
  law_key_free k w : objects (EVP_PKEY_free k w) = with_keys (delete k (ob_keys (objects w))) (objects w);
  law_use_key c k w : let '(r, w') := SSL_CTX_use_PrivateKey c k w in
    changed c (r =? 1) (put_key (ob_keys (objects w) !! k)) (objects w) (objects w');
  law_store c w : ob_contexts (objects w) !! c <> None -> store_context w (SSL_CTX_get_cert_store c w) = Some c;
  law_lookup s w : let '(l, w') := X509_STORE_add_lookup s w in
    objects w' = objects w /\ store_context w' = store_context w /\
    (l <> 0 -> lookup_context w' l = store_context w s);
  law_crl l f w : let '(r, w') := X509_load_crl_file l f w in
    store_context w' = store_context w /\
    forall c, lookup_context w l = Some c -> changed c (r =? 1) (add_revocations f) (objects w) (objects w');
  law_flags s x w : let '(r, w') := X509_STORE_set_flags s x w in
    forall c, store_context w s = Some c -> changed c (r =? 1) (add_store_flags x) (objects w) (objects w');
  law_min_version c x w : let '(r, w') := SSL_CTX_set_min_proto_version c x w in
    changed c (r =? 1) (put_min_version x) (objects w) (objects w');
  law_cipher_list c x w : let '(r, w') := SSL_CTX_set_cipher_list c x w in
    changed c (r =? 1) (put_cipher_list x) (objects w) (objects w');
  law_ciphersuites c x w : let '(r, w') := SSL_CTX_set_ciphersuites c x w in
    changed c (r =? 1) (put_ciphersuites x) (objects w) (objects w');
  law_peer ssl w : let '(x, w') := SSL_get1_peer_certificate ssl w in
    if x =? 0 then objects w' = objects w /\ peer_certificate w ssl = None
    else exists der, peer_certificate w ssl = Some der /\ ob_certificates (objects w) !! x = None /\
         objects w' = with_certificates (<[x := der]> (ob_certificates (objects w))) (objects w);
  law_read_certificate f w : let '(x, w') := PEM_read_X509 f w in
    if x =? 0 then objects w' = objects w
    else exists der, file_certificate f = Some der /\ ob_certificates (objects w) !! x = None /\
         objects w' = with_certificates (<[x := der]> (ob_certificates (objects w))) (objects w);
  law_digest x w : let '((r, d), w') := X509_digest x w in
    objects w' = objects w /\
    (r = 1 -> exists der, ob_certificates (objects w) !! x = Some der /\ d = sha256 der);
  law_certificate_free x w : objects (X509_free x w) =
    with_certificates (delete x (ob_certificates (objects w))) (objects w)
}.

(** ** Specification *)

(** Every suite of the lists agrees on a fresh key (the suites of TLS 1.3 all
    do) and is authenticated encryption. *)
Definition forward_secret (suite : string) : bool :=
  String.prefix "ECDHE-" suite || String.prefix "TLS_" suite.
Fixpoint contains (s text : string) : bool :=
  String.prefix s text || match text with EmptyString => false | String _ rest => contains s rest end.
Definition authenticated (suite : string) : bool := contains "GCM" suite || contains "POLY1305" suite.
Fixpoint split_at (separator : Ascii.ascii) (current text : string) : list string :=
  match text with
  | EmptyString => [current]
  | String c rest =>
      if Ascii.eqb c separator then current :: split_at separator "" rest
      else split_at separator (current +:+ String c EmptyString) rest
  end.
Definition suites (text : string) : list string := split_at (Ascii.ascii_of_N 58) "" text.
Definition modern (text : string) : Prop := Forall (fun s => forward_secret s && authenticated s = true) (suites text).

(** What the two contexts have in common. *)
Record hardened (t : Settings) : Prop := {
  hd_protocols : forall x, x ∈ [no_sslv3; no_tlsv1; no_tlsv1_1] -> Z.land (st_options t) x = x;
  hd_min_version : st_min_version t = TLS1_2_VERSION;
  hd_cipher_list : exists l, st_cipher_list t = Some l /\ modern l;
  hd_ciphersuites : exists l, st_ciphersuites t = Some l /\ modern l
}.

(** A server's context asks every client for a certificate of the one
    authority and refuses those without or, given a list, those revoked. *)
Record server_settings (config : ServerTlsConfig) (key : bytes) (t : Settings) : Prop := {
  ss_method : st_method t = tls_server;
  ss_hardened : hardened t;
  ss_chain : st_chain t = Some (certificate_chain_file config);
  ss_key : st_key t = Some key;
  ss_verify : st_verify_mode t = Z.lor verify_peer verify_fail_if_no_peer_cert;
  ss_authorities : st_authorities t = [client_ca_file config];
  ss_revocations : if decide (client_crl_file config = "") then st_revocations t = []
    else st_revocations t = [client_crl_file config] /\
         Z.testbit (st_store_flags t) 2 = true /\ Z.testbit (st_store_flags t) 3 = true
}.
(** A client's context checks the server's certificate and its name. *)
Record client_settings (config : ClientTlsConfig) (key : bytes) (t : Settings) : Prop := {
  cs_method : st_method t = tls_client;
  cs_hardened : hardened t;
  cs_chain : st_chain t = Some (ct_certificate_chain_file config);
  cs_key : st_key t = Some key;
  cs_verify : st_verify_mode t = verify_peer;
  cs_host_name : st_host_name t = Some (ct_expected_server_name config);
  cs_authorities : st_authorities t = [ca_file config]
}.

(** A new context, with nothing else changed. *)
Definition context_created (good : Settings -> Prop) (o : Objects) (c : Z) (o' : Objects) : Prop :=
  exists t, ob_contexts o !! c = None /\ good t /\ o' = with_contexts (<[c := t]> (ob_contexts o)) o.

(** The digits of an identity, read back. *)
Definition hex_value (c : Ascii.ascii) : option Z :=
  let n := Z.of_N (Ascii.N_of_ascii c) in
  if (48 <=? n) && (n <=? 57) then Some (n - 48)
  else if (97 <=? n) && (n <=? 102) then Some (n - 87) else None.
Fixpoint read_hex (s : string) : option bytes :=
  match s with
  | EmptyString => Some []
  | String a (String b rest) =>
      match hex_value a, hex_value b, read_hex rest with
      | Some h, Some l, Some d => Some (h * 16 + l :: d)
      | _, _, _ => None
      end
  | String _ EmptyString => None
  end.

(** What a context is made of. *)
Record Credentials := mkCredentials {
  cr_method : TlsMethod;
  cr_chain : string;
  cr_authority : string;
  cr_key : bytes;      (* the text of the private key *)
  cr_crl : string      (* empty for none *)
}.

(** The library can make a context of these credentials: it loads these files,
    parses this key, which goes with this chain, and knows the protocols and
    suites asked for.  Nothing is said of other files, keys or contexts, so a
    library with finitely many files and keys satisfies it. *)
Record works (W : Type) `{OpenSslLaws W} (cr : Credentials) : Prop := {
  wk_new w : (new_context (cr_method cr) w).1.1 = 0;
  wk_chain c t w : ob_contexts (objects w) !! c = Some t -> (use_certificate_chain_file c (cr_chain cr) w).1 = 0;
  wk_verify_file c t w : ob_contexts (objects w) !! c = Some t -> (load_verify_file c (cr_authority cr) w).1 = 0;
  wk_bio w : (BIO_new_mem_buf (cr_key cr) w).1 <> 0;
  wk_read_key b w : ob_bios (objects w) !! b = Some (cr_key cr) -> (PEM_read_bio_PrivateKey b w).1 <> 0;
  wk_use_key c t k w : ob_contexts (objects w) !! c = Some t -> st_chain t = Some (cr_chain cr) ->
    ob_keys (objects w) !! k = Some (cr_key cr) -> (SSL_CTX_use_PrivateKey c k w).1 = 1;
  wk_lookup c s w : cr_crl cr <> "" -> store_context w s = Some c -> (X509_STORE_add_lookup s w).1 <> 0;
  wk_crl c l w : cr_crl cr <> "" -> lookup_context w l = Some c -> (X509_load_crl_file l (cr_crl cr) w).1 = 1;
  wk_flags c s w : cr_crl cr <> "" -> store_context w s = Some c ->
    (X509_STORE_set_flags s (Z.lor X509_V_FLAG_CRL_CHECK X509_V_FLAG_CRL_CHECK_ALL) w).1 = 1;
  wk_check c t w : ob_contexts (objects w) !! c = Some t -> st_chain t = Some (cr_chain cr) ->
    st_key t = Some (cr_key cr) -> SSL_CTX_check_private_key c w = 1;
  wk_min_version c t w : ob_contexts (objects w) !! c = Some t ->
    (SSL_CTX_set_min_proto_version c TLS1_2_VERSION w).1 = 1;
  wk_cipher_list c t w : ob_contexts (objects w) !! c = Some t -> (SSL_CTX_set_cipher_list c tls12_ciphers w).1 = 1;
  wk_ciphersuites c t w : ob_contexts (objects w) !! c = Some t ->
    (SSL_CTX_set_ciphersuites c tls13_ciphersuites w).1 = 1
}.

(** Why a context is not made. *)
Definition server_credentials {F} `{InputStreamLaws F} (stream : string -> F) (config : ServerTlsConfig) : Credentials :=
  mkCredentials tls_server (certificate_chain_file config) (client_ca_file config)
    (contents (stream (private_key_file config))) (client_crl_file config).
Definition client_credentials {F} `{InputStreamLaws F} (stream : string -> F) (config : ClientTlsConfig) : Credentials :=
  mkCredentials tls_client (ct_certificate_chain_file config) (ca_file config)
    (contents (stream (ct_private_key_file config))) "".
Definition server_refuses (W : Type) `{OpenSslLaws W} `{PosixFiles} {F} `{InputStreamLaws F} (stream : string -> F)
    (config : ServerTlsConfig) : Prop :=
  certificate_chain_file config = "" \/ private_key_file config = "" \/ client_ca_file config = "" \/
  ~ works W (server_credentials stream config) \/
  (exists o, is_ok (open_validated_server_private_key (private_key_file config) o).1 = false) \/
  is_ok (read_server_key (stream (private_key_file config))) = false.
Definition client_refuses (W : Type) `{OpenSslLaws W} {Sid} `{ClientFiles Sid} {F} `{InputStreamLaws F} (stream : string -> F)
    (config : ClientTlsConfig) : Prop :=
  ca_file config = "" \/ ct_certificate_chain_file config = "" \/ ct_private_key_file config = "" \/
  ct_expected_server_name config = "" \/ ~ works W (client_credentials stream config) \/
  (exists o, is_ok (open_validated_private_key_file (ct_private_key_file config) o).1 = false) \/
  exists fuel e, read_client_key fuel (stream (ct_private_key_file config)) = Some (Throw e).

(** ** Contexts under construction *)

Lemma on_context_twice c f g o : on_context c g (on_context c f o) = on_context c (fun t => g (f t)) o.
Proof.
  destruct o. unfold on_context, with_contexts. cbn. f_equal. apply map_eq. intros k.
  destruct (decide (k = c)) as [->|Hk]; [rewrite !lookup_alter_eq, <- option_fmap_compose; reflexivity|].
  rewrite !lookup_alter_ne by congruence. reflexivity.
Qed.
Lemma on_context_at c f t o :
  ob_contexts o !! c = Some t -> on_context c f o = on_context c (fun _ => f t) o.
Proof.
  intros Ht. destruct o as [cs ? ? ?]. unfold on_context, with_contexts. cbn in *. f_equal.
  apply map_eq. intros k. destruct (decide (k = c)) as [->|Hk].
  - rewrite !lookup_alter_eq, Ht. reflexivity.
  - rewrite !lookup_alter_ne by congruence. reflexivity.
Qed.
Lemma on_context_lookup c f t o :
  ob_contexts o !! c = Some t -> ob_contexts (on_context c f o) !! c = Some (f t).
Proof. intros Ht. unfold on_context, with_contexts. cbn. rewrite lookup_alter_eq, Ht. reflexivity. Qed.
Lemma on_context_id c t o : ob_contexts o !! c = Some t -> on_context c (fun _ => t) o = o.
Proof.
  intros Ht. destruct o as [cs ? ? ?]. unfold on_context, with_contexts. cbn in *. f_equal.
  apply map_eq. intros k. destruct (decide (k = c)) as [->|Hk].
  - rewrite lookup_alter_eq, Ht. reflexivity.
  - rewrite lookup_alter_ne by congruence. reflexivity.
Qed.

Section ContextFacts.
Context {W : Type} `{OpenSslLaws W}.
(** [N] holds whenever something may throw. *)
Context (cr : Credentials) (N : Prop) (HN : ~ works W cr -> N).

Definition world_of (s : Tls W) : Objects := objects (tls_world s).
(** From settings [t] of context [c], [m] comes to settings that satisfy [Q]
    when it returns; nothing else changes, whether it returns or throws. *)
Definition sets (c : Z) (t : Settings) {A} (m : M (Tls W) A) (Q : A -> Settings -> Prop) : Prop :=
  forall s, ob_contexts (world_of s) !! c = Some t ->
    let '(r, s') := m s in
    tls_open s' = tls_open s /\ exists t', world_of s' = on_context c (fun _ => t') (world_of s) /\
    match r with Ok a => Q a t' | Throw _ => N end.

Lemma sets_bind {A B} c t (m : M (Tls W) A) (k : A -> M (Tls W) B) Q R :
  sets c t m Q -> (forall a t', Q a t' -> sets c t' (k a) R) -> sets c t (bind m k) R.
Proof.
  intros Hm Hk s Hs. unfold bind. specialize (Hm s Hs). destruct (m s) as [[a|e] s1]; [|exact Hm].
  destruct Hm as (Ho & t1 & Hw & Hq). specialize (Hk a t1 Hq s1). rewrite Hw in Hk at 1.
  specialize (Hk (on_context_lookup _ _ _ _ Hs)). destruct (k a s1) as [r s2]. destruct Hk as (Ho2 & t2 & Hw2 & Hr).
  split; [congruence|]. exists t2. split; [|exact Hr]. rewrite Hw2, Hw. apply on_context_twice.
Qed.
Lemma sets_ret {A} c t (a : A) (Q : A -> Settings -> Prop) : Q a t -> sets c t (ret a) Q.
Proof. intros Hq s Hs. split; [reflexivity|]. exists t. split; [|exact Hq]. symmetry. apply on_context_id, Hs. Qed.
Lemma sets_throw {A} c t e (Q : A -> Settings -> Prop) : N -> sets c t (throw e) Q.
Proof. intros Hn s Hs. split; [reflexivity|]. exists t. split; [|exact Hn]. symmetry. apply on_context_id, Hs. Qed.
Lemma sets_lift {A} c t (o : outcome A) (Q : A -> Settings -> Prop) :
  (forall a, o = Ok a -> Q a t) -> (is_ok o = false -> N) -> sets c t (lift o) Q.
Proof. intros Hq Hn. destruct o; [apply sets_ret; auto|apply sets_throw; auto]. Qed.
Lemma sets_mono {A} c t (m : M (Tls W) A) (Q R : A -> Settings -> Prop) :
  sets c t m Q -> (forall a t', Q a t' -> R a t') -> sets c t m R.
Proof.
  intros Hm HQR s Hs. specialize (Hm s Hs). destruct (m s) as [r s']. destruct Hm as (Ho & t' & Hw & Hr).
  split; [exact Ho|]. exists t'. split; [exact Hw|]. destruct r; auto.
Qed.

(** The calls. *)
Lemma sets_call {A} c t (f : W -> A * W) (Q : A -> Settings -> Prop) :
  (forall w, ob_contexts (objects w) !! c = Some t ->
     exists t', objects (f w).2 = on_context c (fun _ => t') (objects w) /\ Q (f w).1 t') ->
  sets c t (call f) Q.
Proof.
  intros Hf s Hs. unfold call. destruct (Hf _ Hs) as (t' & Hw & Hq). destruct (f (tls_world s)) as [a w].
  split; [reflexivity|]. exists t'. split; assumption.
Qed.
Lemma sets_do c t f g :
  (forall w, objects (f w) = on_context c g (objects w)) -> sets c t (do_call f) (fun _ t' => t' = g t).
Proof.
  intros Hf s Hs. unfold do_call, modify. cbn [tls_open tls_world]. split; [reflexivity|]. exists (g t).
  split; [|reflexivity]. unfold world_of. cbn [tls_world]. rewrite Hf. apply on_context_at, Hs.
Qed.
(** A call that sets something of the context, when it succeeds. *)
Lemma sets_changed c t (f : W -> Z * W) good g :
  (forall w, let '(r, w') := f w in changed c (good r) g (objects w) (objects w')) ->
  sets c t (call f) (fun r t' => good r = true -> t' = g t).
Proof.
  intros Hf. apply sets_call. intros w Hs. specialize (Hf w). destruct (f w) as [r w']. cbn [fst snd].
  unfold changed in Hf. destruct (good r).
  - exists (g t). rewrite Hf. split; [apply on_context_at, Hs|auto].
  - destruct Hf as [g' Hf]. exists (g' t). rewrite Hf. split; [apply on_context_at, Hs|discriminate].
Qed.
Lemma sets_error {A} c t prefix (Q : A -> Settings -> Prop) : N -> sets c t (throw_openssl_error prefix) Q.
Proof.
  intros Hn. unfold throw_openssl_error. eapply sets_bind.
  - apply (sets_call _ _ _ (fun _ t' => t' = t)). intros w Hs. exists t. split; [|reflexivity].
    rewrite law_get_error. symmetry. apply on_context_id, Hs.
  - intros code t' ->. apply sets_throw, Hn.
Qed.
Lemma sets_fail {A B} c t prefix (k : A -> M (Tls W) B) Q : N -> sets c t (bind (throw_openssl_error prefix) k) Q.
Proof. intros Hn. eapply sets_bind; [apply (sets_error _ _ _ (fun _ _ => False)), Hn|]. intros ? ? []. Qed.
Lemma sets_require c t ok prefix : (ok = false -> N) -> sets c t (require ok prefix) (fun _ t' => ok = true /\ t' = t).
Proof. intros Hn. destruct ok; cbn [require]; [apply sets_ret; auto|apply sets_error; auto]. Qed.
(** A call that is required to answer 1. *)
Lemma sets_required c t (f : W -> Z * W) g prefix :
  (forall w, let '(r, w') := f w in changed c (r =? 1) g (objects w) (objects w')) ->
  (works W cr -> forall w, ob_contexts (objects w) !! c = Some t -> (f w).1 = 1) ->
  sets c t (let* r := call f in require (r =? 1) prefix) (fun _ t' => t' = g t).
Proof using Type HN.
  intros Hf Hw. eapply sets_bind.
  - instantiate (1 := fun r t' => ((r =? 1) = true -> t' = g t) /\ (works W cr -> r = 1)). intros s Hs. pose proof (sets_changed c t f (fun r => r =? 1) g Hf s Hs) as Hc. unfold call in *.
    pose proof (fun Hk => Hw Hk (tls_world s) Hs) as Hr. destruct (f (tls_world s)) as [a w]. cbn [fst] in Hr.
    destruct Hc as (Ho & t' & Hx & Hy). eauto 6.
  - intros r t' [Hr Hk]. eapply sets_mono; [apply sets_require|].
    + intros E. apply HN. intros Hx. rewrite (Hk Hx) in E. discriminate.
    + cbn. intros _ t'' [E ->]. auto.
Qed.
Lemma sets_boost c t (f : W -> Z * W) g what :
  (forall w, let '(r, w') := f w in changed c (r =? 0) g (objects w) (objects w')) ->
  (works W cr -> forall w, ob_contexts (objects w) !! c = Some t -> (f w).1 = 0) ->
  sets c t (boost f what) (fun _ t' => t' = g t).
Proof using Type HN.
  intros Hf Hw s Hs. pose proof (sets_changed c t f (fun r => r =? 0) g Hf s Hs) as Hc. unfold boost, bind, call in *.
  pose proof (fun Hk => Hw Hk (tls_world s) Hs) as Hr. destruct (f (tls_world s)) as [a w]. cbn [fst] in Hr.
  destruct Hc as (Ho & t' & Hx & Hy). destruct (a =? 0) eqn:E; cbn [negb]; unfold throw, ret;
    (split; [exact Ho|]; exists t'; split; [exact Hx|]); [auto|].
  apply HN. intros Hk. rewrite (Hr Hk) in E. discriminate.
Qed.

Lemma sets_seq {A B C} c t (m : M (Tls W) A) (k : A -> M (Tls W) B) (l : B -> M (Tls W) C) Q :
  sets c t (bind (bind m k) l) Q -> sets c t (bind m (fun a => bind (k a) l)) Q.
Proof.
  intros Hm s Hs. specialize (Hm s Hs). unfold bind in *. destruct (m s) as [[a|e] s1]; exact Hm.
Qed.

(** ** The protocols *)

Lemma sets_restrict c t mismatch :
  st_chain t = Some (cr_chain cr) -> st_key t = Some (cr_key cr) ->
  sets c t (restrict_protocols c mismatch)
    (fun _ t' => t' = put_ciphersuites tls13_ciphersuites (put_cipher_list tls12_ciphers (put_min_version TLS1_2_VERSION t))).
Proof using Type HN.
  intros Hchain Hkey. unfold restrict_protocols. intros s Hs. unfold bind at 1, get. set (ok := SSL_CTX_check_private_key c (tls_world s) =? 1). 
  assert (Hok : ok = false -> N).
  { intros E. apply HN. intros Hw. unfold ok in E. rewrite (wk_check _ _ Hw c t) in E by assumption. discriminate. }
  clearbody ok. revert s Hs. eapply sets_bind; [apply sets_require, Hok|]. intros [] t' [_ ->].
  apply sets_seq. eapply sets_bind; [apply sets_required; [apply law_min_version|intros Hw w Hx; exact (wk_min_version _ _ Hw c _ w Hx)]|].
  intros [] t' ->. apply sets_seq.
  eapply sets_bind; [apply sets_required; [apply law_cipher_list|intros Hw w Hx; exact (wk_cipher_list _ _ Hw c _ w Hx)]|].
  intros [] t' ->. apply sets_required; [apply law_ciphersuites|intros Hw w Hx; exact (wk_ciphersuites _ _ Hw c _ w Hx)].
Qed.

(** One state of [sets], when a step depends on more than the context. *)
Definition goes (c : Z) (s0 : Tls W) {A} (r : outcome A * Tls W) (Q : A -> Settings -> Prop) : Prop :=
  tls_open r.2 = tls_open s0 /\ exists t', world_of r.2 = on_context c (fun _ => t') (world_of s0) /\
    match r.1 with Ok a => Q a t' | Throw _ => N end.
Lemma sets_goes {A} c t (m : M (Tls W) A) Q s0 s t0 :
  sets c t m Q -> ob_contexts (world_of s0) !! c = Some t0 -> tls_open s = tls_open s0 ->
  world_of s = on_context c (fun _ => t) (world_of s0) -> goes c s0 (m s) Q.
Proof.
  intros Hm Hat Ho Hw. specialize (Hm s). rewrite Hw in Hm at 1. specialize (Hm (on_context_lookup _ _ _ _ Hat)).
  unfold goes. destruct (m s) as [r s']. destruct Hm as (Ho' & t' & Hw' & Hr). split; [cbn; congruence|].
  exists t'. split; [|exact Hr]. cbn. rewrite Hw', Hw. apply on_context_twice.
Qed.
Lemma goes_sets {A} c t (m : M (Tls W) A) Q :
  (forall s, ob_contexts (world_of s) !! c = Some t -> goes c s (m s) Q) -> sets c t m Q.
Proof. intros Hm s Hs. specialize (Hm s Hs). unfold goes in Hm. destruct (m s) as [r s']. exact Hm. Qed.

(** Loading the list and switching the check on; [store] and [lookup] are
    those of the context. *)
Lemma goes_flags c store s0 s t t0 :
  let x := Z.lor X509_V_FLAG_CRL_CHECK X509_V_FLAG_CRL_CHECK_ALL in cr_crl cr <> "" ->
  store_context (tls_world s) store = Some c ->
  ob_contexts (world_of s0) !! c = Some t0 -> tls_open s = tls_open s0 ->
  world_of s = on_context c (fun _ => t) (world_of s0) ->
  goes c s0 ((let* r := call (X509_STORE_set_flags store x) in
              require (r =? 1) "failed to enable client CRL checking") s) (fun _ t' => t' = add_store_flags x t).
Proof using Type HN.
  intros x Hcrl Hst Hat Ho Hw. unfold bind at 1, call at 1. pose proof (law_flags store x (tls_world s)) as Hl.
  pose proof (fun Hk : works W cr => wk_flags _ _ Hk c store (tls_world s) Hcrl Hst) as Hk. fold x in Hk. clearbody x.
  destruct (X509_STORE_set_flags store x (tls_world s)) as [r w]. cbn [fst] in Hk. specialize (Hl c Hst).
  assert (Hr : (r =? 1) = false -> N).
  { intros E. apply HN. intros Hx. rewrite (Hk Hx) in E. discriminate. }
  change (objects (tls_world s)) with (world_of s) in Hl. rewrite Hw in Hl. unfold changed in Hl.
  assert (Hgo : forall t1, objects w = on_context c (fun _ => t1) (world_of s0) -> ((r =? 1) = true -> t1 = add_store_flags x t) ->
    goes c s0 (require (r =? 1) "failed to enable client CRL checking" (mkTls w (tls_open s))) (fun _ t' => t' = add_store_flags x t)).
  { intros t1 Hw1 Ht1. eapply sets_goes; [|exact Hat|exact Ho|exact Hw1].
    eapply sets_mono; [apply sets_require, Hr|]. intros [] t' [E ->]. auto. }
  destruct (r =? 1); [|destruct Hl as [g Hl]].
  - apply (Hgo (add_store_flags x t)); [rewrite Hl; apply on_context_twice|auto].
  - apply (Hgo (g t)); [rewrite Hl; apply on_context_twice|discriminate].
Qed.

Lemma sets_revocations c t crl :
  crl = cr_crl cr ->
  sets c t (check_revocations c crl) (fun _ t' => t' = if decide (crl = "") then t
    else add_store_flags (Z.lor X509_V_FLAG_CRL_CHECK X509_V_FLAG_CRL_CHECK_ALL) (add_revocations crl t)).
Proof using Type HN.
  intros Hcr. unfold check_revocations. case_bool_decide as E; [rewrite decide_True by exact E; apply sets_ret; reflexivity|].
  rewrite decide_False by exact E. apply goes_sets. intros s Hs. unfold bind at 1, get.
  set (store := SSL_CTX_get_cert_store c (tls_world s)).
  assert (Hstore : store_context (tls_world s) store = Some c) by (apply law_store; unfold world_of in Hs; rewrite Hs; discriminate).
  clearbody store. unfold bind at 1, call at 1. pose proof (law_lookup store (tls_world s)) as Hl.
  assert (Hne : cr_crl cr <> "") by congruence.
  pose proof (fun Hk : works W cr => wk_lookup _ _ Hk c store (tls_world s) Hne Hstore) as Hk.
  destruct (X509_STORE_add_lookup store (tls_world s)) as [lookup w1]. cbn [fst] in Hk.
  destruct Hl as (Hw1 & Hs1 & Hlk). rewrite Hstore in Hlk.
  assert (Hone : objects w1 = on_context c (fun _ => t) (world_of s)) by (rewrite on_context_id by exact Hs; exact Hw1).
  destruct (lookup =? 0) eqn:E0; b2p.
  { eapply (sets_goes _ _ _ _ s (mkTls w1 (tls_open s))); [|exact Hs|reflexivity|exact Hone].
    apply sets_fail, HN. intros Hy. exact (Hk Hy E0). }
  unfold bind at 1 2, call at 1. cbn [tls_world tls_open]. pose proof (law_crl lookup crl w1) as Hc.
  assert (Hlw : lookup_context w1 lookup = Some c) by exact (Hlk E0).
  pose proof (fun Hx : works W cr => wk_crl _ _ Hx c lookup w1 Hne Hlw) as Hx. rewrite <- Hcr in Hx.
  destruct (X509_load_crl_file lookup crl w1) as [r w2]. cbn [fst] in Hx. destruct Hc as [Hs2 Hc].
  specialize (Hc c (Hlk E0)). rewrite Hone in Hc. unfold changed in Hc. destruct (r =? 1) eqn:E1; cbn [require ret].
  - apply (goes_flags _ _ _ _ (add_revocations crl t) t); [exact Hne|rewrite <- Hstore; cbn; congruence|exact Hs|reflexivity|].
    etransitivity; [exact Hc|]. apply on_context_twice.
  - destruct Hc as [g Hc]. assert (Hn : N) by (apply HN; intros Hy; rewrite (Hx Hy) in E1; discriminate).
    pose proof (sets_goes c (g t) _ _ s (mkTls w2 (tls_open s)) t (sets_error c (g t)
      "failed to load client certificate CRL" (fun (_ : unit) _ => False) Hn) Hs eq_refl
      ltac:(etransitivity; [exact Hc|apply on_context_twice])) as (Ho & t' & Hw & Hr).
    unfold require. destruct (throw_openssl_error _ _) as [[[]|e] s2]; cbn [fst snd] in *; [contradiction|].
    split; [exact Ho|]. exists t'. auto.
Qed.

(** ** The key *)

(** A scope whose end undoes what was made before it. *)
Lemma goes_owned {A} c free (m : M (Tls W) A) Q s s1 :
  (forall w g, objects w = on_context c g (world_of s1) -> objects (free w) = on_context c g (world_of s)) ->
  tls_open s1 = tls_open s -> goes c s1 (m s1) Q -> goes c s (owned free m s1) Q.
Proof.
  intros Hf Ho (Ho' & t' & Hw & Hr). unfold owned, goes. destruct (m s1) as [r s2]. cbn [fst snd] in *.
  split; [cbn; congruence|]. exists t'. split; [|exact Hr]. apply Hf, Hw.
Qed.
Lemma free_bio c b data o w g : ob_bios o !! b = None ->
  objects w = on_context c g (with_bios (<[b := data]> (ob_bios o)) o) -> objects (BIO_free b w) = on_context c g o.
Proof.
  intros Hb Hw. rewrite law_bio_free, Hw. destruct o. unfold with_bios, on_context, with_contexts. cbn in *. f_equal.
  rewrite delete_insert_eq, delete_id by exact Hb. reflexivity.
Qed.
Lemma free_key c k data o w g : ob_keys o !! k = None ->
  objects w = on_context c g (with_keys (<[k := data]> (ob_keys o)) o) -> objects (EVP_PKEY_free k w) = on_context c g o.
Proof.
  intros Hb Hw. rewrite law_key_free, Hw. destruct o. unfold with_keys, on_context, with_contexts. cbn in *. f_equal.
  rewrite delete_insert_eq, delete_id by exact Hb. reflexivity.
Qed.
Lemma goes_fail {A B} c t prefix (k : A -> M (Tls W) B) Q s s1 :
  N -> ob_contexts (world_of s) !! c = Some t -> tls_open s1 = tls_open s -> world_of s1 = world_of s ->
  goes c s (bind (throw_openssl_error prefix) k s1) Q.
Proof.
  intros Hn Hs Ho Hw. eapply sets_goes; [apply (sets_fail c t), Hn|exact Hs|exact Ho|].
  rewrite on_context_id by exact Hs. exact Hw.
Qed.

(** The parsed key is that of the BIO, and is given to the context. *)
Lemma goes_parsed c t key b no_key not_used (rest : M (Tls W) Z) Q s1 :
  key = cr_key cr -> st_chain t = Some (cr_chain cr) ->
  ob_bios (world_of s1) !! b = Some key -> ob_contexts (world_of s1) !! c = Some t ->
  sets c (put_key (Some key) t) rest Q ->
  goes c s1 ((let* private_key := call (PEM_read_bio_PrivateKey b) in
              let* _ := require (negb (private_key =? 0)) no_key in
              owned (EVP_PKEY_free private_key)
              (let* r := call (SSL_CTX_use_PrivateKey c private_key) in
               let* _ := require (r =? 1) not_used in rest)) s1) Q.
Proof using Type HN.
  intros -> Hchain Hb Hs Hrest. unfold bind at 1, call at 1. pose proof (law_read_key b (tls_world s1)) as Hl.
  pose proof (fun Hk : works W cr => wk_read_key _ _ Hk b (tls_world s1) Hb) as Hk.
  destruct (PEM_read_bio_PrivateKey b (tls_world s1)) as [k w2]. cbn [fst] in Hk. destruct (k =? 0) eqn:Ek; b2p.
  { apply (goes_fail c t); [apply HN; intros Hx; exact (Hk Hx Ek)|exact Hs|reflexivity|exact Hl]. }
  destruct Hl as (data & Hd & Hfresh & Hw2). change (objects (tls_world s1)) with (world_of s1) in *.
  rewrite Hb in Hd. injection Hd as <-. unfold bind at 1. cbn [negb require]. unfold ret.
  apply goes_owned; [intros w g Hw; apply (free_key c k (cr_key cr)); [exact Hfresh|rewrite <- Hw2; exact Hw]|reflexivity|].
  set (s2 := mkTls w2 (tls_open s1)). assert (Hs2 : ob_contexts (world_of s2) !! c = Some t).
  { unfold world_of, s2. cbn. rewrite Hw2. exact Hs. }
  unfold bind at 1, call. pose proof (law_use_key c k w2) as Hu.
  assert (Hkey : ob_keys (objects w2) !! k = Some (cr_key cr)) by (rewrite Hw2; apply lookup_insert_eq).
  pose proof (fun Hx : works W cr => wk_use_key _ _ Hx c t k w2 Hs2 Hchain Hkey) as Hx. change (tls_world s2) with w2.
  destruct (SSL_CTX_use_PrivateKey c k w2) as [r w3]. cbn [fst] in Hx. unfold changed in Hu. rewrite Hkey in Hu.
  change (objects w2) with (world_of s2) in Hu. destruct (r =? 1) eqn:Er; cbn [require].
  - unfold bind at 1, ret. eapply sets_goes; [exact Hrest|exact Hs2|reflexivity|].
    etransitivity; [exact Hu|]. apply on_context_at, Hs2.
  - destruct Hu as [g Hu]. eapply sets_goes; [apply (sets_fail c (g t))|exact Hs2|reflexivity|].
    + apply HN. intros Hy. rewrite (Hx Hy) in Er. discriminate.
    + etransitivity; [exact Hu|]. apply on_context_at, Hs2.
Qed.

Lemma sets_key c t key no_bio no_key not_used rest Q :
  key = cr_key cr -> st_chain t = Some (cr_chain cr) ->
  sets c (put_key (Some key) t) rest Q -> sets c t (use_private_key c key no_bio no_key not_used rest) Q.
Proof using Type HN.
  intros Hkey Hchain Hrest. apply goes_sets. intros s Hs. unfold use_private_key, bind at 1, call at 1.
  pose proof (law_bio key (tls_world s)) as Hl. pose proof (fun Hk : works W cr => wk_bio _ _ Hk (tls_world s)) as Hk. rewrite <- Hkey in Hk.
  destruct (BIO_new_mem_buf key (tls_world s)) as [b w1]. cbn [fst] in Hk. destruct (b =? 0) eqn:Eb; b2p.
  { apply (goes_fail c t); [apply HN; intros Hx; exact (Hk Hx Eb)|exact Hs|reflexivity|exact Hl]. }
  destruct Hl as [Hfresh Hw1]. change (objects (tls_world s)) with (world_of s) in *. unfold bind at 1. cbn [negb require]. unfold ret.
  apply goes_owned; [intros w g Hw; apply (free_bio c b key); [exact Hfresh|rewrite <- Hw1; exact Hw]|reflexivity|].
  apply (goes_parsed c t key); [exact Hkey|exact Hchain| | |exact Hrest]; unfold world_of; cbn [tls_world]; rewrite Hw1; [apply lookup_insert_eq|exact Hs].
Qed.

(** ** The file and the buffer *)

Lemma sets_stream {A B} c t (P : A -> Prop) (m : M Open A) (body : M (Tls W) B) Q :
  opens [ResStream] P m -> (forall o, is_ok (m o).1 = false -> N) ->
  ((exists a, P a) -> sets c t body Q) -> sets c t (let* _ := on_open m in kept ResStream (held ResBuffer body)) Q.
Proof.
  intros Hm Hn Hb. apply goes_sets. intros s Hs. unfold bind, on_open. specialize (Hm (tls_open s)).
  specialize (Hn (tls_open s)). destruct (m (tls_open s)) as [[a|e] o].
  - destruct Hm as [Ha ->]. unfold kept, held. cbn [tls_open tls_world].
    specialize (Hb (ex_intro _ a Ha) (mkTls (tls_world s) (ResBuffer :: [ResStream] ++ tls_open s)) Hs).
    destruct (body _) as [r s']. destruct Hb as (Ho & t' & Hw & Hr). cbn [tls_open] in Ho.
    split; [cbn [snd tls_open]; rewrite Ho, !give_back_head; apply give_back_head|]. exists t'. auto.
  - rewrite Hm. split; [reflexivity|]. exists t. split; [|apply Hn; reflexivity].
    symmetry. apply (on_context_id c t (world_of s)), Hs.
Qed.
End ContextFacts.

(** ** The finished contexts *)

Lemma lor_contains o d x : Z.land d x = x -> Z.land (Z.lor o d) x = x.
Proof.
  intros Hd. rewrite Z.land_lor_distr_l, Hd. apply Z.bits_inj'. intros n Hn. rewrite Z.lor_spec, Z.land_spec.
  destruct (Z.testbit o n), (Z.testbit x n); reflexivity.
Qed.
Lemma cipher_lists_modern : modern tls12_ciphers /\ modern tls13_ciphersuites.
Proof. unfold modern. decide_prop. Qed.
Lemma hardened_settings t :
  (forall x, x ∈ [no_sslv3; no_tlsv1; no_tlsv1_1] -> Z.land (st_options t) x = x) ->
  hardened (put_ciphersuites tls13_ciphersuites (put_cipher_list tls12_ciphers (put_min_version TLS1_2_VERSION t))).
Proof.
  intros Ho. destruct cipher_lists_modern as [Hc Hs].
  constructor; [exact Ho|reflexivity|exists tls12_ciphers; auto|exists tls13_ciphersuites; auto].
Qed.
Lemma options_disabled t x : x ∈ [no_sslv3; no_tlsv1; no_tlsv1_1] -> Z.land (st_options (add_options disabled_protocols t)) x = x.
Proof.
  rewrite !elem_of_cons. intros [->|[->|[->|[]%not_elem_of_nil]]]; apply lor_contains; reflexivity.
Qed.

Section Made.
Context {W : Type} `{OpenSslLaws W}.

(** A context is created, filled in under [sets] and returned. *)
Lemma made_context {A} cr (m : Z -> M (Tls W) A) (Q : Z -> A -> Settings -> Prop) (N : Prop) (s : Tls W) :
  (~ works W cr -> N) ->
  (forall c t, st_method t = cr_method cr -> st_authorities t = [] -> st_revocations t = [] ->
     sets N c t (m c) (Q c)) ->
  let '(r, s') := (let* (code, context) := call (new_context (cr_method cr)) in
     if negb (code =? 0) then throw (SystemError code "context") else released (free_context context) (m context)) s in
  tls_open s' = tls_open s /\
  match r with
  | Ok a => exists c, context_created (Q c a) (world_of s) c (world_of s')
  | Throw _ => world_of s' = world_of s /\ N
  end.
Proof.
  intros HN Hm. unfold bind, call. pose proof (law_new_context (cr_method cr) (tls_world s)) as Hl.
  pose proof (fun Hk : works W cr => wk_new _ _ Hk (tls_world s)) as Hk.
  destruct (new_context (cr_method cr) (tls_world s)) as [[code c] w1]. cbn [fst] in Hk. destruct (code =? 0) eqn:E; b2p; cbn [negb].
  2:{ split; [reflexivity|]. split; [destruct code; [congruence|exact Hl..]|]. apply HN. intros Hx. exact (E (Hk Hx)). }
  subst code. destruct Hl as (t & Hfresh & Hmt & Ha & Hr & _ & _ & Hw1).
  change (objects (tls_world s)) with (world_of s) in *. unfold released.
  specialize (Hm c t Hmt Ha Hr (mkTls w1 (tls_open s))). unfold world_of at 1 in Hm. cbn [tls_world] in Hm.
  rewrite Hw1 in Hm. specialize (Hm (lookup_insert_eq _ _ _)). destruct (m c _) as [[a|e] s2]; destruct Hm as (Ho & t' & Hw & Hq).
  - split; [exact Ho|]. exists c, t'. split; [exact Hfresh|]. split; [exact Hq|]. rewrite Hw. unfold world_of at 1. cbn [tls_world].
    rewrite Hw1. unfold on_context, with_contexts. cbn. f_equal. rewrite alter_insert_eq. reflexivity.
  - split; [exact Ho|]. split; [|exact Hq]. unfold world_of at 1. cbn [tls_world].
    rewrite law_free_context. change (objects (tls_world s2)) with (world_of s2). rewrite Hw. unfold world_of at 1 2. cbn [tls_world].
    rewrite Hw1. destruct (world_of s). unfold on_context, with_contexts in *. cbn in *. f_equal.
    rewrite alter_insert_eq, delete_insert_eq. apply delete_id, Hfresh.
Qed.
End Made.

Section ServerContext.
Context {W : Type} `{OpenSslLaws W} `{PosixFiles} {F : Type} `{InputStreamLaws F} (stream : string -> F).

Definition server_made (config : ServerTlsConfig) (c : Z) (a : Z) (t : Settings) : Prop :=
  a = c /\ posix_guarded (private_key_file config) /\
  server_settings config (contents (stream (private_key_file config))) t.

Lemma sets_server config c t :
  let N := server_refuses W stream config in
  st_method t = tls_server -> st_authorities t = [] -> st_revocations t = [] ->
  sets N c t
    (let* _ := do_call (set_options c disabled_protocols) in
     let* _ := boost (use_certificate_chain_file c (certificate_chain_file config)) "use_certificate_chain_file" in
     let* _ := on_open (open_validated_server_private_key (private_key_file config)) in
     kept ResStream (held ResBuffer
     (let* key := lift (read_server_key (stream (private_key_file config))) in
      use_private_key c key "failed to buffer server private key" "failed to parse server private key"
        "failed to load server private key"
      (let* _ := boost (load_verify_file c (client_ca_file config)) "load_verify_file" in
       let* _ := do_call (set_verify_mode c (Z.lor verify_peer verify_fail_if_no_peer_cert)) in
       let* _ := check_revocations c (client_crl_file config) in
       let* _ := restrict_protocols c "server private key does not match certificate" in
       ret c)))) (server_made config c).
Proof.
  intros N Hm Ha Hr. assert (HN : ~ works W (server_credentials stream config) -> N) by (unfold N, server_refuses; auto).
  eapply sets_bind; [apply sets_do, law_options|]. intros [] t1 ->.
  eapply sets_bind; [apply (sets_boost _ N HN); [apply law_chain|intros Hk w Hx; exact (wk_chain _ _ Hk c _ w Hx)]|]. intros [] t1 ->.
  eapply sets_stream; [apply server_opens| |].
  { intros o Ho. unfold N, server_refuses. do 4 right. left. eauto. }
  intros [_ Hg]. eapply (sets_bind N _ _ _ _ (fun key t' => read_server_key (stream (private_key_file config)) = Ok key /\ t' = _)).
  { apply sets_lift; [auto|]. intros E. unfold N, server_refuses. do 5 right. exact E. }
  intros key t1 [Hkey ->]. pose proof (private_keys_read (stream (private_key_file config))) as [_ Hread].
  rewrite Hkey in Hread. destruct Hread as [-> _]. apply (sets_key _ N HN); [reflexivity|reflexivity|].
  eapply sets_bind; [apply (sets_boost _ N HN); [apply law_verify_file|intros Hk w Hx; exact (wk_verify_file _ _ Hk c _ w Hx)]|]. intros [] t1 ->.
  eapply sets_bind; [apply sets_do, law_verify_mode|]. intros [] t1 ->.
  eapply sets_bind; [apply (sets_revocations _ N HN); reflexivity|]. intros [] t1 ->.
  eapply sets_bind; [apply (sets_restrict _ N HN); destruct (decide (client_crl_file config = "")); reflexivity|]. intros [] t1 ->. apply sets_ret.
  split; [reflexivity|]. split; [exact Hg|]. destruct (decide (client_crl_file config = "")) as [E|E];
    (constructor; [exact Hm|apply hardened_settings; intros x; apply (options_disabled t)|reflexivity..|cbn; rewrite Ha; reflexivity|]).
  - rewrite decide_True by exact E. exact Hr.
  - rewrite decide_False by exact E. split; [cbn; rewrite Hr; reflexivity|].
    cbn [st_store_flags add_store_flags put_ciphersuites put_cipher_list put_min_version]. rewrite !Z.lor_spec.
    split; apply orb_true_intro; right; reflexivity.
Qed.

Lemma server_context config (s : Tls W) :
  match make_server_tls_context stream config s with
  | (Ok c, s') => tls_open s' = tls_open s /\ posix_guarded (private_key_file config) /\
      context_created (server_settings config (contents (stream (private_key_file config)))) (world_of s) c (world_of s')
  | (Throw _, s') => tls_open s' = tls_open s /\ world_of s' = world_of s /\ server_refuses W stream config
  end.
Proof.
  unfold make_server_tls_context, bind at 1, lift, reject_if. if_goal E.
  { split; [reflexivity|]. split; [reflexivity|]. unfold server_refuses. b2p_all; auto. }
  assert (HN : ~ works W (server_credentials stream config) -> server_refuses W stream config) by (unfold server_refuses; auto).
  pose proof (made_context (server_credentials stream config) _ _ _ s HN (sets_server config)) as Hm.
  destruct (bind _ _ s) as [[c|e] s']; destruct Hm as [Ho Hm]; [|tauto].
  destruct Hm as (c' & t & Hf & (-> & Hg & Ht) & Hw). split; [exact Ho|]. split; [exact Hg|]. exists t. auto.
Qed.
End ServerContext.

Section ClientContext.
Context {W : Type} `{OpenSslLaws W} {Sid : Type} `{ClientFiles Sid} {F : Type} `{InputStreamLaws F} (stream : string -> F).

(** Enough for every file: one iteration for each byte of the buffer. *)
Definition key_fuel : nat := Z.to_nat (kMaximumPrivateKeyBytes + 2).

Definition client_made (config : ClientTlsConfig) (c : Z) (a : option Z) (t : Settings) : Prop :=
  a = Some c /\ (client_platform = Windows -> windows_guarded (ct_private_key_file config)) /\
  client_settings config (contents (stream (ct_private_key_file config))) t.

Lemma sets_client config c t :
  let N := client_refuses W stream config in
  st_method t = tls_client -> st_authorities t = [] -> st_revocations t = [] ->
  sets N c t
    (let* _ := do_call (set_options c disabled_protocols) in
     let* _ := boost (load_verify_file c (ca_file config)) "load_verify_file" in
     let* _ := boost (use_certificate_chain_file c (ct_certificate_chain_file config)) "use_certificate_chain_file" in
     let* _ := on_open (open_validated_private_key_file (ct_private_key_file config)) in
     kept ResStream (held ResBuffer
     (match read_client_key key_fuel (stream (ct_private_key_file config)) with
      | None => ret None
      | Some (Throw e) => throw e
      | Some (Ok key) =>
          let* context := use_private_key c key "failed to create private-key memory BIO"
            "failed to parse client private key" "failed to load client private key"
          (let* _ := do_call (set_verify_mode c verify_peer) in
           let* _ := do_call (set_verify_callback c (ct_expected_server_name config)) in
           let* _ := restrict_protocols c "client private key does not match certificate" in
           ret c) in
          ret (Some context)
      end))) (client_made config c).
Proof.
  intros N Hm Ha Hr. assert (HN : ~ works W (client_credentials stream config) -> N) by (unfold N, client_refuses; auto 10).
  eapply sets_bind; [apply sets_do, law_options|]. intros [] t1 ->.
  eapply sets_bind; [apply (sets_boost _ N HN); [apply law_verify_file|intros Hk w Hx; exact (wk_verify_file _ _ Hk c _ w Hx)]|]. intros [] t1 ->.
  eapply sets_bind; [apply (sets_boost _ N HN); [apply law_chain|intros Hk w Hx; exact (wk_chain _ _ Hk c _ w Hx)]|]. intros [] t1 ->.
  eapply sets_stream; [apply client_opens| |].
  { intros o Ho. unfold N, client_refuses. do 5 right. left. eauto. }
  intros [_ Hg]. pose proof (private_keys_read (stream (ct_private_key_file config))) as [(r & Hread & Hkey) _].
  change (Z.to_nat (kMaximumPrivateKeyBytes + 2)) with key_fuel in Hread. rewrite Hread. destruct r as [key|e].
  2:{ apply sets_throw. unfold N, client_refuses. do 6 right. eauto. }
  destruct Hkey as [-> _].
  eapply (sets_bind N _ _ _ _ (fun a t' => a = c /\ client_made config c (Some c) t')); [|intros a t1 [-> Ht]; apply sets_ret, Ht].
  apply (sets_key _ N HN); [reflexivity|reflexivity|].
  eapply sets_bind; [apply sets_do, law_verify_mode|]. intros [] t1 ->.
  eapply sets_bind; [apply sets_do, law_verify_callback|]. intros [] t1 ->.
  eapply sets_bind; [apply (sets_restrict _ N HN); reflexivity|]. intros [] t1 ->. apply sets_ret.
  split; [reflexivity|]. split; [reflexivity|]. split; [exact Hg|].
  constructor; [exact Hm|apply hardened_settings; intros x; apply (options_disabled t)|reflexivity..|cbn; rewrite Ha; reflexivity].
Qed.

Lemma client_context config (s : Tls W) :
  match make_client_tls_context stream key_fuel config s with
  | (Ok (Some c), s') => tls_open s' = tls_open s /\
      (client_platform = Windows -> windows_guarded (ct_private_key_file config)) /\
      context_created (client_settings config (contents (stream (ct_private_key_file config)))) (world_of s) c (world_of s')
  | (Ok None, _) => False
  | (Throw _, s') => tls_open s' = tls_open s /\ world_of s' = world_of s /\ client_refuses W stream config
  end.
Proof.
  unfold make_client_tls_context, bind at 1, lift, reject_if. if_goal E.
  { split; [reflexivity|]. split; [reflexivity|]. unfold client_refuses. b2p_all; auto. }
  assert (HN : ~ works W (client_credentials stream config) -> client_refuses W stream config) by (unfold client_refuses; auto 10).
  pose proof (made_context (client_credentials stream config) _ _ _ s HN (sets_client config)) as Hm.
  destruct (bind _ _ s) as [[c|e] s']; destruct Hm as [Ho Hm]; [|tauto].
  destruct Hm as (c' & t & Hf & (-> & Hg & Ht) & Hw). split; [exact Ho|]. split; [exact Hg|]. exists t. auto.
Qed.
End ClientContext.

(** ** Identities *)

Lemma hex_digit_value n : 0 <= n < 16 -> exists c, hex_digit n = String c "" /\ hex_value c = Some n.
Proof.
  intros Hn. assert (Hin : n ∈ seqZ 0 16) by (apply elem_of_seqZ; lia).
  assert (Hall : Forall (fun n => match hex_digit n with String c EmptyString => bool_decide (hex_value c = Some n) | _ => false end = true)
                   (seqZ 0 16)) by decide_prop.
  pose proof (proj1 (Forall_forall _ _) Hall n Hin) as Hd. cbn beta in Hd.
  destruct (hex_digit n) as [|c [|]]; [discriminate| |discriminate]. exists c. split; [reflexivity|].
  apply bool_decide_eq_true_1 in Hd. exact Hd.
Qed.
Lemma hex_digit_low b : hex_digit b = hex_digit (b mod 16).
Proof.
  unfold hex_digit. change 0x0F with (Z.ones 4). rewrite !Z.land_ones by lia. rewrite Z.mod_mod by lia. reflexivity.
Qed.
Lemma byte_digits b : in_u8 b -> exists h l, hex_digit (Z.shiftr b 4) = String h "" /\ hex_digit b = String l "" /\
  hex_value h = Some (b / 16) /\ hex_value l = Some (b mod 16).
Proof.
  intros Hb. rewrite Z.shiftr_div_pow2 by lia. change (2 ^ 4) with 16. rewrite (hex_digit_low b).
  destruct (hex_digit_value (b / 16)) as (h & Hh & Vh); [div_lia|].
  destruct (hex_digit_value (b mod 16)) as (l & Hl & Vl); [div_lia|]. exists h, l. auto.
Qed.
Lemma read_hex_digits d : is_bytes d -> read_hex (hex_digits d) = Some d.
Proof.
  induction 1 as [|b d Hb _ IH]; [reflexivity|]. cbn [hex_digits].
  destruct (byte_digits b Hb) as (h & l & -> & -> & Vh & Vl).
  change (read_hex (String h (String l (hex_digits d))) = Some (b :: d)). cbn [read_hex]. rewrite Vh, Vl, IH. do 2 f_equal. div_lia.
Qed.
Lemma hex_digits_length d : is_bytes d -> String.length (hex_digits d) = (2 * length d)%nat.
Proof.
  induction 1 as [|b d Hb _ IH]; [reflexivity|]. cbn [hex_digits length].
  destruct (byte_digits b Hb) as (h & l & -> & -> & _).
  change (S (S (String.length (hex_digits d))) = (2 * S (length d))%nat). rewrite IH. lia.
Qed.

Section IdentityFacts.
Context {W : Type} `{OpenSslLaws W}.

Definition identity_of (der : bytes) : string := "sha256:" +:+ hex_digits (sha256 der).

(** The outcome of a fingerprint of what [presented] gives. *)
Definition identified (presented : option bytes) (s : Tls W) (r : outcome string * Tls W) : Prop :=
  tls_open r.2 = tls_open s /\ world_of r.2 = world_of s /\
  match r.1 with Ok identity => exists der, presented = Some der /\ identity = identity_of der | Throw _ => True end.

Lemma certificate_digest x der s :
  ob_certificates (world_of s) !! x = Some der -> identified (Some der) s (certificate_sha256 x s).
Proof.
  intros Hx. unfold certificate_sha256. destruct (x =? 0); [repeat split|]. unfold bind at 1, call at 1.
  pose proof (law_digest x (tls_world s)) as Hl. destruct (X509_digest x (tls_world s)) as [[r d] w].
  destruct Hl as [Hw Hd]. destruct (r =? 1) eqn:E; b2p.
  - split; [reflexivity|]. split; [exact Hw|]. destruct (Hd E) as (der' & Hder & ->). unfold world_of in Hx. rewrite Hx in Hder.
    injection Hder as <-. exists der. auto.
  - unfold require, throw_openssl_error, bind, call, throw, identified. cbn [tls_world].
    pose proof (law_get_error w) as He. destruct (ERR_get_error w) as [code w2].
    split; [reflexivity|]. split; [cbn in *; unfold world_of; cbn; congruence|exact I].
Qed.

(** The certificate is freed at the end. *)
Lemma certificate_scope x der s w1 :
  x <> 0 -> ob_certificates (world_of s) !! x = None ->
  objects w1 = with_certificates (<[x := der]> (ob_certificates (world_of s))) (world_of s) ->
  identified (Some der) s (with_certificate x (certificate_sha256 x) (mkTls w1 (tls_open s))).
Proof.
  intros Hx Hfresh Hw. unfold with_certificate. rewrite (proj2 (Z.eqb_neq _ _) Hx). unfold owned.
  pose proof (certificate_digest x der (mkTls w1 (tls_open s))) as Hd. unfold world_of at 1 in Hd. cbn [tls_world] in Hd.
  rewrite Hw in Hd. specialize (Hd (lookup_insert_eq _ _ _)). unfold identified in *.
  destruct (certificate_sha256 x _) as [r s2]. cbn [fst snd] in *. destruct Hd as (Ho & Hw2 & Hr).
  split; [exact Ho|]. split; [|exact Hr]. unfold world_of at 1. cbn [tls_world]. rewrite law_certificate_free.
  change (objects (tls_world s2)) with (world_of s2). rewrite Hw2. unfold world_of at 1 2. cbn [tls_world]. rewrite Hw.
  destruct (world_of s). unfold with_certificates in *. cbn in *. f_equal. rewrite delete_insert_eq. apply delete_id, Hfresh.
Qed.
Lemma certificate_missing (s : Tls W) w1 p :
  objects w1 = world_of s -> identified p s (with_certificate 0 (certificate_sha256 0) (mkTls w1 (tls_open s))).
Proof. intros Hw. repeat split. exact Hw. Qed.

Lemma peer_identified ssl s : identified (peer_certificate (tls_world s) ssl) s (peer_certificate_sha256 ssl s).
Proof.
  unfold peer_certificate_sha256, bind at 1, lift, reject_if. if_goal E; [repeat split|].
  unfold bind at 1 2, get, lift, reject_if. if_goal E'; [repeat split|]. unfold bind, call.
  pose proof (law_peer ssl (tls_world s)) as Hl. destruct (SSL_get1_peer_certificate ssl (tls_world s)) as [x w1].
  destruct (x =? 0) eqn:Ex; b2p.
  - subst x. destruct Hl as [Hw ->]. apply certificate_missing, Hw.
  - destruct Hl as (der & -> & Hf & Hw). apply certificate_scope; assumption.
Qed.
Lemma identified_held p (m : M (Tls W) string) s :
  (forall s, identified p s (m s)) -> identified p s (held ResStream m s).
Proof.
  intros Hm. unfold held. specialize (Hm (mkTls (tls_world s) (ResStream :: tls_open s))). unfold identified in *.
  destruct (m _) as [r s']. cbn [fst snd tls_open] in *. destruct Hm as (Ho & Hw & Hr).
  split; [rewrite Ho; apply give_back_head|]. auto.
Qed.
Lemma file_identified can_open file s : identified (file_certificate file) s (certificate_file_sha256 can_open file s).
Proof.
  unfold certificate_file_sha256, bind at 1, lift, reject_if. if_goal E; [repeat split|].
  apply identified_held. clear. intros s. unfold bind at 1, call.
  pose proof (law_read_certificate file (tls_world s)) as Hl. destruct (PEM_read_X509 file (tls_world s)) as [x w1].
  destruct (x =? 0) eqn:Ex; b2p.
  - unfold require, throw_openssl_error, bind, call, throw, identified. cbn [negb tls_world].
    pose proof (law_get_error w1) as He. destruct (ERR_get_error w1) as [code w2]. cbn in *.
    split; [reflexivity|]. split; [unfold world_of; cbn; congruence|exact I].
  - destruct Hl as (der & -> & Hf & Hw). unfold bind. cbn [negb require]. unfold ret. apply certificate_scope; assumption.
Qed.
Lemma identity_length der : String.length (identity_of der) = 71%nat.
Proof.
  destruct (sha256_bytes der) as [Hb Hl]. unfold identity_of. rewrite string_app_length, hex_digits_length by exact Hb.
  unfold zlen in Hl. cbn. lia.
Qed.
Lemma substring_whole n t : String.length t = n -> String.substring 0 n t = t.
Proof. intros <-. induction t as [|c t IH]; cbn; [reflexivity|]. f_equal. exact IH. Qed.
Lemma read_identity der : read_hex (String.substring 7 64 (identity_of der)) = Some (sha256 der).
Proof.
  destruct (sha256_bytes der) as [Hb Hl]. unfold identity_of.
  change (read_hex (String.substring 0 64 (hex_digits (sha256 der))) = Some (sha256 der)).
  rewrite substring_whole; [apply read_hex_digits, Hb|]. rewrite hex_digits_length by exact Hb. unfold zlen in Hl. lia.
Qed.
End IdentityFacts.

(** ** Properties *)

(** C28: A TLS context is made with every restriction or not at all.  A server's
    context that is returned is new, offers neither SSL 3 nor TLS 1.0 or 1.1,
    accepts TLS 1.2 and later with forward-secret authenticated suites only,
    presents the configured chain with the key that is the whole contents of the
    file, which only the service's user can read, and asks every client for a
    certificate of the configured authority, checked against the revocation list
    when one is given.  A client's context does the same and checks the server's
    certificate and its name.  Either way the BIO, the key, the buffer and the
    file are given back; when a function throws, its context is too, and there
    was a reason: an empty setting, a key file that is refused, or a library that
    cannot make a context of just these files and this key ([works]); with a
    library that can, the functions return. *)
Theorem tls_contexts_hardened {W} `{OpenSslLaws W} {F} `{InputStreamLaws F} (stream : string -> F) (s : Tls W) :
  (forall (posix : PosixFiles) config, match make_server_tls_context stream config s with
   | (Ok c, s') => tls_open s' = tls_open s /\ posix_guarded (private_key_file config) /\
       context_created (server_settings config (contents (stream (private_key_file config)))) (world_of s) c (world_of s')
   | (Throw _, s') => tls_open s' = tls_open s /\ world_of s' = world_of s /\ server_refuses W stream config
   end) /\
  (forall Sid (files : ClientFiles Sid) config, match make_client_tls_context stream key_fuel config s with
   | (Ok (Some c), s') => tls_open s' = tls_open s /\
       (client_platform = Windows -> windows_guarded (ct_private_key_file config)) /\
       context_created (client_settings config (contents (stream (ct_private_key_file config)))) (world_of s) c (world_of s')
   | (Ok None, _) => False
   | (Throw _, s') => tls_open s' = tls_open s /\ world_of s' = world_of s /\ client_refuses W stream config
   end).
Proof. split; intros; [apply server_context|apply client_context]. Qed.

(** A session's identity names the certificate that was presented and
    nothing else.  [peer_certificate_sha256] returns only for a connection
    whose peer passed the verification, and then returns the fingerprint of what
    that peer presented; [certificate_file_sha256] returns the same text for a
    file that holds the same certificate.  Both free the certificate on every
    path.  The text has 71 characters and gives the digest back, so two
    identities are equal exactly when the digests are. *)
Theorem certificate_identity {W} `{OpenSslLaws W} (s : Tls W) :
  (forall ssl, identified (peer_certificate (tls_world s) ssl) s (peer_certificate_sha256 ssl s) /\
     (is_ok (peer_certificate_sha256 ssl s).1 = true -> ssl <> 0 /\ SSL_get_verify_result ssl (tls_world s) = X509_V_OK)) /\
  (forall can_open file, identified (file_certificate file) s (certificate_file_sha256 can_open file s)) /\
  forall der, String.length (identity_of der) = 71%nat /\
    read_hex (String.substring 7 64 (identity_of der)) = Some (sha256 der) /\
    forall der', identity_of der = identity_of der' <-> sha256 der = sha256 der'.
Proof.
  split; [|split].
  - intros ssl. unfold peer_certificate_sha256. split; [apply peer_identified|]. unfold bind at 1, lift, reject_if.
    if_goal E; [discriminate|]. b2p. unfold bind at 1 2, get, lift, reject_if. if_goal E'; [discriminate|]. b2p. auto.
  - intros can_open file. apply file_identified.
  - intros der. destruct (sha256_bytes der) as [Hb Hl]. split; [|split].
    + apply identity_length.
    + apply read_identity.
    + intros der'. split; [|unfold identity_of; congruence]. intros E. apply (f_equal (String.substring 7 64)) in E.
      apply (f_equal read_hex) in E. rewrite !read_identity in E. congruence.
Qed.

(** ** Witnesses *)

(** A library that keeps its objects; the calls named in [broken] fail.  A
    store is numbered like its context, a lookup after its store. *)
Module Sample.
Section Library.
Variable broken : list string.

Definition fails (name : string) : bool := bool_decide (name ∈ broken).
Definition fresh_handle {A} (m : gmap Z A) : Z := fresh ({[0]} ∪ dom m : gset Z).
(** A call that creates, and one that changes a context and answers [good]. *)
Definition create (name : string) {A} (m : gmap Z A) (add : Z -> Objects) (o : Objects) : Z * Objects :=
  if fails name then (0, o) else (fresh_handle m, add (fresh_handle m)).
Definition setting (name : string) (good : Z) (c : Z) (f : Settings -> Settings) (o : Objects) : Z * Objects :=
  if fails name then (2, o) else (good, on_context c f o).
Definition initial (m : TlsMethod) : Settings := mkSettings m 0x20000 None None 0 None [] [] 0 0 None None.
Definition presented (ssl : Z) : option bytes :=
  if ssl =? 1 then Some [48; 1] else if ssl =? 2 then Some [48; 2] else None.
Definition stored (file : string) : option bytes := if bool_decide (file = "one.crt") then Some [48; 1] else None.
Definition digest (der : bytes) : bytes := map u8 (take 32 (der ++ replicate 32 0)).

(** The lookup of a store, not null, and back. *)
Definition lookup_of (s : Z) : Z := if 0 <=? s then s + 1 else s.
Definition store_of (l : Z) : Z := if 0 <? l then l - 1 else l.

#[export] Instance library : OpenSsl Objects := {|
  ERR_get_error o := (1, o);
  ERR_error_string_n _ _ := "error";
  new_context m o := if fails "new_context" then ((3, 0), o)
    else ((0, fresh_handle (ob_contexts o)), with_contexts (<[fresh_handle (ob_contexts o) := initial m]> (ob_contexts o)) o);
  free_context c o := with_contexts (delete c (ob_contexts o)) o;
  set_options c x := on_context c (add_options x);
  use_certificate_chain_file c f := setting "use_certificate_chain_file" 0 c (put_chain f);
  load_verify_file c f := setting "load_verify_file" 0 c (add_authority f);
  set_verify_mode c x := on_context c (put_verify_mode x);
  set_verify_callback c x := on_context c (put_host_name x);
  BIO_new_mem_buf d o := create "BIO_new_mem_buf" (ob_bios o) (fun b => with_bios (<[b := d]> (ob_bios o)) o) o;
  BIO_free b o := with_bios (delete b (ob_bios o)) o;
  PEM_read_bio_PrivateKey b o := match ob_bios o !! b with
    | Some d => create "PEM_read_bio_PrivateKey" (ob_keys o) (fun k => with_keys (<[k := d]> (ob_keys o)) o) o
    | None => (0, o)
    end;
  EVP_PKEY_free k o := with_keys (delete k (ob_keys o)) o;
  SSL_CTX_use_PrivateKey c k o := setting "SSL_CTX_use_PrivateKey" 1 c (put_key (ob_keys o !! k)) o;
  SSL_CTX_get_cert_store c _ := c;
  X509_STORE_add_lookup s o := (if fails "X509_STORE_add_lookup" then 0 else lookup_of s, o);
  X509_load_crl_file l f := setting "X509_load_crl_file" 1 (store_of l) (add_revocations f);
  X509_STORE_set_flags s x := setting "X509_STORE_set_flags" 1 s (add_store_flags x);
  SSL_CTX_check_private_key _ _ := if fails "SSL_CTX_check_private_key" then 0 else 1;
  SSL_CTX_set_min_proto_version c x := setting "SSL_CTX_set_min_proto_version" 1 c (put_min_version x);
  SSL_CTX_set_cipher_list c x := setting "SSL_CTX_set_cipher_list" 1 c (put_cipher_list x);
  SSL_CTX_set_ciphersuites c x := setting "SSL_CTX_set_ciphersuites" 1 c (put_ciphersuites x);
  SSL_get_verify_result ssl _ := if ssl =? 2 then 10 else X509_V_OK;
  SSL_get1_peer_certificate ssl o := match presented ssl with
    | Some der => let x := fresh_handle (ob_certificates o) in
        (x, with_certificates (<[x := der]> (ob_certificates o)) o)
    | None => (0, o)
    end;
  PEM_read_X509 f o := match stored f with
    | Some der => let x := fresh_handle (ob_certificates o) in
        (x, with_certificates (<[x := der]> (ob_certificates o)) o)
    | None => (0, o)
    end;
  X509_digest x o := match ob_certificates o !! x with
    | Some der => if fails "X509_digest" then ((0, []), o) else ((1, digest der), o)
    | None => ((0, []), o)
    end;
  X509_free x o := with_certificates (delete x (ob_certificates o)) o;
  SSL_set_tlsext_host_name _ _ o := (1, o)
|}.

Lemma fresh_handle_new {A} (m : gmap Z A) : fresh_handle m <> 0 /\ m !! fresh_handle m = None.
Proof.
  pose proof (is_fresh ({[0]} ∪ dom m : gset Z)) as Hf. fold (fresh_handle m) in Hf. split; [set_solver|].
  apply not_elem_of_dom. set_solver.
Qed.
Lemma setting_changed name good c f o : (good =? 2) = false ->
  let '(r, o') := setting name good c f o in changed c (r =? good) f o o'.
Proof.
  intros Hg. unfold setting, changed. destruct (fails name); [|rewrite Z.eqb_refl; reflexivity].
  rewrite Z.eqb_sym, Hg. exists (fun t => t). destruct o as [m ? ? ?]. unfold on_context, with_contexts. cbn. f_equal.
  symmetry. apply map_eq. intros k. destruct (decide (k = c)) as [->|Hk].
  - rewrite lookup_alter_eq. destruct (m !! c); reflexivity.
  - apply lookup_alter_ne. congruence.
Qed.
Lemma create_new name {A} (m : gmap Z A) add o :
  let '(b, o') := create name m add o in if b =? 0 then o' = o else m !! b = None /\ o' = add b.
Proof.
  unfold create. destruct (fails name); [reflexivity|]. destruct (fresh_handle_new m) as [Hn Hf].
  rewrite (proj2 (Z.eqb_neq _ _) Hn). auto.
Qed.

Lemma store_of_lookup s : store_of (lookup_of s) = s /\ lookup_of s <> 0.
Proof.
  unfold store_of, lookup_of. destruct (0 <=? s) eqn:E; b2p;
    [rewrite (proj2 (Z.ltb_lt 0 (s + 1))) by lia; lia|rewrite (proj2 (Z.ltb_ge 0 s)) by lia; lia].
Qed.

#[export] Instance library_laws : OpenSslLaws Objects.
Proof.
  refine {| objects o := o; store_context _ s := Some s; lookup_context _ l := Some (store_of l);
            peer_certificate _ ssl := presented ssl; file_certificate := stored; sha256 := digest |};
    try reflexivity; intros; try (apply setting_changed; reflexivity).
  - unfold digest. split.
    + apply Forall_forall. intros x (y & -> & _)%list_elem_of_fmap. apply u8_range.
    + unfold zlen. rewrite length_map, length_take, length_app, length_replicate. lia.
  - cbn. destruct (fails "new_context"); [reflexivity|]. exists (initial m). destruct (fresh_handle_new (ob_contexts w)).
    auto 10.
  - cbn. pose proof (create_new "BIO_new_mem_buf" (ob_bios w) (fun b => with_bios (<[b := data]> (ob_bios w)) w) w) as Hc.
    exact Hc.
  - cbn. destruct (ob_bios w !! b) as [d|] eqn:E; [|reflexivity].
    pose proof (create_new "PEM_read_bio_PrivateKey" (ob_keys w) (fun k => with_keys (<[k := d]> (ob_keys w)) w) w) as Hc.
    destruct (create _ _ _ _) as [k o']. destruct (k =? 0); [exact Hc|]. exists d. auto.
  - cbn. destruct (fails "X509_STORE_add_lookup"); (split; [reflexivity|]; split; [reflexivity|]); intros Hn; [congruence|].
    f_equal. apply store_of_lookup.
  - pose proof (setting_changed "X509_load_crl_file" 1 (store_of l) (add_revocations f) w eq_refl) as Hc. cbn.
    destruct (setting _ _ _ _ _) as [r o']. split; [reflexivity|]. intros c [= <-]. exact Hc.
  - pose proof (setting_changed "X509_STORE_set_flags" 1 s (add_store_flags x) w eq_refl) as Hc. cbn.
    destruct (setting _ _ _ _ _) as [r o']. intros c [= <-]. exact Hc.
  - cbn. destruct (presented ssl) as [der|]; [|split; reflexivity]. destruct (fresh_handle_new (ob_certificates w)) as [Hn Hf].
    rewrite (proj2 (Z.eqb_neq _ _) Hn). exists der. auto.
  - cbn. destruct (stored f) as [der|]; [|reflexivity]. destruct (fresh_handle_new (ob_certificates w)) as [Hn Hf].
    rewrite (proj2 (Z.eqb_neq _ _) Hn). exists der. auto.
  - cbn. destruct (ob_certificates w !! x) as [der|]; [|split; [reflexivity|discriminate]].
    destruct (fails "X509_digest"); (split; [reflexivity|]); [discriminate|]. intros _. exists der. auto.
Defined.
End Library.

(** Without a broken call the library makes every context. *)
Lemma library_works cr : @works Objects (library []) (library_laws []) cr.
Proof.
  constructor; try reflexivity; cbn.
  - intros w. apply fresh_handle_new.
  - intros b w E. rewrite E. apply fresh_handle_new.
  - intros c s w _ _. apply store_of_lookup.
Qed.

Definition nothing : Tls Objects := mkTls (mkObjects ∅ ∅ ∅ ∅) [].
Definition key_file (_ : string) : bytes := [45; 45; 45].
Definition server_config : ServerTlsConfig := mkServerTls "server.crt" "server.key" "ca.crt" "revoked.pem".
Definition client_config : ClientTlsConfig := mkClientTls "ca.crt" "client.crt" "client.key" "vpn.example".

(** A server's context is made; without the revocation list it is not, and
    nothing of it is left. *)
Definition made := @make_server_tls_context _ (library []) sample_posix _ _ key_file server_config nothing.
Definition not_made :=
  @make_server_tls_context _ (library ["X509_load_crl_file"]) sample_posix _ _ key_file server_config nothing.
Definition client_made := @make_client_tls_context _ (library []) _ sample_files _ _ key_file key_fuel client_config nothing.

Lemma server_accepted : ~ @server_refuses Objects _ (library_laws []) sample_posix _ _ _ key_file server_config.
Proof.
  unfold server_refuses. intros [E|[E|[E|[E|[[o E]|E]]]]]; try discriminate E.
  apply E, library_works.
Qed.
Lemma client_accepted : ~ @client_refuses Objects _ (library_laws []) _ sample_files _ _ _ key_file client_config.
Proof.
  unfold client_refuses. intros [E|[E|[E|[E|[E|[[o E]|(fuel & e & E)]]]]]]; try discriminate E.
  - apply E, library_works.
  - destruct fuel as [|[|fuel]]; discriminate E.
Qed.

(** The functions return for a library that works, and these refuse nothing. *)
Lemma tls_contexts_hardened_witness :
  (exists c t, made.1 = Ok c /\ tls_open made.2 = [] /\ server_settings server_config [45; 45; 45] t /\
     tls_world made.2 = mkObjects {[c := t]} ∅ ∅ ∅) /\
  not_made = (Throw (RuntimeError "failed to load client certificate CRL: error"), nothing) /\
  @server_refuses Objects _ (library_laws ["X509_load_crl_file"]) sample_posix _ _ _ key_file server_config /\
  ~ @server_refuses Objects _ (library_laws []) sample_posix _ _ _ key_file server_config /\
  ~ @client_refuses Objects _ (library_laws []) _ sample_files _ _ _ key_file client_config /\
  (exists c t, client_made.1 = Ok (Some c) /\ client_settings client_config [45; 45; 45] t /\
     tls_world client_made.2 = mkObjects {[c := t]} ∅ ∅ ∅).
Proof.
  destruct (@tls_contexts_hardened _ _ (library_laws []) _ _ _ key_file nothing) as [Hs Hc].
  destruct (@tls_contexts_hardened _ _ (library_laws ["X509_load_crl_file"]) _ _ _ key_file nothing) as [Hr _].
  specialize (Hs sample_posix server_config). specialize (Hr sample_posix server_config).
  specialize (Hc _ sample_files client_config).
  assert (Em : is_ok made.1 = true) by (vm_compute; reflexivity).
  assert (Ec : is_ok client_made.1 = true) by (vm_compute; reflexivity).
  assert (En : not_made = (Throw (RuntimeError "failed to load client certificate CRL: error"), nothing)) by (vm_compute; reflexivity).
  split; [|split; [exact En|split; [|split; [exact server_accepted|split; [exact client_accepted|]]]]].
  - unfold made in *. destruct (make_server_tls_context _ _ _) as [[c|e] s']; [|discriminate Em].
    destruct Hs as (Ho & _ & t & _ & Ht & Hw). exists c, t. split; [reflexivity|]. split; [exact Ho|]. split; [exact Ht|exact Hw].
  - unfold not_made in En. rewrite En in Hr. exact (proj2 (proj2 Hr)).
  - unfold client_made in *. destruct (make_client_tls_context _ _ _ _) as [[[c|]|e] s']; [|contradiction|discriminate Ec].
    destruct Hc as (Ho & _ & t & _ & Ht & Hw). exists c, t. split; [reflexivity|]. split; [exact Ht|exact Hw].
Defined.

(** The peer of connection 1 and the file present the same certificate; that
    of connection 2 fails the verification, and 3 has none. *)
Lemma certificate_identity_witness :
  let identity := "sha256:3001" +:+ String.concat "" (repeat "00" 30) in
  @peer_certificate_sha256 _ (library []) 1 nothing = (Ok identity, nothing) /\
  @certificate_file_sha256 _ (library []) (fun _ => true) "one.crt" nothing = (Ok identity, nothing) /\
  (@peer_certificate_sha256 _ (library []) 2 nothing).1 = Throw (RuntimeError "peer certificate verification did not succeed") /\
  (@peer_certificate_sha256 _ (library []) 3 nothing).1 = Throw (RuntimeError "peer did not provide an X.509 certificate") /\
  @identity_of _ _ (library_laws []) [48; 1] <> @identity_of _ _ (library_laws []) [48; 2].
Proof.
  destruct (@certificate_identity _ _ (library_laws []) nothing) as (_ & _ & Hi).
  destruct (Hi [48; 1]) as (_ & _ & Hinj).
  split; [vm_compute; reflexivity|]. split; [vm_compute; reflexivity|]. split; [vm_compute; reflexivity|].
  split; [vm_compute; reflexivity|]. intros E. apply (Hinj [48; 2]) in E. vm_compute in E. discriminate E.
Defined.
End Sample.
