(* ===== verification/LinuxTunDevice.v ===== *)
(** * The TUN device of the server

    Models src/server/linux_tun_device.cpp and its header: opening the device,
    reading the host's packets one at a time, and writing packets to it from a
    queue bounded in packets and bytes.  The two handlers are the interface
    [TunHost], which the server of TunnelServer.v implements. *)
From S2P Require Import Prelude Bytes LeaseService SessionController TunnelRouter ServerMetrics TunnelSession TunnelServer ServerSystem.
From S2P Require Import Protocol ControlMessages OutboundQueue AsyncIo FrameWriter.

(** The error codes: those of [boost::system::errc] that the device makes, and
    those an operation ends with. *)
Inductive TunError :=
| InvalidArgumentError | NotConnected | MessageSize | NoBufferSpace | IoError
| OperationError (code : Z).

Class TunHost (W : Type) := {
  packet_handler : bytes -> M W unit;
  error_handler : TunError -> M W unit
}.

Definition kMaximumPacketSize : Z := 65535.

(** [has_packet_handler] and [has_error_handler] say whether the handlers are
    set; [written] of the descriptor holds the packets handed to the device. *)
Record LinuxTunDevice := mkTun {
  descriptor_ : Stream;
  name_ : bytes;
  maximum_queued_packets_ : Z;
  maximum_queued_bytes_ : Z;
  has_packet_handler : bool;
  has_error_handler : bool;
  write_queue_ : list bytes;
  tun_queued_bytes_ : Z;
  tun_write_in_progress_ : bool;
  tun_started_ : bool;
  tun_stopped_ : bool
}.

Definition put_descriptor (x : Stream) (t : LinuxTunDevice) : LinuxTunDevice :=
  mkTun x (name_ t) (maximum_queued_packets_ t) (maximum_queued_bytes_ t) (has_packet_handler t)
    (has_error_handler t) (write_queue_ t) (tun_queued_bytes_ t) (tun_write_in_progress_ t) (tun_started_ t) (tun_stopped_ t).
Definition put_handlers (packet error : bool) (t : LinuxTunDevice) : LinuxTunDevice :=
  mkTun (descriptor_ t) (name_ t) (maximum_queued_packets_ t) (maximum_queued_bytes_ t) packet
    error (write_queue_ t) (tun_queued_bytes_ t) (tun_write_in_progress_ t) (tun_started_ t) (tun_stopped_ t).
Definition put_write_queue (x : list bytes) (n : Z) (t : LinuxTunDevice) : LinuxTunDevice :=
  mkTun (descriptor_ t) (name_ t) (maximum_queued_packets_ t) (maximum_queued_bytes_ t) (has_packet_handler t)
    (has_error_handler t) x n (tun_write_in_progress_ t) (tun_started_ t) (tun_stopped_ t).
Definition put_tun_writing (x : bool) (t : LinuxTunDevice) : LinuxTunDevice :=
  mkTun (descriptor_ t) (name_ t) (maximum_queued_packets_ t) (maximum_queued_bytes_ t) (has_packet_handler t)
    (has_error_handler t) (write_queue_ t) (tun_queued_bytes_ t) x (tun_started_ t) (tun_stopped_ t).
Definition put_tun_started (x : bool) (t : LinuxTunDevice) : LinuxTunDevice :=
  mkTun (descriptor_ t) (name_ t) (maximum_queued_packets_ t) (maximum_queued_bytes_ t) (has_packet_handler t)
    (has_error_handler t) (write_queue_ t) (tun_queued_bytes_ t) (tun_write_in_progress_ t) x (tun_stopped_ t).
Definition put_tun_stopped (x : bool) (t : LinuxTunDevice) : LinuxTunDevice :=
  mkTun (descriptor_ t) (name_ t) (maximum_queued_packets_ t) (maximum_queued_bytes_ t) (has_packet_handler t)
    (has_error_handler t) (write_queue_ t) (tun_queued_bytes_ t) (tun_write_in_progress_ t) (tun_started_ t) x.

(** ** Opening *)

(** [LinuxTunDevice::adopt], for a descriptor that the [io_context] accepts. *)
Definition adopt (native_descriptor : Z) (name : bytes) (maximum_queued_packets maximum_queued_bytes : Z) :
    outcome LinuxTunDevice :=
  let? _ := reject_if (native_descriptor <? 0) (InvalidArgument "TUN descriptor must be valid") in
  let? _ := reject_if (zlen name =? 0) (InvalidArgument "TUN interface name must not be empty") in
  let? _ := reject_if ((maximum_queued_packets =? 0) || (maximum_queued_bytes =? 0))
    (InvalidArgument "TUN write queue limits must be positive") in
  Ok (mkTun fresh_stream name maximum_queued_packets maximum_queued_bytes false false [] 0 false false false).

(** What the code uses of the kernel.  [dev_net_tun] is what opening the device
    file gives, and [tun_set_iff] what attaching an interface does with the name
    that is asked for: a descriptor and the interface's name, or [errno]. *)
Class TunKernel := {
  dev_net_tun : Z + Z;
  tun_set_iff : Z -> bytes -> bytes + Z
}.

Definition IFNAMSIZ : Z := 16.

(** The state is the list of open descriptors. *)
Definition open_tun `{TunKernel} (requested_name : bytes) (maximum_queued_packets maximum_queued_bytes : Z) :
    M (list Z) LinuxTunDevice :=
  let* _ := lift (reject_if (IFNAMSIZ <=? zlen requested_name) (InvalidArgument "TUN interface name is too long")) in
  let* _ := lift (reject_if ((maximum_queued_packets =? 0) || (maximum_queued_bytes =? 0))
    (InvalidArgument "TUN write queue limits must be positive")) in
  match dev_net_tun with
  | inr errno => throw (SystemError errno "failed to open /dev/net/tun")
  | inl descriptor =>
      let* _ := modify (fun open_ => descriptor :: open_) in
      match tun_set_iff descriptor requested_name with
      | inr error =>
          let* _ := modify (fun open_ => tail open_) in
          throw (SystemError error "failed to attach TUN interface")
      | inl name => lift (adopt descriptor name maximum_queued_packets maximum_queued_bytes)
      end
  end.

(** ** Operations *)

Section Tun.
Context {W : Type} `{TH : TunHost W}.

Abbreviation St := (W * LinuxTunDevice)%type.

Definition self : M St LinuxTunDevice := fun st => (Ok st.2, st).
Definition assign (f : LinuxTunDevice -> LinuxTunDevice) : M St unit := fun '(w, t) => (Ok tt, (w, f t)).
Definition on_host {A} (m : M W A) : M St A := fun '(w, t) => let '(r, w') := m w in (r, (w', t)).
Definition on_descriptor (f : Stream -> Stream) : M St unit :=
  assign (fun t => put_descriptor (f (descriptor_ t)) t).

Definition stop_on_strand : M St unit :=
  let* t := self in
  if tun_stopped_ t then ret tt
  else
    let* _ := assign (put_tun_stopped true) in
    let* _ := assign (put_write_queue [] 0) in
    let* _ := assign (put_handlers false false) in
    on_descriptor close_stream.

(** [std::move] leaves [error_handler_] empty. *)
Definition fail (error : TunError) : M St unit :=
  let* t := self in
  if tun_stopped_ t then ret tt
  else
    let handler := has_error_handler t in
    let* _ := assign (put_handlers (has_packet_handler t) false) in
    let* _ := stop_on_strand in
    if handler then on_host (error_handler error) else ret tt.

Definition read_next : M St unit := on_descriptor async_read_some.

Definition handle_read (error : option Z) (data : bytes) : M St unit :=
  let* t := self in
  if tun_stopped_ t then ret tt
  else match error with
       | Some code => fail (OperationError code)
       | None =>
           if zlen data =? 0 then fail IoError
           else
             let* _ := if has_packet_handler t then on_host (packet_handler data) else throw BadFunctionCall in
             read_next
       end.

Definition write_next : M St unit :=
  let* t := self in
  if tun_stopped_ t then assign (put_tun_writing false)
  else match write_queue_ t with
       | [] => assign (put_tun_writing false)
       | packet :: _ =>
           let* _ := assign (put_tun_writing true) in
           on_descriptor (async_write packet)
       end.

Definition enqueue_write (packet : bytes) : M St unit :=
  let* t := self in
  if tun_stopped_ t then ret tt
  else if negb (tun_started_ t) then fail NotConnected
  else if (zlen packet =? 0) || (kMaximumPacketSize <? zlen packet) then fail MessageSize
  else if (maximum_queued_packets_ t <=? zlen (write_queue_ t)) ||
          (u64 (maximum_queued_bytes_ t - tun_queued_bytes_ t) <? zlen packet) then fail NoBufferSpace
  else
    let* _ := assign (put_write_queue (write_queue_ t ++ [packet]) (u64 (tun_queued_bytes_ t + zlen packet))) in
    if negb (tun_write_in_progress_ t) then write_next else ret tt.

Definition handle_write (error : option Z) (bytes_transferred : Z) : M St unit :=
  let* t := self in
  if tun_stopped_ t then ret tt
  else match error with
       | Some code => fail (OperationError code)
       | None =>
           match write_queue_ t with
           | [] => fail IoError
           | packet :: rest =>
               if negb (bytes_transferred =? zlen packet) then fail IoError
               else
                 let* _ := assign (put_write_queue rest (u64 (tun_queued_bytes_ t - zlen packet))) in
                 write_next
           end
       end.

Definition start_on_strand : M St unit :=
  let* t := self in
  if tun_stopped_ t then ret tt
  else if tun_started_ t then fail InvalidArgumentError
  else
    let* _ := assign (put_tun_started true) in
    let* _ := assign (put_handlers true true) in
    read_next.

(** [LinuxTunDevice::start], which dispatches to the strand; the arguments say
    whether the handlers are not empty. *)
Definition start (packet_handler error_handler : bool) : M St unit :=
  let* _ := lift (reject_if (negb packet_handler || negb error_handler)
    (InvalidArgument "TUN packet and error handlers must be configured")) in
  start_on_strand.

(** ** The events of the device *)

Inductive tun_event :=
| TnStart
| TnRead (error : option Z) (data : bytes)
| TnWritePacket (packet : bytes)
| TnWrite (error : option Z) (bytes_transferred : Z)
| TnStop.

Definition run_event (e : tun_event) : M St unit :=
  match e with
  | TnStart => start true true
  | TnRead error data => let* _ := on_descriptor read_completes in handle_read error data
  | TnWritePacket packet => enqueue_write packet
  | TnWrite error n => let* _ := on_descriptor write_completes in handle_write error n
  | TnStop => stop_on_strand
  end.

(** Completions belong to operations in flight. *)
Definition possible (e : tun_event) (t : LinuxTunDevice) : Prop :=
  match e with
  | TnRead _ data => (reading (descriptor_ t) = true /\ zlen data <= kMaximumPacketSize) /\ is_bytes data
  | TnWrite _ _ => is_Some (writing (descriptor_ t))
  | TnStart | TnWritePacket _ | TnStop => True
  end.
End Tun.

(** ** Specification *)

(** What the device relies on: the handlers return; [th_open] is kept. *)
Class TunHostLaws (W : Type) `{TunHost W} := {
  th_open : W -> Prop;
  th_done : W -> Prop;
  th_packet p w : is_bytes p -> th_open w -> exists w', packet_handler p w = (Ok tt, w') /\ th_open w';
  th_error e w : th_open w -> exists w', error_handler e w = (Ok tt, w') /\ th_done w'
}.

(** The queue as the one of OutboundQueue.v, with the same two limits. *)
Definition tun_queue (t : LinuxTunDevice) : OutboundFrameQueue :=
  mkQueue (maximum_queued_packets_ t) (maximum_queued_bytes_ t) (tun_queued_bytes_ t) (write_queue_ t).
(** The packets handed to the device and those that wait. *)
Definition taken_in (t : LinuxTunDevice) : list bytes :=
  written (descriptor_ t) ++ waiting (tun_queue t) (tun_write_in_progress_ t).

Record tun_live (t : LinuxTunDevice) : Prop := {
  tl_stopped : tun_stopped_ t = false;
  tl_writer : writer_ok (descriptor_ t) (tun_queue t) (tun_write_in_progress_ t);
  tl_started : has_packet_handler t = tun_started_ t /\ has_error_handler t = tun_started_ t;
  tl_reading : reading (descriptor_ t) = tun_started_ t;
  tl_idle : tun_started_ t = false -> write_queue_ t = []
}.
Record tun_over (t : LinuxTunDevice) : Prop := {
  to_stopped : tun_stopped_ t = true;
  to_closed : closed (descriptor_ t) = true;
  to_safe : misused (descriptor_ t) = false;
  to_queue : write_queue_ t = [] /\ tun_queued_bytes_ t = 0;
  to_handlers : has_packet_handler t = false /\ has_error_handler t = false
}.

(** A packet is taken in when the device runs and has room for it. *)
Definition takes (packet : bytes) (t : LinuxTunDevice) : Prop :=
  tun_started_ t = true /\ 1 <= zlen packet <= kMaximumPacketSize /\
  zlen (write_queue_ t) < maximum_queued_packets_ t /\
  total (write_queue_ t) + zlen packet <= maximum_queued_bytes_ t.
#[export] Instance takes_dec packet t : Decision (takes packet t).
Proof. unfold takes. apply _. Defined.

(** How the device ends: by [stop]; before it was started, in silence; and
    else by telling its owner. *)
Inductive ends {W} `{TunHost W} (e : tun_event) (t : LinuxTunDevice) (w w' : W) : Prop :=
| ends_stop : e = TnStop -> w' = w -> ends e t w w'
| ends_early : tun_started_ t = false -> w' = w -> ends e t w w'
| ends_told error : tun_started_ t = true -> e <> TnStop -> error_handler error w = (Ok tt, w') -> ends e t w w'.

(** ** Lemmas *)

Section Facts.
Context {W : Type} {TH : TunHost W} {TL : TunHostLaws W}.
Implicit Types (w : W) (t : LinuxTunDevice).

Definition stopped_now t : LinuxTunDevice :=
  put_descriptor (close_stream (descriptor_ t)) (put_handlers false false (put_write_queue [] 0 (put_tun_stopped true t))).

Lemma stop_eq w t : tun_stopped_ t = false -> stop_on_strand (w, t) = (Ok tt, (w, stopped_now t)).
Proof. intros E. unfold stop_on_strand, bind, self, assign, on_descriptor. cbn. rewrite E. reflexivity. Qed.

Lemma tun_fail_eq error w t :
  tun_stopped_ t = false ->
  fail error (w, t) =
    let '(r, w') := if has_error_handler t then error_handler error w else (Ok tt, w) in (r, (w', stopped_now t)).
Proof.
  intros E. unfold fail, bind at 1, self. cbn [snd]. rewrite E. unfold bind, assign.
  rewrite stop_eq by exact E. destruct (has_error_handler t); reflexivity.
Qed.

Lemma stopped_over t : misused (descriptor_ t) = false -> tun_over (stopped_now t).
Proof. intros Hm. constructor; auto. Qed.

(** An event that ends the device. *)
Definition failing (e : tun_event) w t : Prop :=
  exists w' t', run_event e (w, t) = (Ok tt, (w', t')) /\ tun_over t' /\
    written (descriptor_ t') = written (descriptor_ t) /\ ends e t w w' /\
    (tun_started_ t = true -> e <> TnStop -> th_done w').

Lemma fail_failing e error w t d :
  tun_live t -> th_open w -> e <> TnStop -> misused d = false -> written d = written (descriptor_ t) ->
  run_event e (w, t) = fail error (w, put_descriptor d t) -> failing e w t.
Proof.
  intros [Hs _ [_ Hh] _ _] Hw He Hm Hwr E. unfold failing. rewrite E, tun_fail_eq by exact Hs.
  change (has_error_handler (put_descriptor d t)) with (has_error_handler t). rewrite Hh.
  destruct (tun_started_ t) eqn:Est.
  - destruct (th_error error w Hw) as (w' & E' & Hd). rewrite E'. exists w', (stopped_now (put_descriptor d t)).
    split; [reflexivity|]. split; [apply stopped_over, Hm|]. split; [exact Hwr|].
    split; [eapply ends_told; eauto|auto].
  - exists w, (stopped_now (put_descriptor d t)). split; [reflexivity|]. split; [apply stopped_over, Hm|]. split; [exact Hwr|].
    split; [apply ends_early; auto|discriminate].
Qed.

(** A step that leaves the device open. *)
Definition goes_on (e : tun_event) (more : list bytes) w t : Prop :=
  exists w' t', run_event e (w, t) = (Ok tt, (w', t')) /\ tun_live t' /\ th_open w' /\ taken_in t' = taken_in t ++ more.

Lemma put_same t : put_descriptor (descriptor_ t) t = t.
Proof. destruct t; reflexivity. Qed.

Lemma u64_total q :
  queue_ok q -> queued_bytes_ q = total (queue_ q) /\ 0 <= total (queue_ q) <= maximum_bytes_ q /\ maximum_bytes_ q < 2 ^ 64.
Proof. intros [_ H1 H2 _]. pose proof (total_nonneg (queue_ q)). lia. Qed.

Definition taken_by (e : tun_event) t : list bytes :=
  match e with TnWritePacket packet => if decide (takes packet t) then [packet] else [] | _ => [] end.

Lemma live_safe t : tun_live t -> misused (descriptor_ t) = false.
Proof. intros H. apply (wo_safe _ _ _ (tl_writer _ H)). Qed.

Ltac run_tun :=
  cbn [run_event]; unfold handle_read, handle_write, enqueue_write, read_next, write_next, on_descriptor, bind, assign, self, on_host;
  cbn [fst snd tun_stopped_ tun_started_ has_packet_handler write_queue_ tun_queued_bytes_ tun_write_in_progress_
    maximum_queued_packets_ maximum_queued_bytes_ descriptor_ put_descriptor put_write_queue put_tun_writing].

Lemma read_event error data w t :
  tun_live t -> th_open w -> (reading (descriptor_ t) = true /\ zlen data <= kMaximumPacketSize) -> is_bytes data ->
  goes_on (TnRead error data) [] w t \/ failing (TnRead error data) w t.
Proof.
  intros Hl Hw [Hr Hd] Hb. pose proof Hl as [Hs [Ho Hm Hq Hbusy] [Hp He] Hrd Hi].
  assert (Hst : tun_started_ t = true) by congruence.
  destruct error as [code|]; [|destruct (zlen data =? 0) eqn:Ez].
  - right. apply (fail_failing _ (OperationError code) w t (read_completes (descriptor_ t))); [exact Hl|exact Hw|discriminate|exact Hm|reflexivity|].
    run_tun. rewrite Hs. reflexivity.
  - right. apply (fail_failing _ IoError w t (read_completes (descriptor_ t))); [exact Hl|exact Hw|discriminate|exact Hm|reflexivity|].
    run_tun. rewrite Hs, Ez. reflexivity.
  - left. destruct (th_packet data w Hb Hw) as (w' & E & Hw').
    exists w', (put_descriptor (async_read_some (read_completes (descriptor_ t))) t). split; [|split; [|split; [exact Hw'|]]].
    + run_tun. rewrite Hs, Ez, Hp, Hst, E. reflexivity.
    + constructor; auto. constructor; cbn; auto. rewrite Hm, Ho. reflexivity.
    + symmetry. apply app_nil_r.
Qed.

Lemma write_event error n w t :
  tun_live t -> th_open w -> possible (TnWrite error n) t ->
  goes_on (TnWrite error n) [] w t \/ failing (TnWrite error n) w t.
Proof.
  intros Hl Hw Hwr. pose proof Hl as [Hs Hwo [Hp He] Hrd Hi]. pose proof Hwo as [Ho Hm Hq Hbusy]. cbn in Hwr.
  destruct (tun_write_in_progress_ t) eqn:Ew; [|destruct Hbusy as [Hn _]; rewrite Hn in Hwr; destruct Hwr; discriminate].
  destruct Hbusy as (packet & rest & Hwt & Eq). cbn [tun_queue queue_] in Eq.
  destruct error as [code|]; [|destruct (n =? zlen packet) eqn:En].
  - right. apply (fail_failing _ (OperationError code) w t (write_completes (descriptor_ t))); [exact Hl|exact Hw|discriminate|exact Hm|reflexivity|].
    run_tun. rewrite Hs. reflexivity.
  - left. destruct (writer_pop (descriptor_ t) (tun_queue t) Hwo) as (Epop & Hwo' & Htk).
    assert (Eb : u64 (tun_queued_bytes_ t - zlen packet) = total rest).
    { unfold pop_front in Epop. cbn [tun_queue queue_] in Epop. rewrite Eq in Epop. injection Epop as E. rewrite Eq in E. exact E. }
    set (t' := put_tun_writing (more (tun_queue t)) (put_descriptor (next_write (descriptor_ t) (tun_queue t))
      (put_write_queue rest (total rest) t))).
    assert (Eq' : tun_queue t' = taken (tun_queue t)) by (unfold taken; cbn [tun_queue queue_]; rewrite Eq; reflexivity).
    exists w, t'. split; [|split; [|split; [exact Hw|]]].
    + run_tun. rewrite Hs, Eq, En. cbn [negb]. rewrite Eb.
      subst t'. unfold more, next_write. cbn [tun_queue queue_]. rewrite Eq. cbn [tail]. destruct rest; cbn; rewrite Hs; reflexivity.
    + constructor; [exact Hs|rewrite Eq'; exact Hwo'|auto| |].
      * subst t'. unfold next_write. destruct (tail _); exact Hrd.
      * intros Hst. apply Hi in Hst. congruence.
    + unfold taken_in. rewrite Eq', app_nil_r. rewrite Ew. exact Htk.
  - right. apply (fail_failing _ IoError w t (write_completes (descriptor_ t))); [exact Hl|exact Hw|discriminate|exact Hm|reflexivity|].
    run_tun. rewrite Hs, Eq, En. reflexivity.
Qed.

Lemma enqueue_event packet w t :
  tun_live t -> th_open w ->
  if decide (takes packet t) then goes_on (TnWritePacket packet) [packet] w t else failing (TnWritePacket packet) w t.
Proof.
  intros Hl Hw. pose proof Hl as [Hs Hwo [Hp He] Hrd Hi]. pose proof Hwo as [Ho Hm Hq Hbusy].
  assert (Hfail : forall error, run_event (TnWritePacket packet) (w, t) = fail error (w, t) -> failing (TnWritePacket packet) w t).
  { intros error E. apply (fail_failing _ error w t (descriptor_ t)); [exact Hl|exact Hw|discriminate|exact Hm|reflexivity|]. rewrite E, put_same. reflexivity. }
  destruct (u64_total _ Hq) as [Hqb Hql]. cbn [tun_queue queued_bytes_ queue_ maximum_bytes_] in Hqb, Hql.
  pose proof (zlen_nonneg packet) as Hlen.
  assert (Eu : u64 (maximum_queued_bytes_ t - tun_queued_bytes_ t) = maximum_queued_bytes_ t - total (write_queue_ t))
    by (rewrite Hqb; apply u64_id; int_lia).
  unfold kMaximumPacketSize, takes in *. case_decide as Ht.
  - destruct Ht as (Hst & Hsz & Hn & Hb).
    destruct (enqueued_ok packet (tun_queue t) Hq ltac:(lia) Hn Hb).
    destruct (writer_push packet (descriptor_ t) (tun_queue t) (tun_write_in_progress_ t) Hwo) as [Hwo' Htk];
      [constructor; assumption|].
    set (t' := put_tun_writing true (put_descriptor (push_write packet (descriptor_ t) (tun_write_in_progress_ t))
      (put_write_queue (write_queue_ t ++ [packet]) (total (write_queue_ t) + zlen packet) t))).
    assert (Eq' : tun_queue t' = pushed packet (tun_queue t)) by reflexivity.
    exists w, t'. split; [|split; [|split; [exact Hw|]]].
    + run_tun. rewrite Hs, Hst. cbn [negb].
      rewrite (proj2 (Z.eqb_neq (zlen packet) 0)), (proj2 (Z.ltb_ge kMaximumPacketSize (zlen packet)))
        by lia. cbn [orb].
      cbn [tun_queue maximum_frames_ maximum_bytes_ queue_] in *.
      rewrite (proj2 (Z.leb_gt (maximum_queued_packets_ t) (zlen (write_queue_ t)))), Eu,
        (proj2 (Z.ltb_ge (maximum_queued_bytes_ t - total (write_queue_ t)) (zlen packet))) by lia. cbn [orb].
      rewrite Hqb, u64_id by int_lia. subst t'. unfold push_write.
      destruct (tun_write_in_progress_ t) eqn:Ew; cbn [negb].
      * destruct t; cbn in *; subst; reflexivity.
      * destruct Hbusy as [_ Eq]. cbn [tun_queue queue_] in Eq. rewrite Eq. cbn. rewrite Hs. reflexivity.
    + constructor; [exact Hs|rewrite Eq'; exact Hwo'|auto| |].
      * subst t'. unfold push_write. cbn. destruct (tun_write_in_progress_ t); exact Hrd.
      * intros H. cbn in H. congruence.
    + unfold taken_in. rewrite Eq'. exact Htk.
  - destruct (tun_started_ t) eqn:Est.
    2:{ apply (Hfail NotConnected). run_tun. rewrite Hs, Est. reflexivity. }
    destruct ((zlen packet =? 0) || (65535 <? zlen packet)) eqn:Esz.
    { apply (Hfail MessageSize). run_tun. unfold kMaximumPacketSize. rewrite Hs, Est, Esz. reflexivity. }
    apply (Hfail NoBufferSpace). run_tun. unfold kMaximumPacketSize. rewrite Hs, Est, Esz, Eu. cbn [negb orb].
    match goal with |- context [(maximum_queued_packets_ t <=? ?x) || ?y] => destruct ((maximum_queued_packets_ t <=? x) || y) eqn:Eb end;
      [reflexivity|]. exfalso. apply Ht. unfold kMaximumPacketSize. b2p_all. auto with lia.
Qed.

Lemma start_event w t :
  tun_live t -> th_open w -> goes_on TnStart [] w t \/ failing TnStart w t.
Proof.
  intros Hl Hw. pose proof Hl as [Hs Hwo [Hp He] Hrd Hi]. destruct (tun_started_ t) eqn:Est.
  - right. apply (fail_failing _ InvalidArgumentError w t (descriptor_ t)); [exact Hl|exact Hw|discriminate|apply Hwo|reflexivity|].
    rewrite put_same. unfold run_event, start, start_on_strand, lift, bind, self. cbn -[fail]. rewrite Hs, Est. reflexivity.
  - left. exists w, (put_descriptor (async_read_some (descriptor_ t)) (put_handlers true true (put_tun_started true t))).
    split; [|split; [|split; [exact Hw|]]].
    + cbn [run_event]. unfold start, start_on_strand, read_next, on_descriptor, assign, lift, bind, self. cbn. rewrite Hs, Est. reflexivity.
    + destruct Hwo as [Ho Hm Hq Hb]. constructor; auto; try discriminate. constructor; cbn; auto. rewrite Hm, Hrd, Ho. reflexivity.
    + symmetry. apply app_nil_r.
Qed.

Lemma live_event e w t :
  tun_live t -> th_open w -> possible e t -> goes_on e (taken_by e t) w t \/ failing e w t /\ taken_by e t = [].
Proof.
  intros Hl Hw Hp. destruct e as [|error data|packet|error n|]; cbn [taken_by].
  - destruct (start_event w t Hl Hw); auto.
  - destruct Hp as [Hp Hb]. destruct (read_event error data w t Hl Hw Hp Hb); auto.
  - pose proof (enqueue_event packet w t Hl Hw) as H. case_decide; auto.
  - destruct (write_event error n w t Hl Hw Hp); auto.
  - right. split; [|reflexivity]. exists w, (stopped_now t). cbn [run_event]. rewrite stop_eq by apply Hl.
    split; [reflexivity|]. split; [apply stopped_over, live_safe, Hl|]. split; [reflexivity|].
    split; [apply ends_stop; reflexivity|contradiction].
Qed.

Lemma tun_over_event e w t :
  tun_over t -> exists t', run_event e (w, t) = (Ok tt, (w, t')) /\ tun_over t' /\ written (descriptor_ t') = written (descriptor_ t).
Proof.
  intros [Hs Hc Hm Hq Hh]. destruct e as [|error data|packet|error n|];
    cbn [run_event]; unfold start, start_on_strand, handle_read, enqueue_write, handle_write, stop_on_strand, on_descriptor, assign, lift, bind, self;
    cbn; rewrite Hs; eexists; (split; [reflexivity|]); (split; [constructor; auto|reflexivity]).
Qed.

(** *** Runs of the device *)

(** A device with the packets it has taken in since it was opened. *)
Inductive tun_run : W -> LinuxTunDevice -> list bytes -> Prop :=
| tn_adopt descriptor name packets size w t :
    in_u64 packets -> in_u64 size -> th_open w -> adopt descriptor name packets size = Ok t -> tun_run w t []
| tn_event e w t r w' t' taken :
    tun_run w t taken -> possible e t -> run_event e (w, t) = (r, (w', t')) ->
    tun_run w' t' (taken ++ if tun_stopped_ t then [] else taken_by e t).

Definition tun_ok w t (taken : list bytes) : Prop :=
  if tun_stopped_ t then tun_over t /\ exists lost, taken = written (descriptor_ t) ++ lost
  else tun_live t /\ th_open w /\ taken_in t = taken.

Lemma adopt_live descriptor name packets size t :
  in_u64 packets -> in_u64 size -> adopt descriptor name packets size = Ok t -> tun_live t /\ taken_in t = [].
Proof.
  intros Hp Hs E. unfold adopt in E. inv_ok. subst t. split; [|reflexivity].
  constructor; auto. constructor; auto. all: cbn; auto. constructor; cbn; auto; rewrite ?zlen_nil; int_lia.
Qed.

Lemma event_ok e w t taken :
  tun_ok w t taken -> possible e t ->
  exists w' t', run_event e (w, t) = (Ok tt, (w', t')) /\
    tun_ok w' t' (taken ++ if tun_stopped_ t then [] else taken_by e t) /\
    (tun_stopped_ t = true -> w' = w /\ tun_stopped_ t' = true /\ written (descriptor_ t') = written (descriptor_ t)) /\
    (tun_stopped_ t = false -> tun_stopped_ t' = true -> ends e t w w' /\ taken_by e t = []).
Proof.
  unfold tun_ok. intros Hok Hp. destruct (tun_stopped_ t) eqn:Hst.
  - destruct Hok as [Ho [lost ->]]. destruct (tun_over_event e w t Ho) as (t' & E & Ho' & Hw). exists w, t'.
    split; [exact E|]. rewrite (to_stopped _ Ho'), app_nil_r, Hw. split; [eauto|]. split; [auto|discriminate].
  - destruct Hok as (Hl & Hw & <-). destruct (live_event e w t Hl Hw Hp) as [(w' & t' & E & Hl' & Hw' & Ht)|[(w' & t' & E & Ho & Hwr & He & _) Hnil]];
      exists w', t'; (split; [exact E|]).
    + rewrite (tl_stopped _ Hl'). split; [auto|]. split; discriminate.
    + rewrite (to_stopped _ Ho), Hwr, Hnil, app_nil_r. split; [split; [exact Ho|unfold taken_in; eauto]|]. split; [discriminate|auto].
Qed.

Lemma run_ok w t taken : tun_run w t taken -> tun_ok w t taken.
Proof.
  induction 1 as [descriptor name packets size w t Hp Hs Hw E|e w t r w' t' taken _ IH Hp E].
  - destruct (adopt_live _ _ _ _ _ Hp Hs E) as [Hl Ht]. unfold tun_ok. rewrite (tl_stopped _ Hl). auto.
  - destruct (event_ok e w t taken IH Hp) as (w1 & t1 & E1 & Hok & _). rewrite E in E1. injection E1 as -> -> ->. exact Hok.
Qed.

(** ** Properties *)

(** C31: the device is a bounded queue in front of the kernel.  Over any run the
    packets handed to the kernel are the packets that were taken in, each once,
    whole and in order, up to those that still wait or were dropped at the end;
    as long as the device is open none is dropped, the counter of bytes is exact
    and both limits hold.  A packet is taken in exactly when the device has
    started, its size is from 1 to 65535 and both limits leave room for it; any
    other ends the device. *)
Theorem tun_writes_in_order w t taken packet :
  tun_run w t taken ->
  (exists later, taken = written (descriptor_ t) ++ later /\
     (tun_stopped_ t = false -> later = if tun_write_in_progress_ t then tail (write_queue_ t) else write_queue_ t)) /\
  (tun_stopped_ t = false ->
     tun_queued_bytes_ t = total (write_queue_ t) /\ total (write_queue_ t) <= maximum_queued_bytes_ t /\
     zlen (write_queue_ t) <= maximum_queued_packets_ t) /\
  exists w' t', run_event (TnWritePacket packet) (w, t) = (Ok tt, (w', t')) /\
    (tun_stopped_ t = false -> (tun_stopped_ t' = false <-> takes packet t) /\
       (takes packet t -> tun_run w' t' (taken ++ [packet]))).
Proof.
  intros Hr. pose proof (run_ok _ _ _ Hr) as Hok. split; [|split].
  - unfold tun_ok in Hok. destruct (tun_stopped_ t).
    + destruct Hok as [_ [lost E]]. exists lost. split; [exact E|discriminate].
    + destruct Hok as (_ & _ & <-). eexists. split; [reflexivity|auto].
  - intros Hst. unfold tun_ok in Hok. rewrite Hst in Hok. destruct Hok as ([_ [_ _ [H1 H2 H3 _] _] _ _ _] & _). cbn in *. lia.
  - destruct (event_ok (TnWritePacket packet) w t taken Hok I) as (w' & t' & E & Hok' & _ & He). exists w', t'. split; [exact E|].
    intros Hst. pose proof (tn_event (TnWritePacket packet) w t _ w' t' taken Hr I E) as Hr'. rewrite Hst in Hr', Hok'.
    unfold tun_ok in Hok. rewrite Hst in Hok. destruct Hok as (Hl & Hw & _).
    pose proof (enqueue_event packet w t Hl Hw) as Hq. cbn [taken_by] in *. case_decide as Ht.
    + destruct Hq as (w1 & t1 & E1 & Hl1 & _). rewrite E in E1. injection E1 as -> ->. split; [|auto].
      split; [auto|intros _; apply Hl1].
    + destruct Hq as (w1 & t1 & E1 & Ho & _). rewrite E in E1. injection E1 as -> ->. split; [|contradiction].
      rewrite (to_stopped _ Ho). split; [discriminate|contradiction].
Qed.

(** C32: every handler of the device returns and keeps the rules of asynchronous
    I/O, whatever the order of events: never two reads or two writes at once, and
    nothing after closing.  While it is open and started a read is in flight, and
    a write exactly when packets wait.  It ends once: by [stop], or by the failure
    that it tells the server of, as the last thing it does; afterwards nothing
    reaches the server or the kernel. *)
Theorem tun_handlers_safe e w t taken r w' t' :
  tun_run w t taken -> possible e t -> run_event e (w, t) = (r, (w', t')) ->
  r = Ok tt /\ misused (descriptor_ t') = false /\
  (tun_stopped_ t' = false -> closed (descriptor_ t') = false /\ reading (descriptor_ t') = tun_started_ t' /\
     (is_Some (writing (descriptor_ t')) <-> write_queue_ t' <> [])) /\
  (tun_stopped_ t = false -> tun_stopped_ t' = true ->
     closed (descriptor_ t') = true /\ write_queue_ t' = [] /\ ends e t w w') /\
  (tun_stopped_ t = true ->
     w' = w /\ tun_stopped_ t' = true /\ written (descriptor_ t') = written (descriptor_ t)).
Proof.
  intros Hr%run_ok Hp E. destruct (event_ok e w t taken Hr Hp) as (w1 & t1 & E1 & Hok & Hover & Hend).
  rewrite E in E1. injection E1 as -> -> ->. split; [reflexivity|]. unfold tun_ok in Hok.
  destruct (tun_stopped_ t1) eqn:Hst.
  - destruct Hok as [[_ Hc Hm [Hq _] _] _]. split; [exact Hm|]. split; [discriminate|]. split; [|exact Hover].
    intros H _. split; [exact Hc|]. split; [exact Hq|]. apply Hend; auto.
  - destruct Hok as ([_ [Ho Hm _ Hb] _ Hrd _] & _). split; [exact Hm|]. split; [|split; [discriminate|exact Hover]].
    intros _. split; [exact Ho|]. split; [exact Hrd|]. cbn [tun_queue queue_] in Hb. destruct (tun_write_in_progress_ t1).
    + destruct Hb as (b & rest & -> & ->). split; [discriminate|eauto].
    + destruct Hb as [-> ->]. split; [intros [? ?]; discriminate|contradiction].
Qed.
End Facts.

(** *** The server as the owner *)

Section Server.
Context {S : Type} {LS : LeaseService S} {LSL : LeaseServiceLaws S}.
Abbreviation System := (Shared S TlsTunnelServer * gmap Peer TlsTunnelSession)%type.

#[export] Instance server_tun_host : TunHost System := {
  packet_handler packet := on_server (on_tun_packet packet);
  error_handler _ := on_server on_tun_error
}.
(** The server keeps its invariant through the packets of the device, and stops
    when the device fails. *)
#[export] Instance server_tun_laws : TunHostLaws System.
Proof using LS LSL S.
  refine {| th_open st := sys_okx None st; th_done st := sys_okx None st /\ StopServer ∈ posted (sh_host st.1) |}.
  - intros p [w heap] Hb Hok. destruct (tun_packet_ok w heap p Hok Hb) as (s' & E & Hs). eexists. cbn. rewrite E. split; [reflexivity|exact Hs].
  - intros e [w heap] Hok. eexists. split; [reflexivity|]. split; [apply (post_ok w heap StopServer); [exact I|split; [discriminate|exact I]|exact Hok]|].
    cbn. apply elem_of_app. right. left.
Defined.
End Server.

(** ** Opening the device *)

(** An open device has one descriptor more; a refusal leaves none, if the
    kernel gives valid descriptors and names its interface. *)
Lemma open_tun_releases `{TunKernel} requested_name packets size open_ :
  match dev_net_tun with inl d => 0 <= d | inr _ => True end ->
  (forall d name, tun_set_iff d requested_name = inl name -> name <> []) ->
  match open_tun requested_name packets size open_ with
  | (Ok t, open') => exists d, open' = d :: open_ /\ dev_net_tun = inl d /\ zlen requested_name < IFNAMSIZ /\
      adopt d (name_ t) packets size = Ok t
  | (Throw _, open') => open' = open_
  end.
Proof.
  intros Hd Hn. unfold open_tun, bind, lift, modify, throw. destruct (IFNAMSIZ <=? zlen requested_name) eqn:El; [reflexivity|].
  cbn [reject_if]. destruct (_ || _) eqn:Ez; [reflexivity|]. cbn [reject_if].
  destruct dev_net_tun as [d|errno] eqn:Edev; [|reflexivity]. destruct (tun_set_iff d requested_name) as [name|] eqn:Es; [|reflexivity].
  specialize (Hn _ _ Es). unfold adopt. rewrite Ez, (proj2 (Z.ltb_ge d 0)) by exact Hd. cbn [reject_if obind].
  assert (Hz : (zlen name =? 0) = false).
  { apply Z.eqb_neq. destruct name; [contradiction|]. rewrite zlen_cons. pose proof (zlen_nonneg name). lia. }
  rewrite Hz. cbn [reject_if obind]. exists d. split; [reflexivity|]. split; [reflexivity|]. split; [b2p; lia|].
  cbn [name_]. rewrite Hz, (proj2 (Z.ltb_ge d 0)) by exact Hd. reflexivity.
Qed.

(** ** Witnesses: a device whose owner records *)

#[export] Instance tun_log_host : TunHost (list (bytes + TunError)) := {
  packet_handler packet := modify (fun log => log ++ [inl packet]);
  error_handler error := modify (fun log => log ++ [inr error])
}.
#[export] Instance tun_log_laws : TunHostLaws (list (bytes + TunError)).
Proof.
  refine {| th_open log := Forall (fun x => exists p, x = inl p) log; th_done log := exists e, inr e ∈ log |}.
  - intros p log _ H. eexists. split; [reflexivity|]. apply Forall_app. split; [exact H|]. repeat constructor. eauto.
  - intros e log _. eexists. split; [reflexivity|]. exists e. apply elem_of_app. right. left.
Defined.

Fixpoint tun_story (es : list tun_event) (st : list (bytes + TunError) * LinuxTunDevice) : list (bytes + TunError) * LinuxTunDevice :=
  match es with [] => st | e :: es => tun_story es (run_event e st).2 end.
Fixpoint tun_taken (es : list tun_event) (st : list (bytes + TunError) * LinuxTunDevice) : list bytes :=
  match es with
  | [] => []
  | e :: es => (if tun_stopped_ st.2 then [] else taken_by e st.2) ++ tun_taken es (run_event e st).2
  end.
Fixpoint tun_possible (es : list tun_event) (st : list (bytes + TunError) * LinuxTunDevice) : Prop :=
  match es with [] => True | e :: es => possible e st.2 /\ tun_possible es (run_event e st).2 end.

Lemma tun_story_run es st taken :
  tun_run st.1 st.2 taken -> tun_possible es st ->
  tun_run (tun_story es st).1 (tun_story es st).2 (taken ++ tun_taken es st).
Proof.
  revert st taken. induction es as [|e es IH]; intros [w t] taken Hr Hp; cbn [tun_taken tun_story]; [rewrite app_nil_r; exact Hr|].
  destruct Hp as [Hp Hps]. rewrite app_assoc. apply IH; [|exact Hps]. cbn [fst snd] in *.
  destruct (run_event e (w, t)) as [r [w' t']] eqn:E. exact (tn_event e w t r w' t' taken Hr Hp E).
Qed.

(** Room for 3 packets and 20 bytes. *)
Definition sample_tun : LinuxTunDevice :=
  mkTun fresh_stream [116; 117; 110; 48] 3 20 false false [] 0 false false false.
Definition tun_events : list tun_event :=
  [TnStart; TnRead None [69; 1]; TnWritePacket [1; 2]; TnWritePacket [3]; TnWrite None 2].
Definition running_tun := tun_story tun_events ([], sample_tun).

Lemma running_tun_run : tun_run running_tun.1 running_tun.2 [[1; 2]; [3]].
Proof.
  apply (tun_story_run tun_events ([], sample_tun) []).
  - apply (tn_adopt 5 [116; 117; 110; 48] 3 20); [int_lia|int_lia|constructor|reflexivity].
  - unfold tun_events. repeat match goal with |- tun_possible (_ :: _) _ => split end; try exact I; vm_compute; eauto.
    + split; [split; [reflexivity|discriminate]|decide_prop].
Qed.

Lemma tun_writes_in_order_witness :
  written (descriptor_ running_tun.2) = [[1; 2]; [3]] /\
  tun_stopped_ (run_event (TnWritePacket (zeros 19)) running_tun).2.2 = false /\
  tun_stopped_ (run_event (TnWritePacket (zeros 20)) running_tun).2.2 = true.
Proof.
  destruct (tun_writes_in_order running_tun.1 running_tun.2 _ (zeros 19) running_tun_run) as ((later & E & _) & _ & (w1 & t1 & E1 & H1)).
  destruct (tun_writes_in_order running_tun.1 running_tun.2 _ (zeros 20) running_tun_run) as (_ & _ & (w2 & t2 & E2 & H2)).
  rewrite <- surjective_pairing in E1, E2. rewrite E1, E2. cbn [snd].
  assert (Hs : tun_stopped_ running_tun.2 = false) by (vm_compute; reflexivity).
  split; [vm_compute; reflexivity|]. split.
  - apply (proj1 (H1 Hs)). vm_compute. intuition discriminate.
  - destruct (tun_stopped_ t2) eqn:Es; [reflexivity|]. exfalso. pose proof (proj1 (proj1 (H2 Hs)) eq_refl) as (_ & _ & _ & Hb). vm_compute in Hb. apply Hb. reflexivity.
Defined.

Lemma tun_handlers_safe_witness :
  let st := (run_event (TnWrite None 7) running_tun).2 in
  closed (descriptor_ st.2) = true /\ st.1 = [inl [69; 1]; inr IoError].
Proof.
  destruct (run_event (TnWrite None 7) (running_tun.1, running_tun.2)) as [r [w' t']] eqn:E.
  assert (Hp : possible (TnWrite None 7) running_tun.2) by (vm_compute; eauto).
  destruct (tun_handlers_safe (TnWrite None 7) _ _ _ r w' t' running_tun_run Hp E) as (_ & _ & _ & H & _).
  rewrite <- surjective_pairing in E. rewrite E. cbn [fst snd].
  assert (Hs : tun_stopped_ ((r, (w', t')).2).2 = true /\ ((r, (w', t')).2).1 = [inl [69; 1]; inr IoError])
    by (rewrite <- E; vm_compute; auto).
  destruct Hs as [Hs Hl]. split; [|exact Hl]. apply H; [vm_compute; reflexivity|exact Hs].
Defined.
