(* ===== verification/WindowsKillSwitch.v ===== *)
(** * The Windows kill switch

    Models src/client/windows_kill_switch.cpp: the persistent policy of the
    Windows Filtering Platform that lets only the VPN server's endpoints out,
    and the permit for the tunnel's interface, which lives as long as a session.
    The platform is a parameter: what its calls do is stated as laws over the
    policy that a transaction sees. *)
From S2P Require Import Prelude Bytes.

(** windows_network_backend.hpp: an address of 16 bytes, of which IPv4 uses 4. *)
Record WindowsVpnEndpoint := mkVpnEndpoint { vp_address : bytes; vp_port : Z; vp_ipv6 : bool }.

(** ** Data *)

Record GUID := mkGuid { Data1 : Z; Data2 : Z; Data3 : Z; Data4 : bytes }.
#[export] Instance GUID_eq_dec : EqDecision GUID.
Proof. solve_decision. Defined.

Definition kOutboundIpPacketV4 : GUID :=
  mkGuid 0x1e5c9fae 0x8a84 0x4135 [0xa3; 0x31; 0x95; 0x0b; 0x54; 0x22; 0x9e; 0xcd].
Definition kOutboundIpPacketV6 : GUID :=
  mkGuid 0xa3b3ab6b 0x3564 0x488c [0x91; 0x17; 0xf3; 0x4e; 0x82; 0x14; 0x27; 0x63].
Definition kOutboundTransportV4 : GUID :=
  mkGuid 0x09e61aea 0xd214 0x46e2 [0x9b; 0x21; 0xb2; 0x6b; 0x0b; 0x2f; 0x28; 0xc8].
Definition kOutboundTransportV6 : GUID :=
  mkGuid 0xe1735bde 0x013f 0x4655 [0xb3; 0x51; 0xa4; 0x9e; 0x15; 0x76; 0x2d; 0xf0].
Definition kRemoteAddressCondition : GUID :=
  mkGuid 0xb235ae9a 0x1d64 0x49b8 [0xa4; 0x4c; 0x5f; 0xf3; 0xd9; 0x09; 0x50; 0x45].
Definition kInterfaceIndexCondition : GUID :=
  mkGuid 0x667fd755 0xd695 0x434a [0x8a; 0xf5; 0xd3; 0x83; 0x5a; 0x12; 0x59; 0xbc].
Definition kProtocolCondition : GUID :=
  mkGuid 0x3971ef2b 0x623e 0x4f9a [0x8c; 0xb1; 0x6e; 0x79; 0xb8; 0x06; 0xb9; 0xa7].
Definition kRemotePortCondition : GUID :=
  mkGuid 0xc35a604d 0xd22b 0x4e1a [0x91; 0xb4; 0x68; 0xf6; 0x74; 0xee; 0x67; 0x4b].
Definition kProviderKey : GUID :=
  mkGuid 0x8c73dcad 0xa270 0x45a9 [0x90; 0x27; 0x2f; 0x5b; 0x13; 0x90; 0x7d; 0x11].
Definition kSubLayerKey : GUID :=
  mkGuid 0x02a254b3 0x51d2 0x4b0c [0x8e; 0xf7; 0x6a; 0x79; 0xa1; 0x7f; 0x42; 0x3e].

Definition kProviderPersistent : Z := 0x00000001.
Definition kSubLayerPersistent : Z := 0x0001.
Definition kFilterPersistent : Z := 0x00000001.
Definition kFilterBootTime : Z := 0x00000002.
Definition kIncludeBootTimeFilters : Z := 0x00000008.
Definition kDynamicSession : Z := 0x00000001.
Definition kAllowWeight : Z := 0xF000000000000000.
Definition kBlockWeight : Z := 0x1000000000000000.
Definition kMaximumEndpoints : Z := 32.
Definition IPPROTO_TCP : Z := 6.

(** [FWPM_FILTER_CONDITION0] with [FWP_MATCH_EQUAL], and [FWPM_FILTER0]. *)
Inductive ConditionValue :=
| FWP_UINT8 (x : Z)
| FWP_UINT16 (x : Z)
| FWP_UINT32 (x : Z)
| FWP_V4_ADDR_MASK (addr mask : Z)
| FWP_V6_ADDR_MASK (addr : bytes) (prefix_length : Z).
Record FilterCondition := mkCondition { fieldKey : GUID; conditionValue : ConditionValue }.
Inductive FilterAction := FWP_ACTION_PERMIT | FWP_ACTION_BLOCK.
Record Filter := mkFilter {
  f_flags : Z;
  f_providerKey : option GUID;
  f_layerKey : GUID;
  f_subLayerKey : GUID;
  f_weight : Z;
  f_conditions : list FilterCondition;
  f_action : FilterAction
}.
Record Provider := mkProvider { pv_key : GUID; pv_flags : Z }.
Record SubLayer := mkSubLayer { sl_key : GUID; sl_flags : Z; sl_providerKey : option GUID; sl_weight : Z }.

(** ** The platform *)

(** The calls, each with its result code; [FwpmFilterEnum0] gives at most the
    number of filters it is asked for, and only their keys are used. *)
Class Wfp (W : Type) := {
  FWP_E_PROVIDER_NOT_FOUND : Z;
  FWP_E_SUBLAYER_NOT_FOUND : Z;
  FWP_E_FILTER_NOT_FOUND : Z;
  FwpmEngineOpen0 (session_flags : Z) : W -> (Z * Z) * W;
  FwpmEngineClose0 (engine : Z) : W -> Z * W;
  FwpmTransactionBegin0 (engine : Z) : W -> Z * W;
  FwpmTransactionAbort0 (engine : Z) : W -> Z * W;
  FwpmTransactionCommit0 (engine : Z) : W -> Z * W;
  FwpmProviderGetByKey0 (engine : Z) (key : GUID) : W -> (Z * Z) * W;
  FwpmProviderAdd0 (engine : Z) (provider : Provider) : W -> Z * W;
  FwpmProviderDeleteByKey0 (engine : Z) (key : GUID) : W -> Z * W;
  FwpmSubLayerGetByKey0 (engine : Z) (key : GUID) : W -> (Z * (Z * option GUID)) * W;
  FwpmSubLayerAdd0 (engine : Z) (sublayer : SubLayer) : W -> Z * W;
  FwpmSubLayerDeleteByKey0 (engine : Z) (key : GUID) : W -> Z * W;
  FwpmFilterCreateEnumHandle0 (engine : Z) (provider_key : GUID) (flags : Z) : W -> (Z * Z) * W;
  FwpmFilterEnum0 (engine enumeration count : Z) : W -> (Z * list GUID) * W;
  FwpmFilterDestroyEnumHandle0 (engine enumeration : Z) : W -> Z * W;
  FwpmFilterAdd0 (engine : Z) (filter : Filter) : W -> Z * W;
  FwpmFilterDeleteByKey0 (engine : Z) (key : GUID) : W -> Z * W;
  FwpmFreeMemory0 : W -> W
}.

Section KillSwitch.
Context {W : Type} `{WF : Wfp W}.

Definition api {A} (f : W -> A * W) : M W A := fun w => let '(a, w') := f w in (Ok a, w').
Definition free_memory : M W unit := modify FwpmFreeMemory0.

(** ** Operations *)

(** [static_cast<int>(error)] *)
Definition to_int (error : Z) : Z := if u32 error <? 2 ^ 31 then u32 error else u32 error - 2 ^ 32.
Definition throw_wfp_error {A} (operation : string) (error : Z) : M W A := throw (SystemError (to_int error) operation).
Definition check_wfp (result : Z) (operation : string) : M W unit :=
  if negb (result =? 0) then throw_wfp_error operation result else ret tt.

(** The scope of an [Engine]: it is closed on every way out. *)
Definition with_engine {A} (body : Z -> M W A) : M W A :=
  let* (result, handle) := api (FwpmEngineOpen0 0) in
  let* _ := check_wfp result "open Windows Filtering Platform engine" in
  fun w => let '(r, w1) := body handle w in
           let '(_, w2) := FwpmEngineClose0 handle w1 in (r, w2).

(** The scope of a [Transaction] that ends with [commit]: it is aborted on
    every way out before the commit has succeeded. *)
Definition with_transaction {A} (engine : Z) (body : M W A) : M W A :=
  let* result := api (FwpmTransactionBegin0 engine) in
  let* _ := check_wfp result "begin WFP transaction" in
  try_catch
    (let* a := body in
     let* result := api (FwpmTransactionCommit0 engine) in
     let* _ := check_wfp result "commit WFP transaction" in
     ret a)
    (fun e => Some (let* _ := api (FwpmTransactionAbort0 engine) in throw e)).

(** The two halves of [ensure_provider_and_sublayer]. *)
Definition ensure_provider (engine : Z) : M W unit :=
  let* (provider_result, provider_flags) := api (FwpmProviderGetByKey0 engine kProviderKey) in
  if provider_result =? 0 then
    let persistent := negb (Z.land provider_flags kProviderPersistent =? 0) in
    let* _ := free_memory in
    if negb persistent then throw (RuntimeError "existing PersonalVPN WFP provider is not persistent") else ret tt
  else if provider_result =? FWP_E_PROVIDER_NOT_FOUND then
    let* result := api (FwpmProviderAdd0 engine (mkProvider kProviderKey kProviderPersistent)) in
    check_wfp result "add persistent WFP provider"
  else throw_wfp_error "inspect WFP provider" provider_result.
Definition ensure_sublayer (engine : Z) : M W unit :=
  let* (sublayer_result, (sublayer_flags, provider_key)) := api (FwpmSubLayerGetByKey0 engine kSubLayerKey) in
  if sublayer_result =? 0 then
    let trusted := negb (Z.land sublayer_flags kSubLayerPersistent =? 0) &&
                   match provider_key with Some key => bool_decide (key = kProviderKey) | None => false end in
    let* _ := free_memory in
    if negb trusted then throw (RuntimeError "existing PersonalVPN WFP sublayer has invalid ownership") else ret tt
  else if sublayer_result =? FWP_E_SUBLAYER_NOT_FOUND then
    let* result := api (FwpmSubLayerAdd0 engine (mkSubLayer kSubLayerKey kSubLayerPersistent (Some kProviderKey) 0x7fff)) in
    check_wfp result "add persistent WFP sublayer"
  else throw_wfp_error "inspect WFP sublayer" sublayer_result.
Definition ensure_provider_and_sublayer (engine : Z) : M W unit :=
  let* _ := ensure_provider engine in
  ensure_sublayer engine.

(** The loop of [enumerate_provider_filters]; [None] when the fuel runs out. *)
Fixpoint enumerate_loop (fuel : nat) (engine enumeration : Z) (keys : list GUID) : M W (option (list GUID)) :=
  match fuel with
  | O => ret None
  | S fuel =>
      let* (result, entries) := api (FwpmFilterEnum0 engine enumeration 128) in
      let* _ := check_wfp result "enumerate PersonalVPN WFP filters" in
      let* _ := free_memory in
      if zlen entries =? 0 then ret (Some (keys ++ entries))
      else enumerate_loop fuel engine enumeration (keys ++ entries)
  end.
Definition enumerate_provider_filters (fuel : nat) (engine : Z) : M W (option (list GUID)) :=
  let* (result, enumeration) := api (FwpmFilterCreateEnumHandle0 engine kProviderKey kIncludeBootTimeFilters) in
  let* _ := check_wfp result "create WFP filter enumeration" in
  let* keys := try_catch (enumerate_loop fuel engine enumeration [])
    (fun e => Some (let* _ := api (FwpmFilterDestroyEnumHandle0 engine enumeration) in throw e)) in
  let* result := api (FwpmFilterDestroyEnumHandle0 engine enumeration) in
  let* _ := check_wfp result "destroy WFP filter enumeration" in
  ret keys.

Fixpoint delete_filters (engine : Z) (keys : list GUID) : M W unit :=
  match keys with
  | [] => ret tt
  | key :: keys =>
      let* result := api (FwpmFilterDeleteByKey0 engine key) in
      let* _ := if negb (result =? 0) && negb (result =? FWP_E_FILTER_NOT_FOUND)
                then throw_wfp_error "delete PersonalVPN WFP filter" result else ret tt in
      delete_filters engine keys
  end.
Definition delete_provider_filters (fuel : nat) (engine : Z) : M W (option unit) :=
  let* keys := enumerate_provider_filters fuel engine in
  match keys with
  | None => ret None
  | Some keys => let* _ := delete_filters engine keys in ret (Some tt)
  end.

Definition add_filter (engine : Z) (layer : GUID) (flags : Z) (action : FilterAction) (weight : Z)
    (conditions : list FilterCondition) (persistent_provider_owned : bool) : M W unit :=
  let filter := mkFilter flags (if persistent_provider_owned then Some kProviderKey else None) layer kSubLayerKey
                  weight conditions action in
  let* result := api (FwpmFilterAdd0 engine filter) in
  check_wfp result "add WFP kill-switch filter".
Definition add_unconditional_filter (engine : Z) (layer : GUID) (flags : Z) (action : FilterAction) (weight : Z) :
    M W unit :=
  add_filter engine layer flags action weight [] true.

Definition interface_condition (interface_index : Z) : FilterCondition :=
  mkCondition kInterfaceIndexCondition (FWP_UINT32 interface_index).
Definition add_interface_allow (engine : Z) (layer : GUID) (interface_index : Z) : M W unit :=
  add_filter engine layer 0 FWP_ACTION_PERMIT kAllowWeight [interface_condition interface_index] false.

(** [ntohl] of the four bytes in memory. *)
Definition endpoint_address_condition (endpoint : WindowsVpnEndpoint) : FilterCondition :=
  mkCondition kRemoteAddressCondition
    (if vp_ipv6 endpoint then FWP_V6_ADDR_MASK (vp_address endpoint) 128
     else FWP_V4_ADDR_MASK (read_u32 (vp_address endpoint)) 0xffffffff).
Definition add_endpoint_allow (engine : Z) (packet_layer transport_layer : GUID) (endpoint : WindowsVpnEndpoint) :
    M W unit :=
  let* _ := add_filter engine packet_layer kFilterPersistent FWP_ACTION_PERMIT kAllowWeight
              [endpoint_address_condition endpoint] true in
  add_filter engine transport_layer kFilterPersistent FWP_ACTION_PERMIT kAllowWeight
    [endpoint_address_condition endpoint;
     mkCondition kProtocolCondition (FWP_UINT8 IPPROTO_TCP);
     mkCondition kRemotePortCondition (FWP_UINT16 (vp_port endpoint))] true.

Fixpoint allow_endpoints (engine : Z) (packet_layer transport_layer : GUID) (ipv6 : bool)
    (endpoints : list WindowsVpnEndpoint) : M W unit :=
  match endpoints with
  | [] => ret tt
  | endpoint :: endpoints =>
      let* _ := if Bool.eqb (vp_ipv6 endpoint) ipv6
                then add_endpoint_allow engine packet_layer transport_layer endpoint else ret tt in
      allow_endpoints engine packet_layer transport_layer ipv6 endpoints
  end.
Definition add_family_policy (engine : Z) (packet_layer transport_layer : GUID) (ipv6 : bool)
    (endpoints : list WindowsVpnEndpoint) : M W unit :=
  let* _ := allow_endpoints engine packet_layer transport_layer ipv6 endpoints in
  let* _ := add_unconditional_filter engine transport_layer kFilterPersistent FWP_ACTION_BLOCK kBlockWeight in
  add_unconditional_filter engine packet_layer kFilterPersistent FWP_ACTION_BLOCK kBlockWeight.

Definition remove_provider (engine : Z) : M W unit :=
  let* sublayer_result := api (FwpmSubLayerDeleteByKey0 engine kSubLayerKey) in
  let* _ := if negb (sublayer_result =? 0) && negb (sublayer_result =? FWP_E_SUBLAYER_NOT_FOUND)
            then throw_wfp_error "remove PersonalVPN WFP sublayer" sublayer_result else ret tt in
  let* provider_result := api (FwpmProviderDeleteByKey0 engine kProviderKey) in
  if negb (provider_result =? 0) && negb (provider_result =? FWP_E_PROVIDER_NOT_FOUND)
  then throw_wfp_error "remove PersonalVPN WFP provider" provider_result else ret tt.

(** The test of an endpoint at the head of [enable_windows_kill_switch]. *)
Definition endpoint_invalid (endpoint : WindowsVpnEndpoint) : bool :=
  let address_length := if vp_ipv6 endpoint then 16%nat else 4%nat in
  let all_zero := forallb (fun octet => octet =? 0) (take address_length (vp_address endpoint)) in
  (vp_port endpoint =? 0) || all_zero.

Definition enable_windows_kill_switch (fuel : nat) (endpoints : list WindowsVpnEndpoint) : M W (option unit) :=
  let* _ := lift (reject_if ((zlen endpoints =? 0) || (kMaximumEndpoints <? zlen endpoints))
    (InvalidArgument "kill switch requires valid VPN endpoints and interface")) in
  let* _ := lift (reject_if (existsb endpoint_invalid endpoints)
    (InvalidArgument "kill switch endpoint address or port is invalid")) in
  with_engine (fun engine =>
    with_transaction engine (
      let* _ := ensure_provider_and_sublayer engine in
      let* deleted := delete_provider_filters fuel engine in
      match deleted with
      | None => ret None
      | Some _ =>
          let* _ := add_unconditional_filter engine kOutboundIpPacketV4 kFilterBootTime FWP_ACTION_BLOCK kBlockWeight in
          let* _ := add_unconditional_filter engine kOutboundIpPacketV6 kFilterBootTime FWP_ACTION_BLOCK kBlockWeight in
          let* _ := add_family_policy engine kOutboundIpPacketV4 kOutboundTransportV4 false endpoints in
          let* _ := add_family_policy engine kOutboundIpPacketV6 kOutboundTransportV6 true endpoints in
          ret (Some tt)
      end)).

(** [dynamic_session] is 0 for [nullptr]. *)
Definition close_windows_tunnel_permit (dynamic_session : Z) : M W Z :=
  if negb (dynamic_session =? 0) then let* _ := api (FwpmEngineClose0 dynamic_session) in ret 0
  else ret dynamic_session.

(** The result is the dynamic session, also when an exception is thrown. *)
Definition replace_windows_tunnel_permit (dynamic_session tunnel_interface_index : Z) : W -> (outcome unit * Z) * W :=
  fun w =>
  if tunnel_interface_index =? 0 then
    ((Throw (InvalidArgument "Wintun interface index is invalid"), dynamic_session), w)
  else
    let '(_, w) := close_windows_tunnel_permit dynamic_session w in
    let '(r, w) :=
      (let* (result, new_session) := api (FwpmEngineOpen0 kDynamicSession) in
       let* _ := check_wfp result "open dynamic WFP tunnel-permit session" in
       let* _ := try_catch
         (with_transaction new_session (
            let* _ := add_interface_allow new_session kOutboundIpPacketV4 tunnel_interface_index in
            let* _ := add_interface_allow new_session kOutboundIpPacketV6 tunnel_interface_index in
            let* _ := add_interface_allow new_session kOutboundTransportV4 tunnel_interface_index in
            add_interface_allow new_session kOutboundTransportV6 tunnel_interface_index))
         (fun e => Some (let* _ := api (FwpmEngineClose0 new_session) in throw e)) in
       ret new_session) w in
    match r with
    | Ok new_session => ((Ok tt, new_session), w)
    | Throw e => ((Throw e, 0), w)
    end.

Definition disable_windows_kill_switch (fuel : nat) : M W (option unit) :=
  with_engine (fun engine =>
    with_transaction engine (
      let* filters := enumerate_provider_filters fuel engine in
      match filters with
      | None => ret None
      | Some [] => let* _ := remove_provider engine in ret (Some tt)
      | Some _ =>
          let* deleted := delete_provider_filters fuel engine in
          match deleted with
          | None => ret None
          | Some _ => let* _ := remove_provider engine in ret (Some tt)
          end
      end)).
End KillSwitch.

(** ** Specification *)

(** A filter of the platform: its key and, if it lives as long as a dynamic
    session, that session. *)
Record Stored := mkStored { st_key : GUID; st_filter : Filter; st_session : option Z }.
(** What concerns this program: its provider's flags, its sublayer's flags and
    provider, and the filters. *)
Record Policy := mkPolicy {
  po_provider : option Z;
  po_sublayer : option (Z * option GUID);
  po_filters : list Stored
}.
Record WfpState := mkWfp {
  ws_policy : Policy;
  ws_engines : gmap Z bool;
  ws_transactions : gmap Z Policy;
  ws_enumerations : gmap Z (list GUID);
  ws_allocated : Z
}.

Definition with_policy (p : Policy) (s : WfpState) : WfpState :=
  mkWfp p (ws_engines s) (ws_transactions s) (ws_enumerations s) (ws_allocated s).
Definition with_engines (x : gmap Z bool) (s : WfpState) : WfpState :=
  mkWfp (ws_policy s) x (ws_transactions s) (ws_enumerations s) (ws_allocated s).
Definition with_transactions (x : gmap Z Policy) (s : WfpState) : WfpState :=
  mkWfp (ws_policy s) (ws_engines s) x (ws_enumerations s) (ws_allocated s).
Definition with_enumerations (x : gmap Z (list GUID)) (s : WfpState) : WfpState :=
  mkWfp (ws_policy s) (ws_engines s) (ws_transactions s) x (ws_allocated s).
Definition with_allocated (x : Z) (s : WfpState) : WfpState :=
  mkWfp (ws_policy s) (ws_engines s) (ws_transactions s) (ws_enumerations s) x.

Definition put_provider (x : option Z) (p : Policy) : Policy := mkPolicy x (po_sublayer p) (po_filters p).
Definition put_sublayer (x : option (Z * option GUID)) (p : Policy) : Policy := mkPolicy (po_provider p) x (po_filters p).
Definition put_filters (x : list Stored) (p : Policy) : Policy := mkPolicy (po_provider p) (po_sublayer p) x.

Definition of_provider (f : Stored) : Prop := f_providerKey (st_filter f) = Some kProviderKey.
#[export] Instance of_provider_dec f : Decision (of_provider f).
Proof. unfold of_provider. apply _. Defined.
Definition of_session (h : Z) (f : Stored) : Prop := st_session f = Some h.
#[export] Instance of_session_dec h f : Decision (of_session h f).
Proof. unfold of_session. apply _. Defined.

(** A session that ends takes its objects with it. *)
Definition without_session (h : Z) (p : Policy) : Policy :=
  put_filters (filter (fun f => ~ of_session h f) (po_filters p)) p.
Definition without_key (key : GUID) (p : Policy) : Policy :=
  put_filters (filter (fun f => st_key f <> key) (po_filters p)) p.

(** What a call inside the transaction of [engine] leads to. *)
Definition in_transaction (engine : Z) (s s' : WfpState) (change : Policy -> Policy -> Prop) : Prop :=
  forall p, ws_transactions s !! engine = Some p ->
    exists p', change p p' /\ s' = with_transactions (<[engine := p']> (ws_transactions s)) s.

(** The documented behaviour of the calls the program makes: one that fails
    changes nothing; changes are made in a transaction, which its commit puts in
    force as a whole; closing a session drops its transaction and, if it is
    dynamic, its filters; an enumeration returns the filters of the provider, a
    batch at a time. *)
Class WfpLaws (W : Type) `{Wfp W} := {
  wfp_state : W -> WfpState;
  law_codes : FWP_E_PROVIDER_NOT_FOUND <> 0 /\ FWP_E_SUBLAYER_NOT_FOUND <> 0 /\ FWP_E_FILTER_NOT_FOUND <> 0;
  law_open flags w code h w' : FwpmEngineOpen0 flags w = ((code, h), w') ->
    if code =? 0
    then h <> 0 /\ ws_engines (wfp_state w) !! h = None /\ ws_transactions (wfp_state w) !! h = None /\
      Forall (fun f => ~ of_session h f) (po_filters (ws_policy (wfp_state w))) /\
      wfp_state w' = with_engines (<[h := negb (Z.land flags kDynamicSession =? 0)]> (ws_engines (wfp_state w))) (wfp_state w)
    else wfp_state w' = wfp_state w;
  law_close h w code w' : FwpmEngineClose0 h w = (code, w') ->
    wfp_state w' = with_policy (without_session h (ws_policy (wfp_state w)))
      (with_transactions (delete h (ws_transactions (wfp_state w)))
        (with_engines (delete h (ws_engines (wfp_state w))) (wfp_state w)));
  law_begin h w code w' : FwpmTransactionBegin0 h w = (code, w') ->
    wfp_state w' = if code =? 0
      then with_transactions (<[h := ws_policy (wfp_state w)]> (ws_transactions (wfp_state w))) (wfp_state w)
      else wfp_state w;
  law_abort h w code w' : FwpmTransactionAbort0 h w = (code, w') ->
    wfp_state w' = if code =? 0
      then with_transactions (delete h (ws_transactions (wfp_state w))) (wfp_state w) else wfp_state w;
  law_commit h w p code w' : FwpmTransactionCommit0 h w = (code, w') -> ws_transactions (wfp_state w) !! h = Some p ->
    wfp_state w' = if code =? 0
      then with_policy p (with_transactions (delete h (ws_transactions (wfp_state w))) (wfp_state w)) else wfp_state w;
  law_get_provider h w p code flags w' :
    FwpmProviderGetByKey0 h kProviderKey w = ((code, flags), w') -> ws_transactions (wfp_state w) !! h = Some p ->
    if code =? 0 then po_provider p = Some flags /\ wfp_state w' = with_allocated (ws_allocated (wfp_state w) + 1) (wfp_state w)
    else (code = FWP_E_PROVIDER_NOT_FOUND -> po_provider p = None) /\ wfp_state w' = wfp_state w;
  law_add_provider h flags w code w' : FwpmProviderAdd0 h (mkProvider kProviderKey flags) w = (code, w') ->
    if code =? 0 then in_transaction h (wfp_state w) (wfp_state w') (fun p p' => p' = put_provider (Some flags) p)
    else wfp_state w' = wfp_state w;
  law_delete_provider h w p code w' :
    FwpmProviderDeleteByKey0 h kProviderKey w = (code, w') -> ws_transactions (wfp_state w) !! h = Some p ->
    if code =? 0 then in_transaction h (wfp_state w) (wfp_state w') (fun p p' => p' = put_provider None p)
    else (code = FWP_E_PROVIDER_NOT_FOUND -> po_provider p = None) /\ wfp_state w' = wfp_state w;
  law_get_sublayer h w p code x w' :
    FwpmSubLayerGetByKey0 h kSubLayerKey w = ((code, x), w') -> ws_transactions (wfp_state w) !! h = Some p ->
    if code =? 0 then po_sublayer p = Some x /\ wfp_state w' = with_allocated (ws_allocated (wfp_state w) + 1) (wfp_state w)
    else (code = FWP_E_SUBLAYER_NOT_FOUND -> po_sublayer p = None) /\ wfp_state w' = wfp_state w;
  law_add_sublayer h sublayer w code w' : FwpmSubLayerAdd0 h sublayer w = (code, w') -> sl_key sublayer = kSubLayerKey ->
    if code =? 0 then in_transaction h (wfp_state w) (wfp_state w')
      (fun p p' => p' = put_sublayer (Some (sl_flags sublayer, sl_providerKey sublayer)) p)
    else wfp_state w' = wfp_state w;
  law_delete_sublayer h w p code w' :
    FwpmSubLayerDeleteByKey0 h kSubLayerKey w = (code, w') -> ws_transactions (wfp_state w) !! h = Some p ->
    if code =? 0 then in_transaction h (wfp_state w) (wfp_state w') (fun p p' => p' = put_sublayer None p)
    else (code = FWP_E_SUBLAYER_NOT_FOUND -> po_sublayer p = None) /\ wfp_state w' = wfp_state w;
  law_enumerate h w p code e w' :
    FwpmFilterCreateEnumHandle0 h kProviderKey kIncludeBootTimeFilters w = ((code, e), w') ->
    ws_transactions (wfp_state w) !! h = Some p ->
    wfp_state w' = if code =? 0
      then with_enumerations (<[e := map st_key (filter of_provider (po_filters p))]> (ws_enumerations (wfp_state w))) (wfp_state w)
      else wfp_state w;
  law_enum h e n w keys code batch w' :
    FwpmFilterEnum0 h e n w = ((code, batch), w') -> 0 < n -> ws_enumerations (wfp_state w) !! e = Some keys ->
    if code =? 0
    then exists rest, keys = batch ++ rest /\ (batch = [] -> rest = []) /\
      wfp_state w' = with_allocated (ws_allocated (wfp_state w) + 1)
        (with_enumerations (<[e := rest]> (ws_enumerations (wfp_state w))) (wfp_state w))
    else wfp_state w' = wfp_state w;
  law_destroy h e w code w' : FwpmFilterDestroyEnumHandle0 h e w = (code, w') ->
    exists x, wfp_state w' = with_enumerations x (wfp_state w);
  law_add_filter h f w code w' : FwpmFilterAdd0 h f w = (code, w') ->
    if code =? 0 then in_transaction h (wfp_state w) (wfp_state w') (fun p p' => exists key,
      (key ∉ map st_key (po_filters p)) /\
      p' = put_filters (po_filters p ++ [mkStored key f
        (match ws_engines (wfp_state w) !! h with Some true => Some h | _ => None end)]) p)
    else wfp_state w' = wfp_state w;
  law_delete_filter h key w p code w' : FwpmFilterDeleteByKey0 h key w = (code, w') ->
    ws_transactions (wfp_state w) !! h = Some p ->
    if code =? 0 then in_transaction h (wfp_state w) (wfp_state w') (fun p p' => p' = without_key key p)
    else (code = FWP_E_FILTER_NOT_FOUND -> key ∉ map st_key (po_filters p)) /\ wfp_state w' = wfp_state w;
  law_free w : wfp_state (FwpmFreeMemory0 w) = with_allocated (ws_allocated (wfp_state w) - 1) (wfp_state w)
}.

(** *** What the filters let out *)

(** A packet on its way out: where to, how, and through which interface. *)
Record Outbound := mkOutbound {
  ob_ipv6 : bool; ob_remote : bytes; ob_protocol : Z; ob_port : Z; ob_interface : Z
}.

Definition condition_holds (p : Outbound) (c : FilterCondition) : bool :=
  match conditionValue c with
  | FWP_V4_ADDR_MASK addr mask => bool_decide (fieldKey c = kRemoteAddressCondition) && negb (ob_ipv6 p) &&
      (Z.land (read_u32 (ob_remote p)) mask =? Z.land addr mask)
  | FWP_V6_ADDR_MASK addr prefix_length => bool_decide (fieldKey c = kRemoteAddressCondition) && ob_ipv6 p &&
      (prefix_length =? 128) && bool_decide (ob_remote p = addr)
  | FWP_UINT8 x => bool_decide (fieldKey c = kProtocolCondition) && (ob_protocol p =? x)
  | FWP_UINT16 x => bool_decide (fieldKey c = kRemotePortCondition) && (ob_port p =? x)
  | FWP_UINT32 x => bool_decide (fieldKey c = kInterfaceIndexCondition) && (ob_interface p =? x)
  end.
Definition applies (layer : GUID) (p : Outbound) (f : Filter) : bool :=
  bool_decide (f_layerKey f = layer) && bool_decide (f_subLayerKey f = kSubLayerKey) &&
  forallb (condition_holds p) (f_conditions f).
Definition is_block (f : Filter) : bool := match f_action f with FWP_ACTION_BLOCK => true | FWP_ACTION_PERMIT => false end.

(** In the sublayer the heaviest filter that applies decides; a block there is
    final.  A packet passes the packet layer and the transport layer of its
    family. *)
Definition blocks (layer : GUID) (fs : list Filter) (p : Outbound) : bool :=
  existsb (fun f => applies layer p f && is_block f &&
    forallb (fun g => negb (applies layer p g) || is_block g || (f_weight g <? f_weight f)) fs) fs.
Definition packet_layer (p : Outbound) : GUID := if ob_ipv6 p then kOutboundIpPacketV6 else kOutboundIpPacketV4.
Definition transport_layer (p : Outbound) : GUID := if ob_ipv6 p then kOutboundTransportV6 else kOutboundTransportV4.
Definition passes (fs : list Filter) (p : Outbound) : bool :=
  negb (blocks (packet_layer p) fs p) && negb (blocks (transport_layer p) fs p).

(** A packet to a VPN server. *)
Definition reaches (p : Outbound) (e : WindowsVpnEndpoint) : Prop :=
  ob_ipv6 p = vp_ipv6 e /\ ob_protocol p = IPPROTO_TCP /\ ob_port p = vp_port e /\
  ob_remote p = (if vp_ipv6 e then vp_address e else take 4 (vp_address e)).

(** The tunnel's permits at the four layers. *)
Definition tunnel_permit (index : Z) (layer : GUID) : Filter :=
  mkFilter 0 None layer kSubLayerKey kAllowWeight [interface_condition index] FWP_ACTION_PERMIT.
Definition tunnel_permits (index : Z) : list Filter :=
  map (tunnel_permit index) [kOutboundIpPacketV4; kOutboundIpPacketV6; kOutboundTransportV4; kOutboundTransportV6].

(** *** The filters that are added *)

Definition endpoint_filters (packet transport : GUID) (e : WindowsVpnEndpoint) : list Filter :=
  [mkFilter kFilterPersistent (Some kProviderKey) packet kSubLayerKey kAllowWeight [endpoint_address_condition e]
     FWP_ACTION_PERMIT;
   mkFilter kFilterPersistent (Some kProviderKey) transport kSubLayerKey kAllowWeight
     [endpoint_address_condition e; mkCondition kProtocolCondition (FWP_UINT8 IPPROTO_TCP);
      mkCondition kRemotePortCondition (FWP_UINT16 (vp_port e))] FWP_ACTION_PERMIT].
Fixpoint allowed_filters (packet transport : GUID) (ipv6 : bool) (endpoints : list WindowsVpnEndpoint) : list Filter :=
  match endpoints with
  | [] => []
  | e :: endpoints => (if Bool.eqb (vp_ipv6 e) ipv6 then endpoint_filters packet transport e else []) ++
      allowed_filters packet transport ipv6 endpoints
  end.
Definition block_filter (flags : Z) (layer : GUID) : Filter :=
  mkFilter flags (Some kProviderKey) layer kSubLayerKey kBlockWeight [] FWP_ACTION_BLOCK.
Definition family_filters (packet transport : GUID) (ipv6 : bool) (endpoints : list WindowsVpnEndpoint) : list Filter :=
  allowed_filters packet transport ipv6 endpoints ++
  [block_filter kFilterPersistent transport; block_filter kFilterPersistent packet].
Definition kill_switch_filters (endpoints : list WindowsVpnEndpoint) : list Filter :=
  [block_filter kFilterBootTime kOutboundIpPacketV4; block_filter kFilterBootTime kOutboundIpPacketV6] ++
  family_filters kOutboundIpPacketV4 kOutboundTransportV4 false endpoints ++
  family_filters kOutboundIpPacketV6 kOutboundTransportV6 true endpoints.

(** ** Lemmas *)

Lemma NoDup_map_eq {A B} (f : A -> B) l x y :
  NoDup (map f l) -> x ∈ l -> y ∈ l -> f x = f y -> x = y.
Proof.
  induction l as [|z l IH]; intros Hn Hx Hy E; [apply not_elem_of_nil in Hx; contradiction|].
  cbn [map] in Hn. apply NoDup_cons in Hn as [Hz Hn].
  assert (Hin : forall u, u ∈ l -> f u ∈ map f l) by (intros u Hu; apply list_elem_of_fmap; eauto).
  apply elem_of_cons in Hx as [->|Hx]; apply elem_of_cons in Hy as [->|Hy]; auto.
  - rewrite E in Hz. destruct (Hz (Hin _ Hy)).
  - rewrite <- E in Hz. destruct (Hz (Hin _ Hx)).
Qed.

Section Calculus.
Context {W : Type} {WF : Wfp W} {WL : WfpLaws W}.
Implicit Types (w : W) (p : Policy) (s : WfpState).

(** *** Inside a transaction *)

(** Keys are unique, and filters of a session that is not dynamic are not
    bound to it. *)
Definition unique_keys p : Prop := NoDup (map st_key (po_filters p)).
Definition settled (h : Z) s p : Prop :=
  unique_keys p /\
  (ws_engines s !! h <> Some true -> Forall (fun f => ~ of_session h f) (po_filters p)).

(** The transaction of [h], begun in [s], has made the policy [p]. *)
Definition during (h : Z) s p w : Prop :=
  settled h s p /\
  exists en, wfp_state w = mkWfp (ws_policy s) (ws_engines s) (<[h := p]> (ws_transactions s)) en (ws_allocated s).

Definition txn {A} (h : Z) s (P : Policy -> Prop) (m : M W A) (Q : A -> Policy -> Prop) : Prop :=
  forall p w, P p -> during h s p w ->
    match m w with
    | (Ok a, w') => exists p', Q a p' /\ during h s p' w'
    | (Throw _, w') => exists p', during h s p' w'
    end.

Lemma txn_ret {A} h s (P : Policy -> Prop) (a : A) (Q : A -> Policy -> Prop) :
  (forall p, P p -> Q a p) -> txn h s P (ret a) Q.
Proof. intros H p w HP Hd. exists p. auto. Qed.
Lemma txn_throw {A} h s P e (Q : A -> Policy -> Prop) : txn h s P (throw e) Q.
Proof. intros p w _ Hd. exists p. exact Hd. Qed.
Lemma txn_bind {A B} h s P (R : A -> Policy -> Prop) (Q : B -> Policy -> Prop) (m : M W A) k :
  txn h s P m R -> (forall a, txn h s (R a) (k a) Q) -> txn h s P (bind m k) Q.
Proof.
  intros Hm Hk p w HP Hd. unfold bind. specialize (Hm p w HP Hd). destruct (m w) as [[a|e] w'].
  - destruct Hm as (p' & HR & Hd'). exact (Hk a p' w' HR Hd').
  - exact Hm.
Qed.
Lemma txn_if {A} h s P (b : bool) (m n : M W A) Q :
  txn h s P m Q -> txn h s P n Q -> txn h s P (if b then m else n) Q.
Proof. destruct b; auto. Qed.
Lemma txn_conseq {A} h s (P P' : Policy -> Prop) (m : M W A) (Q Q' : A -> Policy -> Prop) :
  txn h s P m Q -> (forall p, P' p -> P p) -> (forall a p, Q a p -> Q' a p) -> txn h s P' m Q'.
Proof.
  intros H HP HQ p w Hp Hd. specialize (H p w (HP p Hp) Hd). destruct (m w) as [[a|e] w']; [|exact H].
  destruct H as (p' & HR & Hd'). eauto.
Qed.
Lemma txn_post {A} h s P (m : M W A) (Q Q' : A -> Policy -> Prop) :
  txn h s P m Q -> (forall a p, Q a p -> Q' a p) -> txn h s P m Q'.
Proof. intros H HQ. eapply txn_conseq; [exact H|auto|exact HQ]. Qed.
(** A computation that may be analysed where the policy is known. *)
Lemma txn_at {A} h s (P : Policy -> Prop) (m : M W A) Q :
  (forall p, P p -> txn h s (fun q => q = p) m Q) -> txn h s P m Q.
Proof. intros H p w HP Hd. exact (H p HP p w eq_refl Hd). Qed.

(** A call that fails changes nothing; one that succeeds changes the policy. *)
Lemma during_change h s p w w' (change : Policy -> Policy -> Prop) :
  during h s p w -> in_transaction h (wfp_state w) (wfp_state w') change ->
  (forall p', change p p' -> settled h s p') ->
  exists p', change p p' /\ during h s p' w'.
Proof.
  intros [_ [en E]] Hc Hs. rewrite E in Hc. destruct (Hc p) as (p' & Hp' & E'); [apply lookup_insert_eq|].
  exists p'. split; [exact Hp'|]. split; [apply Hs, Hp'|]. exists en. rewrite E'. unfold with_transactions. cbn.
  rewrite insert_insert_eq. reflexivity.
Qed.
Lemma during_transaction h s p w : during h s p w -> ws_transactions (wfp_state w) !! h = Some p.
Proof. intros [_ [en ->]]. apply lookup_insert_eq. Qed.
Lemma during_same h s p w w' : during h s p w -> wfp_state w' = wfp_state w -> during h s p w'.
Proof. intros [Hs [en E]] Ew. split; [exact Hs|]. exists en. congruence. Qed.
(** Memory that was given is given back. *)
Lemma during_free h s p w w1 :
  during h s p w -> wfp_state w1 = with_allocated (ws_allocated (wfp_state w) + 1) (wfp_state w) ->
  during h s p (FwpmFreeMemory0 w1).
Proof.
  intros [Hs [en E]] E1. split; [exact Hs|]. exists en. rewrite law_free, E1, E. unfold with_allocated. cbn. f_equal. lia.
Qed.

Lemma NoDup_keys_filter (fs : list Stored) (keep : Stored -> Prop) `{!forall f, Decision (keep f)} :
  NoDup (map st_key fs) -> NoDup (map st_key (filter keep fs)).
Proof.
  induction fs as [|f fs IH]; intros Hn; [constructor|]. cbn [map] in Hn. apply NoDup_cons in Hn as [Hx Hn].
  rewrite filter_cons. case_decide; [|apply IH, Hn]. cbn [map]. apply NoDup_cons. split; [|apply IH, Hn].
  intros Hin. apply Hx. apply list_elem_of_fmap in Hin as (g & Eg & Hin). apply list_elem_of_filter in Hin as [_ Hin].
  apply list_elem_of_fmap. eauto.
Qed.
Lemma settled_filter h s p (keep : Stored -> Prop) `{!forall f, Decision (keep f)} :
  settled h s p -> settled h s (put_filters (filter keep (po_filters p)) p).
Proof.
  intros [Hn Hf]. split; [apply NoDup_keys_filter, Hn|].
  intros Hd. specialize (Hf Hd). cbn. apply Forall_forall. intros f Hin. apply list_elem_of_filter in Hin as [_ Hin].
  rewrite Forall_forall in Hf. apply Hf, Hin.
Qed.

(** *** Adding filters *)

Definition session_of (h : Z) s : option Z := match ws_engines s !! h with Some true => Some h | _ => None end.

(** [p] is [p0] with these filters added. *)
Definition added (h : Z) s (fs : list Filter) p0 p : Prop :=
  exists l, map st_filter l = fs /\ Forall (fun f => st_session f = session_of h s) l /\
    p = put_filters (po_filters p0 ++ l) p0.

Lemma txn_add_filter h s fs p0 layer flags action weight conditions owned :
  txn h s (added h s fs p0) (add_filter h layer flags action weight conditions owned)
    (fun _ => added h s (fs ++ [mkFilter flags (if owned then Some kProviderKey else None) layer kSubLayerKey
                                 weight conditions action]) p0).
Proof.
  intros p w (l & Hl & Hses & ->) Hd. unfold add_filter, bind, api. set (f := mkFilter _ _ _ _ _ _ _).
  destruct (FwpmFilterAdd0 h f w) as [code w'] eqn:E. apply law_add_filter in E. unfold check_wfp, throw_wfp_error.
  destruct (code =? 0); cbn [negb].
  2:{ eexists. eapply during_same; eassumption. }
  edestruct (during_change h s _ w w' _ Hd E) as (p' & (key & Hk & ->) & Hd').
  { intros p' (key & Hk & ->). destruct Hd as [[Hn Hf] [en Ew]]. rewrite Ew in *. cbn in *. split.
    - unfold unique_keys. cbn. rewrite map_app. apply NoDup_app. split; [exact Hn|]. split; [|apply NoDup_singleton].
      intros k Hin ->%list_elem_of_singleton. contradiction.
    - intros Hne. specialize (Hf Hne). cbn. apply Forall_app. split; [exact Hf|]. repeat constructor. cbn.
      intros Hx. unfold of_session in Hx. cbn in Hx. destruct (ws_engines s !! h) as [[]|]; congruence. }
  exists (put_filters (po_filters (put_filters (po_filters p0 ++ l) p0) ++ [mkStored key f (session_of h s)]) p0). split.
  - exists (l ++ [mkStored key f (session_of h s)]). split; [rewrite map_app, Hl; reflexivity|].
    split; [apply Forall_app; split; [exact Hses|repeat constructor]|]. cbn. rewrite <- app_assoc. reflexivity.
  - destruct Hd as [_ [en Ew]]. rewrite Ew in Hd'. exact Hd'.
Qed.

Lemma txn_endpoint_allow h s fs p0 packet transport e :
  txn h s (added h s fs p0) (add_endpoint_allow h packet transport e)
    (fun _ => added h s (fs ++ endpoint_filters packet transport e) p0).
Proof.
  unfold add_endpoint_allow. eapply txn_bind; [apply txn_add_filter|]. intros [].
  eapply txn_post; [apply txn_add_filter|]. intros [] p H. rewrite <- app_assoc in H. exact H.
Qed.
Lemma txn_allow_endpoints h s packet transport ipv6 endpoints p0 : forall fs,
  txn h s (added h s fs p0) (allow_endpoints h packet transport ipv6 endpoints)
    (fun _ => added h s (fs ++ allowed_filters packet transport ipv6 endpoints) p0).
Proof.
  induction endpoints as [|e es IH]; intros fs; cbn [allow_endpoints allowed_filters].
  { apply txn_ret. intros p. rewrite app_nil_r. auto. }
  eapply txn_bind with (R := fun _ => added h s (fs ++ if Bool.eqb (vp_ipv6 e) ipv6 then endpoint_filters packet transport e else []) p0).
  - destruct (Bool.eqb (vp_ipv6 e) ipv6); [apply txn_endpoint_allow|]. apply txn_ret. intros p. rewrite app_nil_r. auto.
  - intros []. eapply txn_post; [apply IH|]. intros [] p H. rewrite <- app_assoc in H. exact H.
Qed.
Lemma txn_family h s packet transport ipv6 endpoints p0 fs :
  txn h s (added h s fs p0) (add_family_policy h packet transport ipv6 endpoints)
    (fun _ => added h s (fs ++ family_filters packet transport ipv6 endpoints) p0).
Proof.
  unfold add_family_policy, add_unconditional_filter. eapply txn_bind; [apply txn_allow_endpoints|]. intros [].
  eapply txn_bind; [apply txn_add_filter|]. intros [].
  eapply txn_post; [apply txn_add_filter|]. intros [] p H. unfold family_filters. rewrite <- !app_assoc in H. exact H.
Qed.

(** *** Removing filters *)

Definition kept_only p : Policy := put_filters (filter (fun f => ~ of_provider f) (po_filters p)) p.

(** The loop ends when the fuel exceeds the number of filters. *)
Lemma enumerate_loop_spec h s p e fuel : forall keys rest w en,
  settled h s p -> (forall n, en !! e = Some n -> n = rest) -> is_Some (en !! e) ->
  wfp_state w = mkWfp (ws_policy s) (ws_engines s) (<[h := p]> (ws_transactions s)) en (ws_allocated s) ->
  match enumerate_loop fuel h e keys w with
  | (Ok r, w') => during h s p w' /\ match r with Some ks => ks = keys ++ rest | None => (fuel <= length rest)%nat end
  | (Throw _, w') => during h s p w'
  end.
Proof.
  induction fuel as [|fuel IH]; intros keys rest w en Hs He Hsome Ew; cbn [enumerate_loop].
  { split; [split; [exact Hs|eauto]|lia]. }
  unfold bind at 1, api. destruct (FwpmFilterEnum0 h e 128 w) as [[code batch] w1] eqn:E.
  assert (Hen : en !! e = Some rest) by (destruct Hsome as [n Hn]; rewrite Hn; f_equal; apply He, Hn).
  apply (law_enum h e 128 w rest) in E; [|lia|rewrite Ew; exact Hen].
  unfold bind at 1, check_wfp, throw_wfp_error. destruct (code =? 0); cbn [negb].
  2:{ unfold throw. eapply during_same; [|exact E]. split; [exact Hs|eauto]. }
  destruct E as (rest' & -> & Hnil & E1). unfold ret at 1. unfold bind at 1, free_memory, modify.
  assert (E2 : wfp_state (FwpmFreeMemory0 w1) = mkWfp (ws_policy s) (ws_engines s) (<[h := p]> (ws_transactions s)) (<[e := rest']> en) (ws_allocated s)).
  { rewrite law_free, E1, Ew. unfold with_allocated, with_enumerations. cbn. f_equal. lia. }
  destruct (zlen batch =? 0) eqn:Ez.
  - unfold ret. split; [split; [exact Hs|eauto]|].
    assert (batch = []) as -> by (destruct batch; [reflexivity|b2p; rewrite zlen_cons in Ez; pose proof (zlen_nonneg batch); lia]).
    rewrite (Hnil eq_refl), !app_nil_r. reflexivity.
  - specialize (IH (keys ++ batch) rest' (FwpmFreeMemory0 w1) (<[e := rest']> en) Hs).
    forward IH. { intros n. rewrite lookup_insert_eq. congruence. }
    forward IH. { rewrite lookup_insert_eq. eauto. }
    specialize (IH E2). destruct (enumerate_loop fuel h e (keys ++ batch) (FwpmFreeMemory0 w1)) as [[[ks|]|ex] w2]; [| |exact IH];
      destruct IH as [Hd Hr]; (split; [exact Hd|]).
    + rewrite app_assoc. exact Hr.
    + rewrite length_app. destruct batch; [b2p; rewrite zlen_nil in Ez; lia|]. cbn. lia.
Qed.

Definition owned_keys p : list GUID := map st_key (filter of_provider (po_filters p)).

Lemma during_destroyed h s p w e code w' :
  during h s p w -> FwpmFilterDestroyEnumHandle0 h e w = (code, w') -> during h s p w'.
Proof.
  intros [Hs [en E]] Ed. apply law_destroy in Ed as [x E']. split; [exact Hs|]. exists x. rewrite E', E. reflexivity.
Qed.

Lemma txn_enumerate h s p fuel :
  txn h s (fun q => q = p) (enumerate_provider_filters fuel h)
    (fun r q => q = p /\ match r with Some ks => ks = owned_keys p | None => (fuel <= length (owned_keys p))%nat end).
Proof.
  intros q w -> Hd. unfold enumerate_provider_filters. unfold bind at 1, api.
  destruct (FwpmFilterCreateEnumHandle0 h kProviderKey kIncludeBootTimeFilters w) as [[code e] w1] eqn:E.
  apply (law_enumerate h w p) in E; [|eapply during_transaction, Hd].
  unfold bind at 1, check_wfp, throw_wfp_error. destruct (code =? 0); cbn [negb].
  2:{ unfold throw. exists p. eapply during_same; eassumption. }
  unfold ret at 1. destruct Hd as [Hs [en Ew]].
  pose proof (enumerate_loop_spec h s p e fuel [] (owned_keys p) w1 (<[e := owned_keys p]> en) Hs) as Hloop.
  forward Hloop. { intros n. rewrite lookup_insert_eq. congruence. }
  forward Hloop. { rewrite lookup_insert_eq. eauto. }
  forward Hloop. { rewrite E, Ew. reflexivity. }
  unfold bind at 1, try_catch. destruct (enumerate_loop fuel h e [] w1) as [[r|ex] w2].
  - destruct Hloop as [Hd Hr]. unfold bind. destruct (FwpmFilterDestroyEnumHandle0 h e w2) as [code2 w3] eqn:E3.
    pose proof (during_destroyed _ _ _ _ _ _ _ Hd E3) as Hd'. destruct (code2 =? 0); cbn [negb]; [|exists p; exact Hd'].
    exists p. auto.
  - unfold bind. destruct (FwpmFilterDestroyEnumHandle0 h e w2) as [code2 w3] eqn:E3. exists p. eapply during_destroyed; eassumption.
Qed.

(** [p] without the filters of these keys. *)
Definition without_keys (keys : list GUID) p : Policy :=
  put_filters (filter (fun f => st_key f ∉ keys) (po_filters p)) p.

Lemma without_keys_cons key keys p : without_keys keys (without_key key p) = without_keys (key :: keys) p.
Proof.
  unfold without_keys, without_key. cbn. unfold put_filters. cbn. f_equal. rewrite list_filter_filter.
  apply list_filter_iff. intros f. rewrite elem_of_cons. tauto.
Qed.
Lemma without_key_absent key p : key ∉ map st_key (po_filters p) -> without_key key p = p.
Proof.
  intros Hk. unfold without_key, put_filters. destruct p as [a b fs]. cbn in *. f_equal. apply filter_all.
  intros f Hin Ef. apply Hk. apply list_elem_of_fmap. eauto.
Qed.

Lemma txn_delete_filters h s keys : forall p,
  txn h s (fun q => q = p) (delete_filters h keys) (fun _ q => q = without_keys keys p).
Proof.
  induction keys as [|key keys IH]; intros p; cbn [delete_filters].
  { apply txn_ret. intros q ->. unfold without_keys, put_filters. destruct p as [a b fs]. cbn. f_equal. symmetry. apply filter_all.
    intros f _ H. apply not_elem_of_nil in H. exact H. }
  intros q w -> Hd. unfold bind at 1, api. destruct (FwpmFilterDeleteByKey0 h key w) as [code w1] eqn:E.
  apply (law_delete_filter h key w p) in E; [|eapply during_transaction, Hd]. unfold bind at 1, throw_wfp_error.
  destruct (code =? 0) eqn:Ec; cbn [negb andb].
  - destruct (during_change h s p w w1 _ Hd E) as (p' & -> & Hd').
    { intros p' ->. apply settled_filter, Hd. }
    unfold ret. pose proof (IH (without_key key p) _ w1 eq_refl Hd') as H. rewrite without_keys_cons in H. exact H.
  - destruct E as [Hnf E]. destruct (code =? FWP_E_FILTER_NOT_FOUND) eqn:En; cbn [negb].
    + apply Z.eqb_eq in En. specialize (Hnf En). unfold ret.
      pose proof (IH p _ w1 eq_refl (during_same _ _ _ _ _ Hd E)) as H.
      rewrite <- (without_key_absent key p Hnf), without_keys_cons in H. exact H.
    + unfold throw. exists p. eapply during_same; eassumption.
Qed.

Lemma without_owned h s p : settled h s p -> without_keys (owned_keys p) p = kept_only p.
Proof.
  intros [Hn _]. unfold without_keys, kept_only, put_filters. f_equal. apply filter_ext_in. intros f Hf.
  unfold owned_keys. split.
  - intros Hx Ho. apply Hx. apply list_elem_of_fmap. exists f. split; [reflexivity|]. apply in_filter. auto.
  - intros Ho Hx. apply list_elem_of_fmap in Hx as (g & Eg & Hg). apply in_filter in Hg as [Hog Hg].
    assert (f = g) as -> by (eapply NoDup_map_eq; eassumption). contradiction.
Qed.

Lemma txn_delete_provider h s p fuel :
  (length (owned_keys p) < fuel)%nat ->
  txn h s (fun q => q = p) (delete_provider_filters fuel h) (fun r q => r = Some tt /\ q = kept_only p).
Proof.
  intros Hfuel. unfold delete_provider_filters. eapply txn_bind; [apply txn_enumerate|]. intros [ks|].
  - intros q w [-> ->] Hd. assert (Hs : settled h s p) by apply Hd.
    assert (Ht : txn h s (fun q => q = p) (let* _ := delete_filters h (owned_keys p) in ret (Some tt))
      (fun r q => r = Some tt /\ q = kept_only p)).
    { eapply txn_bind; [apply txn_delete_filters|]. intros []. apply txn_ret. intros q ->. split; [reflexivity|].
      eapply without_owned, Hs. }
    exact (Ht p w eq_refl Hd).
  - intros q w [-> Hle]. lia.
Qed.

(** *** Provider and sublayer *)

Definition has_provider p : Prop := exists flags, po_provider p = Some flags /\ Z.land flags kProviderPersistent <> 0.
Definition has_sublayer p : Prop :=
  exists flags, po_sublayer p = Some (flags, Some kProviderKey) /\ Z.land flags kSubLayerPersistent <> 0.
Definition provisioned p : Prop := has_provider p /\ has_sublayer p.

Lemma txn_ensure_provider h s p :
  txn h s (fun q => q = p) (ensure_provider h) (fun _ q => has_provider q /\ po_filters q = po_filters p).
Proof.
  intros q w -> Hd. unfold ensure_provider. unfold bind at 1, api.
  destruct (FwpmProviderGetByKey0 h kProviderKey w) as [[code flags] w1] eqn:E.
  apply (law_get_provider h w p) in E; [|eapply during_transaction, Hd].
  destruct (code =? 0) eqn:Ec.
  - destruct E as [Hp E]. unfold bind, free_memory, modify. pose proof (during_free _ _ _ _ _ Hd E) as Hd'.
    destruct (Z.land flags kProviderPersistent =? 0) eqn:El; cbn [negb]; [exists p; exact Hd'|]. b2p.
    exists p. split; [|exact Hd']. split; [|reflexivity]. exists flags. auto.
  - destruct E as [_ E]. pose proof (during_same _ _ _ _ _ Hd E) as Hd'.
    destruct (code =? FWP_E_PROVIDER_NOT_FOUND); [|exists p; exact Hd'].
    unfold bind. destruct (FwpmProviderAdd0 h (mkProvider kProviderKey kProviderPersistent) w1) as [code2 w2] eqn:E2.
    apply law_add_provider in E2. unfold check_wfp, throw_wfp_error.
    destruct (code2 =? 0); cbn [negb]; [|exists p; eapply during_same; eassumption].
    destruct (during_change h s p w1 w2 _ Hd' E2) as (p' & -> & Hd2); [intros p' ->; exact (proj1 Hd)|].
    exists (put_provider (Some kProviderPersistent) p). split; [|exact Hd2]. split; [|reflexivity]. exists kProviderPersistent. split; [reflexivity|discriminate].
Qed.

Lemma txn_ensure_sublayer h s p :
  has_provider p ->
  txn h s (fun q => q = p) (ensure_sublayer h) (fun _ q => provisioned q /\ po_filters q = po_filters p).
Proof.
  intros Hpv q w -> Hd. unfold ensure_sublayer. unfold bind at 1, api.
  destruct (FwpmSubLayerGetByKey0 h kSubLayerKey w) as [[code [flags key]] w1] eqn:E.
  apply (law_get_sublayer h w p) in E; [|eapply during_transaction, Hd].
  destruct (code =? 0) eqn:Ec.
  - destruct E as [Hp E]. unfold bind, free_memory, modify. pose proof (during_free _ _ _ _ _ Hd E) as Hd'.
    match goal with |- context [negb ?b] => destruct b eqn:Et end; cbn [negb]; [|exists p; exact Hd'].
    apply andb_true_iff in Et as [Ef Ek]. destruct key as [key|]; [|discriminate]. apply bool_decide_eq_true_1 in Ek as ->.
    exists p. split; [|exact Hd']. split; [|reflexivity]. split; [exact Hpv|]. exists flags. split; [exact Hp|].
    destruct (Z.land flags kSubLayerPersistent =? 0) eqn:El; [discriminate|]. b2p. exact El.
  - destruct E as [_ E]. pose proof (during_same _ _ _ _ _ Hd E) as Hd'.
    destruct (code =? FWP_E_SUBLAYER_NOT_FOUND); [|exists p; exact Hd'].
    unfold bind. match goal with |- context [FwpmSubLayerAdd0 h ?x w1] => destruct (FwpmSubLayerAdd0 h x w1) as [code2 w2] eqn:E2 end.
    apply law_add_sublayer in E2; [|reflexivity]. unfold check_wfp, throw_wfp_error.
    destruct (code2 =? 0); cbn [negb]; [|exists p; eapply during_same; eassumption].
    destruct (during_change h s p w1 w2 _ Hd' E2) as (p' & -> & Hd2); [intros p' ->; exact (proj1 Hd)|].
    eexists. split; [|exact Hd2]. split; [|reflexivity]. split; [exact Hpv|]. exists kSubLayerPersistent. split; [reflexivity|discriminate].
Qed.

Lemma txn_ensure h s p :
  txn h s (fun q => q = p) (ensure_provider_and_sublayer h) (fun _ q => provisioned q /\ po_filters q = po_filters p).
Proof.
  eapply txn_bind; [apply txn_ensure_provider|]. intros []. apply txn_at. intros p1 [Hp Ef].
  eapply txn_post; [apply txn_ensure_sublayer, Hp|]. intros [] q [Hq ->]. auto.
Qed.

Lemma txn_remove_provider h s p :
  txn h s (fun q => q = p) (remove_provider h)
    (fun _ q => po_provider q = None /\ po_sublayer q = None /\ po_filters q = po_filters p).
Proof.
  intros q w -> Hd. unfold remove_provider. unfold bind at 1, api.
  destruct (FwpmSubLayerDeleteByKey0 h kSubLayerKey w) as [code w1] eqn:E.
  apply (law_delete_sublayer h w p) in E; [|eapply during_transaction, Hd].
  assert (H1 : (exists p1, po_sublayer p1 = None /\ po_provider p1 = po_provider p /\ po_filters p1 = po_filters p /\ during h s p1 w1) \/
    (code =? 0) = false /\ (code =? FWP_E_SUBLAYER_NOT_FOUND) = false /\ during h s p w1).
  { destruct (code =? 0) eqn:Ec.
    - left. destruct (during_change h s p w w1 _ Hd E) as (p' & -> & Hd2); [intros p' ->; exact (proj1 Hd)|].
      exists (put_sublayer None p). auto.
    - destruct E as [Hn E]. pose proof (during_same _ _ _ _ _ Hd E) as Hd'.
      destruct (code =? FWP_E_SUBLAYER_NOT_FOUND) eqn:En; [left|right; auto]. exists p. b2p. auto. }
  unfold bind at 1, throw_wfp_error, throw. destruct H1 as [(p1 & Hs1 & Hp1 & Hf1 & Hd1)|(-> & -> & Hd1)].
  2:{ cbn [negb andb]. exists p. exact Hd1. }
  destruct (negb (code =? 0) && negb (code =? FWP_E_SUBLAYER_NOT_FOUND)); [exists p1; exact Hd1|]. unfold ret at 1, bind.
  destruct (FwpmProviderDeleteByKey0 h kProviderKey w1) as [code2 w2] eqn:E2.
  apply (law_delete_provider h w1 p1) in E2; [|eapply during_transaction, Hd1].
  destruct (code2 =? 0) eqn:Ec; cbn [negb andb].
  - destruct (during_change h s p1 w1 w2 _ Hd1 E2) as (p' & -> & Hd2); [intros p' ->; exact (proj1 Hd1)|].
    exists (put_provider None p1). auto.
  - destruct E2 as [Hn E2]. pose proof (during_same _ _ _ _ _ Hd1 E2) as Hd'.
    destruct (code2 =? FWP_E_PROVIDER_NOT_FOUND) eqn:En; cbn [negb]; [|exists p1; exact Hd']. b2p.
    exists p1. split; [split; [apply Hn, En|auto]|exact Hd'].
Qed.

(** *** A transaction, and an engine *)

(** Only the policy and the enumerations may have changed. *)
Definition settles s p w : Prop :=
  exists en, wfp_state w = mkWfp p (ws_engines s) (ws_transactions s) en (ws_allocated s).

Lemma transaction_spec {A} h (P : Policy -> Prop) (body : M W A) Q w :
  ws_transactions (wfp_state w) !! h = None -> P (ws_policy (wfp_state w)) ->
  settled h (wfp_state w) (ws_policy (wfp_state w)) -> txn h (wfp_state w) P body Q ->
  match with_transaction h body w with
  | (Ok a, w') => exists p, Q a p /\ settled h (wfp_state w) p /\ settles (wfp_state w) p w'
  | (Throw _, w') => exists en tx, delete h tx = ws_transactions (wfp_state w) /\
      wfp_state w' = mkWfp (ws_policy (wfp_state w)) (ws_engines (wfp_state w)) tx en (ws_allocated (wfp_state w))
  end.
Proof.
  intros Hn HP Hs Hb. unfold with_transaction. unfold bind at 1, api. set (s := wfp_state w) in *.
  destruct (FwpmTransactionBegin0 h w) as [code w1] eqn:E. apply law_begin in E. fold s in E.
  unfold bind at 1, check_wfp at 1, throw_wfp_error. destruct (code =? 0); cbn [negb].
  2:{ unfold throw. exists (ws_enumerations s), (ws_transactions s). split; [apply delete_id, Hn|]. rewrite E. destruct s; reflexivity. }
  unfold ret at 1. assert (Hd : during h s (ws_policy s) w1).
  { split; [exact Hs|]. exists (ws_enumerations s). rewrite E. reflexivity. }
  assert (Habort : forall p w2, during h s p w2 -> exists en tx, delete h tx = ws_transactions s /\
      wfp_state (FwpmTransactionAbort0 h w2).2 = mkWfp (ws_policy s) (ws_engines s) tx en (ws_allocated s)).
  { intros p w2 [_ [en E2]]. destruct (FwpmTransactionAbort0 h w2) as [code2 w3] eqn:E3. apply law_abort in E3.
    exists en. cbn [snd]. rewrite E2 in E3. destruct (code2 =? 0).
    - exists (ws_transactions s). split; [apply delete_id, Hn|]. rewrite E3. unfold with_transactions. cbn.
      rewrite delete_insert_eq, delete_id by exact Hn. reflexivity.
    - exists (<[h := p]> (ws_transactions s)). rewrite delete_insert_eq, delete_id by exact Hn. auto. }
  unfold try_catch. specialize (Hb _ w1 HP Hd). unfold bind at 1. destruct (body w1) as [[a|e] w2].
  - destruct Hb as (p & Hq & Hd2). unfold bind at 1, api.
    destruct (FwpmTransactionCommit0 h w2) as [code2 w3] eqn:E3. apply (law_commit h w2 p) in E3; [|eapply during_transaction, Hd2].
    unfold bind at 1, check_wfp, throw_wfp_error. destruct (code2 =? 0); cbn [negb].
    + unfold ret. exists p. split; [exact Hq|]. split; [apply Hd2|]. destruct Hd2 as [_ [en E2]]. exists en. rewrite E3, E2.
      unfold with_policy, with_transactions. cbn. rewrite delete_insert_eq, delete_id by exact Hn. reflexivity.
    + unfold throw, bind, api. pose proof (Habort p w3 (during_same _ _ _ _ _ Hd2 E3)) as H.
      destruct (FwpmTransactionAbort0 h w3). exact H.
  - destruct Hb as (p & Hd2). unfold throw, bind, api. pose proof (Habort p w2 Hd2) as H.
    destruct (FwpmTransactionAbort0 h w2). exact H.
Qed.

Lemma without_session_id h p : Forall (fun f => ~ of_session h f) (po_filters p) -> without_session h p = p.
Proof.
  intros H. unfold without_session, put_filters. destruct p as [a b fs]. cbn in *. f_equal. apply filter_all.
  intros f Hf. rewrite Forall_forall in H. exact (H f Hf).
Qed.

Lemma engine_spec {A} (Q : A -> Policy -> Prop) (body : Z -> M W A) w :
  unique_keys (ws_policy (wfp_state w)) ->
  (forall h s, ws_engines s !! h = Some false -> ws_policy s = ws_policy (wfp_state w) ->
     txn h s (fun p => p = ws_policy (wfp_state w)) (body h) Q) ->
  match with_engine (fun h => with_transaction h (body h)) w with
  | (Ok a, w') => exists p, Q a p /\ unique_keys p /\ settles (wfp_state w) p w'
  | (Throw _, w') => settles (wfp_state w) (ws_policy (wfp_state w)) w'
  end.
Proof.
  intros Hn Hb. unfold with_engine. unfold bind at 1, api. set (s := wfp_state w) in *.
  destruct (FwpmEngineOpen0 0 w) as [[code h] w1] eqn:E. apply law_open in E. fold s in E.
  unfold bind at 1, check_wfp, throw_wfp_error. destruct (code =? 0); cbn [negb].
  2:{ unfold throw. exists (ws_enumerations s). rewrite E. destruct s; reflexivity. }
  destruct E as (_ & He & Ht & Hf & E). change (negb (Z.land 0 kDynamicSession =? 0)) with false in E. unfold ret at 1.
  assert (Hs : settled h (wfp_state w1) (ws_policy (wfp_state w1))).
  { rewrite E. split; [exact Hn|]. intros _. exact Hf. }
  assert (Het : ws_engines (wfp_state w1) !! h = Some false) by (rewrite E; apply lookup_insert_eq).
  assert (Hp1 : ws_policy (wfp_state w1) = ws_policy s) by (rewrite E; reflexivity).
  pose proof (transaction_spec h (fun p => p = ws_policy s) (body h) Q w1) as Hx.
  forward Hx. { rewrite E. exact Ht. }
  forward Hx. { exact Hp1. }
  specialize (Hx Hs (Hb h (wfp_state w1) Het Hp1)).
  destruct (with_transaction h (body h) w1) as [[a|e] w2].
  - destruct Hx as (p & Hq & Hset & [en E2]). destruct (FwpmEngineClose0 h w2) as [code2 w3] eqn:E3. apply law_close in E3.
    exists p. split; [exact Hq|]. split; [apply Hset|]. exists en. rewrite E3, E2, E. unfold with_policy, with_transactions, with_engines. cbn.
    rewrite without_session_id by (apply Hset; rewrite Het; discriminate).
    rewrite delete_insert_id by exact He. rewrite delete_id by exact Ht. reflexivity.
  - destruct Hx as (en & tx & Htx & E2). destruct (FwpmEngineClose0 h w2) as [code2 w3] eqn:E3. apply law_close in E3.
    exists en. rewrite E3, E2, E. unfold with_policy, with_transactions, with_engines. cbn.
    rewrite without_session_id by exact Hf. rewrite delete_insert_id by exact He. rewrite Htx, E. reflexivity.
Qed.

(** *** The three operations *)

Definition endpoints_valid (endpoints : list WindowsVpnEndpoint) : Prop :=
  1 <= zlen endpoints <= kMaximumEndpoints /\ Forall (fun e => endpoint_invalid e = false) endpoints.

(** [p] is [p0] with the program's filters replaced by those of [fs]. *)
Definition replaced (fs : list Filter) p0 p : Prop :=
  exists l, po_filters p = filter (fun f => ~ of_provider f) (po_filters p0) ++ l /\
    map st_filter l = fs /\ Forall (fun f => st_session f = None) l.

Definition enabled (endpoints : list WindowsVpnEndpoint) p0 (r : option unit) p : Prop :=
  r = Some tt /\ provisioned p /\ replaced (kill_switch_filters endpoints) p0 p.

Lemma settles_refl w : settles (wfp_state w) (ws_policy (wfp_state w)) w.
Proof. exists (ws_enumerations (wfp_state w)). destruct (wfp_state w). reflexivity. Qed.

Lemma added_nil h s p : added h s [] p p.
Proof. exists []. split; [reflexivity|]. split; [constructor|]. rewrite app_nil_r. destruct p; reflexivity. Qed.

Lemma txn_enable h s p0 fuel endpoints :
  ws_engines s !! h = Some false -> (length (owned_keys p0) < fuel)%nat ->
  txn h s (fun p => p = p0)
    (let* _ := ensure_provider_and_sublayer h in
     let* deleted := delete_provider_filters fuel h in
     match deleted with
     | None => ret None
     | Some _ =>
         let* _ := add_unconditional_filter h kOutboundIpPacketV4 kFilterBootTime FWP_ACTION_BLOCK kBlockWeight in
         let* _ := add_unconditional_filter h kOutboundIpPacketV6 kFilterBootTime FWP_ACTION_BLOCK kBlockWeight in
         let* _ := add_family_policy h kOutboundIpPacketV4 kOutboundTransportV4 false endpoints in
         let* _ := add_family_policy h kOutboundIpPacketV6 kOutboundTransportV6 true endpoints in
         ret (Some tt)
     end) (enabled endpoints p0).
Proof.
  intros Hh Hfuel. eapply txn_bind; [apply txn_ensure|]. intros []. apply txn_at. intros p1 [Hpv Ef1].
  eapply txn_bind; [apply txn_delete_provider; unfold owned_keys in *; rewrite Ef1; exact Hfuel|].
  intros r. apply txn_at. intros p2 [-> ->]. unfold add_unconditional_filter.
  eapply txn_bind; [eapply txn_conseq; [apply (txn_add_filter h s [] (kept_only p1))| |intros a q H; exact H]|].
  { intros q ->. apply added_nil. }
  intros []. eapply txn_bind; [apply txn_add_filter|]. intros []. eapply txn_bind; [apply txn_family|]. intros [].
  eapply txn_bind; [apply txn_family|]. intros []. apply txn_ret. intros q (l & Hl & Hses & ->).
  split; [reflexivity|]. split; [exact Hpv|]. exists l. split; [cbn; rewrite Ef1; reflexivity|].
  split; [rewrite Hl, <- !app_assoc; reflexivity|]. unfold session_of in Hses. rewrite Hh in Hses. exact Hses.
Qed.

Lemma enable_spec fuel endpoints w :
  unique_keys (ws_policy (wfp_state w)) ->
  (length (owned_keys (ws_policy (wfp_state w))) < fuel)%nat ->
  match enable_windows_kill_switch fuel endpoints w with
  | (Ok r, w') => endpoints_valid endpoints /\
      exists p, enabled endpoints (ws_policy (wfp_state w)) r p /\ unique_keys p /\ settles (wfp_state w) p w'
  | (Throw _, w') => settles (wfp_state w) (ws_policy (wfp_state w)) w'
  end.
Proof.
  intros Hn Hfuel. unfold enable_windows_kill_switch. unfold bind at 1, lift at 1.
  destruct (_ || _)%bool eqn:El; cbn [reject_if]; [apply settles_refl|]. unfold bind at 1, lift at 1.
  destruct (existsb endpoint_invalid endpoints) eqn:Ee; cbn [reject_if]; [apply settles_refl|].
  pose proof (engine_spec (enabled endpoints (ws_policy (wfp_state w))) _ w Hn
    (fun h s Hh _ => txn_enable h s (ws_policy (wfp_state w)) fuel endpoints Hh Hfuel)) as H.
  match goal with |- match ?m with _ => _ end => match type of H with match ?m' with _ => _ end => change m with m' end end.
  destruct (with_engine _ w) as [[r|e] w']; [|exact H]. split; [|exact H]. split.
  - apply orb_false_iff in El as [E1 E2]. apply Z.eqb_neq in E1. apply Z.ltb_ge in E2.
    pose proof (zlen_nonneg endpoints). lia.
  - apply Forall_forall. intros x Hx. apply not_true_iff_false. intros Ht.
    assert (existsb endpoint_invalid endpoints = true) as Hy; [|congruence].
    apply existsb_exists. exists x. split; [apply list_elem_of_In, Hx|exact Ht].
Qed.

Definition disabled p0 (r : option unit) p : Prop :=
  r = Some tt /\ po_provider p = None /\ po_sublayer p = None /\
  po_filters p = filter (fun f => ~ of_provider f) (po_filters p0).

Lemma no_owned p : owned_keys p = [] -> filter (fun f => ~ of_provider f) (po_filters p) = po_filters p.
Proof.
  intros E. apply filter_all. intros f Hf Ho.
  assert (Hin : st_key f ∈ owned_keys p) by (apply list_elem_of_fmap; exists f; split; [reflexivity|apply in_filter; auto]).
  rewrite E in Hin. apply not_elem_of_nil in Hin. exact Hin.
Qed.

Lemma txn_remove h s p0 p :
  filter (fun f => ~ of_provider f) (po_filters p0) = po_filters p ->
  txn h s (fun q => q = p) (let* _ := remove_provider h in ret (Some tt)) (disabled p0).
Proof.
  intros E. eapply txn_bind; [apply txn_remove_provider|]. intros []. apply txn_ret. intros q (H1 & H2 & H3).
  unfold disabled. rewrite H3, E. auto.
Qed.

Lemma disable_spec fuel w :
  unique_keys (ws_policy (wfp_state w)) ->
  (length (owned_keys (ws_policy (wfp_state w))) < fuel)%nat ->
  match disable_windows_kill_switch fuel w with
  | (Ok r, w') => exists p, disabled (ws_policy (wfp_state w)) r p /\ unique_keys p /\ settles (wfp_state w) p w'
  | (Throw _, w') => settles (wfp_state w) (ws_policy (wfp_state w)) w'
  end.
Proof.
  intros Hn Hfuel. unfold disable_windows_kill_switch.
  apply (engine_spec (disabled (ws_policy (wfp_state w))) _ w Hn). intros h s _ _.
  remember (ws_policy (wfp_state w)) as p0 eqn:E0. clear E0 Hn.
  eapply txn_bind; [apply txn_enumerate|]. intros [ks|]; apply txn_at; intros p1 [-> Hks]; [|lia]. subst ks.
  destruct (owned_keys p0) as [|k ks] eqn:Ek.
  - apply txn_remove, no_owned, Ek.
  - rewrite <- Ek in Hfuel. eapply txn_bind; [apply txn_delete_provider, Hfuel|]. intros r. apply txn_at. intros p2 [-> ->].
    apply txn_remove. reflexivity.
Qed.

(** [p] is [p0] with the permits for the session [new]. *)
Definition permitted (index new : Z) p0 p : Prop :=
  exists l, p = put_filters (po_filters p0 ++ l) p0 /\ map st_filter l = tunnel_permits index /\ Forall (of_session new) l.

(** [s] without the session [h]. *)
Definition closed_session (h : Z) s : WfpState :=
  with_policy (without_session h (ws_policy s)) (with_transactions (delete h (ws_transactions s))
    (with_engines (delete h (ws_engines s)) s)).

Lemma close_permit_spec old w :
  exists w', close_windows_tunnel_permit old w = (Ok 0, w') /\
    wfp_state w' = if old =? 0 then wfp_state w else closed_session old (wfp_state w).
Proof.
  unfold close_windows_tunnel_permit. destruct (old =? 0) eqn:E; cbn [negb].
  - exists w. apply Z.eqb_eq in E as ->. auto.
  - unfold bind, api. destruct (FwpmEngineClose0 old w) as [code w'] eqn:Ec. apply law_close in Ec. exists w'. auto.
Qed.

Lemma txn_permit h s p0 index :
  ws_engines s !! h = Some true ->
  txn h s (fun p => p = p0)
    (let* _ := add_interface_allow h kOutboundIpPacketV4 index in
     let* _ := add_interface_allow h kOutboundIpPacketV6 index in
     let* _ := add_interface_allow h kOutboundTransportV4 index in
     add_interface_allow h kOutboundTransportV6 index)
    (fun _ => permitted index h p0).
Proof.
  intros Hh. unfold add_interface_allow.
  eapply txn_bind; [eapply txn_conseq; [apply (txn_add_filter h s [] p0)| |intros a q H; exact H]|].
  { intros q ->. apply added_nil. }
  intros []. eapply txn_bind; [apply txn_add_filter|]. intros []. eapply txn_bind; [apply txn_add_filter|]. intros [].
  eapply txn_post; [apply txn_add_filter|]. intros [] q (l & Hl & Hses & ->). exists l. split; [reflexivity|].
  split; [rewrite Hl; reflexivity|]. unfold session_of in Hses. rewrite Hh in Hses. exact Hses.
Qed.

(** The state in which the new session is opened. *)
Definition without_permit (old : Z) s : WfpState := if old =? 0 then s else closed_session old s.

Lemma without_permit_keys old s :
  unique_keys (ws_policy s) -> unique_keys (ws_policy (without_permit old s)).
Proof. intros Hn. unfold without_permit. destruct (old =? 0); [exact Hn|]. apply NoDup_keys_filter, Hn. Qed.

Lemma permit_spec old index w r new w' :
  unique_keys (ws_policy (wfp_state w)) ->
  replace_windows_tunnel_permit old index w = ((r, new), w') ->
  let s := without_permit old (wfp_state w) in
  match r with
  | Ok _ => index <> 0 /\ new <> 0 /\ (ws_engines s !! new = None /\ ws_transactions s !! new = None) /\
      Forall (fun f => ~ of_session new f) (po_filters (ws_policy s)) /\
      exists p en, permitted index new (ws_policy s) p /\ unique_keys p /\
      wfp_state w' = mkWfp p (<[new := true]> (ws_engines s)) (ws_transactions s) en (ws_allocated s)
  | Throw _ => index = 0 /\ new = old /\ w' = w \/ index <> 0 /\ new = 0 /\ settles s (ws_policy s) w'
  end.
Proof.
  intros Hn Hr s. unfold replace_windows_tunnel_permit in Hr. destruct (index =? 0) eqn:Ei.
  { injection Hr as <- <- <-. apply Z.eqb_eq in Ei. auto. }
  apply Z.eqb_neq in Ei. destruct (close_permit_spec old w) as (w1 & Ec & Es). rewrite Ec in Hr. change (wfp_state w1 = s) in Es.
  unfold bind at 1, api in Hr. destruct (FwpmEngineOpen0 kDynamicSession w1) as [[code h] w2] eqn:Eo. apply law_open in Eo.
  rewrite Es in Eo. unfold bind at 1, check_wfp, throw_wfp_error in Hr. destruct (code =? 0); cbn [negb] in Hr.
  2:{ injection Hr as <- <- <-. right. split; [exact Ei|]. split; [reflexivity|]. exists (ws_enumerations s).
      rewrite Eo. destruct s; reflexivity. }
  destruct Eo as (Hh & He & Ht & Hf & E2). change (negb (Z.land kDynamicSession kDynamicSession =? 0)) with true in E2.
  unfold ret at 1 in Hr.
  assert (Het : ws_engines (wfp_state w2) !! h = Some true) by (rewrite E2; apply lookup_insert_eq).
  match type of Hr with context [with_transaction h ?b] =>
    pose proof (transaction_spec h (fun p => p = ws_policy s) b (fun _ => permitted index h (ws_policy s)) w2) as Hx end.
  forward Hx. { rewrite E2. exact Ht. }
  forward Hx. { rewrite E2. reflexivity. }
  forward Hx. { split; [rewrite E2; apply without_permit_keys, Hn|]. intros Hne. contradiction. }
  specialize (Hx (txn_permit h (wfp_state w2) (ws_policy s) index Het)).
  unfold bind at 1, try_catch in Hr. destruct (with_transaction h _ w2) as [[[]|e] w3].
  - injection Hr as <- <- <-. destruct Hx as (p & Hp & Hset & [en E3]). split; [exact Ei|]. split; [exact Hh|]. split; [split; [exact He|exact Ht]|].
    split; [exact Hf|]. exists p, en. split; [exact Hp|]. split; [apply Hset|]. rewrite E3, E2. reflexivity.
  - unfold bind, api in Hr. destruct (FwpmEngineClose0 h w3) as [code2 w4] eqn:E4. injection Hr as <- <- <-.
    apply law_close in E4. destruct Hx as (en & tx & Htx & E3). right. split; [exact Ei|]. split; [reflexivity|].
    exists en. rewrite E4, E3, E2. unfold with_policy, with_transactions, with_engines. cbn.
    rewrite without_session_id by exact Hf. rewrite delete_insert_id by exact He. rewrite Htx, E2. reflexivity.
Qed.
End Calculus.

(** *** What the added filters mean *)

Definition permit_at (layer : GUID) (p : Outbound) (f : Filter) : bool := applies layer p f && negb (is_block f).

(** Where one block of [kBlockWeight] applies and permits weigh more, a packet
    is blocked unless a permit applies. *)
Definition weighed (f : Filter) : Prop :=
  f_weight f = if is_block f then kBlockWeight else kAllowWeight.
Lemma blocks_unless_permitted layer fs p :
  Forall (fun f => f_subLayerKey f = kSubLayerKey -> weighed f) fs ->
  existsb (fun f => applies layer p f && is_block f) fs = true ->
  blocks layer fs p = negb (existsb (permit_at layer p) fs).
Proof.
  intros Hw Hb. rewrite Forall_forall in Hw.
  assert (Hwf : forall f, In f fs -> applies layer p f = true -> weighed f).
  { intros f Hin Ha. apply (Hw f); [apply list_elem_of_In, Hin|]. unfold applies in Ha.
    apply andb_true_iff in Ha as [Ha _]. apply andb_true_iff in Ha as [_ Ha]. exact (bool_decide_eq_true_1 _ Ha). }
  apply existsb_exists in Hb as (b & Hbin & Hb). apply andb_true_iff in Hb as [Hba Hbb].
  pose proof (Hwf b Hbin Hba) as Hbw. unfold weighed in Hbw. rewrite Hbb in Hbw.
  destruct (existsb (permit_at layer p) fs) eqn:Ep; cbn [negb].
  - apply existsb_exists in Ep as (g & Hgin & Hg). unfold permit_at in Hg. apply andb_true_iff in Hg as [Hga Hgb].
    apply not_true_iff_false. intros Hx. apply existsb_exists in Hx as (f & Hfin & Hf).
    apply andb_true_iff in Hf as [Hf Hall]. apply andb_true_iff in Hf as [Hfa Hfb].
    rewrite forallb_forall in Hall. specialize (Hall g Hgin). rewrite Hga in Hall. cbn [negb orb] in Hall.
    apply negb_true_iff in Hgb. rewrite Hgb in Hall. cbn [orb] in Hall.
    pose proof (Hwf f Hfin Hfa) as Hfw. pose proof (Hwf g Hgin Hga) as Hgw. unfold weighed in *.
    rewrite Hfb in Hfw. rewrite Hgb in Hgw. rewrite Hfw, Hgw in Hall. discriminate.
  - apply existsb_exists. exists b. split; [exact Hbin|]. rewrite Hba, Hbb. cbn [andb]. apply forallb_forall.
    intros g Hgin. destruct (applies layer p g) eqn:Hga; [|reflexivity]. destruct (is_block g) eqn:Hgb; [reflexivity|].
    exfalso. enough (existsb (permit_at layer p) fs = true) by congruence. apply existsb_exists. exists g.
    split; [exact Hgin|]. unfold permit_at. rewrite Hga, Hgb. reflexivity.
Qed.

Lemma existsb_allowed (P : Filter -> bool) packet transport ipv6 endpoints :
  existsb P (allowed_filters packet transport ipv6 endpoints) =
  existsb (fun e => Bool.eqb (vp_ipv6 e) ipv6 && existsb P (endpoint_filters packet transport e)) endpoints.
Proof.
  induction endpoints as [|e es IH]; cbn [allowed_filters existsb]; [reflexivity|].
  rewrite existsb_app, IH. destruct (Bool.eqb (vp_ipv6 e) ipv6); reflexivity.
Qed.

(** The endpoint's address, and its protocol and port. *)
Definition addressed (p : Outbound) (e : WindowsVpnEndpoint) : bool :=
  Bool.eqb (vp_ipv6 e) (ob_ipv6 p) && condition_holds p (endpoint_address_condition e).
Definition served (p : Outbound) (e : WindowsVpnEndpoint) : bool :=
  addressed p e && ((ob_protocol p =? IPPROTO_TCP) && (ob_port p =? vp_port e)).

(** Comparisons of two of the identifiers above. *)
Ltac guids :=
  repeat match goal with
  | |- context [@bool_decide (?a = ?b) ?d] =>
      first [change (@bool_decide (a = b) d) with true | change (@bool_decide (a = b) d) with false]
  end.

Lemma existsb_false {A} (f : A -> bool) l : (forall x, f x = false) -> existsb f l = false.
Proof. intros H. induction l as [|x l IH]; cbn; [reflexivity|]. rewrite H, IH. reflexivity. Qed.
Lemma existsb_ext {A} (f g : A -> bool) l : (forall x, f x = g x) -> existsb f l = existsb g l.
Proof. intros H. induction l as [|x l IH]; cbn; [reflexivity|]. rewrite H, IH. reflexivity. Qed.

Lemma permit_block layer p flags l : permit_at layer p (block_filter flags l) = false.
Proof. apply andb_false_r. Qed.
Lemma permits_family layer packet transport p ipv6 endpoints :
  existsb (permit_at layer p) (family_filters packet transport ipv6 endpoints) =
  existsb (fun e => Bool.eqb (vp_ipv6 e) ipv6 && existsb (permit_at layer p) (endpoint_filters packet transport e)) endpoints.
Proof.
  unfold family_filters. rewrite existsb_app, existsb_allowed. cbn [existsb].
  rewrite !permit_block, !orb_false_r. reflexivity.
Qed.

Lemma permits_at_packet p endpoints :
  existsb (permit_at (packet_layer p) p) (kill_switch_filters endpoints) = existsb (addressed p) endpoints.
Proof.
  unfold kill_switch_filters. rewrite !existsb_app, !permits_family. cbn [existsb].
  rewrite !permit_block. cbn [orb].
  unfold addressed, packet_layer, endpoint_filters, permit_at, applies. cbn [existsb f_layerKey f_subLayerKey f_conditions is_block f_action negb forallb].
  destruct (ob_ipv6 p); guids; cbn [andb orb].
  - rewrite existsb_false; [|intros e; apply andb_false_r]. apply existsb_ext. intros e. rewrite ?andb_true_r, ?orb_false_r. reflexivity.
  - rewrite (existsb_false (fun e => Bool.eqb (vp_ipv6 e) true && false)); [|intros e; apply andb_false_r].
    rewrite orb_false_r. apply existsb_ext. intros e. rewrite ?andb_true_r, ?orb_false_r. reflexivity.
Qed.

Lemma permits_at_transport p endpoints :
  existsb (permit_at (transport_layer p) p) (kill_switch_filters endpoints) = existsb (served p) endpoints.
Proof.
  unfold kill_switch_filters. rewrite !existsb_app, !permits_family. cbn [existsb].
  rewrite !permit_block. cbn [orb].
  unfold served, addressed, transport_layer, endpoint_filters, permit_at, applies.
  cbn [existsb f_layerKey f_subLayerKey f_conditions is_block f_action negb forallb].
  destruct (ob_ipv6 p); guids; cbn [andb orb].
  - rewrite existsb_false; [|intros e; apply andb_false_r]. apply existsb_ext. intros e.
    unfold condition_holds at 2 3. cbn [conditionValue fieldKey]. guids. cbn [andb].
    rewrite ?andb_true_r, ?orb_false_r, <- !andb_assoc. reflexivity.
  - rewrite (existsb_false (fun e => Bool.eqb (vp_ipv6 e) true && false)); [|intros e; apply andb_false_r].
    rewrite orb_false_r. apply existsb_ext. intros e. unfold condition_holds at 2 3. cbn [conditionValue fieldKey]. guids. cbn [andb].
    rewrite ?andb_true_r, ?orb_false_r, <- !andb_assoc. reflexivity.
Qed.

(** The blocks of both layers are there for every packet. *)
Lemma blocks_present p endpoints :
  existsb (fun f => applies (packet_layer p) p f && is_block f) (kill_switch_filters endpoints) = true /\
  existsb (fun f => applies (transport_layer p) p f && is_block f) (kill_switch_filters endpoints) = true.
Proof.
  assert (Ha : forall flags l, applies l p (block_filter flags l) && is_block (block_filter flags l) = true).
  { intros flags l. unfold applies. cbn [block_filter f_layerKey f_subLayerKey f_conditions is_block f_action forallb].
    rewrite !bool_decide_eq_true_2 by reflexivity. reflexivity. }
  unfold packet_layer, transport_layer, kill_switch_filters. split; apply existsb_exists.
  - exists (block_filter kFilterBootTime (packet_layer p)). split; [|apply Ha]. apply in_app_iff. left.
    unfold packet_layer. destruct (ob_ipv6 p); [right; left|left]; reflexivity.
  - exists (block_filter kFilterPersistent (transport_layer p)). split; [|apply Ha]. apply in_app_iff. right.
    unfold transport_layer, family_filters. rewrite !in_app_iff. destruct (ob_ipv6 p); [right; right|left; right]; left; reflexivity.
Qed.

Lemma weighed_kill_switch endpoints : Forall weighed (kill_switch_filters endpoints).
Proof.
  assert (Hb : forall flags l, weighed (block_filter flags l)) by reflexivity.
  assert (Ha : forall pk tr v, Forall weighed (allowed_filters pk tr v endpoints)).
  { intros pk tr v. induction endpoints as [|e es IH]; cbn [allowed_filters]; [constructor|]. apply Forall_app. split; [|exact IH].
    destruct (Bool.eqb (vp_ipv6 e) v); [|constructor]. apply Forall_cons. split; [reflexivity|].
    apply Forall_cons. split; [reflexivity|constructor]. }
  unfold kill_switch_filters, family_filters. rewrite !Forall_app, !Forall_cons. auto 12.
Qed.

(** *** What leaves the machine *)

Definition well_addressed (p : Outbound) : Prop :=
  is_bytes (ob_remote p) /\ length (ob_remote p) = if ob_ipv6 p then 16%nat else 4%nat.
Definition well_formed (e : WindowsVpnEndpoint) : Prop := is_bytes (vp_address e) /\ length (vp_address e) = 16%nat.

Lemma land_u32 x : in_u32 x -> Z.land x 0xffffffff = x.
Proof. intros H. change 0xffffffff with (Z.ones 32). rewrite Z.land_ones by lia. apply Z.mod_small. exact H. Qed.

Lemma read_u32_equal r a : is_bytes r -> is_bytes a -> length r = 4%nat -> length a = 16%nat ->
  (Z.land (read_u32 r) 0xffffffff =? Z.land (read_u32 a) 0xffffffff) = true <-> r = take 4 a.
Proof.
  intros Hr Ha Lr La. destruct r as [|r0 [|r1 [|r2 [|r3 [|? ?]]]]]; try discriminate Lr.
  destruct a as [|a0 [|a1 [|a2 [|a3 a]]]]; try discriminate La.
  assert (Ha' : is_bytes [a0; a1; a2; a3]) by (apply (Forall_take _ 4%nat) in Ha; exact Ha).
  rewrite !land_u32 by (apply read_u32_range; assumption). rewrite Z.eqb_eq. change (take 4 (a0 :: a1 :: a2 :: a3 :: a)) with [a0; a1; a2; a3]. split.
  - intros E. rewrite <- (be32_read r0 r1 r2 r3 []), <- (be32_read a0 a1 a2 a3 a) by assumption. congruence.
  - intros E. injection E as -> -> -> ->. unfold is_bytes in Ha'. rewrite !Forall_cons in Ha'. destruct_and! Ha'.
    rewrite !read_u32_cons by assumption. reflexivity.
Qed.

Lemma served_reaches p e : well_addressed p -> well_formed e -> served p e = true <-> reaches p e.
Proof.
  intros [Hp Lp] [He Le]. unfold served, addressed, reaches, condition_holds, endpoint_address_condition. cbn [conditionValue fieldKey].
  rewrite !andb_true_iff, eqb_true_iff, !Z.eqb_eq.
  destruct (vp_ipv6 e), (ob_ipv6 p); cbn [conditionValue fieldKey]; guids; cbn [andb negb];
    try (split; [intros [[? ?] ?]|intros (? & ?)]; congruence).
  - change (128 =? 128) with true. cbn [andb]. rewrite bool_decide_eq_true. tauto.
  - rewrite read_u32_equal by assumption. tauto.
Qed.

Lemma exists_served p endpoints : well_addressed p -> Forall well_formed endpoints ->
  existsb (served p) endpoints = true <-> Exists (reaches p) endpoints.
Proof.
  intros Hp He. rewrite existsb_exists, List.Exists_exists. rewrite List.Forall_forall in He.
  split; intros (e & Hin & H); exists e; (split; [exact Hin|]); apply (served_reaches p e Hp (He e Hin)); exact H.
Qed.

Lemma tunnel_permit_at p index layer : layer = packet_layer p \/ layer = transport_layer p ->
  existsb (permit_at layer p) (tunnel_permits index) = (ob_interface p =? index).
Proof.
  intros Hl. unfold tunnel_permits, permit_at, applies, tunnel_permit. cbn [map existsb f_layerKey f_subLayerKey f_conditions is_block f_action forallb negb].
  unfold condition_holds, interface_condition. cbn [conditionValue fieldKey].
  destruct Hl as [-> | ->]; unfold packet_layer, transport_layer; destruct (ob_ipv6 p); guids; cbn [andb orb];
    rewrite ?andb_true_r, ?orb_false_r; reflexivity.
Qed.

Lemma foreign_apply (q : Filter -> bool) layer p fs :
  Forall (fun f => f_subLayerKey f <> kSubLayerKey) fs -> existsb (fun f => applies layer p f && q f) fs = false.
Proof.
  intros Hf. apply not_true_iff_false. intros Hx. apply existsb_exists in Hx as (f & Hin & Hx).
  apply andb_true_iff in Hx as [Hx _]. unfold applies in Hx. apply andb_true_iff in Hx as [Hx _].
  apply andb_true_iff in Hx as [_ Hx]. apply bool_decide_eq_true_1 in Hx. rewrite List.Forall_forall in Hf. exact (Hf f Hin Hx).
Qed.

Lemma permit_blocks foreign endpoints ix p layer : layer = packet_layer p \/ layer = transport_layer p ->
  Forall (fun f => f_subLayerKey f <> kSubLayerKey) foreign ->
  blocks layer (foreign ++ kill_switch_filters endpoints ++ flat_map tunnel_permits ix) p =
  negb (existsb (permit_at layer p) (kill_switch_filters endpoints) || existsb (fun i => ob_interface p =? i) ix).
Proof.
  intros Hl Hf. rewrite blocks_unless_permitted.
  - rewrite !existsb_app. unfold permit_at at 1. rewrite foreign_apply by exact Hf. cbn [orb]. f_equal. f_equal.
    induction ix as [|i ix IH]; cbn [flat_map existsb]; [reflexivity|]. rewrite existsb_app, IH, tunnel_permit_at by exact Hl. reflexivity.
  - rewrite !Forall_app. split; [|split].
    + eapply Forall_impl; [exact Hf|]. intros f H E. contradiction.
    + eapply Forall_impl; [apply weighed_kill_switch|]. intros f H _. exact H.
    + apply Forall_flat_map. apply Forall_forall. intros i _. unfold tunnel_permits. cbn [map].
      rewrite !Forall_cons. repeat split. constructor.
  - rewrite !existsb_app, foreign_apply by exact Hf. cbn [orb].
    destruct (blocks_present p endpoints) as [H1 H2]. destruct Hl as [-> | ->]; [rewrite H1|rewrite H2]; reflexivity.
Qed.

Lemma passes_spec foreign endpoints ix p :
  Forall (fun f => f_subLayerKey f <> kSubLayerKey) foreign -> Forall well_formed endpoints -> well_addressed p ->
  passes (foreign ++ kill_switch_filters endpoints ++ flat_map tunnel_permits ix) p = true <->
  (ob_interface p ∈ ix) \/ Exists (reaches p) endpoints.
Proof.
  intros Hf He Hp. unfold passes. rewrite !permit_blocks by auto. rewrite !negb_involutive, permits_at_packet, permits_at_transport.
  rewrite <- (exists_served p endpoints Hp He).
  assert (Hix : existsb (fun i => ob_interface p =? i) ix = true <-> (ob_interface p ∈ ix)).
  { rewrite existsb_exists, list_elem_of_In. split; [intros (i & Hin & E); apply Z.eqb_eq in E as ->; exact Hin|].
    intros Hin. exists (ob_interface p). split; [exact Hin|apply Z.eqb_refl]. }
  rewrite andb_true_iff, !orb_true_iff, Hix. split; [tauto|]. intros [H|H]; [auto|]. split; [left|auto].
  apply existsb_exists in H as (e & Hin & H). apply existsb_exists. exists e. split; [exact Hin|].
  unfold served in H. apply andb_true_iff in H. tauto.
Qed.

(** While the machine starts only the boot-time filters are in force. *)
Definition boot_time (f : Filter) : bool := negb (Z.land (f_flags f) kFilterBootTime =? 0).
Lemma permits_not_boot endpoints : Forall (fun f => is_block f = false -> boot_time f = false) (kill_switch_filters endpoints).
Proof.
  assert (Hb : forall flags l, is_block (block_filter flags l) = false -> boot_time (block_filter flags l) = false) by discriminate.
  assert (Ha : forall pk tr v, Forall (fun f => is_block f = false -> boot_time f = false) (allowed_filters pk tr v endpoints)).
  { intros pk tr v. induction endpoints as [|e es IH]; cbn [allowed_filters]; [constructor|]. apply Forall_app. split; [|exact IH].
    destruct (Bool.eqb (vp_ipv6 e) v); [|constructor]. apply Forall_cons. split; [reflexivity|].
    apply Forall_cons. split; [reflexivity|constructor]. }
  unfold kill_switch_filters, family_filters. rewrite !Forall_app, !Forall_cons. auto 12.
Qed.

Lemma boot_blocks p foreign endpoints :
  Forall (fun f => f_subLayerKey f <> kSubLayerKey) foreign ->
  passes (List.filter boot_time (foreign ++ kill_switch_filters endpoints)) p = false.
Proof.
  intros Hf. unfold passes. rewrite blocks_unless_permitted.
  - enough (existsb (permit_at (packet_layer p) p) (List.filter boot_time (foreign ++ kill_switch_filters endpoints)) = false) as -> by reflexivity.
    apply not_true_iff_false. intros Hx. apply existsb_exists in Hx as (f & Hin & Hx). apply List.filter_In in Hin as [Hin Hboot].
    unfold permit_at in Hx. apply andb_true_iff in Hx as [Ha Hb]. apply negb_true_iff in Hb.
    apply in_app_iff in Hin as [Hin|Hin].
    + enough (existsb (fun f => applies (packet_layer p) p f && true) foreign = true) as Hy by (rewrite foreign_apply in Hy by exact Hf; discriminate).
      apply existsb_exists. exists f. rewrite Ha. auto.
    + pose proof (permits_not_boot endpoints) as Hn. rewrite List.Forall_forall in Hn. specialize (Hn f Hin Hb). congruence.
  - apply Forall_forall. intros f Hin. apply list_elem_of_In, List.filter_In in Hin as [Hin _]. intros Hs.
    rewrite List.Forall_forall in Hf. apply in_app_iff in Hin as [Hin|Hin]; [destruct (Hf f Hin Hs)|].
    pose proof (weighed_kill_switch endpoints) as Hw. rewrite List.Forall_forall in Hw. apply Hw, Hin.
  - apply existsb_exists. exists (block_filter kFilterBootTime (packet_layer p)). split.
    + apply List.filter_In. split; [|reflexivity]. apply in_app_iff. right. unfold packet_layer.
      destruct (ob_ipv6 p); [right; left|left]; reflexivity.
    + unfold applies. cbn [block_filter f_layerKey f_subLayerKey f_conditions is_block f_action forallb].
      rewrite !bool_decide_eq_true_2 by reflexivity. reflexivity.
Qed.

(** ** Properties *)

Definition filters_in_force {W} `{WL : WfpLaws W} (w : W) : list Filter :=
  map st_filter (po_filters (ws_policy (wfp_state w))).

Section Properties.
Context {W : Type} {WF : Wfp W} {WL : WfpLaws W}.

Lemma map_sublayer (l : list Stored) (P : Filter -> Prop) :
  Forall (fun f => P (st_filter f)) l -> Forall P (map st_filter l).
Proof. intros H. apply Forall_fmap. exact H. Qed.

Lemma filter_none (P : Stored -> Prop) `{!forall x, Decision (P x)} l : (forall x, x ∈ l -> ~ P x) -> filter P l = [].
Proof.
  induction l as [|x l IH]; intros Hl; [reflexivity|]. rewrite filter_cons_False by (apply Hl; left).
  apply IH. intros y Hy. apply Hl. right. exact Hy.
Qed.

(** Without the session [old], the policy that enabling leads to is the foreign
    filters followed by those of the kill switch. *)
Lemma enabled_without_permit old endpoints p0 r s1 en s0 :
  enabled endpoints (ws_policy s0) r p0 ->
  s1 = mkWfp p0 (ws_engines s0) (ws_transactions s0) en (ws_allocated s0) ->
  exists foreign, map st_filter (po_filters (ws_policy (without_permit old s1))) = foreign ++ kill_switch_filters endpoints /\
    (Forall (fun f => ~ of_provider f -> f_subLayerKey (st_filter f) <> kSubLayerKey) (po_filters (ws_policy (without_permit old s0))) ->
     Forall (fun f => f_subLayerKey f <> kSubLayerKey) foreign).
Proof.
  intros (_ & _ & l & Hp & Hl & Hses) ->. unfold without_permit, closed_session. destruct (old =? 0); cbn.
  - exists (map st_filter (filter (fun f => ~ of_provider f) (po_filters (ws_policy s0)))). split.
    { rewrite Hp, map_app, Hl. reflexivity. }
    intros Hf. apply map_sublayer. rewrite Forall_forall in *. intros f Hin. apply list_elem_of_filter in Hin as [Hn Hin]. apply (Hf f Hin Hn).
  - exists (map st_filter (filter (fun f => ~ of_session old f) (filter (fun f => ~ of_provider f) (po_filters (ws_policy s0))))). split.
    { rewrite Hp, filter_app, map_app. rewrite (filter_all _ l), Hl; [reflexivity|].
      intros f Hin. rewrite Forall_forall in Hses. unfold of_session. rewrite (Hses f Hin). discriminate. }
    intros Hf. apply map_sublayer. rewrite Forall_forall in *. intros f Hin. apply list_elem_of_filter in Hin as [Hs Hin].
    apply list_elem_of_filter in Hin as [Hn Hin]. apply Hf; [|exact Hn]. apply list_elem_of_filter. auto.
Qed.

(** C33: The kill switch fails closed.  When it has been enabled and the permit
    for the tunnel's interface put in place, a packet leaves the machine exactly
    if it goes out through the tunnel or to one of the VPN server's endpoints,
    over TCP and to its port.  When the permit's session ends, however it ends,
    only the endpoints remain reachable; and while the machine starts, before
    the persistent filters are in force, nothing leaves. *)
Theorem kill_switch_fail_closed fuel endpoints old index w r w1 new w2 p :
  unique_keys (ws_policy (wfp_state w)) ->
  (length (owned_keys (ws_policy (wfp_state w))) < fuel)%nat ->
  Forall (fun f => ~ of_provider f -> f_subLayerKey (st_filter f) <> kSubLayerKey)
    (po_filters (ws_policy (without_permit old (wfp_state w)))) ->
  Forall well_formed endpoints -> well_addressed p ->
  enable_windows_kill_switch fuel endpoints w = (Ok r, w1) ->
  replace_windows_tunnel_permit old index w1 = ((Ok tt, new), w2) ->
  r = Some tt /\
  (passes (filters_in_force w2) p = true <-> ob_interface p = index \/ Exists (reaches p) endpoints) /\
  (passes (filters_in_force (close_windows_tunnel_permit new w2).2) p = true <-> Exists (reaches p) endpoints) /\
  passes (List.filter boot_time (filters_in_force (close_windows_tunnel_permit new w2).2)) p = false.
Proof.
  intros Hn Hfuel Hf He Hp Hen Hper.
  pose proof (enable_spec fuel endpoints w Hn Hfuel) as Hs. rewrite Hen in Hs. destruct Hs as (_ & p1 & Hp1 & Hu1 & en1 & Es1).
  destruct (enabled_without_permit old endpoints p1 r (wfp_state w1) en1 (wfp_state w) Hp1 Es1) as (foreign & Hfs & Hfor).
  specialize (Hfor Hf). apply permit_spec in Hper; [|rewrite Es1; exact Hu1].
  destruct Hper as (_ & Hnew & _ & Hfresh & p2 & en2 & (l & -> & Hl & Hses) & _ & Es2).
  destruct (close_permit_spec new w2) as (w3 & Hc & Es3). apply Z.eqb_neq in Hnew. rewrite Hnew in Es3. rewrite Hc.
  assert (F2 : filters_in_force w2 = foreign ++ kill_switch_filters endpoints ++ flat_map tunnel_permits [index]).
  { unfold filters_in_force. rewrite Es2. cbn -[kill_switch_filters tunnel_permits without_permit]. rewrite map_app, Hfs, Hl, app_nil_r, <- app_assoc. reflexivity. }
  assert (F3 : filters_in_force w3 = foreign ++ kill_switch_filters endpoints ++ flat_map tunnel_permits []).
  { unfold filters_in_force. rewrite Es3, Es2. unfold closed_session, without_session. cbn -[kill_switch_filters tunnel_permits without_permit].
    rewrite filter_app, (filter_all _ (po_filters _)), (filter_none _ l), !app_nil_r, Hfs; [reflexivity| |].
    - intros f Hin. rewrite Forall_forall in Hses. specialize (Hses f Hin). tauto.
    - intros f Hin. rewrite Forall_forall in Hfresh. exact (Hfresh f Hin). }
  split; [apply Hp1|]. cbn [snd]. rewrite F2, F3, !passes_spec by assumption. rewrite list_elem_of_singleton.
  split; [reflexivity|]. split; [|rewrite app_nil_r; apply boot_blocks, Hfor].
  split; [intros [H|H]; [apply not_elem_of_nil in H; contradiction|exact H]|auto].
Qed.

(** C34: The kill switch changes as a whole or not at all.  Enabling it either
    fails and leaves the filtering policy, the platform's sessions, transactions
    and memory as they were, or leaves exactly the provider, the sublayer, the
    foreign filters and the filters of the endpoints; disabling it fails in the
    same way or leaves exactly the foreign filters; a permit that cannot be put
    in place leaves none, and no session. *)
Theorem kill_switch_all_or_nothing fuel endpoints old index w :
  unique_keys (ws_policy (wfp_state w)) ->
  (length (owned_keys (ws_policy (wfp_state w))) < fuel)%nat ->
  let unchanged s w' := settles s (ws_policy s) w' in
  match enable_windows_kill_switch fuel endpoints w with
  | (Ok r, w') => endpoints_valid endpoints /\
      exists p, enabled endpoints (ws_policy (wfp_state w)) r p /\ unique_keys p /\ settles (wfp_state w) p w'
  | (Throw _, w') => unchanged (wfp_state w) w'
  end /\
  match disable_windows_kill_switch fuel w with
  | (Ok r, w') => exists p, disabled (ws_policy (wfp_state w)) r p /\ unique_keys p /\ settles (wfp_state w) p w'
  | (Throw _, w') => unchanged (wfp_state w) w'
  end /\
  match replace_windows_tunnel_permit old index w with
  | ((Ok _, new), w') => exists p en, permitted index new (ws_policy (without_permit old (wfp_state w))) p /\
      wfp_state w' = mkWfp p (<[new := true]> (ws_engines (without_permit old (wfp_state w))))
        (ws_transactions (without_permit old (wfp_state w))) en (ws_allocated (wfp_state w))
  | ((Throw _, new), w') => index = 0 /\ new = old /\ w' = w \/ new = 0 /\ unchanged (without_permit old (wfp_state w)) w'
  end.
Proof.
  intros Hn Hfuel unchanged. split; [exact (enable_spec fuel endpoints w Hn Hfuel)|].
  split; [exact (disable_spec fuel w Hn Hfuel)|].
  destruct (replace_windows_tunnel_permit old index w) as [[[[]|e] new] w'] eqn:E; apply permit_spec in E; try exact Hn.
  - destruct E as (_ & _ & _ & _ & p & en & Hp & _ & E). exists p, en. split; [exact Hp|]. rewrite E. f_equal.
    unfold without_permit. destruct (old =? 0); reflexivity.
  - destruct E as [E|(_ & -> & E)]; auto.
Qed.
End Properties.

(** ** A platform *)

(** A filtering platform that carries out a number of calls and refuses the
    others; it shows that the laws can hold. *)
Module Platform.
Definition World : Type := WfpState * nat.

Definition call {A} (refused : A) (f : WfpState -> A * WfpState) (w : World) : A * World :=
  match w with
  | (s, O) => (refused, (s, O))
  | (s, S n) => let '(a, s') := f s in (a, (s', n))
  end.
(** A call within a transaction: a new policy, or an error. *)
Definition in_tx (h : Z) (f : Policy -> Z + Policy) (s : WfpState) : Z * WfpState :=
  match ws_transactions s !! h with
  | Some p => match f p with inr p' => (0, with_transactions (<[h := p']> (ws_transactions s)) s) | inl code => (code, s) end
  | None => (1, s)
  end.

Definition above (l : list Z) : Z := 1 + foldr Z.max 0 l.
Lemma above_spec l : 0 < above l /\ (above l ∉ l).
Proof.
  assert (H : forall x, x ∈ l -> x < above l).
  { unfold above. induction l as [|y l IH]; intros x Hx; [apply not_elem_of_nil in Hx; contradiction|].
    cbn [foldr]. apply elem_of_cons in Hx as [->|Hx]; [lia|]. specialize (IH x Hx). lia. }
  split; [unfold above; clear H; induction l; cbn [foldr]; lia|]. intros Hin. specialize (H _ Hin). lia.
Qed.
Definition sessions (fs : list Stored) : list Z := flat_map (fun f => match st_session f with Some h => [h] | None => [] end) fs.
Definition new_handle (s : WfpState) : Z :=
  above (map fst (map_to_list (ws_engines s)) ++ map fst (map_to_list (ws_transactions s)) ++ sessions (po_filters (ws_policy s))).
Definition new_key (p : Policy) : GUID := mkGuid (above (map (fun f => Data1 (st_key f)) (po_filters p))) 0 0 [].

#[export] Instance platform : Wfp World := {
  FWP_E_PROVIDER_NOT_FOUND := 0x80320005;
  FWP_E_SUBLAYER_NOT_FOUND := 0x80320007;
  FWP_E_FILTER_NOT_FOUND := 0x80320003;
  FwpmEngineOpen0 flags := call (1, 0) (fun s => let h := new_handle s in
    ((0, h), with_engines (<[h := negb (Z.land flags kDynamicSession =? 0)]> (ws_engines s)) s));
  FwpmEngineClose0 h w := (0, (closed_session h (fst w), snd w));
  FwpmTransactionBegin0 h := call 1 (fun s => (0, with_transactions (<[h := ws_policy s]> (ws_transactions s)) s));
  FwpmTransactionAbort0 h := call 1 (fun s => (0, with_transactions (delete h (ws_transactions s)) s));
  FwpmTransactionCommit0 h := call 1 (fun s => match ws_transactions s !! h with
    | Some p => (0, with_policy p (with_transactions (delete h (ws_transactions s)) s)) | None => (1, s) end);
  FwpmProviderGetByKey0 h key := call (1, 0) (fun s => match ws_transactions s !! h with
    | Some p => match po_provider p with
                | Some flags => ((0, flags), with_allocated (ws_allocated s + 1) s)
                | None => ((0x80320005, 0), s) end
    | None => ((1, 0), s) end);
  FwpmProviderAdd0 h provider := call 1 (in_tx h (fun p => inr (put_provider (Some (pv_flags provider)) p)));
  FwpmProviderDeleteByKey0 h key := call 1 (in_tx h (fun p =>
    match po_provider p with Some _ => inr (put_provider None p) | None => inl 0x80320005 end));
  FwpmSubLayerGetByKey0 h key := call (1, (0, None)) (fun s => match ws_transactions s !! h with
    | Some p => match po_sublayer p with
                | Some x => ((0, x), with_allocated (ws_allocated s + 1) s)
                | None => ((0x80320007, (0, None)), s) end
    | None => ((1, (0, None)), s) end);
  FwpmSubLayerAdd0 h sublayer := call 1 (in_tx h (fun p =>
    inr (put_sublayer (Some (sl_flags sublayer, sl_providerKey sublayer)) p)));
  FwpmSubLayerDeleteByKey0 h key := call 1 (in_tx h (fun p =>
    match po_sublayer p with Some _ => inr (put_sublayer None p) | None => inl 0x80320007 end));
  FwpmFilterCreateEnumHandle0 h key flags := call (1, 0) (fun s => match ws_transactions s !! h with
    | Some p => ((0, 1), with_enumerations (<[1 := map st_key (filter of_provider (po_filters p))]> (ws_enumerations s)) s)
    | None => ((1, 0), s) end);
  FwpmFilterEnum0 h e n := call (1, []) (fun s => match ws_enumerations s !! e with
    | Some keys => ((0, take (Z.to_nat n) keys), with_allocated (ws_allocated s + 1)
        (with_enumerations (<[e := drop (Z.to_nat n) keys]> (ws_enumerations s)) s))
    | None => ((1, []), s) end);
  FwpmFilterDestroyEnumHandle0 h e := call 1 (fun s => (0, with_enumerations (delete e (ws_enumerations s)) s));
  FwpmFilterAdd0 h f := call 1 (fun s => in_tx h (fun p => inr (put_filters (po_filters p ++
    [mkStored (new_key p) f (match ws_engines s !! h with Some true => Some h | _ => None end)]) p)) s);
  FwpmFilterDeleteByKey0 h key := call 1 (in_tx h (fun p =>
    if decide (key ∈ map st_key (po_filters p)) then inr (without_key key p) else inl 0x80320003));
  FwpmFreeMemory0 w := (with_allocated (ws_allocated (fst w) - 1) (fst w), snd w)
}.

Lemma call_spec {A} (refused : A) f w a w' : call refused f w = (a, w') ->
  (a = refused /\ fst w' = fst w) \/ (f (fst w) = (a, fst w')).
Proof.
  destruct w as [s [|n]]; cbn; [injection 1 as <- <-; auto|]. destruct (f s) as [b s'] eqn:E. injection 1 as <- <-. auto.
Qed.
Lemma in_tx_spec h f s code s' : in_tx h f s = (code, s') ->
  (code = 0 /\ exists p p', ws_transactions s !! h = Some p /\ f p = inr p' /\ s' = with_transactions (<[h := p']> (ws_transactions s)) s) \/
  (s' = s /\ (code = 1 \/ exists p, ws_transactions s !! h = Some p /\ f p = inl code)).
Proof.
  unfold in_tx. destruct (ws_transactions s !! h) as [p|] eqn:E; [|injection 1 as <- <-; auto].
  destruct (f p) as [c|p'] eqn:Ef; injection 1 as <- <-; [right|left]; eauto 10.
Qed.
(** The law of a call within a transaction. *)
Lemma in_tx_law h f w code w' (change : Policy -> Policy -> Prop) (absent : Policy -> Z -> Prop) :
  call 1 (in_tx h f) w = (code, w') -> (forall p p', f p = inr p' -> change p p') ->
  (forall p c, f p = inl c -> c <> 0 /\ absent p c) ->
  if code =? 0 then in_transaction h (fst w) (fst w') change
  else (code = 1 \/ exists p, ws_transactions (fst w) !! h = Some p /\ absent p code) /\ fst w' = fst w.
Proof.
  intros Hc Hf Ha. apply call_spec in Hc as [[-> Hw]|Hc]; [cbn; auto|].
  apply in_tx_spec in Hc as [(-> & p & p' & Hp & Hfp & Hw)|(Hw & [->|(p & Hp & Hfp)])].
  - change (0 =? 0) with true. cbv beta iota. intros q Hq. exists p'. split; [|exact Hw]. apply Hf. congruence.
  - cbn. auto.
  - destruct (Ha p code Hfp) as [Hne Habs]. apply Z.eqb_neq in Hne. rewrite Hne. eauto.
Qed.

Lemma lookup_fresh {A} (m : gmap Z A) h l : (h ∉ map fst (map_to_list m) ++ l) -> m !! h = None.
Proof.
  intros Hn. apply eq_None_not_Some. intros [x Hx]. apply Hn. apply elem_of_app. left. apply list_elem_of_fmap.
  exists (h, x). split; [reflexivity|]. apply elem_of_map_to_list, Hx.
Qed.

#[export] Program Instance platform_laws : WfpLaws World := { wfp_state := fst }.
Next Obligation. cbn. split; [|split]; discriminate. Qed.
Next Obligation.
  intros flags w code h w' E. apply call_spec in E as [[Er E]|E]; [injection Er as -> ->; exact E|].
  cbv beta zeta in E. injection E as <- <- <-. change (0 =? 0) with true. cbv iota.
  destruct (above_spec (map fst (map_to_list (ws_engines (fst w))) ++ map fst (map_to_list (ws_transactions (fst w))) ++
    sessions (po_filters (ws_policy (fst w))))) as [Hpos Hn]. fold (new_handle (fst w)) in *.
  split; [lia|]. split; [eapply lookup_fresh, Hn|]. rewrite elem_of_app in Hn. apply Decidable.not_or in Hn as [_ Hn].
  split; [eapply lookup_fresh, Hn|]. split; [|reflexivity]. rewrite elem_of_app in Hn. apply Decidable.not_or in Hn as [_ Hn].
  apply Forall_forall. intros f Hin Hf. apply Hn. unfold sessions. apply list_elem_of_In, in_flat_map.
  exists f. split; [apply list_elem_of_In, Hin|]. rewrite Hf. left. reflexivity.
Qed.
Next Obligation. intros h w code w' E. injection E as <- <-. reflexivity. Qed.
Next Obligation. intros h w code w' E. apply call_spec in E as [[-> E]|E]; [exact E|]. injection E as <- <-. reflexivity. Qed.
Next Obligation. intros h w code w' E. apply call_spec in E as [[-> E]|E]; [exact E|]. injection E as <- <-. reflexivity. Qed.
Next Obligation.
  intros h w p code w' E Hp. apply call_spec in E as [[-> E]|E]; [exact E|]. cbv beta in E. rewrite Hp in E.
  injection E as <- <-. reflexivity.
Qed.
Next Obligation.
  intros h w p code flags w' E Hp. apply call_spec in E as [[Er E]|E]; [injection Er as -> ->; cbn; split; [discriminate|exact E]|].
  cbv beta in E. rewrite Hp in E. destruct (po_provider p); injection E as <- <- <-; cbn; auto.
Qed.
Next Obligation.
  intros h flags w code w' E. eapply in_tx_law with (change := fun p p' => p' = put_provider (Some flags) p) (absent := fun _ _ => True) in E.
  - destruct (code =? 0); [exact E|apply E].
  - cbn. congruence.
  - discriminate.
Qed.
Next Obligation.
  intros h w p code w' E Hp. eapply in_tx_law with (change := fun p p' => p' = put_provider None p) (absent := fun p _ => po_provider p = None) in E.
  - destruct (code =? 0); [exact E|]. destruct E as [Hc E]. split; [|exact E]. intros ->. destruct Hc as [Hc|(q & Hq & Hn)]; [discriminate|].
    congruence.
  - cbn. intros q q'. destruct (po_provider q); congruence.
  - cbn. intros q c. destruct (po_provider q) eqn:Eq; [discriminate|]. intros [= <-]. split; [discriminate|reflexivity].
Qed.
Next Obligation.
  intros h w p code [a b] w' E Hp. apply call_spec in E as [[Er E]|E]; [injection Er as -> -> ->; cbn; split; [discriminate|exact E]|].
  cbv beta in E. rewrite Hp in E. destruct (po_sublayer p) as [[? ?]|]; injection E as <- <- <- <-; cbn; auto.
Qed.
Next Obligation.
  intros h sl w code w' E _. eapply in_tx_law with (change := fun p p' => p' = put_sublayer (Some (sl_flags sl, sl_providerKey sl)) p)
    (absent := fun _ _ => True) in E.
  - destruct (code =? 0); [exact E|apply E].
  - cbn. congruence.
  - discriminate.
Qed.
Next Obligation.
  intros h w p code w' E Hp. eapply in_tx_law with (change := fun p p' => p' = put_sublayer None p) (absent := fun p _ => po_sublayer p = None) in E.
  - destruct (code =? 0); [exact E|]. destruct E as [Hc E]. split; [|exact E]. intros ->. destruct Hc as [Hc|(q & Hq & Hn)]; [discriminate|].
    congruence.
  - cbn. intros q q'. destruct (po_sublayer q); congruence.
  - cbn. intros q c. destruct (po_sublayer q) eqn:Eq; [discriminate|]. intros [= <-]. split; [discriminate|reflexivity].
Qed.
Next Obligation.
  intros h w p code e w' E Hp. apply call_spec in E as [[Er E]|E]; [injection Er as -> ->; exact E|]. cbv beta in E. rewrite Hp in E.
  injection E as <- <- <-. reflexivity.
Qed.
Next Obligation.
  intros h e n w keys code batch w' E Hn Hk. apply call_spec in E as [[Er E]|E]; [injection Er as -> ->; exact E|]. cbv beta in E. rewrite Hk in E.
  injection E as <- <- <-. change (0 =? 0) with true. cbv iota. exists (drop (Z.to_nat n) keys).
  split; [symmetry; apply take_drop|]. split; [|reflexivity]. intros Ht.
  destruct keys as [|k keys]; [apply drop_nil|]. destruct (Z.to_nat n) eqn:Ez; [lia|discriminate Ht].
Qed.
Next Obligation.
  intros h e w code w' E. apply call_spec in E as [[-> E]|E].
  - exists (ws_enumerations (fst w)). rewrite E. destruct (fst w); reflexivity.
  - injection E as <- <-. eexists. reflexivity.
Qed.
Next Obligation.
  intros h f w code w' E. apply call_spec in E as [[-> E]|E]; [exact E|].
  apply in_tx_spec in E as [(-> & p & p' & Hp & Hfp & E)|(E & [->|(p & Hp & Hfp)])]; [|exact E|discriminate].
  change (0 =? 0) with true. cbv iota. intros q Hq. replace q with p by congruence. exists p'. split; [|exact E].
  injection Hfp as <-. eexists. split; [|reflexivity]. unfold new_key. intros Hin.
  apply list_elem_of_fmap in Hin as (x & Ex & Hin).
  apply (proj2 (above_spec (map (fun f => Data1 (st_key f)) (po_filters p)))).
  apply list_elem_of_fmap. exists x. split; [rewrite <- Ex; reflexivity|exact Hin].
Qed.
Next Obligation.
  intros h key w p code w' E Hp. eapply in_tx_law with (change := fun p p' => p' = without_key key p)
    (absent := fun p _ => key ∉ map st_key (po_filters p)) in E.
  - destruct (code =? 0); [exact E|]. destruct E as [Hc E]. split; [|exact E]. intros ->. destruct Hc as [Hc|(q & Hq & Hn)]; [discriminate|].
    replace p with q by congruence. exact Hn.
  - cbn. intros q q'. case_decide; congruence.
  - cbn. intros q c. case_decide; [discriminate|]. intros [= <-]. split; [discriminate|assumption].
Qed.
Next Obligation. reflexivity. Qed.
End Platform.

(** ** Examples *)
Module Scenario.
Import Platform.
Definition server4 : WindowsVpnEndpoint := mkVpnEndpoint [203; 0; 113; 7; 0; 0; 0; 0; 0; 0; 0; 0; 0; 0; 0; 0] 443 false.
Definition server6 : WindowsVpnEndpoint := mkVpnEndpoint [32; 1; 13; 184; 0; 0; 0; 0; 0; 0; 0; 0; 0; 0; 0; 1] 443 true.
(** A policy with a filter of another program and one that a run of this
    program has left behind. *)
Definition other : Stored := mkStored (mkGuid 5 0 0 []) (mkFilter 0 None kOutboundIpPacketV4 (mkGuid 9 0 0 []) 1 [] FWP_ACTION_PERMIT) None.
Definition stale : Stored := mkStored (mkGuid 6 0 0 []) (block_filter kFilterPersistent kOutboundIpPacketV6) None.
Definition before (fuse : nat) : World :=
  (mkWfp (mkPolicy None None [other; stale]) ∅ ∅ ∅ 0, fuse).
Definition enabled_world : World := (enable_windows_kill_switch 10 [server4; server6] (before 100)).2.
Definition permitted_world : World := (replace_windows_tunnel_permit 0 12 enabled_world).2.
(** An ordinary request over another interface. *)
Definition leak : Outbound := mkOutbound false [93; 184; 216; 34] IPPROTO_TCP 443 3.

Lemma bytes_dec l : forallb (fun x => (0 <=? x) && (x <? 256)) l = true -> is_bytes l.
Proof.
  intros H. rewrite forallb_forall in H. apply List.Forall_forall. intros x Hx. specialize (H x Hx).
  apply andb_true_iff in H as [H1 H2]. apply Z.leb_le in H1. apply Z.ltb_lt in H2. split; assumption.
Qed.

Lemma kill_switch_fail_closed_witness : passes (filters_in_force permitted_world) leak <> true.
Proof.
  pose proof (kill_switch_fail_closed 10 [server4; server6] 0 12 (before 100) (Some tt) enabled_world 1 permitted_world leak) as H.
  assert (Hr : ob_interface leak = 12 \/ Exists (reaches leak) [server4; server6] -> False).
  { intros [E|E]; [discriminate E|]. apply Exists_cons in E as [(_ & _ & _ & E)|E]; [discriminate E|].
    apply Exists_cons in E as [(E & _)|E]; [discriminate E|]. inversion E. }
  intros Hp. apply Hr. apply H; [| | | | | | |exact Hp].
  - apply NoDup_cons. split; [|apply NoDup_singleton]. intros E. apply list_elem_of_singleton in E. discriminate E.
  - vm_compute. repeat constructor.
  - vm_compute. constructor; [discriminate|]. constructor; [|constructor]. intros Hx. exfalso. apply Hx. reflexivity.
  - apply Forall_cons; split; [split; [apply bytes_dec; reflexivity|reflexivity]|].
    apply Forall_cons; split; [split; [apply bytes_dec; reflexivity|reflexivity]|constructor].
  - split; [apply bytes_dec; reflexivity|reflexivity].
  - vm_compute. reflexivity.
  - vm_compute. reflexivity.
Defined.

(** The platform refuses the second filter: the policy is as it was. *)
Lemma kill_switch_all_or_nothing_witness :
  (enable_windows_kill_switch 10 [server4] (before 13)).1 = Throw (SystemError 1 "add WFP kill-switch filter") /\
  ws_policy (wfp_state (enable_windows_kill_switch 10 [server4] (before 13)).2) = ws_policy (wfp_state (before 13)).
Proof.
  pose proof (kill_switch_all_or_nothing 10 [server4] 0 12 (before 13)) as H.
  forward H. { apply NoDup_cons. split; [|apply NoDup_singleton]. intros E. apply list_elem_of_singleton in E. discriminate E. }
  forward H. { vm_compute. repeat constructor. }
  destruct H as [H _]. destruct (enable_windows_kill_switch 10 [server4] (before 13)) as [r w'] eqn:E.
  assert (Er : r = Throw (SystemError 1 "add WFP kill-switch filter")).
  { change r with (r, w').1. rewrite <- E. vm_compute. reflexivity. }
  cbn [fst snd]. subst r. split; [reflexivity|]. destruct H as [en H]. rewrite H. reflexivity.
Defined.
End Scenario.

