(* ===== verification/WindowsNetworkBackend.v ===== *)
(** * The Windows network backend

    Models src/client/windows_network_backend.cpp: the Wintun adapter with its
    packet session, and the addresses, routes and MTU of its interface, behind
    the interface of the network transaction (NetworkTransaction.v); and the
    order in which the kill switch (WindowsKillSwitch.v) is put up and taken
    down.  Wintun, the IP Helper and the kernel are parameters. *)
From S2P Require Import NetworkTransaction WindowsKillSwitch.
From S2P Require Import Prelude Bytes ControlMessages Address.

(** ** Data *)

Definition AF_INET : Z := 2.
Definition AF_INET6 : Z := 23.
Definition AF_UNSPEC : Z := 0.
Definition MIB_IPPROTO_NETMGMT : Z := 3.
Definition ERROR_OBJECT_ALREADY_EXISTS : Z := 5010.
Definition ERROR_NOT_FOUND : Z := 1168.
Definition ERROR_NO_MORE_ITEMS : Z := 259.
Definition WAIT_OBJECT_0 : Z := 0.

(** The rows of the IP Helper, without the fields that are constants here. *)
Record MIB_UNICASTIPADDRESS_ROW := mkUnicast {
  ua_luid : Z; ua_family : Z; ua_address : bytes; ua_prefix_length : Z
}.
Record MIB_IPFORWARD_ROW2 := mkForward {
  fw_luid : Z; fw_family : Z; fw_prefix : bytes; fw_prefix_length : Z; fw_next_hop : bytes;
  fw_site_prefix_length : Z; fw_metric : Z; fw_protocol : Z
}.
Record MIB_IPINTERFACE_ROW := mkInterface { if_luid : Z; if_family : Z; NlMtu : Z }.
#[export] Instance forward_row_eq_dec : EqDecision MIB_IPFORWARD_ROW2.
Proof. solve_decision. Defined.

(** The calls; a handle or pointer is 0 for null.  What is sent through a
    session is given with the buffer it has been copied to. *)
Class WindowsHost (W : Type) := {
  GetLastError : W -> Z;
  CreateEventW : W -> Z * W;
  CloseHandle (handle : Z) : W -> W;
  SetEvent (event : Z) : W -> W;
  ResetEvent (event : Z) : W -> W;
  WaitForMultipleObjects (events : list Z) : W -> Z * W;
  LoadLibraryExW (name : string) : W -> Z * W;
  GetProcAddress (module : Z) (name : string) : W -> Z * W;
  FreeLibrary (module : Z) : W -> W;
  WintunOpenAdapter (name : list Z) : W -> Z * W;
  WintunCreateAdapter (name : list Z) (tunnel_type : string) : W -> Z * W;
  WintunCloseAdapter (adapter : Z) : W -> W;
  WintunGetAdapterLUID (adapter : Z) : W -> Z * W;
  WintunStartSession (adapter capacity : Z) : W -> Z * W;
  WintunEndSession (session : Z) : W -> W;
  WintunGetReadWaitEvent (session : Z) : W -> Z * W;
  WintunReceivePacket (session : Z) : W -> (Z * bytes) * W;
  WintunReleaseReceivePacket (session packet : Z) : W -> W;
  WintunAllocateSendPacket (session size : Z) : W -> Z * W;
  WintunSendPacket (session destination : Z) (packet : bytes) : W -> W;
  CreateUnicastIpAddressEntry (row : MIB_UNICASTIPADDRESS_ROW) : W -> Z * W;
  DeleteUnicastIpAddressEntry (row : MIB_UNICASTIPADDRESS_ROW) : W -> Z * W;
  CreateIpForwardEntry2 (row : MIB_IPFORWARD_ROW2) : W -> Z * W;
  DeleteIpForwardEntry2 (row : MIB_IPFORWARD_ROW2) : W -> Z * W;
  FlushIpPathTable (family : Z) : W -> Z * W;
  GetIpInterfaceEntry (luid family : Z) : W -> (Z * MIB_IPINTERFACE_ROW) * W;
  SetIpInterfaceEntry (row : MIB_IPINTERFACE_ROW) : W -> Z * W;
  GetIpForwardTable2 (family : Z) : W -> (Z * list MIB_IPFORWARD_ROW2) * W;
  FreeMibTable : W -> W;
  GetBestRoute2 (family : Z) (destination : bytes) : W -> (Z * MIB_IPFORWARD_ROW2) * W;
  ConvertInterfaceLuidToIndex (luid : Z) : W -> (Z * Z) * W;
  ConvertInterfaceAliasToLuid (alias : string) : W -> (Z * Z) * W
}.

(** [Impl]; a set [module_] stands for the eleven function pointers too. *)
Record WindowsNetworkBackend (W : Type) := mkBackend {
  wb_host : W;
  wb_adapter_name : list Z;
  wb_module : Z;
  wb_interrupt_event : Z;
  wb_adapter : Z;
  wb_session : Z;
  wb_luid : Z;
  wb_tunnel_policy_session : Z
}.
Arguments mkBackend {W}.
Arguments wb_host {W}.
Arguments wb_adapter_name {W}.
Arguments wb_module {W}.
Arguments wb_interrupt_event {W}.
Arguments wb_adapter {W}.
Arguments wb_session {W}.
Arguments wb_luid {W}.
Arguments wb_tunnel_policy_session {W}.

(** ** Rows *)

Definition address_row (luid : Z) (address : InterfaceAddress) : MIB_UNICASTIPADDRESS_ROW :=
  mkUnicast luid AF_INET (ifa_address address) (ifa_prefix_length address).
Definition address_row_v6 (luid : Z) (address : Ipv6InterfaceAddress) : MIB_UNICASTIPADDRESS_ROW :=
  mkUnicast luid AF_INET6 (ifa6_address address) (ifa6_prefix_length address).
Definition route_row_v4 (luid : Z) (route : Ipv4Route) : MIB_IPFORWARD_ROW2 :=
  mkForward luid AF_INET (r4_network route) (r4_prefix_length route) (r4_gateway route) (r4_prefix_length route)
    5 MIB_IPPROTO_NETMGMT.
Definition route_row_v6 (luid : Z) (route : Ipv6Route) : MIB_IPFORWARD_ROW2 :=
  mkForward luid AF_INET6 (r6_network route) (r6_prefix_length route) (r6_gateway route) (r6_prefix_length route)
    5 MIB_IPPROTO_NETMGMT.
Definition route_row (luid : Z) (route : Route) : MIB_IPFORWARD_ROW2 :=
  match route with RouteV4 r => route_row_v4 luid r | RouteV6 r => route_row_v6 luid r end.
Definition route_family (route : Route) : Z := match route with RouteV4 _ => AF_INET | RouteV6 _ => AF_INET6 end.

(** The test of the loop of [remove_owned_default_routes]. *)
Definition owned_default_route (luid : Z) (route : MIB_IPFORWARD_ROW2) : bool :=
  let default_route := fw_prefix_length route =? 0 in
  let default_route :=
    if default_route && (fw_family route =? AF_INET) then read_u32 (fw_prefix route) =? 0
    else if default_route && (fw_family route =? AF_INET6) then bool_decide (fw_prefix route = zeros 16)
    else false in
  negb (negb default_route || negb (fw_luid route =? luid) || negb (fw_protocol route =? MIB_IPPROTO_NETMGMT) ||
        negb (fw_metric route =? 5)).

(** The part of an endpoint's address that is copied. *)
Definition endpoint_bytes (endpoint : WindowsVpnEndpoint) : bytes :=
  if vp_ipv6 endpoint then vp_address endpoint else take 4 (vp_address endpoint).
Definition endpoint_family (endpoint : WindowsVpnEndpoint) : Z := if vp_ipv6 endpoint then AF_INET6 else AF_INET.
Definition bypass_row (prior_route : MIB_IPFORWARD_ROW2) (endpoint : WindowsVpnEndpoint) : MIB_IPFORWARD_ROW2 :=
  let length := if vp_ipv6 endpoint then 128 else 32 in
  mkForward (fw_luid prior_route) (endpoint_family endpoint) (endpoint_bytes endpoint) length
    (fw_next_hop prior_route) length 1 MIB_IPPROTO_NETMGMT.

Section Backend.
Context {W : Type} {WH : WindowsHost W} {WF : Wfp W}.
Abbreviation Impl := (WindowsNetworkBackend W).

Definition with_host (h : W) (b : Impl) : Impl :=
  mkBackend h (wb_adapter_name b) (wb_module b) (wb_interrupt_event b) (wb_adapter b) (wb_session b) (wb_luid b)
    (wb_tunnel_policy_session b).
Definition set_module (x : Z) (b : Impl) : Impl :=
  mkBackend (wb_host b) (wb_adapter_name b) x (wb_interrupt_event b) (wb_adapter b) (wb_session b) (wb_luid b)
    (wb_tunnel_policy_session b).
Definition set_adapter (x : Z) (b : Impl) : Impl :=
  mkBackend (wb_host b) (wb_adapter_name b) (wb_module b) (wb_interrupt_event b) x (wb_session b) (wb_luid b)
    (wb_tunnel_policy_session b).
Definition set_session (x : Z) (b : Impl) : Impl :=
  mkBackend (wb_host b) (wb_adapter_name b) (wb_module b) (wb_interrupt_event b) (wb_adapter b) x (wb_luid b)
    (wb_tunnel_policy_session b).
Definition set_luid (x : Z) (b : Impl) : Impl :=
  mkBackend (wb_host b) (wb_adapter_name b) (wb_module b) (wb_interrupt_event b) (wb_adapter b) (wb_session b) x
    (wb_tunnel_policy_session b).
Definition set_tunnel_policy_session (x : Z) (b : Impl) : Impl :=
  mkBackend (wb_host b) (wb_adapter_name b) (wb_module b) (wb_interrupt_event b) (wb_adapter b) (wb_session b)
    (wb_luid b) x.

(** A call of the host, and one without a result. *)
Definition os {A} (f : W -> A * W) : M Impl A := fun b => let '(a, w) := f (wb_host b) in (Ok a, with_host w b).
Definition on_host (f : W -> W) (b : Impl) : Impl := with_host (f (wb_host b)) b.
Definition within {A} (m : M W A) : M Impl A := fun b => let '(r, w) := m (wb_host b) in (r, with_host w b).

(** ** Operations *)

Definition throw_windows_error {A} (operation : string) (error : Z) : M Impl A := throw (SystemError (to_int error) operation).
Definition throw_last_error {A} (operation : string) : M Impl A :=
  let* b := get in throw_windows_error operation (GetLastError (wb_host b)).

Definition load_function (module : Z) (name : string) : M Impl Z :=
  let* procedure := os (GetProcAddress module name) in
  if procedure =? 0 then throw_last_error ("missing Wintun export " +:+ name) else ret procedure.
Fixpoint load_functions (module : Z) (names : list string) : M Impl unit :=
  match names with
  | [] => ret tt
  | name :: names => let* _ := load_function module name in load_functions module names
  end.
Definition wintun_exports : list string :=
  ["WintunOpenAdapter"; "WintunCreateAdapter"; "WintunCloseAdapter"; "WintunGetAdapterLUID"; "WintunStartSession";
   "WintunEndSession"; "WintunGetReadWaitEvent"; "WintunReceivePacket"; "WintunReleaseReceivePacket";
   "WintunAllocateSendPacket"; "WintunSendPacket"].

Definition load_library : M Impl unit :=
  let* b := get in
  if negb (wb_module b =? 0) then ret tt
  else
    let* module := os (LoadLibraryExW "wintun.dll") in
    let* _ := modify (set_module module) in
    if module =? 0 then throw_last_error "load wintun.dll"
    else try_catch (load_functions module wintun_exports)
           (fun e => Some (let* _ := modify (on_host (FreeLibrary module)) in
                           let* _ := modify (set_module 0) in
                           throw e)).

Definition interrupt_receive (b : Impl) : Impl := on_host (SetEvent (wb_interrupt_event b)) b.
Definition stop_packet_session (b : Impl) : Impl :=
  let b := interrupt_receive b in
  if negb (wb_session b =? 0) then set_session 0 (on_host (WintunEndSession (wb_session b)) b) else b.
Definition close_adapter (b : Impl) : Impl :=
  let b := stop_packet_session b in
  let b := if negb (wb_adapter b =? 0) then set_adapter 0 (on_host (WintunCloseAdapter (wb_adapter b)) b) else b in
  set_luid 0 b.

Definition open_adapter : M Impl unit :=
  let* b := get in
  if negb (wb_adapter b =? 0) then ret tt
  else
    let* _ := load_library in
    let* adapter := os (WintunOpenAdapter (wb_adapter_name b)) in
    let* _ := modify (set_adapter adapter) in
    let* _ := if adapter =? 0 then
                let* adapter := os (WintunCreateAdapter (wb_adapter_name b) "PersonalVPN") in
                modify (set_adapter adapter)
              else ret tt in
    let* b := get in
    if wb_adapter b =? 0 then throw_last_error "open or create Wintun adapter"
    else
      let* luid := os (WintunGetAdapterLUID (wb_adapter b)) in
      let* _ := modify (set_luid luid) in
      if luid =? 0 then
        let* _ := modify close_adapter in
        throw (RuntimeError "Wintun returned an invalid interface LUID")
      else ret tt.

Definition start_packet_session : M Impl unit :=
  let* b := get in
  if (wb_adapter b =? 0) || negb (wb_session b =? 0) then
    throw (LogicError "Wintun session requires one open adapter and no prior session")
  else
    let ring_capacity := 4 * 1024 * 1024 in
    let* _ := modify (on_host (ResetEvent (wb_interrupt_event b))) in
    let* session := os (WintunStartSession (wb_adapter b) ring_capacity) in
    let* _ := modify (set_session session) in
    if session =? 0 then throw_last_error "start Wintun packet session" else ret tt.

Definition require_luid : M Impl Z :=
  let* b := get in
  if (wb_adapter b =? 0) || (wb_luid b =? 0) then throw (LogicError "Wintun adapter is not open") else ret (wb_luid b).

(** The result of a creating call. *)
Definition created (result : Z) (operation : string) : M Impl bool :=
  if result =? ERROR_OBJECT_ALREADY_EXISTS then ret false
  else if negb (result =? 0) then throw_windows_error operation result
  else ret true.

Definition add_interface_address (address : InterfaceAddress) : M Impl bool :=
  let* luid := require_luid in
  let* result := os (CreateUnicastIpAddressEntry (address_row luid address)) in
  created result "add Wintun interface address".
Definition add_interface_address_v6 (address : Ipv6InterfaceAddress) : M Impl bool :=
  let* luid := require_luid in
  let* result := os (CreateUnicastIpAddressEntry (address_row_v6 luid address)) in
  created result "add Wintun IPv6 interface address".

(** Both overloads. *)
Definition add_route (route : Route) : M Impl bool :=
  let* luid := require_luid in
  let* result := os (CreateIpForwardEntry2 (route_row luid route)) in
  let* b := created result (match route with RouteV4 _ => "add Wintun route" | RouteV6 _ => "add Wintun IPv6 route" end) in
  if b then let* _ := os (FlushIpPathTable (route_family route)) in ret true else ret false.

Definition interface_row (family : Z) : M Impl MIB_IPINTERFACE_ROW :=
  let* luid := require_luid in
  let* (result, row) := os (GetIpInterfaceEntry luid family) in
  if negb (result =? 0) then throw_windows_error "read Wintun IP interface" result else ret row.
Definition with_NlMtu (mtu : Z) (row : MIB_IPINTERFACE_ROW) : MIB_IPINTERFACE_ROW := mkInterface (if_luid row) (if_family row) mtu.

Definition set_interface_mtu (mtu : Z) : M Impl (option InterfaceMtuSnapshot) :=
  let* ipv4 := interface_row AF_INET in
  let* ipv6 := interface_row AF_INET6 in
  if (NlMtu ipv4 =? mtu) && (NlMtu ipv6 =? mtu) then ret None
  else
    let prior := mkMtuSnapshot (NlMtu ipv4) (NlMtu ipv6) in
    let* result := os (SetIpInterfaceEntry (with_NlMtu mtu ipv4)) in
    if negb (result =? 0) then throw_windows_error "set Wintun interface MTU" result
    else
      let* result := os (SetIpInterfaceEntry (with_NlMtu mtu ipv6)) in
      if negb (result =? 0) then
        let* _ := os (SetIpInterfaceEntry (with_NlMtu (mtu_ipv4 prior) (with_NlMtu mtu ipv4))) in
        throw_windows_error "set Wintun IPv6 interface MTU" result
      else ret (Some prior).

(** The undoing methods are [noexcept]; a result that is not looked at is
    left out. *)
Definition ignore {A} (m : M Impl A) (b : Impl) : Impl := (m b).2.
Definition remove_route (route : Route) (b : Impl) : Impl :=
  if wb_luid b =? 0 then b
  else ignore (let* _ := os (DeleteIpForwardEntry2 (route_row (wb_luid b) route)) in
               os (FlushIpPathTable (route_family route))) b.
Definition restore_interface_mtu (mtu : InterfaceMtuSnapshot) (b : Impl) : Impl :=
  ignore (let* ipv4 := interface_row AF_INET in
          let* _ := os (SetIpInterfaceEntry (with_NlMtu (mtu_ipv4 mtu) ipv4)) in
          let* ipv6 := interface_row AF_INET6 in
          os (SetIpInterfaceEntry (with_NlMtu (mtu_ipv6 mtu) ipv6))) b.
Definition remove_interface_address (address : InterfaceAddress) (b : Impl) : Impl :=
  if wb_luid b =? 0 then b
  else ignore (os (DeleteUnicastIpAddressEntry (address_row (wb_luid b) address))) b.
Definition remove_interface_address_v6 (address : Ipv6InterfaceAddress) (b : Impl) : Impl :=
  if wb_luid b =? 0 then b
  else ignore (os (DeleteUnicastIpAddressEntry (address_row_v6 (wb_luid b) address))) b.

(** *** Packets *)

Definition require_session : M Impl unit :=
  let* b := get in
  if wb_session b =? 0 then throw (LogicError "Wintun packet session is not active") else ret tt.

(** The packet is released on every way out once it has been copied. *)
Definition try_receive_packet : M Impl (option bytes) :=
  let* _ := require_session in
  let* b := get in
  let* (packet, data) := os (WintunReceivePacket (wb_session b)) in
  if packet =? 0 then
    let* b := get in
    if GetLastError (wb_host b) =? ERROR_NO_MORE_ITEMS then ret None
    else throw_last_error "receive Wintun packet"
  else
    let* _ := modify (on_host (WintunReleaseReceivePacket (wb_session b) packet)) in
    ret (Some data).

(** The loop of [receive_packet]; [None] when the fuel runs out. *)
Fixpoint receive_loop (fuel : nat) (events : list Z) : M Impl (option (option bytes)) :=
  match fuel with
  | O => ret None
  | S fuel =>
      let* result := os (WaitForMultipleObjects events) in
      if result =? WAIT_OBJECT_0 then ret (Some None)
      else if negb (result =? WAIT_OBJECT_0 + 1) then throw_last_error "wait for Wintun packet"
      else
        let* packet := try_receive_packet in
        match packet with
        | Some data => ret (Some (Some data))
        | None => receive_loop fuel events
        end
  end.
Definition receive_packet (fuel : nat) : M Impl (option (option bytes)) :=
  let* _ := require_session in
  let* b := get in
  let* read_event := os (WintunGetReadWaitEvent (wb_session b)) in
  receive_loop fuel [wb_interrupt_event b; read_event].

Definition send_packet (packet : bytes) : M Impl unit :=
  let* _ := require_session in
  if (zlen packet =? 0) || (2 ^ 32 - 1 <? zlen packet) then throw (InvalidArgument "Wintun packet size is invalid")
  else
    let* b := get in
    let* destination := os (WintunAllocateSendPacket (wb_session b) (u32 (zlen packet))) in
    if destination =? 0 then throw_last_error "allocate Wintun send packet"
    else modify (on_host (WintunSendPacket (wb_session b) destination packet)).

(** *** The kill switch *)

Definition throw_error {A} (operation : string) (error : Z) : M W A := throw (SystemError (to_int error) operation).

Fixpoint remove_default_routes (luid : Z) (table : list MIB_IPFORWARD_ROW2) : M W unit :=
  match table with
  | [] => ret tt
  | route :: table =>
      let* _ := if negb (owned_default_route luid route) then ret tt
                else
                  let* delete_result := api (DeleteIpForwardEntry2 route) in
                  if negb (delete_result =? 0) && negb (delete_result =? ERROR_NOT_FOUND)
                  then throw_error "remove stale VPN default route" delete_result else ret tt in
      remove_default_routes luid table
  end.
(** The table is freed on every way out. *)
Definition remove_owned_default_routes (luid : Z) : M W unit :=
  let* (table_result, table) := api (GetIpForwardTable2 AF_UNSPEC) in
  if negb (table_result =? 0) then throw_error "enumerate stale VPN default routes" table_result
  else
    fun w =>
    let '(r, w) := (let* _ := remove_default_routes luid table in
                    let* _ := api (FlushIpPathTable AF_INET) in
                    let* _ := api (FlushIpPathTable AF_INET6) in
                    ret tt) w in
    (r, FreeMibTable w).

(** An iteration of the loop of [add_transport_bypass_routes]. *)
Definition add_bypass_route (tunnel_luid : Z) (endpoint : WindowsVpnEndpoint) : M W unit :=
  let* (route_result, prior_route) := api (GetBestRoute2 (endpoint_family endpoint) (endpoint_bytes endpoint)) in
  if negb (route_result =? 0) then throw_error "find physical route to VPN server" route_result
  else if fw_luid prior_route =? tunnel_luid then
    throw (RuntimeError "VPN server route resolves through the tunnel adapter; refusing recursion")
  else
    let* add_result := api (CreateIpForwardEntry2 (bypass_row prior_route endpoint)) in
    if negb (add_result =? 0) && negb (add_result =? ERROR_OBJECT_ALREADY_EXISTS)
    then throw_error "add VPN server bypass route" add_result else ret tt.
Fixpoint add_bypass_routes (tunnel_luid : Z) (endpoints : list WindowsVpnEndpoint) : M W unit :=
  match endpoints with
  | [] => ret tt
  | endpoint :: endpoints =>
      let* _ := add_bypass_route tunnel_luid endpoint in add_bypass_routes tunnel_luid endpoints
  end.
Definition add_transport_bypass_routes (endpoints : list WindowsVpnEndpoint) (tunnel_luid : Z) : M W unit :=
  let* _ := add_bypass_routes tunnel_luid endpoints in
  let* _ := api (FlushIpPathTable AF_INET) in
  let* _ := api (FlushIpPathTable AF_INET6) in
  ret tt.

(** [replace_windows_tunnel_permit] writes the session through its reference. *)
Definition replace_tunnel_permit (interface_index : Z) : M Impl unit := fun b =>
  let '((r, new_session), w) := replace_windows_tunnel_permit (wb_tunnel_policy_session b) interface_index (wb_host b) in
  (r, set_tunnel_policy_session new_session (with_host w b)).

Definition enable_kill_switch (fuel : nat) (endpoints : list WindowsVpnEndpoint) : M Impl (option unit) :=
  let* _ := open_adapter in
  let* enabled := within (enable_windows_kill_switch fuel endpoints) in
  match enabled with
  | None => ret None
  | Some _ =>
      let* b := get in
      let* _ := within (remove_owned_default_routes (wb_luid b)) in
      let* _ := within (add_transport_bypass_routes endpoints (wb_luid b)) in
      let* (index_result, interface_index) := os (ConvertInterfaceLuidToIndex (wb_luid b)) in
      if negb (index_result =? 0)
      then throw_windows_error "read Wintun interface index for WFP" index_result
      else
        let* _ := replace_tunnel_permit interface_index in
        ret (Some tt)
  end.

Definition disable_kill_switch (fuel : nat) : M W (option unit) :=
  let* (alias_result, luid) := api (ConvertInterfaceAliasToLuid "PersonalVPN") in
  let* _ := if alias_result =? 0 then remove_owned_default_routes luid else ret tt in
  disable_windows_kill_switch fuel.

(** *** Construction and destruction *)

Definition construct (adapter_name : list Z) : M W Impl :=
  let* _ := lift (reject_if ((zlen adapter_name =? 0) || (128 <? zlen adapter_name))
    (InvalidArgument "Wintun adapter name must contain 1 to 128 characters")) in
  let* event := api CreateEventW in
  let* w := get in
  if event =? 0 then throw (SystemError (to_int (GetLastError w)) "create Wintun interrupt event")
  else ret (mkBackend w adapter_name 0 event 0 0 0 0).

Definition close_permit (b : Impl) : Impl :=
  match close_windows_tunnel_permit (wb_tunnel_policy_session b) (wb_host b) with
  | (Ok s, w) => set_tunnel_policy_session s (with_host w b)
  | (Throw _, w) => with_host w b
  end.
Definition destroy (b : Impl) : W :=
  let b := close_permit b in
  let b := stop_packet_session b in
  let b := close_adapter b in
  let b := if negb (wb_module b =? 0) then on_host (FreeLibrary (wb_module b)) b else b in
  CloseHandle (wb_interrupt_event b) (wb_host b).
End Backend.

(** The virtual methods. *)
#[export] Instance windows_backend {W} `{WindowsHost W} : ClientNetworkBackend (WindowsNetworkBackend W) := {
  NetworkTransaction.open_adapter := open_adapter;
  NetworkTransaction.start_packet_session := start_packet_session;
  NetworkTransaction.add_interface_address := add_interface_address;
  NetworkTransaction.add_interface_address_v6 := add_interface_address_v6;
  NetworkTransaction.set_interface_mtu := set_interface_mtu;
  NetworkTransaction.add_route := add_route;
  NetworkTransaction.remove_route := remove_route;
  NetworkTransaction.restore_interface_mtu := restore_interface_mtu;
  NetworkTransaction.remove_interface_address := remove_interface_address;
  NetworkTransaction.remove_interface_address_v6 := remove_interface_address_v6;
  NetworkTransaction.stop_packet_session := stop_packet_session;
  NetworkTransaction.close_adapter := close_adapter
}.

(** ** Specification *)

(** The host's part in it: configured routes and addresses, the MTU of each
    interface and family, open adapters with their LUID and whether closing
    them removes their interface, sessions, events, loaded libraries, and the
    memory that has been lent: tables and packet buffers.  The routes that the
    system derives from addresses are not counted. *)
Record HostState := mkHost {
  hs_routes : list MIB_IPFORWARD_ROW2;
  hs_addresses : list MIB_UNICASTIPADDRESS_ROW;
  hs_mtus : gmap (Z * Z) Z;
  hs_adapters : gmap Z (Z * bool);
  hs_sessions : gset Z;
  hs_events : gset Z;
  hs_libraries : Z;
  hs_lent : Z
}.
Definition with_routes (x : list MIB_IPFORWARD_ROW2) (s : HostState) : HostState :=
  mkHost x (hs_addresses s) (hs_mtus s) (hs_adapters s) (hs_sessions s) (hs_events s) (hs_libraries s) (hs_lent s).
Definition with_addresses (x : list MIB_UNICASTIPADDRESS_ROW) (s : HostState) : HostState :=
  mkHost (hs_routes s) x (hs_mtus s) (hs_adapters s) (hs_sessions s) (hs_events s) (hs_libraries s) (hs_lent s).
Definition with_mtus (x : gmap (Z * Z) Z) (s : HostState) : HostState :=
  mkHost (hs_routes s) (hs_addresses s) x (hs_adapters s) (hs_sessions s) (hs_events s) (hs_libraries s) (hs_lent s).
Definition with_adapters (x : gmap Z (Z * bool)) (s : HostState) : HostState :=
  mkHost (hs_routes s) (hs_addresses s) (hs_mtus s) x (hs_sessions s) (hs_events s) (hs_libraries s) (hs_lent s).
Definition with_sessions (x : gset Z) (s : HostState) : HostState :=
  mkHost (hs_routes s) (hs_addresses s) (hs_mtus s) (hs_adapters s) x (hs_events s) (hs_libraries s) (hs_lent s).
Definition with_events (x : gset Z) (s : HostState) : HostState :=
  mkHost (hs_routes s) (hs_addresses s) (hs_mtus s) (hs_adapters s) (hs_sessions s) x (hs_libraries s) (hs_lent s).
Definition with_libraries (x : Z) (s : HostState) : HostState :=
  mkHost (hs_routes s) (hs_addresses s) (hs_mtus s) (hs_adapters s) (hs_sessions s) (hs_events s) x (hs_lent s).
Definition with_lent (x : Z) (s : HostState) : HostState :=
  mkHost (hs_routes s) (hs_addresses s) (hs_mtus s) (hs_adapters s) (hs_sessions s) (hs_events s) (hs_libraries s) x.

(** What identifies a route and an address. *)
Definition route_key (r : MIB_IPFORWARD_ROW2) : Z * Z * bytes * Z * bytes :=
  (fw_luid r, fw_family r, fw_prefix r, fw_prefix_length r, fw_next_hop r).
Definition row_key (a : MIB_UNICASTIPADDRESS_ROW) : Z * Z * bytes := (ua_luid a, ua_family a, ua_address a).
Definition without_route (r : MIB_IPFORWARD_ROW2) (rs : list MIB_IPFORWARD_ROW2) : list MIB_IPFORWARD_ROW2 :=
  filter (fun x => route_key x <> route_key r) rs.
Definition without_address (a : MIB_UNICASTIPADDRESS_ROW) (l : list MIB_UNICASTIPADDRESS_ROW) : list MIB_UNICASTIPADDRESS_ROW :=
  filter (fun x => row_key x <> row_key a) l.

(** What goes when an interface goes. *)
Definition drop_interface (luid : Z) (s : HostState) : HostState :=
  with_routes (filter (fun r => fw_luid r <> luid) (hs_routes s))
    (with_addresses (filter (fun a => ua_luid a <> luid) (hs_addresses s))
      (with_mtus (filter (fun '((l, _), _) => l <> luid) (hs_mtus s)) s)).

Section Calls.
Context {W : Type} {WH : WindowsHost W} {WF : Wfp W}.

(** The calls that change nothing that is looked at here. *)
Inductive quiet : W -> W -> Prop :=
| quiet_set e w : quiet w (SetEvent e w)
| quiet_reset e w : quiet w (ResetEvent e w)
| quiet_wait es w : quiet w (WaitForMultipleObjects es w).2
| quiet_procedure m n w : quiet w (GetProcAddress m n w).2
| quiet_luid a w : quiet w (WintunGetAdapterLUID a w).2
| quiet_read_event s w : quiet w (WintunGetReadWaitEvent s w).2
| quiet_flush f w : quiet w (FlushIpPathTable f w).2
| quiet_interface l f w : quiet w (GetIpInterfaceEntry l f w).2
| quiet_best f d w : quiet w (GetBestRoute2 f d w).2
| quiet_index l w : quiet w (ConvertInterfaceLuidToIndex l w).2
| quiet_alias a w : quiet w (ConvertInterfaceAliasToLuid a w).2.

(** The other calls of this file, and those of the filtering platform. *)
Inductive host_call : W -> W -> Prop :=
| call_event w : host_call w (CreateEventW w).2
| call_close h w : host_call w (CloseHandle h w)
| call_load n w : host_call w (LoadLibraryExW n w).2
| call_free_library m w : host_call w (FreeLibrary m w)
| call_open n w : host_call w (WintunOpenAdapter n w).2
| call_create n t w : host_call w (WintunCreateAdapter n t w).2
| call_close_adapter a w : host_call w (WintunCloseAdapter a w)
| call_start a c w : host_call w (WintunStartSession a c w).2
| call_end s w : host_call w (WintunEndSession s w)
| call_receive s w : host_call w (WintunReceivePacket s w).2
| call_release s p w : host_call w (WintunReleaseReceivePacket s p w)
| call_allocate s n w : host_call w (WintunAllocateSendPacket s n w).2
| call_send s d p w : host_call w (WintunSendPacket s d p w)
| call_add_address r w : host_call w (CreateUnicastIpAddressEntry r w).2
| call_delete_address r w : host_call w (DeleteUnicastIpAddressEntry r w).2
| call_add_route r w : host_call w (CreateIpForwardEntry2 r w).2
| call_delete_route r w : host_call w (DeleteIpForwardEntry2 r w).2
| call_set_interface r w : host_call w (SetIpInterfaceEntry r w).2
| call_table f w : host_call w (GetIpForwardTable2 f w).2
| call_free_table w : host_call w (FreeMibTable w).
Inductive wfp_call : W -> W -> Prop :=
| wfp_open f w : wfp_call w (FwpmEngineOpen0 f w).2
| wfp_close h w : wfp_call w (FwpmEngineClose0 h w).2
| wfp_begin h w : wfp_call w (FwpmTransactionBegin0 h w).2
| wfp_abort h w : wfp_call w (FwpmTransactionAbort0 h w).2
| wfp_commit h w : wfp_call w (FwpmTransactionCommit0 h w).2
| wfp_get_provider h k w : wfp_call w (FwpmProviderGetByKey0 h k w).2
| wfp_add_provider h p w : wfp_call w (FwpmProviderAdd0 h p w).2
| wfp_delete_provider h k w : wfp_call w (FwpmProviderDeleteByKey0 h k w).2
| wfp_get_sublayer h k w : wfp_call w (FwpmSubLayerGetByKey0 h k w).2
| wfp_add_sublayer h s w : wfp_call w (FwpmSubLayerAdd0 h s w).2
| wfp_delete_sublayer h k w : wfp_call w (FwpmSubLayerDeleteByKey0 h k w).2
| wfp_create_enum h k f w : wfp_call w (FwpmFilterCreateEnumHandle0 h k f w).2
| wfp_enum h e n w : wfp_call w (FwpmFilterEnum0 h e n w).2
| wfp_destroy_enum h e w : wfp_call w (FwpmFilterDestroyEnumHandle0 h e w).2
| wfp_add_filter h f w : wfp_call w (FwpmFilterAdd0 h f w).2
| wfp_delete_filter h k w : wfp_call w (FwpmFilterDeleteByKey0 h k w).2
| wfp_free w : wfp_call w (FwpmFreeMemory0 w).
End Calls.

(** The documented behaviour of the calls: one that fails changes nothing.  A
    new adapter comes with an interface of its own, which closing it removes. *)
Class WindowsHostLaws (W : Type) {WH : WindowsHost W} {WF : Wfp W} {WL : WfpLaws W} := {
  host_state : W -> HostState;
  law_quiet w w' : quiet w w' -> host_state w' = host_state w /\ wfp_state w' = wfp_state w;
  law_host_call w w' : host_call w w' -> wfp_state w' = wfp_state w;
  law_wfp_call w w' : wfp_call w w' -> host_state w' = host_state w;
  law_event w e w' : CreateEventW w = (e, w') ->
    if e =? 0 then host_state w' = host_state w
    else (e ∉ hs_events (host_state w)) /\ host_state w' = with_events ({[e]} ∪ hs_events (host_state w)) (host_state w);
  law_close_handle h w : host_state (CloseHandle h w) = with_events (hs_events (host_state w) ∖ {[h]}) (host_state w);
  law_load n w m w' : LoadLibraryExW n w = (m, w') ->
    host_state w' = if m =? 0 then host_state w else with_libraries (hs_libraries (host_state w) + 1) (host_state w);
  law_free_library m w : host_state (FreeLibrary m w) = with_libraries (hs_libraries (host_state w) - 1) (host_state w);
  law_open_adapter n w a w' : WintunOpenAdapter n w = (a, w') ->
    if a =? 0 then host_state w' = host_state w
    else hs_adapters (host_state w) !! a = None /\ exists luid,
      host_state w' = with_adapters (<[a := (luid, false)]> (hs_adapters (host_state w))) (host_state w);
  law_create_adapter n t w a w' : WintunCreateAdapter n t w = (a, w') ->
    if a =? 0 then host_state w' = host_state w
    else hs_adapters (host_state w) !! a = None /\ exists luid s, drop_interface luid s = host_state w /\
      host_state w' = with_adapters (<[a := (luid, true)]> (hs_adapters s)) s;
  law_close_adapter a w luid removes : hs_adapters (host_state w) !! a = Some (luid, removes) ->
    host_state (WintunCloseAdapter a w) =
      with_adapters (delete a (hs_adapters (host_state w)))
        (if removes : bool then drop_interface luid (host_state w) else host_state w);
  law_luid a w luid w' removes l : WintunGetAdapterLUID a w = (luid, w') ->
    hs_adapters (host_state w) !! a = Some (l, removes) -> luid = l;
  law_start a c w s w' : WintunStartSession a c w = (s, w') ->
    if s =? 0 then host_state w' = host_state w
    else (s ∉ hs_sessions (host_state w)) /\ host_state w' = with_sessions ({[s]} ∪ hs_sessions (host_state w)) (host_state w);
  law_end s w : host_state (WintunEndSession s w) = with_sessions (hs_sessions (host_state w) ∖ {[s]}) (host_state w);
  law_receive s w p data w' : WintunReceivePacket s w = ((p, data), w') ->
    host_state w' = if p =? 0 then host_state w else with_lent (hs_lent (host_state w) + 1) (host_state w);
  law_release s p w : host_state (WintunReleaseReceivePacket s p w) = with_lent (hs_lent (host_state w) - 1) (host_state w);
  law_allocate s n w p w' : WintunAllocateSendPacket s n w = (p, w') ->
    host_state w' = if p =? 0 then host_state w else with_lent (hs_lent (host_state w) + 1) (host_state w);
  law_send s d p w : host_state (WintunSendPacket s d p w) = with_lent (hs_lent (host_state w) - 1) (host_state w);
  law_add_address r w c w' : CreateUnicastIpAddressEntry r w = (c, w') ->
    if c =? 0 then (row_key r ∉ map row_key (hs_addresses (host_state w))) /\
      host_state w' = with_addresses (hs_addresses (host_state w) ++ [r]) (host_state w)
    else host_state w' = host_state w;
  law_delete_address r w c w' : DeleteUnicastIpAddressEntry r w = (c, w') ->
    host_state w' = if c =? 0 then with_addresses (without_address r (hs_addresses (host_state w))) (host_state w)
                    else host_state w;
  law_add_route r w c w' : CreateIpForwardEntry2 r w = (c, w') ->
    if c =? 0 then (route_key r ∉ map route_key (hs_routes (host_state w))) /\
      host_state w' = with_routes (hs_routes (host_state w) ++ [r]) (host_state w)
    else (c = ERROR_OBJECT_ALREADY_EXISTS -> route_key r ∈ map route_key (hs_routes (host_state w))) /\
      host_state w' = host_state w;
  law_delete_route r w c w' : DeleteIpForwardEntry2 r w = (c, w') ->
    if c =? 0 then host_state w' = with_routes (without_route r (hs_routes (host_state w))) (host_state w)
    else (c = ERROR_NOT_FOUND -> route_key r ∉ map route_key (hs_routes (host_state w))) /\ host_state w' = host_state w;
  law_get_interface l f w c row w' : GetIpInterfaceEntry l f w = ((c, row), w') -> c = 0 ->
    if_luid row = l /\ if_family row = f /\ hs_mtus (host_state w) !! (l, f) = Some (NlMtu row);
  law_set_interface row w c w' : SetIpInterfaceEntry row w = (c, w') ->
    if c =? 0 then host_state w' = with_mtus (<[(if_luid row, if_family row) := NlMtu row]> (hs_mtus (host_state w))) (host_state w)
    else host_state w' = host_state w;
  law_table f w c table w' : GetIpForwardTable2 f w = ((c, table), w') ->
    if c =? 0 then host_state w' = with_lent (hs_lent (host_state w) + 1) (host_state w) /\
      (f = AF_UNSPEC -> forall r, fw_protocol r = MIB_IPPROTO_NETMGMT -> r ∈ table <-> r ∈ hs_routes (host_state w))
    else host_state w' = host_state w;
  law_free_table w : host_state (FreeMibTable w) = with_lent (hs_lent (host_state w) - 1) (host_state w)
}.

(** What undoing needs of the host: what is there can be removed, and an MTU
    that an interface has had can be given back to it. *)
Class Cooperative (W : Type) {WH : WindowsHost W} {WF : Wfp W} {WL : WfpLaws W} {HL : WindowsHostLaws W} := {
  valid_mtu : Z -> Z -> Z -> Prop;
  valid_mtu_law w l f m : hs_mtus (host_state w) !! (l, f) = Some m -> valid_mtu l f m;
  set_interface_law row w : is_Some (hs_mtus (host_state w) !! (if_luid row, if_family row)) ->
    valid_mtu (if_luid row) (if_family row) (NlMtu row) -> (SetIpInterfaceEntry row w).1 = 0;
  get_interface_law l f w : is_Some (hs_mtus (host_state w) !! (l, f)) -> (GetIpInterfaceEntry l f w).1.1 = 0;
  delete_route_law r w : route_key r ∈ map route_key (hs_routes (host_state w)) -> (DeleteIpForwardEntry2 r w).1 = 0;
  delete_address_law r w : row_key r ∈ map row_key (hs_addresses (host_state w)) ->
    (DeleteUnicastIpAddressEntry r w).1 = 0
}.

(** ** Lemmas *)

Section Specs.
Context {W : Type} {WH : WindowsHost W} {WF : Wfp W} {WL : WfpLaws W} {HL : WindowsHostLaws W}.
Implicit Types (b : WindowsNetworkBackend W) (w : W) (s : HostState).

Definition hs b : HostState := host_state (wb_host b).

(** The host has come to [s], and the filtering platform is as it was. *)
Definition came w s w' : Prop := host_state w' = s /\ wfp_state w' = wfp_state w.
(** The same of a backend whose fields are those of [b]. *)
Definition stays b s b' : Prop := exists w', b' = with_host w' b /\ came (wb_host b) s w'.

Lemma came_refl w : came w (host_state w) w.
Proof. split; reflexivity. Qed.
Lemma came_trans w s w' s' w'' : came w s w' -> came w' s' w'' -> came w s' w''.
Proof. intros [_ E1] [E2 E3]. split; [exact E2|congruence]. Qed.
Lemma came_quiet w w' : quiet w w' -> came w (host_state w) w'.
Proof. intros H. apply law_quiet in H as [E1 E2]. split; assumption. Qed.
Lemma came_call w w' s : host_call w w' -> host_state w' = s -> came w s w'.
Proof. intros H E. apply law_host_call in H. split; assumption. Qed.

Lemma stays_refl b : stays b (hs b) b.
Proof. exists (wb_host b). split; [destruct b; reflexivity|apply came_refl]. Qed.
Lemma stays_trans b s b' s' b'' : stays b s b' -> stays b' s' b'' -> stays b s' b''.
Proof.
  intros (w1 & -> & H1) (w2 & -> & H2). exists w2. split; [reflexivity|]. exact (came_trans _ _ _ _ _ H1 H2).
Qed.
Lemma stays_hs b s b' : stays b s b' -> hs b' = s.
Proof. intros (w & -> & E & _). exact E. Qed.
Lemma stays_host b s w' : came (wb_host b) s w' -> stays b s (with_host w' b).
Proof. intros H. exists w'. auto. Qed.

(** A call of the host whose state afterwards is known. *)
Lemma os_stays {A} (f : W -> A * W) b a w' s :
  f (wb_host b) = (a, w') -> came (wb_host b) s w' -> os f b = (Ok a, with_host w' b) /\ stays b s (with_host w' b).
Proof. intros E H. unfold os. rewrite E. split; [reflexivity|]. apply stays_host, H. Qed.

Lemma hs_with_host w b : hs (with_host w b) = host_state w.
Proof. reflexivity. Qed.

(** *** The library *)

(** [s] with a library loaded for [b] having become one for the module [m]. *)
Definition loaded m b s : HostState :=
  with_libraries (hs_libraries s + (if m =? 0 then 0 else 1) - (if wb_module b =? 0 then 0 else 1)) s.

Lemma load_functions_spec m names : forall b,
  match load_functions m names b with (Ok _, b') | (Throw _, b') => stays b (hs b) b' end.
Proof.
  induction names as [|n names IH]; intros b; cbn [load_functions]; [apply stays_refl|].
  unfold load_function, throw_last_error. unfold bind at 1 2, os. destruct (GetProcAddress m n (wb_host b)) as [p w'] eqn:E.
  assert (H : stays b (hs b) (with_host w' b)).
  { apply stays_host. change w' with (p, w').2. rewrite <- E. apply came_quiet. constructor. }
  destruct (p =? 0); [exact H|]. unfold ret. specialize (IH (with_host w' b)).
  destruct (load_functions m names (with_host w' b)) as [[[]|e] b']; (eapply stays_trans; [exact H|];
    rewrite <- (stays_hs _ _ _ H); exact IH).
Qed.

Lemma loaded_same b s : loaded (wb_module b) b s = s.
Proof. unfold loaded, with_libraries. destruct s. cbn. f_equal. lia. Qed.

Lemma load_library_spec b :
  match load_library b with
  | (Ok _, b') => exists m, m <> 0 /\ stays (set_module m b) (loaded m b (hs b)) b'
  | (Throw _, b') => wb_module b = 0 /\ stays b (hs b) b'
  end.
Proof.
  unfold load_library. unfold bind at 1, get. destruct (wb_module b =? 0) eqn:Em; cbn [negb].
  2:{ exists (wb_module b). apply Z.eqb_neq in Em. split; [exact Em|]. rewrite loaded_same.
      replace (set_module (wb_module b) b) with b by (destruct b; reflexivity). apply stays_refl. }
  apply Z.eqb_eq in Em. unfold bind at 1, os. destruct (LoadLibraryExW "wintun.dll" (wb_host b)) as [m w1] eqn:E.
  pose proof (law_load _ _ _ _ E) as El. pose proof (came_call _ w1 _ ltac:(change w1 with (m, w1).2; rewrite <- E; constructor) El) as Hc.
  unfold bind at 1, modify. destruct (m =? 0) eqn:E0.
  { apply Z.eqb_eq in E0 as ->. split; [exact Em|]. exists w1. split; [|exact Hc]. destruct b. cbn in *. subst. reflexivity. }
  pose proof (load_functions_spec m wintun_exports (set_module m (with_host w1 b))) as Hf. unfold try_catch.
  destruct (load_functions m wintun_exports (set_module m (with_host w1 b))) as [[[]|e] b'].
  - exists m. apply Z.eqb_neq in E0. split; [exact E0|]. destruct Hf as (w2 & -> & Hc2). exists w2.
    split; [reflexivity|]. cbn in Hc2. unfold hs in Hc2. cbn in Hc2. pose proof (came_trans _ _ _ _ _ Hc Hc2) as H.
    destruct Hc as [Ew _]. rewrite Ew in H. apply Z.eqb_neq in E0. unfold loaded. rewrite E0, Em. cbn.
    rewrite Z.sub_0_r. exact H.
  - unfold bind, modify, throw. split; [exact Em|]. destruct Hf as (w2 & -> & Hc2). exists (FreeLibrary m w2).
    split; [destruct b; cbn in *; subst; reflexivity|]. unfold hs in Hc2. cbn in Hc2.
    pose proof (came_trans _ _ _ _ _ Hc Hc2) as H. eapply came_trans; [exact H|].
    apply came_call; [constructor|]. rewrite law_free_library. destruct Hc2 as [-> _]. destruct Hc as [-> _].
    unfold hs, with_libraries. cbn. destruct (host_state (wb_host b)). cbn. f_equal. lia.
Qed.

(** *** The adapter and the session *)

(** The backend agrees with the host about its adapter. *)
Definition coherent b : Prop :=
  if wb_adapter b =? 0 then wb_session b = 0 /\ wb_luid b = 0
  else wb_luid b <> 0 /\ exists removes, hs_adapters (hs b) !! wb_adapter b = Some (wb_luid b, removes).

(** The interface of the adapter [a] goes with it, if it came with it. *)
Definition close_effect (a : Z) s : HostState :=
  match hs_adapters s !! a with
  | Some (luid, removes) =>
      with_adapters (delete a (hs_adapters s)) (if removes : bool then drop_interface luid s else s)
  | None => s
  end.
Definition session_ended (h : Z) s : HostState := if h =? 0 then s else with_sessions (hs_sessions s ∖ {[h]}) s.

Lemma interrupt_spec b : stays b (hs b) (interrupt_receive b).
Proof. apply stays_host, came_quiet. constructor. Qed.

Lemma stop_session_spec b : stays (set_session 0 b) (session_ended (wb_session b) (hs b)) (stop_packet_session b).
Proof.
  unfold stop_packet_session. destruct (interrupt_spec b) as (w & -> & Hc). cbn [wb_session with_host].
  unfold session_ended. destruct (wb_session b =? 0) eqn:E; cbn [negb].
  - apply Z.eqb_eq in E. exists w. split; [destruct b; cbn in *; subst; reflexivity|exact Hc].
  - exists (WintunEndSession (wb_session b) w). split; [reflexivity|]. eapply came_trans; [exact Hc|].
    apply came_call; [constructor|]. rewrite law_end. destruct Hc as [-> _]. reflexivity.
Qed.

Lemma close_adapter_spec b :
  (wb_adapter b <> 0 -> is_Some (hs_adapters (hs b) !! wb_adapter b)) ->
  stays (set_luid 0 (set_adapter 0 (set_session 0 b)))
    (if wb_adapter b =? 0 then session_ended (wb_session b) (hs b)
     else close_effect (wb_adapter b) (session_ended (wb_session b) (hs b))) (close_adapter b).
Proof.
  intros Ha. unfold close_adapter. destruct (stop_session_spec b) as (w & -> & Hc). cbn [wb_adapter with_host set_session].
  destruct (wb_adapter b =? 0) eqn:E; cbn [negb].
  - apply Z.eqb_eq in E. exists w. split; [destruct b; cbn in *; subst; reflexivity|exact Hc].
  - exists (WintunCloseAdapter (wb_adapter b) w). split; [reflexivity|]. eapply came_trans; [exact Hc|].
    apply Z.eqb_neq in E. destruct (Ha E) as [[luid removes] Hl]. apply came_call; [constructor|].
    assert (Hs : hs_adapters (session_ended (wb_session b) (hs b)) = hs_adapters (hs b))
      by (unfold session_ended; destruct (wb_session b =? 0); reflexivity).
    unfold close_effect. rewrite Hs, Hl. rewrite (law_close_adapter _ _ luid removes).
    + destruct Hc as [-> _]. rewrite Hs. reflexivity.
    + destruct Hc as [-> _]. rewrite Hs. exact Hl.
Qed.

Lemma drop_interface_idem luid s : drop_interface luid (drop_interface luid s) = drop_interface luid s.
Proof.
  unfold drop_interface, with_routes, with_addresses, with_mtus. cbn. f_equal.
  - apply filter_all. intros x Hx. apply list_elem_of_filter in Hx. tauto.
  - apply filter_all. intros x Hx. apply list_elem_of_filter in Hx. tauto.
  - apply map_filter_filter_l. auto.
Qed.

(** The host with an adapter that has been opened on top of [s]: it is [s], or
    [s] but for the new interface. *)
Definition opened (s : HostState) (luid : Z) (removes : bool) s' : Prop :=
  if removes then drop_interface luid s' = s else s' = s.

Lemma opened_adapters s luid removes s' : opened s luid removes s' -> hs_adapters s' = hs_adapters s.
Proof. unfold opened. destruct removes; intros <-; reflexivity. Qed.

(** What comes of opening the adapter. *)
Definition open_result b (r : outcome unit * WindowsNetworkBackend W) : Prop :=
  match r with
  | (Ok _, b') => wb_adapter b <> 0 /\ b' = b \/
      wb_adapter b = 0 /\ exists m a luid removes s, m <> 0 /\ a <> 0 /\ luid <> 0 /\ hs_adapters (hs b) !! a = None /\
        opened (hs b) luid removes s /\
        stays (set_luid luid (set_adapter a (set_module m b)))
          (loaded m b (with_adapters (<[a := (luid, removes)]> (hs_adapters s)) s)) b'
  | (Throw _, b') => wb_adapter b = 0 /\ exists m, stays (set_module m b) (loaded m b (hs b)) b'
  end.

(** The end of [open_adapter]: the adapter is tested, and its LUID taken. *)
Definition adopt_adapter : M (WindowsNetworkBackend W) unit :=
  let* b := get in
  if wb_adapter b =? 0 then throw_last_error "open or create Wintun adapter"
  else
    let* luid := os (WintunGetAdapterLUID (wb_adapter b)) in
    let* _ := modify (set_luid luid) in
    if luid =? 0 then
      let* _ := modify close_adapter in throw (RuntimeError "Wintun returned an invalid interface LUID")
    else ret tt.

(** Closing the adapter leaves the host as it was before it was opened. *)
Lemma with_adapters_same s : with_adapters (hs_adapters s) s = s.
Proof. destruct s. reflexivity. Qed.
Lemma drop_opened luid m b x y s :
  with_adapters x (drop_interface luid (loaded m b (with_adapters y s))) = loaded m b (with_adapters x (drop_interface luid s)).
Proof.
  unfold loaded, drop_interface, with_adapters, with_libraries, with_routes, with_addresses, with_mtus.
  cbn [hs_routes hs_addresses hs_mtus hs_adapters hs_sessions hs_events hs_libraries hs_lent]. reflexivity.
Qed.
Lemma close_opened b m a removes s :
  hs_adapters (hs b) !! a = None -> opened (hs b) 0 removes s ->
  close_effect a (loaded m b (with_adapters (<[a := (0, removes)]> (hs_adapters s)) s)) = loaded m b (hs b).
Proof.
  intros Hn Ho. unfold close_effect. change (hs_adapters (loaded m b ?x)) with (hs_adapters x).
  change (hs_adapters (with_adapters ?x s)) with x. rewrite lookup_insert_eq.
  rewrite (opened_adapters _ _ _ _ Ho), delete_insert_id by exact Hn. unfold opened in Ho. destruct removes.
  - rewrite drop_opened, Ho, with_adapters_same. reflexivity.
  - rewrite Ho. change (with_adapters ?x (loaded m b ?y)) with (loaded m b (with_adapters x y)).
    change (with_adapters ?x (with_adapters _ ?y)) with (with_adapters x y). rewrite with_adapters_same. reflexivity.
Qed.

Lemma adopt_spec b m a w luid removes s :
  wb_adapter b = 0 -> wb_session b = 0 -> wb_luid b = 0 -> m <> 0 ->
  a <> 0 -> hs_adapters (hs b) !! a = None -> opened (hs b) luid removes s ->
  came (wb_host b) (loaded m b (with_adapters (<[a := (luid, removes)]> (hs_adapters s)) s)) w ->
  open_result b (adopt_adapter (with_host w (set_adapter a (set_module m b)))).
Proof.
  intros Ea Hses Hlu Hm Ha Hn Ho Hc. unfold adopt_adapter. unfold bind at 1, get. cbn [wb_adapter with_host set_adapter].
  pose proof Ha as Eb. apply Z.eqb_neq in Eb. rewrite Eb. unfold bind at 1, os. cbn [wb_host with_host].
  destruct (WintunGetAdapterLUID a w) as [l w4] eqn:E4.
  assert (Hc4 : came w (host_state w) w4) by (change w4 with (l, w4).2; rewrite <- E4; apply came_quiet; constructor).
  assert (l = luid) as ->.
  { eapply law_luid; [exact E4|]. destruct Hc as [-> _]. cbn. apply lookup_insert_eq. }
  pose proof (came_trans _ _ _ _ _ Hc Hc4) as Hc'. destruct Hc as [Eh _]. rewrite Eh in Hc'.
  unfold bind at 1, modify at 1. destruct (luid =? 0) eqn:El.
  2:{ right. split; [exact Ea|]. exists m, a, luid, removes, s. apply Z.eqb_neq in El. split_goal; auto. exists w4. auto. }
  unfold bind, modify, throw. split; [exact Ea|]. exists m. apply Z.eqb_eq in El as ->.
  match goal with |- stays _ _ (close_adapter ?x) => pose proof (close_adapter_spec x) as Hx end.
  forward Hx. { intros _. unfold hs. cbn. destruct Hc' as [-> _]. cbn. rewrite lookup_insert_eq. eauto. }
  destruct Hx as (w5 & -> & Hc5). exists w5. split; [destruct b; cbn in *; subst; reflexivity|].
  cbn [wb_host wb_adapter wb_session set_luid set_adapter set_session set_module with_host] in Hc5.
  rewrite Eb, Hses in Hc5. change (session_ended 0 ?x) with x in Hc5. unfold hs in Hc5. cbn [wb_host with_host set_luid] in Hc5.
  eapply came_trans; [exact Hc'|]. destruct Hc' as [Eh4 _]. rewrite Eh4, close_opened in Hc5 by assumption. exact Hc5.
Qed.

Lemma open_adapter_spec b : coherent b -> open_result b (open_adapter b).
Proof.
  intros Hco. unfold open_adapter. unfold bind at 1, get. unfold coherent in Hco. destruct (wb_adapter b =? 0) eqn:Ea; cbn [negb].
  2:{ left. apply Z.eqb_neq in Ea. auto. }
  apply Z.eqb_eq in Ea. destruct Hco as [Hses Hlu]. unfold bind at 1. pose proof (load_library_spec b) as Hl.
  destruct (load_library b) as [[[]|e] b1].
  2:{ destruct Hl as [Em H]. split; [exact Ea|]. exists (wb_module b). rewrite loaded_same.
      replace (set_module (wb_module b) b) with b by (destruct b; reflexivity). exact H. }
  destruct Hl as (m & Hm & w1 & -> & Hc1). unfold bind at 1, os.
  destruct (WintunOpenAdapter (wb_adapter_name b) (wb_host (with_host w1 (set_module m b)))) as [a w2] eqn:E2. cbn in E2.
  pose proof (law_open_adapter _ _ _ _ E2) as H2.
  assert (Hq2 : host_call w1 w2) by (change w2 with (a, w2).2; rewrite <- E2; constructor).
  unfold bind at 1, modify at 1. pose proof Hc1 as [Hh1 _]. rewrite Hh1 in H2. fold adopt_adapter.
  destruct (a =? 0) eqn:E0.
  - apply Z.eqb_eq in E0 as ->. unfold bind at 1 2, os. cbn [wb_host set_adapter with_host].
    destruct (WintunCreateAdapter (wb_adapter_name b) "PersonalVPN" w2) as [a w3] eqn:E3.
    pose proof (law_create_adapter _ _ _ _ _ E3) as H3. rewrite H2 in H3.
    assert (Hq3 : host_call w2 w3) by (change w3 with (a, w3).2; rewrite <- E3; constructor).
    unfold modify at 1. destruct (a =? 0) eqn:E0.
    + apply Z.eqb_eq in E0 as ->. unfold bind, get. cbn [wb_adapter set_adapter]. change (0 =? 0) with true. cbv iota.
      unfold throw_last_error, bind, get, throw_windows_error, throw. split; [exact Ea|]. exists m. exists w3.
      split; [destruct b; cbn in *; subst; reflexivity|].
      eapply came_trans; [exact Hc1|]. eapply came_trans; [apply came_call; [exact Hq2|exact H2]|].
      apply came_call; [exact Hq3|]. exact H3.
    + destruct H3 as (Hn & luid & s & Hd & H3).
      replace (set_adapter a (with_host w3 (set_adapter 0 (with_host w2 (with_host w1 (set_module m b))))))
        with (with_host w3 (set_adapter a (set_module m b))) by reflexivity.
      apply (adopt_spec b m a w3 luid true (with_libraries (hs_libraries (hs b)) s)); auto; [apply Z.eqb_neq, E0| |].
      * unfold opened. assert (Hl : drop_interface luid (with_libraries (hs_libraries (hs b)) s) =
          with_libraries (hs_libraries (hs b)) (drop_interface luid s)) by reflexivity.
        rewrite Hl, Hd. unfold loaded, with_libraries. destruct (hs b). reflexivity.
      * eapply came_trans; [exact Hc1|]. eapply came_trans; [apply came_call; [exact Hq2|exact H2]|]. apply came_call; [exact Hq3|]. rewrite H3.
        apply (f_equal hs_libraries) in Hd. unfold loaded, with_adapters, with_libraries. cbn in *. rewrite Hd. reflexivity.
  - destruct H2 as (Hn & luid & H2). unfold bind at 1, ret at 1.
    apply (adopt_spec b m a w2 luid false (hs b)); auto; [apply Z.eqb_neq, E0|reflexivity|].
    eapply came_trans; [exact Hc1|]. apply came_call; [exact Hq2|]. rewrite H2. reflexivity.
Qed.

Lemma start_session_spec b :
  match start_packet_session b with
  | (Ok _, b') => wb_adapter b <> 0 /\ wb_session b = 0 /\ exists h, h <> 0 /\ (h ∉ hs_sessions (hs b)) /\
      stays (set_session h b) (with_sessions ({[h]} ∪ hs_sessions (hs b)) (hs b)) b'
  | (Throw _, b') => stays b (hs b) b'
  end.
Proof.
  unfold start_packet_session. unfold bind at 1, get. destruct (wb_adapter b =? 0) eqn:Ea; cbn [orb]; [apply stays_refl|].
  destruct (wb_session b =? 0) eqn:Es; cbn [negb]; [|apply stays_refl]. apply Z.eqb_neq in Ea. apply Z.eqb_eq in Es.
  unfold bind at 1, modify. unfold bind at 1, os, on_host. cbn [wb_host with_host].
  set (w1 := ResetEvent (wb_interrupt_event b) (wb_host b)).
  assert (H1 : came (wb_host b) (hs b) w1) by (apply came_quiet; constructor).
  destruct (WintunStartSession (wb_adapter b) (4 * 1024 * 1024) w1) as [h w2] eqn:E.
  pose proof (law_start _ _ _ _ _ E) as El.
  assert (Hq : host_call w1 w2) by (change w2 with (h, w2).2; rewrite <- E; constructor). destruct H1 as [Eh Ew].
  rewrite Eh in El. unfold bind at 1, modify. destruct (h =? 0) eqn:E0.
  - unfold throw_last_error, bind, get, throw_windows_error, throw. apply Z.eqb_eq in E0 as ->.
    exists w2. split; [destruct b; cbn in *; subst; reflexivity|]. eapply came_trans; [split; [exact Eh|exact Ew]|].
    apply came_call; [exact Hq|exact El].
  - destruct El as [Hn El]. apply Z.eqb_neq in E0. split; [exact Ea|]. split; [exact Es|]. exists h. split; [exact E0|].
    split; [exact Hn|]. exists w2. split; [reflexivity|].
    eapply came_trans; [split; [exact Eh|exact Ew]|]. apply came_call; [exact Hq|exact El].
Qed.

(** *** Addresses and routes *)

Lemma require_luid_spec b :
  require_luid b = (Ok (wb_luid b), b) /\ wb_adapter b <> 0 /\ wb_luid b <> 0 \/
  require_luid b = (Throw (LogicError "Wintun adapter is not open"), b).
Proof.
  unfold require_luid, bind, get. destruct (wb_adapter b =? 0) eqn:Ea; cbn [orb]; [auto|].
  destruct (wb_luid b =? 0) eqn:El; [auto|]. apply Z.eqb_neq in Ea, El. left. auto.
Qed.

Lemma created_spec result operation b :
  match created result operation b with
  | (Ok true, b') => result = 0 /\ b' = b
  | (Ok false, b') => result = ERROR_OBJECT_ALREADY_EXISTS /\ b' = b
  | (Throw _, b') => (result =? 0) = false /\ b' = b
  end.
Proof.
  unfold created. destruct (result =? ERROR_OBJECT_ALREADY_EXISTS) eqn:E.
  - apply Z.eqb_eq in E. split; [exact E|reflexivity].
  - destruct (result =? 0) eqn:E0; cbn [negb]; [apply Z.eqb_eq in E0; split; [exact E0|reflexivity]|split; reflexivity].
Qed.

(** What adding an address came to. *)
Definition address_added b (row : MIB_UNICASTIPADDRESS_ROW) (r : outcome bool * WindowsNetworkBackend W) : Prop :=
  match r with
  | (Ok true, b') => wb_luid b <> 0 /\ (row_key row ∉ map row_key (hs_addresses (hs b))) /\
      stays b (with_addresses (hs_addresses (hs b) ++ [row]) (hs b)) b'
  | (Ok false, b') | (Throw _, b') => stays b (hs b) b'
  end.

Lemma add_row_spec b (row : Z -> MIB_UNICASTIPADDRESS_ROW) operation :
  address_added b (row (wb_luid b))
    ((let* luid := require_luid in
      let* result := os (CreateUnicastIpAddressEntry (row luid)) in created result operation) b).
Proof.
  unfold bind at 1. destruct (require_luid_spec b) as [(Erl & _ & Hlu)|Erl]; rewrite Erl; [|apply stays_refl]. unfold bind, os.
  destruct (CreateUnicastIpAddressEntry (row (wb_luid b)) (wb_host b)) as [c w] eqn:E.
  pose proof (law_add_address _ _ _ _ E) as El.
  assert (Hq : host_call (wb_host b) w) by (change w with (c, w).2; rewrite <- E; constructor).
  pose proof (created_spec c operation (with_host w b)) as Hc. unfold address_added.
  destruct (created c operation (with_host w b)) as [[[]|e] b'].
  - destruct Hc as [-> ->]. destruct El as [Hn El]. split_goal; auto. apply stays_host, came_call; assumption.
  - destruct Hc as [-> ->]. apply stays_host, came_call; assumption.
  - destruct Hc as [Hc ->]. rewrite Hc in El. apply stays_host, came_call; assumption.
Qed.

Lemma add_route_spec r b :
  match add_route r b with
  | (Ok true, b') => wb_luid b <> 0 /\ (route_key (route_row (wb_luid b) r) ∉ map route_key (hs_routes (hs b))) /\
      stays b (with_routes (hs_routes (hs b) ++ [route_row (wb_luid b) r]) (hs b)) b'
  | (Ok false, b') => (route_key (route_row (wb_luid b) r) ∈ map route_key (hs_routes (hs b))) /\ stays b (hs b) b'
  | (Throw _, b') => stays b (hs b) b'
  end.
Proof.
  unfold add_route. unfold bind at 1. destruct (require_luid_spec b) as [(Erl & _ & Hlu)|Erl]; rewrite Erl; [|apply stays_refl].
  unfold bind at 1, os at 1. destruct (CreateIpForwardEntry2 (route_row (wb_luid b) r) (wb_host b)) as [c w] eqn:E.
  pose proof (law_add_route _ _ _ _ E) as El.
  assert (Hq : host_call (wb_host b) w) by (change w with (c, w).2; rewrite <- E; constructor).
  match goal with |- context [created c ?op] => pose proof (created_spec c op (with_host w b)) as Hc; set (o := op) in * end.
  unfold bind at 1. destruct (created c o (with_host w b)) as [[[]|e] b'].
  - destruct Hc as [-> ->]. destruct El as [Hn El]. unfold bind, os, ret.
    destruct (FlushIpPathTable (route_family r) (wb_host (with_host w b))) as [c2 w2] eqn:E2. cbn in E2.
    split_goal; auto. change (with_host w2 (with_host w b)) with (with_host w2 b). apply stays_host.
    eapply came_trans; [apply came_call; [exact Hq|exact El]|]. unfold hs. rewrite <- El. change w2 with (c2, w2).2. rewrite <- E2.
    apply came_quiet. constructor.
  - destruct Hc as [-> ->]. destruct El as [Hin El]. split; [apply Hin; reflexivity|]. apply stays_host, came_call; [exact Hq|exact El].
  - destruct Hc as [Hc ->]. rewrite Hc in El. apply stays_host, came_call; [exact Hq|apply El].
Qed.

(** *** Memory of packets *)

Lemma lent_back w w1 w2 :
  came w (with_lent (hs_lent (host_state w) + 1) (host_state w)) w1 ->
  came w1 (with_lent (hs_lent (host_state w1) - 1) (host_state w1)) w2 -> came w (host_state w) w2.
Proof.
  intros H1 H2. pose proof (came_trans _ _ _ _ _ H1 H2) as H. destruct H1 as [E _]. rewrite E in H.
  replace (with_lent _ _) with (host_state w) in H; [exact H|]. unfold with_lent. cbn. destruct (host_state w). cbn. f_equal. lia.
Qed.

Lemma try_receive_spec b : stays b (hs b) (try_receive_packet b).2.
Proof.
  unfold try_receive_packet, require_session. unfold bind at 1 2 3, get at 1 2, throw, ret.
  destruct (wb_session b =? 0); [apply stays_refl|]. unfold bind at 1, os.
  destruct (WintunReceivePacket (wb_session b) (wb_host b)) as [[p data] w1] eqn:E. pose proof (law_receive _ _ _ _ _ E) as El.
  assert (Hq : host_call (wb_host b) w1) by (change w1 with ((p, data), w1).2; rewrite <- E; constructor).
  pose proof (came_call _ _ _ Hq El) as Hc. destruct (p =? 0).
  - unfold bind at 1, get. destruct (GetLastError (wb_host (with_host w1 b)) =? ERROR_NO_MORE_ITEMS);
      cbn; apply stays_host, Hc.
  - unfold bind, modify, on_host, ret. cbn [snd]. change (with_host ?x (with_host w1 b)) with (with_host x b).
    apply stays_host. eapply lent_back; [exact Hc|]. apply came_call; [constructor|]. apply law_release.
Qed.

Lemma send_packet_spec packet b : stays b (hs b) (send_packet packet b).2.
Proof.
  unfold send_packet, require_session. unfold bind at 1 2, get at 1, throw at 1, ret at 1.
  destruct (wb_session b =? 0); [apply stays_refl|]. destruct (_ || _)%bool; [apply stays_refl|].
  unfold bind at 1, get at 1. unfold bind at 1, os.
  destruct (WintunAllocateSendPacket (wb_session b) (u32 (zlen packet)) (wb_host b)) as [p w1] eqn:E.
  pose proof (law_allocate _ _ _ _ _ E) as El.
  assert (Hq : host_call (wb_host b) w1) by (change w1 with (p, w1).2; rewrite <- E; constructor).
  pose proof (came_call _ _ _ Hq El) as Hc. destruct (p =? 0).
  - apply stays_host, Hc.
  - unfold modify, on_host. cbn [snd]. change (with_host ?x (with_host w1 b)) with (with_host x b).
    apply stays_host. eapply lent_back; [exact Hc|]. apply came_call; [constructor|]. apply law_send.
Qed.

Lemma receive_loop_spec events fuel : forall b, stays b (hs b) (receive_loop fuel events b).2.
Proof.
  induction fuel as [|fuel IH]; intros b; cbn [receive_loop]; [apply stays_refl|]. unfold bind at 1, os.
  destruct (WaitForMultipleObjects events (wb_host b)) as [c w] eqn:E.
  assert (H : stays b (hs b) (with_host w b)).
  { apply stays_host. change w with (c, w).2. rewrite <- E. apply came_quiet. constructor. }
  destruct (c =? WAIT_OBJECT_0); [exact H|]. destruct (negb (c =? WAIT_OBJECT_0 + 1)); [exact H|].
  unfold bind. pose proof (try_receive_spec (with_host w b)) as Ht. rewrite (stays_hs _ _ _ H) in Ht.
  pose proof (stays_trans _ _ _ _ _ H Ht) as Hb.
  destruct (try_receive_packet (with_host w b)) as [[[data|]|e] b2]; [exact Hb| |exact Hb]. cbn [snd] in Hb.
  eapply stays_trans; [exact Hb|]. rewrite <- (stays_hs _ _ _ Hb). apply IH.
Qed.
Lemma receive_packet_spec fuel b : stays b (hs b) (receive_packet fuel b).2.
Proof.
  unfold receive_packet, require_session. unfold bind at 1 2, get at 1, throw at 1, ret at 1.
  destruct (wb_session b =? 0); [apply stays_refl|]. unfold bind at 1, get at 1. unfold bind, os.
  destruct (WintunGetReadWaitEvent (wb_session b) (wb_host b)) as [e w] eqn:E.
  assert (H : stays b (hs b) (with_host w b)).
  { apply stays_host. change w with (e, w).2. rewrite <- E. apply came_quiet. constructor. }
  eapply stays_trans; [exact H|]. rewrite <- (stays_hs _ _ _ H). apply receive_loop_spec.
Qed.

(** *** The MTU *)

Lemma interface_row_spec family b :
  match interface_row family b with
  | (Ok row, b') => stays b (hs b) b' /\ wb_luid b <> 0 /\ if_luid row = wb_luid b /\ if_family row = family /\
      hs_mtus (hs b) !! (wb_luid b, family) = Some (NlMtu row)
  | (Throw _, b') => stays b (hs b) b'
  end.
Proof.
  unfold interface_row. unfold bind at 1. destruct (require_luid_spec b) as [(Erl & _ & Hlu)|Erl]; rewrite Erl; [|apply stays_refl].
  unfold bind, os. destruct (GetIpInterfaceEntry (wb_luid b) family (wb_host b)) as [[c row] w] eqn:E.
  assert (H : stays b (hs b) (with_host w b)).
  { apply stays_host. change w with ((c, row), w).2. rewrite <- E. apply came_quiet. constructor. }
  destruct (c =? 0) eqn:Ec; cbn [negb]; [|exact H]. apply Z.eqb_eq in Ec.
  destruct (law_get_interface _ _ _ _ _ _ E Ec) as (H1 & H2 & H3). unfold ret. split_goal; assumption.
Qed.

(** Setting the MTU of an interface and a family. *)
Definition mtu_set (luid family mtu : Z) s : HostState := with_mtus (<[(luid, family) := mtu]> (hs_mtus s)) s.

Lemma set_row_spec row mtu b :
  exists c w, os (SetIpInterfaceEntry (with_NlMtu mtu row)) b = (Ok c, with_host w b) /\
    stays b (if c =? 0 then mtu_set (if_luid row) (if_family row) mtu (hs b) else hs b) (with_host w b).
Proof.
  unfold os. destruct (SetIpInterfaceEntry (with_NlMtu mtu row) (wb_host b)) as [c w] eqn:E. exists c, w. split; [reflexivity|].
  pose proof (law_set_interface _ _ _ _ E) as El. apply stays_host, came_call; [change w with (c, w).2; rewrite <- E; constructor|].
  destruct (c =? 0); exact El.
Qed.

(** *** Undoing *)

Context {CO : Cooperative W}.

Lemma mtu_set_back luid family mtu old s :
  hs_mtus s !! (luid, family) = Some old -> mtu_set luid family old (mtu_set luid family mtu s) = s.
Proof.
  intros H. unfold mtu_set, with_mtus. cbn. rewrite insert_insert_eq, insert_id by exact H. destruct s. reflexivity.
Qed.

Lemma set_row_back row old mtu s b :
  hs_mtus s !! (if_luid row, if_family row) = Some old -> hs b = mtu_set (if_luid row) (if_family row) mtu s ->
  valid_mtu (if_luid row) (if_family row) old ->
  exists w, os (SetIpInterfaceEntry (with_NlMtu old row)) b = (Ok 0, with_host w b) /\ stays b s (with_host w b).
Proof using Type CO.
  intros Hm Hb Hv. destruct (set_row_spec row old b) as (c & w & E & H). exists w.
  assert (c = 0) as ->.
  { unfold os in E. destruct (SetIpInterfaceEntry (with_NlMtu old row) (wb_host b)) as [c' w'] eqn:Es. injection E as -> _.
    change c with (c, w').1. rewrite <- Es. apply set_interface_law; [|exact Hv]. change (host_state (wb_host b)) with (hs b).
    rewrite Hb. cbn. rewrite lookup_insert_eq. eauto. }
  split; [exact E|]. change (0 =? 0) with true in H. cbv iota in H. rewrite Hb, mtu_set_back in H by exact Hm. exact H.
Qed.

Lemma set_mtu_spec mtu b :
  match set_interface_mtu mtu b with
  | (Ok None, b') | (Throw _, b') => stays b (hs b) b'
  | (Ok (Some prior), b') => wb_luid b <> 0 /\
      hs_mtus (hs b) !! (wb_luid b, AF_INET) = Some (mtu_ipv4 prior) /\
      hs_mtus (hs b) !! (wb_luid b, AF_INET6) = Some (mtu_ipv6 prior) /\
      stays b (mtu_set (wb_luid b) AF_INET6 mtu (mtu_set (wb_luid b) AF_INET mtu (hs b))) b'
  end.
Proof using Type CO.
  unfold set_interface_mtu. unfold bind at 1. pose proof (interface_row_spec AF_INET b) as H4.
  destruct (interface_row AF_INET b) as [[row4|e] b1]; [|exact H4]. destruct H4 as (Hs1 & Hlu & E4l & E4f & H4).
  unfold bind at 1. pose proof (interface_row_spec AF_INET6 b1) as H6. rewrite (stays_hs _ _ _ Hs1) in H6.
  destruct (interface_row AF_INET6 b1) as [[row6|e] b2]; [|eapply stays_trans; eassumption].
  destruct H6 as (Hs2 & _ & E6l & E6f & H6). pose proof (stays_trans _ _ _ _ _ Hs1 Hs2) as Hs.
  assert (El : wb_luid b1 = wb_luid b) by (destruct Hs1 as (w & -> & _); reflexivity). rewrite El in *.
  destruct (_ && _)%bool; [exact Hs|]. unfold bind at 1. destruct (set_row_spec row4 mtu b2) as (c & w3 & -> & Hs3).
  rewrite (stays_hs _ _ _ Hs), E4l, E4f in Hs3. pose proof (stays_trans _ _ _ _ _ Hs Hs3) as Ht.
  destruct (c =? 0) eqn:Ec; cbn [negb]; [|exact Ht]. unfold bind at 1.
  destruct (set_row_spec row6 mtu (with_host w3 b2)) as (c6 & w4 & -> & Hs4).
  rewrite (stays_hs _ _ _ Hs3), E6l, E6f in Hs4. pose proof (stays_trans _ _ _ _ _ Ht Hs4) as Hu.
  destruct (c6 =? 0) eqn:Ec6; cbn [negb].
  - unfold ret. split_goal; auto.
  - unfold bind at 1. destruct (set_row_back row4 (NlMtu row4) mtu (hs b) (with_host w4 (with_host w3 b2))) as (w5 & E5 & H5).
    + rewrite E4l, E4f. exact H4.
    + rewrite E4l, E4f. exact (stays_hs _ _ _ Hs4).
    + eapply valid_mtu_law. rewrite E4l, E4f. exact H4.
    + change (with_NlMtu (mtu_ipv4 (mkMtuSnapshot (NlMtu row4) (NlMtu row6))) (with_NlMtu mtu row4)) with (with_NlMtu (NlMtu row4) row4).
      rewrite E5. exact (stays_trans _ _ _ _ _ Hu H5).
Qed.

Lemma key_removed {A K} (key : A -> K) `{EqDecision K} (x : A) l :
  (key x ∉ map key l) -> filter (fun y => key y <> key x) (l ++ [x]) = l.
Proof.
  intros Hn. rewrite filter_app, filter_cons_False by tauto. rewrite filter_nil, app_nil_r. apply filter_all.
  intros y Hy E. apply Hn. rewrite <- E. apply list_elem_of_fmap. eauto.
Qed.
Lemma key_last {A K} (key : A -> K) (x : A) l : key x ∈ map key (l ++ [x]).
Proof. rewrite map_app. apply elem_of_app. right. left. Qed.

Lemma remove_route_spec r s b :
  wb_luid b <> 0 -> (route_key (route_row (wb_luid b) r) ∉ map route_key (hs_routes s)) ->
  hs b = with_routes (hs_routes s ++ [route_row (wb_luid b) r]) s -> stays b s (remove_route r b).
Proof using Type CO.
  intros Hl Hn Hb. unfold remove_route, ignore. apply Z.eqb_neq in Hl. rewrite Hl. unfold bind, os at 1.
  set (row := route_row (wb_luid b) r) in *. destruct (DeleteIpForwardEntry2 row (wb_host b)) as [c w] eqn:E.
  pose proof (law_delete_route _ _ _ _ E) as El. assert (c = 0) as ->.
  { change c with (c, w).1. rewrite <- E. apply delete_route_law. change (host_state (wb_host b)) with (hs b). rewrite Hb. apply key_last. }
  assert (H : stays b s (with_host w b)).
  { apply stays_host, came_call; [change w with (0, w).2; rewrite <- E; constructor|].
    change (host_state (wb_host b)) with (hs b) in El. cbv iota in El. change (0 =? 0) with true in El. cbv iota in El.
    rewrite El, Hb. unfold without_route. change (hs_routes (with_routes ?x s)) with x. rewrite key_removed by exact Hn. destruct s. reflexivity. }
  unfold os. destruct (FlushIpPathTable (route_family r) (wb_host (with_host w b))) as [c2 w2] eqn:E2. cbn [snd].
  eapply stays_trans; [exact H|]. rewrite <- (stays_hs _ _ _ H). apply stays_host. change w2 with (c2, w2).2. rewrite <- E2.
  apply came_quiet. constructor.
Qed.

Lemma remove_row_spec row s b :
  (row_key row ∉ map row_key (hs_addresses s)) -> hs b = with_addresses (hs_addresses s ++ [row]) s ->
  stays b s (ignore (os (DeleteUnicastIpAddressEntry row)) b).
Proof using Type CO.
  intros Hn Hb. unfold ignore, os. destruct (DeleteUnicastIpAddressEntry row (wb_host b)) as [c w] eqn:E.
  pose proof (law_delete_address _ _ _ _ E) as El. assert (c = 0) as ->.
  { change c with (c, w).1. rewrite <- E. apply delete_address_law. change (host_state (wb_host b)) with (hs b). rewrite Hb. apply key_last. }
  apply stays_host, came_call; [change w with (0, w).2; rewrite <- E; constructor|].
  change (host_state (wb_host b)) with (hs b) in El. change (0 =? 0) with true in El. cbv iota in El.
  rewrite El, Hb. unfold without_address. change (hs_addresses (with_addresses ?x s)) with x. rewrite key_removed by exact Hn. destruct s. reflexivity.
Qed.

Lemma interface_row_ok family b :
  wb_adapter b <> 0 -> wb_luid b <> 0 -> is_Some (hs_mtus (hs b) !! (wb_luid b, family)) ->
  exists row w, interface_row family b = (Ok row, with_host w b) /\ stays b (hs b) (with_host w b) /\
    if_luid row = wb_luid b /\ if_family row = family.
Proof using Type CO.
  intros Ha Hl Hm. pose proof (interface_row_spec family b) as H.
  assert (Hok : exists row w, interface_row family b = (Ok row, with_host w b)).
  { unfold interface_row. unfold bind at 1. unfold require_luid, bind, get. apply Z.eqb_neq in Ha, Hl. rewrite Ha, Hl. cbn [orb].
    unfold ret, os. destruct (GetIpInterfaceEntry (wb_luid b) family (wb_host b)) as [[c row] w] eqn:E. exists row, w.
    pose proof (get_interface_law (wb_luid b) family (wb_host b) Hm) as Hc. rewrite E in Hc. cbn in Hc. subst c. reflexivity. }
  destruct Hok as (row & w & E). rewrite E in H. exists row, w. split; [exact E|]. destruct H as (H1 & _ & H2 & H3 & _). auto.
Qed.

Lemma mtu_set_comm luid f g m n s : f <> g -> mtu_set luid f m (mtu_set luid g n s) = mtu_set luid g n (mtu_set luid f m s).
Proof. intros H. unfold mtu_set, with_mtus. cbn. rewrite insert_insert_ne by congruence. reflexivity. Qed.

Lemma restore_mtu_spec prior mtu s b :
  wb_adapter b <> 0 -> wb_luid b <> 0 ->
  hs_mtus s !! (wb_luid b, AF_INET) = Some (mtu_ipv4 prior) -> hs_mtus s !! (wb_luid b, AF_INET6) = Some (mtu_ipv6 prior) ->
  hs b = mtu_set (wb_luid b) AF_INET6 mtu (mtu_set (wb_luid b) AF_INET mtu s) ->
  valid_mtu (wb_luid b) AF_INET (mtu_ipv4 prior) -> valid_mtu (wb_luid b) AF_INET6 (mtu_ipv6 prior) ->
  stays b s (restore_interface_mtu prior b).
Proof using Type CO.
  intros Ha Hl H4 H6 Hb V4 V6. unfold restore_interface_mtu, ignore. unfold bind at 1.
  destruct (interface_row_ok AF_INET b Ha Hl) as (row4 & w1 & -> & Hs1 & El4 & Ef4).
  { rewrite Hb. cbn. rewrite lookup_insert_ne, lookup_insert_eq by (intros E; injection E; discriminate). eauto. }
  rewrite mtu_set_comm in Hb by discriminate. unfold bind at 1.
  destruct (set_row_back row4 (mtu_ipv4 prior) mtu (mtu_set (wb_luid b) AF_INET6 mtu s) (with_host w1 b)) as (w2 & -> & Hs2).
  { rewrite El4, Ef4. cbn. rewrite lookup_insert_ne by (intros E; injection E; discriminate). exact H4. }
  { rewrite El4, Ef4. rewrite <- Hb. exact (stays_hs _ _ _ Hs1). }
  { rewrite El4, Ef4. exact V4. }
  change (with_host w2 (with_host w1 b)) with (with_host w2 b) in *. pose proof (stays_trans _ _ _ _ _ Hs1 Hs2) as Hs.
  unfold bind at 1. destruct (interface_row_ok AF_INET6 (with_host w2 b) Ha Hl) as (row6 & w3 & -> & Hs3 & El6 & Ef6).
  { rewrite (stays_hs _ _ _ Hs). cbn. rewrite lookup_insert_eq. eauto. }
  rewrite (stays_hs _ _ _ Hs) in Hs3. change (with_host w3 (with_host w2 b)) with (with_host w3 b) in *.
  destruct (set_row_back row6 (mtu_ipv6 prior) mtu s (with_host w3 b)) as (w4 & -> & Hs4).
  { rewrite El6, Ef6. exact H6. }
  { rewrite El6, Ef6. exact (stays_hs _ _ _ Hs3). }
  { rewrite El6, Ef6. exact V6. }
  cbn [snd]. change (with_host w4 (with_host w3 b)) with (with_host w4 b) in *.
  exact (stays_trans _ _ _ _ _ Hs (stays_trans _ _ _ _ _ Hs3 Hs4)).
Qed.

(** *** The network transaction *)

(** The same to every later call, but for the libraries that are loaded. *)
Definition like b b' : Prop :=
  wb_adapter b = wb_adapter b' /\ wb_session b = wb_session b' /\ wb_luid b = wb_luid b' /\
  exists n, hs b' = with_libraries n (hs b).

(** What the adapter's closing leaves of the host's configuration. *)
Definition configuration b : HostState :=
  let s := session_ended (wb_session b) (hs b) in
  with_libraries 0 (if wb_adapter b =? 0 then s else close_effect (wb_adapter b) s).

Lemma with_libraries_same s : with_libraries (hs_libraries s) s = s.
Proof. destruct s. reflexivity. Qed.
Lemma like_refl b : like b b.
Proof. unfold like. split_goal; auto. exists (hs_libraries (hs b)). rewrite with_libraries_same. reflexivity. Qed.
Lemma stays_like b s b' b0 n : stays b s b' ->
  wb_adapter b0 = wb_adapter b -> wb_session b0 = wb_session b -> wb_luid b0 = wb_luid b -> s = with_libraries n (hs b0) ->
  like b0 b'.
Proof.
  intros (w & -> & E & _) H1 H2 H3 ->. unfold like. split_goal; auto. exists n. exact E.
Qed.
Lemma close_effect_libraries a n s : with_libraries 0 (close_effect a (with_libraries n s)) = with_libraries 0 (close_effect a s).
Proof. unfold close_effect. cbn [hs_adapters with_libraries]. destruct (hs_adapters s !! a) as [[luid []]|]; reflexivity. Qed.
Lemma like_configuration b b' : like b b' -> configuration b' = configuration b.
Proof.
  intros (E1 & E2 & _ & n & E3). unfold configuration. rewrite E3, <- E1, <- E2.
  assert (Hs : session_ended (wb_session b) (with_libraries n (hs b)) = with_libraries n (session_ended (wb_session b) (hs b)))
    by (unfold session_ended; destruct (wb_session b =? 0); reflexivity).
  rewrite Hs. destruct (wb_adapter b =? 0); [reflexivity|]. apply close_effect_libraries.
Qed.

(** Opening the adapter does not count: the adapter's closing undoes it. *)
Lemma open_configuration b b' : coherent b -> open_adapter b = (Ok tt, b') -> configuration b' = configuration b.
Proof.
  intros Hco E. pose proof (open_adapter_spec b Hco) as H. rewrite E in H. destruct H as [[_ ->]|H]; [reflexivity|].
  destruct H as (Ea & m & a & luid & removes & s & Hm & Ha & Hlu & Hn & Ho & w & -> & Hc & _).
  unfold coherent in Hco. pose proof Ea as Eb. apply Z.eqb_eq in Eb. rewrite Eb in Hco. destruct Hco as [Es _].
  unfold configuration, hs. cbn [wb_host wb_session wb_adapter with_host set_luid set_adapter set_module]. rewrite Hc, Eb, Es.
  change (session_ended 0 ?x) with x. apply Z.eqb_neq in Ha. rewrite Ha. unfold close_effect.
  change (hs_adapters (loaded m b ?x)) with (hs_adapters x). change (hs_adapters (with_adapters ?x s)) with x. rewrite lookup_insert_eq.
  rewrite (opened_adapters _ _ _ _ Ho), delete_insert_id by exact Hn. unfold opened in Ho. fold (hs b). destruct removes.
  - rewrite drop_opened, Ho, with_adapters_same. reflexivity.
  - rewrite Ho. change (with_adapters ?x (loaded m b ?y)) with (loaded m b (with_adapters x y)).
    change (with_adapters ?x (with_adapters _ ?y)) with (with_adapters x y). rewrite with_adapters_same. reflexivity.
Qed.
Lemma close_configuration b : coherent b ->
  configuration (close_adapter b) = configuration b /\ wb_adapter (close_adapter b) = 0 /\
  with_libraries 0 (hs (close_adapter b)) = configuration b.
Proof.
  intros Hco. destruct (close_adapter_spec b) as (w & -> & Hc & _).
  { intros Ha. unfold coherent in Hco. apply Z.eqb_neq in Ha. rewrite Ha in Hco. destruct Hco as (_ & r & ->). eauto. }
  unfold configuration at 1, hs. cbn [wb_host wb_session wb_adapter with_host set_luid set_adapter set_session].
  change (0 =? 0) with true. cbv iota. change (session_ended 0 ?x) with x. rewrite Hc. auto.
Qed.

(** A setup call leaves the backend coherent. *)
Lemma coherent_stays b s b' : coherent b -> stays b s b' -> hs_adapters s = hs_adapters (hs b) -> coherent b'.
Proof.
  unfold coherent. intros Hco (w & -> & E & _) Ea. cbn [wb_adapter wb_session wb_luid with_host]. rewrite hs_with_host, E, Ea. exact Hco.
Qed.
Lemma coherent_like b b' : coherent b -> like b b' -> coherent b'.
Proof. unfold coherent. intros Hco (E1 & E2 & E3 & n & E4). rewrite <- E1, <- E2, <- E3, E4. exact Hco. Qed.

Lemma does_coherent c b b' : coherent b -> does c b b' -> coherent b'.
Proof using Type CO.
  intros Hco Hd. destruct c as [| |a created|a created|mtu prior|r created]; cbn [does NetworkTransaction.open_adapter
    NetworkTransaction.start_packet_session NetworkTransaction.add_interface_address NetworkTransaction.add_interface_address_v6
    NetworkTransaction.set_interface_mtu NetworkTransaction.add_route windows_backend] in Hd.
  - pose proof (open_adapter_spec b Hco) as H. rewrite Hd in H. destruct H as [[_ ->]|H]; [exact Hco|].
    destruct H as (Ea & m & a & luid & removes & s & Hm & Ha & Hlu & Hn & Ho & w & -> & Hc & _). unfold coherent, hs.
    cbn [wb_host wb_adapter wb_luid with_host set_luid set_adapter set_module]. apply Z.eqb_neq in Ha. rewrite Ha. split; [exact Hlu|].
    exists removes. rewrite Hc. apply lookup_insert_eq.
  - pose proof (start_session_spec b) as H. rewrite Hd in H. destruct H as (Ha & Hs & h & Hh & Hn & w & -> & Hc & _).
    unfold coherent in *. cbn [wb_adapter wb_luid with_host set_session]. rewrite hs_with_host, Hc. apply Z.eqb_neq in Ha. rewrite Ha in *. exact Hco.
  - pose proof (add_row_spec b (fun l => address_row l a) "add Wintun interface address") as H.
    unfold add_interface_address in Hd. cbv beta in H. rewrite Hd in H. destruct created.
    + destruct H as (_ & _ & H). eapply coherent_stays; [exact Hco|exact H|reflexivity].
    + eapply coherent_stays; [exact Hco|exact H|reflexivity].
  - pose proof (add_row_spec b (fun l => address_row_v6 l a) "add Wintun IPv6 interface address") as H.
    unfold add_interface_address_v6 in Hd. cbv beta in H. rewrite Hd in H. destruct created.
    + destruct H as (_ & _ & H). eapply coherent_stays; [exact Hco|exact H|reflexivity].
    + eapply coherent_stays; [exact Hco|exact H|reflexivity].
  - pose proof (set_mtu_spec mtu b) as H. rewrite Hd in H. destruct prior.
    + destruct H as (_ & _ & _ & H). eapply coherent_stays; [exact Hco|exact H|reflexivity].
    + eapply coherent_stays; [exact Hco|exact H|reflexivity].
  - pose proof (add_route_spec r b) as H. rewrite Hd in H. destruct created.
    + destruct H as (_ & _ & H). eapply coherent_stays; [exact Hco|exact H|reflexivity].
    + destruct H as [_ H]. eapply coherent_stays; [exact Hco|exact H|reflexivity].
Qed.

(** Undoing a call that returned leads back to where it was made; calls that
    created nothing changed nothing. *)
Definition undone (c : setup_call) b : WindowsNetworkBackend W := match undo_of c with Some u => apply_undo u b | None => b end.

Ltac methods H := cbn [does apply_undo NetworkTransaction.open_adapter NetworkTransaction.start_packet_session
  NetworkTransaction.add_interface_address NetworkTransaction.add_interface_address_v6 NetworkTransaction.set_interface_mtu
  NetworkTransaction.add_route NetworkTransaction.remove_route NetworkTransaction.restore_interface_mtu
  NetworkTransaction.remove_interface_address NetworkTransaction.remove_interface_address_v6
  NetworkTransaction.stop_packet_session NetworkTransaction.close_adapter windows_backend] in H.

Lemma coherent_open b : coherent b -> wb_luid b <> 0 -> wb_adapter b <> 0.
Proof. unfold coherent. intros Hco Hl E. rewrite E in Hco. destruct Hco. contradiction. Qed.

(** A call that left the host as it was. *)
Lemma nothing_done b b1 b2 : stays b (hs b) b1 -> like b1 b2 -> like b b2.
Proof.
  intros (w & -> & E & _) (E1 & E2 & E3 & n & E4). unfold like. rewrite hs_with_host, E in E4. split_goal; eauto.
Qed.
(** The undoing method starts where [s] came about, with other libraries. *)
Lemma undo_starts b s b1 b2 : stays b s b1 -> like b1 b2 ->
  wb_adapter b2 = wb_adapter b /\ wb_session b2 = wb_session b /\ wb_luid b2 = wb_luid b /\
  exists n, hs b2 = with_libraries n s.
Proof.
  intros (w & -> & E & _) (E1 & E2 & E3 & n & E4). rewrite hs_with_host, E in E4. split_goal; eauto.
Qed.

Lemma take_back (h : Z) (S : gset Z) : (h ∉ S) -> ({[h]} ∪ S) ∖ {[h]} = S.
Proof. intros Hn. apply leibniz_equiv. set_solver. Qed.

Lemma undo_address_like b (row : Z -> MIB_UNICASTIPADDRESS_ROW) b1 b2 :
  wb_luid b <> 0 -> (row_key (row (wb_luid b)) ∉ map row_key (hs_addresses (hs b))) ->
  stays b (with_addresses (hs_addresses (hs b) ++ [row (wb_luid b)]) (hs b)) b1 -> like b1 b2 ->
  like b (if wb_luid b2 =? 0 then b2 else ignore (os (DeleteUnicastIpAddressEntry (row (wb_luid b2)))) b2).
Proof using Type CO.
  intros Hl Hk Hst Hlike. destruct (undo_starts _ _ _ _ Hst Hlike) as (E1 & E2 & E3 & n & E4).
  rewrite E3. apply Z.eqb_neq in Hl. rewrite Hl.
  eapply stays_like with (n := n); [apply (remove_row_spec (row (wb_luid b)) (with_libraries n (hs b)) b2)|congruence..|reflexivity].
  - exact Hk.
  - rewrite E4. reflexivity.
Qed.

Lemma undo_like c b b1 b2 : coherent b -> does c b b1 -> c <> DidOpen -> like b1 b2 -> like b (undone c b2).
Proof using Type CO.
  intros Hco Hd Hc Hl. destruct c as [| |a [|]|a [|]|mtu [prior|]|r [|]]; unfold undone; cbn [undo_of]; methods Hd; try contradiction;
    cbn [apply_undo NetworkTransaction.remove_route NetworkTransaction.restore_interface_mtu NetworkTransaction.remove_interface_address
      NetworkTransaction.remove_interface_address_v6 NetworkTransaction.stop_packet_session windows_backend].
  - pose proof (start_session_spec b) as H. rewrite Hd in H. destruct H as (_ & Hs & h & Hh & Hn & Hst).
    destruct (undo_starts _ _ _ _ Hst Hl) as (E1 & E2 & E3 & n & E4). cbn [wb_adapter wb_session wb_luid set_session] in *.
    eapply stays_like with (n := n); [apply stop_session_spec|cbn; congruence..|]. rewrite E2, E4. unfold session_ended.
    apply Z.eqb_neq in Hh. rewrite Hh. unfold with_sessions, with_libraries. cbn. rewrite take_back by exact Hn. reflexivity.
  - pose proof (add_row_spec b (fun l => address_row l a) "add Wintun interface address") as H. cbv beta in H.
    unfold add_interface_address in Hd. rewrite Hd in H. destruct H as (Hlu & Hk & Hst).
    exact (undo_address_like b (fun l => address_row l a) b1 b2 Hlu Hk Hst Hl).
  - pose proof (add_row_spec b (fun l => address_row l a) "add Wintun interface address") as H. cbv beta in H.
    unfold add_interface_address in Hd. rewrite Hd in H. exact (nothing_done _ _ _ H Hl).
  - pose proof (add_row_spec b (fun l => address_row_v6 l a) "add Wintun IPv6 interface address") as H. cbv beta in H.
    unfold add_interface_address_v6 in Hd. rewrite Hd in H. destruct H as (Hlu & Hk & Hst).
    exact (undo_address_like b (fun l => address_row_v6 l a) b1 b2 Hlu Hk Hst Hl).
  - pose proof (add_row_spec b (fun l => address_row_v6 l a) "add Wintun IPv6 interface address") as H. cbv beta in H.
    unfold add_interface_address_v6 in Hd. rewrite Hd in H. exact (nothing_done _ _ _ H Hl).
  - pose proof (set_mtu_spec mtu b) as H. rewrite Hd in H. destruct H as (Hlu & H4 & H6 & Hst).
    pose proof (coherent_open _ Hco Hlu) as Ha. destruct (undo_starts _ _ _ _ Hst Hl) as (E1 & E2 & E3 & n & E4).
    eapply stays_like with (n := n); [apply (restore_mtu_spec prior mtu (with_libraries n (hs b)) b2)|congruence..|reflexivity];
      rewrite ?E1, ?E3; first [assumption|rewrite E4; reflexivity|eapply valid_mtu_law; eassumption].
  - pose proof (set_mtu_spec mtu b) as H. rewrite Hd in H. exact (nothing_done _ _ _ H Hl).
  - pose proof (add_route_spec r b) as H. rewrite Hd in H. destruct H as (Hlu & Hk & Hst).
    destruct (undo_starts _ _ _ _ Hst Hl) as (E1 & E2 & E3 & n & E4).
    eapply stays_like with (n := n); [apply (remove_route_spec r (with_libraries n (hs b)) b2)|congruence..|reflexivity];
      rewrite ?E3; first [assumption|rewrite E4; reflexivity].
  - pose proof (add_route_spec r b) as H. rewrite Hd in H. exact (nothing_done _ _ _ (proj2 H) Hl).
Qed.

(** A setup call that threw left the host as it was. *)
Lemma fails_like e b b1 : coherent b -> fails e b b1 -> like b b1.
Proof using Type CO.
  intros Hco [H|[H|[[a H]|[[a H]|[[m H]|[r H]]]]]]; methods H.
  - pose proof (open_adapter_spec b Hco) as Hs. rewrite H in Hs. destruct Hs as (_ & m & Hs).
    eapply stays_like; [exact Hs|reflexivity..].
  - pose proof (start_session_spec b) as Hs. rewrite H in Hs. exact (nothing_done _ _ _ Hs (like_refl _)).
  - pose proof (add_row_spec b (fun l => address_row l a) "add Wintun interface address") as Hs. cbv beta in Hs.
    unfold add_interface_address in H. rewrite H in Hs. exact (nothing_done _ _ _ Hs (like_refl _)).
  - pose proof (add_row_spec b (fun l => address_row_v6 l a) "add Wintun IPv6 interface address") as Hs. cbv beta in Hs.
    unfold add_interface_address_v6 in H. rewrite H in Hs. exact (nothing_done _ _ _ Hs (like_refl _)).
  - pose proof (set_mtu_spec m b) as Hs. rewrite H in Hs. exact (nothing_done _ _ _ Hs (like_refl _)).
  - pose proof (add_route_spec r b) as Hs. rewrite H in Hs. exact (nothing_done _ _ _ Hs (like_refl _)).
Qed.

Lemma trace_coherent cs b b' : trace cs b b' -> coherent b -> coherent b'.
Proof using Type CO.
  induction 1 as [|cs c b b1 b2 _ IH Hd]; intros Hco; [exact Hco|]. eapply does_coherent; [exact (IH Hco)|exact Hd].
Qed.
Lemma trace_undone cs b b1 : trace cs b b1 -> coherent b -> Forall (fun c => c <> DidOpen) cs ->
  forall b2, like b1 b2 -> like b (apply_plan (undo_all cs) b2).
Proof using Type CO.
  induction 1 as [b|cs c b b1 b' Ht IH Hd]; intros Hco Hf b2 Hl; [exact Hl|]. apply Forall_app in Hf as [Hf Hc].
  rewrite Forall_singleton in Hc. pose proof (trace_coherent _ _ _ Ht Hco) as Hco1.
  specialize (IH Hco Hf (undone c b2) (undo_like c b1 b' b2 Hco1 Hd Hc Hl)). rewrite undo_all_snoc. unfold undone in IH.
  destruct (undo_of c); exact IH.
Qed.

Lemma trace_app cs cs' b b' : trace (cs ++ cs') b b' -> exists b1, trace cs b b1 /\ trace cs' b1 b'.
Proof.
  revert b'. induction cs' as [|c cs' IH] using rev_ind; intros b' H.
  - rewrite app_nil_r in H. exists b'. split; [exact H|constructor].
  - rewrite app_assoc in H. inversion H as [|cs0 c0 s0 s1 s2 Ht Hd Ecs]; [destruct (cs ++ cs'); discriminate|].
    apply app_inj_tail in Ecs as [-> ->]. destruct (IH _ Ht) as (b1 & Hb1 & Hb2). exists b1. split; [exact Hb1|].
    eapply trace_snoc; eassumption.
Qed.
Lemma trace_one c b b' : trace [c] b b' -> does c b b'.
Proof.
  intros H. inversion H as [|cs0 c0 s0 s1 s2 Ht Hd Ecs]. change [c] with ([] ++ [c]) in Ecs. apply app_inj_tail in Ecs as [-> ->].
  inversion Ht as [|cs1 c1 ? ? ? ? ? E1]; [subst; exact Hd|destruct cs1; discriminate].
Qed.

(** Closing the adapter is the last thing that a plan does. *)
Lemma plan_open_once t cs : plan t = undo_all (DidOpen :: cs) -> Forall (fun c => c <> DidOpen) cs.
Proof.
  intros E. apply Forall_forall. intros c Hin ->. unfold undo_all in E. cbn in E.
  assert (Hx : In CloseAdapter (rev (omap undo_of cs))).
  { apply in_rev. rewrite rev_involutive. apply list_elem_of_In, list_elem_of_omap. exists DidOpen. auto. }
  assert (Hp : exists us, plan t = us ++ (if adapter_open_ t then [CloseAdapter] else []) /\ ~ In CloseAdapter us).
  { unfold plan. eexists. split; [rewrite !app_assoc; reflexivity|]. rewrite !in_app_iff, in_map_iff.
    destruct (prior_mtu_ t), (ipv6_address_created_ t), (ipv6_address_ t), (address_created_ t), (session_started_ t); cbn [In];
      intros Hus; destruct_or? Hus; try discriminate; try contradiction; destruct Hus as (? & ? & _); discriminate. }
  destruct Hp as (us & Hus & Hn). rewrite E in Hus. destruct (adapter_open_ t).
  - apply app_inj_tail in Hus as [<- _]. contradiction.
  - rewrite app_nil_r in Hus. subst us. apply Hn. apply in_app_iff. left. exact Hx.
Qed.

(** A later setup call keeps the LUID and the routes that are there. *)
Lemma does_keeps c b b' : does c b b' -> c <> DidOpen ->
  wb_luid b' = wb_luid b /\ (forall r, r ∈ hs_routes (hs b) -> r ∈ hs_routes (hs b')) /\
  match c with DidRoute r _ => route_key (route_row (wb_luid b) r) ∈ map route_key (hs_routes (hs b')) | _ => True end.
Proof using Type CO.
  assert (Hsame : forall b0 s b1, stays b0 s b1 -> wb_luid b0 = wb_luid b -> hs_routes s = hs_routes (hs b) ->
    wb_luid b1 = wb_luid b /\ (forall r, r ∈ hs_routes (hs b) -> r ∈ hs_routes (hs b1)) /\ True).
  { intros b0 s b1 Hst El Er. pose proof (stays_hs _ _ _ Hst) as Eh. destruct Hst as (w & -> & _). rewrite Eh, Er. auto. }
  intros Hd Hc. destruct c as [| |a made|a made|mtu prior|r made]; try contradiction; methods Hd.
  - pose proof (start_session_spec b) as H. rewrite Hd in H. destruct H as (_ & _ & h & _ & _ & H). eapply Hsame; [exact H|reflexivity..].
  - pose proof (add_row_spec b (fun l => address_row l a) "add Wintun interface address") as H. cbv beta in H.
    unfold add_interface_address in Hd. rewrite Hd in H. destruct made; [destruct H as (_ & _ & H)|]; (eapply Hsame; [exact H|reflexivity..]).
  - pose proof (add_row_spec b (fun l => address_row_v6 l a) "add Wintun IPv6 interface address") as H. cbv beta in H.
    unfold add_interface_address_v6 in Hd. rewrite Hd in H. destruct made; [destruct H as (_ & _ & H)|]; (eapply Hsame; [exact H|reflexivity..]).
  - pose proof (set_mtu_spec mtu b) as H. rewrite Hd in H. destruct prior; [destruct H as (_ & _ & _ & H)|]; (eapply Hsame; [exact H|reflexivity..]).
  - pose proof (add_route_spec r b) as H. rewrite Hd in H. destruct made.
    + destruct H as (_ & _ & H). pose proof (stays_hs _ _ _ H) as Eh. destruct H as (w & -> & _). rewrite Eh. cbn [hs_routes with_routes].
      split_goal; [reflexivity|intros r' Hr; apply elem_of_app; auto|apply key_last].
    + destruct H as [Hin H]. pose proof (stays_hs _ _ _ H) as Eh. destruct H as (w & -> & _). rewrite Eh. auto.
Qed.
Lemma trace_keeps cs b b' : trace cs b b' -> Forall (fun c => c <> DidOpen) cs ->
  wb_luid b' = wb_luid b /\ (forall r, r ∈ hs_routes (hs b) -> r ∈ hs_routes (hs b')) /\
  forall r made, DidRoute r made ∈ cs -> route_key (route_row (wb_luid b) r) ∈ map route_key (hs_routes (hs b')).
Proof using Type CO.
  induction 1 as [b|cs c b b1 b' Ht IH Hd]; intros Hf.
  { split_goal; auto. intros r made Hin. apply not_elem_of_nil in Hin. contradiction. }
  apply Forall_app in Hf as [Hf Hc]. rewrite Forall_singleton in Hc. destruct (IH Hf) as (El & Hr & Hk).
  destruct (does_keeps c b1 b' Hd Hc) as (El' & Hr' & Hk'). split_goal; [congruence|auto|].
  intros r made Hin. apply elem_of_app in Hin as [Hin|Hin].
  - specialize (Hk r made Hin). apply list_elem_of_fmap in Hk as (x & Ex & Hx). apply list_elem_of_fmap. exists x. auto.
  - apply list_elem_of_singleton in Hin as <-. rewrite El in Hk'. exact Hk'.
Qed.

Lemma undo_all_cons c cs : undo_all (c :: cs) = undo_all cs ++ match undo_of c with Some u => [u] | None => [] end.
Proof. unfold undo_all. cbn. destruct (undo_of c); [reflexivity|rewrite app_nil_r; reflexivity]. Qed.

(** The adapter was opened, calls were made, perhaps one failed, and all was
    undone. *)
Lemma opened_undone cs b b1 b2 t :
  coherent b -> trace (DidOpen :: cs) b b1 -> like b1 b2 -> plan t = undo_all (DidOpen :: cs) ->
  let b' := apply_plan (undo_all (DidOpen :: cs)) b2 in
  coherent b' /\ wb_adapter b' = 0 /\ with_libraries 0 (hs b') = configuration b.
Proof using Type CO.
  intros Hco Ht Hl Hp b'. pose proof (plan_open_once t cs Hp) as Hf.
  destruct (trace_app [DidOpen] cs b b1 Ht) as (b0 & H0 & Hcs). apply trace_one in H0.
  pose proof (does_coherent _ _ _ Hco H0) as Hco0. methods H0. pose proof (trace_undone cs b0 b1 Hcs Hco0 Hf b2 Hl) as Hu.
  pose proof (coherent_like _ _ Hco0 Hu) as Hcou. unfold b'. rewrite undo_all_cons. cbn [undo_of]. rewrite apply_plan_app.
  set (bu := apply_plan (undo_all cs) b2) in *. change (apply_plan [CloseAdapter] bu) with (close_adapter bu).
  destruct (close_configuration bu Hcou) as (H1 & H2 & H3). split; [|split; [exact H2|]].
  - unfold coherent. rewrite H2. change (0 =? 0) with true. cbv iota. destruct (close_adapter_spec bu) as (w & -> & _); [|split; reflexivity].
    intros Ha. unfold coherent in Hcou. apply Z.eqb_neq in Ha. rewrite Ha in Hcou. destruct Hcou as (_ & r & ->). eauto.
  - rewrite H3, (like_configuration _ _ Hu). apply open_configuration; assumption.
Qed.

(** ** Properties *)

Context `{IpLibrary}.

(** C35: Configuring the tunnel on Windows is atomic: the backend keeps what the
    transaction relies on.  When the activation succeeds, every configured
    route is in the host's table, on the tunnel's interface.  When it throws,
    and when it is rolled back, the adapter is closed and the host's routes,
    addresses, MTUs, adapters and sessions are exactly what closing the adapter
    would have left of them before (if the adapter was closed: what they were),
    also when the adapter had been opened for the kill switch. *)
Theorem windows_activation_atomic a cidrs b t :
  coherent b -> idle t -> cidrs <> [] ->
  match activate a cidrs (b, t) with
  | (Ok _, (b', t')) => active_ t' = true /\
      (exists routes, Forall2 (fun cidr route => parse_any_route a cidr = Ok route) cidrs routes /\
        Forall (fun r => route_key (route_row (wb_luid b') r) ∈ map route_key (hs_routes (hs b'))) routes) /\
      exists b2 t2, rollback (b', t') = (Ok tt, (b2, t2)) /\ idle t2 /\ coherent b2 /\ wb_adapter b2 = 0 /\
        with_libraries 0 (hs b2) = configuration b
  | (Throw _, (b', t')) => idle t' /\ coherent b' /\ wb_adapter b' = 0 /\ with_libraries 0 (hs b') = configuration b
  end.
Proof using Type CO.
  intros Hco Hi Hne. pose proof (activate_spec a cidrs b t Hi Hne) as H0. destruct (activate a cidrs (b, t)) as [[[]|e] [b' t']].
  - destruct H0 as (Hact & routes & c4 & c6 & prior & crs & Hparse & Hlen & Ht & Hp & Hv & _). split; [exact Hact|].
    unfold setup_calls in *. cbn [app] in *. match type of Ht with trace (DidOpen :: ?l) _ _ => set (cs := l) in * end. split.
    + exists routes. split; [exact Hparse|]. apply Forall_forall. intros r Hr.
      destruct (trace_app [DidOpen] cs b b' Ht) as (b0 & _ & Hcs).
      destruct (trace_keeps cs b0 b' Hcs (plan_open_once t' cs Hp)) as (-> & _ & Hk).
      apply list_elem_of_lookup in Hr as [i Hr]. destruct (lookup_lt_is_Some_2 crs i) as [made Hm].
      { rewrite Hlen. eapply lookup_lt_Some, Hr. }
      apply (Hk r made). unfold cs. right. right. apply elem_of_app. right. right. apply list_elem_of_lookup. exists i.
      rewrite lookup_zip_with, Hr. cbn. rewrite Hm. reflexivity.
    + destruct (rollback_eq b' t') as (t2 & E & Hi2). eexists _, t2. split; [exact E|]. split; [apply Hi2, Hv|]. rewrite Hp.
      eapply opened_undone; [exact Hco|exact Ht|apply like_refl|exact Hp].
  - destruct H0 as (Hi' & cs & b1 & b2 & Ht & Hs & -> & Hfirst & Hnil & t1 & Hp). split; [exact Hi'|].
    assert (Hl : like b1 b2).
    { destruct Hs as [-> |Hs]; [apply like_refl|]. eapply fails_like; [|exact Hs]. eapply trace_coherent; eassumption. }
    destruct Hfirst as [-> |[cs' ->]].
    + inversion Ht as [|cs0 c0 ? ? ? ? ? E0]; [subst|destruct cs0; discriminate]. specialize (Hnil eq_refl). methods Hnil.
      pose proof (open_adapter_spec _ Hco) as Hs'. rewrite Hnil in Hs'. destruct Hs' as (Ea & m & Hst).
      change (apply_plan (undo_all []) b2) with b2. split; [exact (coherent_like _ _ Hco Hl)|].
      destruct Hl as (E1 & _). split; [congruence|]. rewrite (stays_hs _ _ _ Hst). unfold configuration. rewrite Ea.
      change (0 =? 0) with true. cbv iota. unfold coherent in Hco. rewrite Ea in Hco. destruct Hco as [-> _]. reflexivity.
    + eapply opened_undone; eassumption.
Qed.
End Specs.

(** *** The filtering platform's calls leave the rest of the host alone *)

Section Frame.
Context {W : Type} {WH : WindowsHost W} {WF : Wfp W} {WL : WfpLaws W} {HL : WindowsHostLaws W}.
Implicit Types (w : W).

Definition unmoved {A} (m : M W A) : Prop := forall w, host_state (m w).2 = host_state w.

Lemma unmoved_ret {A} (a : A) : unmoved (ret a).
Proof. intros w. reflexivity. Qed.
Lemma unmoved_throw {A} e : unmoved (throw (A := A) e).
Proof. intros w. reflexivity. Qed.
Lemma unmoved_lift {A} (o : outcome A) : unmoved (lift o).
Proof. intros w. reflexivity. Qed.
Lemma unmoved_bind {A B} (m : M W A) (k : A -> M W B) : unmoved m -> (forall a, unmoved (k a)) -> unmoved (bind m k).
Proof.
  intros Hm Hk w. unfold bind. specialize (Hm w). destruct (m w) as [[a|e] w1]; [|exact Hm]. cbn in Hm. rewrite <- Hm. apply Hk.
Qed.
Lemma unmoved_catch {A} (m : M W A) h : unmoved m -> (forall e m', h e = Some m' -> unmoved m') -> unmoved (try_catch m h).
Proof.
  intros Hm Hh w. unfold try_catch. specialize (Hm w). destruct (m w) as [[a|e] w1]; [exact Hm|]. cbn in Hm.
  destruct (h e) as [m'|] eqn:E; [|exact Hm]. rewrite <- Hm. apply (Hh e m' E).
Qed.
Lemma unmoved_api {A} (f : W -> A * W) : (forall w, wfp_call w (f w).2) -> unmoved (api f).
Proof. intros H w. unfold api. specialize (H w). destruct (f w) as [a w1]. apply law_wfp_call, H. Qed.
Lemma unmoved_free : unmoved free_memory.
Proof. intros w. apply law_wfp_call. constructor. Qed.
Lemma unmoved_engine {A} (body : Z -> M W A) : (forall h, unmoved (body h)) -> unmoved (with_engine body).
Proof.
  intros Hb. unfold with_engine. apply unmoved_bind; [apply unmoved_api; constructor|]. intros [result h].
  apply unmoved_bind; [unfold check_wfp; destruct (negb _); [apply unmoved_throw|apply unmoved_ret]|]. intros [] w.
  specialize (Hb h w). destruct (body h w) as [r w1]. destruct (FwpmEngineClose0 h w1) as [c w2] eqn:E. cbn in *.
  rewrite <- Hb. change w2 with (c, w2).2. rewrite <- E. apply law_wfp_call. constructor.
Qed.

(** One step of a computation of WindowsKillSwitch.v. *)
Ltac unmoved_step :=
  match goal with
  | |- unmoved (bind _ _) => apply unmoved_bind; [|intros ?]
  | |- unmoved (ret _) => apply unmoved_ret
  | |- unmoved (throw _) => apply unmoved_throw
  | |- unmoved (lift _) => apply unmoved_lift
  | |- unmoved free_memory => apply unmoved_free
  | |- unmoved (api _) => apply unmoved_api; constructor
  | |- unmoved (check_wfp _ _) => unfold check_wfp
  | |- unmoved (throw_wfp_error _ _) => unfold throw_wfp_error
  | |- unmoved (try_catch _ _) => apply unmoved_catch; [|intros ? ? [= <-]]
  | |- unmoved (if ?b then _ else _) => destruct b
  | |- unmoved (match ?x with _ => _ end) => destruct x
  | |- unmoved (let '(_, _) := ?x in _) => destruct x
  end.
Ltac unmoved_all := repeat unmoved_step.

Lemma unmoved_enumerate fuel h : unmoved (enumerate_provider_filters fuel h).
Proof.
  unfold enumerate_provider_filters. assert (Hl : forall e keys, unmoved (enumerate_loop fuel h e keys)).
  { intros e. induction fuel as [|fuel IH]; intros keys; cbn [enumerate_loop]; unmoved_all. apply IH. }
  repeat (unmoved_step || apply Hl).
Qed.
Lemma unmoved_delete fuel h : unmoved (delete_provider_filters fuel h).
Proof.
  unfold delete_provider_filters. assert (Hd : forall keys, unmoved (delete_filters h keys)).
  { induction keys as [|key keys IH]; cbn [delete_filters]; unmoved_all; exact IH. }
  apply unmoved_bind; [apply unmoved_enumerate|]. intros [keys|]; repeat (unmoved_step || apply Hd).
Qed.
Lemma unmoved_transaction {A} h (body : M W A) : unmoved body -> unmoved (with_transaction h body).
Proof. intros Hb. unfold with_transaction. repeat (unmoved_step || exact Hb). Qed.
Lemma unmoved_remove_provider h : unmoved (remove_provider h).
Proof. unfold remove_provider. unmoved_all. Qed.
Lemma unmoved_add h l f a wt cs o : unmoved (add_filter h l f a wt cs o).
Proof. unfold add_filter. unmoved_all. Qed.
Lemma unmoved_family h pk tr v es : unmoved (add_family_policy h pk tr v es).
Proof.
  unfold add_family_policy, add_unconditional_filter. assert (Ha : unmoved (allow_endpoints h pk tr v es)).
  { induction es as [|e es IH]; cbn [allow_endpoints]; [apply unmoved_ret|]. apply unmoved_bind; [|intros []; exact IH].
    unfold add_endpoint_allow. repeat (unmoved_step || apply unmoved_add). }
  repeat (apply Ha || apply unmoved_add || unmoved_step).
Qed.
Lemma unmoved_enable fuel es : unmoved (enable_windows_kill_switch fuel es).
Proof.
  unfold enable_windows_kill_switch, add_unconditional_filter, ensure_provider_and_sublayer, ensure_provider, ensure_sublayer.
  do 2 (apply unmoved_bind; [apply unmoved_lift|intros []]). apply unmoved_engine. intros h. apply unmoved_transaction.
  repeat (apply unmoved_delete || apply unmoved_add || apply unmoved_family || unmoved_step).
Qed.
Lemma unmoved_disable fuel : unmoved (disable_windows_kill_switch fuel).
Proof.
  unfold disable_windows_kill_switch. apply unmoved_engine. intros h. apply unmoved_transaction.
  repeat (apply unmoved_enumerate || apply unmoved_delete || apply unmoved_remove_provider || unmoved_step).
Qed.
Lemma unmoved_permit old index w : host_state (replace_windows_tunnel_permit old index w).2 = host_state w.
Proof.
  unfold replace_windows_tunnel_permit. destruct (index =? 0); [reflexivity|].
  assert (Hc : unmoved (close_windows_tunnel_permit old)) by (unfold close_windows_tunnel_permit; unmoved_all).
  specialize (Hc w). destruct (close_windows_tunnel_permit old w) as [r0 w1]. cbn in Hc. rewrite <- Hc.
  match goal with |- context [let '(r, w) := ?m w1 in _] => assert (Hm : unmoved m) end.
  { unfold add_interface_allow. repeat (apply unmoved_transaction || apply unmoved_add || unmoved_step). }
  specialize (Hm w1). match goal with |- context [let '(r, w) := ?x in _] => destruct x as [[h|e] w2] end; exact Hm.
Qed.
Lemma unmoved_close old w : host_state (close_windows_tunnel_permit old w).2 = host_state w.
Proof. assert (Hc : unmoved (close_windows_tunnel_permit old)) by (unfold close_windows_tunnel_permit; unmoved_all). apply Hc. Qed.
End Frame.

(** *** Stale and bypass routes *)

Section KillSwitchSpecs.
Context {W : Type} {WH : WindowsHost W} {WF : Wfp W} {WL : WfpLaws W} {HL : WindowsHostLaws W}.
Implicit Types (b : WindowsNetworkBackend W) (w : W).

Definition routes w : list MIB_IPFORWARD_ROW2 := hs_routes (host_state w).
Lemma routes_same w : with_routes (routes w) (host_state w) = host_state w.
Proof. unfold routes. destruct (host_state w). reflexivity. Qed.
Lemma came_routes w R w' : came w (with_routes R (host_state w)) w' -> routes w' = R.
Proof. intros [E _]. unfold routes. rewrite E. reflexivity. Qed.
Lemma came_routes_trans w R w1 R' w2 : came w (with_routes R (host_state w)) w1 ->
  came w1 (with_routes R' (host_state w1)) w2 -> came w (with_routes R' (host_state w)) w2.
Proof. intros H1 H2. pose proof (came_trans _ _ _ _ _ H1 H2) as H. destruct H1 as [E _]. rewrite E in H. exact H. Qed.

(** Routes may only go, and on success the stale ones of the table have. *)
Lemma remove_default_routes_spec luid table : forall w,
  match remove_default_routes luid table w with (r0, w') =>
  exists R, (forall r, r ∈ R -> r ∈ routes w) /\
    came w (with_routes R (host_state w)) w' /\
    (r0 = Ok tt ->
     forall r, r ∈ table -> owned_default_route luid r = true -> r ∉ R)
  end.
Proof.
  induction table as [|route table IH]; intros w; cbn [remove_default_routes].
  { exists (routes w). split; [auto|]. split; [rewrite routes_same; apply came_refl|]. intros _ r Hr. apply not_elem_of_nil in Hr. contradiction. }
  assert (Hnext : forall R1 w1, (forall r, r ∈ R1 -> r ∈ routes w) -> (owned_default_route luid route = true -> route ∉ R1) ->
    came w (with_routes R1 (host_state w)) w1 ->
    match remove_default_routes luid table w1 with (r0, w') =>
    exists R, (forall r, r ∈ R -> r ∈ routes w) /\ came w (with_routes R (host_state w)) w' /\
      (r0 = Ok tt -> forall r, r ∈ route :: table -> owned_default_route luid r = true -> r ∉ R) end).
  { intros R1 w1 Hsub Hnot Hc. pose proof (IH w1) as H. destruct (remove_default_routes luid table w1) as [r0 w'].
    destruct H as (R & H1 & H2 & H3). rewrite (came_routes _ _ _ Hc) in H1. exists R.
    split; [auto|]. split; [exact (came_routes_trans _ _ _ _ _ Hc H2)|]. intros Hok r Hr Hor Hin.
    apply elem_of_cons in Hr as [->|Hr]; [exact (Hnot Hor (H1 _ Hin))|]. exact (H3 Hok r Hr Hor Hin). }
  unfold bind at 1. destruct (owned_default_route luid route) eqn:Eo; cbn [negb].
  2:{ unfold ret. apply (Hnext (routes w)); [auto|discriminate|rewrite routes_same; apply came_refl]. }
  unfold bind, api. destruct (DeleteIpForwardEntry2 route w) as [c w1] eqn:E. pose proof (law_delete_route _ _ _ _ E) as El.
  assert (Hq : host_call w w1) by (change w1 with (c, w1).2; rewrite <- E; constructor).
  destruct (c =? 0) eqn:Ec; cbn [negb andb].
  - unfold ret. apply (Hnext (without_route route (routes w))).
    + intros r Hr. apply list_elem_of_filter in Hr. tauto.
    + intros _ Hr. apply list_elem_of_filter in Hr. tauto.
    + apply came_call; [exact Hq|exact El].
  - destruct El as [Hnf El]. pose proof (came_call _ _ _ Hq El) as Hc. destruct (c =? ERROR_NOT_FOUND) eqn:En; cbn [negb].
    + unfold ret. apply (Hnext (routes w)); [auto| |rewrite routes_same; exact Hc]. intros _ Hin. apply Z.eqb_eq in En.
      apply (Hnf En). apply list_elem_of_fmap. eauto.
    + exists (routes w). split; [auto|]. split; [rewrite routes_same; exact Hc|]. intros [=].
Qed.

Lemma flush_came f w : came w (host_state w) (FlushIpPathTable f w).2.
Proof. apply came_quiet. constructor. Qed.

(** Both flushes, after which a computation returns. *)
Lemma flushes_spec w : exists w', (let* _ := api (FlushIpPathTable AF_INET) in
  let* _ := api (FlushIpPathTable AF_INET6) in ret tt) w = (Ok tt, w') /\ came w (host_state w) w'.
Proof.
  unfold bind, api, ret. destruct (FlushIpPathTable AF_INET w) as [c1 w1] eqn:E1. destruct (FlushIpPathTable AF_INET6 w1) as [c2 w2] eqn:E2.
  exists w2. split; [reflexivity|]. pose proof (flush_came AF_INET w) as H1. rewrite E1 in H1. pose proof (flush_came AF_INET6 w1) as H2.
  rewrite E2 in H2. cbn [snd] in *. pose proof (came_trans _ _ _ _ _ H1 H2) as H. destruct H1 as [E _]. rewrite E in H. exact H.
Qed.

Lemma remove_owned_spec luid w :
  match remove_owned_default_routes luid w with (r0, w') =>
  exists R, (forall r, r ∈ R -> r ∈ routes w) /\ came w (with_routes R (host_state w)) w' /\
    (r0 = Ok tt -> Forall (fun r => owned_default_route luid r = false) R)
  end.
Proof.
  unfold remove_owned_default_routes. unfold bind at 1, api at 1.
  destruct (GetIpForwardTable2 AF_UNSPEC w) as [[c table] w1] eqn:E. pose proof (law_table _ _ _ _ _ E) as El.
  assert (Hq : host_call w w1) by (change w1 with ((c, table), w1).2; rewrite <- E; constructor).
  destruct (c =? 0); cbn [negb].
  2:{ exists (routes w). split; [auto|]. split; [rewrite routes_same; apply came_call; [exact Hq|exact El]|intros [=]]. }
  destruct El as [El Ht]. specialize (Ht eq_refl). pose proof (came_call _ _ _ Hq El) as Hc1.
  pose proof (remove_default_routes_spec luid table w1) as Hx. unfold bind at 1.
  destruct (remove_default_routes luid table w1) as [r0 w2]. destruct Hx as (R & H1 & H2 & H3).
  assert (Hr1 : routes w1 = routes w) by (unfold routes; rewrite El; reflexivity). rewrite Hr1 in H1.
  assert (Hfree : forall w2, came w1 (with_routes R (host_state w1)) w2 -> came w (with_routes R (host_state w)) (FreeMibTable w2)).
  { intros w3 H. pose proof (came_trans _ _ _ _ _ Hc1 H) as Hx. destruct H as [Eh _].
    eapply came_trans; [exact Hx|]. apply came_call; [constructor|]. rewrite law_free_table, Eh, El.
    unfold with_lent, with_routes. cbn. f_equal. lia. }
  destruct r0 as [[]|e].
  2:{ exists R. split; [exact H1|]. split; [apply Hfree, H2|intros [=]]. }
  destruct (flushes_spec w2) as (w3 & -> & Hc3). exists R. split; [exact H1|]. split.
  - apply Hfree. pose proof (came_trans _ _ _ _ _ H2 Hc3) as Hx. destruct H2 as [E2 _]. rewrite E2 in Hx. exact Hx.
  - intros _. apply Forall_forall. intros r Hr. apply not_true_iff_false. intros Ho. apply (H3 eq_refl r); [|exact Ho|exact Hr].
    apply Ht; [|exact (eq_ind _ (fun l => r ∈ l) (H1 r Hr) _ eq_refl)]. unfold owned_default_route in Ho. apply negb_true_iff in Ho.
    apply orb_false_iff in Ho as [Ho _]. apply orb_false_iff in Ho as [_ Ho]. apply negb_false_iff, Z.eqb_eq in Ho. exact Ho.
Qed.

(** A host route to an endpoint that does not go through the tunnel. *)
Definition bypasses (luid : Z) (e : WindowsVpnEndpoint) (row : MIB_IPFORWARD_ROW2) : Prop :=
  fw_luid row <> luid /\ fw_family row = endpoint_family e /\ fw_prefix row = endpoint_bytes e /\
  fw_prefix_length row = if vp_ipv6 e then 128 else 32.

Lemma add_bypass_spec luid e w :
  match add_bypass_route luid e w with (r0, w') =>
  exists R, (forall r, r ∈ R -> r ∈ routes w \/ bypasses luid e r) /\ (forall r, r ∈ routes w -> r ∈ R) /\
    came w (with_routes R (host_state w)) w' /\
    (r0 = Ok tt -> Exists (bypasses luid e) R)
  end.
Proof.
  unfold add_bypass_route. unfold bind at 1, api at 1.
  destruct (GetBestRoute2 (endpoint_family e) (endpoint_bytes e) w) as [[c prior] w1] eqn:E.
  assert (Hc : came w (host_state w) w1) by (change w1 with ((c, prior), w1).2; rewrite <- E; apply came_quiet; constructor).
  (* a way out that added nothing *)
  assert (Hsame : forall x w2, came w (host_state w) w2 -> exists R, (forall r, r ∈ R -> r ∈ routes w \/ bypasses luid e r) /\
    (forall r, r ∈ routes w -> r ∈ R) /\ came w (with_routes R (host_state w)) w2 /\
    (@Throw unit x = Ok tt -> Exists (bypasses luid e) R)).
  { intros x w2 H. exists (routes w). split_goal; auto; [|intros [=]]. rewrite routes_same. exact H. }
  destruct (c =? 0); cbn [negb]; [|apply Hsame, Hc].
  destruct (fw_luid prior =? luid) eqn:El; [apply Hsame, Hc|]. apply Z.eqb_neq in El.
  set (row := bypass_row prior e). assert (Hb : bypasses luid e row) by (unfold bypasses; split_goal; [exact El|reflexivity..]).
  unfold bind, api. destruct (CreateIpForwardEntry2 row w1) as [c2 w2] eqn:E2. pose proof (law_add_route _ _ _ _ E2) as Ea.
  assert (Hq : host_call w1 w2) by (change w2 with (c2, w2).2; rewrite <- E2; constructor). pose proof Hc as [Eh _].
  destruct (c2 =? 0); cbn [negb andb].
  - destruct Ea as [_ Ea]. rewrite Eh in Ea. exists (routes w ++ [row]). split; [|split; [|split]].
    + intros r Hr. apply elem_of_app in Hr as [Hr|Hr]; [auto|]. apply list_elem_of_singleton in Hr as ->. auto.
    + intros r Hr. apply elem_of_app. auto.
    + eapply came_trans; [exact Hc|]. apply came_call; [exact Hq|exact Ea].
    + intros _. apply Exists_app. right. constructor. exact Hb.
  - destruct Ea as [Hex Ea]. rewrite Eh in Ea. rewrite Eh in Hex. pose proof (came_trans _ _ _ _ _ Hc (came_call _ _ _ Hq Ea)) as Hc2.
    destruct (c2 =? ERROR_OBJECT_ALREADY_EXISTS) eqn:Ee; cbn [negb]; [|apply Hsame, Hc2].
    exists (routes w). split_goal; auto; [rewrite routes_same; exact Hc2|]. intros _. apply Z.eqb_eq in Ee. specialize (Hex Ee).
    apply list_elem_of_fmap in Hex as (x & Ex & Hx). apply Exists_exists. exists x. split; [exact Hx|].
    injection Ex as H1 H2 H3 H4 _. unfold bypasses. cbn in *. rewrite <- H1, <- H2, <- H3, <- H4. split_goal; auto.
Qed.

Lemma add_bypasses_spec luid es : forall w,
  match add_bypass_routes luid es w with (r0, w') =>
  exists R, (forall r, r ∈ R -> r ∈ routes w \/ Exists (fun e => bypasses luid e r) es) /\ (forall r, r ∈ routes w -> r ∈ R) /\
    came w (with_routes R (host_state w)) w' /\
    (r0 = Ok tt -> Forall (fun e => Exists (bypasses luid e) R) es)
  end.
Proof.
  induction es as [|e es IH]; intros w; cbn [add_bypass_routes].
  { exists (routes w). split_goal; auto. rewrite routes_same. apply came_refl. }
  unfold bind at 1. pose proof (add_bypass_spec luid e w) as H. destruct (add_bypass_route luid e w) as [[[]|x] w1];
    destruct H as (R & H1 & H2 & H3 & H4).
  - specialize (IH w1). destruct (add_bypass_routes luid es w1) as [r0 w2]. destruct IH as (R' & K1 & K2 & K3 & K4).
    rewrite (came_routes _ _ _ H3) in K1, K2. exists R'. split; [|split; [|split]].
    + intros r Hr. destruct (K1 r Hr) as [Hr'|Hr']; [|right; apply Exists_cons; auto]. destruct (H1 r Hr') as [?|?]; [auto|].
      right. apply Exists_cons. auto.
    + auto.
    + exact (came_routes_trans _ _ _ _ _ H3 K3).
    + intros Hok. constructor; [|exact (K4 Hok)]. specialize (H4 eq_refl). apply Exists_exists in H4 as (r & Hr & Hb).
      apply Exists_exists. eauto.
  - exists R. split; [|split; [exact H2|split; [exact H3|intros [=]]]]. intros r Hr. destruct (H1 r Hr) as [?|?]; [auto|]. right. apply Exists_cons. auto.
Qed.

Lemma add_transport_bypass_spec luid es w :
  match add_transport_bypass_routes es luid w with (r0, w') =>
  exists R, (forall r, r ∈ R -> r ∈ routes w \/ Exists (fun e => bypasses luid e r) es) /\ (forall r, r ∈ routes w -> r ∈ R) /\
    came w (with_routes R (host_state w)) w' /\
    (r0 = Ok tt -> Forall (fun e => Exists (bypasses luid e) R) es)
  end.
Proof.
  unfold add_transport_bypass_routes. unfold bind at 1. pose proof (add_bypasses_spec luid es w) as H.
  destruct (add_bypass_routes luid es w) as [[[]|e] w1]; destruct H as (R & H1 & H2 & H3 & H4).
  - destruct (flushes_spec w1) as (w2 & -> & Hc). exists R. split_goal; auto.
    pose proof (came_trans _ _ _ _ _ H3 Hc) as Hx. destruct H3 as [Eh _]. rewrite Eh in Hx. exact Hx.
  - exists R. split; [exact H1|split; [exact H2|split; [exact H3|intros [=]]]].
Qed.

(** *** The order of the kill switch *)

(** The filtering policy: as it was, or that of the kill switch as a whole. *)
Definition policy_step endpoints w w1 : Prop :=
  settles (wfp_state w) (ws_policy (wfp_state w)) w1 \/
  exists p, enabled endpoints (ws_policy (wfp_state w)) (Some tt) p /\ unique_keys p /\ settles (wfp_state w) p w1.

(** The kill switch did not come to its end: the policy has been replaced as a
    whole or not at all, and of the permit the old one is there, or none. *)
Definition left_guarded endpoints b b' : Prop :=
  exists w1, policy_step endpoints (wb_host b) w1 /\
    (wb_tunnel_policy_session b' = wb_tunnel_policy_session b /\ wfp_state (wb_host b') = wfp_state w1 \/
     wb_tunnel_policy_session b' = 0 /\
     let s := without_permit (wb_tunnel_policy_session b) (wfp_state w1) in settles s (ws_policy s) (wb_host b')).

(** The session of [b'] came to [s], with the permit of the interface. *)
Definition permit_in_place (index : Z) (s : WfpState) b' : Prop :=
  let new := wb_tunnel_policy_session b' in
  new <> 0 /\ ws_engines s !! new = None /\ ws_transactions s !! new = None /\
  exists p en, permitted index new (ws_policy s) p /\ unique_keys p /\
    wfp_state (wb_host b') = mkWfp p (<[new := true]> (ws_engines s)) (ws_transactions s) en (ws_allocated s).

(** It did: the policy is in force, the permit that of the tunnel's interface,
    no stale default route is left, and every server has a route around the
    tunnel. *)
Definition guarded endpoints b b' : Prop :=
  exists w1 p index, enabled endpoints (ws_policy (wfp_state (wb_host b))) (Some tt) p /\ unique_keys p /\ settles (wfp_state (wb_host b)) p w1 /\
    index <> 0 /\ (exists w w', ConvertInterfaceLuidToIndex (wb_luid b') w = ((0, index), w')) /\
    permit_in_place index (without_permit (wb_tunnel_policy_session b) (wfp_state w1)) b' /\
    Forall (fun r => owned_default_route (wb_luid b') r = false) (routes (wb_host b')) /\
    Forall (fun e => Exists (bypasses (wb_luid b') e) (routes (wb_host b'))) endpoints.

Lemma bypass_not_owned luid e r : bypasses luid e r -> owned_default_route luid r = false.
Proof.
  intros (Hl & _). unfold owned_default_route. apply Z.eqb_neq in Hl. rewrite Hl. cbn [negb]. rewrite orb_true_r. reflexivity.
Qed.
Lemma enable_policy fuel endpoints w :
  unique_keys (ws_policy (wfp_state w)) -> (length (owned_keys (ws_policy (wfp_state w))) < fuel)%nat ->
  match enable_windows_kill_switch fuel endpoints w with
  | (Ok r, w1) => r = Some tt /\ host_state w1 = host_state w /\
      exists p, enabled endpoints (ws_policy (wfp_state w)) (Some tt) p /\ unique_keys p /\ settles (wfp_state w) p w1
  | (Throw _, w1) => host_state w1 = host_state w /\ settles (wfp_state w) (ws_policy (wfp_state w)) w1
  end.
Proof.
  intros Hn Hf. pose proof (enable_spec fuel endpoints w Hn Hf) as H. pose proof (unmoved_enable fuel endpoints w) as Hk.
  destruct (enable_windows_kill_switch fuel endpoints w) as [[r|e] w1]; [|split; [exact Hk|exact H]].
  destruct H as (_ & p & Hp & Hu & Hs). assert (r = Some tt) as -> by apply Hp. eauto 6.
Qed.

(** What [enable_kill_switch] does once the adapter is open. *)
Definition protect (fuel : nat) (endpoints : list WindowsVpnEndpoint) : M (WindowsNetworkBackend W) (option unit) :=
  let* enabled := within (enable_windows_kill_switch fuel endpoints) in
  match enabled with
  | None => ret None
  | Some _ =>
      let* b := get in
      let* _ := within (remove_owned_default_routes (wb_luid b)) in
      let* _ := within (add_transport_bypass_routes endpoints (wb_luid b)) in
      let* (index_result, interface_index) := os (ConvertInterfaceLuidToIndex (wb_luid b)) in
      if negb (index_result =? 0)
      then throw_windows_error "read Wintun interface index for WFP" index_result
      else
        let* _ := replace_tunnel_permit interface_index in
        ret (Some tt)
  end.
Lemma enable_kill_switch_eq fuel endpoints b :
  enable_kill_switch fuel endpoints b = match open_adapter b with (Ok _, b1) => protect fuel endpoints b1 | (Throw e, b1) => (Throw e, b1) end.
Proof. unfold enable_kill_switch. unfold bind at 1. destruct (open_adapter b) as [[[]|e] b1]; reflexivity. Qed.

(** Fields and host after a part of it. *)
Definition only_routes (b : WindowsNetworkBackend W) R b' : Prop :=
  exists w, b' = set_tunnel_policy_session (wb_tunnel_policy_session b') (with_host w b) /\
    host_state w = with_routes R (hs b).

(** The permit, with the policy and the routes in place: the machine is at [w4],
    and was at [w1] when the policy had been made. *)
Lemma protect_permit endpoints b w1 w3 w4 R p index :
  enabled endpoints (ws_policy (wfp_state (wb_host b))) (Some tt) p -> unique_keys p ->
  settles (wfp_state (wb_host b)) p w1 ->
  ConvertInterfaceLuidToIndex (wb_luid b) w3 = ((0, index), w4) ->
  host_state w4 = with_routes R (hs b) -> wfp_state w4 = wfp_state w1 ->
  Forall (fun r => owned_default_route (wb_luid b) r = false) R ->
  Forall (fun e => Exists (bypasses (wb_luid b) e) R) endpoints ->
  match (let* _ := replace_tunnel_permit index in ret (Some tt)) (with_host w4 b) with (r, b') =>
    only_routes b R b' /\
    match r with
    | Ok r => r = Some tt /\ guarded endpoints b b'
    | Throw _ => left_guarded endpoints b b'
    end
  end.
Proof.
  intros Hp Hu [en1 Es1] E4 B4 C4 Hdefault Hbypass.
  unfold bind at 1, replace_tunnel_permit. cbn [wb_host wb_tunnel_policy_session with_host].
  assert (Hn4 : unique_keys (ws_policy (wfp_state w4))) by (rewrite C4, Es1; exact Hu).
  pose proof (unmoved_permit (wb_tunnel_policy_session b) index w4) as Hk.
  destruct (replace_windows_tunnel_permit (wb_tunnel_policy_session b) index w4) as [[r5 new] w5] eqn:E5. cbn [snd] in Hk.
  apply permit_spec in E5; [|exact Hn4]. rewrite B4 in Hk.
  assert (Hor : only_routes b R (set_tunnel_policy_session new (with_host w5 (with_host w4 b)))) by (exists w5; auto).
  destruct r5 as [[]|e5]; cbv beta iota zeta delta [ret]; (split; [exact Hor|]).
  - destruct E5 as (Hidx & Hnew & [Hne Hnt] & _ & p' & en & Hp' & Hu' & E5). split; [reflexivity|]. exists w1, p, index.
    cbn [wb_luid wb_host wb_tunnel_policy_session with_host set_tunnel_policy_session]. rewrite C4 in Hp', E5, Hne, Hnt.
    assert (Hr5 : routes w5 = R) by (unfold routes; rewrite Hk; reflexivity). rewrite Hr5.
    split; [exact Hp|]. split; [exact Hu|]. split; [exists en1; exact Es1|]. split; [exact Hidx|]. split; [exists w3, w4; exact E4|].
    split; [unfold permit_in_place; split_goal; [exact Hnew|exact Hne|exact Hnt|exists p', en; split_goal; assumption]|].
    split; [exact Hdefault|exact Hbypass].
  - exists w1. split; [right; exists p; split; [exact Hp|]; split; [exact Hu|]; exists en1; exact Es1|].
    cbn [wb_host wb_tunnel_policy_session with_host set_tunnel_policy_session].
    destruct E5 as [(_ & -> & ->)|(_ & -> & E5)]; [left; split; [reflexivity|exact C4]|]. right. split; [reflexivity|].
    rewrite C4 in E5. exact E5.
Qed.

Lemma protect_spec fuel endpoints b :
  unique_keys (ws_policy (wfp_state (wb_host b))) -> (length (owned_keys (ws_policy (wfp_state (wb_host b)))) < fuel)%nat ->
  match protect fuel endpoints b with (r, b') =>
    exists R, only_routes b R b' /\
      (forall x, x ∈ R -> x ∈ routes (wb_host b) \/ Exists (fun e => bypasses (wb_luid b) e x) endpoints) /\
      match r with
      | Ok r => r = Some tt /\ guarded endpoints b b'
      | Throw _ => left_guarded endpoints b b'
      end
  end.
Proof.
  intros Hn Hf. unfold protect. unfold bind at 1, within at 1. pose proof (enable_policy fuel endpoints (wb_host b) Hn Hf) as He.
  destruct (enable_windows_kill_switch fuel endpoints (wb_host b)) as [[r|e] w1].
  2:{ destruct He as [Hh Hs]. exists (routes (wb_host b)). split; [|split; [auto|]].
      - exists w1. split; [reflexivity|]. rewrite Hh. symmetry. apply routes_same.
      - exists w1. split; [left; exact Hs|]. left. auto. }
  destruct He as (-> & Hh1 & p & Hp & Hu & Hs1). unfold bind at 1, get. unfold bind at 1, within at 1.
  cbn [wb_luid wb_host with_host]. set (luid := wb_luid b). pose proof (remove_owned_spec luid w1) as H2.
  destruct (remove_owned_default_routes luid w1) as [r2 w2]. destruct H2 as (R2 & A2 & [B2 C2] & D2).
  assert (Hr1 : routes w1 = routes (wb_host b)) by (unfold routes; rewrite Hh1; reflexivity). rewrite Hr1 in A2. rewrite Hh1 in B2.
  (* a way out before the permit is touched *)
  assert (Hout : forall w e R, host_state w = with_routes R (hs b) -> wfp_state w = wfp_state w1 ->
    (forall x, x ∈ R -> x ∈ routes (wb_host b) \/ Exists (fun e => bypasses luid e x) endpoints) ->
    exists R, only_routes b R (with_host w b) /\
      (forall x, x ∈ R -> x ∈ routes (wb_host b) \/ Exists (fun e => bypasses luid e x) endpoints) /\
      match @Throw (option unit) e with Ok r => r = Some tt /\ guarded endpoints b (with_host w b) | Throw _ => left_guarded endpoints b (with_host w b) end).
  { intros w e R Hw1 Hw2 HR. exists R. split; [exists w; auto|]. split; [exact HR|]. exists w1. split; [right; eauto|]. left. auto. }
  destruct r2 as [[]|e2]; [|apply (Hout w2 e2 R2); auto].
  unfold bind at 1, within at 1. cbn [wb_host with_host]. pose proof (add_transport_bypass_spec luid endpoints w2) as H3.
  destruct (add_transport_bypass_routes endpoints luid w2) as [r3 w3]. destruct H3 as (R3 & A3 & K3 & [B3 C3] & D3).
  assert (Hr2 : routes w2 = R2) by (unfold routes; rewrite B2; reflexivity). rewrite Hr2 in A3. rewrite B2 in B3.
  change (with_routes R3 (with_routes R2 (host_state (wb_host b)))) with (with_routes R3 (hs b)) in B3.
  assert (A3' : forall x, x ∈ R3 -> x ∈ routes (wb_host b) \/ Exists (fun e => bypasses luid e x) endpoints).
  { intros x Hx. destruct (A3 x Hx); auto. }
  assert (C3' : wfp_state w3 = wfp_state w1) by congruence.
  change (with_host w3 (with_host w2 (with_host w1 b))) with (with_host w3 b).
  destruct r3 as [[]|e3]; [|apply (Hout w3 e3 R3); auto].
  unfold bind at 1, os at 1. cbn [wb_host with_host]. destruct (ConvertInterfaceLuidToIndex luid w3) as [[c index] w4] eqn:E4.
  assert (Hc4 : came w3 (host_state w3) w4) by (change w4 with ((c, index), w4).2; rewrite <- E4; apply came_quiet; constructor).
  destruct Hc4 as [B4 C4]. rewrite B3 in B4. rewrite C3' in C4. change (with_host w4 (with_host w3 b)) with (with_host w4 b).
  destruct (c =? 0) eqn:Ec; cbn [negb]; [|apply (Hout w4 (SystemError (to_int c) "read Wintun interface index for WFP") R3); auto]. apply Z.eqb_eq in Ec as ->.
  assert (Hdefault : Forall (fun r => owned_default_route luid r = false) R3).
  { apply Forall_forall. intros x Hx. specialize (D2 eq_refl). rewrite Forall_forall in D2.
    destruct (A3 x Hx) as [Hx2|Hx2]; [exact (D2 x Hx2)|]. apply Exists_exists in Hx2 as (e & _ & He). eapply bypass_not_owned, He. }
  pose proof (protect_permit endpoints b w1 w3 w4 R3 p index Hp Hu Hs1 E4 B4 C4 Hdefault (D3 eq_refl)) as H.
  destruct ((let* _ := replace_tunnel_permit index in ret (Some tt)) (with_host w4 b)) as [r b'].
  destruct H as [Hor Hres]. exists R3. auto.
Qed.

(** Opening the adapter leaves the filtering platform alone. *)
Lemma open_adapter_wfp b : coherent b ->
  wfp_state (wb_host (open_adapter b).2) = wfp_state (wb_host b) /\
  wb_tunnel_policy_session (open_adapter b).2 = wb_tunnel_policy_session b.
Proof.
  intros Hco. pose proof (open_adapter_spec b Hco) as H. destruct (open_adapter b) as [[[]|e] b1]; cbn [snd].
  - destruct H as [[_ ->]|(_ & m & a & luid & removes & s & _ & _ & _ & _ & _ & w & -> & _ & Hw)]; [auto|].
    split; [exact Hw|reflexivity].
  - destruct H as (_ & m & w & -> & _ & Hw). split; [exact Hw|reflexivity].
Qed.

Lemma only_routes_coherent b R b' : coherent b -> only_routes b R b' -> coherent b' /\ wb_adapter b' = wb_adapter b /\
  wb_luid b' = wb_luid b /\ routes (wb_host b') = R.
Proof.
  intros Hco (w & E & Ew). rewrite E. unfold coherent, hs, routes in *.
  cbn [wb_adapter wb_session wb_luid wb_host with_host set_tunnel_policy_session]. rewrite Ew. auto.
Qed.

(** Whatever was done to the routes, only host routes to the servers, around
    the tunnel, were added. *)
Definition adds_bypasses_only endpoints b b' : Prop :=
  forall x, x ∈ routes (wb_host b') -> x ∈ routes (wb_host b) \/ Exists (fun e => bypasses (wb_luid b') e x) endpoints.

(** C36: The kill switch is up before anything goes into the tunnel, and stays
    up when a step fails.  When [enable_kill_switch] returns, the filters of the
    endpoints are in force with the permit of the tunnel's interface, no
    default route of an earlier run is left on it, and every server has a route
    around it.  When it throws, the policy has been replaced as a whole or not
    at all, and the permit is the old one or gone.  Either way the only routes
    added are host routes to the servers over other interfaces.
    [disable_kill_switch] takes the stale default routes away first: unless
    that succeeds, the policy stays as it is. *)
Theorem kill_switch_precedes_tunnel fuel endpoints b w :
  coherent b -> unique_keys (ws_policy (wfp_state (wb_host b))) ->
  (length (owned_keys (ws_policy (wfp_state (wb_host b)))) < fuel)%nat ->
  unique_keys (ws_policy (wfp_state w)) -> (length (owned_keys (ws_policy (wfp_state w))) < fuel)%nat ->
  match enable_kill_switch fuel endpoints b with
  | (Ok r, b') => r = Some tt /\ coherent b' /\ wb_adapter b' <> 0 /\ guarded endpoints b b' /\
      adds_bypasses_only endpoints (open_adapter b).2 b'
  | (Throw e, b') => coherent b' /\
      (open_adapter b = (Throw e, b') /\ wfp_state (wb_host b') = wfp_state (wb_host b) \/
       left_guarded endpoints b b' /\ adds_bypasses_only endpoints (open_adapter b).2 b')
  end /\
  match disable_kill_switch fuel w with
  | (Ok r, w') => (exists p, disabled (ws_policy (wfp_state w)) r p /\ settles (wfp_state w) p w') /\
      let '((c, luid), _) := ConvertInterfaceAliasToLuid "PersonalVPN" w in
      c = 0 -> Forall (fun r => owned_default_route luid r = false) (routes w')
  | (Throw _, w') => settles (wfp_state w) (ws_policy (wfp_state w)) w'
  end.
Proof.
  intros Hco Hn Hf Hnw Hfw. split.
  - rewrite enable_kill_switch_eq. destruct (open_adapter_wfp b Hco) as [Ew Ep].
    pose proof (open_adapter_spec b Hco) as Ho.
    assert (Hc1 : forall b1, open_adapter b = (Ok tt, b1) -> coherent b1 /\ wb_adapter b1 <> 0).
    { intros b1 E. rewrite E in Ho. destruct Ho as [[Ha ->]|(_ & m & a & luid & removes & s & Hm & Ha & Hlu & Hna & Hop & w1 & -> & Hc & _)]; [auto|].
      split; [|exact Ha]. unfold coherent, hs. cbn [wb_host wb_adapter wb_luid with_host set_luid set_adapter set_module].
      apply Z.eqb_neq in Ha. rewrite Ha. split; [exact Hlu|]. exists removes. rewrite Hc. apply lookup_insert_eq. }
    destruct (open_adapter b) as [[[]|e] b1] eqn:Eo; cbn [snd] in *.
    + destruct (Hc1 b1 eq_refl) as [Hco1 Ha1]. rewrite <- Ew in Hn, Hf. pose proof (protect_spec fuel endpoints b1 Hn Hf) as H.
      destruct (protect fuel endpoints b1) as [r b']. destruct H as (R & Hor & HR & H).
      destruct (only_routes_coherent _ _ _ Hco1 Hor) as (Hco' & Ea & El & Er).
      assert (Hadd : adds_bypasses_only endpoints b1 b') by (unfold adds_bypasses_only; rewrite Er, El; exact HR).
      destruct r as [r|e].
      * destruct H as [-> H]. split; [reflexivity|]. split; [exact Hco'|]. split; [congruence|]. split; [|exact Hadd].
        unfold guarded in *. rewrite Ew, Ep in H. exact H.
      * split; [exact Hco'|]. right. split; [|exact Hadd]. unfold left_guarded, policy_step, settles in *. rewrite Ew, Ep in H. exact H.
    + destruct Ho as (Ea & m & w1 & -> & Hc & _). split; [|left; auto]. unfold coherent, hs in *.
      cbn [wb_host wb_adapter wb_luid wb_session with_host set_module]. rewrite Hc. rewrite Ea in *. exact Hco.
  - unfold disable_kill_switch. unfold bind at 1, api at 1.
    destruct (ConvertInterfaceAliasToLuid "PersonalVPN" w) as [[c luid] w1] eqn:E.
    assert (Hc : came w (host_state w) w1) by (change w1 with ((c, luid), w1).2; rewrite <- E; apply came_quiet; constructor).
    assert (Hgo : forall w2, wfp_state w2 = wfp_state w -> (c = 0 -> Forall (fun r => owned_default_route luid r = false) (routes w2)) ->
      match disable_windows_kill_switch fuel w2 with
      | (Ok r, w') => (exists p, disabled (ws_policy (wfp_state w)) r p /\ settles (wfp_state w) p w') /\
          (c = 0 -> Forall (fun r => owned_default_route luid r = false) (routes w'))
      | (Throw _, w') => settles (wfp_state w) (ws_policy (wfp_state w)) w'
      end).
    { intros w2 Ew Hr. rewrite <- Ew in Hnw, Hfw. pose proof (disable_spec fuel w2 Hnw Hfw) as H. pose proof (unmoved_disable fuel w2) as Hk.
      rewrite Ew in H. destruct (disable_windows_kill_switch fuel w2) as [[r|e] w']; [|exact H]. destruct H as (p & Hp & _ & Hs).
      split; [eauto|]. unfold routes in *. cbn in Hk. rewrite Hk. exact Hr. }
    unfold bind at 1. destruct Hc as [Hh Hw]. destruct (c =? 0) eqn:Ec.
    + pose proof (remove_owned_spec luid w1) as H. destruct (remove_owned_default_routes luid w1) as [[[]|e] w2];
        destruct H as (R & H1 & [H2 H2'] & H3).
      * apply Hgo; [congruence|]. intros _. unfold routes. rewrite H2. exact (H3 eq_refl).
      * exists (ws_enumerations (wfp_state w)). rewrite H2', Hw. destruct (wfp_state w). reflexivity.
    + unfold ret. apply Hgo; [exact Hw|]. apply Z.eqb_neq in Ec. contradiction.
Qed.
End KillSwitchSpecs.

(** *** What the backend holds *)

Section Resources.
Context {W : Type} {WH : WindowsHost W} {WF : Wfp W} {WL : WfpLaws W} {HL : WindowsHostLaws W}.
Implicit Types (b : WindowsNetworkBackend W) (w : W) (s : HostState).

Definition same_resources s s' : Prop :=
  hs_adapters s' = hs_adapters s /\ hs_sessions s' = hs_sessions s /\ hs_events s' = hs_events s /\
  hs_libraries s' = hs_libraries s /\ hs_lent s' = hs_lent s.
Lemma same_resources_refl s : same_resources s s.
Proof. repeat split. Qed.
Lemma same_resources_trans s s' s'' : same_resources s s' -> same_resources s' s'' -> same_resources s s''.
Proof. unfold same_resources. intros (-> & -> & -> & -> & ->). auto. Qed.

(** A computation that touches routes, addresses and MTUs only. *)
Definition harmless {A} (m : M (WindowsNetworkBackend W) A) : Prop :=
  forall b, exists s, stays b s (m b).2 /\ same_resources (hs b) s.

Lemma harmless_stays {A} (m : M (WindowsNetworkBackend W) A) : (forall b, stays b (hs b) (m b).2) -> harmless m.
Proof. intros H b. exists (hs b). split; [apply H|apply same_resources_refl]. Qed.
Lemma harmless_ret {A} (a : A) : harmless (ret a).
Proof. apply harmless_stays. intros b. apply stays_refl. Qed.
Lemma harmless_throw {A} e : harmless (throw (A := A) e).
Proof. apply harmless_stays. intros b. apply stays_refl. Qed.
Lemma harmless_get : harmless get.
Proof. apply harmless_stays. intros b. apply stays_refl. Qed.
Lemma harmless_bind {A B} (m : M (WindowsNetworkBackend W) A) (k : A -> M (WindowsNetworkBackend W) B) :
  harmless m -> (forall a, harmless (k a)) -> harmless (bind m k).
Proof.
  intros Hm Hk b. unfold bind. specialize (Hm b). destruct (m b) as [[a|e] b1]; [|exact Hm]. destruct Hm as (s & Hs & Hr). cbn [snd] in Hs.
  destruct (Hk a b1) as (s' & Hs' & Hr'). exists s'. split; [exact (stays_trans _ _ _ _ _ Hs Hs')|].
  rewrite (stays_hs _ _ _ Hs) in Hr'. exact (same_resources_trans _ _ _ Hr Hr').
Qed.
Lemma harmless_os {A} (f : W -> A * W) :
  (forall w, exists s, came w s (f w).2 /\ same_resources (host_state w) s) -> harmless (os f).
Proof.
  intros H b. unfold os. destruct (H (wb_host b)) as (s & Hc & Hr). destruct (f (wb_host b)) as [a w1]. exists s.
  split; [apply stays_host, Hc|exact Hr].
Qed.
Lemma harmless_quiet {A} (f : W -> A * W) : (forall w, quiet w (f w).2) -> harmless (os f).
Proof. intros H. apply harmless_os. intros w. exists (host_state w). split; [apply came_quiet, H|apply same_resources_refl]. Qed.

Ltac by_law law := apply harmless_os; intros w;
  match goal with |- context [?f w] => lazymatch type of (f w) with (Z * W)%type =>
    let c := fresh "c" in let w1 := fresh "w1" in let E := fresh "E" in let El := fresh "El" in
    destruct (f w) as [c w1] eqn:E; pose proof (law _ _ _ _ E) as El; cbn [snd];
    let Hq := fresh "Hq" in
    assert (Hq : host_call w w1) by (change w1 with (c, w1).2; rewrite <- E; constructor);
    destruct (c =? 0); destruct_and? El; (eexists; split; [apply came_call; [exact Hq|eassumption]|repeat split])
  end end.
Lemma harmless_add_address row : harmless (os (CreateUnicastIpAddressEntry row)).
Proof. by_law law_add_address. Qed.
Lemma harmless_delete_address row : harmless (os (DeleteUnicastIpAddressEntry row)).
Proof. by_law law_delete_address. Qed.
Lemma harmless_add_route row : harmless (os (CreateIpForwardEntry2 row)).
Proof. by_law law_add_route. Qed.
Lemma harmless_delete_route row : harmless (os (DeleteIpForwardEntry2 row)).
Proof. by_law law_delete_route. Qed.
Lemma harmless_set_interface row : harmless (os (SetIpInterfaceEntry row)).
Proof. by_law law_set_interface. Qed.

(** One step of a computation of this file. *)
Ltac harmless_step :=
  match goal with
  | |- harmless (bind _ _) => apply harmless_bind; [|intros ?]
  | |- harmless (ret _) => apply harmless_ret
  | |- harmless (throw _) => apply harmless_throw
  | |- harmless get => apply harmless_get
  | |- harmless (os (CreateUnicastIpAddressEntry _)) => apply harmless_add_address
  | |- harmless (os (DeleteUnicastIpAddressEntry _)) => apply harmless_delete_address
  | |- harmless (os (CreateIpForwardEntry2 _)) => apply harmless_add_route
  | |- harmless (os (DeleteIpForwardEntry2 _)) => apply harmless_delete_route
  | |- harmless (os (SetIpInterfaceEntry _)) => apply harmless_set_interface
  | |- harmless (os _) => apply harmless_quiet; constructor
  | |- harmless (if ?b then _ else _) => destruct b
  | |- harmless (match ?x with _ => _ end) => destruct x
  end.

Lemma harmless_setup a a6 mtu r :
  harmless (add_interface_address a) /\ harmless (add_interface_address_v6 a6) /\ harmless (set_interface_mtu mtu) /\
  harmless (add_route r).
Proof.
  unfold add_interface_address, add_interface_address_v6, set_interface_mtu, add_route, interface_row, require_luid, created,
    throw_windows_error. split_goal; repeat harmless_step.
Qed.
(** An undoing method. *)
Definition harmless_undo (f : WindowsNetworkBackend W -> WindowsNetworkBackend W) : Prop :=
  forall b, exists s, stays b s (f b) /\ same_resources (hs b) s.
Lemma harmless_undos a a6 mtu r :
  harmless_undo (remove_interface_address a) /\ harmless_undo (remove_interface_address_v6 a6) /\
  harmless_undo (restore_interface_mtu mtu) /\ harmless_undo (remove_route r).
Proof.
  assert (Hi : forall A (m : M (WindowsNetworkBackend W) A), harmless m -> harmless_undo (ignore m)) by (intros A m H b; apply H).
  assert (Hg : forall (g : WindowsNetworkBackend W -> WindowsNetworkBackend W -> WindowsNetworkBackend W),
    (forall c, harmless_undo (g c)) -> harmless_undo (fun b => if wb_luid b =? 0 then b else g b b)).
  { intros g H b. destruct (wb_luid b =? 0); [|apply H]. exists (hs b). split; [apply stays_refl|apply same_resources_refl]. }
  split_goal.
  - apply (Hg (fun c => ignore (os (DeleteUnicastIpAddressEntry (address_row (wb_luid c) a))))). intros c. apply Hi. harmless_step.
  - apply (Hg (fun c => ignore (os (DeleteUnicastIpAddressEntry (address_row_v6 (wb_luid c) a6))))). intros c. apply Hi. harmless_step.
  - apply Hi. unfold interface_row, require_luid, throw_windows_error. repeat harmless_step.
  - apply (Hg (fun c => ignore (let* _ := os (DeleteIpForwardEntry2 (route_row (wb_luid c) r)) in
      os (FlushIpPathTable (route_family r))))). intros c. apply Hi. repeat harmless_step.
Qed.

(** Beyond what the host had, of which [H0] and [V0] are the states at the
    construction, it has given the backend one event, and perhaps an adapter, a
    session on it, the library and the permit's session. *)
Record holds (H0 : HostState) (V0 : WfpState) b : Prop := {
  ho_event : (wb_interrupt_event b ∉ hs_events H0) /\ hs_events (hs b) = {[wb_interrupt_event b]} ∪ hs_events H0;
  ho_adapter : if wb_adapter b =? 0 then hs_adapters (hs b) = hs_adapters H0 /\ wb_luid b = 0
               else wb_luid b <> 0 /\ hs_adapters H0 !! wb_adapter b = None /\ exists removes,
                 hs_adapters (hs b) = <[wb_adapter b := (wb_luid b, removes)]> (hs_adapters H0);
  ho_session : if wb_session b =? 0 then hs_sessions (hs b) = hs_sessions H0
               else wb_adapter b <> 0 /\ (wb_session b ∉ hs_sessions H0) /\
                 hs_sessions (hs b) = {[wb_session b]} ∪ hs_sessions H0;
  ho_library : hs_libraries (hs b) = hs_libraries H0 + if wb_module b =? 0 then 0 else 1;
  ho_lent : hs_lent (hs b) = hs_lent H0;
  ho_permit : if wb_tunnel_policy_session b =? 0 then ws_engines (wfp_state (wb_host b)) = ws_engines V0
              else ws_engines V0 !! wb_tunnel_policy_session b = None /\
                ws_transactions V0 !! wb_tunnel_policy_session b = None /\
                ws_engines (wfp_state (wb_host b)) = <[wb_tunnel_policy_session b := true]> (ws_engines V0);
  ho_transactions : ws_transactions (wfp_state (wb_host b)) = ws_transactions V0;
  ho_allocated : ws_allocated (wfp_state (wb_host b)) = ws_allocated V0;
  ho_keys : unique_keys (ws_policy (wfp_state (wb_host b)))
}.

Lemma holds_coherent H0 V0 b : holds H0 V0 b -> coherent b.
Proof.
  intros Hh. pose proof (ho_adapter _ _ _ Hh) as Ha. pose proof (ho_session _ _ _ Hh) as Hs. unfold coherent.
  destruct (wb_adapter b =? 0) eqn:Ea.
  - destruct Ha as [_ Hl]. split; [|exact Hl]. destruct (wb_session b =? 0) eqn:Es; [apply Z.eqb_eq, Es|].
    destruct Hs as [Hs _]. apply Z.eqb_eq in Ea. contradiction.
  - destruct Ha as (Hl & _ & removes & ->). split; [exact Hl|]. exists removes. apply lookup_insert_eq.
Qed.

Lemma holds_stays H0 V0 b s b' : holds H0 V0 b -> stays b s b' -> same_resources (hs b) s -> holds H0 V0 b'.
Proof.
  intros [? ? ? ? ? ? ? ? ?] (w & -> & Eh & Ew) (E1 & E2 & E3 & E4 & E5).
  constructor; cbn [wb_host wb_module wb_interrupt_event wb_adapter wb_session wb_luid wb_tunnel_policy_session with_host];
    rewrite ?hs_with_host, ?Eh, ?Ew, ?E1, ?E2, ?E3, ?E4, ?E5; assumption.
Qed.

Lemma holds_open H0 V0 b : holds H0 V0 b -> holds H0 V0 (open_adapter b).2.
Proof.
  intros Hh. pose proof (holds_coherent _ _ _ Hh) as Hco. pose proof (open_adapter_spec b Hco) as Ho.
  destruct (open_adapter b) as [[[]|e] b1]; cbn [snd].
  - destruct Ho as [[_ ->]|(Ea & m & a & luid & removes & s & Hm & Ha & Hlu & Hn & Hop & w & -> & Hc & Hw)]; [exact Hh|].
    assert (Hr : same_resources (hs b) s).
    { unfold opened in Hop. destruct removes; subst s || rewrite <- Hop; repeat split. }
    destruct Hr as (E1 & E2 & E3 & E4 & E5). destruct Hh as [A1 A2 A3 A4 A5 A6 A7 A8 A9].
    pose proof Ea as Eb. apply Z.eqb_eq in Eb. rewrite Eb in A2. destruct A2 as [A2 _].
    constructor; unfold hs; cbn [wb_host wb_module wb_interrupt_event wb_adapter wb_session wb_luid wb_tunnel_policy_session
      with_host set_luid set_adapter set_module]; rewrite ?Hc, ?Hw; unfold loaded;
      cbn [hs_events hs_adapters hs_sessions hs_libraries hs_lent with_libraries with_adapters]; rewrite ?E1, ?E2, ?E3, ?E4, ?E5; try assumption.
    + apply Z.eqb_neq in Ha. rewrite Ha. split; [exact Hlu|]. rewrite <- A2. split; [exact Hn|]. exists removes. reflexivity.
    + destruct (wb_session b =? 0); [exact A3|]. destruct A3 as (? & _). contradiction.
    + rewrite A4. apply Z.eqb_neq in Hm. rewrite Hm. destruct (wb_module b =? 0); lia.
  - destruct Ho as (Ea & m & w & -> & Hc & Hw). destruct Hh as [A1 A2 A3 A4 A5 A6 A7 A8 A9].
    constructor; unfold hs; cbn [wb_host wb_module wb_interrupt_event wb_adapter wb_session wb_luid wb_tunnel_policy_session
      with_host set_module]; rewrite ?Hc, ?Hw; unfold loaded;
      cbn [hs_events hs_adapters hs_sessions hs_libraries hs_lent with_libraries]; try assumption. rewrite A4. lia.
Qed.

Lemma holds_start H0 V0 b : holds H0 V0 b -> holds H0 V0 (start_packet_session b).2.
Proof.
  intros Hh. pose proof (start_session_spec b) as Hs. destruct (start_packet_session b) as [[[]|e] b1]; cbn [snd].
  - destruct Hs as (Ha & Es & h & Hh0 & Hn & w & -> & Hc & Hw). destruct Hh as [A1 A2 A3 A4 A5 A6 A7 A8 A9].
    apply Z.eqb_eq in Es. rewrite Es in A3.
    constructor; unfold hs; cbn [wb_host wb_module wb_interrupt_event wb_adapter wb_session wb_luid wb_tunnel_policy_session
      with_host set_session]; rewrite ?Hc, ?Hw; cbn [hs_events hs_adapters hs_sessions hs_libraries hs_lent with_sessions]; try assumption.
    apply Z.eqb_neq in Hh0. rewrite Hh0, <- A3. auto.
  - eapply holds_stays; [exact Hh|exact Hs|apply same_resources_refl].
Qed.

Lemma holds_stop H0 V0 b : holds H0 V0 b -> holds H0 V0 (stop_packet_session b).
Proof.
  intros Hh. destruct (stop_session_spec b) as (w & -> & Hc & Hw). destruct Hh as [A1 A2 A3 A4 A5 A6 A7 A8 A9].
  assert (Er : hs_events (host_state w) = hs_events (hs b) /\ hs_adapters (host_state w) = hs_adapters (hs b) /\
    hs_libraries (host_state w) = hs_libraries (hs b) /\ hs_lent (host_state w) = hs_lent (hs b))
    by (rewrite Hc; unfold session_ended; destruct (wb_session b =? 0); auto).
  destruct Er as (E1 & E2 & E3 & E4).
  constructor; unfold hs in *; cbn [wb_host wb_module wb_interrupt_event wb_adapter wb_session wb_luid wb_tunnel_policy_session
    with_host set_session]; rewrite ?E1, ?E2, ?E3, ?E4, ?Hw; try assumption.
  change (0 =? 0) with true. cbv iota. rewrite Hc. unfold session_ended. destruct (wb_session b =? 0); [exact A3|].
  destruct A3 as (_ & Hn & ->). cbn [hs_sessions with_sessions]. apply take_back, Hn.
Qed.

Lemma holds_close H0 V0 b : holds H0 V0 b -> holds H0 V0 (close_adapter b).
Proof.
  intros Hh. unfold close_adapter. pose proof (holds_stop _ _ _ Hh) as Hs.
  assert (Es : wb_session (stop_packet_session b) = 0) by (destruct (stop_session_spec b) as (w & -> & _); reflexivity).
  set (b1 := stop_packet_session b) in *. destruct (wb_adapter b1 =? 0) eqn:Ea; cbn [negb].
  - replace (set_luid 0 b1) with b1; [exact Hs|]. pose proof (ho_adapter _ _ _ Hs) as Ha. rewrite Ea in Ha. destruct Ha as [_ El].
    destruct b1. cbn in *. subst. reflexivity.
  - pose proof (ho_adapter _ _ _ Hs) as Ha. rewrite Ea in Ha. destruct Ha as (Hl & Hn & removes & Eads).
    set (w := WintunCloseAdapter (wb_adapter b1) (wb_host b1)).
    assert (Hw : wfp_state w = wfp_state (wb_host b1)) by (apply law_host_call; constructor).
    assert (Hc : host_state w = with_adapters (hs_adapters H0) (if removes then drop_interface (wb_luid b1) (hs b1) else hs b1)).
    { unfold w. rewrite (law_close_adapter _ _ (wb_luid b1) removes); unfold hs in *; rewrite Eads; [|apply lookup_insert_eq].
      rewrite delete_insert_id by exact Hn. reflexivity. }
    assert (Er : hs_events (host_state w) = hs_events (hs b1) /\ hs_sessions (host_state w) = hs_sessions (hs b1) /\
      hs_libraries (host_state w) = hs_libraries (hs b1) /\ hs_lent (host_state w) = hs_lent (hs b1) /\
      hs_adapters (host_state w) = hs_adapters H0) by (rewrite Hc; destruct removes; auto 6).
    destruct Er as (E1 & E2 & E3 & E4 & E5). destruct Hs as [A1 A2 A3 A4 A5 A6 A7 A8 A9].
    constructor; unfold hs, on_host in *; cbn [wb_host wb_module wb_interrupt_event wb_adapter wb_session wb_luid wb_tunnel_policy_session
      with_host set_luid set_adapter]; fold w; rewrite ?E1, ?E2, ?E3, ?E4, ?E5, ?Hw; try assumption.
    + change (0 =? 0) with true. cbv iota. split; [first [exact E5|reflexivity]|reflexivity].
    + rewrite Es in *. exact A3.
Qed.

(** The platform without the old permit, after the policy has been replaced. *)
Lemma holds_without_permit H0 V0 b p w1 :
  holds H0 V0 b -> unique_keys p -> settles (wfp_state (wb_host b)) p w1 ->
  let s := without_permit (wb_tunnel_policy_session b) (wfp_state w1) in
  ws_engines s = ws_engines V0 /\ ws_transactions s = ws_transactions V0 /\ ws_allocated s = ws_allocated V0 /\
  unique_keys (ws_policy s).
Proof.
  intros [A1 A2 A3 A4 A5 A6 A7 A8 A9] Hu [en E] s. assert (Hk : unique_keys (ws_policy s)).
  { apply without_permit_keys. rewrite E. exact Hu. }
  unfold s, without_permit in *. destruct (wb_tunnel_policy_session b =? 0).
  - rewrite E in *. cbn in *. auto.
  - destruct A6 as (Hn & Ht & Hen). unfold closed_session in *. rewrite E in *. cbn in *. rewrite Hen, A7.
    rewrite delete_insert_id by exact Hn. rewrite delete_id by exact Ht. auto.
Qed.

(** The resources of the host are those of [b]; the platform has changed. *)
Lemma holds_protected H0 V0 b R b' :
  holds H0 V0 b -> only_routes b R b' ->
  (if wb_tunnel_policy_session b' =? 0 then ws_engines (wfp_state (wb_host b')) = ws_engines V0
   else ws_engines V0 !! wb_tunnel_policy_session b' = None /\ ws_transactions V0 !! wb_tunnel_policy_session b' = None /\
     ws_engines (wfp_state (wb_host b')) = <[wb_tunnel_policy_session b' := true]> (ws_engines V0)) ->
  ws_transactions (wfp_state (wb_host b')) = ws_transactions V0 -> ws_allocated (wfp_state (wb_host b')) = ws_allocated V0 ->
  unique_keys (ws_policy (wfp_state (wb_host b'))) -> holds H0 V0 b'.
Proof.
  intros [A1 A2 A3 A4 A5 A6 A7 A8 A9] (w & E & Eh) Hp Ht Hal Hu.
  assert (Hw : wb_host b' = w) by (rewrite E; reflexivity). rewrite Hw in *.
  constructor; unfold hs in *; rewrite ?Hw; rewrite ?Eh; try assumption; rewrite E;
    cbn [wb_host wb_module wb_interrupt_event wb_adapter wb_session wb_luid with_host set_tunnel_policy_session];
    cbn [hs_events hs_adapters hs_sessions hs_libraries hs_lent with_routes]; assumption.
Qed.

Lemma policy_step_keys endpoints w w1 : unique_keys (ws_policy (wfp_state w)) -> policy_step endpoints w w1 ->
  exists p, unique_keys p /\ settles (wfp_state w) p w1.
Proof. intros Hu [H|(p & _ & Hp & H)]; eauto. Qed.

Lemma holds_protect H0 V0 fuel endpoints b :
  holds H0 V0 b -> (length (owned_keys (ws_policy (wfp_state (wb_host b)))) < fuel)%nat ->
  holds H0 V0 (protect fuel endpoints b).2.
Proof.
  intros Hh Hf. pose proof (protect_spec fuel endpoints b (ho_keys _ _ _ Hh) Hf) as H.
  destruct (protect fuel endpoints b) as [[r|e] b']; destruct H as (R & Hor & _ & H); cbn [snd].
  - destruct H as (_ & w1 & p & index & _ & Hu & Hs & _ & _ & Hperm & _).
    destruct (holds_without_permit _ _ _ _ _ Hh Hu Hs) as (E1 & E2 & E3 & _).
    destruct Hperm as (Hnew & Hne & Hnt & p' & en & _ & Hu' & E). rewrite E1 in Hne. rewrite E2 in Hnt.
    apply (holds_protected H0 V0 b R b' Hh Hor); rewrite E; cbn; rewrite ?E1, ?E2, ?E3; auto.
    apply Z.eqb_neq in Hnew. rewrite Hnew. auto.
  - destruct H as (w1 & Hst & H). destruct (policy_step_keys _ _ _ (ho_keys _ _ _ Hh) Hst) as (p & Hu & Hs).
    destruct H as [[Ep Ew]|[Ep Hs']].
    + destruct Hs as [en E]. pose proof Hh as [A1 A2 A3 A4 A5 A6 A7 A8 A9].
      apply (holds_protected H0 V0 b R b' Hh Hor); rewrite ?Ep, Ew, E; assumption.
    + destruct (holds_without_permit _ _ _ _ _ Hh Hu Hs) as (E1 & E2 & E3 & Hk). destruct Hs' as [en E].
      apply (holds_protected H0 V0 b R b' Hh Hor); rewrite ?Ep, ?E; cbn; auto.
Qed.

(** What may be done with a backend, whatever it returns or throws. *)
Inductive backend_step : relation (WindowsNetworkBackend W) :=
| step_open b : backend_step b (open_adapter b).2
| step_start b : backend_step b (start_packet_session b).2
| step_address a b : backend_step b (add_interface_address a b).2
| step_address_v6 a b : backend_step b (add_interface_address_v6 a b).2
| step_mtu mtu b : backend_step b (set_interface_mtu mtu b).2
| step_route r b : backend_step b (add_route r b).2
| step_remove_route r b : backend_step b (remove_route r b)
| step_restore_mtu m b : backend_step b (restore_interface_mtu m b)
| step_remove_address a b : backend_step b (remove_interface_address a b)
| step_remove_address_v6 a b : backend_step b (remove_interface_address_v6 a b)
| step_stop b : backend_step b (stop_packet_session b)
| step_close b : backend_step b (close_adapter b)
| step_receive fuel b : backend_step b (receive_packet fuel b).2
| step_interrupt b : backend_step b (interrupt_receive b)
| step_send packet b : backend_step b (send_packet packet b).2
| step_kill_switch fuel endpoints b :
    (length (owned_keys (ws_policy (wfp_state (wb_host b)))) < fuel)%nat ->
    backend_step b (enable_kill_switch fuel endpoints b).2.

Lemma holds_step H0 V0 b b' : backend_step b b' -> holds H0 V0 b -> holds H0 V0 b'.
Proof.
  assert (Hharm : forall A (m : M (WindowsNetworkBackend W) A) b, harmless m -> holds H0 V0 b -> holds H0 V0 (m b).2).
  { intros A m b0 Hm Hh. destruct (Hm b0) as (s & Hs & Hr). eapply holds_stays; eassumption. }
  assert (Hundo : forall f b, harmless_undo f -> holds H0 V0 b -> holds H0 V0 (f b)).
  { intros f b0 Hm Hh. destruct (Hm b0) as (s & Hs & Hr). eapply holds_stays; eassumption. }
  destruct 1 as [b|b|a b|a b|mtu b|r b|r b|m b|a b|a b|b|b|fuel b|b|packet b|fuel endpoints b Hf]; intros Hh.
  - apply holds_open, Hh.
  - apply holds_start, Hh.
  - apply Hharm; [apply (harmless_setup a (mkIpv6InterfaceAddress [] 0) 0 (RouteV4 (mkIpv4Route [] 0 [])))|exact Hh].
  - apply Hharm; [apply (harmless_setup (mkInterfaceAddress [] 0) a 0 (RouteV4 (mkIpv4Route [] 0 [])))|exact Hh].
  - apply Hharm; [apply (harmless_setup (mkInterfaceAddress [] 0) (mkIpv6InterfaceAddress [] 0) mtu (RouteV4 (mkIpv4Route [] 0 [])))|exact Hh].
  - apply Hharm; [apply (harmless_setup (mkInterfaceAddress [] 0) (mkIpv6InterfaceAddress [] 0) 0 r)|exact Hh].
  - apply Hundo; [apply (harmless_undos (mkInterfaceAddress [] 0) (mkIpv6InterfaceAddress [] 0) (mkMtuSnapshot 0 0) r)|exact Hh].
  - apply Hundo; [apply (harmless_undos (mkInterfaceAddress [] 0) (mkIpv6InterfaceAddress [] 0) m (RouteV4 (mkIpv4Route [] 0 [])))|exact Hh].
  - apply Hundo; [apply (harmless_undos a (mkIpv6InterfaceAddress [] 0) (mkMtuSnapshot 0 0) (RouteV4 (mkIpv4Route [] 0 [])))|exact Hh].
  - apply Hundo; [apply (harmless_undos (mkInterfaceAddress [] 0) a (mkMtuSnapshot 0 0) (RouteV4 (mkIpv4Route [] 0 [])))|exact Hh].
  - apply holds_stop, Hh.
  - apply holds_close, Hh.
  - eapply holds_stays; [exact Hh|apply receive_packet_spec|apply same_resources_refl].
  - eapply holds_stays; [exact Hh|apply interrupt_spec|apply same_resources_refl].
  - eapply holds_stays; [exact Hh|apply send_packet_spec|apply same_resources_refl].
  - pose proof (open_adapter_wfp b (holds_coherent _ _ _ Hh)) as [Ew _]. pose proof (holds_open _ _ _ Hh) as Ho.
    rewrite enable_kill_switch_eq. destruct (open_adapter b) as [[[]|e] b1]; [|exact Ho]. apply holds_protect; [exact Ho|].
    cbn [snd] in Ew. rewrite Ew. exact Hf.
Qed.

Lemma construct_holds name w b w' :
  unique_keys (ws_policy (wfp_state w)) -> construct name w = (Ok b, w') -> holds (host_state w) (wfp_state w) b.
Proof.
  intros Hu E. unfold construct in E. unfold bind at 1, lift in E. destruct (reject_if _ _) as [[]|?]; [|discriminate].
  unfold bind at 1, api in E. destruct (CreateEventW w) as [e w1] eqn:Ee. pose proof (law_event _ _ _ Ee) as El.
  assert (Hw : wfp_state w1 = wfp_state w) by (apply law_host_call; change w1 with (e, w1).2; rewrite <- Ee; constructor).
  unfold bind, get in E. destruct (e =? 0); [discriminate|]. injection E as <- <-. destruct El as [Hn El].
  constructor; unfold hs; cbn [wb_host wb_module wb_interrupt_event wb_adapter wb_session wb_luid wb_tunnel_policy_session];
    rewrite ?El, ?Hw; cbn; auto. symmetry. apply Z.add_0_r.
Qed.

(** After the destructor the host and the platform have everything back. *)
Lemma destroy_releases H0 V0 b : holds H0 V0 b ->
  same_resources H0 (host_state (destroy b)) /\ ws_engines (wfp_state (destroy b)) = ws_engines V0 /\
  ws_transactions (wfp_state (destroy b)) = ws_transactions V0 /\ ws_allocated (wfp_state (destroy b)) = ws_allocated V0.
Proof.
  intros Hh. unfold destroy.
  assert (Hp : holds H0 V0 (close_permit b) /\ wb_tunnel_policy_session (close_permit b) = 0).
  { unfold close_permit. destruct (close_permit_spec (wb_tunnel_policy_session b) (wb_host b)) as (w & E & Ew).
    pose proof (unmoved_close (wb_tunnel_policy_session b) (wb_host b)) as Hk. rewrite E in Hk |- *. cbn [snd] in Hk.
    split; [|reflexivity]. change (wfp_state w = without_permit (wb_tunnel_policy_session b) (wfp_state (wb_host b))) in Ew.
    destruct (holds_without_permit _ _ _ _ (wb_host b) Hh (ho_keys _ _ _ Hh) (settles_refl _)) as (E1 & E2 & E3 & Hu).
    rewrite <- Ew in E1, E2, E3, Hu. apply (holds_protected H0 V0 b (routes (wb_host b))); auto.
    exists w. split; [reflexivity|]. rewrite Hk. symmetry. apply routes_same. }
  destruct Hp as [Hp Ep]. pose proof (holds_close _ _ _ (holds_stop _ _ _ Hp)) as Hc. set (b1 := close_permit b) in *.
  assert (Ea : wb_adapter (close_adapter (stop_packet_session b1)) = 0 /\ wb_session (close_adapter (stop_packet_session b1)) = 0 /\
    wb_tunnel_policy_session (close_adapter (stop_packet_session b1)) = 0).
  { destruct (stop_session_spec b1) as (w2 & E2 & _).
    destruct (close_adapter_spec (stop_packet_session b1)) as (w3 & E3 & _).
    - intros Ha. pose proof (ho_adapter _ _ _ (holds_stop _ _ _ Hp)) as Had. apply Z.eqb_neq in Ha. rewrite Ha in Had.
      destruct Had as (_ & _ & removes & ->). rewrite lookup_insert_eq. eauto.
    - rewrite E3. cbn. rewrite E2. cbn. rewrite Ep. auto. }
  destruct Ea as (Ea & Es & Ep'). set (b2 := close_adapter (stop_packet_session b1)) in *. clearbody b2.
  pose proof Hc as [A1 A2 A3 A4 A5 A6 A7 A8 A9]. rewrite Ea in A2. rewrite Es in A3. rewrite Ep' in A6. change (0 =? 0) with true in *.
  cbv iota in *. destruct A1 as [Hn A1].
  set (b3 := if negb (wb_module b2 =? 0) then on_host (FreeLibrary (wb_module b2)) b2 else b2).
  assert (H3 : wb_interrupt_event b3 = wb_interrupt_event b2 /\ wfp_state (wb_host b3) = wfp_state (wb_host b2) /\
    host_state (wb_host b3) = with_libraries (hs_libraries H0) (hs b2)).
  { unfold b3. destruct (wb_module b2 =? 0); cbn [negb].
    - rewrite Z.add_0_r in A4. rewrite <- A4, with_libraries_same. auto.
    - split; [reflexivity|]. split; [apply law_host_call; constructor|]. unfold on_host, hs in *. cbn. rewrite law_free_library.
      rewrite A4, Z.add_simpl_r. reflexivity. }
  destruct H3 as (-> & Ew & Eh).
  assert (Ew' : wfp_state (CloseHandle (wb_interrupt_event b2) (wb_host b3)) = wfp_state (wb_host b2))
    by (rewrite <- Ew; apply law_host_call; constructor).
  rewrite Ew', law_close_handle, Eh. split; [|auto]. unfold same_resources. cbn. rewrite A1, A3, A5. destruct A2 as [-> _].
  rewrite take_back by exact Hn. auto.
Qed.

(** C37: The Windows backend gives back what it takes.  Whatever is done with a
    backend after its construction, in any order, and however it ends, between
    two calls no table and no packet buffer of the host is held; and after its
    destruction the open adapters, packet sessions, events, loaded libraries
    and sessions of the filtering platform are those from before its
    construction: so is the permit for the tunnel gone. *)
Theorem backend_gives_back name w b0 w' b :
  unique_keys (ws_policy (wfp_state w)) -> construct name w = (Ok b0, w') -> rtc backend_step b0 b ->
  hs_lent (hs b) = hs_lent (host_state w) /\
  same_resources (host_state w) (host_state (destroy b)) /\
  ws_engines (wfp_state (destroy b)) = ws_engines (wfp_state w) /\
  ws_transactions (wfp_state (destroy b)) = ws_transactions (wfp_state w) /\
  ws_allocated (wfp_state (destroy b)) = ws_allocated (wfp_state w).
Proof.
  intros Hu E Hr. apply (construct_holds _ _ _ _ Hu) in E. assert (Hh : holds (host_state w) (wfp_state w) b).
  { induction Hr as [b|b b1 b2 Hs _ IH]; [exact E|]. apply IH. eapply holds_step; eassumption. }
  split; [apply (ho_lent _ _ _ Hh)|]. apply destroy_releases, Hh.
Qed.
End Resources.

(** ** A machine *)

(** A host without an adapter of its own name, whose adding calls fail when
    their number is used up; it shows that the laws can hold. *)
Module Machine.
Import Platform.
Record Machine := mkMachine { mc_host : HostState; mc_fuse : nat; mc_wfp : World }.
Definition with_mc_host (s : HostState) (m : Machine) : Machine := mkMachine s (mc_fuse m) (mc_wfp m).

(** The filtering platform is that of WindowsKillSwitch.v. *)
Definition lifted {A} (f : World -> A * World) (m : Machine) : A * Machine :=
  let '(a, w) := f (mc_wfp m) in (a, mkMachine (mc_host m) (mc_fuse m) w).
#[export] Instance machine_wfp : Wfp Machine := {
  FWP_E_PROVIDER_NOT_FOUND := FWP_E_PROVIDER_NOT_FOUND (W := World);
  FWP_E_SUBLAYER_NOT_FOUND := FWP_E_SUBLAYER_NOT_FOUND (W := World);
  FWP_E_FILTER_NOT_FOUND := FWP_E_FILTER_NOT_FOUND (W := World);
  FwpmEngineOpen0 flags := lifted (FwpmEngineOpen0 flags);
  FwpmEngineClose0 h := lifted (FwpmEngineClose0 h);
  FwpmTransactionBegin0 h := lifted (FwpmTransactionBegin0 h);
  FwpmTransactionAbort0 h := lifted (FwpmTransactionAbort0 h);
  FwpmTransactionCommit0 h := lifted (FwpmTransactionCommit0 h);
  FwpmProviderGetByKey0 h key := lifted (FwpmProviderGetByKey0 h key);
  FwpmProviderAdd0 h x := lifted (FwpmProviderAdd0 h x);
  FwpmProviderDeleteByKey0 h key := lifted (FwpmProviderDeleteByKey0 h key);
  FwpmSubLayerGetByKey0 h key := lifted (FwpmSubLayerGetByKey0 h key);
  FwpmSubLayerAdd0 h x := lifted (FwpmSubLayerAdd0 h x);
  FwpmSubLayerDeleteByKey0 h key := lifted (FwpmSubLayerDeleteByKey0 h key);
  FwpmFilterCreateEnumHandle0 h key flags := lifted (FwpmFilterCreateEnumHandle0 h key flags);
  FwpmFilterEnum0 h e n := lifted (FwpmFilterEnum0 h e n);
  FwpmFilterDestroyEnumHandle0 h e := lifted (FwpmFilterDestroyEnumHandle0 h e);
  FwpmFilterAdd0 h f := lifted (FwpmFilterAdd0 h f);
  FwpmFilterDeleteByKey0 h key := lifted (FwpmFilterDeleteByKey0 h key);
  FwpmFreeMemory0 m := mkMachine (mc_host m) (mc_fuse m) (FwpmFreeMemory0 (mc_wfp m))
}.

Ltac lift_law f law :=
  match goal with E : _ = (_, ?m') |- _ => match type of m' with Machine =>
    match type of E with ?lhs = ?rhs => match lhs with context [?m] => match type of m with Machine =>
      change (lifted f m = rhs) in E; unfold lifted in E; let Ew := fresh "Ew" in destruct (f (mc_wfp m)) eqn:Ew;
      injection E; intros; subst; cbn [mc_wfp]; eapply law; eassumption end end end end end.
#[export] Program Instance machine_wfp_laws : WfpLaws Machine := { wfp_state m := wfp_state (mc_wfp m) }.
Next Obligation. exact (law_codes (W := World)). Qed.
Next Obligation. intros flags m code h m' E. lift_law (FwpmEngineOpen0 (W := World) flags) (law_open (W := World)). Qed.
Next Obligation. intros h m code m' E. lift_law (FwpmEngineClose0 (W := World) h) (law_close (W := World)). Qed.
Next Obligation. intros h m code m' E. lift_law (FwpmTransactionBegin0 (W := World) h) (law_begin (W := World)). Qed.
Next Obligation. intros h m code m' E. lift_law (FwpmTransactionAbort0 (W := World) h) (law_abort (W := World)). Qed.
Next Obligation. intros h m p code m' E Hp. lift_law (FwpmTransactionCommit0 (W := World) h) (law_commit (W := World)). Qed.
Next Obligation. intros h m p code flags m' E Hp. lift_law (FwpmProviderGetByKey0 (W := World) h kProviderKey) (law_get_provider (W := World)). Qed.
Next Obligation. intros h flags m code m' E. lift_law (FwpmProviderAdd0 (W := World) h (mkProvider kProviderKey flags)) (law_add_provider (W := World)). Qed.
Next Obligation. intros h m p code m' E Hp. lift_law (FwpmProviderDeleteByKey0 (W := World) h kProviderKey) (law_delete_provider (W := World)). Qed.
Next Obligation. intros h m p code x m' E Hp. lift_law (FwpmSubLayerGetByKey0 (W := World) h kSubLayerKey) (law_get_sublayer (W := World)). Qed.
Next Obligation. intros h sl m code m' E Hp. lift_law (FwpmSubLayerAdd0 (W := World) h sl) (law_add_sublayer (W := World)). Qed.
Next Obligation. intros h m p code m' E Hp. lift_law (FwpmSubLayerDeleteByKey0 (W := World) h kSubLayerKey) (law_delete_sublayer (W := World)). Qed.
Next Obligation.
  intros h m p code e m' E Hp.
  lift_law (FwpmFilterCreateEnumHandle0 (W := World) h kProviderKey kIncludeBootTimeFilters) (law_enumerate (W := World)).
Qed.
Next Obligation. intros h e n m keys code batch m' E Hn Hk. lift_law (FwpmFilterEnum0 (W := World) h e n) (law_enum (W := World)). Qed.
Next Obligation. intros h e m code m' E. lift_law (FwpmFilterDestroyEnumHandle0 (W := World) h e) (law_destroy (W := World)). Qed.
Next Obligation. intros h f m code m' E. lift_law (FwpmFilterAdd0 (W := World) h f) (law_add_filter (W := World)). Qed.
Next Obligation. intros h key m p code m' E Hp. lift_law (FwpmFilterDeleteByKey0 (W := World) h key) (law_delete_filter (W := World)). Qed.
Next Obligation. intros m. apply (law_free (W := World)). Qed.

Definition put_host (s : HostState) (m : Machine) : Machine := with_mc_host s m.
Definition same_machine {A} (a : A) (m : Machine) : A * Machine := (a, m).
(** An adding call: refused when no more are left. *)
Definition adding (f : HostState -> Z * HostState) (m : Machine) : Z * Machine :=
  match mc_fuse m with
  | O => (5, m)
  | S n => let '(c, s) := f (mc_host m) in (c, mkMachine s n (mc_wfp m))
  end.
Definition luids (s : HostState) : list Z :=
  map fw_luid (hs_routes s) ++ map ua_luid (hs_addresses s) ++ map (fun x => x.1.1) (map_to_list (hs_mtus s)).
Definition other_row : MIB_IPFORWARD_ROW2 := mkForward 1 AF_INET (zeros 4) 0 [192; 168; 1; 1] 0 25 3.

#[export] Instance machine_host : WindowsHost Machine := {
  GetLastError m := ERROR_NO_MORE_ITEMS;
  CreateEventW m := let e := above (elements (hs_events (mc_host m))) in
    (e, put_host (with_events ({[e]} ∪ hs_events (mc_host m)) (mc_host m)) m);
  CloseHandle h m := put_host (with_events (hs_events (mc_host m) ∖ {[h]}) (mc_host m)) m;
  SetEvent e m := m;
  ResetEvent e m := m;
  WaitForMultipleObjects es := same_machine WAIT_OBJECT_0;
  LoadLibraryExW n m := (1, put_host (with_libraries (hs_libraries (mc_host m) + 1) (mc_host m)) m);
  GetProcAddress mo n := same_machine 1;
  FreeLibrary mo m := put_host (with_libraries (hs_libraries (mc_host m) - 1) (mc_host m)) m;
  WintunOpenAdapter n := same_machine 0;
  WintunCreateAdapter n t m :=
    let s := mc_host m in let a := above (map fst (map_to_list (hs_adapters s))) in let l := above (luids s) in
    (a, put_host (with_adapters (<[a := (l, true)]> (hs_adapters s))
          (with_mtus (<[(l, AF_INET6) := 65535]> (<[(l, AF_INET) := 65535]> (hs_mtus s))) s)) m);
  WintunCloseAdapter a m := put_host (close_effect a (mc_host m)) m;
  WintunGetAdapterLUID a m := (match hs_adapters (mc_host m) !! a with Some (l, _) => l | None => 0 end, m);
  WintunStartSession a c m := let h := above (elements (hs_sessions (mc_host m))) in
    (h, put_host (with_sessions ({[h]} ∪ hs_sessions (mc_host m)) (mc_host m)) m);
  WintunEndSession h m := put_host (with_sessions (hs_sessions (mc_host m) ∖ {[h]}) (mc_host m)) m;
  WintunGetReadWaitEvent h := same_machine 2;
  WintunReceivePacket h m := ((1, [69; 0]), put_host (with_lent (hs_lent (mc_host m) + 1) (mc_host m)) m);
  WintunReleaseReceivePacket h p m := put_host (with_lent (hs_lent (mc_host m) - 1) (mc_host m)) m;
  WintunAllocateSendPacket h n m := (1, put_host (with_lent (hs_lent (mc_host m) + 1) (mc_host m)) m);
  WintunSendPacket h d p m := put_host (with_lent (hs_lent (mc_host m) - 1) (mc_host m)) m;
  CreateUnicastIpAddressEntry r := adding (fun s =>
    if decide (row_key r ∈ map row_key (hs_addresses s)) then (ERROR_OBJECT_ALREADY_EXISTS, s)
    else (0, with_addresses (hs_addresses s ++ [r]) s));
  DeleteUnicastIpAddressEntry r m :=
    if decide (row_key r ∈ map row_key (hs_addresses (mc_host m)))
    then (0, put_host (with_addresses (without_address r (hs_addresses (mc_host m))) (mc_host m)) m) else (ERROR_NOT_FOUND, m);
  CreateIpForwardEntry2 r := adding (fun s =>
    if decide (route_key r ∈ map route_key (hs_routes s)) then (ERROR_OBJECT_ALREADY_EXISTS, s)
    else (0, with_routes (hs_routes s ++ [r]) s));
  DeleteIpForwardEntry2 r m :=
    if decide (route_key r ∈ map route_key (hs_routes (mc_host m)))
    then (0, put_host (with_routes (without_route r (hs_routes (mc_host m))) (mc_host m)) m) else (ERROR_NOT_FOUND, m);
  FlushIpPathTable f := same_machine 0;
  GetIpInterfaceEntry l f m := match hs_mtus (mc_host m) !! (l, f) with
    | Some mtu => ((0, mkInterface l f mtu), m) | None => ((ERROR_NOT_FOUND, mkInterface l f 0), m) end;
  SetIpInterfaceEntry row m := match hs_mtus (mc_host m) !! (if_luid row, if_family row) with
    | Some _ => (0, put_host (mtu_set (if_luid row) (if_family row) (NlMtu row) (mc_host m)) m) | None => (ERROR_NOT_FOUND, m) end;
  GetIpForwardTable2 f m := ((0, hs_routes (mc_host m)), put_host (with_lent (hs_lent (mc_host m) + 1) (mc_host m)) m);
  FreeMibTable m := put_host (with_lent (hs_lent (mc_host m) - 1) (mc_host m)) m;
  GetBestRoute2 f d := same_machine (0, other_row);
  ConvertInterfaceLuidToIndex l := same_machine (0, l + 10);
  ConvertInterfaceAliasToLuid a := same_machine (ERROR_NOT_FOUND, 0)
}.

Lemma adding_spec f m c m' : adding f m = (c, m') ->
  (c = 5 /\ mc_host m' = mc_host m) \/ f (mc_host m) = (c, mc_host m').
Proof.
  unfold adding. destruct (mc_fuse m); [injection 1 as <- <-; auto|]. destruct (f (mc_host m)) as [d s]. injection 1 as <- <-. auto.
Qed.
Lemma above_fresh (S : gset Z) : (above (elements S) ∉ S) /\ above (elements S) <> 0.
Proof. destruct (above_spec (elements S)) as [H1 H2]. split; [rewrite <- elem_of_elements; exact H2|lia]. Qed.

Lemma luids_fresh s : drop_interface (above (luids s)) s = s.
Proof.
  destruct (above_spec (luids s)) as [_ Hn]. unfold luids in Hn. rewrite !elem_of_app in Hn. apply Decidable.not_or in Hn as [Hr Hn].
  apply Decidable.not_or in Hn as [Ha Hm]. set (l := above _) in *. unfold drop_interface. destruct s as [rs ads ms a se ev li le].
  unfold with_routes, with_addresses, with_mtus. cbn in *. f_equal.
  - apply filter_all. intros x Hx E. apply Hr. apply list_elem_of_fmap. exists x. auto.
  - apply filter_all. intros x Hx E. apply Ha. apply list_elem_of_fmap. exists x. auto.
  - apply map_filter_id. intros [l' f] x Hx E. apply Hm. apply list_elem_of_fmap. exists ((l', f), x). split; [exact (eq_sym E)|].
    apply elem_of_map_to_list, Hx.
Qed.
Lemma luids_mtus s n m : drop_interface (above (luids s))
    (with_mtus (<[(above (luids s), AF_INET6) := n]> (<[(above (luids s), AF_INET) := m]> (hs_mtus s))) s) = s.
Proof.
  pose proof (luids_fresh s) as H. set (l := above _) in *.
  transitivity (drop_interface l s); [|exact H]. unfold drop_interface, with_routes, with_addresses, with_mtus.
  cbn [hs_routes hs_addresses hs_mtus hs_adapters hs_sessions hs_events hs_libraries hs_lent]. f_equal.
  rewrite map_filter_insert_not, map_filter_insert_not; [reflexivity| |]; intros ?; tauto.
Qed.
Lemma adapter_fresh (m : gmap Z (Z * bool)) : m !! above (map fst (map_to_list m)) = None.
Proof.
  destruct (above_spec (map fst (map_to_list m))) as [_ Hn]. apply (lookup_fresh m _ []). rewrite app_nil_r. exact Hn.
Qed.
Lemma above_positive l : above l <> 0.
Proof. destruct (above_spec l) as [H _]. lia. Qed.

#[export] Program Instance machine_laws : WindowsHostLaws Machine := { host_state := mc_host }.
Next Obligation. intros m m' H. destruct H; cbn; unfold same_machine; cbn; try (destruct (hs_mtus _ !! _)); auto. Qed.
Next Obligation.
  intros m m' H. destruct H; cbn; unfold same_machine, adding; cbn; auto;
    try (case_decide; reflexivity); try (destruct (mc_fuse w); [reflexivity|case_decide; reflexivity]).
  destruct (hs_mtus _ !! _); reflexivity.
Qed.
Next Obligation. intros m m' H. destruct H; try reflexivity; cbn; unfold lifted; match goal with |- context [let '(_, _) := ?x in _] => destruct x end; reflexivity. Qed.
Next Obligation.
  intros m e m' E. cbn in E. injection E as <- <-. destruct (above_fresh (hs_events (mc_host m))) as [Hn Hp].
  apply Z.eqb_neq in Hp. rewrite Hp. auto.
Qed.
Next Obligation. reflexivity. Qed.
Next Obligation. intros n m h m' E. cbn in E. injection E as <- <-. reflexivity. Qed.
Next Obligation. reflexivity. Qed.
Next Obligation. intros n m a m' E. cbn in E. injection E as <- <-. reflexivity. Qed.
Next Obligation.
  intros n t m a m' E. cbn in E. injection E as <- <-. pose proof (above_positive (map fst (map_to_list (hs_adapters (mc_host m))))) as Hp.
  apply Z.eqb_neq in Hp. rewrite Hp. split; [apply adapter_fresh|]. eexists _, _. split; [apply luids_mtus|]. reflexivity.
Qed.
Next Obligation. intros a m luid removes H. cbn. unfold close_effect. rewrite H. reflexivity. Qed.
Next Obligation. intros a m luid m' removes l E H. cbn in E. rewrite H in E. injection E as <- <-. reflexivity. Qed.
Next Obligation.
  intros a c m h m' E. cbn in E. injection E as <- <-. destruct (above_fresh (hs_sessions (mc_host m))) as [Hn Hp].
  apply Z.eqb_neq in Hp. rewrite Hp. auto.
Qed.
Next Obligation. reflexivity. Qed.
Next Obligation. intros h m p data m' E. cbn in E. injection E as <- <- <-. reflexivity. Qed.
Next Obligation. reflexivity. Qed.
Next Obligation. intros h n m p m' E. cbn in E. injection E as <- <-. reflexivity. Qed.
Next Obligation. reflexivity. Qed.
Next Obligation.
  intros r m c m' E. apply adding_spec in E as [[-> E]|E]; [exact E|]. case_decide as Hd; injection E as <- <-; cbn; auto.
Qed.
Next Obligation. intros r m c m' E. cbn in E. case_decide; injection E as <- <-; reflexivity. Qed.
Next Obligation.
  intros r m c m' E. apply adding_spec in E as [[-> E]|E]; [cbn; split; [discriminate|exact E]|].
  case_decide as Hd; injection E as <- <-; cbn; auto.
Qed.
Next Obligation. intros r m c m' E. cbn in E. case_decide as Hd; injection E as <- <-; cbn; auto. Qed.
Next Obligation.
  intros l f m c row m' E ->. cbn in E. destruct (hs_mtus (mc_host m) !! (l, f)) as [mtu|] eqn:Em; [|discriminate].
  injection E as <- <-. cbn. auto.
Qed.
Next Obligation. intros row m c m' E. cbn in E. destruct (hs_mtus _ !! _); injection E as <- <-; reflexivity. Qed.
Next Obligation. intros f m c table m' E. cbn in E. injection E as <- <- <-. cbn. split; [reflexivity|]. intros _ r _. reflexivity. Qed.
Next Obligation. reflexivity. Qed.

#[export] Program Instance machine_cooperates : Cooperative Machine := { valid_mtu l f m := True }.
Next Obligation. intros. exact I. Qed.
Next Obligation. intros row m [x Hx] _. cbn. cbn in Hx. rewrite Hx. reflexivity. Qed.
Next Obligation. intros l f m [x Hx]. cbn. cbn in Hx. rewrite Hx. reflexivity. Qed.
Next Obligation. intros r m H. cbn. rewrite decide_True by exact H. reflexivity. Qed.
Next Obligation. intros r m H. cbn. rewrite decide_True by exact H. reflexivity. Qed.
End Machine.

(** ** Examples *)
Module Scenario.
Import Platform Machine.
(** A machine with a default route of its own; adding calls may fail. *)
Definition fresh_machine (fuse : nat) : Machine :=
  mkMachine (mkHost [other_row] [] ∅ ∅ ∅ ∅ 0 0) fuse (mkWfp (mkPolicy None None []) ∅ ∅ ∅ 0, 100%nat).
Definition adapter_name : list Z := [80; 86; 80; 78].
Definition new_backend (fuse : nat) : WindowsNetworkBackend Machine :=
  mkBackend (construct adapter_name (fresh_machine fuse)).2 adapter_name 0 1 0 0 0 0.
Definition server : WindowsVpnEndpoint := mkVpnEndpoint [203; 0; 113; 7; 0; 0; 0; 0; 0; 0; 0; 0; 0; 0; 0; 0] 443 false.

(** The second route cannot be added. *)
Definition failed_activation := @activate one_address_library (WindowsNetworkBackend Machine) windows_backend sample_assignment
  sample_routes (new_backend 3, make_transaction).
Lemma windows_activation_atomic_witness :
  failed_activation.1 = Throw (SystemError 5 "add Wintun route") /\
  hs_routes (hs failed_activation.2.1) = [other_row] /\ hs_mtus (hs failed_activation.2.1) = ∅ /\
  wb_adapter failed_activation.2.1 = 0.
Proof.
  pose proof (@windows_activation_atomic Machine machine_host machine_wfp machine_wfp_laws machine_laws machine_cooperates
    one_address_library sample_assignment sample_routes (new_backend 3) make_transaction) as H.
  forward H. { split; reflexivity. }
  forward H. { repeat split. }
  forward H. { discriminate. }
  unfold failed_activation. destruct (@activate one_address_library (WindowsNetworkBackend Machine) windows_backend sample_assignment
    sample_routes (new_backend 3, make_transaction)) as [r [b' t']] eqn:E.
  assert (Er : r = Throw (SystemError 5 "add Wintun route")).
  { change r with (r, (b', t')).1. rewrite <- E. vm_compute. reflexivity. }
  subst r. cbn [fst snd]. destruct H as (_ & _ & Ha & Hc). split; [reflexivity|]. split; [|split; [|exact Ha]].
  - apply (f_equal hs_routes) in Hc. exact Hc.
  - apply (f_equal hs_mtus) in Hc. exact Hc.
Defined.

Definition protected := enable_kill_switch 10 [server] (new_backend 5).
Lemma kill_switch_precedes_tunnel_witness :
  protected.1 = Ok (Some tt) /\ Exists (bypasses (wb_luid protected.2) server) (routes (wb_host protected.2)) /\
  (disable_kill_switch 20 (wb_host protected.2)).1 = Ok (Some tt).
Proof.
  pose proof (kill_switch_precedes_tunnel 20 [server] (new_backend 5) (wb_host protected.2)) as H.
  forward H. { split; reflexivity. }
  forward H. { constructor. }
  forward H. { vm_compute. repeat constructor. }
  forward H. { apply (bool_decide_unpack _). vm_compute. exact I. }
  forward H. { vm_compute. repeat constructor. }
  destruct H as [H _]. assert (E : enable_kill_switch 20 [server] (new_backend 5) = (Ok (Some tt), protected.2)) by (vm_compute; reflexivity).
  rewrite E in H. destruct H as (_ & _ & _ & (w1 & p & i & _ & _ & _ & _ & _ & _ & _ & Hb) & _).
  split; [vm_compute; reflexivity|]. split; [|vm_compute; reflexivity]. apply Forall_cons in Hb as [Hb _]. exact Hb.
Defined.

(** The adapter is open, a session runs and the kill switch is up. *)
Definition used_backend : WindowsNetworkBackend Machine := (start_packet_session protected.2).2.
Lemma used_from b : (length (owned_keys (ws_policy (wfp_state (wb_host b)))) < 10)%nat ->
  rtc backend_step b (start_packet_session (enable_kill_switch 10 [server] b).2).2.
Proof.
  intros H. eapply rtc_l; [apply (step_kill_switch 10 [server]), H|]. eapply rtc_l; [apply step_start|]. apply rtc_refl.
Qed.
Lemma backend_gives_back_witness :
  wb_adapter used_backend <> 0 /\ wb_session used_backend <> 0 /\ wb_tunnel_policy_session used_backend <> 0 /\
  same_resources (host_state (fresh_machine 5)) (host_state (destroy used_backend)) /\
  ws_engines (wfp_state (destroy used_backend)) = ∅.
Proof.
  destruct (backend_gives_back adapter_name (fresh_machine 5) (new_backend 5) (construct adapter_name (fresh_machine 5)).2 used_backend)
    as (_ & H & He & _).
  - constructor.
  - vm_compute. reflexivity.
  - apply used_from. vm_compute. repeat constructor.
  - split; [vm_compute; discriminate|]. split; [vm_compute; discriminate|]. split; [vm_compute; discriminate|].
    split; [exact H|exact He].
Defined.
End Scenario.
