(* ===== verification/ClientRuntime.v ===== *)
(** * The client's runtime

    Models src/client/client_runtime.cpp and its header: resolving, connecting,
    the life of a tunnel (TunnelClient.v) and of the network it configures
    (NetworkTransaction.v), reconnecting, and stopping.  One thread runs the
    completion handlers and posted calls one at a time; which of them is next,
    and with what result, is the environment's choice, as is what the thread
    that reads the packets does in between. *)
From S2P Require Import KeyFiles ClientConfig WindowsKillSwitch.
From S2P Require Import ClientSession OutboundQueue AsyncIo FrameWriter NetworkTransaction.
From S2P Require Import Prelude Bytes Protocol ControlMessages Address TunnelClient.

Inductive ClientRuntimeState :=
| Stopped | Starting | Resolving | Connecting | ConfiguringNetwork | Connected | Reconnecting | Stopping | Failed.
#[export] Instance ClientRuntimeState_eq_dec : EqDecision ClientRuntimeState.
Proof. solve_decision. Defined.

(** [ClientRuntimeEvent]: a state and a message. *)
Definition ClientRuntimeEvent : Type := ClientRuntimeState * string.

(** [tcp::endpoint] and [WindowsVpnEndpoint]: an address of 4 or 16 bytes with
    its port; and what the kill switch is given of it. *)
Record Endpoint := mkEndpoint { ep_address : bytes; ep_port : Z }.

(** What the runtime uses of a [ClientPacketDevice] besides the network, and
    of a [WindowsNetworkBackend], if it is one. *)
Class PacketDevice (N : Type) := {
  win32 : bool;
  is_windows_backend : bool;
  interrupt_receive : N -> N;
  send_packet : bytes -> M N unit;
  enable_kill_switch : list WindowsVpnEndpoint -> M N unit
}.

(** What the [io_context] still has to run: posted calls, and asynchronous
    operations that have not completed.  A cancelled operation still completes;
    a timer does so with an error, unless its handler was queued already. *)
Inductive task :=
| TkBegin
| TkStop
| TkResolve (generation : Z)
| TkConnect (generation : Z)
| TkDeadline (generation : Z) (cancelled : bool)
| TkReconnect (delay : Z) (cancelled : bool)
| TkTunnel (generation : Z) (e : tunnel_event).

(** Pointers to tunnels are the generations that made them; [rt_tunnels] holds
    the tunnels, which live on while a handler of theirs may still run.
    [rt_packet_thread] is the tunnel of [packet_thread_] while that is joinable
    and [rt_reading_packets] whether it still runs; [rt_stopping] says that a
    call of [stop] has passed its test, and [rt_terminated] that [std::terminate]
    was called.  The 64-bit generation is a [Z]: it grows by two an attempt, and
    attempts are half a second apart. *)
Record ClientRuntime (N : Type) := mkRuntime {
  rt_config : ClientConfig;
  rt_net : N;
  rt_transaction : ClientNetworkTransaction;
  rt_attempt : Z;
  rt_generation : Z;
  rt_work_guard : bool;
  rt_pending_stream : bool;
  rt_tunnel : option Z;
  rt_packet_thread : option Z;
  rt_reading_packets : bool;
  rt_io_thread : bool;
  rt_state : ClientRuntimeState;
  rt_started : bool;
  rt_intentional_stop : bool;
  rt_stop_requested : bool;
  rt_finished : bool;
  rt_failure_message : string;
  rt_events : list ClientRuntimeEvent;
  rt_tasks : list task;
  rt_tunnels : gmap Z TlsTunnelClient;
  rt_stopping : bool;
  rt_terminated : bool
}.
Arguments mkRuntime {N}.
Arguments rt_config {N}.
Arguments rt_net {N}.
Arguments rt_transaction {N}.
Arguments rt_attempt {N}.
Arguments rt_generation {N}.
Arguments rt_work_guard {N}.
Arguments rt_pending_stream {N}.
Arguments rt_tunnel {N}.
Arguments rt_packet_thread {N}.
Arguments rt_reading_packets {N}.
Arguments rt_io_thread {N}.
Arguments rt_state {N}.
Arguments rt_started {N}.
Arguments rt_intentional_stop {N}.
Arguments rt_stop_requested {N}.
Arguments rt_finished {N}.
Arguments rt_failure_message {N}.
Arguments rt_events {N}.
Arguments rt_tasks {N}.
Arguments rt_tunnels {N}.
Arguments rt_stopping {N}.
Arguments rt_terminated {N}.

Section Setters.
Context {N : Type}.
Implicit Types w : ClientRuntime N.

Definition with_net (x : N) w : ClientRuntime N :=
  mkRuntime (rt_config w) x (rt_transaction w) (rt_attempt w) (rt_generation w) (rt_work_guard w)
    (rt_pending_stream w) (rt_tunnel w) (rt_packet_thread w) (rt_reading_packets w) (rt_io_thread w)
    (rt_state w) (rt_started w) (rt_intentional_stop w) (rt_stop_requested w) (rt_finished w)
    (rt_failure_message w) (rt_events w) (rt_tasks w) (rt_tunnels w) (rt_stopping w) (rt_terminated w).
Definition with_transaction (x : ClientNetworkTransaction) w : ClientRuntime N :=
  mkRuntime (rt_config w) (rt_net w) x (rt_attempt w) (rt_generation w) (rt_work_guard w)
    (rt_pending_stream w) (rt_tunnel w) (rt_packet_thread w) (rt_reading_packets w) (rt_io_thread w)
    (rt_state w) (rt_started w) (rt_intentional_stop w) (rt_stop_requested w) (rt_finished w)
    (rt_failure_message w) (rt_events w) (rt_tasks w) (rt_tunnels w) (rt_stopping w) (rt_terminated w).
Definition with_attempt (x : Z) w : ClientRuntime N :=
  mkRuntime (rt_config w) (rt_net w) (rt_transaction w) x (rt_generation w) (rt_work_guard w)
    (rt_pending_stream w) (rt_tunnel w) (rt_packet_thread w) (rt_reading_packets w) (rt_io_thread w)
    (rt_state w) (rt_started w) (rt_intentional_stop w) (rt_stop_requested w) (rt_finished w)
    (rt_failure_message w) (rt_events w) (rt_tasks w) (rt_tunnels w) (rt_stopping w) (rt_terminated w).
Definition with_generation (x : Z) w : ClientRuntime N :=
  mkRuntime (rt_config w) (rt_net w) (rt_transaction w) (rt_attempt w) x (rt_work_guard w)
    (rt_pending_stream w) (rt_tunnel w) (rt_packet_thread w) (rt_reading_packets w) (rt_io_thread w)
    (rt_state w) (rt_started w) (rt_intentional_stop w) (rt_stop_requested w) (rt_finished w)
    (rt_failure_message w) (rt_events w) (rt_tasks w) (rt_tunnels w) (rt_stopping w) (rt_terminated w).
Definition with_work_guard (x : bool) w : ClientRuntime N :=
  mkRuntime (rt_config w) (rt_net w) (rt_transaction w) (rt_attempt w) (rt_generation w) x
    (rt_pending_stream w) (rt_tunnel w) (rt_packet_thread w) (rt_reading_packets w) (rt_io_thread w)
    (rt_state w) (rt_started w) (rt_intentional_stop w) (rt_stop_requested w) (rt_finished w)
    (rt_failure_message w) (rt_events w) (rt_tasks w) (rt_tunnels w) (rt_stopping w) (rt_terminated w).
Definition with_pending_stream (x : bool) w : ClientRuntime N :=
  mkRuntime (rt_config w) (rt_net w) (rt_transaction w) (rt_attempt w) (rt_generation w) (rt_work_guard w) x
    (rt_tunnel w) (rt_packet_thread w) (rt_reading_packets w) (rt_io_thread w) (rt_state w) (rt_started w)
    (rt_intentional_stop w) (rt_stop_requested w) (rt_finished w) (rt_failure_message w) (rt_events w)
    (rt_tasks w) (rt_tunnels w) (rt_stopping w) (rt_terminated w).
Definition with_tunnel (x : option Z) w : ClientRuntime N :=
  mkRuntime (rt_config w) (rt_net w) (rt_transaction w) (rt_attempt w) (rt_generation w) (rt_work_guard w)
    (rt_pending_stream w) x (rt_packet_thread w) (rt_reading_packets w) (rt_io_thread w) (rt_state w)
    (rt_started w) (rt_intentional_stop w) (rt_stop_requested w) (rt_finished w) (rt_failure_message w)
    (rt_events w) (rt_tasks w) (rt_tunnels w) (rt_stopping w) (rt_terminated w).
Definition with_packet_thread (x : option Z) w : ClientRuntime N :=
  mkRuntime (rt_config w) (rt_net w) (rt_transaction w) (rt_attempt w) (rt_generation w) (rt_work_guard w)
    (rt_pending_stream w) (rt_tunnel w) x (rt_reading_packets w) (rt_io_thread w) (rt_state w)
    (rt_started w) (rt_intentional_stop w) (rt_stop_requested w) (rt_finished w) (rt_failure_message w)
    (rt_events w) (rt_tasks w) (rt_tunnels w) (rt_stopping w) (rt_terminated w).
Definition with_reading_packets (x : bool) w : ClientRuntime N :=
  mkRuntime (rt_config w) (rt_net w) (rt_transaction w) (rt_attempt w) (rt_generation w) (rt_work_guard w)
    (rt_pending_stream w) (rt_tunnel w) (rt_packet_thread w) x (rt_io_thread w) (rt_state w) (rt_started w)
    (rt_intentional_stop w) (rt_stop_requested w) (rt_finished w) (rt_failure_message w) (rt_events w)
    (rt_tasks w) (rt_tunnels w) (rt_stopping w) (rt_terminated w).
Definition with_io_thread (x : bool) w : ClientRuntime N :=
  mkRuntime (rt_config w) (rt_net w) (rt_transaction w) (rt_attempt w) (rt_generation w) (rt_work_guard w)
    (rt_pending_stream w) (rt_tunnel w) (rt_packet_thread w) (rt_reading_packets w) x (rt_state w)
    (rt_started w) (rt_intentional_stop w) (rt_stop_requested w) (rt_finished w) (rt_failure_message w)
    (rt_events w) (rt_tasks w) (rt_tunnels w) (rt_stopping w) (rt_terminated w).
Definition with_state (x : ClientRuntimeState) w : ClientRuntime N :=
  mkRuntime (rt_config w) (rt_net w) (rt_transaction w) (rt_attempt w) (rt_generation w) (rt_work_guard w)
    (rt_pending_stream w) (rt_tunnel w) (rt_packet_thread w) (rt_reading_packets w) (rt_io_thread w) x
    (rt_started w) (rt_intentional_stop w) (rt_stop_requested w) (rt_finished w) (rt_failure_message w)
    (rt_events w) (rt_tasks w) (rt_tunnels w) (rt_stopping w) (rt_terminated w).
Definition with_started (x : bool) w : ClientRuntime N :=
  mkRuntime (rt_config w) (rt_net w) (rt_transaction w) (rt_attempt w) (rt_generation w) (rt_work_guard w)
    (rt_pending_stream w) (rt_tunnel w) (rt_packet_thread w) (rt_reading_packets w) (rt_io_thread w)
    (rt_state w) x (rt_intentional_stop w) (rt_stop_requested w) (rt_finished w) (rt_failure_message w)
    (rt_events w) (rt_tasks w) (rt_tunnels w) (rt_stopping w) (rt_terminated w).
Definition with_intentional_stop (x : bool) w : ClientRuntime N :=
  mkRuntime (rt_config w) (rt_net w) (rt_transaction w) (rt_attempt w) (rt_generation w) (rt_work_guard w)
    (rt_pending_stream w) (rt_tunnel w) (rt_packet_thread w) (rt_reading_packets w) (rt_io_thread w)
    (rt_state w) (rt_started w) x (rt_stop_requested w) (rt_finished w) (rt_failure_message w) (rt_events w)
    (rt_tasks w) (rt_tunnels w) (rt_stopping w) (rt_terminated w).
Definition with_stop_requested (x : bool) w : ClientRuntime N :=
  mkRuntime (rt_config w) (rt_net w) (rt_transaction w) (rt_attempt w) (rt_generation w) (rt_work_guard w)
    (rt_pending_stream w) (rt_tunnel w) (rt_packet_thread w) (rt_reading_packets w) (rt_io_thread w)
    (rt_state w) (rt_started w) (rt_intentional_stop w) x (rt_finished w) (rt_failure_message w)
    (rt_events w) (rt_tasks w) (rt_tunnels w) (rt_stopping w) (rt_terminated w).
Definition with_finished (x : bool) w : ClientRuntime N :=
  mkRuntime (rt_config w) (rt_net w) (rt_transaction w) (rt_attempt w) (rt_generation w) (rt_work_guard w)
    (rt_pending_stream w) (rt_tunnel w) (rt_packet_thread w) (rt_reading_packets w) (rt_io_thread w)
    (rt_state w) (rt_started w) (rt_intentional_stop w) (rt_stop_requested w) x (rt_failure_message w)
    (rt_events w) (rt_tasks w) (rt_tunnels w) (rt_stopping w) (rt_terminated w).
Definition with_failure_message (x : string) w : ClientRuntime N :=
  mkRuntime (rt_config w) (rt_net w) (rt_transaction w) (rt_attempt w) (rt_generation w) (rt_work_guard w)
    (rt_pending_stream w) (rt_tunnel w) (rt_packet_thread w) (rt_reading_packets w) (rt_io_thread w)
    (rt_state w) (rt_started w) (rt_intentional_stop w) (rt_stop_requested w) (rt_finished w) x
    (rt_events w) (rt_tasks w) (rt_tunnels w) (rt_stopping w) (rt_terminated w).
Definition with_events (x : list ClientRuntimeEvent) w : ClientRuntime N :=
  mkRuntime (rt_config w) (rt_net w) (rt_transaction w) (rt_attempt w) (rt_generation w) (rt_work_guard w)
    (rt_pending_stream w) (rt_tunnel w) (rt_packet_thread w) (rt_reading_packets w) (rt_io_thread w)
    (rt_state w) (rt_started w) (rt_intentional_stop w) (rt_stop_requested w) (rt_finished w)
    (rt_failure_message w) x (rt_tasks w) (rt_tunnels w) (rt_stopping w) (rt_terminated w).
Definition with_tasks (x : list task) w : ClientRuntime N :=
  mkRuntime (rt_config w) (rt_net w) (rt_transaction w) (rt_attempt w) (rt_generation w) (rt_work_guard w)
    (rt_pending_stream w) (rt_tunnel w) (rt_packet_thread w) (rt_reading_packets w) (rt_io_thread w)
    (rt_state w) (rt_started w) (rt_intentional_stop w) (rt_stop_requested w) (rt_finished w)
    (rt_failure_message w) (rt_events w) x (rt_tunnels w) (rt_stopping w) (rt_terminated w).
Definition with_tunnels (x : gmap Z TlsTunnelClient) w : ClientRuntime N :=
  mkRuntime (rt_config w) (rt_net w) (rt_transaction w) (rt_attempt w) (rt_generation w) (rt_work_guard w)
    (rt_pending_stream w) (rt_tunnel w) (rt_packet_thread w) (rt_reading_packets w) (rt_io_thread w)
    (rt_state w) (rt_started w) (rt_intentional_stop w) (rt_stop_requested w) (rt_finished w)
    (rt_failure_message w) (rt_events w) (rt_tasks w) x (rt_stopping w) (rt_terminated w).
Definition with_stopping (x : bool) w : ClientRuntime N :=
  mkRuntime (rt_config w) (rt_net w) (rt_transaction w) (rt_attempt w) (rt_generation w) (rt_work_guard w)
    (rt_pending_stream w) (rt_tunnel w) (rt_packet_thread w) (rt_reading_packets w) (rt_io_thread w)
    (rt_state w) (rt_started w) (rt_intentional_stop w) (rt_stop_requested w) (rt_finished w)
    (rt_failure_message w) (rt_events w) (rt_tasks w) (rt_tunnels w) x (rt_terminated w).
Definition with_terminated (x : bool) w : ClientRuntime N :=
  mkRuntime (rt_config w) (rt_net w) (rt_transaction w) (rt_attempt w) (rt_generation w) (rt_work_guard w)
    (rt_pending_stream w) (rt_tunnel w) (rt_packet_thread w) (rt_reading_packets w) (rt_io_thread w)
    (rt_state w) (rt_started w) (rt_intentional_stop w) (rt_stop_requested w) (rt_finished w)
    (rt_failure_message w) (rt_events w) (rt_tasks w) (rt_tunnels w) (rt_stopping w) x.
End Setters.

(** ** Operations *)

(** What the environment decides during a handler: how the thread that reads
    packets goes on when it is joined, and a random number. *)
Record Env := mkEnv { en_receives : list (outcome (option bytes)); en_random : Z }.

Section Runtime.
Context {IP : IpLibrary} {N : Type} {NB : ClientNetworkBackend N} {PD : PacketDevice N}.
Abbreviation W := (ClientRuntime N).
Implicit Types w : W.

Definition this : M W W := get.
Definition post (t : task) : M W unit := modify (fun w => with_tasks (rt_tasks w ++ [t]) w).

(** [expires_after] and [cancel] cancel what waits for the timer. *)
Definition cancel_deadline (t : task) : task :=
  match t with TkDeadline g _ => TkDeadline g true | _ => t end.
Definition cancel_reconnect (t : task) : task :=
  match t with TkReconnect d _ => TkReconnect d true | _ => t end.
Definition cancel_connection_timer : M W unit := modify (fun w => with_tasks (map cancel_deadline (rt_tasks w)) w).
Definition cancel_reconnect_timer : M W unit := modify (fun w => with_tasks (map cancel_reconnect (rt_tasks w)) w).
(** [resolver_.cancel()]: a pending resolution completes, with some result. *)
Definition cancel_resolver : M W unit := ret tt.

Definition on_transaction {A} (m : M (N * ClientNetworkTransaction) A) : M W A := fun w =>
  let '(r, (n, t)) := m (rt_net w, rt_transaction w) in (r, with_transaction t (with_net n w)).
Definition on_device {A} (m : M N A) : M W A := fun w =>
  let '(r, n) := m (rt_net w) in (r, with_net n w).
Definition interrupt : M W unit := modify (fun w => with_net (interrupt_receive (rt_net w)) w).

Definition transition (state : ClientRuntimeState) (message : string) : M W unit :=
  modify (fun w => with_events (rt_events w ++ [(state, message)]) (with_state state w)).
Definition record_failure (message : string) : M W unit :=
  modify (fun w => if bool_decide (rt_failure_message w = "") then with_failure_message message w else w).
Definition request_stop : M W unit := modify (with_stop_requested true).

(** [tunnel_->stop(code)] *)
Definition stop_tunnel (code : Z) : M W unit :=
  let* w := this in
  match rt_tunnel w with Some g => post (TkTunnel g (TeStop code)) | None => ret tt end.

(** The test of the loop of [run_packet_reader]; then, for the tunnel [g], the
    rest of an iteration with the next test, and the [catch]. *)
Definition reader_test : M W unit :=
  let* w := this in
  if rt_stop_requested w then modify (with_reading_packets false) else ret tt.
Definition run_packet_reader (g : Z) (received : outcome (option bytes)) : M W unit :=
  match received with
  | Ok (Some packet) =>
      let* _ := post (TkTunnel g (TeTun packet)) in
      reader_test
  | Ok None => modify (with_reading_packets false)
  | Throw error =>
      let* _ := record_failure ("virtual adapter read failed: " +:+ exn_what error) in
      let* _ := request_stop in
      let* _ := post (TkTunnel g (TeStop 3)) in
      modify (with_reading_packets false)
  end.

(** The thread until it ends: [interrupt_receive] ends it after what it still
    receives. *)
Fixpoint reader_until_end (g : Z) (receives : list (outcome (option bytes))) : M W unit :=
  let* w := this in
  if negb (rt_reading_packets w) then ret tt
  else match receives with
       | [] => modify (with_reading_packets false)
       | received :: receives => let* _ := run_packet_reader g received in reader_until_end g receives
       end.
(** [if (packet_thread_.joinable()) packet_thread_.join();] *)
Definition join_packet_thread (env : Env) : M W unit :=
  let* w := this in
  match rt_packet_thread w with
  | None => ret tt
  | Some g => let* _ := reader_until_end g (en_receives env) in modify (with_packet_thread None)
  end.

Definition finish_on_io (env : Env) : M W unit :=
  let* w := this in
  if rt_finished w then ret tt
  else
    let* _ := modify (with_finished true) in
    let* _ := request_stop in
    let* _ := interrupt in
    let* _ := cancel_resolver in
    let* _ := cancel_connection_timer in
    let* _ := cancel_reconnect_timer in
    let* _ := join_packet_thread env in
    let* _ := on_transaction rollback in
    let* _ := modify (with_pending_stream false) in
    let* _ := modify (with_tunnel None) in
    let* w := this in
    let failure := rt_failure_message w in
    let* _ := if rt_intentional_stop w && bool_decide (failure = "")
              then transition Stopped "VPN tunnel stopped"
              else transition Failed (if bool_decide (failure = "") then "VPN runtime failed" else failure) in
    modify (with_work_guard false).

(** [distribution(a, b)(random)] is a number from [a] to [b]. *)
Definition uniform (a b random : Z) : Z := a + random mod (b - a + 1).

Definition base_delay_ms : Z := 1000.
Definition maximum_delay_ms : Z := 30000.
Definition maximum_exponent : Z := 5.
Definition next_reconnect_delay (env : Env) : M W Z :=
  let* w := this in
  let exponent := Z.min (rt_attempt w) maximum_exponent in
  let exponential := u32 (Z.shiftl base_delay_ms exponent) in
  let cap_ms := Z.min exponential maximum_delay_ms in
  let* _ := if rt_attempt w <? maximum_exponent then modify (with_attempt (rt_attempt w + 1)) else ret tt in
  ret (uniform (cap_ms / 2) cap_ms (en_random env)).

Definition retry_on_io (reason : string) (env : Env) : M W unit :=
  let* w := this in
  if rt_finished w then ret tt
  else if rt_stop_requested w || rt_intentional_stop w then finish_on_io env
  else
    let* _ := modify (fun w => with_generation (rt_generation w + 1) w) in
    let* _ := cancel_resolver in
    let* _ := cancel_connection_timer in
    let* _ := modify (with_pending_stream false) in
    let* w := this in
    let* _ := match rt_tunnel w with Some g => post (TkTunnel g TeAbort) | None => ret tt end in
    let* _ := interrupt in
    let* _ := join_packet_thread env in
    let* _ := on_transaction rollback in
    let* _ := modify (with_tunnel None) in
    let* delay := next_reconnect_delay env in
    let* _ := transition Reconnecting (reason +:+ "; retrying in " +:+ to_string delay +:+ "ms") in
    let* _ := cancel_reconnect_timer in
    post (TkReconnect delay false).

Definition on_tunnel_closed (generation : Z) (remote_error : option ErrorMessage) (retryable : bool) (env : Env) :
    M W unit :=
  let* w := this in
  if negb (generation =? rt_generation w) then ret tt
  else if rt_intentional_stop w || rt_stop_requested w then finish_on_io env
  else
    let* _ := match remote_error with
              | Some error => record_failure ("server rejected the session with error code " +:+
                                              to_string (em_code error))
              | None => if negb retryable
                        then record_failure "VPN tunnel closed because of a non-retryable TLS or protocol error"
                        else ret tt
              end in
    let* w := this in
    if negb (bool_decide (rt_failure_message w = "")) then finish_on_io env
    else retry_on_io "VPN transport closed unexpectedly" env.

Definition configure_network (assignment : IpAssignment) : M W bool :=
  let* w := this in
  if rt_stop_requested w then ret false
  else
    let* _ := transition ConfiguringNetwork "applying tunnel network transaction" in
    let* configured := try_catch
      (let* _ := on_transaction (activate assignment (cc_routes (rt_config w))) in ret true)
      (fun error => Some (let* _ := record_failure ("network configuration failed: " +:+ exn_what error) in
                          ret false)) in
    if negb configured then ret false
    else
      let* _ := modify (with_attempt 0) in
      let* _ := cancel_connection_timer in
      let* _ := transition Connected "VPN tunnel connected" in
      let* w := this in
      let* _ := modify (fun w => match rt_packet_thread w with
                                 | Some _ => with_terminated true w
                                 | None => with_reading_packets true (with_packet_thread (rt_tunnel w) w)
                                 end) in
      ret true.

Definition deliver_to_packet_device (packet : bytes) : M W unit :=
  try_catch (on_device (send_packet packet))
    (fun error => Some (
      let* _ := record_failure ("virtual adapter write failed: " +:+ exn_what error) in
      let* _ := request_stop in
      let* _ := interrupt in
      stop_tunnel 2)).

(** The three functions that [handle_connect] gives to the tunnel. *)
Definition host (generation : Z) (env : Env) : ClientHost W := {|
  assignment_handler assignment :=
    let* w := this in
    if generation =? rt_generation w then configure_network assignment else ret false;
  client_packet_sink packet :=
    let* w := this in
    if generation =? rt_generation w then deliver_to_packet_device packet else ret tt;
  client_close_handler remote_error retryable := on_tunnel_closed generation remote_error retryable env
|}.

(** An event of a tunnel, with its calls into the runtime. *)
Definition run_tunnel (g : Z) (e : tunnel_event) (env : Env) : M W unit := fun w =>
  match rt_tunnels w !! g with
  | None => (Ok tt, w)
  | Some t => let '(r, (w', t')) := @run_event W (host g env) e (w, t) in
              (r, with_tunnels (<[g := t']> (rt_tunnels w')) w')
  end.

Definition requests_full_tunnel (config : ClientConfig) : bool :=
  cc_allow_default_route config &&
  (bool_decide ("0.0.0.0/0" ∈ cc_routes config) || bool_decide ("::/0" ∈ cc_routes config)).

Definition to_vpn_endpoint (endpoint : Endpoint) : WindowsVpnEndpoint :=
  if zlen (ep_address endpoint) =? 4
  then mkVpnEndpoint (ep_address endpoint ++ zeros 12) (ep_port endpoint) false
  else mkVpnEndpoint (ep_address endpoint) (ep_port endpoint) true.

Definition begin_connect (env : Env) : M W unit :=
  let* w := this in
  if rt_stop_requested w then finish_on_io env
  else
    let* _ := modify (fun w => with_generation (rt_generation w + 1) w) in
    let* w := this in
    let generation := rt_generation w in
    let* _ := transition Resolving "resolving VPN server" in
    let* _ := cancel_connection_timer in
    let* _ := post (TkDeadline generation false) in
    post (TkResolve generation).

(** The test for full-tunnel mode; [false] when the handler ends there. *)
Definition guard_full_tunnel (endpoints : list Endpoint) (env : Env) : M W bool :=
  let* w := this in
  if negb (requests_full_tunnel (rt_config w)) then ret true
  else if negb win32 then
    let* _ := record_failure "full-tunnel mode is unavailable without a dual-stack kill switch" in
    let* _ := finish_on_io env in
    ret false
  else if negb is_windows_backend then
    let* _ := record_failure "full-tunnel mode requires the Windows fail-closed network backend" in
    let* _ := finish_on_io env in
    ret false
  else
    try_catch
      (let* _ := on_device (enable_kill_switch (map to_vpn_endpoint endpoints)) in ret true)
      (fun failure => Some (
        let* _ := record_failure ("failed to enable persistent dual-stack kill switch: " +:+ exn_what failure) in
        let* _ := finish_on_io env in
        ret false)).

Definition handle_resolve (generation : Z) (error : option string) (endpoints : list Endpoint) (env : Env) :
    M W unit :=
  let* w := this in
  if negb (generation =? rt_generation w) then ret tt
  else if rt_stop_requested w then finish_on_io env
  else match error with
       | Some message => retry_on_io ("server name resolution failed: " +:+ message) env
       | None =>
           let* guarded := guard_full_tunnel endpoints env in
           if negb guarded then ret tt
           else
             let* _ := transition Connecting "connecting with mutual TLS" in
             let* _ := modify (with_pending_stream true) in
             post (TkConnect generation)
       end.

(** [sni] is what the tunnel's [configure_client_sni] will do. *)
Definition handle_connect (generation : Z) (error : option string) (sni : outcome unit) (env : Env) : M W unit :=
  let* w := this in
  if negb (generation =? rt_generation w) then ret tt
  else if rt_stop_requested w then finish_on_io env
  else match error with
       | Some message => retry_on_io ("TCP connection failed: " +:+ message) env
       | None =>
           let* tunnel := lift (make_tunnel (cc_expected_server_name (rt_config w)) true true true
                                  (cc_requested_mtu (rt_config w)) 256 (Z.shiftl 1 20)) in
           let* _ := modify (fun w => with_tunnels (<[generation := tunnel]> (rt_tunnels w))
                                        (with_tunnel (Some generation) w)) in
           let* _ := modify (with_pending_stream false) in
           post (TkTunnel generation (TeStart sni))
       end.

(** The handlers of the two timers; [error] is whether the wait was aborted. *)
Definition handle_deadline (generation : Z) (error : bool) (env : Env) : M W unit :=
  let* w := this in
  if negb error && (generation =? rt_generation w) && negb (rt_finished w)
  then retry_on_io "connection timed out before tunnel establishment" env else ret tt.
Definition handle_reconnect (error : bool) (env : Env) : M W unit :=
  let* w := this in
  if negb error && negb (rt_stop_requested w) && negb (rt_finished w) then begin_connect env
  else if rt_stop_requested w then finish_on_io env
  else ret tt.

(** The call that [stop] posts. *)
Definition stop_on_io (env : Env) : M W unit :=
  let* _ := cancel_resolver in
  let* _ := cancel_connection_timer in
  let* _ := cancel_reconnect_timer in
  let* w := this in
  match rt_tunnel w with
  | Some _ => stop_tunnel 0
  | None => finish_on_io env
  end.

Definition fail_on_io (message : string) (env : Env) : M W unit :=
  let* w := this in
  if rt_finished w then ret tt
  else
    let* _ := record_failure message in
    let* _ := request_stop in
    let* _ := interrupt in
    let* _ := cancel_resolver in
    let* w := this in
    match rt_tunnel w with
    | Some _ => stop_tunnel 1
    | None => finish_on_io env
    end.

(** *** The calls of the owner *)

Definition start : M W unit :=
  let* w := this in
  if rt_started w then throw (LogicError "client runtime instances are single-use")
  else
    let* _ := modify (with_started true) in
    let* _ := transition Starting "client runtime starting" in
    let* _ := modify (with_work_guard true) in
    let* _ := modify (with_io_thread true) in
    post TkBegin.

(** The test at the head of [stop], and the rest, which runs concurrently with
    the handlers. *)
Definition stop_test : M W unit :=
  let* w := this in
  if negb (rt_started w) || rt_finished w then ret tt else modify (with_stopping true).
Definition stop : M W unit :=
  let* _ := modify (with_intentional_stop true) in
  let* _ := request_stop in
  let* _ := transition Stopping "disconnect requested" in
  let* _ := interrupt in
  let* _ := post TkStop in
  modify (with_stopping false).

(** ** The events of the runtime *)

(** What the thread of the [io_context] runs: a posted call, or the handler of
    an operation that completes in some way. *)
Inductive io_event :=
| IoBegin
| IoStop
| IoResolve (generation : Z) (error : option string) (endpoints : list Endpoint)
| IoConnect (generation : Z) (error : option string) (sni : outcome unit)
| IoDeadline (generation : Z) (cancelled error : bool)
| IoReconnect (delay : Z) (cancelled error : bool)
| IoTunnel (generation : Z) (e : tunnel_event).

Definition task_of (e : io_event) : task :=
  match e with
  | IoBegin => TkBegin
  | IoStop => TkStop
  | IoResolve g _ _ => TkResolve g
  | IoConnect g _ _ => TkConnect g
  | IoDeadline g cancelled _ => TkDeadline g cancelled
  | IoReconnect delay cancelled _ => TkReconnect delay cancelled
  | IoTunnel g e => TkTunnel g e
  end.
(** A wait ends with an error only when it was cancelled. *)
Definition may_complete (e : io_event) : Prop :=
  match e with
  | IoDeadline _ cancelled error | IoReconnect _ cancelled error => error = true -> cancelled = true
  | _ => True
  end.

Definition run_io (e : io_event) (env : Env) : M W unit :=
  match e with
  | IoBegin => begin_connect env
  | IoStop => stop_on_io env
  | IoResolve g error endpoints => handle_resolve g error endpoints env
  | IoConnect g error sni => handle_connect g error sni env
  | IoDeadline g _ error => handle_deadline g error env
  | IoReconnect _ _ error => handle_reconnect error env
  | IoTunnel g e => run_tunnel g e env
  end.

(** The thread's [try] and [catch] around [io_context_.run()]. *)
Definition io_thread_body (m : M W unit) : M W unit :=
  try_catch m (fun error => Some (
    let* _ := record_failure ("I/O runtime failure: " +:+ exn_what error) in
    modify (with_io_thread false))).

(** The operations of a tunnel's stream, which complete without being posted. *)
Definition is_completion (e : tunnel_event) : bool :=
  match e with TeHandshake _ | TeRead _ _ | TeWrite _ => true | _ => false end.
Definition receive_ok (received : outcome (option bytes)) : Prop :=
  match received with Ok (Some packet) => is_bytes packet | _ => True end.

(** A step of one of the runtime's threads.  When the runtime has finished,
    [io_context_.stop()] was called and no other handler runs. *)
Inductive thread_step : W -> outcome unit -> W -> Prop :=
| th_io w i e env r w' :
    rt_io_thread w = true -> rt_finished w = false -> rt_tasks w !! i = Some (task_of e) -> may_complete e ->
    Forall receive_ok (en_receives env) ->
    io_thread_body (run_io e env) (with_tasks (delete i (rt_tasks w)) w) = (r, w') -> thread_step w r w'
| th_completion w g t e env r w' :
    rt_io_thread w = true -> rt_finished w = false -> rt_tunnels w !! g = Some t ->
    is_completion e = true -> possible e t -> Forall receive_ok (en_receives env) ->
    io_thread_body (run_tunnel g e env) w = (r, w') -> thread_step w r w'
| th_reader w g received r w' :
    rt_packet_thread w = Some g -> rt_reading_packets w = true -> receive_ok received ->
    run_packet_reader g received w = (r, w') -> thread_step w r w'
| th_reader_test w r w' :
    rt_reading_packets w = true -> reader_test w = (r, w') -> thread_step w r w'.

(** A step of any thread: the owner may call [start] and [stop] at any time. *)
Inductive client_step : W -> outcome unit -> W -> Prop :=
| ct_start w r w' : start w = (r, w') -> client_step w r w'
| ct_stop_test w r w' : stop_test w = (r, w') -> client_step w r w'
| ct_stop w r w' : rt_stopping w = true -> stop w = (r, w') -> client_step w r w'
| ct_thread w r w' : thread_step w r w' -> client_step w r w'.

(** [ClientRuntime::ClientRuntime]; [tls] is what [make_client_tls_context] does. *)
Definition make_runtime (config : ClientConfig) (device : option N) (connection_timeout : Z) (tls : outcome unit) :
    outcome W :=
  let? _ := tls in
  match device with
  | None => Throw (InvalidArgument "client runtime packet device must not be null")
  | Some n =>
      let? _ := reject_if (connection_timeout <=? 0)
        (InvalidArgument "client connection timeout must be positive") in
      Ok (mkRuntime config n make_transaction 0 0 false false None None false false Stopped false false false false ""
            [] [] ∅ false false)
  end.

Inductive client_reachable (w0 : W) : W -> Prop :=
| cr_init : client_reachable w0 w0
| cr_step w r w' : client_reachable w0 w -> client_step w r w' -> client_reachable w0 w'.
End Runtime.

(** ** What has been told stays told *)

Section Events.
Context {IP : IpLibrary} {N : Type} {NB : ClientNetworkBackend N} {PD : PacketDevice N}.
Abbreviation W := (ClientRuntime N).

(** Events are added, a request to stop is not withdrawn, and the configuration
    stays. *)
Definition tells : relation W := fun w w' =>
  rt_events w `prefix_of` rt_events w' /\ (rt_stop_requested w = true -> rt_stop_requested w' = true) /\
  rt_config w' = rt_config w.
#[export] Instance tells_preorder : PreOrder tells.
Proof.
  split; [intros w; split; [reflexivity|auto]|].
  intros w1 w2 w3 (H1 & H2 & H3) (H4 & H5 & H6). split; [etransitivity; eassumption|]. split; [auto|congruence].
Qed.

Definition adds_events {A} (m : M W A) : Prop := forall w, tells w (m w).2.

Lemma adds_bind {A B} (m : M W A) (k : A -> M W B) : adds_events m -> (forall a, adds_events (k a)) -> adds_events (bind m k).
Proof.
  intros Hm Hk w. unfold bind. specialize (Hm w). destruct (m w) as [[a|e] w']; [|exact Hm].
  etransitivity; [exact Hm|apply Hk].
Qed.
Lemma adds_try {A} (m : M W A) (h : exn -> M W A) :
  adds_events m -> (forall e, adds_events (h e)) -> adds_events (try_catch m (fun e => Some (h e))).
Proof.
  intros Hm Hh w. unfold try_catch. specialize (Hm w). destruct (m w) as [[a|e] w']; [exact Hm|].
  etransitivity; [exact Hm|apply Hh].
Qed.
Lemma adds_ret {A} (a : A) : adds_events (ret a).
Proof. intros w. reflexivity. Qed.
Lemma adds_throw {A} e : adds_events (throw (A := A) e).
Proof. intros w. reflexivity. Qed.
Lemma adds_lift {A} (o : outcome A) : adds_events (lift o).
Proof. intros w. reflexivity. Qed.
Lemma adds_this : adds_events this.
Proof. intros w. reflexivity. Qed.
Lemma adds_silent f :
  (forall w, rt_events (f w) = rt_events w /\ (rt_stop_requested w = true -> rt_stop_requested (f w) = true) /\
    rt_config (f w) = rt_config w) ->
  adds_events (modify f).
Proof. intros Hf w. destruct (Hf w) as [He Hs]. split; [cbn; rewrite He; reflexivity|exact Hs]. Qed.
Lemma adds_transition state message : adds_events (transition state message).
Proof. intros w. split; [apply prefix_app_r; reflexivity|auto]. Qed.
Lemma adds_on_transaction {A} (m : M (N * ClientNetworkTransaction) A) : adds_events (on_transaction m).
Proof. intros w. unfold tells, on_transaction. destruct (m _) as [r [n t]]. split; [reflexivity|auto]. Qed.
Lemma adds_on_device {A} (m : M N A) : adds_events (on_device m).
Proof. intros w. unfold tells, on_device. destruct (m _) as [r n]. split; [reflexivity|auto]. Qed.

Ltac add_step :=
  match goal with
  | H : adds_events ?m |- adds_events ?m => exact H
  | H : forall _, adds_events _ |- adds_events _ => solve [apply H]
  | H : forall _ _, adds_events _ |- adds_events _ => solve [apply H]
  | |- adds_events (bind _ _) => apply adds_bind; [|intros ?]
  | |- adds_events (try_catch _ _) => apply adds_try; [|intros ?]
  | |- adds_events (ret _) => apply adds_ret
  | |- adds_events (throw _) => apply adds_throw
  | |- adds_events (lift _) => apply adds_lift
  | |- adds_events this => apply adds_this
  | |- adds_events (transition _ _) => apply adds_transition
  | |- adds_events (on_transaction _) => apply adds_on_transaction
  | |- adds_events (on_device _) => apply adds_on_device
  | |- adds_events (modify _) => apply adds_silent; intros ?; repeat case_match; (split; [reflexivity|cbn; auto])
  | |- adds_events (if ?b then _ else _) => destruct b
  | |- adds_events (match ?x with _ => _ end) => destruct x
  end.
Ltac add := repeat add_step.

Lemma adds_post t : adds_events (post t).
Proof. unfold post. add. Qed.
Lemma adds_connection_timer : adds_events cancel_connection_timer.
Proof. unfold cancel_connection_timer. add. Qed.
Lemma adds_reconnect_timer : adds_events cancel_reconnect_timer.
Proof. unfold cancel_reconnect_timer. add. Qed.
Lemma adds_stop_tunnel code : adds_events (stop_tunnel code).
Proof. pose proof adds_post. unfold stop_tunnel. add. Qed.
Lemma adds_record_failure message : adds_events (record_failure message).
Proof. unfold record_failure. add. Qed.
Lemma adds_reader_test : adds_events reader_test.
Proof. unfold reader_test. add. Qed.
Lemma adds_packet_reader g received : adds_events (run_packet_reader g received).
Proof.
  pose proof adds_post. pose proof adds_reader_test. pose proof adds_record_failure.
  unfold run_packet_reader, request_stop. add.
Qed.
Lemma adds_reader_until_end g receives : adds_events (reader_until_end g receives).
Proof. pose proof adds_packet_reader. induction receives; cbn [reader_until_end]; add. Qed.
Lemma adds_join env : adds_events (join_packet_thread env).
Proof. pose proof adds_reader_until_end. unfold join_packet_thread. add. Qed.
Lemma adds_finish env : adds_events (finish_on_io env).
Proof.
  pose proof (adds_join env). pose proof adds_connection_timer. pose proof adds_reconnect_timer.
  unfold finish_on_io, request_stop, interrupt, cancel_resolver. add.
Qed.
Lemma adds_retry reason env : adds_events (retry_on_io reason env).
Proof.
  pose proof (adds_join env). pose proof adds_connection_timer. pose proof adds_reconnect_timer. pose proof adds_post.
  pose proof (adds_finish env). unfold retry_on_io, next_reconnect_delay, interrupt, cancel_resolver. add.
Qed.

Lemma adds_tunnel_closed generation remote_error retryable env :
  adds_events (on_tunnel_closed generation remote_error retryable env).
Proof.
  pose proof (adds_finish env). pose proof adds_record_failure. pose proof (fun reason => adds_retry reason env).
  unfold on_tunnel_closed. add.
Qed.
Lemma adds_configure assignment : adds_events (configure_network assignment).
Proof. pose proof adds_connection_timer. pose proof adds_record_failure. unfold configure_network. add. Qed.
Lemma adds_deliver packet : adds_events (deliver_to_packet_device packet).
Proof.
  pose proof adds_stop_tunnel. pose proof adds_record_failure. unfold deliver_to_packet_device, request_stop, interrupt. add.
Qed.
Lemma adds_run_tunnel g e env : adds_events (run_tunnel g e env).
Proof.
  intros w. unfold run_tunnel. destruct (rt_tunnels w !! g) as [t|]; [|reflexivity].
  assert (H : tells w (@run_event W (host g env) e (w, t)).2.1).
  { apply (@spares_run_event W (host g env) tells); [apply _|..].
    - intros a. refine (adds_bind _ _ adds_this (fun w2 => _)). destruct (_ =? _); [apply adds_configure|apply adds_ret].
    - intros packet. refine (adds_bind _ _ adds_this (fun w2 => _)). destruct (_ =? _); [apply adds_deliver|apply adds_ret].
    - intros e' retryable. exact (adds_tunnel_closed g e' retryable env). }
  destruct (@run_event W (host g env) e (w, t)) as [r [w' t']]. exact H.
Qed.

Lemma adds_begin_connect env : adds_events (begin_connect env).
Proof.
  pose proof (adds_finish env). pose proof adds_connection_timer. pose proof adds_post. unfold begin_connect. add.
Qed.
Lemma adds_guard endpoints env : adds_events (guard_full_tunnel endpoints env).
Proof. pose proof (adds_finish env). pose proof adds_record_failure. unfold guard_full_tunnel. add. Qed.
Lemma adds_resolve generation error endpoints env : adds_events (handle_resolve generation error endpoints env).
Proof.
  pose proof (adds_finish env). pose proof (fun reason => adds_retry reason env). pose proof (adds_guard endpoints env).
  pose proof adds_post. unfold handle_resolve. add.
Qed.
Lemma adds_connect generation error sni env : adds_events (handle_connect generation error sni env).
Proof.
  pose proof (adds_finish env). pose proof (fun reason => adds_retry reason env). pose proof adds_post.
  unfold handle_connect. add.
Qed.

Lemma adds_run_io e env : adds_events (run_io e env).
Proof.
  pose proof (adds_finish env). pose proof (fun reason => adds_retry reason env). pose proof adds_stop_tunnel.
  pose proof (adds_begin_connect env). pose proof adds_connection_timer. pose proof adds_reconnect_timer.
  destruct e; cbn [run_io];
    [assumption|unfold stop_on_io, cancel_resolver|apply adds_resolve|apply adds_connect|unfold handle_deadline
    |unfold handle_reconnect|apply adds_run_tunnel]; add.
Qed.
Lemma adds_body m : adds_events m -> adds_events (io_thread_body m).
Proof. pose proof adds_record_failure. intros Hm. unfold io_thread_body. add. Qed.

Lemma thread_tells w r w' : thread_step w r w' -> tells w w'.
Proof.
  intros Hstep. destruct Hstep.
  - pose proof (adds_body _ (adds_run_io e env) (with_tasks (delete i (rt_tasks w)) w)) as H'.
    match goal with E : io_thread_body _ _ = _ |- _ => rewrite E in H' end. exact H'.
  - pose proof (adds_body _ (adds_run_tunnel g e env) w) as H'.
    match goal with E : io_thread_body _ _ = _ |- _ => rewrite E in H' end. exact H'.
  - pose proof (adds_packet_reader g received w) as H'.
    match goal with E : run_packet_reader _ _ _ = _ |- _ => rewrite E in H' end. exact H'.
  - pose proof (adds_reader_test w) as H'. match goal with E : reader_test _ = _ |- _ => rewrite E in H' end. exact H'.
Qed.
Lemma start_tells : adds_events start.
Proof. pose proof adds_post. unfold start. add. Qed.
Lemma stop_test_tells : adds_events stop_test.
Proof. unfold stop_test. add. Qed.
Lemma stop_tells : adds_events stop.
Proof. pose proof adds_post. unfold stop, request_stop, interrupt. add. Qed.
End Events.
