(* ===== verification/RuntimeInvariant.v ===== *)
(** * The client's runtime: its invariant

    What holds of the runtime of ClientRuntime.v between any two of its steps.
    Until it finishes it is either waiting for one task that will move the
    connection on, or pointing to an open tunnel; the tunnels keep the invariant
    of TunnelClient.v, whose laws of a host the runtime discharges
    ([lent_laws]), and the network can always be rolled back, by
    NetworkTransaction.v.  From this follow that the runtime never stalls and
    that it secures the network. *)
From S2P Require Import KeyFiles ClientConfig WindowsKillSwitch.
From S2P Require Import ClientSession OutboundQueue AsyncIo FrameWriter NetworkTransaction.
From S2P Require Import Prelude Bytes Protocol ControlMessages Address TunnelClient ClientRuntime.

(** ** Specification *)

(** The device's calls for packets do not change the network configuration;
    enabling the kill switch may. *)
Class PacketDeviceLaws (N : Type) {NB : ClientNetworkBackend N} {BL : BackendLaws N} {PD : PacketDevice N} := {
  interrupt_same n : same (interrupt_receive n) n;
  send_packet_same packet n : same (send_packet packet n).2 n
}.

Definition terminal (e : ClientRuntimeEvent) : bool :=
  match e.1 with Stopped | Failed => true | _ => false end.

(** The one task that moves a connection on which there is no tunnel yet. *)
Definition drives (generation : Z) (t : task) : bool :=
  match t with
  | TkBegin | TkReconnect _ _ => true
  | TkResolve g | TkConnect g => g =? generation
  | _ => false
  end.
Definition drivers (generation : Z) (ts : list task) : list task := List.filter (drives generation) ts.

(** No deadline of this generation is pending. *)
Definition no_deadline (generation : Z) (ts : list task) : Prop :=
  Forall (fun t => match t with TkDeadline g _ => g < generation | _ => True end) ts.

(** What a task may be. *)
Definition task_ok (generation : Z) (t : task) : Prop :=
  match t with
  | TkResolve g | TkConnect g | TkDeadline g _ => g <= generation
  | TkReconnect delay _ => base_delay_ms / 2 <= delay <= maximum_delay_ms
  | TkTunnel _ (TeStop code) => in_u16 code
  | TkTunnel _ (TeTun packet) => is_bytes packet
  | TkTunnel _ e => is_completion e = false /\ match e with TePing n => in_u64 n | _ => True end
  | TkBegin | TkStop => True
  end.

Section RuntimeFacts.
Context {IP : IpLibrary} {N : Type} {NB : ClientNetworkBackend N} {BL : BackendLaws N}
  {PD : PacketDevice N} {PL : PacketDeviceLaws N}.
Context (base : N).
Abbreviation W := (ClientRuntime N).
Implicit Types w : W.

(** The network as it was at first, but for what enabling the kill switch made
    of it; without a full tunnel, as it was at first. *)
Inductive home (full : bool) : N -> Prop :=
| home_first n : same n base -> home full n
| home_guarded endpoints n n' :
    full = true -> home full n -> same n' (enable_kill_switch endpoints n).2 -> home full n'.

(** Rolling back takes the network home. *)
Definition restorable (full : bool) (n : N) (t : ClientNetworkTransaction) : Prop :=
  v6_ok t /\ home full (apply_plan (plan t) n).
Definition wants_full_tunnel w : bool := requests_full_tunnel (rt_config w).

(** A configuration with which a tunnel can be made. *)
Definition usable (config : ClientConfig) : Prop :=
  cc_expected_server_name config <> "" /\ kMinimumIpv6Mtu <= cc_requested_mtu config <= kMaximumTunnelMtu.

(** What holds as long as the runtime has not finished. *)
Record steady w : Prop := {
  sy_config : usable (rt_config w);
  sy_net : restorable (wants_full_tunnel w) (rt_net w) (rt_transaction w);
  sy_attempt : 0 <= rt_attempt w <= maximum_exponent;
  sy_tasks : Forall (task_ok (rt_generation w)) (rt_tasks w);
  sy_stop : TkStop ∈ rt_tasks w -> rt_intentional_stop w = true /\ rt_stop_requested w = true;
  sy_reason : rt_stop_requested w = true -> rt_intentional_stop w = true \/ rt_failure_message w <> "";
  sy_running : rt_started w = true /\ rt_io_thread w = true /\ rt_finished w = false /\ rt_terminated w = false;
  sy_events : Forall (fun e => terminal e = false) (rt_events w);
  sy_thread : match rt_packet_thread w with
              | Some g => rt_tunnel w = Some g
              | None => idle (rt_transaction w) /\ rt_reading_packets w = false
              end
}.

(** There is no tunnel: one task will move the connection on. *)
Record waiting w : Prop := {
  wt_tunnel : rt_tunnel w = None;
  wt_driver : exists t, drivers (rt_generation w) (rt_tasks w) = [t] /\
    (rt_pending_stream w = true -> t = TkConnect (rt_generation w)) /\
    match t with
    | TkBegin => no_deadline (rt_generation w) (rt_tasks w)
    | TkReconnect _ cancelled => no_deadline (rt_generation w) (rt_tasks w) /\
        (cancelled = true -> rt_stop_requested w = true)
    | _ => rt_stop_requested w = false -> TkDeadline (rt_generation w) false ∈ rt_tasks w
    end
}.

(** The tunnel of this generation is there. *)
Record tunnelled (g : Z) w : Prop := {
  tn_tunnel : rt_tunnel w = Some g /\ rt_generation w = g;
  tn_drivers : drivers g (rt_tasks w) = [] /\ rt_pending_stream w = false;
  tn_deadline : rt_stop_requested w = false -> rt_packet_thread w = None -> TkDeadline g false ∈ rt_tasks w
}.

(** The end has been told, once; only a call of [stop] that was under way is
    told after it. *)
Definition told w : Prop :=
  exists before after verdict, rt_events w = before ++ verdict :: after /\
    Forall (fun e => terminal e = false) before /\ Forall (fun e => e.1 = Stopping) after /\
    (verdict = (Stopped, "VPN tunnel stopped") /\ rt_intentional_stop w = true /\ rt_failure_message w = "" \/
     verdict = (Failed, rt_failure_message w) /\ rt_failure_message w <> "").

(** The end. *)
Record finished_ok w : Prop := {
  fi_flags : rt_started w = true /\ rt_finished w = true /\ rt_terminated w = false /\ rt_io_thread w = true;
  fi_released : rt_tunnel w = None /\ rt_packet_thread w = None /\ rt_reading_packets w = false /\
    rt_pending_stream w = false /\ rt_work_guard w = false;
  fi_net : idle (rt_transaction w) /\ home (wants_full_tunnel w) (rt_net w);
  fi_verdict : told w
}.

(** ** Lemmas *)

#[local] Instance runtime_plan_proper us : Proper (same ==> same) (apply_plan us).
Proof. induction us as [|u us IH]; intros s s' E; [exact E|]. cbn. apply IH. rewrite E. reflexivity. Qed.

#[export] Instance home_proper full : Proper (same ==> iff) (home full).
Proof.
  assert (H : forall n n', same n n' -> home full n -> home full n').
  { intros n n' E Hh. revert E. destruct Hh as [n1 Hs|endpoints m n1 Hf Hm Hs]; intros E.
    - apply home_first. rewrite <- E. exact Hs.
    - eapply home_guarded; [exact Hf|exact Hm|]. rewrite <- E. exact Hs. }
  intros n n' E. split; apply H; [exact E|symmetry; exact E].
Qed.
Lemma home_unguarded n : home false n <-> same n base.
Proof. split; [inversion 1; [assumption|discriminate]|apply home_first]. Qed.

Lemma restorable_same full n n' t : same n' n -> restorable full n t -> restorable full n' t.
Proof. intros E [Hv Hs]. split; [exact Hv|]. rewrite E. exact Hs. Qed.
Lemma idle_restorable full n t : idle t -> restorable full n t <-> home full n.
Proof.
  intros Hi. unfold restorable. rewrite (idle_plan _ Hi). cbn. split; [intros [_ H]; exact H|].
  intros H. split; [|exact H]. destruct Hi as (_ & _ & H6 & _). unfold v6_ok. congruence.
Qed.
Lemma rollback_restores full n t :
  restorable full n t -> exists n' t', rollback (n, t) = (Ok tt, (n', t')) /\ idle t' /\ home full n'.
Proof.
  intros [Hv Hs]. destruct (rollback_eq n t) as (t' & E & Hi). exists (apply_plan (plan t) n), t'. auto.
Qed.

Lemma activate_restorable full a cidrs n t :
  idle t -> restorable full n t ->
  match activate a cidrs (n, t) with
  | (Ok _, (n', t')) => restorable full n' t'
  | (Throw _, (n', t')) => restorable full n' t' /\ idle t'
  end.
Proof.
  intros Hi Hr. pose proof Hr as Hb. apply idle_restorable in Hb; [|exact Hi].
  destruct (decide (cidrs = [])) as [->|Hne].
  { unfold activate, bind, transaction. cbn [snd]. destruct (_ || _)%bool; [split; assumption|].
    change (zlen (@nil string) =? 0) with true. split; assumption. }
  pose proof (activate_spec a cidrs n t Hi Hne) as H. destruct (activate a cidrs (n, t)) as [[[]|e] [n' t']].
  - destruct H as (_ & routes & c4 & c6 & prior & crs & _ & _ & Htr & Hp & Hv & _). split; [exact Hv|].
    rewrite Hp, (undo_trace _ _ _ Htr). exact Hb.
  - destruct H as (Hi' & calls & s1 & s2 & Htr & Hs & -> & _). split; [|exact Hi']. apply idle_restorable; [exact Hi'|].
    assert (Es : same s2 s1) by (destruct Hs as [->|Hf]; [reflexivity|eapply fails_law, Hf]).
    rewrite Es, (undo_trace _ _ _ Htr). exact Hb.
Qed.

(** *** The thread that reads packets *)

(** A task that it posts. *)
Definition reader_task (t : task) : Prop :=
  match t with
  | TkTunnel _ (TeTun packet) => is_bytes packet
  | TkTunnel _ (TeStop code) => in_u16 code
  | _ => False
  end.
Lemma reader_tasks_ok c ts : Forall reader_task ts -> Forall (task_ok c) ts.
Proof. intros H. eapply Forall_impl; [exact H|]. intros [| | | | | |g []]; cbn; tauto. Qed.
Lemma reader_tasks_drivers c ts : Forall reader_task ts -> drivers c ts = [].
Proof. induction 1 as [|[| | | | | |g []] ts Ht _ IH]; cbn in *; try contradiction; auto. Qed.
Lemma reader_tasks_no_deadline c ts : Forall reader_task ts -> no_deadline c ts.
Proof. intros H. eapply Forall_impl; [exact H|]. intros [| | | | | |g []]; cbn; tauto. Qed.

(** What it may have done: posted [extra], and recorded a failure. *)
Definition drained (extra : list task) (f : string) (s : bool) w : W :=
  with_reading_packets false (with_stop_requested s (with_failure_message f (with_tasks (rt_tasks w ++ extra) w))).
Definition drain_ok (extra : list task) (f : string) (s : bool) w : Prop :=
  Forall reader_task extra /\
  (f = rt_failure_message w /\ s = rt_stop_requested w \/
   s = true /\ f <> "" /\ (rt_failure_message w <> "" -> f = rt_failure_message w)).

Lemma drained_nil w : with_reading_packets false w = drained [] (rt_failure_message w) (rt_stop_requested w) w.
Proof. destruct w. unfold drained. cbn. rewrite app_nil_r. reflexivity. Qed.

Lemma reader_failure_ok what w :
  let f := if bool_decide (rt_failure_message w = "") then "virtual adapter read failed: " +:+ what else rt_failure_message w in
  f <> "" /\ (rt_failure_message w <> "" -> f = rt_failure_message w).
Proof. cbv zeta. case_bool_decide as E; [split; [discriminate|contradiction]|auto]. Qed.

Lemma reader_until_end_spec g rs w :
  Forall receive_ok rs ->
  rt_reading_packets w = true ->
  exists extra f s, reader_until_end g rs w = (Ok tt, drained extra f s w) /\ drain_ok extra f s w.
Proof.
  revert w. induction rs as [|r rs IH]; intros w Hrs Hr; cbn [reader_until_end]; unfold bind at 1, this, get; rewrite Hr; cbn [negb].
  { eexists _, _, _. unfold modify. rewrite drained_nil. split; [reflexivity|]. split; [constructor|auto]. }
  apply Forall_cons in Hrs as [Hok Hrs].
  assert (Hend : forall w', rt_reading_packets w' = false -> reader_until_end g rs w' = (Ok tt, w')).
  { intros w' Hw'. destruct rs; cbn [reader_until_end]; unfold bind, this, get; rewrite Hw'; reflexivity. }
  destruct r as [[packet|]|e]; cbn [run_packet_reader receive_ok] in *.
  - unfold bind at 2. unfold post, modify at 1, reader_test. unfold bind at 1 2, this, get. cbn [rt_stop_requested with_tasks].
    destruct (rt_stop_requested w) eqn:Es.
    + unfold modify. rewrite Hend by reflexivity.
      exists [TkTunnel g (TeTun packet)], (rt_failure_message w), (rt_stop_requested w). split.
      * destruct w; reflexivity.
      * split; [constructor; [exact Hok|constructor]|auto].
    + unfold ret. edestruct (IH (with_tasks (rt_tasks w ++ [TkTunnel g (TeTun packet)]) w) Hrs Hr) as (extra & f & s & -> & Hx & Hfs).
      exists (TkTunnel g (TeTun packet) :: extra), f, s. split.
      * destruct w. unfold drained. cbn. rewrite <- app_assoc. reflexivity.
      * split; [constructor; assumption|exact Hfs].
  - unfold bind, modify. rewrite Hend by reflexivity. eexists _, _, _. rewrite drained_nil. split; [reflexivity|].
    split; [constructor|auto].
  - unfold bind, record_failure, request_stop, post, modify. rewrite Hend by reflexivity.
    destruct (reader_failure_ok (exn_what e) w) as [Hf1 Hf2].
    exists [TkTunnel g (TeStop 3)], (if bool_decide (rt_failure_message w = "")
      then "virtual adapter read failed: " +:+ exn_what e else rt_failure_message w), true. split; [|split; [constructor; [cbn; int_lia|constructor]|right; split; [reflexivity|]; split; [exact Hf1|exact Hf2]]].
    destruct (bool_decide (rt_failure_message w = "")); destruct w; reflexivity.
Qed.

Lemma join_spec env w :
  Forall receive_ok (en_receives env) ->
  (rt_packet_thread w = None -> rt_reading_packets w = false) ->
  exists extra f s, join_packet_thread env w = (Ok tt, with_packet_thread None (drained extra f s w)) /\ drain_ok extra f s w.
Proof.
  intros He Hr. unfold join_packet_thread, bind, this, get.
  assert (Hd : drain_ok [] (rt_failure_message w) (rt_stop_requested w) w) by (split; [constructor|auto]).
  destruct (rt_packet_thread w) as [g|] eqn:Ep.
  - destruct (rt_reading_packets w) eqn:Erd.
    + destruct (reader_until_end_spec g _ w He Erd) as (extra & f & s & -> & Hx). exists extra, f, s. auto.
    + assert (reader_until_end g (en_receives env) w = (Ok tt, w)) as ->.
      { destruct (en_receives env); cbn [reader_until_end]; unfold bind, this, get; rewrite Erd; reflexivity. }
      eexists _, _, _. split; [|exact Hd]. rewrite <- drained_nil. destruct w; cbn in *; subst; reflexivity.
  - specialize (Hr eq_refl). eexists _, _, _. split; [|exact Hd]. rewrite <- drained_nil.
    destruct w; cbn in *; subst; reflexivity.
Qed.
(** *** Finishing and retrying *)

Ltac run_io_code :=
  cbv beta iota delta [bind this get modify ret post cancel_connection_timer cancel_reconnect_timer cancel_resolver
    request_stop interrupt transition record_failure on_transaction].

Lemma finish_spec env w :
  Forall receive_ok (en_receives env) -> steady w ->
  rt_intentional_stop w = true \/ rt_failure_message w <> "" ->
  exists w', finish_on_io env w = (Ok tt, w') /\ finished_ok w' /\
    rt_tunnels w' = rt_tunnels w /\ rt_generation w' = rt_generation w.
Proof using Type PL.
  intros He Hs Hreason. destruct Hs as [Hcfg Hnet Hat Hts Hstop _ (Hst & Hio & Hfin & Hterm) Hev Hth].
  unfold finish_on_io. run_io_code. rewrite Hfin.
  match goal with |- context [join_packet_thread env ?w1] =>
    destruct (join_spec env w1 He) as (extra & f & s & E & Hx & Hfs) end.
  { cbn. intros Hn. rewrite Hn in Hth. apply Hth. }
  rewrite E. clear E. cbn in Hfs.
  assert (Hnet' : restorable (wants_full_tunnel w) (interrupt_receive (rt_net w)) (rt_transaction w))
    by (eapply restorable_same; [apply interrupt_same|exact Hnet]).
  destruct (rollback_restores _ _ _ Hnet') as (n' & t' & Er & Hidle & Hsame).
  match goal with |- context [rollback ?p] => change p with (interrupt_receive (rt_net w), rt_transaction w) end.
  rewrite Er. clear Er. cbn -[Z.add].
  assert (Hf : f = rt_failure_message w \/ f <> "") by (destruct Hfs as [[-> _]|(_ & ? & _)]; auto).
  assert (Hv : rt_intentional_stop w = true /\ f = "" \/ f <> "").
  { destruct (decide (f = "")) as [->|]; [left; split; [|reflexivity]|auto].
    destruct Hreason as [|Hr]; [assumption|]. destruct Hfs as [[E _]|(_ & ? & _)]; congruence. }
  destruct (rt_intentional_stop w && bool_decide (f = "")) eqn:Ev.
  - apply andb_true_iff in Ev as [Ei Ef]. apply bool_decide_eq_true_1 in Ef. subst f.
    eexists. split; [reflexivity|]. split; [|split; reflexivity].
    constructor; cbn; auto. eexists (rt_events w), [], _. split; [reflexivity|]. cbn. auto 10.
  - destruct Hv as [[Hi ->]|Hne]; [rewrite Hi, bool_decide_true in Ev by reflexivity; discriminate|].
    rewrite bool_decide_false by exact Hne.
    eexists. split; [reflexivity|]. split; [|split; reflexivity].
    constructor; cbn; auto. eexists (rt_events w), [], _. split; [reflexivity|]. cbn. auto 10.
Qed.

(** The delay before the next attempt. *)
Lemma uniform_range a b r : a <= b -> a <= uniform a b r <= b.
Proof. intros H. unfold uniform. pose proof (Z.mod_pos_bound r (b - a + 1)). lia. Qed.

Definition delay_cap (attempt : Z) : Z := Z.min (1000 * 2 ^ attempt) maximum_delay_ms.

Lemma next_delay_spec env w :
  0 <= rt_attempt w <= maximum_exponent ->
  exists d, next_reconnect_delay env w = (Ok d, with_attempt (Z.min (rt_attempt w + 1) maximum_exponent) w) /\
    delay_cap (rt_attempt w) / 2 <= d <= delay_cap (rt_attempt w).
Proof.
  intros Ha. unfold next_reconnect_delay. run_io_code.
  assert (Ec : Z.min (u32 (Z.shiftl base_delay_ms (Z.min (rt_attempt w) maximum_exponent))) maximum_delay_ms = delay_cap (rt_attempt w)).
  { unfold delay_cap, maximum_exponent in *. rewrite (Z.min_l (rt_attempt w)) by lia. rewrite Z.shiftl_mul_pow2 by lia.
    rewrite u32_id; [reflexivity|]. unfold base_delay_ms.
    assert (2 ^ rt_attempt w <= 32) by (change 32 with (2 ^ 5); apply Z.pow_le_mono_r; lia).
    assert (0 < 2 ^ rt_attempt w) by (apply Z.pow_pos_nonneg; lia). int_lia. }
  rewrite Ec. assert (Hcap : 1000 <= delay_cap (rt_attempt w)).
  { unfold delay_cap, maximum_delay_ms. assert (0 < 2 ^ rt_attempt w) by (apply Z.pow_pos_nonneg; lia). lia. }
  eexists. split; [|apply uniform_range; div_lia].
  unfold maximum_exponent in *. destruct (rt_attempt w <? 5) eqn:El; b2p; do 2 f_equal.
  - rewrite Z.min_l by lia. reflexivity.
  - rewrite Z.min_r by lia. replace 5 with (rt_attempt w) by lia. destruct w; reflexivity.
Qed.

Lemma delay_bounds attempt d :
  0 <= attempt -> delay_cap attempt / 2 <= d <= delay_cap attempt -> base_delay_ms / 2 <= d <= maximum_delay_ms.
Proof.
  unfold delay_cap, maximum_delay_ms, base_delay_ms. intros Ha Hd.
  assert (0 < 2 ^ attempt) by (apply Z.pow_pos_nonneg; lia). div_lia.
Qed.

(** *** Tasks *)

Lemma drivers_app c ts us : drivers c (ts ++ us) = drivers c ts ++ drivers c us.
Proof. apply List.filter_app. Qed.
Lemma drivers_cancel_deadline c ts : drivers c (map cancel_deadline ts) = drivers c ts.
Proof.
  unfold drivers. induction ts as [|[] ts IH]; cbn [map List.filter cancel_deadline drives]; rewrite ?IH; reflexivity.
Qed.
Lemma tasks_ok_cancel_deadline c ts : Forall (task_ok c) ts -> Forall (task_ok c) (map cancel_deadline ts).
Proof. induction 1 as [|[] ts Ht _ IH]; cbn; constructor; auto. Qed.
Lemma tasks_ok_cancel_reconnect c ts : Forall (task_ok c) ts -> Forall (task_ok c) (map cancel_reconnect ts).
Proof. induction 1 as [|[] ts Ht _ IH]; cbn; constructor; auto. Qed.
Lemma tasks_ok_grow c c' ts : c <= c' -> Forall (task_ok c) ts -> Forall (task_ok c') ts.
Proof. intros Hc H. eapply Forall_impl; [exact H|]. intros [| | | | | |g []]; cbn; auto; lia. Qed.
Lemma in_cancelled (f : task -> task) t ts :
  (forall u, f u = t -> u = t) -> t ∈ map f ts -> t ∈ ts.
Proof. intros Hf (u & E & Hin)%list_elem_of_fmap. symmetry in E. rewrite <- (Hf u E). exact Hin. Qed.
Lemma stop_in_cancelled ts :
  TkStop ∈ map cancel_deadline ts \/ TkStop ∈ map cancel_reconnect ts -> TkStop ∈ ts.
Proof. intros [H|H]; eapply in_cancelled; try exact H; intros []; cbn; congruence. Qed.
Lemma fresh_no_deadline c ts : Forall (task_ok c) ts -> no_deadline (c + 1) ts.
Proof. intros H. eapply Forall_impl; [exact H|]. intros []; cbn; auto; lia. Qed.
Lemma reader_tasks_no_stop ts : Forall reader_task ts -> TkStop ∉ ts.
Proof. intros H Hin. rewrite Forall_forall in H. exact (H _ Hin). Qed.
Lemma no_deadline_app c ts us : no_deadline c (ts ++ us) <-> no_deadline c ts /\ no_deadline c us.
Proof. apply Forall_app. Qed.
Lemma drivers_none_cancel_reconnect c ts : drivers c ts = [] -> map cancel_reconnect ts = ts.
Proof.
  unfold drivers. induction ts as [|[] ts IH]; cbn [map List.filter cancel_reconnect drives]; try discriminate; intros H;
    try (rewrite IH by exact H; reflexivity).
  all: try reflexivity; destr_if; try discriminate; rewrite IH by exact H; reflexivity.
Qed.

(** [retry_on_io] up to the join. *)
Definition aborted w : W :=
  with_net (interrupt_receive (rt_net w))
    (with_tasks (map cancel_deadline (rt_tasks w) ++ match rt_tunnel w with Some g => [TkTunnel g TeAbort] | None => [] end)
      (with_pending_stream false (with_generation (rt_generation w + 1) w))).

Lemma retry_until_join reason env w :
  rt_finished w = false -> rt_stop_requested w = false -> rt_intentional_stop w = false ->
  retry_on_io reason env w =
  (let* _ := join_packet_thread env in
   let* _ := on_transaction rollback in
   let* _ := modify (with_tunnel None) in
   let* delay := next_reconnect_delay env in
   let* _ := transition Reconnecting (reason +:+ "; retrying in " +:+ to_string delay +:+ "ms") in
   let* _ := cancel_reconnect_timer in
   post (TkReconnect delay false)) (aborted w).
Proof.
  intros Hf Hs Hi. unfold retry_on_io. unfold bind at 1, this at 1, get. rewrite Hf, Hs, Hi. cbn [orb].
  unfold aborted. destruct (rt_tunnel w) eqn:Et; destruct w; cbn in *; subst; [reflexivity|].
  rewrite app_nil_r. reflexivity.
Qed.

Lemma aborted_tasks w :
  Forall (task_ok (rt_generation w)) (rt_tasks w) -> drivers (rt_generation w + 1) (rt_tasks w) = [] ->
  let ts := rt_tasks (aborted w) in
  Forall (task_ok (rt_generation w + 1)) ts /\ drivers (rt_generation w + 1) ts = [] /\
  no_deadline (rt_generation w + 1) ts /\ (TkStop ∈ ts -> TkStop ∈ rt_tasks w).
Proof.
  intros Hts Hd. cbn [aborted rt_tasks with_net with_tasks]. cbv zeta.
  rewrite Forall_app, drivers_app, drivers_cancel_deadline, Hd, no_deadline_app, elem_of_app.
  apply tasks_ok_cancel_deadline in Hts.
  split_goal.
  - eapply tasks_ok_grow; [|exact Hts]. lia.
  - destruct (rt_tunnel w); repeat constructor.
  - destruct (rt_tunnel w); reflexivity.
  - apply fresh_no_deadline, Hts.
  - destruct (rt_tunnel w); repeat constructor.
  - intros [H|H]; [apply stop_in_cancelled; auto|]. destruct (rt_tunnel w).
    + apply list_elem_of_singleton in H. discriminate.
    + apply not_elem_of_nil in H. contradiction.
Qed.

(** The attempt is over: the packet thread has been joined, the network rolled
    back, and nothing is left to move this generation on. *)
Lemma given_up env w :
  Forall receive_ok (en_receives env) -> steady w -> drivers (rt_generation w + 1) (rt_tasks w) = [] ->
  rt_stop_requested w = false ->
  exists w1, (forall k : M W unit,
    (let* _ := join_packet_thread env in let* _ := on_transaction rollback in let* _ := modify (with_tunnel None) in k)
      (aborted w) = k w1) /\
    steady w1 /\ rt_tunnel w1 = None /\ rt_pending_stream w1 = false /\ rt_tunnels w1 = rt_tunnels w /\
    rt_generation w1 = rt_generation w + 1 /\
    drivers (rt_generation w1) (rt_tasks w1) = [] /\ no_deadline (rt_generation w1) (rt_tasks w1).
Proof using Type PL.
  intros He Hs Hd Es. pose proof Hs as [Hcfg Hnet Hat Hts Hstop Hreason (Hst & Hio & Hfin & Hterm) Hev Hth].
  destruct (aborted_tasks w Hts Hd) as (Hts1 & Hd1 & Hn1 & Hs1).
  destruct (join_spec env (aborted w) He) as (extra & f & s & E & Hx & Hfs).
  { intros Hn. change (rt_packet_thread w = None) in Hn. rewrite Hn in Hth. apply Hth. }
  assert (Hnet' : restorable (wants_full_tunnel w) (interrupt_receive (rt_net w)) (rt_transaction w))
    by (eapply restorable_same; [apply interrupt_same|exact Hnet]).
  destruct (rollback_restores _ _ _ Hnet') as (n' & t' & Er & Hidle & Hsame).
  eexists. split.
  { intros k. unfold bind at 1. rewrite E. unfold bind at 1, on_transaction.
    change (rt_net (with_packet_thread None (drained extra f s (aborted w))), _)
      with (interrupt_receive (rt_net w), rt_transaction w). rewrite Er. reflexivity. }
  split; [|split; [reflexivity|split; [reflexivity|split; [reflexivity|split; [reflexivity|split]]]]].
  - constructor; auto.
    + apply idle_restorable; assumption.
    + apply Forall_app. split; [exact Hts1|apply reader_tasks_ok, Hx].
    + intros [H|H]%elem_of_app; [apply Hs1, Hstop in H as [_ H]; congruence|destruct (reader_tasks_no_stop _ Hx H)].
    + change (s = true -> rt_intentional_stop w = true \/ f <> ""). intros ->.
      destruct Hfs as [[_ H]|(_ & H & _)]; [change (true = rt_stop_requested w) in H; congruence|auto].
    + change (idle t' /\ false = false). auto.
  - change (drivers (rt_generation w + 1) (rt_tasks (aborted w) ++ extra) = []).
    rewrite drivers_app, Hd1. apply reader_tasks_drivers, Hx.
  - change (no_deadline (rt_generation w + 1) (rt_tasks (aborted w) ++ extra)).
    apply no_deadline_app. split; [exact Hn1|apply reader_tasks_no_deadline, Hx].
Qed.

(** The next attempt is due after a delay. *)
Lemma schedule_reconnect message delay w :
  steady w -> rt_tunnel w = None -> rt_pending_stream w = false ->
  drivers (rt_generation w) (rt_tasks w) = [] -> no_deadline (rt_generation w) (rt_tasks w) ->
  base_delay_ms / 2 <= delay <= maximum_delay_ms ->
  exists w', (let* _ := transition Reconnecting message in let* _ := cancel_reconnect_timer in
              post (TkReconnect delay false)) w = (Ok tt, w') /\
    rt_tunnels w' = rt_tunnels w /\ rt_generation w' = rt_generation w /\ steady w' /\ waiting w'.
Proof.
  intros [Hcfg Hnet Hat Hts Hstop Hreason Hrun Hev Hth] Hn Hp Hd Hdl Hdelay. eexists. split; [reflexivity|].
  match goal with |- rt_tunnels ?x = _ /\ _ => set (w' := x) end.
  assert (Et : rt_tasks w' = rt_tasks w ++ [TkReconnect delay false])
    by (rewrite <- (drivers_none_cancel_reconnect _ _ Hd) at 1; reflexivity).
  split; [reflexivity|]. split; [reflexivity|]. split; constructor; rewrite ?Et; auto.
  - apply Forall_app. split; [exact Hts|]. constructor; [exact Hdelay|constructor].
  - intros [H|H%list_elem_of_singleton]%elem_of_app; [apply Hstop, H|discriminate].
  - apply Forall_app. split; [exact Hev|]. constructor; [reflexivity|constructor].
  - change (rt_generation w') with (rt_generation w). exists (TkReconnect delay false). rewrite drivers_app, Hd.
    split; [reflexivity|]. split; [change (rt_pending_stream w = true -> TkReconnect delay false = TkConnect (rt_generation w)); congruence|].
    split; [|discriminate]. apply no_deadline_app. split; [exact Hdl|]. constructor; [exact I|constructor].
Qed.

Lemma steady_attempt n w : steady w -> 0 <= n <= maximum_exponent -> steady (with_attempt n w).
Proof. intros [] Hn. constructor; auto. Qed.

Lemma retry_spec reason env w :
  Forall receive_ok (en_receives env) -> steady w -> drivers (rt_generation w + 1) (rt_tasks w) = [] ->
  exists w', retry_on_io reason env w = (Ok tt, w') /\ rt_tunnels w' = rt_tunnels w /\
    (finished_ok w' /\ rt_generation w' = rt_generation w \/
     steady w' /\ waiting w' /\ rt_generation w' = rt_generation w + 1).
Proof using Type PL.
  intros He Hs Hd. pose proof (sy_running _ Hs) as (_ & _ & Hfin & _).
  destruct (rt_stop_requested w || rt_intentional_stop w)%bool eqn:Esi.
  { destruct (finish_spec env w He Hs) as (w' & E & Hf & Ht & Hg).
    { apply orb_true_iff in Esi as [H|H]; [apply (sy_reason _ Hs), H|left; exact H]. }
    exists w'. unfold retry_on_io, bind at 1, this at 1, get. rewrite Hfin, Esi. auto. }
  apply orb_false_iff in Esi as [Es Ei]. rewrite retry_until_join by assumption.
  destruct (given_up env w He Hs Hd Es) as (w1 & E & Hs1 & Hn1 & Hp1 & Ht1 & Hg1 & Hd1 & Hdl1). rewrite E. clear E.
  pose proof (sy_attempt _ Hs1) as Hat. destruct (next_delay_spec env w1 Hat) as (delay & Ed & Hdelay).
  apply delay_bounds in Hdelay; [|apply Hat]. unfold bind at 1. rewrite Ed.
  destruct (schedule_reconnect (reason +:+ "; retrying in " +:+ to_string delay +:+ "ms") delay
    (with_attempt (Z.min (rt_attempt w1 + 1) maximum_exponent) w1)) as (w' & E & Ht & Hg & Hs' & Hw'); try assumption.
  { apply steady_attempt; [exact Hs1|]. unfold maximum_exponent in *. lia. }
  exists w'. split; [exact E|]. split; [rewrite Ht; exact Ht1|]. right. split; [exact Hs'|]. split; [exact Hw'|].
  rewrite Hg. exact Hg1.
Qed.

(** *** The invariant *)

(** Every tunnel ever made has kept its own invariant (TunnelClient.v). *)
Definition tunnels_kept w : Prop :=
  forall g t, rt_tunnels w !! g = Some t ->
    g <= rt_generation w /\ if stopped_ t then over t else beginning (started_ t) t \/ resting true t.

Record tunnels_ok w : Prop := {
  ts_kept : tunnels_kept w;
  (* the pointer is to an open tunnel, which has started or will *)
  ts_current g : rt_tunnel w = Some g -> exists t, rt_tunnels w !! g = Some t /\ stopped_ t = false /\
    (started_ t = false -> exists sni, TkTunnel g (TeStart sni) ∈ rt_tasks w);
  (* an open tunnel of this generation is the one pointed to *)
  ts_open g t : rt_tunnels w !! g = Some t -> stopped_ t = false -> g = rt_generation w ->
    rt_tunnel w = Some g /\ (handed (controller_ t) = false -> rt_packet_thread w = None)
}.

Definition running w : Prop := steady w /\ tunnels_ok w /\ (waiting w \/ exists g, tunnelled g w).
Definition sound w : Prop := finished_ok w \/ running w.

(** What an event leads to. *)
Definition leads (m : M W unit) w : Prop := exists w', m w = (Ok tt, w') /\ sound w'.

(** *** Removing a task *)

Definition without (l1 l2 : list task) w : W := with_tasks (l1 ++ l2) w.

Lemma steady_without w l1 t l2 : rt_tasks w = l1 ++ t :: l2 -> steady w -> steady (without l1 l2 w).
Proof.
  intros E []. constructor; cbn; auto.
  - rewrite E in sy_tasks0. apply Forall_app in sy_tasks0 as [H1 H2]. apply Forall_cons in H2 as [_ H2].
    apply Forall_app. auto.
  - intros Hin. apply sy_stop0. rewrite E. rewrite elem_of_app, elem_of_cons in *. tauto.
Qed.

Lemma in_without (u t : task) l1 l2 : u ∈ l1 ++ t :: l2 -> u <> t -> u ∈ l1 ++ l2.
Proof. rewrite !elem_of_app, elem_of_cons. tauto. Qed.

Lemma drivers_without c l1 t l2 :
  drivers c (l1 ++ t :: l2) = drivers c l1 ++ (if drives c t then [t] else []) ++ drivers c l2.
Proof. rewrite drivers_app. unfold drivers. cbn [List.filter]. destruct (drives c t); reflexivity. Qed.

Lemma no_driver_left c l1 t l2 d :
  drivers c (l1 ++ t :: l2) = [d] -> drives c t = true -> t = d /\ drivers c (l1 ++ l2) = [].
Proof.
  rewrite drivers_without, drivers_app. intros E Ht. rewrite Ht in E.
  destruct (drivers c l1) as [|x []]; cbn in E; try discriminate. injection E as -> ->. auto.
Qed.
Lemma driver_left c l1 t l2 : drives c t = false -> drivers c (l1 ++ l2) = drivers c (l1 ++ t :: l2).
Proof. intros E. rewrite drivers_without, drivers_app, E. reflexivity. Qed.

(** Tasks that drive any generation. *)
Definition drives_any (t : task) : bool := match t with TkBegin | TkReconnect _ _ => true | _ => false end.

Lemma drivers_next c ts :
  Forall (task_ok c) ts -> (forall t, t ∈ drivers c ts -> drives_any t = false) -> drivers (c + 1) ts = [].
Proof.
  intros Hts Hd. destruct (drivers (c + 1) ts) as [|t l] eqn:E; [reflexivity|exfalso].
  assert (Hin : t ∈ drivers (c + 1) ts) by (rewrite E; left).
  unfold drivers in *. apply list_elem_of_In, filter_In in Hin as [Hin Hdr]. apply list_elem_of_In in Hin.
  assert (Ha : drives_any t = true).
  { rewrite Forall_forall in Hts. specialize (Hts t Hin). destruct t; cbn in *; try discriminate; auto; lia. }
  rewrite Hd in Ha; [discriminate|]. apply list_elem_of_In, filter_In. split; [apply list_elem_of_In, Hin|].
  destruct t; cbn in Ha |- *; try discriminate; reflexivity.
Qed.

(** *** From one mode to another *)

Lemma kept_without w l1 l2 : tunnels_kept w -> tunnels_kept (without l1 l2 w).
Proof. auto. Qed.

Lemma retired w w' :
  tunnels_kept w -> rt_tunnels w' = rt_tunnels w -> rt_generation w' = rt_generation w + 1 -> rt_tunnel w' = None ->
  tunnels_ok w'.
Proof.
  intros Hk Et Eg En. constructor.
  - intros g t H. rewrite Et in H. destruct (Hk g t H) as [Hg Ht]. split; [lia|exact Ht].
  - congruence.
  - intros g t H _ ->. rewrite Et in H. destruct (Hk _ _ H). lia.
Qed.

Lemma finish_leads env w :
  Forall receive_ok (en_receives env) -> steady w -> rt_intentional_stop w = true \/ rt_failure_message w <> "" ->
  leads (finish_on_io env) w.
Proof using Type PL.
  intros He Hs Hr. destruct (finish_spec env w He Hs Hr) as (w' & E & Hf & _). exists w'. split; [exact E|left; exact Hf].
Qed.

Lemma retry_leads reason env w :
  Forall receive_ok (en_receives env) -> steady w -> drivers (rt_generation w + 1) (rt_tasks w) = [] ->
  tunnels_kept w -> leads (retry_on_io reason env) w.
Proof using Type PL.
  intros He Hs Hd Hk. destruct (retry_spec reason env w He Hs Hd) as (w' & E & Et & [[Hf _]|(Hs' & Hw' & Eg)]).
  - exists w'. split; [exact E|left; exact Hf].
  - exists w'. split; [exact E|]. right. split; [exact Hs'|]. split; [|left; exact Hw'].
    eapply retired; eauto. apply (wt_tunnel _ Hw').
Qed.

Lemma leads_self (k : W -> M W unit) w : leads (k w) w -> leads (bind this k) w.
Proof. auto. Qed.

Lemma idle_leads w : running w -> leads (ret tt) w.
Proof. intros Hr. exists w. split; [reflexivity|right; exact Hr]. Qed.

(** No tunnel, and the task that moved the connection on has been taken. *)
Record between w : Prop := {
  bw_steady : steady w;
  bw_kept : tunnels_kept w;
  bw_none : rt_tunnel w = None;
  bw_drivers : drivers (rt_generation w) (rt_tasks w) = [];
  bw_open : forall g t, rt_tunnels w !! g = Some t -> stopped_ t = false -> g <> rt_generation w
}.

Lemma between_next w : between w -> drivers (rt_generation w + 1) (rt_tasks w) = [].
Proof.
  intros []. apply drivers_next; [apply bw_steady0|]. intros t Ht. rewrite bw_drivers0 in Ht.
  apply not_elem_of_nil in Ht. contradiction.
Qed.
Lemma between_thread w : between w -> rt_packet_thread w = None.
Proof. intros [[] _ Hn _ _]. destruct (rt_packet_thread w); [congruence|reflexivity]. Qed.

Lemma stop_leads env w : Forall receive_ok (en_receives env) -> steady w -> rt_stop_requested w = true -> leads (finish_on_io env) w.
Proof using Type PL. intros He Hs Hr. apply finish_leads; auto. apply Hs, Hr. Qed.

Lemma begin_connect_leads env w :
  Forall receive_ok (en_receives env) -> between w -> rt_pending_stream w = false -> leads (begin_connect env) w.
Proof using Type PL.
  intros He Hb Hp. pose proof (between_next w Hb) as Hd. pose proof (between_thread w Hb) as Hpt.
  destruct Hb as [Hs Hk Hn Hd0 Ho]. unfold begin_connect. apply leads_self.
  destruct (rt_stop_requested w) eqn:Es; [apply stop_leads; assumption|].
  eexists. run_io_code. cbn -[Z.add]. split; [reflexivity|]. right.
  match goal with |- running ?x => set (w' := x) end.
  set (c := rt_generation w + 1) in *.
  assert (Et : rt_tasks w' = map cancel_deadline (rt_tasks w) ++ [TkDeadline c false; TkResolve c])
    by (change (rt_tasks w') with ((map cancel_deadline (rt_tasks w) ++ [TkDeadline c false]) ++ [TkResolve c]); rewrite <- app_assoc; reflexivity).
  assert (Eg : rt_generation w' = c) by reflexivity.
  pose proof Hs as [Hcfg Hnet Hat Hts Hstop Hreason Hrun Hev Hth].
  split; [|split].
  - constructor; rewrite ?Et, ?Eg; auto.
    + apply Forall_app. split; [apply tasks_ok_cancel_deadline; eapply tasks_ok_grow; [|exact Hts]; lia|].
      repeat constructor; cbn; lia.
    + intros [H|H]%elem_of_app; [apply Hstop, stop_in_cancelled; auto|]. rewrite !elem_of_cons in H.
      destruct H as [?|[?|H]]; try discriminate. apply not_elem_of_nil in H. contradiction.
    + apply Forall_app. split; [exact Hev|]. constructor; [reflexivity|constructor].
  - eapply retired; eauto.
  - left. constructor; [exact Hn|]. exists (TkResolve c). rewrite Et, Eg, drivers_app, drivers_cancel_deadline, Hd.
    cbn. rewrite Z.eqb_refl. split; [reflexivity|]. split; [change (rt_pending_stream w = true -> TkResolve c = TkConnect c); congruence|].
    intros _. apply elem_of_app. right. left.
Qed.

(** *** The handlers *)

Lemma record_spec message w :
  steady w -> message <> "" ->
  exists w', record_failure message w = (Ok tt, w') /\ steady w' /\ rt_failure_message w' <> "".
Proof.
  intros Hs Hm. unfold record_failure, modify. eexists. split; [reflexivity|].
  case_bool_decide as E; [|auto]. split; [|exact Hm]. destruct Hs. constructor; cbn; auto.
Qed.

Lemma record_finish_leads message env (k : W -> M W unit) w :
  Forall receive_ok (en_receives env) -> steady w -> message <> "" ->
  leads (let* _ := record_failure message in finish_on_io env) w.
Proof using Type PL.
  intros He Hs Hm. destruct (record_spec message w Hs Hm) as (w' & E & Hs' & Hf).
  destruct (finish_leads env w' He Hs' (or_intror Hf)) as (w2 & E2 & Hw2).
  exists w2. split; [|exact Hw2]. unfold bind. rewrite E. exact E2.
Qed.

Lemma steady_net n w :
  steady w -> rt_packet_thread w = None -> home (wants_full_tunnel w) n -> steady (with_net n w).
Proof.
  intros [Hcfg Hnet Hat Hts Hstop Hreason Hrun Hev Hth] Hp Hh. constructor; auto.
  rewrite Hp in Hth. apply idle_restorable; [apply Hth|exact Hh].
Qed.
(** The kill switch is enabled only while nothing is configured. *)
Lemma steady_guarded endpoints w :
  steady w -> rt_packet_thread w = None -> wants_full_tunnel w = true ->
  home (wants_full_tunnel w) (enable_kill_switch endpoints (rt_net w)).2.
Proof.
  intros Hs Hp Hf. pose proof (sy_thread _ Hs) as Hth. rewrite Hp in Hth.
  eapply home_guarded; [exact Hf| |reflexivity]. eapply idle_restorable; [apply Hth|apply Hs].
Qed.

(** Where the test for full-tunnel mode leaves the runtime. *)
Lemma guard_spec endpoints env w :
  Forall receive_ok (en_receives env) -> steady w -> rt_packet_thread w = None ->
  exists (b : bool) w', guard_full_tunnel endpoints env w = (Ok b, w') /\
    if b then exists n, w' = with_net n w /\ steady w' else finished_ok w'.
Proof using Type PL.
  intros He Hs Hp. unfold guard_full_tunnel. unfold bind at 1, this at 1, get.
  assert (Hfail : forall message w1, steady w1 -> message <> "" ->
    exists (b : bool) w', (let* _ := record_failure message in let* _ := finish_on_io env in ret false) w1 = (Ok b, w') /\
      if b then exists n, w' = with_net n w /\ steady w' else finished_ok w').
  { intros message w1 Hs1 Hm. destruct (record_spec message w1 Hs1 Hm) as (w2 & E & Hs2 & Hf).
    destruct (finish_spec env w2 He Hs2 (or_intror Hf)) as (w3 & E3 & Hw3 & _).
    exists false, w3. split; [|exact Hw3]. unfold bind. rewrite E, E3. reflexivity. }
  destruct (requests_full_tunnel (rt_config w)) eqn:Hf; cbn [negb].
  2:{ exists true, w. split; [reflexivity|]. exists (rt_net w). split; [destruct w; reflexivity|exact Hs]. }
  destruct (negb win32); [apply Hfail; [exact Hs|discriminate]|].
  destruct (negb is_windows_backend); [apply Hfail; [exact Hs|discriminate]|].
  unfold try_catch, on_device. pose proof (steady_guarded (map to_vpn_endpoint endpoints) w Hs Hp Hf) as Hk.
  unfold bind at 1. destruct (enable_kill_switch _ (rt_net w)) as [[[]|e] n]; cbn [snd] in Hk.
  - exists true, (with_net n w). split; [reflexivity|]. exists n. split; [reflexivity|apply steady_net; assumption].
  - apply Hfail; [apply steady_net; assumption|discriminate].
Qed.

Lemma handle_resolve_leads error endpoints env w :
  Forall receive_ok (en_receives env) -> between w -> rt_pending_stream w = false ->
  (rt_stop_requested w = false -> TkDeadline (rt_generation w) false ∈ rt_tasks w) ->
  leads (handle_resolve (rt_generation w) error endpoints env) w.
Proof using Type PL.
  intros He Hb Hp Hdl. pose proof (between_next w Hb) as Hd. pose proof (between_thread w Hb) as Hpt.
  pose proof Hb as [Hs Hk Hn Hd0 Ho]. unfold handle_resolve. apply leads_self. rewrite Z.eqb_refl. cbn [negb].
  destruct (rt_stop_requested w) eqn:Es; [apply stop_leads; assumption|].
  destruct error as [message|]; [apply retry_leads; assumption|].
  unfold leads, bind at 1.
  destruct (guard_spec endpoints env w He Hs Hpt) as ([] & w1 & -> & Hg); cbn [negb];
    [destruct Hg as (n & -> & Hsteady)|exists w1; split; [reflexivity|left; exact Hg]].
  eexists. run_io_code. cbn -[Z.add]. split; [reflexivity|]. right.
  match goal with |- running ?x => set (w' := x) end.
  set (c := rt_generation w) in *.
  assert (Et : rt_tasks w' = rt_tasks w ++ [TkConnect c]) by reflexivity.
  assert (Eg : rt_generation w' = c) by reflexivity.
  pose proof Hsteady as [Hcfg Hnet Hat Hts Hstop Hreason Hrun Hev Hth].
  split; [|split].
  - constructor; rewrite ?Et, ?Eg; auto.
    + apply Forall_app. split; [exact Hts|]. repeat constructor. cbn. subst c. lia.
    + intros [H|H%list_elem_of_singleton]%elem_of_app; [apply Hstop, H|discriminate].
    + apply Forall_app. split; [exact Hev|]. constructor; [reflexivity|constructor].
  - constructor; [exact Hk| |].
    + intros g Hg. change (rt_tunnel w = Some g) in Hg. congruence.
    + intros g t Ht Hst Hg. exfalso. exact (Ho g t Ht Hst Hg).
  - left. constructor; [exact Hn|]. exists (TkConnect c). rewrite Et, Eg, drivers_app, Hd0.
    cbn. rewrite Z.eqb_refl. split; [reflexivity|]. split; [reflexivity|].
    change (rt_stop_requested w = false -> TkDeadline c false ∈ rt_tasks w ++ [TkConnect c]).
    intros _. apply elem_of_app. left. apply Hdl. reflexivity.
Qed.

Lemma usable_tunnel config :
  usable config -> exists t, make_tunnel (cc_expected_server_name config) true true true (cc_requested_mtu config) 256 (Z.shiftl 1 20) = Ok t /\
    beginning false t /\ started_ t = false /\ stopped_ t = false /\ handed (controller_ t) = false.
Proof.
  intros [Hn Hm].
  destruct (make_tunnel (cc_expected_server_name config) true true true (cc_requested_mtu config) 256 (Z.shiftl 1 20)) as [t|e] eqn:E.
  - assert (H1 : in_u64 256) by int_lia. assert (H2 : in_u64 (Z.shiftl 1 20)) by (change (Z.shiftl 1 20) with 1048576; int_lia).
    pose proof (make_tunnel_ok _ _ _ _ _ _ _ H1 H2 E) as Hb.
    assert (Hst : started_ t = false).
    { unfold make_tunnel in E. inv_ok. subst t. reflexivity. }
    exists t. rewrite Hst in Hb. split; [reflexivity|]. split; [exact Hb|]. split; [exact Hst|].
    split; [apply (lv_open _ _ (bg_live _ _ Hb))|]. unfold handed. rewrite (bg_idle _ _ Hb). reflexivity.
  - exfalso. revert E. unfold make_tunnel, make_client, encode_client_hello. cbn [obind hello_of requested_mtu capabilities].
    rewrite (proj2 (Z.ltb_ge (cc_requested_mtu config) _)), (proj2 (Z.ltb_ge kMaximumTunnelMtu _)) by lia.
    cbn [orb reject_if obind].
    match goal with |- context [reject_if ?b _] => change b with false end. cbn [reject_if obind].
    match goal with |- context [make_queue 256 ?b] => let v := eval vm_compute in (make_queue 256 b) in
      change (make_queue 256 b) with v end.
    cbn [obind]. rewrite bool_decide_false by exact Hn. discriminate.
Qed.

Lemma handle_connect_leads error sni env w :
  Forall receive_ok (en_receives env) -> between w ->
  (rt_stop_requested w = false -> TkDeadline (rt_generation w) false ∈ rt_tasks w) ->
  leads (handle_connect (rt_generation w) error sni env) w.
Proof using Type PL.
  intros He Hb Hdl. pose proof (between_next w Hb) as Hd. pose proof (between_thread w Hb) as Hpt.
  pose proof Hb as [Hs Hk Hn Hd0 Ho].
  unfold handle_connect. apply leads_self. rewrite Z.eqb_refl. cbn [negb].
  destruct (rt_stop_requested w) eqn:Es; [apply stop_leads; assumption|].
  destruct error as [message|]; [apply retry_leads; assumption|].
  pose proof Hs as [Hcfg Hnet Hat Hts Hstop Hreason Hrun Hev Hth].
  destruct (usable_tunnel _ Hcfg) as (t & E & Hbg & Hst & Hop & Hh).
  unfold leads, bind at 1, lift. rewrite E.
  eexists. run_io_code. cbn -[Z.add]. split; [reflexivity|]. right.
  match goal with |- running ?x => set (w' := x) end.
  set (c := rt_generation w) in *.
  assert (Et : rt_tasks w' = rt_tasks w ++ [TkTunnel c (TeStart sni)]) by reflexivity.
  assert (Eg : rt_generation w' = c) by reflexivity.
  assert (Ek : rt_tunnels w' = <[c := t]> (rt_tunnels w)) by reflexivity.
  split; [|split].
  - constructor; rewrite ?Et, ?Eg; auto.
    + apply Forall_app. split; [exact Hts|]. repeat constructor.
    + intros [H|H%list_elem_of_singleton]%elem_of_app; [apply Hstop, H|discriminate].
    + change (match rt_packet_thread w with Some g => Some c = Some g
        | None => idle (rt_transaction w) /\ rt_reading_packets w = false end).
      rewrite Hpt in *. exact Hth.
  - constructor.
    + intros g t'. rewrite Ek, Eg. intros [[<- <-]|[Hne H]]%lookup_insert_Some.
      * rewrite Hop. split; [lia|]. rewrite Hst. auto.
      * apply Hk in H. exact H.
    + intros g [= <-]. exists t. rewrite Ek, lookup_insert_eq. split; [reflexivity|]. split; [exact Hop|].
      intros _. exists sni. rewrite Et. apply elem_of_app. right. left.
    + intros g t'. rewrite Ek, Eg. intros [[<- <-]|[Hne H]]%lookup_insert_Some Hst' Hg; [|congruence].
      split; [reflexivity|]. intros _. exact Hpt.
  - right. exists c. constructor; [split; reflexivity| |].
    + rewrite Et, drivers_app, Hd0. split; reflexivity.
    + rewrite Et. change (rt_stop_requested w' = false -> rt_packet_thread w' = None ->
        TkDeadline c false ∈ rt_tasks w ++ [TkTunnel c (TeStart sni)]).
      intros _ _. apply elem_of_app. left. apply Hdl. reflexivity.
Qed.

(** *** Taking a task *)

(** The task that drove the connection. *)
Lemma take_driver w l1 t l2 :
  rt_tasks w = l1 ++ t :: l2 -> steady w -> tunnels_ok w -> waiting w \/ (exists g, tunnelled g w) ->
  drives (rt_generation w) t = true ->
  between (without l1 l2 w) /\ waiting w /\ drivers (rt_generation w) (rt_tasks w) = [t].
Proof.
  intros E Hs Ht Hm Hd. destruct Hm as [Hw|[g [[Htn Hg] [Hn _] _]]].
  2:{ exfalso. rewrite Hg, E, drivers_without, <- Hg, Hd in *. destruct (drivers _ l1); discriminate. }
  pose proof Hw as [Hnone (d & Hdr & _)]. rewrite E in Hdr. destruct (no_driver_left _ _ _ _ _ Hdr Hd) as [-> Hl].
  split; [|split; [exact Hw|rewrite E; exact Hdr]]. constructor.
  - eapply steady_without; eassumption.
  - apply kept_without, Ht.
  - exact Hnone.
  - exact Hl.
  - intros g t Hg Ho Heq. destruct (ts_open _ Ht g t Hg Ho Heq) as [H _]. congruence.
Qed.

(** Any other task, but a live deadline, makes no difference. *)
Lemma take_mode w l1 t l2 :
  rt_tasks w = l1 ++ t :: l2 -> steady w -> waiting w \/ (exists g, tunnelled g w) ->
  drives (rt_generation w) t = false -> t <> TkDeadline (rt_generation w) false ->
  steady (without l1 l2 w) /\ (waiting (without l1 l2 w) \/ exists g, tunnelled g (without l1 l2 w)).
Proof.
  intros E Hs Hm Hd Hdl. split; [eapply steady_without; eassumption|].
  destruct Hm as [[Hn (d & Hdr & Hp & Hx)]|[g [[Htn Hg] [Hn Hps] Hdead]]]; [left|right; exists g].
  - constructor; [exact Hn|]. exists d. cbn [without rt_tasks rt_generation rt_pending_stream rt_stop_requested with_tasks].
    rewrite (driver_left _ _ _ _ Hd), <- E. split; [exact Hdr|].
    split; [exact Hp|]. assert (Hnd : no_deadline (rt_generation w) (rt_tasks w) -> no_deadline (rt_generation w) (l1 ++ l2)).
    { rewrite E, !no_deadline_app. intros [H1 H2]. apply Forall_cons in H2 as [_ H2]. auto. }
    destruct d; try (intros Hs'; rewrite E in Hx; eapply in_without; [apply Hx, Hs'|congruence]).
    + apply Hnd, Hx.
    + destruct Hx as [H1 H2]. split; [apply Hnd, H1|exact H2].
  - subst g. constructor; [split; [exact Htn|reflexivity]| |].
    + cbn [without rt_tasks rt_generation rt_pending_stream with_tasks]. rewrite (driver_left _ _ _ _ Hd), <- E. auto.
    + intros H1 H2. specialize (Hdead H1 H2). rewrite E in Hdead. eapply in_without; [exact Hdead|congruence].
Qed.

Lemma take_other w l1 t l2 :
  rt_tasks w = l1 ++ t :: l2 -> steady w -> tunnels_ok w -> waiting w \/ (exists g, tunnelled g w) ->
  drives (rt_generation w) t = false -> t <> TkDeadline (rt_generation w) false ->
  (forall g sni, t <> TkTunnel g (TeStart sni)) ->
  running (without l1 l2 w).
Proof.
  intros E Hs Ht Hm Hd Hdl Hst. destruct (take_mode _ _ _ _ E Hs Hm Hd Hdl) as [Hs' Hm'].
  split; [exact Hs'|]. split; [|exact Hm']. destruct Ht as [Hk Hc Ho]. constructor; [exact Hk| |exact Ho].
  intros g Hg. destruct (Hc g Hg) as (t' & H1 & H2 & H3). exists t'. split; [exact H1|]. split; [exact H2|].
  intros H4. destruct (H3 H4) as [sni Hin]. exists sni. rewrite E in Hin. eapply in_without; [exact Hin|].
  intros He. symmetry in He. exact (Hst _ _ He).
Qed.

Lemma running_kept w : running w -> tunnels_kept w.
Proof. intros (_ & [Hk _ _] & _). exact Hk. Qed.

(** *** The deadline, the reconnect timer, [stop] *)

Lemma handle_deadline_leads l1 g cancelled error l2 env w :
  Forall receive_ok (en_receives env) -> rt_tasks w = l1 ++ TkDeadline g cancelled :: l2 ->
  running w -> (error = true -> cancelled = true) ->
  leads (handle_deadline g error env) (without l1 l2 w).
Proof using Type PL.
  intros He E (Hs & Ht & Hm) Hc. unfold handle_deadline. apply leads_self.
  cbn [rt_generation rt_finished without with_tasks].
  destruct (negb error && (g =? rt_generation w) && negb (rt_finished w))%bool eqn:Eb.
  - apply andb_true_iff in Eb as [Eb _]. apply andb_true_iff in Eb as [Ee Eg]. apply Z.eqb_eq in Eg. subst g.
    assert (Hs1 : steady (without l1 l2 w)) by (eapply steady_without; eassumption).
    apply retry_leads; [exact He|exact Hs1| |apply kept_without, Ht].
    apply drivers_next; [apply Hs1|]. intros t Hin.
    assert (Hin' : t ∈ drivers (rt_generation w) (rt_tasks w)).
    { rewrite E, <- (driver_left _ l1 (TkDeadline (rt_generation w) cancelled) l2 eq_refl). exact Hin. }
    destruct Hm as [[_ (d & Hdr & _ & Hx)]|[c [[_ Hg] [Hn _] _]]].
    + rewrite Hdr in Hin'. apply list_elem_of_singleton in Hin' as ->.
      assert (Hno : no_deadline (rt_generation w) (rt_tasks w) -> False).
      { intros H. rewrite E in H. apply no_deadline_app in H as [_ H]. apply Forall_cons in H as [H _]. lia. }
      destruct d; try reflexivity; exfalso; apply Hno; apply Hx.
    + rewrite Hg, Hn in Hin'. apply not_elem_of_nil in Hin'. contradiction.
  - apply idle_leads. eapply take_other; [exact E|exact Hs|exact Ht|exact Hm|reflexivity| |discriminate].
    intros [= -> ->]. rewrite Z.eqb_refl in Eb. destruct (sy_running _ Hs) as (_ & _ & Hf & _). rewrite Hf in Eb.
    destruct error; [specialize (Hc eq_refl); discriminate|discriminate].
Qed.

Lemma handle_reconnect_leads l1 delay cancelled error l2 env w :
  Forall receive_ok (en_receives env) -> rt_tasks w = l1 ++ TkReconnect delay cancelled :: l2 ->
  running w -> (error = true -> cancelled = true) ->
  leads (handle_reconnect error env) (without l1 l2 w).
Proof using Type PL.
  intros He E (Hs & Ht & Hm) Hc. destruct (take_driver w l1 _ l2 E Hs Ht Hm eq_refl) as (Hb & [_ (d & Hdr & Hp & Hx)] & Hd).
  rewrite Hd in Hdr. injection Hdr as <-. destruct Hx as [_ Hx].
  assert (Hps : rt_pending_stream w = false).
  { destruct (rt_pending_stream w) eqn:Ep; [specialize (Hp eq_refl); discriminate|reflexivity]. }
  unfold handle_reconnect. apply leads_self. cbn [rt_stop_requested rt_finished without with_tasks].
  destruct (sy_running _ Hs) as (_ & _ & Hf & _). rewrite Hf.
  destruct (rt_stop_requested w) eqn:Es.
  - cbn [negb andb]. rewrite andb_false_r. apply stop_leads; [exact He|apply Hb|exact Es].
  - destruct error; [specialize (Hx (Hc eq_refl)); discriminate|]. cbn [negb andb].
    apply begin_connect_leads; [exact He|exact Hb|exact Hps].
Qed.

Lemma stop_on_io_leads l1 l2 env w :
  Forall receive_ok (en_receives env) -> rt_tasks w = l1 ++ TkStop :: l2 -> running w ->
  leads (stop_on_io env) (without l1 l2 w).
Proof using Type PL.
  intros He E Hrun. pose proof Hrun as (Hs & Ht & Hm).
  assert (Hir : rt_intentional_stop w = true /\ rt_stop_requested w = true)
    by (apply (sy_stop _ Hs); rewrite E; apply elem_of_app; right; left).
  assert (Hrun' : running (without l1 l2 w)) by (eapply take_other; [exact E|exact Hs|exact Ht|exact Hm|reflexivity|discriminate|discriminate]).
  set (w1 := without l1 l2 w) in *.
  set (w2 := with_tasks (map cancel_reconnect (map cancel_deadline (rt_tasks w1))) w1).
  assert (Hst : rt_stop_requested w2 = true) by apply Hir.
  assert (Hs2 : steady w2).
  { destruct Hrun' as ([] & _). constructor; cbn; auto.
    apply tasks_ok_cancel_reconnect, tasks_ok_cancel_deadline. assumption. }
  unfold leads, stop_on_io. run_io_code. change (exists w', (match rt_tunnel w2 with
    | Some _ => stop_tunnel 0 | None => finish_on_io env end) w2 = (Ok tt, w') /\ sound w').
  destruct (rt_tunnel w2) as [g|] eqn:Etn; [|apply stop_leads; assumption].
  unfold stop_tunnel. run_io_code. rewrite Etn. eexists. split; [reflexivity|]. right.
  match goal with |- running ?x => set (w' := x) end.
  assert (Et : rt_tasks w' = rt_tasks w2 ++ [TkTunnel g (TeStop 0)]) by reflexivity.
  destruct Hrun' as (_ & Ht' & Hm').
  destruct Hm' as [[Hn _]|[c [[Htn Hg] [Hn Hps] Hdead]]]; [change (rt_tunnel w1) with (rt_tunnel w2) in Hn; congruence|].
  change (rt_tunnel w1) with (rt_tunnel w2) in Htn. assert (c = g) as -> by congruence.
  split; [|split].
  - destruct Hs2. constructor; auto; rewrite ?Et.
    apply Forall_app. split; [assumption|]. repeat constructor; cbn; int_lia.
  - destruct Ht' as [Hk Hc Ho]. constructor; [exact Hk| |exact Ho].
    intros g' Hg'. destruct (Hc g' Hg') as (t & H1 & H2 & H3). exists t. split; [exact H1|]. split; [exact H2|].
    intros H4. destruct (H3 H4) as [sni Hin]. exists sni. rewrite Et. apply elem_of_app. left. cbn.
    apply list_elem_of_fmap. exists (TkTunnel g' (TeStart sni)). split; [reflexivity|].
    apply list_elem_of_fmap. exists (TkTunnel g' (TeStart sni)). auto.
  - right. exists g. constructor.
    + split; [exact Etn|exact Hg].
    + split; [|exact Hps]. rewrite Et, drivers_app. cbn [rt_tasks w2 with_tasks].
      rewrite (drivers_none_cancel_reconnect g) by (rewrite drivers_cancel_deadline; exact Hn).
      rewrite drivers_cancel_deadline, Hn. reflexivity.
    + intros Hsf. change (rt_stop_requested w2 = false) in Hsf. congruence.
Qed.

(** *** A tunnel's calls into the runtime *)

(** While an event of the tunnel [g], which the runtime points to, runs;
    [given] says whether the tunnel has handed over its assignment. *)
Record lent (g : Z) (ts : gmap Z TlsTunnelClient) (starts : list task) (given : bool) w : Prop := {
  le_steady : steady w;
  le_tunnelled : tunnelled g w;
  le_tunnels : rt_tunnels w = ts;
  le_given : given = false -> rt_packet_thread w = None;
  le_starts : forall sni, TkTunnel g (TeStart sni) ∈ starts -> TkTunnel g (TeStart sni) ∈ rt_tasks w
}.
Definition returned (g : Z) (ts : gmap Z TlsTunnelClient) w : Prop :=
  rt_tunnels w = ts /\ (finished_ok w \/ steady w /\ waiting w /\ rt_generation w = g + 1).

Lemma lent_given g ts starts w : lent g ts starts false w -> lent g ts starts true w.
Proof. intros []. constructor; auto. Qed.

Lemma configure_lent g ts starts a w :
  lent g ts starts false w -> lent g ts starts true (configure_network a w).2.
Proof.
  intros Hl. unfold configure_network. unfold bind at 1, this at 1, get.
  destruct (rt_stop_requested w) eqn:Es; [apply lent_given, Hl|].
  destruct Hl as [[Hcfg Hnet Hat Hts Hstop Hreason Hrun Hev Hth] [[Htn Hg] [Hn Hps] Hdl] Hmap Hgiven Hstarts].
  specialize (Hgiven eq_refl). rewrite Hgiven in Hth. destruct Hth as [Hidle Hrd].
  pose proof (activate_restorable _ a (cc_routes (rt_config w)) _ _ Hidle Hnet) as Ha.
  run_io_code. cbv beta iota delta [try_catch].
  match goal with |- context [activate ?x ?y ?p] => change (activate x y p) with (activate a (cc_routes (rt_config w)) (rt_net w, rt_transaction w)) end.
  destruct (activate a (cc_routes (rt_config w)) (rt_net w, rt_transaction w)) as [[[]|e] [n' t']].
  - cbn [negb]. match goal with |- context [match rt_packet_thread ?x with Some _ => _ | None => _ end] =>
      change (rt_packet_thread x) with (rt_packet_thread w) end. rewrite Hgiven. cbn [snd].
    match goal with |- lent _ _ _ _ ?x => set (w' := x) end.
    assert (Et : rt_tasks w' = map cancel_deadline (rt_tasks w)) by reflexivity.
    assert (Ep : rt_packet_thread w' = Some g) by exact Htn.
    constructor; [| |exact Hmap|discriminate|].
    + constructor; rewrite ?Et, ?Ep; auto.
      * change (0 <= 0 <= maximum_exponent). unfold maximum_exponent. lia.
      * apply tasks_ok_cancel_deadline, Hts.
      * intros Hin. apply Hstop. apply stop_in_cancelled. auto.
      * repeat (apply Forall_app; split; [|repeat constructor]). exact Hev.
    + constructor; [split; [exact Htn|exact Hg]| |congruence].
      rewrite Et, drivers_cancel_deadline. auto.
    + intros sni Hin. rewrite Et. apply list_elem_of_fmap. exists (TkTunnel g (TeStart sni)). split; [reflexivity|apply Hstarts, Hin].
  - cbn [negb snd]. destruct Ha as [Hr' Hi'].
    match goal with |- lent _ _ _ _ ?x => set (w' := x) end.
    assert (Ef : exists f, f <> "" /\ w' = with_failure_message f (with_transaction t' (with_net n'
      (with_events (rt_events w ++ [(ConfiguringNetwork, "applying tunnel network transaction")]) (with_state ConfiguringNetwork w))))).
    { subst w'. cbn [rt_failure_message with_transaction with_net with_events with_state].
      case_bool_decide as E; [eexists; split; [|reflexivity]; discriminate|].
      exists (rt_failure_message w). split; [exact E|]. destruct w; reflexivity. }
    destruct Ef as (f & Hf & ->). constructor; [| |exact Hmap|discriminate|exact Hstarts].
    + constructor; cbn; auto.
      * apply Forall_app. split; [exact Hev|]. repeat constructor.
      * rewrite Hgiven. auto.
    + constructor; cbn; auto.
Qed.

Lemma deliver_lent g ts starts b packet w :
  lent g ts starts b w -> lent g ts starts b (deliver_to_packet_device packet w).2.
Proof using Type PL.
  intros [[Hcfg Hnet Hat Hts Hstop Hreason Hrun Hev Hth] [[Htn Hg] [Hn Hps] Hdl] Hmap Hgiven Hstarts].
  unfold deliver_to_packet_device, on_device, stop_tunnel. run_io_code. cbv beta iota delta [try_catch].
  pose proof (send_packet_same packet (rt_net w)) as Hsame.
  destruct (send_packet packet (rt_net w)) as [[[]|e] n]; cbn [snd] in Hsame.
  - constructor; [| |exact Hmap|exact Hgiven|exact Hstarts]; constructor; cbn; auto.
    eapply restorable_same; eassumption.
  - set (f := if bool_decide (rt_failure_message w = "") then "virtual adapter write failed: " +:+ exn_what e else rt_failure_message w).
    assert (Hf : f <> "") by (subst f; case_bool_decide; [discriminate|assumption]).
    match goal with |- lent _ _ _ _ (?p).2 => assert (Ew : p = (Ok tt, with_tasks (rt_tasks w ++ [TkTunnel g (TeStop 2)])
      (with_net (interrupt_receive n) (with_stop_requested true (with_failure_message f (with_net n w)))))) end.
    { subst f. cbn [rt_failure_message with_net]. destruct (bool_decide (rt_failure_message w = ""));
        destruct w; cbn in *; subst; reflexivity. }
    rewrite Ew. cbn [snd]. clear Ew.
    constructor; [| |exact Hmap|exact Hgiven|].
    + constructor; cbn; auto.
      * eapply restorable_same; [|exact Hnet]. transitivity n; [apply interrupt_same|exact Hsame].
      * apply Forall_app. split; [exact Hts|]. repeat constructor; cbn; int_lia.
      * intros [Hin|Hin%list_elem_of_singleton]%elem_of_app; [split; [apply Hstop, Hin|reflexivity]|discriminate].
    + constructor; cbn [rt_tunnel rt_generation rt_tasks rt_pending_stream rt_stop_requested rt_packet_thread
        with_tasks with_net with_stop_requested with_failure_message]; auto; [|discriminate].
      rewrite drivers_app, Hn. auto.
    + intros sni Hin. apply elem_of_app. left. apply Hstarts, Hin.
Qed.

Lemma closed_returned g ts starts b remote_error retryable env w :
  Forall receive_ok (en_receives env) -> lent g ts starts b w ->
  exists w', on_tunnel_closed g remote_error retryable env w = (Ok tt, w') /\ returned g ts w'.
Proof using Type PL.
  intros He [Hs [[Htn Hg] [Hn Hps] Hdl] Hmap _ _]. unfold on_tunnel_closed. unfold bind at 1, this at 1, get.
  rewrite Hg, Z.eqb_refl. cbn [negb].
  assert (Hfinish : forall w1, steady w1 -> rt_tunnels w1 = ts -> rt_intentional_stop w1 = true \/ rt_failure_message w1 <> "" ->
    exists w', finish_on_io env w1 = (Ok tt, w') /\ returned g ts w').
  { intros w1 Hs1 Hm1 Hr. destruct (finish_spec env w1 He Hs1 Hr) as (w' & E & Hf & Ht & _). exists w'.
    split; [exact E|]. split; [congruence|left; exact Hf]. }
  destruct (rt_intentional_stop w || rt_stop_requested w)%bool eqn:Eis.
  { apply Hfinish; [exact Hs|exact Hmap|]. apply orb_true_iff in Eis as [H|H]; [auto|apply (sy_reason _ Hs), H]. }
  assert (Hr : exists w1, (match remote_error with
      | Some error => record_failure ("server rejected the session with error code " +:+ to_string (em_code error))
      | None => if negb retryable then record_failure "VPN tunnel closed because of a non-retryable TLS or protocol error" else ret tt
      end) w = (Ok tt, w1) /\ (w1 = w \/ steady w1 /\ rt_failure_message w1 <> "" /\ rt_tunnels w1 = rt_tunnels w)).
  { assert (Hrec : forall message, message <> "" -> exists w1, record_failure message w = (Ok tt, w1) /\
      (w1 = w \/ steady w1 /\ rt_failure_message w1 <> "" /\ rt_tunnels w1 = rt_tunnels w)).
    { intros message Hm. destruct (record_spec message w Hs Hm) as (w1 & E & Hs1 & Hf). exists w1.
      split; [exact E|]. right. split; [exact Hs1|]. split; [exact Hf|].
      unfold record_failure, modify in E. injection E as <-. case_bool_decide; reflexivity. }
    destruct remote_error; [apply Hrec; discriminate|]. destruct (negb retryable); [apply Hrec; discriminate|].
    exists w. split; [reflexivity|auto]. }
  destruct Hr as (w1 & E1 & Hw1). unfold bind at 1. rewrite E1. unfold bind at 1, this, get.
  destruct Hw1 as [->|(Hs1 & Hf1 & Ht1)].
  - case_bool_decide as Ef; cbn [negb].
    + destruct (retry_spec "VPN transport closed unexpectedly" env w He Hs) as (w' & E & Ht & Hres).
      { rewrite Hg. apply drivers_next; [rewrite <- Hg; apply Hs|]. intros t Hin. rewrite Hn in Hin. apply not_elem_of_nil in Hin. contradiction. }
      exists w'. split; [exact E|]. split; [congruence|]. rewrite Hg in Hres. tauto.
    + apply Hfinish; auto.
  - rewrite bool_decide_false by exact Hf1. cbn [negb]. apply Hfinish; [exact Hs1|congruence|auto].
Qed.

Lemma lent_laws g (ts : gmap Z TlsTunnelClient) (starts : list task) env :
  Forall receive_ok (en_receives env) -> @ClientHostLaws W (host g env).
Proof using PL BL base.
  intros He. refine (@Build_ClientHostLaws W (host g env) (lent g ts starts) (returned g ts) _ _ _ _).
  - intros w. apply lent_given.
  - intros a w _ Hl. cbn. unfold bind, this, get. destruct (le_tunnelled _ _ _ _ _ Hl) as [[_ Eg] _ _].
    rewrite Eg, Z.eqb_refl. apply configure_lent, Hl.
  - intros packet b w Hl. cbn. unfold bind, this, get. destruct (le_tunnelled _ _ _ _ _ Hl) as [[_ Eg] _ _].
    rewrite Eg, Z.eqb_refl. apply deliver_lent, Hl.
  - intros e r b w Hl. cbn. eapply closed_returned; eassumption.
Defined.

(** A tunnel that the runtime does not point to any more cannot change it. *)
Lemma stale_laws g env w0 : g <> rt_generation w0 -> @ClientHostLaws W (host g env).
Proof using Type.
  intros Hg. apply Z.eqb_neq in Hg.
  refine (@Build_ClientHostLaws W (host g env) (fun _ w => w = w0) (fun w => w = w0) _ _ _ _); auto.
  - intros a w _ ->. cbn. unfold bind, this, get. rewrite Hg. reflexivity.
  - intros p b w ->. cbn. unfold bind, this, get. rewrite Hg. reflexivity.
  - intros e r b w ->. exists w0. split; [|reflexivity]. cbn. unfold on_tunnel_closed, bind, this, get. rewrite Hg. reflexivity.
Defined.

(** *** Events of tunnels *)

(** The tunnels before the event [e] of [g], whose task may have been taken. *)
Definition awaiting_event (g : Z) (e : tunnel_event) w : Prop :=
  forall g', rt_tunnel w = Some g' -> exists t, rt_tunnels w !! g' = Some t /\ stopped_ t = false /\
    (started_ t = false -> (exists sni, TkTunnel g' (TeStart sni) ∈ rt_tasks w) \/ g' = g /\ exists sni, e = TeStart sni).

Lemma steady_tunnels ts w : steady w -> steady (with_tunnels ts w).
Proof. intros []. constructor; auto. Qed.
Lemma mode_tunnels ts w :
  waiting w \/ (exists g, tunnelled g w) -> waiting (with_tunnels ts w) \/ (exists g, tunnelled g (with_tunnels ts w)).
Proof. intros [[]|[g []]]; [left|right; exists g]; constructor; auto. Qed.

(** A tunnel that the runtime does not point to has moved on. *)
Lemma stale_updated g e t t' w :
  steady w -> waiting w \/ (exists g, tunnelled g w) -> tunnels_kept w -> awaiting_event g e w ->
  (forall g t, rt_tunnels w !! g = Some t -> stopped_ t = false -> g = rt_generation w ->
     rt_tunnel w = Some g /\ (handed (controller_ t) = false -> rt_packet_thread w = None)) ->
  rt_tunnels w !! g = Some t -> rt_tunnel w <> Some g ->
  (if stopped_ t' then over t' else (beginning (started_ t') t' \/ resting true t') /\ g <> rt_generation w) ->
  running (with_tunnels (<[g := t']> (rt_tunnels w)) w).
Proof.
  intros Hs Hm Hk Hc Ho Hg Hne Ht'. split; [apply steady_tunnels, Hs|]. split; [|apply mode_tunnels, Hm].
  constructor.
  - intros g' t1. cbn. intros [[<- <-]|[Hn H]]%lookup_insert_Some; [|apply (Hk _ _ H)].
    split; [apply (Hk _ _ Hg)|]. destruct (stopped_ t'); [exact Ht'|apply Ht'].
  - intros g' Hg'. cbn in Hg' |- *. destruct (Hc g' Hg') as (t1 & H1 & H2 & H3). exists t1.
    assert (g' <> g) by congruence. rewrite lookup_insert_ne by congruence. split; [exact H1|]. split; [exact H2|].
    intros H4. destruct (H3 H4) as [?|[? _]]; [assumption|contradiction].
  - intros g' t1. cbn. intros [[<- <-]|[Hn H]]%lookup_insert_Some Hop Heq.
    + rewrite Hop in Ht'. destruct Ht' as [_ Hx]. contradiction.
    + apply (Ho _ _ H Hop Heq).
Qed.

(** One event of the tunnel [g]: which case it is depends on whether the tunnel
    is over, belongs to an earlier attempt, or is the current one. *)
Section Turn.
Context (g : Z) (e : tunnel_event) (env : Env) (w : W) (t : TlsTunnelClient).
Context (He : Forall receive_ok (en_receives env)) (Hs : steady w).
Context (Hm : waiting w \/ exists g, tunnelled g w) (Hk : tunnels_kept w) (Hc : awaiting_event g e w).
Context (Ho : forall g t, rt_tunnels w !! g = Some t -> stopped_ t = false -> g = rt_generation w ->
  rt_tunnel w = Some g /\ (handed (controller_ t) = false -> rt_packet_thread w = None)).
Context (Hp : possible e t) (Eg : rt_tunnels w !! g = Some t).

Lemma turn_over : stopped_ t = true -> leads (run_tunnel g e env) w.
Proof using All.
  intros Est. destruct (Hk g t Eg) as [Hgen Ht]. rewrite Est in Ht. unfold leads, run_tunnel. rewrite Eg.
  destruct (@client_over_event W (host g env) e w t Est) as (f & Ef & Hf). rewrite Ef.
  eexists. split; [reflexivity|]. right. eapply stale_updated; eauto.
  - intros Hx. destruct (Hc g Hx) as (t1 & H1 & H2 & _). congruence.
  - cbn [stopped_ put_stream]. rewrite Est. apply client_over_stream; assumption.
Qed.

Lemma turn_stale : stopped_ t = false -> g <> rt_generation w -> leads (run_tunnel g e env) w.
Proof using All.
  intros Est Hstale. destruct (Hk g t Eg) as [Hgen Ht]. rewrite Est in Ht. unfold leads, run_tunnel. rewrite Eg.
  pose (L := stale_laws g env w Hstale).
  assert (Hh : @hosted W (host g env) L w t) by (unfold hosted; rewrite Est; split; [reflexivity|exact Ht]).
  destruct (@run_event W (host g env) e (w, t)) as [r [w' t']] eqn:E.
  destruct (@event_hosted W (host g env) L e w t r w' t' Hh Hp E) as (-> & Hh' & _ & Hend).
  assert (w' = w /\ if stopped_ t' then over t' else beginning (started_ t') t' \/ resting true t') as [-> Ht'].
  { unfold hosted in Hh'. destruct (stopped_ t') eqn:Est'; [|exact Hh'].
    destruct (Hend Est eq_refl) as (_ & Hd & _). split; [exact Hd|exact Hh']. }
  eexists. split; [reflexivity|]. right. eapply stale_updated; eauto.
  - intros Hx. destruct Hm as [[Hn _]|[c [[H1 H2] _ _]]]; congruence.
  - destruct (stopped_ t'); [exact Ht'|]. split; [exact Ht'|exact Hstale].
Qed.

(** The current tunnel has come to its end and given control back. *)
Lemma turn_ended w' t' :
  g = rt_generation w -> stopped_ t' = true -> over t' -> returned g (rt_tunnels w) w' ->
  sound (with_tunnels (<[g := t']> (rt_tunnels w')) w').
Proof using All.
  intros Hcur Est' Ht' [Hts' Hres]. destruct Hres as [[]|(Hs' & Hw' & Hg')]; [left; constructor; auto|]. right.
  split; [apply steady_tunnels, Hs'|]. split; [|apply mode_tunnels; left; exact Hw'].
  pose proof (wt_tunnel _ Hw') as Hnone. constructor; cbn; rewrite ?Hts', ?Hg'.
  - intros g1 t1. cbn. rewrite ?Hts', ?Hg'. intros [[<- <-]|[Hn H]]%lookup_insert_Some; [rewrite Est'; split; [lia|exact Ht']|].
    destruct (Hk _ _ H). split; [lia|assumption].
  - congruence.
  - intros g1 t1 [[<- <-]|[Hn H]]%lookup_insert_Some Hop Heq; [congruence|]. destruct (Hk _ _ H). lia.
Qed.

(** It goes on. *)
Lemma turn_goes_on w' t' :
  g = rt_generation w -> rt_tunnel w = Some g -> stopped_ t = false -> stopped_ t' = false ->
  started_ t' = started_ (@run_event W (host g env) e (w, t)).2.2 ->
  lent g (rt_tunnels w) (rt_tasks w) (handed (controller_ t')) w' -> beginning (started_ t') t' \/ resting true t' ->
  sound (with_tunnels (<[g := t']> (rt_tunnels w')) w').
Proof using All.
  intros Hcur Htn Est Est' Erun [Hs' Htu' Hts' Hgiven' Hstarts'] Ht'. destruct (tn_tunnel _ _ Htu') as [Htn' Hg'].
  right. split; [apply steady_tunnels, Hs'|]. split; [|apply mode_tunnels; right; exists g; exact Htu'].
  constructor; cbn; rewrite ?Hts', ?Hg'.
  - intros g1 t1. cbn. rewrite ?Hts', ?Hg'. intros [[<- <-]|[Hn H]]%lookup_insert_Some; [rewrite Est'; split; [lia|exact Ht']|].
    destruct (Hk _ _ H). split; [lia|assumption].
  - intros g1 Hg1. assert (g1 = g) as -> by congruence. exists t'. rewrite lookup_insert_eq.
    split; [reflexivity|]. split; [exact Est'|]. intros Hns. rewrite Erun in Hns.
    assert (Hns0 : started_ t = false).
    { destruct (started_ t) eqn:Es; [|reflexivity]. pose proof (@run_event_started W (host g env) e (w, t) Es). congruence. }
    destruct (Hc g Htn) as (t1 & H1 & _ & H3). assert (t1 = t) as -> by congruence.
    destruct (H3 Hns0) as [[sni Hin]|[_ [sni ->]]]; [exists sni; apply Hstarts', Hin|].
    pose proof (@start_starts W (host g env) sni w t Est). congruence.
  - intros g1 t1 [[<- <-]|[Hn H]]%lookup_insert_Some Hop Heq; [auto|]. congruence.
Qed.

Lemma turn_current : stopped_ t = false -> g = rt_generation w -> leads (run_tunnel g e env) w.
Proof using All.
  intros Est Hcur. destruct (Hk g t Eg) as [Hgen Ht]. rewrite Est in Ht. destruct (Ho g t Eg Est Hcur) as [Htn Hgiven].
  assert (Htu : tunnelled g w).
  { destruct Hm as [[Hn _]|[c Hx]]; [congruence|]. destruct (tn_tunnel _ _ Hx) as [H1 _]. congruence. }
  pose (L := lent_laws g (rt_tunnels w) (rt_tasks w) env He). unfold leads, run_tunnel. rewrite Eg.
  assert (Hh : @hosted W (host g env) L w t).
  { unfold hosted. rewrite Est. split; [|exact Ht]. constructor; auto. }
  destruct (@run_event W (host g env) e (w, t)) as [r [w' t']] eqn:E.
  destruct (@event_hosted W (host g env) L e w t r w' t' Hh Hp E) as (-> & Hh' & _ & Hend).
  eexists. split; [reflexivity|]. unfold hosted in Hh'. destruct (stopped_ t') eqn:Est'.
  - destruct (Hend Est eq_refl) as (_ & Hret & _). apply turn_ended; assumption.
  - destruct Hh' as [Hlent Ht']. apply turn_goes_on; try assumption. rewrite E. reflexivity.
Qed.
End Turn.

Lemma run_tunnel_leads g e env w :
  Forall receive_ok (en_receives env) ->
  steady w -> waiting w \/ (exists g, tunnelled g w) -> tunnels_kept w -> awaiting_event g e w ->
  (forall g t, rt_tunnels w !! g = Some t -> stopped_ t = false -> g = rt_generation w ->
     rt_tunnel w = Some g /\ (handed (controller_ t) = false -> rt_packet_thread w = None)) ->
  (forall t, rt_tunnels w !! g = Some t -> possible e t) ->
  leads (run_tunnel g e env) w.
Proof using Type PL.
  intros He Hs Hm Hk Hc Ho Hp. destruct (rt_tunnels w !! g) as [t|] eqn:Eg.
  - specialize (Hp t eq_refl). destruct (stopped_ t) eqn:Est; [eapply turn_over; eassumption|].
    destruct (Z.eq_dec g (rt_generation w)); [eapply turn_current|eapply turn_stale]; eassumption.
  - unfold leads, run_tunnel. rewrite Eg. exists w. split; [reflexivity|]. right. split; [exact Hs|]. split; [|exact Hm].
    constructor; [exact Hk| |exact Ho]. intros g' Hg'. destruct (Hc g' Hg') as (t1 & H1 & H2 & H3). exists t1.
    split; [exact H1|]. split; [exact H2|]. intros H4. destruct (H3 H4) as [?|[-> _]]; [assumption|congruence].
Qed.

(** *** Every step keeps the invariant *)

Lemma delete_split {A} (l : list A) i x :
  l !! i = Some x -> l = take i l ++ x :: drop (S i) l /\ delete i l = take i l ++ drop (S i) l.
Proof. intros H. split; [symmetry; apply take_drop_middle, H|apply delete_take_drop]. Qed.

Lemma task_possible c g e t : is_completion e = false -> task_ok c (TkTunnel g e) -> possible e t.
Proof. destruct e; cbn; try discriminate; tauto. Qed.

Lemma awaiting_current g e w : tunnels_ok w -> awaiting_event g e w.
Proof.
  intros Ht g' Hg'. destruct (ts_current _ Ht g' Hg') as (t & H1 & H2 & H3). exists t. split; [exact H1|].
  split; [exact H2|]. intros H4. left. apply H3, H4.
Qed.

(** A handler of an earlier attempt finds another generation and ends. *)
Lemma stale_handler w l1 e l2 g :
  running w -> rt_tasks w = l1 ++ task_of e :: l2 -> task_of e = TkResolve g \/ task_of e = TkConnect g ->
  g <> rt_generation w -> running (without l1 l2 w).
Proof.
  intros (Hs & Ht & Hm) E Hg Hne. eapply take_other; eauto.
  - destruct Hg as [-> | ->]; cbn; apply Z.eqb_neq, Hne.
  - intros Hx. rewrite Hx in Hg. destruct Hg; discriminate.
  - intros g' sni Hx. rewrite Hx in Hg. destruct Hg; discriminate.
Qed.

(** The task that moves an attempt on is not its deadline, which stays. *)
Lemma deadline_stays w l1 d l2 :
  rt_tasks w = l1 ++ d :: l2 -> drivers (rt_generation w) (rt_tasks w) = [d] -> waiting w ->
  drives_any d = false -> rt_stop_requested w = false -> TkDeadline (rt_generation w) false ∈ l1 ++ l2.
Proof.
  intros E Hd [_ (d' & Hd' & _ & Hx)] Hany Hst. assert (d' = d) as -> by congruence.
  assert (Hin : TkDeadline (rt_generation w) false ∈ rt_tasks w).
  { destruct d; try (apply Hx, Hst); discriminate. }
  rewrite E in Hin. eapply in_without; [exact Hin|]. intros <-.
  assert (In (TkDeadline (rt_generation w) false) (drivers (rt_generation w) (rt_tasks w))) as Hf by (rewrite Hd; left; reflexivity).
  apply filter_In in Hf as [_ Hf]. discriminate.
Qed.

Lemma io_tunnel_sound w g e env l1 l2 :
  running w -> rt_tasks w = l1 ++ TkTunnel g e :: l2 -> Forall receive_ok (en_receives env) ->
  leads (run_tunnel g e env) (without l1 l2 w).
Proof using Type PL.
  intros (Hs & Ht & Hm) E He. destruct (take_mode w l1 _ l2 E Hs Hm eq_refl ltac:(discriminate)) as [Hs' Hm'].
  assert (Htask : task_ok (rt_generation w) (TkTunnel g e)).
  { pose proof (sy_tasks _ Hs) as Hall. rewrite E in Hall. apply Forall_app in Hall as [_ Hall]. apply Forall_cons in Hall. apply Hall. }
  apply run_tunnel_leads; auto.
  - apply kept_without, Ht.
  - intros g' Hg'. destruct (ts_current _ Ht g' Hg') as (t & H1 & H2 & H3). exists t. split; [exact H1|].
    split; [exact H2|]. intros H4. destruct (H3 H4) as [sni Hin]. rewrite E in Hin.
    rewrite elem_of_app, elem_of_cons in Hin. cbn [without rt_tasks with_tasks].
    destruct Hin as [Hin|[[= <- <-]|Hin]]; [left; exists sni; apply elem_of_app; auto|right; eauto
      |left; exists sni; apply elem_of_app; auto].
  - intros g' t. apply (ts_open _ Ht).
  - intros t _. eapply task_possible; [|exact Htask]. destruct e; cbn in Htask |- *; try reflexivity; apply Htask.
Qed.

Lemma io_sound w e env l1 l2 :
  running w -> rt_tasks w = l1 ++ task_of e :: l2 -> may_complete e -> Forall receive_ok (en_receives env) ->
  leads (run_io e env) (without l1 l2 w).
Proof using Type PL.
  intros Hrun E Hmay He. pose proof Hrun as (Hs & Ht & Hm).
  destruct e as [| |g error endpoints|g error sni|g cancelled error|delay cancelled error|g e]; cbn [run_io task_of may_complete] in *.
  - destruct (take_driver w l1 _ l2 E Hs Ht Hm eq_refl) as (Hb & [_ (d & Hdr & Hp & _)] & Hd).
    rewrite Hd in Hdr. injection Hdr as <-. apply begin_connect_leads; [exact He|exact Hb|].
    cbn. destruct (rt_pending_stream w); [specialize (Hp eq_refl); discriminate|reflexivity].
  - apply stop_on_io_leads; assumption.
  - destruct (Z.eq_dec g (rt_generation w)) as [->|Hne].
    + destruct (take_driver w l1 _ l2 E Hs Ht Hm (Z.eqb_refl _)) as (Hb & Hw & Hd).
      apply (handle_resolve_leads error endpoints env (without l1 l2 w)); auto.
      * destruct Hw as [_ (d & Hdr & Hp & _)]. rewrite Hd in Hdr. injection Hdr as <-.
        cbn. destruct (rt_pending_stream w); [specialize (Hp eq_refl); discriminate|reflexivity].
      * intros Hst. apply (deadline_stays w l1 _ l2 E Hd Hw eq_refl Hst).
    + unfold handle_resolve. apply leads_self. cbn [without rt_generation with_tasks].
      rewrite (proj2 (Z.eqb_neq _ _) Hne). apply idle_leads, (stale_handler w l1 (IoResolve g error endpoints) l2 g); auto.
  - destruct (Z.eq_dec g (rt_generation w)) as [->|Hne].
    + destruct (take_driver w l1 _ l2 E Hs Ht Hm (Z.eqb_refl _)) as (Hb & Hw & Hd).
      apply (handle_connect_leads error sni env (without l1 l2 w)); auto.
      intros Hst. apply (deadline_stays w l1 _ l2 E Hd Hw eq_refl Hst).
    + unfold handle_connect. apply leads_self. cbn [without rt_generation with_tasks].
      rewrite (proj2 (Z.eqb_neq _ _) Hne). apply idle_leads, (stale_handler w l1 (IoConnect g error sni) l2 g); auto.
  - eapply handle_deadline_leads; eassumption.
  - eapply handle_reconnect_leads; eassumption.
  - apply io_tunnel_sound; assumption.
Qed.

Lemma completion_sound w g t e env :
  running w -> rt_tunnels w !! g = Some t -> possible e t -> Forall receive_ok (en_receives env) ->
  leads (run_tunnel g e env) w.
Proof using Type PL.
  intros (Hs & Ht & Hm) Hg Hp He. apply run_tunnel_leads; auto; [apply Ht|apply awaiting_current, Ht|apply (ts_open _ Ht)|].
  intros t' Hg'. assert (t' = t) as -> by congruence. exact Hp.
Qed.

(** Steps that only add tasks and record a reason to stop. *)
Lemma running_more extra f s r w :
  running w -> Forall reader_task extra ->
  (s = true -> rt_stop_requested w = false -> f <> "") -> (rt_stop_requested w = true -> s = true) ->
  (rt_failure_message w <> "" -> f = rt_failure_message w) ->
  (rt_packet_thread w = None -> r = false) ->
  running (with_reading_packets r (with_stop_requested s (with_failure_message f (with_tasks (rt_tasks w ++ extra) w)))).
Proof.
  intros ([] & [] & Hm) Hx H1 H2 H3 H4. split; [|split].
  - constructor; cbn; auto.
    + apply Forall_app. split; [assumption|apply reader_tasks_ok, Hx].
    + intros [Hin|Hin]%elem_of_app; [|exfalso; exact (reader_tasks_no_stop _ Hx Hin)].
      destruct (sy_stop0 Hin) as [? ?]. auto.
    + intros ->. destruct (rt_stop_requested w) eqn:Es; [|auto]. destruct (sy_reason0 eq_refl) as [|Hf]; [auto|].
      right. rewrite (H3 Hf). exact Hf.
    + destruct (rt_packet_thread w); [assumption|]. split; [apply sy_thread0|auto].
  - constructor; cbn; auto. intros g Hg. destruct (ts_current0 g Hg) as (t & A & B & C). exists t. split; [exact A|].
    split; [exact B|]. intros D. destruct (C D) as [sni Hin]. exists sni. apply elem_of_app. auto.
  - destruct Hm as [[Hn (d & Hdr & Hp & Hd)]|[g [Htn [Hn Hps] Hdl]]]; [left|right; exists g].
    + constructor; [exact Hn|]. exists d.
      cbn [rt_generation rt_tasks rt_pending_stream rt_stop_requested with_reading_packets with_stop_requested with_failure_message with_tasks].
      rewrite drivers_app, Hdr, (reader_tasks_drivers _ _ Hx). split; [reflexivity|]. split; [exact Hp|].
      assert (Hnd : no_deadline (rt_generation w) (rt_tasks w) -> no_deadline (rt_generation w) (rt_tasks w ++ extra))
        by (intros H; apply no_deadline_app; split; [exact H|apply reader_tasks_no_deadline, Hx]).
      assert (Hsf : s = false -> rt_stop_requested w = false) by (destruct (rt_stop_requested w); intuition congruence).
      destruct d; try (intros E; apply elem_of_app; left; apply Hd, Hsf, E).
      * apply Hnd, Hd.
      * destruct Hd as [Hd1 Hd2]. split; [apply Hnd, Hd1|auto].
    + constructor; [exact Htn| |].
      * cbn [rt_tasks rt_pending_stream with_reading_packets with_stop_requested with_failure_message with_tasks].
        rewrite drivers_app, Hn, (reader_tasks_drivers _ _ Hx). auto.
      * cbn. intros E Hpt. apply elem_of_app. left. apply Hdl; [|exact Hpt]. destruct (rt_stop_requested w); intuition congruence.
Qed.

Lemma reader_running g received w :
  running w -> rt_packet_thread w = Some g -> rt_reading_packets w = true -> receive_ok received ->
  leads (run_packet_reader g received) w.
Proof.
  intros Hrun Hg Hr Hok. unfold leads. destruct received as [[packet|]|e]; cbn [run_packet_reader receive_ok] in *.
  - unfold reader_test, post. run_io_code. cbn [rt_stop_requested with_tasks].
    assert (Hx : Forall reader_task [TkTunnel g (TeTun packet)]) by (repeat constructor; exact Hok).
    destruct (rt_stop_requested w) eqn:Es; eexists; (split; [reflexivity|]); right.
    + pose proof (running_more _ (rt_failure_message w) true false w Hrun Hx) as H.
      replace (with_reading_packets false _) with (with_reading_packets false (with_stop_requested true
        (with_failure_message (rt_failure_message w) (with_tasks (rt_tasks w ++ [TkTunnel g (TeTun packet)]) w))))
        by (destruct w; cbn in *; subst; reflexivity).
      apply H; congruence.
    + pose proof (running_more _ (rt_failure_message w) false true w Hrun Hx) as H.
      replace (with_tasks _ w) with (with_reading_packets true (with_stop_requested false
        (with_failure_message (rt_failure_message w) (with_tasks (rt_tasks w ++ [TkTunnel g (TeTun packet)]) w))))
        by (destruct w; cbn in *; subst; reflexivity).
      apply H; congruence.
  - eexists. split; [reflexivity|]. right. rewrite drained_nil.
    apply running_more; auto; congruence.
  - eexists. unfold post. run_io_code. split; [reflexivity|]. right. destruct (reader_failure_ok (exn_what e) w) as [Hf1 Hf2].
    pose proof (running_more [TkTunnel g (TeStop 3)] (if bool_decide (rt_failure_message w = "")
      then "virtual adapter read failed: " +:+ exn_what e else rt_failure_message w) true false w Hrun
      ltac:(constructor; [cbn; int_lia|constructor]) ltac:(auto) ltac:(auto) Hf2 ltac:(auto)) as H.
    destruct (bool_decide (rt_failure_message w = "")); destruct w; exact H.
Qed.

Lemma stop_running w : running w -> leads stop w.
Proof using Type PL.
  intros ([] & [] & Hm). eexists. unfold stop, post. run_io_code. split; [reflexivity|]. right. split; [|split].
  - constructor; cbn; auto.
    + eapply restorable_same; [apply interrupt_same|assumption].
    + apply Forall_app. split; [assumption|repeat constructor].
    + apply Forall_app. split; [assumption|repeat constructor].
  - constructor; cbn; auto. intros g Hg. destruct (ts_current0 g Hg) as (t & A & B & C). exists t. split; [exact A|].
    split; [exact B|]. intros D. destruct (C D) as [sni Hin]. exists sni. apply elem_of_app. auto.
  - destruct Hm as [[Hn (d & Hdr & Hp & Hd)]|[g [Htn [Hn Hps] Hdl]]]; [left|right; exists g].
    + constructor; [exact Hn|]. exists d.
      cbn [rt_generation rt_tasks rt_pending_stream rt_stop_requested with_stopping with_tasks with_net with_events with_state with_stop_requested with_intentional_stop].
      rewrite drivers_app, Hdr. split; [reflexivity|]. split; [exact Hp|].
      assert (Hnd : no_deadline (rt_generation w) (rt_tasks w) -> no_deadline (rt_generation w) (rt_tasks w ++ [TkStop]))
        by (intros H; apply no_deadline_app; split; [exact H|repeat constructor]).
      destruct d; try discriminate; [apply Hnd, Hd|]. destruct Hd as [Hd1 _]. split; [apply Hnd, Hd1|auto].
    + constructor; [exact Htn| |discriminate].
      cbn [rt_tasks rt_pending_stream with_stopping with_tasks with_net with_events with_state with_stop_requested with_intentional_stop].
      rewrite drivers_app, Hn. auto.
Qed.

(** *** Every step *)

Definition initial (config : ClientConfig) w : Prop :=
  usable config /\ exists timeout tls, make_runtime config (Some base) timeout tls = Ok w.

Lemma initial_eq config w :
  initial config w ->
  w = mkRuntime config base make_transaction 0 0 false false None None false false Stopped false false false false ""
        [] [] ∅ false false.
Proof. intros (_ & timeout & tls & E). unfold make_runtime in E. inv_ok. congruence. Qed.

Lemma start_running config w : initial config w -> leads start w.
Proof.
  intros Hi. pose proof (initial_eq _ _ Hi) as ->. destruct Hi as [Hu _]. unfold leads, start, post. run_io_code. cbn [rt_started].
  eexists. split; [reflexivity|]. right. split; [|split].
  - constructor; cbn; auto; try discriminate.
    + apply idle_restorable; [apply idle_make_transaction|apply home_first; reflexivity].
    + unfold maximum_exponent. lia.
    + repeat constructor.
    + intros H%list_elem_of_singleton. discriminate.
    + split; [apply idle_make_transaction|reflexivity].
  - constructor; cbn; discriminate.
  - left. constructor; [reflexivity|]. exists TkBegin. cbn. split; [reflexivity|]. split; [discriminate|]. repeat constructor.
Qed.

Lemma running_stopping b w : running w -> running (with_stopping b w).
Proof.
  intros ([] & [] & Hm). split; [constructor; auto|]. split; [constructor; auto|].
  destruct Hm as [[]|[g []]]; [left|right; exists g]; constructor; auto.
Qed.

(** A call of [stop] that passed its test before the end. *)
Lemma stop_finished w : finished_ok w -> exists w', stop w = (Ok tt, w') /\ finished_ok w'.
Proof using Type PL.
  intros [Hf Hr [Hi Hn] (before & after & verdict & Ev & Hq & Hs & Hv)]. eexists. unfold stop, post. run_io_code. split; [reflexivity|].
  constructor; cbn; auto.
  - split; [exact Hi|]. apply (home_proper _ _ _ (interrupt_same (rt_net w))), Hn.
  - exists before, (after ++ [(Stopping, "disconnect requested")]), verdict. rewrite Ev, <- app_assoc. split; [reflexivity|].
    split; [exact Hq|]. split; [apply Forall_app; split; [exact Hs|repeat constructor]|].
    destruct Hv as [(-> & _ & Hf')|Hv]; auto.
Qed.

Lemma body_leads m w : leads m w -> leads (io_thread_body m) w.
Proof. intros (w' & E & Hs). exists w'. split; [|exact Hs]. unfold io_thread_body, try_catch. rewrite E. reflexivity. Qed.

Definition attended w : Prop := (exists config, initial config w) \/ sound w.

(** What a step ends with, in a state that is attended again. *)
Definition orderly w (r : outcome unit) w' : Prop :=
  attended w' /\ (r = Ok tt \/ r = Throw (LogicError "client runtime instances are single-use") /\ w' = w).

Lemma leads_result m w r w' : leads m w -> m w = (r, w') -> r = Ok tt /\ sound w'.
Proof. intros (w2 & E2 & Hw2) E. rewrite E in E2. injection E2 as -> ->. auto. Qed.
Lemma leads_orderly m w1 w r w' : leads m w1 -> m w1 = (r, w') -> orderly w r w'.
Proof. intros (w2 & E2 & Hw2) E. rewrite E in E2. injection E2 as -> ->. split; [right; exact Hw2|auto]. Qed.

Lemma initial_step config w r w' : initial config w -> client_step w r w' -> orderly w r w'.
Proof.
  intros Hi Hstep. pose proof (initial_eq _ _ Hi) as Ew.
  inversion Hstep; subst; try match goal with H : thread_step _ _ _ |- _ => inversion H end; subst; try discriminate.
  - eapply leads_orderly; [eapply start_running, Hi|eassumption].
  - match goal with E : stop_test _ = _ |- _ => injection E as <- <- end. split; [left; exists config; exact Hi|auto].
Qed.

Lemma finished_step w r w' : finished_ok w -> client_step w r w' -> orderly w r w'.
Proof using Type PL.
  intros Hf Hstep. pose proof (fi_flags _ Hf) as (Hst & Hfin & _). pose proof (fi_released _ Hf) as (_ & Hpt & Hrd & _).
  inversion Hstep; subst; try match goal with H : thread_step _ _ _ |- _ => inversion H end; subst; try congruence.
  - match goal with E : start _ = _ |- _ => unfold start, bind, this, get in E; rewrite Hst in E; injection E as <- <- end.
    split; [right; left; exact Hf|auto].
  - match goal with E : stop_test _ = _ |- _ => unfold stop_test, bind, this, get in E; rewrite Hst, Hfin in E; injection E as <- <- end.
    split; [right; left; exact Hf|auto].
  - destruct (stop_finished w Hf) as (w1 & E1 & Hw1). eapply leads_orderly; [|eassumption]. exists w1. split; [exact E1|left; exact Hw1].
Qed.

Lemma running_test w : running w -> rt_reading_packets w = true -> leads reader_test w.
Proof.
  intros Hrun Hr. destruct (rt_packet_thread w) as [g|] eqn:Ep.
  2:{ destruct Hrun as ([] & _). rewrite Ep in sy_thread0. destruct sy_thread0. congruence. }
  unfold leads, reader_test, bind, this, get. destruct (rt_stop_requested w) eqn:Es; eexists; (split; [reflexivity|]); right; [|exact Hrun].
  rewrite drained_nil. apply running_more; auto; congruence.
Qed.

Lemma thread_sound w r w' : running w -> thread_step w r w' -> r = Ok tt /\ sound w'.
Proof using Type PL.
  intros Hrun Hstep. inversion Hstep; subst.
  - match goal with E : io_thread_body _ _ = _, Hi : _ !! _ = Some _ |- _ => destruct (delete_split _ _ _ Hi) as [Et Ed]; rewrite Ed in E end.
    eapply leads_result; [|eassumption]. eapply body_leads, io_sound; eassumption.
  - eapply leads_result; [|eassumption]. eapply body_leads, completion_sound; eassumption.
  - eapply leads_result; [eapply reader_running; eassumption|eassumption].
  - eapply leads_result; [apply running_test; eassumption|eassumption].
Qed.

(** None of its threads runs on after the end. *)
Lemma thread_running w r w' : sound w -> thread_step w r w' -> running w.
Proof.
  intros [Hf|Hr] Hstep; [exfalso|exact Hr]. pose proof (fi_flags _ Hf) as (_ & Hfin & _).
  pose proof (fi_released _ Hf) as (_ & Hpt & Hrd & _). inversion Hstep; congruence.
Qed.

Lemma running_step w r w' : running w -> client_step w r w' -> orderly w r w'.
Proof using Type PL.
  intros Hrun Hstep. assert (Hst : rt_started w = true) by apply Hrun. inversion Hstep; subst.
  - match goal with E : start _ = _ |- _ => unfold start, bind, this, get in E; rewrite Hst in E; injection E as <- <- end.
    split; [right; right; exact Hrun|auto].
  - eapply leads_orderly; [|eassumption]. unfold leads, stop_test, bind, this, get. destruct (negb _ || _)%bool; unfold ret, modify;
      eexists; (split; [reflexivity|]); right; [exact Hrun|apply running_stopping, Hrun].
  - eapply leads_orderly; [apply stop_running, Hrun|eassumption].
  - destruct (thread_sound _ _ _ Hrun H) as [-> Hs]. split; [right; exact Hs|auto].
Qed.

Lemma step_orderly w r w' : attended w -> client_step w r w' -> orderly w r w'.
Proof using Type PL.
  intros [[config Hi]|[Hf|Hr]]; [eapply initial_step, Hi|apply finished_step, Hf|apply running_step, Hr].
Qed.

Lemma reachable_attended w0 w : attended w0 -> client_reachable w0 w -> attended w.
Proof using Type PL. intros H0. induction 1 as [|w r w' _ IH Hstep]; [exact H0|]. apply (step_orderly _ _ _ IH Hstep). Qed.

(** *** What the invariant says *)

(** An operation of the tunnel's stream has not completed. *)
Definition in_flight (t : TlsTunnelClient) : Prop :=
  handshaking (stream_ t) = true \/ reading (stream_ t) = true \/ is_Some (writing (stream_ t)).

(** The runtime waits for something that will move it on: without a tunnel,
    for one task of the current attempt or the timer of the next, due in half a
    second to thirty; with one, for the call that starts the tunnel, or for an
    operation of its stream. *)
Definition attended_to w : Prop :=
  match rt_tunnel w with
  | None => exists t, drivers (rt_generation w) (rt_tasks w) = [t] /\
      match t with
      | TkReconnect delay cancelled => 500 <= delay <= 30000 /\ (cancelled = true -> rt_stop_requested w = true)
      | _ => True
      end
  | Some g => g = rt_generation w /\ exists t, rt_tunnels w !! g = Some t /\ stopped_ t = false /\
      if started_ t then in_flight t else exists sni, TkTunnel g (TeStart sni) ∈ rt_tasks w
  end.

(** An attempt is under way: it has begun, and the network is not configured. *)
Definition attempting w : Prop :=
  rt_packet_thread w = None /\
  (is_Some (rt_tunnel w) \/ exists t, t ∈ drivers (rt_generation w) (rt_tasks w) /\ drives_any t = false).

Lemma begun_in_flight t :
  stopped_ t = false -> started_ t = true -> beginning true t \/ resting true t -> in_flight t.
Proof.
  intros Ho Hst [[_ _ [_ H] _]|(Hl & _ & _ & Hc)]; [left; exact H|]. unfold in_flight. destruct (close_after_write_ t).
  - destruct Hc as [Hw _]. pose proof (wo_busy _ _ _ (lv_writer _ _ Hl)) as Hb. rewrite Hw in Hb.
    destruct Hb as (e & rest & -> & _). eauto.
  - destruct Hc as [-> _]. auto.
Qed.

Lemma running_attended_to w : running w -> attended_to w.
Proof.
  intros (Hs & Ht & Hm). unfold attended_to. destruct Hm as [[-> (d & Hd & _ & Hx)]|[g [[Etn Eg] _ _]]].
  - exists d. split; [exact Hd|]. destruct d as [| | | | |delay cancelled|]; auto. split; [|apply Hx].
    assert (Hin : TkReconnect delay cancelled ∈ rt_tasks w).
    { assert (In (TkReconnect delay cancelled) (drivers (rt_generation w) (rt_tasks w))) as H by (rewrite Hd; left; reflexivity).
      apply filter_In in H as [H _]. apply list_elem_of_In, H. }
    pose proof (proj1 (Forall_forall _ _) (sy_tasks _ Hs) _ Hin) as H. exact H.
  - rewrite Etn. split; [congruence|]. destruct (ts_current _ Ht g Etn) as (t & H1 & H2 & H3). exists t.
    split; [exact H1|]. split; [exact H2|]. destruct (ts_kept _ Ht g t H1) as [_ Hk]. rewrite H2 in Hk.
    destruct (started_ t) eqn:Est; [|auto]. apply begun_in_flight; assumption.
Qed.

Lemma running_deadline w :
  running w -> attempting w -> rt_stop_requested w = false -> TkDeadline (rt_generation w) false ∈ rt_tasks w.
Proof.
  intros (Hs & _ & Hm) [Hpt Hat] Hst. destruct Hm as [[Hn (d & Hd & _ & Hx)]|[g [[Etn Eg] _ Hdl]]].
  - destruct Hat as [[? ?]|(t & Hin & Ha)]; [congruence|]. rewrite Hd in Hin. apply list_elem_of_singleton in Hin as ->.
    destruct d; try discriminate; auto.
  - rewrite Eg. auto.
Qed.

Definition secured w : Prop :=
  rt_terminated w = false /\
  (exists t' n', rollback (rt_net w, rt_transaction w) = (Ok tt, (n', t')) /\ idle t' /\ home (wants_full_tunnel w) n') /\
  (rt_packet_thread w = None -> idle (rt_transaction w) /\ home (wants_full_tunnel w) (rt_net w)) /\
  if rt_finished w
  then told w /\ rt_tunnel w = None /\ rt_packet_thread w = None /\ rt_pending_stream w = false /\ rt_work_guard w = false
  else Forall (fun e => terminal e = false) (rt_events w).

Lemma idle_secures full n t :
  idle t -> home full n -> exists t' n', rollback (n, t) = (Ok tt, (n', t')) /\ idle t' /\ home full n'.
Proof. intros Hi Hn. destruct (rollback_restores full n t) as (n' & t' & H); [apply idle_restorable; assumption|eauto]. Qed.

Lemma attended_secured w : attended w -> secured w.
Proof.
  intros [[config Hi]|[Hf|(Hs & _)]]; unfold secured.
  - pose proof (initial_eq _ _ Hi) as ->. cbn [rt_terminated rt_net rt_transaction rt_packet_thread rt_finished rt_events].
    pose proof (home_first (requests_full_tunnel config) base ltac:(reflexivity)). pose proof idle_make_transaction.
    split; [reflexivity|]. split; [apply idle_secures; assumption|]. auto.
  - destruct Hf as [(_ & -> & -> & _) (? & ? & _ & ? & ?) [? ?] ?].
    split; [reflexivity|]. split; [apply idle_secures; assumption|]. auto 10.
  - destruct Hs as [_ Hn _ _ _ _ (_ & _ & -> & ->) He Ht]. split; [reflexivity|].
    split; [destruct (rollback_restores _ _ _ Hn) as (n' & t' & H); eauto|]. split; [|exact He].
    intros Hp. rewrite Hp in Ht. destruct Ht as [Hi _]. split; [exact Hi|]. eapply idle_restorable; eassumption.
Qed.

(** ** Properties *)

(** C30: the runtime never stalls.  Whatever the network, the server, the device
    and the owner do, from the start to the end the thread that runs the
    handlers is there and there is something for it to wait for: one task of
    the connection attempt, or the reconnect timer, due within 500 ms to 30 s;
    or, with a tunnel, its start or an operation of its stream.  And an attempt
    that has not yet configured the network has its deadline running, unless
    stopping was asked for. *)
Theorem runtime_progress config w0 w :
  initial config w0 -> client_reachable w0 w -> rt_started w = true -> rt_finished w = false ->
  rt_io_thread w = true /\ attended_to w /\
  (attempting w -> rt_stop_requested w = false -> TkDeadline (rt_generation w) false ∈ rt_tasks w).
Proof using Type PL.
  intros Hi Hr Hst Hfin. assert (Ha : attended w) by (eapply reachable_attended; [left; eauto|exact Hr]).
  destruct Ha as [[config' Hi']|[Hf|Hrun]].
  - pose proof (initial_eq _ _ Hi') as ->. discriminate.
  - destruct (fi_flags _ Hf) as (_ & ? & _). congruence.
  - split; [apply Hrun|]. split; [apply running_attended_to, Hrun|apply running_deadline, Hrun].
Qed.

(** C29: the host's network is safe with the runtime, and its end is told once.
    Whatever happens, no handler throws (only a second [start] does, and
    changes nothing) and [std::terminate] is not called; rolling the network
    transaction back would succeed and take the network home, and that has been
    done whenever the packet thread is not there.  Home ([home]) is, when the
    configuration asks for no full tunnel, the network as it was at first; with
    a full tunnel it is that network with what the enablings of the kill switch
    made of it, as that is not undone: they happen only when the network is
    home, so nothing of a tunnel's own configuration stays behind.  The
    event [Stopped] or [Failed] comes once, with everything released: it is
    [Stopped] when stopping was asked for and nothing failed, and else [Failed]
    with the first failure recorded. *)
Theorem runtime_secures_network config w0 w r w' :
  initial config w0 -> client_reachable w0 w -> client_step w r w' ->
  (r = Ok tt \/ r = Throw (LogicError "client runtime instances are single-use") /\ w' = w) /\ secured w'.
Proof using Type PL.
  intros Hi Hr Hstep. assert (Ha : attended w) by (eapply reachable_attended; [left; eauto|exact Hr]).
  destruct (step_orderly _ _ _ Ha Hstep) as [Ha' Hres]. split; [exact Hres|]. apply attended_secured, Ha'.
Qed.
End RuntimeFacts.

(** Any configuration that was loaded can be used. *)
Lemma sound_usable `{FileSystem} `{IpLibrary} config : config_sound config -> usable config.
Proof.
  intros [_ [[Hn _] _] _ Hm _ _ _ _ _]. split; [|exact Hm]. intros E. rewrite E in Hn. vm_compute in Hn. apply Hn. reflexivity.
Qed.

(** ** Witnesses: runs on the device of NetworkTransaction.v *)

(** Its kill switch leaves a host route past the tunnel for every IPv4 endpoint. *)
Definition host_route (endpoint : WindowsVpnEndpoint) : Route :=
  RouteV4 (mkIpv4Route (take 4 (vp_address endpoint)) 32 [192; 0; 2; 254]).
#[export] Instance Net_device : PacketDevice Net := {
  win32 := true;
  is_windows_backend := true;
  interrupt_receive n := n;
  send_packet packet := ret tt;
  enable_kill_switch endpoints := modify (fun n =>
    with_routes (fold_left (fun routes endpoint => (add_new (host_route endpoint) routes).2)
                   (List.filter (fun endpoint => negb (vp_ipv6 endpoint)) endpoints) (net_routes n)) n)
}.
#[export] Instance Net_device_laws : PacketDeviceLaws Net.
Proof. split; intros; reflexivity. Defined.

(** An event of the runtime, with the index of the task that is taken. *)
Inductive client_event :=
| CeStart | CeStopTest | CeStop
| CeIo (i : nat) (e : io_event) (env : Env)
| CeCompletion (g : Z) (e : tunnel_event) (env : Env)
| CeReader (g : Z) (received : outcome (option bytes)).

Section Runs.
#[local] Existing Instance one_address_library.
Abbreviation W := (ClientRuntime Net).

Definition client_event_run (e : client_event) (w : W) : outcome unit * W :=
  match e with
  | CeStart => start w
  | CeStopTest => stop_test w
  | CeStop => stop w
  | CeIo i e env => io_thread_body (run_io e env) (with_tasks (delete i (rt_tasks w)) w)
  | CeCompletion g e env => io_thread_body (run_tunnel g e env) w
  | CeReader g received => run_packet_reader g received w
  end.
Definition client_event_possible (e : client_event) (w : W) : Prop :=
  match e with
  | CeStart | CeStopTest => True
  | CeStop => rt_stopping w = true
  | CeIo i e env => rt_io_thread w = true /\ rt_finished w = false /\ rt_tasks w !! i = Some (task_of e) /\
      may_complete e /\ Forall receive_ok (en_receives env)
  | CeCompletion g e env => rt_io_thread w = true /\ rt_finished w = false /\ is_completion e = true /\
      (exists t, rt_tunnels w !! g = Some t /\ possible e t) /\ Forall receive_ok (en_receives env)
  | CeReader g received => rt_packet_thread w = Some g /\ rt_reading_packets w = true /\ receive_ok received
  end.

(** Events of the runtime's own threads. *)
Definition thread_event (e : client_event) : bool :=
  match e with CeIo _ _ _ | CeCompletion _ _ _ | CeReader _ _ => true | _ => false end.
Lemma possible_thread e w :
  thread_event e = true -> client_event_possible e w -> thread_step w (client_event_run e w).1 (client_event_run e w).2.
Proof.
  intros He Hp. destruct e; try discriminate; cbn [client_event_possible] in Hp.
  - destruct Hp as (? & ? & ? & ? & ?). eapply th_io; eauto. apply surjective_pairing.
  - destruct Hp as (? & ? & ? & (t & ? & ?) & ?). eapply th_completion; eauto. apply surjective_pairing.
  - destruct Hp as (? & ? & ?). eapply th_reader; eauto. apply surjective_pairing.
Qed.
Lemma possible_step e w : client_event_possible e w -> client_step w (client_event_run e w).1 (client_event_run e w).2.
Proof.
  intros Hp. destruct (thread_event e) eqn:He; [apply ct_thread, possible_thread; assumption|].
  destruct e; try discriminate; cbn [client_event_possible] in Hp.
  - apply ct_start, surjective_pairing.
  - apply ct_stop_test, surjective_pairing.
  - apply ct_stop; [exact Hp|apply surjective_pairing].
Qed.

Fixpoint client_run (es : list client_event) (w : W) : W :=
  match es with [] => w | e :: es => client_run es (client_event_run e w).2 end.
Fixpoint client_possible (es : list client_event) (w : W) : Prop :=
  match es with [] => True | e :: es => client_event_possible e w /\ client_possible es (client_event_run e w).2 end.
Lemma client_run_reachable es w0 w : client_reachable w0 w -> client_possible es w -> client_reachable w0 (client_run es w).
Proof.
  revert w. induction es as [|e es IH]; intros w Hr Hp; [exact Hr|]. destruct Hp as [Hp Hps].
  apply IH; [|exact Hps]. eapply cr_step; [exact Hr|apply possible_step, Hp].
Qed.

Definition sample_client_config : ClientConfig :=
  mkClientConfig "vpn.example" 443 "vpn.example" "ca.pem" "client.pem" "client.key" 1400 sample_routes false.
Definition new_client : W :=
  mkRuntime sample_client_config (sample_net 30) make_transaction 0 0 false false None None false false Stopped
    false false false false "" [] [] ∅ false false.
Lemma new_client_initial : initial (sample_net 30) sample_client_config new_client.
Proof. split; [split; [discriminate|vm_compute; split; discriminate]|]. exists 10000, (Ok tt). reflexivity. Qed.

Definition quiet (random : Z) : Env := mkEnv [] random.
(** The client connects, its network is configured, and it sends a packet. *)
Definition connecting : list client_event :=
  [CeStart; CeIo 0 IoBegin (quiet 0);
   CeIo 1 (IoResolve 1 None [mkEndpoint [192; 0; 2; 1] 443]) (quiet 0);
   CeIo 1 (IoConnect 1 None (Ok tt)) (quiet 0);
   CeIo 1 (IoTunnel 1 (TeStart (Ok tt))) (quiet 0);
   CeCompletion 1 (TeHandshake IoOk) (quiet 0); CeCompletion 1 (TeWrite IoOk) (quiet 0);
   CeCompletion 1 (TeRead IoOk (wire assign_frame)) (quiet 0);
   CeReader 1 (Ok (Some local_packet)); CeIo 1 (IoTunnel 1 (TeTun local_packet)) (quiet 0)].
Definition connected_client := client_run connecting new_client.

(** The server resets the connection; while the client waits to reconnect, its
    owner stops it. *)
Definition reset_by_server : client_event := CeCompletion 1 (TeRead IoOtherError []) (quiet 700).
Definition reset_client := (client_event_run reset_by_server connected_client).2.
Definition ending : list client_event := [CeStopTest; CeStop].
Definition ending_client := client_run ending reset_client.

(** The same with all of IPv4 through the tunnel. *)
Definition full_client_config : ClientConfig :=
  mkClientConfig "vpn.example" 443 "vpn.example" "ca.pem" "client.pem" "client.key" 1400 ["0.0.0.0/0"] true.
Definition new_full_client : W :=
  mkRuntime full_client_config (sample_net 30) make_transaction 0 0 false false None None false false Stopped
    false false false false "" [] [] ∅ false false.
Lemma new_full_initial : initial (sample_net 30) full_client_config new_full_client.
Proof. split; [split; [discriminate|vm_compute; split; discriminate]|]. exists 10000, (Ok tt). reflexivity. Qed.
Definition connected_full_client := client_run connecting new_full_client.
Definition full_events : list client_event := connecting ++ [reset_by_server] ++ ending.
Definition ending_full_client := client_run full_events new_full_client.
Definition last_event : client_event := CeIo 3 IoStop (quiet 0).

Ltac possible_events :=
  repeat match goal with
  | |- client_possible (_ :: _) _ => split
  | |- client_possible [] _ => exact I
  | |- client_event_possible _ _ =>
      cbn [client_event_possible possible may_complete task_of is_completion en_receives quiet];
      repeat (split; [solve [vm_compute; auto; intros; discriminate]|])
  | |- (exists t, _) /\ _ => split
  | |- exists t, _ => eexists; split; [vm_compute; reflexivity|]
  | |- _ /\ is_bytes _ => split; [reflexivity|decide_prop]
  | |- Forall _ [] => constructor
  end;
  try solve [vm_compute; eauto | decide_prop].

Lemma connecting_possible : client_possible connecting new_client.
Proof. unfold connecting. possible_events. Qed.
Lemma reset_possible : client_event_possible reset_by_server connected_client.
Proof. unfold reset_by_server. possible_events. Qed.
Lemma ending_possible : client_possible ending reset_client.
Proof. unfold ending. possible_events. Qed.
Lemma last_possible : client_event_possible last_event ending_client.
Proof. unfold last_event. possible_events. Qed.

Lemma full_possible : client_possible (full_events ++ [last_event]) new_full_client.
Proof. unfold full_events, connecting, ending. cbn [app]. unfold reset_by_server, last_event. possible_events. Qed.
Lemma client_possible_app es1 es2 w :
  client_possible (es1 ++ es2) w <-> client_possible es1 w /\ client_possible es2 (client_run es1 w).
Proof. revert w. induction es1 as [|e es1 IH]; intros w; cbn; [tauto|]. rewrite IH. tauto. Qed.

Lemma connected_reachable : client_reachable new_client connected_client.
Proof. apply client_run_reachable; [constructor|apply connecting_possible]. Qed.
Lemma reset_reachable : client_reachable new_client reset_client.
Proof. eapply cr_step; [apply connected_reachable|apply possible_step, reset_possible]. Qed.
Lemma ending_reachable : client_reachable new_client ending_client.
Proof. apply client_run_reachable; [apply reset_reachable|apply ending_possible]. Qed.

(** While it is connected a read is in flight; after the reset the next attempt
    is due in 500 to 1000 ms. *)
Lemma runtime_progress_witness :
  attended_to connected_client /\ attended_to reset_client /\
  rt_net connected_client <> sample_net 30 /\ rt_state connected_client = Connected /\
  rt_tasks reset_client = [TkDeadline 1 true; TkTunnel 1 TeAbort; TkReconnect 699 false].
Proof.
  destruct (runtime_progress (sample_net 30) sample_client_config new_client connected_client new_client_initial
    connected_reachable ltac:(vm_compute; reflexivity) ltac:(vm_compute; reflexivity)) as (_ & H1 & _).
  destruct (runtime_progress (sample_net 30) sample_client_config new_client reset_client new_client_initial
    reset_reachable ltac:(vm_compute; reflexivity) ltac:(vm_compute; reflexivity)) as (_ & H2 & _).
  split; [exact H1|]. split; [exact H2|].
  split; [intros E; apply (f_equal net_adapter) in E; vm_compute in E; discriminate|]. split; vm_compute; reflexivity.
Defined.

Lemma full_reachable : client_reachable new_full_client ending_full_client.
Proof.
  apply client_run_reachable; [constructor|]. exact (proj1 (proj1 (client_possible_app _ _ _) full_possible)).
Qed.
Lemma last_full_possible : client_event_possible last_event ending_full_client.
Proof.
  pose proof (proj2 (proj1 (client_possible_app _ _ _) full_possible)) as H. apply H.
Qed.

(** Without a full tunnel the network is given back as it was; with one the
    route to the server stays. *)
Lemma runtime_secures_network_witness :
  let w' := (client_event_run last_event ending_client).2 in
  let full := (client_event_run last_event ending_full_client).2 in
  rt_finished w' = true /\ net_same (rt_net w') (sample_net 30) /\
  rt_events w' = [(Starting, "client runtime starting"); (Resolving, "resolving VPN server");
    (Connecting, "connecting with mutual TLS"); (ConfiguringNetwork, "applying tunnel network transaction");
    (Connected, "VPN tunnel connected");
    (Reconnecting, "VPN transport closed unexpectedly; retrying in 699ms");
    (Stopping, "disconnect requested"); (Stopped, "VPN tunnel stopped")] /\
  zlen (net_routes (rt_net connected_full_client)) = 3 /\ rt_finished full = true /\ home (sample_net 30) true (rt_net full) /\
  net_routes (rt_net full) =
    RouteV4 (mkIpv4Route [192; 0; 2; 1] 32 [192; 0; 2; 254]) :: net_routes (sample_net 30).
Proof.
  destruct (runtime_secures_network (sample_net 30) sample_client_config new_client ending_client _ _
    new_client_initial ending_reachable (possible_step last_event ending_client last_possible)) as [_ (_ & _ & Hn & _)].
  destruct (runtime_secures_network (sample_net 30) full_client_config new_full_client ending_full_client _ _
    new_full_initial full_reachable (possible_step last_event ending_full_client last_full_possible)) as [_ (_ & _ & Hf & _)].
  cbv zeta. set (w' := (client_event_run last_event ending_client).2) in *.
  set (full := (client_event_run last_event ending_full_client).2) in *.
  assert (E : wants_full_tunnel w' = false) by (vm_compute; reflexivity).
  assert (Ef : wants_full_tunnel full = true) by (vm_compute; reflexivity). rewrite E in Hn. rewrite Ef in Hf.
  split; [vm_compute; reflexivity|].
  split; [change (same (rt_net w') (sample_net 30)); apply home_unguarded, Hn; vm_compute; reflexivity|]. split; [vm_compute; reflexivity|].
  split; [vm_compute; reflexivity|]. split; [vm_compute; reflexivity|].
  split; [apply Hf; vm_compute; reflexivity|vm_compute; reflexivity].
Defined.
End Runs.
