(* ===== verification/ClientCore.v ===== *)
(** * The window and the client object behind it

    Models src/vpn_client_ui/vpn_client_core.cpp and vpn_client_ui/ui_main.cpp
    with their headers: [VPNClientCore] owns one runtime (ClientRuntime.v) at a
    time and keeps what its events say; [UIMain] polls that every frame and
    offers the buttons.  The window's thread runs interleaved with the
    runtime's: every write of a flag, every line of the log, and every read of
    [Update] is a step of its own.  Drawing is not modelled. *)
From S2P Require Import ServerConfig KeyFiles ClientConfig WindowsKillSwitch.
From S2P Require Import ClientSession OutboundQueue AsyncIo FrameWriter NetworkTransaction.
From S2P Require Import Prelude Bytes Protocol ControlMessages Address TunnelClient ClientRuntime RuntimeInvariant.

(** ** Data *)

(** The constructor, the destructor and the static function of
    [WindowsNetworkBackend] (WindowsNetworkBackend.v). *)
Class BackendObject (N : Type) := {
  backend_construct : M N unit;
  backend_destroy : N -> N;
  backend_disable_kill_switch : M N unit
}.

(** [vc_runtime_]: whether [runtime_] points to the runtime;
    [vc_log_callback_]: whether it has been set, to the window's [AddLog]. *)
Record VPNClientCore := mkCore {
  vc_runtime_ : bool;
  vc_log_callback_ : bool;
  vc_connected_ : bool;
  vc_reconnecting_ : bool;
  vc_running_ : bool;
  vc_last_error_ : string
}.

(** [m_logDestroyed]: the window's members behind [m_vpnClient] are gone. *)
Record UIMain := mkUI {
  m_configPath : string;
  m_clientConfig : option ClientConfig;
  m_serverHost : string;
  m_serverPort : string;
  m_routes : string;
  m_isConnected : bool;
  m_isReconnecting : bool;
  m_isStarting : bool;
  m_logLines : list string;
  m_logDestroyed : bool
}.
Definition MAX_LOG_LINES : Z := 1000.

(** What the window's thread does once [VPNClientCore::Stop] has returned: the
    rest of [Start], of [StopVPN], of the button that takes the kill switch
    down, of [~UIMain], and of [~VPNClientCore]. *)
Inductive after_stop := ToStart | ToDisconnect | ToUnblock | ToDestroy | ToEnd.

(** What is left to do of a call of [OnRuntimeEvent]: a write of [connected_],
    of [reconnecting_], of [running_], of [last_error_], or the call of [Log]. *)
Inductive telling :=
| TellConnected (b : bool)
| TellReconnecting (b : bool)
| TellEnded
| TellError (message : string)
| TellLog (message : string) (is_error : bool).

(** Where it is: between two actions; between the reads of [Update]; in [Stop],
    before the test of [ClientRuntime::stop], before the rest of it, in the
    event that [ClientRuntime::stop] tells, or waiting for the runtime's thread
    to end; or past [~UIMain]. *)
Inductive ui_place :=
| UiReady
| UiReadReconnecting
| UiReadRunning
| UiStopTest (k : after_stop)
| UiStopCall (k : after_stop)
| UiStopTell (k : after_stop) (ts : list telling)
| UiStopWait (k : after_stop)
| UiClosed.

(** [cl_runtime] is the runtime that exists, [cl_telling] what its thread has
    still to tell, and [cl_net] the network while there is none.  The program
    does not have the others: [cl_before] is the network when the last runtime
    was made, or the kill switch last taken down, and [cl_full] whether that
    runtime was for a full tunnel.  [cl_broken] records what must not happen: a
    second runtime, a call of the backend beside it, a missing runtime, or the
    end of a runtime whose packet thread is still there; and [cl_late] that a
    line was logged after the log was gone. *)
Record Client (N : Type) := mkClient {
  cl_core : VPNClientCore;
  cl_ui : UIMain;
  cl_runtime : option (ClientRuntime N);
  cl_telling : list telling;
  cl_net : N;
  cl_before : N;
  cl_full : bool;
  cl_place : ui_place;
  cl_broken : bool;
  cl_late : bool
}.
Arguments mkClient {N}.
Arguments cl_core {N}.
Arguments cl_ui {N}.
Arguments cl_runtime {N}.
Arguments cl_telling {N}.
Arguments cl_net {N}.
Arguments cl_before {N}.
Arguments cl_full {N}.
Arguments cl_place {N}.
Arguments cl_broken {N}.
Arguments cl_late {N}.

Definition set_runtime_ (b : bool) (v : VPNClientCore) : VPNClientCore :=
  mkCore b (vc_log_callback_ v) (vc_connected_ v) (vc_reconnecting_ v) (vc_running_ v) (vc_last_error_ v).
Definition set_log_callback_ (v : VPNClientCore) : VPNClientCore :=
  mkCore (vc_runtime_ v) true (vc_connected_ v) (vc_reconnecting_ v) (vc_running_ v) (vc_last_error_ v).
Definition set_connected_ (b : bool) (v : VPNClientCore) : VPNClientCore :=
  mkCore (vc_runtime_ v) (vc_log_callback_ v) b (vc_reconnecting_ v) (vc_running_ v) (vc_last_error_ v).
Definition set_reconnecting_ (b : bool) (v : VPNClientCore) : VPNClientCore :=
  mkCore (vc_runtime_ v) (vc_log_callback_ v) (vc_connected_ v) b (vc_running_ v) (vc_last_error_ v).
Definition set_running_ (b : bool) (v : VPNClientCore) : VPNClientCore :=
  mkCore (vc_runtime_ v) (vc_log_callback_ v) (vc_connected_ v) (vc_reconnecting_ v) b (vc_last_error_ v).
Definition set_last_error_ (s : string) (v : VPNClientCore) : VPNClientCore :=
  mkCore (vc_runtime_ v) (vc_log_callback_ v) (vc_connected_ v) (vc_reconnecting_ v) (vc_running_ v) s.

Definition set_config (path host port routes : string) (config : ClientConfig) (u : UIMain) : UIMain :=
  mkUI path (Some config) host port routes (m_isConnected u) (m_isReconnecting u) (m_isStarting u) (m_logLines u)
    (m_logDestroyed u).
Definition set_ui_flags (connected reconnecting starting : bool) (u : UIMain) : UIMain :=
  mkUI (m_configPath u) (m_clientConfig u) (m_serverHost u) (m_serverPort u) (m_routes u) connected reconnecting
    starting (m_logLines u) (m_logDestroyed u).
Definition set_log (lines : list string) (u : UIMain) : UIMain :=
  mkUI (m_configPath u) (m_clientConfig u) (m_serverHost u) (m_serverPort u) (m_routes u) (m_isConnected u)
    (m_isReconnecting u) (m_isStarting u) lines (m_logDestroyed u).
Definition destroy_log (u : UIMain) : UIMain :=
  mkUI (m_configPath u) (m_clientConfig u) (m_serverHost u) (m_serverPort u) (m_routes u) (m_isConnected u)
    (m_isReconnecting u) (m_isStarting u) [] true.

(** ** Texts *)

(** [s.c_str()] copied to an array of [size] characters, cut off where it does
    not fit ([strncpy_s] with [_TRUNCATE], and [snprintf]). *)
Definition strncpy_truncate (size : nat) (s : string) : string := String.substring 0 (size - 1) (c_str s).

(** The loop that joins the routes. *)
Definition join_routes (routes : list string) : string :=
  fold_left (fun joined route => (if bool_decide (joined = "") then joined else joined +:+ ", ") +:+ route) routes "".

(** [fullTunnel] of [StartVPN], and the same test in [StopVPN]. *)
Definition fullTunnel (config : ClientConfig) : bool :=
  cc_allow_default_route config &&
  (bool_decide ("0.0.0.0/0" ∈ cc_routes config) || bool_decide ("::/0" ∈ cc_routes config)).

Definition add_line (line : string) (isError : bool) (lines : list string) : list string :=
  let lines := lines ++ [if isError then "[错误] " +:+ line else line] in
  if MAX_LOG_LINES <? zlen lines then drop 1 lines else lines.

(** ** Operations *)

Section Client.
Context {IP : IpLibrary} {N : Type} {NB : ClientNetworkBackend N} {PD : PacketDevice N} {BO : BackendObject N}.
Abbreviation C := (Client N).
Implicit Types c : C.

Definition on_core (f : VPNClientCore -> VPNClientCore) : M C unit := modify (fun c =>
  mkClient (f (cl_core c)) (cl_ui c) (cl_runtime c) (cl_telling c) (cl_net c) (cl_before c) (cl_full c) (cl_place c)
    (cl_broken c) (cl_late c)).
Definition on_ui (f : UIMain -> UIMain) : M C unit := modify (fun c =>
  mkClient (cl_core c) (f (cl_ui c)) (cl_runtime c) (cl_telling c) (cl_net c) (cl_before c) (cl_full c) (cl_place c)
    (cl_broken c) (cl_late c)).
Definition goto (place : ui_place) : M C unit := modify (fun c =>
  mkClient (cl_core c) (cl_ui c) (cl_runtime c) (cl_telling c) (cl_net c) (cl_before c) (cl_full c) place
    (cl_broken c) (cl_late c)).
Definition break_if (b : bool) : M C unit := modify (fun c =>
  mkClient (cl_core c) (cl_ui c) (cl_runtime c) (cl_telling c) (cl_net c) (cl_before c) (cl_full c) (cl_place c)
    (cl_broken c || b) (cl_late c)).
Definition log_late : M C unit := modify (fun c =>
  mkClient (cl_core c) (cl_ui c) (cl_runtime c) (cl_telling c) (cl_net c) (cl_before c) (cl_full c) (cl_place c)
    (cl_broken c) true).
Definition put_runtime (w : option (ClientRuntime N)) : M C unit := modify (fun c =>
  mkClient (cl_core c) (cl_ui c) w (cl_telling c) (cl_net c) (cl_before c) (cl_full c) (cl_place c)
    (cl_broken c) (cl_late c)).
Definition put_telling (ts : list telling) : M C unit := modify (fun c =>
  mkClient (cl_core c) (cl_ui c) (cl_runtime c) ts (cl_net c) (cl_before c) (cl_full c) (cl_place c)
    (cl_broken c) (cl_late c)).
Definition remember_network (full : bool) : M C unit := modify (fun c =>
  mkClient (cl_core c) (cl_ui c) (cl_runtime c) (cl_telling c) (cl_net c) (cl_net c) full (cl_place c)
    (cl_broken c) (cl_late c)).

(** A call on the backend where no runtime holds it. *)
Definition on_backend {A} (m : M N A) : M C A := fun c =>
  let '(r, n) := m (cl_net c) in
  (r, mkClient (cl_core c) (cl_ui c) (cl_runtime c) (cl_telling c) n (cl_before c) (cl_full c) (cl_place c)
        (cl_broken c || bool_decide (is_Some (cl_runtime c))) (cl_late c)).

Definition AddLog (line : string) (isError : bool) : M C unit :=
  let* c := get in
  if m_logDestroyed (cl_ui c) then log_late
  else on_ui (fun u => set_log (add_line line isError (m_logLines u)) u).

(** *** VPNClientCore *)

Definition Log (message : string) (is_error : bool) : M C unit :=
  let* c := get in
  if vc_log_callback_ (cl_core c) && negb (bool_decide (message = "")) then AddLog message is_error else ret tt.

(** The writes and the call in [OnRuntimeEvent], in their order. *)
Definition OnRuntimeEvent (event : ClientRuntimeEvent) : list telling :=
  let '(state, message) := event in
  [TellConnected (bool_decide (state = Connected)); TellReconnecting (bool_decide (state = Reconnecting))] ++
  (if bool_decide (state = Stopped) || bool_decide (state = Failed) then [TellEnded] else []) ++
  (if bool_decide (state = Failed) then [TellError message] else []) ++
  [TellLog message (bool_decide (state = Failed))].
Definition tell (t : telling) : M C unit :=
  match t with
  | TellConnected b => on_core (set_connected_ b)
  | TellReconnecting b => on_core (set_reconnecting_ b)
  | TellEnded => on_core (set_running_ false)
  | TellError message => on_core (set_last_error_ message)
  | TellLog message is_error => Log message is_error
  end.
Fixpoint tell_all (ts : list telling) : M C unit :=
  match ts with
  | [] => ret tt
  | t :: ts => let* _ := tell t in tell_all ts
  end.

(** The runtime calls its event handler as it goes: what is to be told of the
    events that a step of it has added. *)
Definition new_tellings (w w' : ClientRuntime N) : list telling :=
  flat_map OnRuntimeEvent (drop (length (rt_events w)) (rt_events w')).
(** A call of the window's thread on the runtime that tells its events at once:
    [start] does before the runtime has a thread of its own, [~ClientRuntime]
    after it had one, and the test of [stop] tells nothing. *)
Definition after_runtime (w w' : ClientRuntime N) : M C unit :=
  let* _ := put_runtime (Some w') in
  tell_all (new_tellings w w').
Definition on_runtime (m : M (ClientRuntime N) unit) : M C unit :=
  let* c := get in
  match cl_runtime c with
  | None => break_if true
  | Some w => let '(r, w') := m w in let* _ := after_runtime w w' in lift r
  end.

(** The test at the head of [ClientRuntime::stop]. *)
Definition stop_returns_early (w : ClientRuntime N) : bool := negb (rt_started w) || rt_finished w.
(** [ClientRuntime::wait] returns: its thread has left the [io_context], which
    was stopped or threw, or was never started. *)
Definition wait_returns (w : ClientRuntime N) : bool := rt_finished w || negb (rt_io_thread w).

(** [~ClientRuntime] and, after it, the destructor of the backend that it owns;
    the thread has ended, so the rest of [stop] meets no other thread. *)
Definition destroy_runtime : M C unit :=
  let* c := get in
  match cl_runtime c with
  | None => break_if true
  | Some w =>
      let* _ := on_runtime stop_test in
      let* _ := if stop_returns_early w then ret tt else on_runtime stop in
      modify (fun c => match cl_runtime c with
                       | None => c
                       | Some w => mkClient (cl_core c) (cl_ui c) None (cl_telling c) (backend_destroy (rt_net w))
                                     (cl_before c) (cl_full c) (cl_place c)
                                     (cl_broken c || bool_decide (is_Some (rt_packet_thread w))) (cl_late c)
                       end)
  end.

(** The head of [Stop], up to the call of [runtime->stop()] if there is one. *)
Definition Stop (k : after_stop) (rest : M C unit) : M C unit :=
  let* c := get in
  if vc_runtime_ (cl_core c)
  then let* _ := on_core (set_runtime_ false) in goto (UiStopTest k)
  else
    let* _ := on_core (fun v => set_running_ false (set_reconnecting_ false (set_connected_ false v))) in
    rest.

(** [Start] after its [Stop]; [tls] is what making the TLS context does. *)
Definition make_client_runtime (config : ClientConfig) (tls : outcome unit) : M C unit :=
  let* _ := on_backend backend_construct in
  let* _ := remember_network (requests_full_tunnel config) in
  let* c := get in
  match make_runtime config (Some (cl_net c)) 15000 tls with
  | Throw e =>
      let* _ := on_backend (modify backend_destroy) in
      throw e
  | Ok w => put_runtime (Some w)
  end.
Definition Start (config : ClientConfig) (tls : outcome unit) : M C bool :=
  try_catch
    (let* _ := make_client_runtime config tls in
     let* _ := on_core (fun v => set_runtime_ true (set_last_error_ "" (set_log_callback_ v))) in
     let* _ := on_core (set_running_ true) in
     let* _ := on_runtime start in
     ret true)
    (fun error => Some (
     let* _ := on_core (fun v => set_last_error_ (exn_what error) (set_log_callback_ v)) in
     let* _ := on_core (fun v => set_running_ false (set_reconnecting_ false (set_connected_ false v))) in
     let* _ := Log ("启动失败：" +:+ exn_what error) true in
     ret false)).

(** *** UIMain *)

(** [StartVPN] and [StopVPN] after the [Stop] in them. *)
Definition StartVPN_rest (tls : outcome unit) : M C unit :=
  let* c := get in
  match m_clientConfig (cl_ui c) with
  | None => break_if true
  | Some config =>
      let* started := Start config tls in
      if started then on_ui (fun u => set_ui_flags (m_isConnected u) (m_isReconnecting u) true u)
      else AddLog "启动请求失败" true
  end.
Definition StopVPN_rest : M C unit :=
  let* _ := on_ui (fun u => set_ui_flags false (m_isReconnecting u) false u) in
  let* c := get in
  if match m_clientConfig (cl_ui c) with Some config => fullTunnel config | None => false end
  then AddLog "隧道已断开；系统级断线保护仍生效。手动关闭后才会恢复普通网络" false
  else AddLog "VPN 已断开，地址、MTU 和路由已回滚" false.
Definition Unblock_rest : M C unit :=
  try_catch
    (let* _ := on_backend backend_disable_kill_switch in
     let* _ := remember_network false in
     AddLog "全局断线保护已关闭；IPv4/IPv6 普通网络已恢复" false)
    (fun error => Some (
     let* _ := remember_network false in
     AddLog ("关闭断线保护失败：" +:+ exn_what error) true)).

(** The end of [~UIMain]: its members are destroyed from the last to the first,
    so the log goes before the [VPNClientCore] stops. *)
Definition destroy_members : M C unit :=
  let* _ := on_ui destroy_log in
  Stop ToEnd (goto UiClosed).

Definition rest_of (k : after_stop) (tls : outcome unit) : M C unit :=
  match k with
  | ToStart => let* _ := StartVPN_rest tls in goto UiReady
  | ToDisconnect => let* _ := StopVPN_rest in goto UiReady
  | ToUnblock => let* _ := Unblock_rest in goto UiReady
  | ToDestroy => let* _ := StopVPN_rest in destroy_members
  | ToEnd => goto UiClosed
  end.

(** The thread goes on within [Stop]. *)
Definition continue_stop (tls : outcome unit) : M C unit :=
  let* c := get in
  match cl_place c with
  | UiStopTest k =>
      let* _ := on_runtime stop_test in
      goto (if match cl_runtime c with Some w => stop_returns_early w | None => true end
            then UiStopWait k else UiStopCall k)
  | UiStopCall k =>
      match cl_runtime c with
      | None => break_if true
      | Some w =>
          let '(r, w') := stop w in
          let* _ := put_runtime (Some w') in
          let* _ := goto (UiStopTell k (new_tellings w w')) in
          lift r
      end
  | UiStopTell k (t :: ts) =>
      let* _ := tell t in
      goto (UiStopTell k ts)
  | UiStopTell k [] => goto (UiStopWait k)
  | UiStopWait k =>
      let* _ := on_core (fun v => set_running_ false (set_reconnecting_ false (set_connected_ false v))) in
      let* _ := destroy_runtime in
      rest_of k tls
  | _ => ret tt
  end.

(** [answer]: the message box is answered with yes. *)
Definition StartVPN (answer : bool) (tls : outcome unit) : M C unit :=
  let* c := get in
  if m_isConnected (cl_ui c) || m_isStarting (cl_ui c) then ret tt
  else match m_clientConfig (cl_ui c) with
       | None => AddLog "请先导入有效配置文件" true
       | Some config =>
           if fullTunnel config && negb answer then ret tt
           else
             let* _ := AddLog "正在建立 mTLS 隧道并等待服务器分配地址..." false in
             Stop ToStart (rest_of ToStart tls)
       end.
Definition StopVPN (k : after_stop) (tls : outcome unit) : M C unit :=
  let* _ := AddLog "正在安全断开并回滚网络配置..." false in
  Stop k (rest_of k tls).

(** One read of [Update] at a time. *)
Definition Update : M C unit :=
  let* c := get in
  match cl_place c with
  | UiReady =>
      let* _ := on_ui (fun u => set_ui_flags (vc_connected_ (cl_core c)) (m_isReconnecting u) (m_isStarting u) u) in
      goto UiReadReconnecting
  | UiReadReconnecting =>
      let* _ := on_ui (fun u => set_ui_flags (m_isConnected u) (vc_reconnecting_ (cl_core c)) (m_isStarting u) u) in
      goto UiReadRunning
  | UiReadRunning =>
      let* _ := on_ui (fun u => set_ui_flags (m_isConnected u) (m_isReconnecting u)
                                  (vc_running_ (cl_core c) && negb (m_isConnected u)) u) in
      goto UiReady
  | _ => ret tt
  end.

Section Import.
Context {T : Type} {PT : PropertyTree T} {FS : FileSystem} {Sid : Type} {CF : ClientFiles Sid}.

Definition ImportConfig (configPath : string) : M C bool :=
  match fst (load_client_config configPath []) with
  | Ok config =>
      let* _ := on_ui (set_config (strncpy_truncate 512 configPath) (strncpy_truncate 256 (cc_server_host config))
                         (strncpy_truncate 16 (to_string (cc_server_port config)))
                         (strncpy_truncate 512 (join_routes (cc_routes config))) config) in
      let* _ := AddLog "配置文件校验成功；虚拟地址将由服务器分配" false in
      ret true
  | Throw error =>
      let* _ := AddLog ("配置文件无效：" +:+ exn_what error) true in
      ret false
  end.

(** What the window's thread does next: a read of [Update]; a button of
    [Render], with the test beside it; [~UIMain]; or a step within [Stop]. *)
Inductive ui_action :=
| ActUpdate
| ActBrowse (path : string)
| ActConnect (answer : bool) (tls : outcome unit)
| ActDisconnect (tls : outcome unit)
| ActUnblock (answer : bool)
| ActClearLog
| ActClose (tls : outcome unit)
| ActStop (tls : outcome unit).

Definition ui_busy (u : UIMain) : bool := m_isConnected u || m_isStarting u.
(** The state that [Render] shows. *)
Definition connection_state (u : UIMain) : string :=
  if m_isConnected u then "已连接"
  else if m_isReconnecting u then "连接中断，正在重连"
  else if m_isStarting u then "连接中" else "未连接".

Definition ui_run (a : ui_action) : M C unit :=
  let* c := get in
  match a with
  | ActUpdate => Update
  | ActBrowse path =>
      if negb (ui_busy (cl_ui c)) && negb (bool_decide (path = ""))
      then let* _ := ImportConfig path in ret tt else ret tt
  | ActConnect answer tls => if negb (ui_busy (cl_ui c)) then StartVPN answer tls else ret tt
  | ActDisconnect tls => if ui_busy (cl_ui c) then StopVPN ToDisconnect tls else ret tt
  | ActUnblock answer =>
      if negb (ui_busy (cl_ui c)) && answer then Stop ToUnblock (rest_of ToUnblock (Ok tt)) else ret tt
  | ActClearLog => on_ui (set_log [])
  | ActClose tls => if ui_busy (cl_ui c) then StopVPN ToDestroy tls else destroy_members
  | ActStop tls => continue_stop tls
  end.

Definition ui_enabled (a : ui_action) (c : C) : bool :=
  match a, cl_place c with
  | ActUpdate, (UiReady | UiReadReconnecting | UiReadRunning) => true
  | ActStop _, (UiStopTest _ | UiStopCall _ | UiStopTell _ _) => true
  | ActStop _, UiStopWait _ =>
      match cl_runtime c with Some w => wait_returns w && bool_decide (cl_telling c = []) | None => true end
  | (ActBrowse _ | ActConnect _ _ | ActDisconnect _ | ActUnblock _ | ActClearLog | ActClose _), UiReady => true
  | _, _ => false
  end.

(** The runtime's thread has made a step, and has its events to tell. *)
Definition runtime_moved (w w' : ClientRuntime N) (c : C) : C :=
  mkClient (cl_core c) (cl_ui c) (Some w') (cl_telling c ++ new_tellings w w') (cl_net c) (cl_before c) (cl_full c)
    (cl_place c) (cl_broken c) (cl_late c).

(** A step of the window's thread, of a thread of the runtime, or of what that
    thread tells, which it does before it has more to tell. *)
Inductive core_step : C -> outcome unit -> C -> Prop :=
| cs_ui c a r c' : ui_enabled a c = true -> ui_run a c = (r, c') -> core_step c r c'
| cs_thread c w r w' :
    cl_runtime c = Some w -> thread_step w r w' -> cl_telling c = [] \/ rt_events w' = rt_events w ->
    core_step c r (runtime_moved w w' c)
| cs_tell c t ts r c' :
    cl_telling c = t :: ts -> (let* _ := put_telling ts in tell t) c = (r, c') -> core_step c r c'.

Definition new_window (n : N) : C :=
  mkClient (mkCore false false false false false "") (mkUI "" None "" "" "" false false false [] false) None [] n n
    false UiReady false false.
Inductive core_reachable (n : N) : C -> Prop :=
| cor_init : core_reachable n (new_window n)
| cor_step c r c' : core_reachable n c -> core_step c r c' -> core_reachable n c'.
End Import.
End Client.

(** ** Specification *)

(** The backend's own construction and destruction leave the network alone. *)
Class BackendObjectLaws (N : Type) {NB : ClientNetworkBackend N} {BL : BackendLaws N} {BO : BackendObject N} := {
  construct_same n : same (backend_construct n).2 n;
  destroy_same n : same (backend_destroy n) n
}.

(** What telling makes of the client object. *)
Definition say (v : VPNClientCore) (t : telling) : VPNClientCore :=
  match t with
  | TellConnected b => set_connected_ b v
  | TellReconnecting b => set_reconnecting_ b v
  | TellEnded => set_running_ false v
  | TellError message => set_last_error_ message v
  | TellLog _ _ => v
  end.
Definition said (ts : list telling) (v : VPNClientCore) : VPNClientCore := fold_left say ts v.

Section ClientFacts.
Context {IP : IpLibrary} {N : Type} {NB : ClientNetworkBackend N} {BL : BackendLaws N}
  {PD : PacketDevice N} {PL : PacketDeviceLaws N} {BO : BackendObject N} {OL : BackendObjectLaws N}.
Abbreviation C := (Client N).
Implicit Types (c : C) (v : VPNClientCore).

(** The client object once its runtime's thread has told what it is telling. *)
Definition heard c : VPNClientCore := said (cl_telling c) (cl_core c).

(** The client object says that the runtime runs as long as it has not ended;
    then it says why it has. *)
Record following (owned : bool) (w : ClientRuntime N) v : Prop := {
  fo_owned : vc_runtime_ v = owned;
  fo_callback : vc_log_callback_ v = true;
  fo_running : vc_running_ v = negb (rt_finished w);
  fo_error : vc_last_error_ v = if rt_finished w then rt_failure_message w else "";
  fo_end : rt_finished w = true -> vc_connected_ v = false
}.
(** It says what the runtime's last event says. *)
Definition latest (w : ClientRuntime N) v : Prop :=
  forall e, last (rt_events w) = Some e ->
    vc_connected_ v = bool_decide (e.1 = Connected) /\ vc_reconnecting_ v = bool_decide (e.1 = Reconnecting).

(** The runtime, if there is one, has ended. *)
Definition quiet_client c : Prop :=
  match cl_runtime c with Some w => rt_finished w = true | None => True end.
(** And the client object says so. *)
Definition calm c : Prop := vc_running_ (cl_core c) = false.

(** There is no runtime, and the network is home. *)
Record idle_client c : Prop := {
  ic_none : cl_runtime c = None /\ cl_telling c = [];
  ic_core : vc_runtime_ (cl_core c) = false /\ vc_connected_ (cl_core c) = false /\
    vc_reconnecting_ (cl_core c) = false /\ vc_running_ (cl_core c) = false;
  ic_net : home (cl_before c) (cl_full c) (cl_net c)
}.

(** There is one, sound, and the client object hears what it tells: in the order
    of the runtime's events, as long as the window's thread does not stop it. *)
Definition active_client (owned : bool) c : Prop :=
  exists w, cl_runtime c = Some w /\ sound (cl_before c) w /\ wants_full_tunnel w = cl_full c /\
    following owned w (heard c) /\ (owned = true -> latest w (heard c)).

(** A line that is told after the log is gone. *)
Definition late_line c : Prop :=
  m_logDestroyed (cl_ui c) = true /\ quiet_client c /\ calm c /\
  exists message is_error ts, cl_telling c = TellLog message is_error :: ts.

Context (late : bool).

Record window_ok c : Prop := {
  wk_broken : cl_broken c = false;
  wk_late : cl_late c = late;
  wk_log : zlen (m_logLines (cl_ui c)) <= MAX_LOG_LINES;
  wk_config config : m_clientConfig (cl_ui c) = Some config -> usable config
}.

(** What the rest of the thread's call relies on. *)
Definition rest_ready (k : after_stop) c : Prop :=
  match k with
  | ToEnd => m_logDestroyed (cl_ui c) = true /\ calm c
  | ToStart => m_logDestroyed (cl_ui c) = false /\ is_Some (m_clientConfig (cl_ui c))
  | _ => m_logDestroyed (cl_ui c) = false
  end.

(** The runtime has ended or knows that it should. *)
Definition stop_asked c : Prop :=
  match cl_runtime c with Some w => rt_finished w = true \/ rt_stop_requested w = true | None => True end.

(** What [ClientRuntime::stop] tells. *)
Definition stopping_telling (t : telling) : Prop :=
  match t with TellConnected b | TellReconnecting b => b = false | TellLog _ _ => True | _ => False end.

Definition place_ok c : Prop :=
  match cl_place c with
  | UiReady => m_logDestroyed (cl_ui c) = false /\ (idle_client c \/ active_client true c) /\
      (ui_busy (cl_ui c) = false -> calm c)
  | UiReadReconnecting | UiReadRunning => m_logDestroyed (cl_ui c) = false /\ (idle_client c \/ active_client true c)
  | UiStopTest k => active_client false c /\ rest_ready k c
  | UiStopCall k => active_client false c /\ rest_ready k c /\ k <> ToEnd
  | UiStopTell k ts => active_client false c /\ rest_ready k c /\ k <> ToEnd /\ stop_asked c /\
      Forall stopping_telling ts
  | UiStopWait k => active_client false c /\ rest_ready k c /\ stop_asked c
  | UiClosed => idle_client c
  end.

Record core_ok c : Prop := { co_window : window_ok c; co_place : place_ok c }.

(** ** Lemmas *)

(** *** Events *)

Lemma said_app ts us v : said (ts ++ us) v = said us (said ts v).
Proof. apply fold_left_app. Qed.
Lemma said_cons t ts v : said (t :: ts) v = said ts (say v t).
Proof. reflexivity. Qed.
Lemma said_keeps ts v : vc_runtime_ (said ts v) = vc_runtime_ v /\ vc_log_callback_ (said ts v) = vc_log_callback_ v.
Proof. revert v. induction ts as [|t ts IH]; intros v; [auto|]. rewrite said_cons. destruct (IH (say v t)) as [-> ->]. destruct t; auto. Qed.
Lemma said_release ts v : said ts (set_runtime_ false v) = set_runtime_ false (said ts v).
Proof. revert v. induction ts as [|t ts IH]; intros v; [reflexivity|]. rewrite !said_cons, <- IH. destruct t; reflexivity. Qed.
Lemma said_calm ts v : vc_running_ v = false -> vc_running_ (said ts v) = false.
Proof. revert v. induction ts as [|t ts IH]; intros v Hv; [exact Hv|]. rewrite said_cons. apply IH. destruct t; cbn; auto. Qed.

(** What an event makes of the client object, when it has been told. *)
Definition hear v (event : ClientRuntimeEvent) : VPNClientCore :=
  let '(state, message) := event in
  mkCore (vc_runtime_ v) (vc_log_callback_ v) (bool_decide (state = Connected)) (bool_decide (state = Reconnecting))
    (if terminal event then false else vc_running_ v)
    (if bool_decide (state = Failed) then message else vc_last_error_ v).
Lemma said_event e v : said (OnRuntimeEvent e) v = hear v e.
Proof. destruct e as [[] m], v; reflexivity. Qed.
Lemma said_events es v : said (flat_map OnRuntimeEvent es) v = fold_left hear es v.
Proof. revert v. induction es as [|e es IH]; intros v; [reflexivity|]. cbn [flat_map fold_left]. rewrite said_app, said_event. apply IH. Qed.

Lemma heard_running es v : vc_running_ (fold_left hear es v) = forallb (fun e => negb (terminal e)) es && vc_running_ v.
Proof.
  revert v. induction es as [|[s m] es IH]; intros v; [reflexivity|]. cbn [fold_left]. rewrite IH. cbn [forallb hear vc_running_].
  destruct (terminal (s, m)); cbn; [apply andb_false_r|reflexivity].
Qed.
Lemma heard_last es e v : last es = Some e ->
  vc_connected_ (fold_left hear es v) = bool_decide (e.1 = Connected) /\
  vc_reconnecting_ (fold_left hear es v) = bool_decide (e.1 = Reconnecting).
Proof.
  destruct es as [|e' es _] using rev_ind; [discriminate|]. rewrite last_snoc, fold_left_app. intros [= ->].
  destruct e. split; reflexivity.
Qed.
Lemma calm_error es v : Forall (fun e => e.1 <> Failed) es -> vc_last_error_ (fold_left hear es v) = vc_last_error_ v.
Proof.
  revert v. induction es as [|[s m] es IH]; intros v Hf; [reflexivity|]. apply Forall_cons in Hf as [Hs Hf]. cbn [fold_left].
  rewrite IH by exact Hf. cbn in *. rewrite bool_decide_false by exact Hs. reflexivity.
Qed.

Lemma terminal_failed e : terminal e = false -> e.1 <> Failed.
Proof. destruct e as [[] m]; cbn; congruence. Qed.
Lemma stopping_failed (e : ClientRuntimeEvent) : e.1 = Stopping -> e.1 <> Failed.
Proof. congruence. Qed.

(** The end is among the events that come after others that are not the end. *)
Lemma split_verdict es fs before verdict after :
  Forall (fun e => terminal e = false) es -> es ++ fs = before ++ verdict :: after -> terminal verdict = true ->
  exists before', fs = before' ++ verdict :: after /\ before = es ++ before'.
Proof.
  revert before. induction es as [|e es IH]; intros before He E Hv; [exists before; auto|].
  apply Forall_cons in He as [He Hes]. destruct before as [|e' before]; cbn in E; injection E as <- E; [congruence|].
  destruct (IH _ Hes E Hv) as (before' & -> & ->). exists before'. auto.
Qed.

(** A sound runtime's events, told to the client object of a runtime that runs. *)
Lemma events_follow base owned w es fs v :
  sound base w -> rt_events w = es ++ fs -> Forall (fun e => terminal e = false) es ->
  vc_runtime_ v = owned -> vc_log_callback_ v = true -> vc_running_ v = true -> vc_last_error_ v = "" ->
  following owned w (fold_left hear fs v).
Proof.
  intros Hs E Hes Ho Hc Hr He. rewrite <- said_events. destruct (said_keeps (flat_map OnRuntimeEvent fs) v) as [Ek1 Ek2].
  destruct Hs as [Hf|(Hs & _)].
  - destruct (fi_flags _ _ Hf) as (_ & Hfin & _). destruct (fi_verdict _ _ Hf) as (before & after & verdict & Ev & Hb & Ha & Hv).
    assert (Ht : terminal verdict = true) by (destruct Hv as [(-> & _)|(-> & _)]; reflexivity).
    rewrite E in Ev. destruct (split_verdict _ _ _ _ _ Hes Ev Ht) as (before' & -> & ->).
    apply Forall_app in Hb as [_ Hb]. rewrite said_events in *.
    constructor; [congruence|congruence| | |].
    + rewrite heard_running, Hfin, forallb_app. cbn. rewrite Ht, andb_false_r. reflexivity.
    + rewrite Hfin, fold_left_app. cbn [fold_left]. rewrite calm_error by (eapply Forall_impl; [exact Ha|exact stopping_failed]).
      assert (E0 : vc_last_error_ (fold_left hear before' v) = "")
        by (rewrite calm_error by (eapply Forall_impl; [exact Hb|exact terminal_failed]); exact He).
      destruct Hv as [(-> & _ & ->)|(-> & _)]; cbn; [exact E0|reflexivity].
    + intros _. destruct after as [|e after _] using rev_ind.
      * edestruct (heard_last (before' ++ [verdict])) as [-> _]; [apply last_snoc|].
        destruct Hv as [(-> & _)|(-> & _)]; reflexivity.
      * apply Forall_app in Ha as [_ Ha]. apply Forall_inv in Ha. cbn in Ha.
        edestruct (heard_last (before' ++ verdict :: after ++ [e])) as [-> _].
        { rewrite app_comm_cons, app_assoc. apply last_snoc. }
        rewrite Ha. reflexivity.
  - destruct (sy_running _ _ Hs) as (_ & _ & Hfin & _). pose proof (sy_events _ _ Hs) as Hn. rewrite E in Hn.
    apply Forall_app in Hn as [_ Hn]. rewrite said_events in *. constructor; rewrite ?Hfin; [congruence|congruence| | |discriminate].
    + rewrite heard_running, Hr, andb_true_r. apply forallb_forall. intros e Hin. rewrite Forall_forall in Hn.
      rewrite Hn by (apply list_elem_of_In, Hin). reflexivity.
    + rewrite calm_error by (eapply Forall_impl; [exact Hn|exact terminal_failed]). exact He.
Qed.
Lemma events_latest w es fs v : rt_events w = es ++ fs -> fs <> [] -> latest w (fold_left hear fs v).
Proof.
  intros E Hne e. rewrite E. destruct fs as [|f fs _] using rev_ind; [contradiction|]. rewrite app_assoc, last_snoc.
  intros [= <-]. apply heard_last, last_snoc.
Qed.

(** *** The log *)

Definition with_log (l : list string) c : C :=
  mkClient (cl_core c) (set_log l (cl_ui c)) (cl_runtime c) (cl_telling c) (cl_net c) (cl_before c) (cl_full c)
    (cl_place c) (cl_broken c) (cl_late c).
Definition with_core v c : C :=
  mkClient v (cl_ui c) (cl_runtime c) (cl_telling c) (cl_net c) (cl_before c) (cl_full c) (cl_place c)
    (cl_broken c) (cl_late c).
Definition with_runtime (w : ClientRuntime N) c : C :=
  mkClient (cl_core c) (cl_ui c) (Some w) (cl_telling c) (cl_net c) (cl_before c) (cl_full c) (cl_place c)
    (cl_broken c) (cl_late c).
Definition with_place place c : C :=
  mkClient (cl_core c) (cl_ui c) (cl_runtime c) (cl_telling c) (cl_net c) (cl_before c) (cl_full c) place
    (cl_broken c) (cl_late c).

Lemma same_log c : with_log (m_logLines (cl_ui c)) c = c.
Proof. destruct c as [v [] w ts n b f p k l]. reflexivity. Qed.

Lemma add_line_bound line isError l :
  zlen l <= MAX_LOG_LINES -> zlen (add_line line isError l) <= MAX_LOG_LINES.
Proof.
  unfold add_line, MAX_LOG_LINES. intros Hl. rewrite zlen_app. change (zlen [_]) with 1.
  destruct (1000 <? zlen l + 1) eqn:E; b2p; [|rewrite zlen_app; change (zlen [_]) with 1; lia].
  unfold zlen in *. rewrite length_drop, length_app. cbn [length]. lia.
Qed.

Lemma add_log_eq line isError c :
  m_logDestroyed (cl_ui c) = false -> AddLog line isError c = (Ok tt, with_log (add_line line isError (m_logLines (cl_ui c))) c).
Proof. intros Hd. unfold AddLog, bind, get. rewrite Hd. reflexivity. Qed.

(** A line in the log breaks nothing. *)
Lemma window_ok_log l c : window_ok c -> zlen l <= MAX_LOG_LINES -> window_ok (with_log l c).
Proof. intros [] Hl. constructor; assumption. Qed.

Lemma log_wp message is_error (Q : unit -> C -> Prop) c :
  m_logDestroyed (cl_ui c) = false -> zlen (m_logLines (cl_ui c)) <= MAX_LOG_LINES ->
  (forall l, zlen l <= MAX_LOG_LINES -> Q tt (with_log l c)) -> wp (Log message is_error) (returns Q) c.
Proof.
  intros Hd Hl HQ. unfold Log. apply wp_bind, wp_get. destruct (_ && _).
  - unfold wp. rewrite add_log_eq by exact Hd. exists tt. split; [reflexivity|]. apply HQ, add_line_bound, Hl.
  - apply wp_ret. exists tt. split; [reflexivity|]. specialize (HQ _ Hl). rewrite same_log in HQ. exact HQ.
Qed.
Lemma add_log_wp line isError (Q : unit -> C -> Prop) c :
  m_logDestroyed (cl_ui c) = false -> zlen (m_logLines (cl_ui c)) <= MAX_LOG_LINES ->
  (forall l, zlen l <= MAX_LOG_LINES -> Q tt (with_log l c)) -> wp (AddLog line isError) (returns Q) c.
Proof.
  intros Hd Hl HQ. unfold wp. rewrite add_log_eq by exact Hd. exists tt. split; [reflexivity|]. apply HQ, add_line_bound, Hl.
Qed.

(** *** The runtime's events *)

Lemma tell_wp t (Q : unit -> C -> Prop) c :
  m_logDestroyed (cl_ui c) = false -> zlen (m_logLines (cl_ui c)) <= MAX_LOG_LINES ->
  (forall l, zlen l <= MAX_LOG_LINES -> Q tt (with_log l (with_core (say (cl_core c) t) c))) ->
  wp (tell t) (returns Q) c.
Proof.
  intros Hd Hl HQ. destruct t; cbn [tell].
  5:{ apply log_wp; [exact Hd|exact Hl|]. intros l Hb. specialize (HQ l Hb). destruct c. exact HQ. }
  all: apply wp_modify; exists tt; split; [reflexivity|]; specialize (HQ _ Hl); destruct c as [? [] ? ? ? ? ? ? ? ?]; exact HQ.
Qed.
Lemma tell_all_wp ts (Q : unit -> C -> Prop) c :
  m_logDestroyed (cl_ui c) = false -> zlen (m_logLines (cl_ui c)) <= MAX_LOG_LINES ->
  (forall l, zlen l <= MAX_LOG_LINES -> Q tt (with_log l (with_core (said ts (cl_core c)) c))) ->
  wp (tell_all ts) (returns Q) c.
Proof.
  revert c. induction ts as [|t ts IH]; intros c Hd Hl HQ; cbn [tell_all].
  { apply wp_ret. exists tt. split; [reflexivity|]. specialize (HQ _ Hl). destruct c as [? [] ? ? ? ? ? ? ? ?]. exact HQ. }
  apply wp_returns with (P := fun _ c1 => exists l, zlen l <= MAX_LOG_LINES /\ c1 = with_log l (with_core (say (cl_core c) t) c)).
  { apply tell_wp; [exact Hd|exact Hl|]. intros l Hb. exists l. auto. }
  intros [] c1 (l & Hb & ->). apply IH; [exact Hd|exact Hb|]. intros l' Hb'. apply HQ, Hb'.
Qed.

(** A call of the window's thread on the runtime that tells at once, and one that
    tells nothing. *)
Lemma on_runtime_wp m (Q : unit -> C -> Prop) c w w' :
  cl_runtime c = Some w -> m w = (Ok tt, w') -> window_ok c -> m_logDestroyed (cl_ui c) = false ->
  (forall l, zlen l <= MAX_LOG_LINES -> Q tt (with_log l (with_core (said (new_tellings w w') (cl_core c)) (with_runtime w' c)))) ->
  wp (on_runtime m) (returns Q) c.
Proof.
  intros Hr Em [_ _ Hl _] Hd HQ. unfold on_runtime. apply wp_bind, wp_get. rewrite Hr, Em.
  apply wp_returns with (P := Q); [|intros [] c' Hq; apply wp_lift; exists tt; auto].
  unfold after_runtime. apply wp_bind, wp_modify. apply tell_all_wp; [exact Hd|exact Hl|exact HQ].
Qed.
Lemma no_new_tellings (w w' : ClientRuntime N) : rt_events w' = rt_events w -> new_tellings w w' = [].
Proof. intros E. unfold new_tellings. rewrite E, drop_all. reflexivity. Qed.
Lemma on_runtime_silent m c w w' :
  cl_runtime c = Some w -> m w = (Ok tt, w') -> rt_events w' = rt_events w -> on_runtime m c = (Ok tt, with_runtime w' c).
Proof.
  intros Ew Em Ee. unfold on_runtime, bind, get. rewrite Ew, Em. unfold after_runtime, bind, put_runtime, modify.
  rewrite no_new_tellings by exact Ee. reflexivity.
Qed.

(** *** The runtime's own calls *)

Lemma sound_stop base w : sound base w -> leads base stop w.
Proof using PL. intros [Hf|Hr]; [|apply stop_running, Hr]. destruct (stop_finished _ _ Hf) as (w' & E & Hw). exists w'. split; [exact E|left; exact Hw]. Qed.

Lemma stop_test_eq (w : ClientRuntime N) : stop_test w = (Ok tt, if stop_returns_early w then w else ClientRuntime.with_stopping true w).
Proof. unfold stop_test, stop_returns_early, bind, this, get. destruct (_ || _); reflexivity. Qed.
Lemma sound_test base (w : ClientRuntime N) : sound base w -> sound base (if stop_returns_early w then w else ClientRuntime.with_stopping true w).
Proof.
  intros Hs. unfold stop_returns_early. destruct Hs as [Hf|Hr].
  - destruct (fi_flags _ _ Hf) as (_ & -> & _). rewrite orb_true_r. left. exact Hf.
  - destruct (_ || _); right; [exact Hr|apply running_stopping, Hr].
Qed.
Lemma sound_waited base w : sound base w -> wait_returns w = true -> finished_ok base w.
Proof.
  intros [Hf|(Hs & _)] Hw; [exact Hf|]. destruct (sy_running _ _ Hs) as (_ & Hio & Hfin & _).
  unfold wait_returns in Hw. rewrite Hio, Hfin in Hw. discriminate.
Qed.

(** *** Starting *)

Lemma idle_quiet c : idle_client c -> quiet_client c.
Proof. intros [[Hn _] _ _]. unfold quiet_client. rewrite Hn. exact I. Qed.
Lemma idle_calm c : idle_client c -> calm c.
Proof. intros [_ (_ & _ & _ & Hr) _]. exact Hr. Qed.

(** Making the runtime; when it throws, the backend is gone again. *)
Lemma make_client_runtime_spec config tls c :
  idle_client c -> window_ok c -> usable config ->
  match make_client_runtime config tls c with
  | (Ok _, c') => exists w n, initial n config w /\
      c' = mkClient (cl_core c) (cl_ui c) (Some w) [] n n (requests_full_tunnel config) (cl_place c) false late
  | (Throw _, c') => exists n before full, home before full n /\
      c' = mkClient (cl_core c) (cl_ui c) None [] n before full (cl_place c) false late
  end.
Proof using OL.
  intros [[Hn Ht] _ Hs] [Hb Hlt _ _] Hu. unfold make_client_runtime, bind at 1, on_backend at 1.
  pose proof (construct_same (cl_net c)) as Hc. destruct (backend_construct (cl_net c)) as [[[]|e] n]; cbn [snd] in Hc.
  2:{ exists n, (cl_before c), (cl_full c). split; [rewrite Hc; exact Hs|]. rewrite Hn, Ht, Hb, Hlt. reflexivity. }
  unfold bind at 1, remember_network, modify, bind at 1, get. cbn [cl_net].
  destruct (make_runtime config (Some n) 15000 tls) as [w|e] eqn:E.
  - exists w, n. split; [split; [exact Hu|eauto]|]. unfold put_runtime, modify. cbn. rewrite Hn, Ht, Hb, Hlt. reflexivity.
  - unfold bind, on_backend, modify, throw. cbn. exists (backend_destroy n), n, (requests_full_tunnel config).
    split; [apply home_first, destroy_same|]. rewrite Hn, Ht, Hb, Hlt. reflexivity.
Qed.

Lemma core_start_wp config tls c :
  idle_client c -> window_ok c -> usable config -> m_logDestroyed (cl_ui c) = false ->
  wp (Start config tls) (returns (fun (started : bool) c' =>
    window_ok c' /\ (exists l, cl_ui c' = set_log l (cl_ui c)) /\
    if started then active_client true c' else idle_client c')) c.
Proof using PL OL.
  intros Hi Hw Hu Hd. pose proof (make_client_runtime_spec config tls c Hi Hw Hu) as Hm.
  pose proof Hi as [_ (Hv1 & Hv2 & Hv3 & Hv4) _]. pose proof Hw as [_ _ Hl Hcf].
  unfold Start. apply wp_try, wp_bind. unfold wp at 1. destruct (make_client_runtime config tls c) as [[[]|e] c1]; cbn [fst snd].
  - destruct Hm as (w & n & Hini & ->). destruct (start_running _ _ _ Hini) as (w' & Est & Hsw).
    pose proof (start_tells w) as (_ & _ & Hcfg). rewrite Est in Hcfg. cbn [snd] in Hcfg.
    pose proof (initial_eq _ _ _ Hini) as Ei.
    apply wp_bind, wp_modify, wp_bind, wp_modify.
    eapply wp_returns with (P := fun _ c2 => window_ok c2 /\ (exists l, cl_ui c2 = set_log l (cl_ui c)) /\ active_client true c2).
    + eapply on_runtime_wp; [reflexivity|exact Est|constructor; [reflexivity|reflexivity|exact Hl|exact Hcf]|exact Hd|].
      intros l Hb. split; [constructor; [reflexivity|reflexivity|exact Hb|exact Hcf]|]. split; [exists l; reflexivity|].
      exists w'. split; [reflexivity|]. split; [exact Hsw|].
      assert (En : new_tellings w w' = flat_map OnRuntimeEvent (rt_events w')) by (unfold new_tellings; rewrite Ei; reflexivity).
      split; [unfold wants_full_tunnel; rewrite Hcfg, Ei; reflexivity|].
      unfold heard. cbn -[said new_tellings]. rewrite En, said_events. split.
      * eapply events_follow; [exact Hsw|apply (eq_sym (app_nil_l _))|constructor|reflexivity..].
      * intros _. eapply events_latest; [apply (eq_sym (app_nil_l _))|].
        assert (Ee : rt_events (start w).2 <> []) by (rewrite Ei; discriminate). rewrite Est in Ee. exact Ee.
    + intros [] c2 (H1 & H2 & H3). apply wp_ret. exists true. auto.
  - destruct Hm as (n & before & full & Hs & ->). apply wp_bind, wp_modify, wp_bind, wp_modify.
    match goal with |- wp _ _ ?c1 =>
      eapply wp_returns with (P := fun _ c2 => exists l, zlen l <= MAX_LOG_LINES /\ c2 = with_log l c1) end.
    + apply log_wp; [exact Hd|exact Hl|eauto].
    + intros [] c2 (l & Hb & ->). apply wp_ret. exists false. split; [reflexivity|].
      split; [constructor; [reflexivity|reflexivity|exact Hb|exact Hcf]|]. split; [exists l; reflexivity|].
      constructor; cbn; auto.
Qed.

(** *** The rest of a call, after the runtime is gone *)

Lemma ready_ok c :
  window_ok c -> idle_client c -> m_logDestroyed (cl_ui c) = false ->
  wp (goto UiReady) (returns (fun _ => core_ok)) c.
Proof.
  intros [] Hi Hd. apply wp_modify. exists tt. split; [reflexivity|]. constructor; [constructor; assumption|].
  split; [exact Hd|]. split; [left; destruct Hi; constructor; assumption|]. intros _. apply (idle_calm c Hi).
Qed.
Lemma closed_ok c : window_ok c -> idle_client c -> wp (goto UiClosed) (returns (fun _ => core_ok)) c.
Proof.
  intros [] []. apply wp_modify. exists tt. split; [reflexivity|]. constructor; constructor; assumption.
Qed.

(** Adding a line and going on. *)
Lemma line_then {B} line isError (rest : M C B) Q c :
  m_logDestroyed (cl_ui c) = false -> window_ok c ->
  (forall l, zlen l <= MAX_LOG_LINES -> wp rest Q (with_log l c)) ->
  wp (bind (AddLog line isError) (fun _ => rest)) Q c.
Proof.
  intros Hd [_ _ Hl _] HQ. eapply wp_returns with (P := fun _ c2 => exists l, zlen l <= MAX_LOG_LINES /\ c2 = with_log l c).
  - apply add_log_wp; [exact Hd|exact Hl|eauto].
  - intros [] c2 (l & Hb & ->). apply HQ, Hb.
Qed.
Lemma idle_log l c : idle_client c -> idle_client (with_log l c).
Proof. intros []. constructor; assumption. Qed.

Lemma rest_start tls c :
  window_ok c -> idle_client c -> rest_ready ToStart c -> wp (rest_of ToStart tls) (returns (fun _ => core_ok)) c.
Proof using PL OL.
  intros Hw Hi [Hd [config Ec]]. cbn [rest_of].
  apply wp_returns with (P := fun _ c' => window_ok c' /\ m_logDestroyed (cl_ui c') = false /\
    (idle_client c' \/ active_client true c' /\ m_isStarting (cl_ui c') = true)).
  - unfold StartVPN_rest. apply wp_bind, wp_get. rewrite Ec.
    eapply wp_returns; [apply core_start_wp; try assumption; eapply wk_config; eassumption|].
    intros [|] c' (Hw' & [l El] & Ha).
    + apply wp_modify. exists tt. split; [reflexivity|]. destruct Hw' as [H1 H2 H3 H4]. split; [constructor; assumption|].
      cbn. rewrite El. auto.
    + apply add_log_wp; [rewrite El; exact Hd|apply Hw'|]. intros l' Hb. split; [apply window_ok_log; assumption|].
      cbn. rewrite El. split; [exact Hd|]. left. apply idle_log, Ha.
  - intros [] c' (Hw' & Hd' & [Hi'|[Ha Hst]]); [apply ready_ok; assumption|].
    apply wp_modify. exists tt. split; [reflexivity|]. destruct Hw' as [H1 H2 H3 H4]. constructor; [constructor; assumption|].
    split; [exact Hd'|]. split; [right; exact Ha|]. unfold ui_busy. cbn. rewrite Hst, orb_true_r. discriminate.
Qed.

Lemma stop_rest_then (rest : M C unit) Q c :
  window_ok c -> idle_client c -> m_logDestroyed (cl_ui c) = false ->
  (forall c', window_ok c' -> idle_client c' -> m_logDestroyed (cl_ui c') = false -> wp rest Q c') ->
  wp (bind StopVPN_rest (fun _ => rest)) Q c.
Proof.
  intros Hw Hi Hd HQ. eapply wp_returns with (P := fun _ c' => window_ok c' /\ idle_client c' /\ m_logDestroyed (cl_ui c') = false).
  2:{ intros [] c' (H1 & H2 & H3). auto. }
  unfold StopVPN_rest. apply wp_bind, wp_modify, wp_bind, wp_get. destruct Hw, Hi.
  assert (Hlog : forall line, wp (AddLog line false) (returns (fun _ c' => window_ok c' /\ idle_client c' /\ m_logDestroyed (cl_ui c') = false))
    (mkClient (cl_core c) (set_ui_flags false (m_isReconnecting (cl_ui c)) false (cl_ui c)) (cl_runtime c) (cl_telling c)
       (cl_net c) (cl_before c) (cl_full c) (cl_place c) (cl_broken c) (cl_late c))).
  { intros line. apply add_log_wp; [exact Hd|assumption|]. intros l Hb. split; [constructor; assumption|].
    split; [constructor; assumption|exact Hd]. }
  destruct (match m_clientConfig _ with Some _ => _ | None => _ end); apply Hlog.
Qed.

Lemma rest_unblock tls c :
  window_ok c -> idle_client c -> rest_ready ToUnblock c -> wp (rest_of ToUnblock tls) (returns (fun _ => core_ok)) c.
Proof.
  intros [Hb Hlt Hl Hcf] [[Hn Ht] Hv Hs] Hd. cbn [rest_of]. cbn in Hd.
  eapply wp_returns with (P := fun _ c' => window_ok c' /\ idle_client c' /\ m_logDestroyed (cl_ui c') = false).
  2:{ intros [] c' (H1 & H2 & H3). apply ready_ok; assumption. }
  assert (Hlog : forall line isError n, wp (AddLog line isError)
    (returns (fun _ c' => window_ok c' /\ idle_client c' /\ m_logDestroyed (cl_ui c') = false))
    (mkClient (cl_core c) (cl_ui c) None [] n n false (cl_place c) false late)).
  { intros line isError n. apply add_log_wp; [exact Hd|exact Hl|]. intros l Hb'.
    split; [constructor; [reflexivity|reflexivity|exact Hb'|exact Hcf]|].
    split; [constructor; [split; reflexivity|exact Hv|apply home_first; reflexivity]|exact Hd]. }
  unfold Unblock_rest. apply wp_try, wp_bind. unfold wp at 1, on_backend.
  destruct (backend_disable_kill_switch (cl_net c)) as [[[]|e] n]; cbn [fst snd]; rewrite Hn, Ht, Hb, Hlt; cbn [orb].
  - apply wp_bind, wp_modify. eapply wp_mono; [apply Hlog|]. intros r c' (a & -> & H). exists a. auto.
  - apply wp_bind, wp_modify. apply Hlog.
Qed.

(** *** Stop *)

Lemma heard_owned c : vc_runtime_ (heard c) = vc_runtime_ (cl_core c).
Proof. apply said_keeps. Qed.

(** Where there may be a runtime, [Stop] goes on to wait for it. *)
Lemma core_stop_wp k rest c :
  window_ok c -> idle_client c \/ active_client true c -> rest_ready k c ->
  (idle_client c -> wp rest (returns (fun _ => core_ok)) c) ->
  wp (Stop k rest) (returns (fun _ => core_ok)) c.
Proof.
  intros [] Ha Hk Hrest. unfold Stop. apply wp_bind, wp_get. destruct Ha as [Hi|(w & Ew & Hs & Hw & Hf & _)].
  - destruct (ic_core _ Hi) as (H1 & H2 & H3 & H4). rewrite H1. apply wp_bind, wp_modify. specialize (Hrest Hi).
    destruct c as [[] u w ts n b f p k0 l]. cbn in *. subst. exact Hrest.
  - destruct Hf as [Ho Hc Hr He Hn]. rewrite <- heard_owned, Ho. apply wp_bind, wp_modify, wp_modify. exists tt. split; [reflexivity|].
    constructor; [constructor; assumption|]. unfold place_ok. cbn [cl_place]. split; [|destruct k; exact Hk].
    exists w. split; [exact Ew|]. split; [exact Hs|]. split; [exact Hw|]. unfold heard. cbn [cl_telling cl_core].
    rewrite said_release. split; [constructor; assumption || reflexivity|discriminate].
Qed.

Lemma destroy_members_wp c :
  window_ok c -> idle_client c \/ active_client true c -> calm c ->
  wp destroy_members (returns (fun _ => core_ok)) c.
Proof.
  intros [] Ha Hq. unfold destroy_members. apply wp_bind, wp_modify. apply core_stop_wp.
  - constructor; [assumption|assumption|cbn; unfold zlen, MAX_LOG_LINES; cbn; lia|assumption].
  - destruct Ha as [[]|Ha]; [left; constructor; assumption|right; exact Ha].
  - split; [reflexivity|exact Hq].
  - intros Hi. apply closed_ok; [|exact Hi]. constructor; [assumption|assumption|cbn; unfold zlen, MAX_LOG_LINES; cbn; lia|assumption].
Qed.

Lemma rest_wp k tls c :
  window_ok c -> idle_client c -> rest_ready k c -> wp (rest_of k tls) (returns (fun _ => core_ok)) c.
Proof using PL OL.
  intros Hw Hi Hk. destruct k.
  - apply rest_start; assumption.
  - apply stop_rest_then; try assumption. intros c' H1 H2 H3. apply ready_ok; assumption.
  - apply rest_unblock; assumption.
  - apply stop_rest_then; try assumption. intros c' H1 H2 H3. apply destroy_members_wp; auto using idle_calm.
  - apply closed_ok; assumption.
Qed.

(** *** The steps *)

Lemma active_fun owned c w :
  active_client owned c -> cl_runtime c = Some w ->
  sound (cl_before c) w /\ wants_full_tunnel w = cl_full c /\ following owned w (heard c) /\
  (owned = true -> latest w (heard c)).
Proof. intros (w' & E & H) E'. rewrite E in E'. injection E' as <-. exact H. Qed.
Lemma idle_none c w : idle_client c -> cl_runtime c <> Some w.
Proof. intros [[-> _] _ _]. discriminate. Qed.
(** When the client object says that the runtime has ended, it has. *)
Lemma calm_quiet owned c : idle_client c \/ active_client owned c -> calm c -> quiet_client c.
Proof.
  intros [Hi|(w & Ew & _ & _ & Hf & _)] Hc; [apply idle_quiet, Hi|]. unfold quiet_client. rewrite Ew.
  pose proof (fo_running _ _ _ Hf) as Hr. unfold heard in Hr. rewrite said_calm in Hr by exact Hc.
  destruct (rt_finished w); [reflexivity|discriminate].
Qed.
Lemma rest_ready_open k c : rest_ready k c -> k <> ToEnd -> m_logDestroyed (cl_ui c) = false.
Proof. destruct k; cbn; tauto. Qed.

(** The runtime moves on; what it tells will be heard. *)
Lemma thread_active owned c w r w' :
  active_client owned c -> cl_runtime c = Some w -> thread_step w r w' ->
  r = Ok tt /\ tells w w' /\ active_client owned (runtime_moved w w' c).
Proof using PL.
  intros Ha Ew Hstep. destruct (active_fun _ _ _ Ha Ew) as (Hs & Hfull & [Ho Hc Hr He _] & Hl).
  pose proof (thread_running _ _ _ _ Hs Hstep) as Hrun. destruct (thread_sound _ _ _ _ Hrun Hstep) as [-> Hs'].
  pose proof (thread_tells _ _ _ Hstep) as Ht. split; [reflexivity|]. split; [exact Ht|]. destruct Ht as ([fs Ee] & _ & Hcfg).
  destruct Hrun as (Hst & _). destruct (sy_running _ _ Hst) as (_ & _ & Hfin & _). rewrite Hfin in Hr, He.
  assert (En : heard (runtime_moved w w' c) = fold_left hear fs (heard c)).
  { unfold heard, runtime_moved, new_tellings. cbn [cl_telling cl_core]. rewrite said_app, Ee, drop_app_length. apply said_events. }
  exists w'. split; [reflexivity|]. split; [exact Hs'|]. split; [unfold wants_full_tunnel in *; rewrite Hcfg; exact Hfull|].
  rewrite En. split; [eapply events_follow; try eassumption; apply (sy_events _ _ Hst)|].
  intros Hown. destruct fs as [|f fs]; [|eapply events_latest; [exact Ee|discriminate]].
  rewrite app_nil_r in Ee. unfold latest. rewrite Ee. exact (Hl Hown).
Qed.

Lemma thread_ok c w r w' :
  core_ok c -> cl_runtime c = Some w -> thread_step w r w' -> r = Ok tt /\ core_ok (runtime_moved w w' c).
Proof using PL.
  intros [Hw Hp] Ew Hstep. assert (Hw' : window_ok (runtime_moved w w' c)) by (destruct Hw; constructor; assumption).
  assert (Hboth : forall owned, active_client owned c -> r = Ok tt /\ tells w w' /\ active_client owned (runtime_moved w w' c))
    by (intros owned Ha; eapply thread_active; eassumption).
  assert (Hready : forall k, rest_ready k c -> rest_ready k (runtime_moved w w' c)) by (intros k Hk; destruct k; exact Hk).
  assert (Hask : tells w w' -> r = Ok tt -> stop_asked c -> ~ rt_finished w = true -> stop_asked (runtime_moved w w' c)).
  { intros (_ & Ht & _) _ Ha Hn. unfold stop_asked in *. rewrite Ew in Ha. cbn. tauto. }
  assert (Hnf : forall owned, active_client owned c -> ~ rt_finished w = true).
  { intros owned Ha. destruct (active_fun _ _ _ Ha Ew) as (Hs & _). destruct (thread_running _ _ _ _ Hs Hstep) as (Hst & _).
    destruct (sy_running _ _ Hst) as (_ & _ & -> & _). discriminate. }
  unfold place_ok in Hp. destruct (cl_place c) as [| | |k|k|k ts|k|] eqn:Epl.
  1: destruct Hp as (Hd & [Hp|Hp] & Hq); [destruct (idle_none _ _ Hp Ew)|].
  2,3: destruct Hp as (Hd & [Hp|Hp]); [destruct (idle_none _ _ Hp Ew)|].
  4: destruct Hp as (Hp & Hk).
  5: destruct Hp as (Hp & Hk & Hne).
  6: destruct Hp as (Hp & Hk & Hne & Ha & Hts).
  7: destruct Hp as (Hp & Hk & Ha).
  8: destruct (idle_none _ _ Hp Ew).
  all: destruct (Hboth _ Hp) as (-> & Ht & Hp'); split; [reflexivity|]; constructor; [exact Hw'|]; unfold place_ok;
    cbn [runtime_moved cl_place]; rewrite Epl; eauto 10.
Qed.

(** What the window's thread tells of [stop] changes nothing that is not written
    again when the runtime ends. *)
Lemma said_stopping t ts v :
  stopping_telling t ->
  vc_running_ (said ts (say v t)) = vc_running_ (said ts v) /\ vc_last_error_ (said ts (say v t)) = vc_last_error_ (said ts v) /\
  (vc_connected_ (said ts v) = false -> vc_connected_ (said ts (say v t)) = false).
Proof.
  assert (H : forall us v1 v2, vc_running_ v1 = vc_running_ v2 -> vc_last_error_ v1 = vc_last_error_ v2 ->
    (vc_connected_ v2 = false -> vc_connected_ v1 = false) ->
    vc_running_ (said us v1) = vc_running_ (said us v2) /\ vc_last_error_ (said us v1) = vc_last_error_ (said us v2) /\
    (vc_connected_ (said us v2) = false -> vc_connected_ (said us v1) = false)).
  { induction us as [|u us IH]; intros v1 v2 H1 H2 H3; [auto|]. rewrite !said_cons. apply IH; destruct u; cbn; auto. }
  intros Ht. apply H; destruct t; cbn in *; subst; auto; contradiction.
Qed.
Lemma following_stopping w t ts v :
  stopping_telling t -> following false w (said ts v) -> following false w (said ts (say v t)).
Proof.
  intros Ht [Ho Hc Hr He Hn]. destruct (said_stopping t ts v Ht) as (E1 & E2 & E3).
  destruct (said_keeps ts (say v t)) as [K1 K2]. destruct (said_keeps ts v) as [K3 K4].
  assert (Ek : vc_runtime_ (say v t) = vc_runtime_ v /\ vc_log_callback_ (say v t) = vc_log_callback_ v) by (destruct t; auto).
  destruct Ek. constructor; [congruence|congruence|congruence|congruence|auto].
Qed.

Lemma destroy_runtime_eq base c w :
  cl_runtime c = Some w -> finished_ok base w -> cl_broken c = false ->
  destroy_runtime c = (Ok tt, mkClient (cl_core c) (cl_ui c) None (cl_telling c) (backend_destroy (rt_net w)) (cl_before c)
                                (cl_full c) (cl_place c) false (cl_late c)).
Proof.
  intros Ew Hf Hb. unfold destroy_runtime, bind at 1, get. rewrite Ew.
  assert (Hr : stop_returns_early w = true)
    by (unfold stop_returns_early; destruct (fi_flags _ _ Hf) as (_ & -> & _); apply orb_true_r).
  unfold bind at 1. erewrite on_runtime_silent; [|exact Ew|rewrite stop_test_eq, Hr; reflexivity|reflexivity].
  rewrite Hr. unfold bind, ret, modify. cbn [with_runtime cl_runtime cl_broken]. rewrite Hb. destruct (fi_released _ _ Hf) as (_ & -> & _). reflexivity.
Qed.

Lemma goto_ok place c :
  window_ok c -> place_ok (with_place place c) -> wp (goto place) (returns (fun _ => core_ok)) c.
Proof.
  intros [] Hp. apply wp_modify. exists tt. split; [reflexivity|]. constructor; [constructor; assumption|exact Hp].
Qed.

(** [stop] asks the runtime to stop, and tells so. *)
Lemma stop_call_ok tls k c :
  core_ok c -> cl_place c = UiStopCall k -> wp (continue_stop tls) (returns (fun _ => core_ok)) c.
Proof using PL.
  intros [Hw Hp] Epl. unfold continue_stop. apply wp_bind, wp_get. unfold place_ok in Hp. rewrite Epl in *.
  destruct Hp as [(w & Ew & Hs & Hfull & [Ho Hc Hr He Hn] & _) [Hk Hne]]. destruct (sound_stop _ _ Hs) as (w' & Est & Hs').
  rewrite Ew, Est.
  assert (E : rt_finished w' = rt_finished w /\ rt_failure_message w' = rt_failure_message w /\ rt_config w' = rt_config w /\
    rt_stop_requested w' = true /\ rt_events w' = rt_events w ++ [(Stopping, "disconnect requested")]).
  { replace w' with (stop w).2 by (rewrite Est; reflexivity). repeat split. }
  destruct E as (E1 & E2 & E3 & E4 & E5).
  apply wp_bind, wp_modify, wp_bind, wp_modify, wp_lift. exists tt. split; [reflexivity|].
  destruct Hw. constructor; [constructor; assumption|]. unfold place_ok. cbn [cl_place].
  split; [|split; [destruct k; exact Hk|split; [exact Hne|split]]].
  - exists w'. split; [reflexivity|]. split; [exact Hs'|]. split; [unfold wants_full_tunnel in *; rewrite E3; exact Hfull|].
    split; [|discriminate]. constructor; rewrite ?E1, ?E2; assumption.
  - right. exact E4.
  - unfold new_tellings. rewrite E5, drop_app_length. cbn. repeat constructor.
Qed.

Lemma stop_tell_ok tls k ts c :
  core_ok c -> cl_place c = UiStopTell k ts -> wp (continue_stop tls) (returns (fun _ => core_ok)) c.
Proof.
  intros [Hw Hp] Epl. unfold continue_stop. apply wp_bind, wp_get. unfold place_ok in Hp. rewrite Epl in *.
  destruct Hp as (Ha & Hk & Hne & Hask & Hts). destruct ts as [|t ts].
  { apply goto_ok; [exact Hw|]. unfold place_ok. cbn [with_place cl_place]. split; [exact Ha|]. split; [destruct k; exact Hk|exact Hask]. }
  apply Forall_cons in Hts as [Ht Hts]. apply wp_returns with (P := fun _ c1 => exists l, zlen l <= MAX_LOG_LINES /\
    c1 = with_log l (with_core (say (cl_core c) t) c)).
  { apply tell_wp; [exact (rest_ready_open k c Hk Hne)|apply Hw|eauto]. }
  intros [] c1 (l & Hl & ->). apply goto_ok; [destruct Hw; constructor; assumption|].
  unfold place_ok. cbn [with_place cl_place]. split; [|split; [destruct k; try exact Hk; contradiction|auto]].
  destruct Ha as (w & Ew & Hs & Hfull & Hf & _). exists w. split; [exact Ew|]. split; [exact Hs|]. split; [exact Hfull|].
  split; [|discriminate]. apply (following_stopping w t (cl_telling c) (cl_core c) Ht Hf).
Qed.

Lemma sound_early base (w : ClientRuntime N) : sound base w -> stop_returns_early w = rt_finished w.
Proof.
  unfold stop_returns_early. intros [Hf|(Hst & _)].
  - destruct (fi_flags _ _ Hf) as (_ & -> & _). apply orb_true_r.
  - destruct (sy_running _ _ Hst) as (-> & _ & -> & _). reflexivity.
Qed.

Lemma stop_test_ok tls k c :
  core_ok c -> cl_place c = UiStopTest k -> wp (continue_stop tls) (returns (fun _ => core_ok)) c.
Proof.
  intros [Hw Hp] Epl. unfold continue_stop. apply wp_bind, wp_get. unfold place_ok in Hp. rewrite Epl in *.
  destruct Hp as [(w & Ew & Hs & Hfull & Hf & _) Hk]. rewrite Ew. apply wp_bind. unfold wp at 1.
  erewrite on_runtime_silent; [|exact Ew|apply stop_test_eq|destruct (stop_returns_early w); reflexivity]. cbn [fst snd].
  pose proof (sound_test _ _ Hs) as Hs'. pose proof (sound_early _ _ Hs) as Er.
  set (w' := if stop_returns_early w then w else ClientRuntime.with_stopping true w) in *.
  assert (Ha : active_client false (with_place (if stop_returns_early w then UiStopWait k else UiStopCall k) (with_runtime w' c))).
  { exists w'. split; [reflexivity|]. split; [exact Hs'|].
    split; [subst w'; destruct (stop_returns_early w); exact Hfull|]. split; [|discriminate].
    subst w'. destruct Hf. destruct (stop_returns_early w); constructor; assumption. }
  apply goto_ok; [destruct Hw; constructor; assumption|]. unfold place_ok. cbn [with_place cl_place].
  destruct (stop_returns_early w).
  - split; [exact Ha|]. split; [destruct k; exact Hk|]. left. symmetry. exact Er.
  - split; [exact Ha|]. split; [destruct k; exact Hk|]. intros ->. destruct Hk as [_ Hcalm].
    assert (Hq : quiet_client c) by (apply (calm_quiet false); [right; exists w; split; [exact Ew|]; split; [exact Hs|]; split; [exact Hfull|]; split; [exact Hf|discriminate]|exact Hcalm]).
    unfold quiet_client in Hq. rewrite Ew in Hq. congruence.
Qed.

Lemma continue_stop_ok tls c :
  core_ok c -> ui_enabled (ActStop tls) c = true -> wp (continue_stop tls) (returns (fun _ => core_ok)) c.
Proof using PL OL.
  intros Hc He. pose proof Hc as [Hw Hp]. unfold ui_enabled in He.
  destruct (cl_place c) as [| | |k|k|k ts|k|] eqn:Epl; try discriminate.
  - eapply stop_test_ok; eassumption.
  - eapply stop_call_ok; eassumption.
  - eapply stop_tell_ok; eassumption.
  - unfold continue_stop. apply wp_bind, wp_get. unfold place_ok in Hp. rewrite Epl in *.
    destruct Hp as [(w & Ew & Hs & Hfull & Hf & _) [Hk _]]. rewrite Ew in He. apply andb_true_iff in He as [He Ht].
    apply bool_decide_eq_true_1 in Ht. pose proof (sound_waited _ _ Hs He) as Hfin.
    apply wp_bind, wp_modify, wp_bind. unfold wp at 1. erewrite destroy_runtime_eq; [|exact Ew|exact Hfin|apply Hw].
    cbn [fst snd]. destruct Hw. apply rest_wp.
    + constructor; [reflexivity|assumption..].
    + constructor; [split; [reflexivity|exact Ht]| |].
      * cbn. rewrite <- heard_owned, (fo_owned _ _ _ Hf). auto.
      * cbn. rewrite (destroy_same (rt_net w)), <- Hfull. apply (fi_net _ _ Hfin).
    + destruct k; try exact Hk. split; [apply Hk|reflexivity].
Qed.

(** *** The actions *)

Lemma ok_again c : core_ok c -> wp (ret tt) (returns (fun _ => core_ok)) c.
Proof. intros Hc. apply wp_ret. exists tt. auto. Qed.

(** A change of the window's own members that keeps what matters. *)
Lemma ui_changed u c :
  core_ok c -> cl_place c = UiReady -> m_logDestroyed u = m_logDestroyed (cl_ui c) ->
  m_isConnected u = m_isConnected (cl_ui c) -> m_isStarting u = m_isStarting (cl_ui c) ->
  zlen (m_logLines u) <= MAX_LOG_LINES -> (forall config, m_clientConfig u = Some config -> usable config) ->
  core_ok (mkClient (cl_core c) u (cl_runtime c) (cl_telling c) (cl_net c) (cl_before c) (cl_full c) (cl_place c)
    (cl_broken c) (cl_late c)).
Proof.
  intros [[Hb Hlt _ _] Hp] Epl Ed Ec Es Hl Hcf. unfold place_ok in Hp. rewrite Epl in Hp. destruct Hp as (Hd & Ha & Hq).
  constructor; [constructor; assumption|]. unfold place_ok, ui_busy. cbn. rewrite Epl, Ed, Ec, Es. split; [exact Hd|].
  split; [|exact Hq]. destruct Ha as [[]|Ha]; [left; constructor; assumption|right; exact Ha].
Qed.

Lemma update_ok c : core_ok c -> ui_enabled ActUpdate c = true -> wp Update (returns (fun _ => core_ok)) c.
Proof.
  intros [[Hb Hlt Hl Hcf] Hp] He. unfold Update. apply wp_bind, wp_get. unfold ui_enabled in He. unfold place_ok in Hp.
  destruct (cl_place c) eqn:Epl; try discriminate; [destruct Hp as (Hd & Ha & _)|destruct Hp as (Hd & Ha)..];
    apply wp_bind, wp_modify, goto_ok; try (constructor; assumption); split; try exact Hd.
  1,2: destruct Ha as [[]|Ha]; [left; constructor; assumption|right; exact Ha].
  split; [destruct Ha as [[]|Ha]; [left; constructor; assumption|right; exact Ha]|].
  unfold ui_busy. cbn. intros Hu. apply orb_false_iff in Hu as [Hm Hs]. rewrite Hm, andb_true_r in Hs. exact Hs.
Qed.
End ClientFacts.

Section Windows.
Context {IP : IpLibrary} {IL : IpLibraryLaws IP} {N : Type} {NB : ClientNetworkBackend N} {BL : BackendLaws N}
  {PD : PacketDevice N} {PL : PacketDeviceLaws N} {BO : BackendObject N} {OL : BackendObjectLaws N}.
Context {T : Type} {PT : PropertyTree T} {FS : FileSystem} {Sid : Type} {CF : ClientFiles Sid}.
Abbreviation C := (Client N).
Implicit Types c : C.
Context (late : bool).
Abbreviation window_ok := (window_ok late).
Abbreviation core_ok := (core_ok late).

Lemma import_ok path c :
  core_ok c -> cl_place c = UiReady -> wp (ImportConfig path) (returns (fun _ => core_ok)) c.
Proof using IL.
  intros Hc Epl. pose proof Hc as [[_ _ Hl Hcf] Hp]. unfold place_ok in Hp. rewrite Epl in Hp. destruct Hp as (Hd & _).
  unfold ImportConfig. pose proof (loaded_config path []) as Hload.
  destruct (load_client_config path []) as [[config|e] s]; cbn [fst].
  - destruct Hload as [[Hs _] _]. apply wp_bind, wp_modify.
    eapply wp_returns; [apply add_log_wp with (Q := fun _ => core_ok); [exact Hd|exact Hl|]|].
    + intros l Hb. apply (ui_changed late (set_log l (set_config _ _ _ _ config (cl_ui c))) c Hc Epl); try reflexivity; [exact Hb|].
      intros config' [= <-]. apply sound_usable, Hs.
    + intros [] c' H. apply wp_ret. exists true. auto.
  - eapply wp_returns; [apply add_log_wp with (Q := fun _ => core_ok); [exact Hd|exact Hl|]|].
    + intros l Hb. apply (ui_changed late (set_log l (cl_ui c)) c Hc Epl); auto.
    + intros [] c' H. apply wp_ret. exists false. auto.
Qed.

Lemma ready_action c :
  core_ok c -> cl_place c = UiReady ->
  window_ok c /\ m_logDestroyed (cl_ui c) = false /\ (idle_client c \/ active_client true c) /\
  (ui_busy (cl_ui c) = false -> calm c).
Proof. intros [Hw Hp] Epl. unfold place_ok in Hp. rewrite Epl in Hp. auto. Qed.

Lemma logged_either l c : idle_client c \/ active_client true c -> idle_client (with_log l c) \/ active_client true (with_log l c).
Proof. intros [Hi|Ha]; [left; apply idle_log, Hi|right; exact Ha]. Qed.

Lemma stop_vpn_ok k tls c :
  core_ok c -> cl_place c = UiReady -> k = ToDisconnect \/ k = ToDestroy ->
  wp (StopVPN k tls) (returns (fun _ => core_ok)) c.
Proof using PL OL.
  intros Hc Epl Hk. destruct (ready_action c Hc Epl) as (Hw & Hd & Ha & _). unfold StopVPN. eapply line_then; [exact Hd|exact Hw|].
  intros l Hl. assert (Hr : rest_ready k (with_log l c)) by (destruct Hk as [->| ->]; exact Hd).
  apply core_stop_wp; [apply window_ok_log; assumption|apply logged_either, Ha|exact Hr|].
  intros Hi. apply rest_wp; [apply window_ok_log; assumption|exact Hi|exact Hr].
Qed.

Lemma start_vpn_ok answer tls c :
  core_ok c -> cl_place c = UiReady -> wp (StartVPN answer tls) (returns (fun _ => core_ok)) c.
Proof using PL OL.
  intros Hc Epl. destruct (ready_action c Hc Epl) as (Hw & Hd & Ha & _). unfold StartVPN. apply wp_bind, wp_get.
  apply wp_if; intros _; [apply ok_again, Hc|]. destruct (m_clientConfig (cl_ui c)) as [config|] eqn:Ec.
  - apply wp_if; intros _; [apply ok_again, Hc|]. eapply line_then; [exact Hd|exact Hw|]. intros l Hl.
    assert (Hr : rest_ready ToStart (with_log l c)) by (split; [exact Hd|exists config; exact Ec]).
    apply core_stop_wp; [apply window_ok_log; assumption|apply logged_either, Ha|exact Hr|].
    intros Hi. apply rest_start; [apply window_ok_log; assumption|exact Hi|exact Hr].
  - apply add_log_wp; [exact Hd|apply Hw|]. intros l Hl.
    apply (ui_changed late (set_log l (cl_ui c)) c Hc Epl); try reflexivity; [exact Hl|apply Hw].
Qed.

Lemma ui_ok a c : core_ok c -> ui_enabled a c = true -> wp (ui_run a) (returns (fun _ => core_ok)) c.
Proof using IL PL OL.
  intros Hc He. unfold ui_run. apply wp_bind, wp_get.
  assert (Epl : match a with ActUpdate | ActStop _ => True | _ => cl_place c = UiReady end)
    by (unfold ui_enabled in He; destruct a, (cl_place c); try discriminate; reflexivity || exact I).
  destruct a as [|path|answer tls|tls|answer| |tls|tls].
  - apply update_ok; assumption.
  - apply wp_if; intros _; [|apply ok_again, Hc].
    eapply wp_returns; [apply import_ok; assumption|]. intros b c' H. apply ok_again, H.
  - apply wp_if; intros _; [apply start_vpn_ok; assumption|apply ok_again, Hc].
  - apply wp_if; intros _; [apply stop_vpn_ok; auto|apply ok_again, Hc].
  - apply wp_if; intros _; [|apply ok_again, Hc]. destruct (ready_action c Hc Epl) as (Hw & Hd & Ha & _).
    apply core_stop_wp; [exact Hw|exact Ha|exact Hd|]. intros Hi. apply rest_wp; [exact Hw|exact Hi|exact Hd].
  - apply wp_modify. exists tt. split; [reflexivity|]. apply (ui_changed late (set_log [] (cl_ui c)) c Hc Epl); try reflexivity.
    + unfold zlen, MAX_LOG_LINES. cbn. lia.
    + apply Hc.
  - destruct (ready_action c Hc Epl) as (Hw & Hd & Ha & Hq). apply wp_if; intros Hb; [apply stop_vpn_ok; auto|].
    apply destroy_members_wp; auto.
  - apply continue_stop_ok; assumption.
Qed.

End Windows.

(** *** What the runtime's thread tells *)

Section Telling.
Context {IP : IpLibrary} {IL : IpLibraryLaws IP} {N : Type} {NB : ClientNetworkBackend N} {BL : BackendLaws N}
  {PD : PacketDevice N} {PL : PacketDeviceLaws N} {BO : BackendObject N} {OL : BackendObjectLaws N}.
Context {T : Type} {PT : PropertyTree T} {FS : FileSystem} {Sid : Type} {CF : ClientFiles Sid}.
Abbreviation C := (Client N).
Implicit Types c : C.

(** A client whose thread has told [t]; [b] is whether that was a late line. *)
Definition after_telling t ts l b c : C :=
  mkClient (say (cl_core c) t) (set_log l (cl_ui c)) (cl_runtime c) ts (cl_net c) (cl_before c) (cl_full c) (cl_place c)
    (cl_broken c) (cl_late c || b).

Lemma telling_eq t ts c :
  exists l b, (let* _ := put_telling ts in tell t) c = (Ok tt, after_telling t ts l b c) /\
    (zlen (m_logLines (cl_ui c)) <= MAX_LOG_LINES -> zlen l <= MAX_LOG_LINES) /\
    (b = true -> m_logDestroyed (cl_ui c) = true /\ exists message is_error, t = TellLog message is_error).
Proof.
  assert (Hsilent : forall v, (let* _ := put_telling ts in tell t) c =
      (Ok tt, mkClient v (cl_ui c) (cl_runtime c) ts (cl_net c) (cl_before c) (cl_full c) (cl_place c) (cl_broken c) (cl_late c)) ->
    v = say (cl_core c) t -> exists l b, (let* _ := put_telling ts in tell t) c = (Ok tt, after_telling t ts l b c) /\
      (zlen (m_logLines (cl_ui c)) <= MAX_LOG_LINES -> zlen l <= MAX_LOG_LINES) /\
      (b = true -> m_logDestroyed (cl_ui c) = true /\ exists message is_error, t = TellLog message is_error)).
  { intros v E ->. exists (m_logLines (cl_ui c)), false. rewrite E. split; [|split; [auto|discriminate]].
    unfold after_telling. rewrite orb_false_r. destruct c as [? [] ? ? ? ? ? ? ? ?]. reflexivity. }
  destruct t as [b|b| |message|message is_error]; try (eapply Hsilent; reflexivity).
  assert (Elog : (let* _ := put_telling ts in tell (TellLog message is_error)) c =
    (if vc_log_callback_ (cl_core c) && negb (bool_decide (message = "")) then
       if m_logDestroyed (cl_ui c) then (Ok tt, after_telling (TellLog message is_error) ts (m_logLines (cl_ui c)) true c)
       else (Ok tt, after_telling (TellLog message is_error) ts (add_line message is_error (m_logLines (cl_ui c))) false c)
     else (Ok tt, after_telling (TellLog message is_error) ts (m_logLines (cl_ui c)) false c))).
  { unfold put_telling, modify, bind. cbn [tell]. unfold Log, AddLog, bind, get. cbn [cl_core].
    destruct (_ && _); [cbn [cl_ui]; destruct (m_logDestroyed (cl_ui c))|]; destruct c as [? [] ? ? ? ? ? ? ? k];
      unfold after_telling; cbn; rewrite ?orb_true_r, ?orb_false_r; reflexivity. }
  rewrite Elog. destruct (_ && _); [destruct (m_logDestroyed (cl_ui c))|].
  - eexists _, true. split; [reflexivity|]. split; [auto|eauto].
  - eexists _, false. split; [reflexivity|]. split; [apply add_line_bound|discriminate].
  - eexists _, false. split; [reflexivity|]. split; [auto|discriminate].
Qed.

Lemma say_calm t v : vc_running_ v = false -> vc_running_ (say v t) = false.
Proof. destruct t; cbn; auto. Qed.

(** It keeps what holds of the place, and is late only at the end of a runtime
    that ended by itself. *)
Lemma told_place t ts l b c :
  cl_telling c = t :: ts -> place_ok c -> place_ok (after_telling t ts l b c).
Proof.
  intros Et Hp. set (c' := after_telling t ts l b c).
  assert (Hidle : ~ idle_client c) by (intros [[_ H] _ _]; congruence).
  assert (Eh : heard c' = heard c) by (unfold heard; rewrite Et; reflexivity).
  assert (Ha : forall owned, active_client owned c -> active_client owned c').
  { intros owned (w & H). exists w. rewrite Eh. exact H. }
  assert (Hcalm : calm c -> calm c') by apply say_calm.
  assert (Hk : forall k, rest_ready k c -> rest_ready k c').
  { intros k H. destruct k; try exact H. split; [apply H|apply Hcalm, H]. }
  unfold place_ok in *. change (cl_place c') with (cl_place c).
  destruct (cl_place c) as [| | |k|k|k us|k|]; try solve [intuition].
Qed.
Lemma late_telling late t ts message is_error c :
  core_ok late c -> m_logDestroyed (cl_ui c) = true -> cl_telling c = t :: ts -> t = TellLog message is_error -> late_line c.
Proof.
  intros [_ Hp] Hd Et ->. unfold place_ok in Hp.
  assert (Hidle : ~ idle_client c) by (intros [[_ H] _ _]; congruence).
  assert (Hend : forall k, active_client false c -> rest_ready k c -> late_line c).
  { intros k Ha Hk. assert (Hc : calm c) by (destruct k; cbn in Hk; try apply Hk; intuition congruence).
    split; [exact Hd|]. split; [apply (calm_quiet false c); auto|]. split; [exact Hc|]. eauto. }
  destruct (cl_place c) as [| | |k|k|k us|k|]; try (exfalso; intuition congruence).
  - apply (Hend k); apply Hp.
  - apply (Hend k); apply Hp.
  - apply (Hend k); apply Hp.
  - apply (Hend k); apply Hp.
Qed.

Lemma tell_ok late c t ts r c' :
  core_ok late c -> cl_telling c = t :: ts -> (let* _ := put_telling ts in tell t) c = (r, c') ->
  r = Ok tt /\ exists late', core_ok late' c' /\ (late' = late \/ late_line c).
Proof.
  intros Hc Et E. destruct (telling_eq t ts c) as (l & b & E' & Hl & Hb). rewrite E' in E. injection E as <- <-.
  split; [reflexivity|]. exists (cl_late c || b). split.
  - destruct Hc as [[Hbr Hlt Hlog Hcf] Hp]. constructor; [constructor; auto|]. apply told_place; assumption.
  - destruct b; [right|left; rewrite orb_false_r; apply Hc]. destruct (Hb eq_refl) as (Hd & message & is_error & Em).
    eapply late_telling; eassumption.
Qed.

Lemma core_step_ok late c r c' :
  core_ok late c -> core_step c r c' -> r = Ok tt /\ exists late', core_ok late' c' /\ (late' = late \/ late_line c).
Proof using IL PL OL.
  intros Hc Hstep. destruct Hstep as [c a r c' He E|c w r w' Ew Hstep _|c t ts r c' Et E].
  - pose proof (ui_ok late a c Hc He) as H. apply wp_result with (2 := E) in H as ([] & -> & H). eauto.
  - destruct (thread_ok late c w r w' Hc Ew Hstep) as [-> H]. eauto.
  - eapply tell_ok; eassumption.
Qed.

Lemma new_window_ok n : core_ok false (new_window n).
Proof.
  constructor; [constructor; [reflexivity|reflexivity|cbn; unfold zlen, MAX_LOG_LINES; cbn; lia|discriminate]|].
  split; [reflexivity|]. split; [left; constructor; [auto|auto|apply home_first; reflexivity]|]. intros _. reflexivity.
Qed.
Lemma reachable_core_ok n c : core_reachable n c -> exists late, core_ok late c.
Proof using IL PL OL.
  induction 1 as [|c r c' _ [late IH] Hstep]; [exists false; apply new_window_ok|].
  destruct (core_step_ok _ _ _ _ IH Hstep) as (_ & late' & H & _). eauto.
Qed.
End Telling.

(** ** Properties *)

(** There is no tunnel: no runtime, or one that has ended with everything
    released and the network home. *)
Definition no_tunnel {N} `{BackendLaws N} {PD : PacketDevice N} (c : Client N) : Prop :=
  match cl_runtime c with
  | None => True
  | Some w => rt_finished w = true /\ rt_tunnel w = None /\ rt_packet_thread w = None /\
      home (cl_before c) (cl_full c) (rt_net w)
  end.

(** What the client object knows of the runtime.  What its flags say is what the
    runtime has told: what it is about to tell, [heard] adds. *)
Definition in_step {N} `{BackendLaws N} {PD : PacketDevice N} (c : Client N) : Prop :=
  let v := cl_core c in
  match cl_runtime c with
  | None => cl_telling c = [] /\ home (cl_before c) (cl_full c) (cl_net c) /\
      vc_connected_ v = false /\ vc_reconnecting_ v = false /\ vc_running_ v = false
  | Some w => secured (cl_before c) w /\ wants_full_tunnel w = cl_full c /\
      following (vc_runtime_ v) w (heard c) /\ (vc_runtime_ v = true -> latest w (heard c)) /\
      (vc_running_ v = false -> rt_finished w = true)
  end.

(** The window's thread has something to do; or it waits for the runtime's
    thread, which is telling an event, or has been asked to stop and waits
    itself for an operation of its own. *)
Definition goes_on {N} (c : Client N) : Prop :=
  cl_place c = UiClosed \/ (exists a, ui_enabled a c = true) \/
  exists w, cl_runtime c = Some w /\
    (cl_telling c <> [] \/
     rt_finished w = false /\ rt_stop_requested w = true /\ rt_io_thread w = true /\ attended_to w).

Section Window.
Context {IP : IpLibrary} {IL : IpLibraryLaws IP} {N : Type} {NB : ClientNetworkBackend N} {BL : BackendLaws N}
  {PD : PacketDevice N} {PL : PacketDeviceLaws N} {BO : BackendObject N} {OL : BackendObjectLaws N}.
Context {T : Type} {PT : PropertyTree T} {FS : FileSystem} {Sid : Type} {CF : ClientFiles Sid}.
Abbreviation C := (Client N).
Implicit Types c : C.

Lemma either_in_step owned c : idle_client c \/ active_client owned c -> in_step c.
Proof using PL.
  intros He. pose proof (calm_quiet owned c He) as Hq. unfold in_step.
  destruct He as [[[-> Ht] (_ & Hv) Hn]|(w & Ew & Hs & Hfull & Hf & Hl)]; [auto|].
  unfold quiet_client in Hq. rewrite Ew in *. split; [apply attended_secured; right; exact Hs|]. split; [exact Hfull|].
  pose proof (fo_owned _ _ _ Hf) as Ho. rewrite heard_owned in Ho. rewrite Ho. auto.
Qed.
Lemma ok_either late c : core_ok late c -> exists owned, idle_client c \/ active_client owned c.
Proof.
  intros [_ Hp]. unfold place_ok in Hp. destruct (cl_place c).
  1-3: exists true; tauto. 1-4: exists false; tauto. exists true. auto.
Qed.
Lemma quiet_no_tunnel c : idle_client c \/ active_client true c -> quiet_client c -> no_tunnel c.
Proof.
  unfold no_tunnel, quiet_client. intros [[[-> _] _ _]|(w & -> & Hs & Hfull & _)] Hq; [exact I|].
  destruct Hs as [Hf|(Hs & _)].
  - destruct (fi_released _ _ Hf) as (Ht & Hp & _). split; [exact Hq|]. split; [exact Ht|]. split; [exact Hp|].
    rewrite <- Hfull. apply (fi_net _ _ Hf).
  - destruct (sy_running _ _ Hs) as (_ & _ & Hn & _). congruence.
Qed.
Lemma shown_unconnected u : connection_state u = "未连接" -> ui_busy u = false.
Proof.
  unfold connection_state, ui_busy. destruct (m_isConnected u), (m_isReconnecting u), (m_isStarting u); auto; discriminate.
Qed.
Lemma ok_goes_on late c : core_ok late c -> goes_on c.
Proof.
  intros [_ Hp]. unfold goes_on, place_ok, ui_enabled in *. destruct (cl_place c) as [| | |k|k|k ts|k|]; [right..|auto].
  1-3: left; exists ActUpdate; reflexivity.
  1-3: left; exists (ActStop (Ok tt)); reflexivity.
  destruct Hp as [(w & Ew & Hs & _) [_ Ha]]. rewrite Ew. destruct (cl_telling c) as [|t ts] eqn:Et.
  2:{ right. exists w. split; [reflexivity|]. left. discriminate. }
  destruct (rt_finished w) eqn:Ef.
  { left. exists (ActStop (Ok tt)). unfold wait_returns. rewrite Ef. reflexivity. }
  right. exists w. split; [reflexivity|]. right. unfold stop_asked in Ha. rewrite Ew, Ef in Ha. destruct Ha as [|Ha]; [discriminate|].
  destruct Hs as [Hf|Hr]; [destruct (fi_flags _ _ Hf) as (_ & ? & _); congruence|].
  split; [exact Ef|]. split; [exact Ha|]. split; [|eapply running_attended_to, Hr].
  destruct Hr as (Hst & _). apply (sy_running _ _ Hst).
Qed.

(** C38: the window follows the runtime, and there is never more than one.
    Whatever is clicked and whatever the runtime's threads do in between, no
    exception reaches the message loop, no runtime is made beside another, the
    backend is not called behind the back of one, and the kill switch is taken
    down only when there is none.  With what its thread is still to tell, the
    client object says whether the runtime has ended and with what failure, and,
    until the window stops the runtime, what the runtime's last event says;
    [running_] is not cleared before the end.  Once a runtime has ended or is
    gone the network is home ([home]).  When the window offers to connect, or
    says that it is not connected, there is no tunnel.  Where the window's
    thread cannot go on, the runtime's thread is telling an event, or has been
    asked to stop and an operation of it is pending; that one may take as long
    as the peer likes.  The log keeps at most 1000 lines.  A line is logged
    after the log is gone only when the window was closed while the thread of a
    runtime that had ended by itself was between clearing [running_] and its
    last line: that does happen, as the witness shows. *)
Theorem window_follows_runtime n c r c' :
  core_reachable n c -> core_step c r c' ->
  r = Ok tt /\ cl_broken c' = false /\ in_step c' /\ goes_on c' /\
  (cl_place c' = UiReady -> ui_busy (cl_ui c') = false \/ connection_state (cl_ui c') = "未连接" -> no_tunnel c') /\
  (cl_place c' = UiClosed -> cl_runtime c' = None) /\
  zlen (m_logLines (cl_ui c')) <= 1000 /\
  (cl_late c' = true -> cl_late c = true \/ late_line c).
Proof using IL PL OL.
  intros Hr Hstep. destruct (reachable_core_ok _ _ Hr) as [late Hok].
  destruct (core_step_ok _ _ _ _ Hok Hstep) as (-> & late' & Hc & Hlate). split; [reflexivity|].
  split; [apply Hc|]. destruct (ok_either _ _ Hc) as [owned He]. split; [eapply either_in_step, He|].
  split; [eapply ok_goes_on, Hc|]. split; [|split; [|split; [apply Hc|]]].
  - intros Hp Hb. destruct (ready_action _ _ Hc Hp) as (_ & _ & Ha & Hq). apply quiet_no_tunnel; [exact Ha|].
    apply (calm_quiet true c' Ha), Hq. destruct Hb as [Hb|Hb]; [exact Hb|apply shown_unconnected, Hb].
  - intros Hp. destruct Hc as [_ Hpl]. unfold place_ok in Hpl. rewrite Hp in Hpl. apply Hpl.
  - rewrite (wk_late _ _ (co_window _ _ Hc)), (wk_late _ _ (co_window _ _ Hok)). intros El.
    destruct Hlate as [<-|H]; [left; exact El|right; exact H].
Qed.
End Window.

(** ** Witness: a session from the file to the disconnection *)

#[export] Instance Net_object : BackendObject Net := {
  backend_construct := ret tt;
  backend_destroy n := n;
  backend_disable_kill_switch := ret tt
}.
#[export] Instance Net_object_laws : BackendObjectLaws Net.
Proof. split; intros; reflexivity. Defined.

Module Sample.
#[export] Existing Instance one_address_library.
#[export] Instance one_address_laws : IpLibraryLaws one_address_library.
Proof.
  intros text a scope E. cbn in E. destruct (bool_decide _); [|discriminate]. injection E as <- _. decide_prop.
Defined.
#[export] Instance sample_tree : PropertyTree Tree := sample_trees (sample_json "192.0.2.1" sample_routes).
#[export] Existing Instances sample_directory sample_files.
Abbreviation C := (Client Net).

(** What happens next: an action of the window, an event of the runtime, or
    something that its thread tells. *)
Inductive window_event := WeUi (a : ui_action) | WeRuntime (e : client_event) | WeTell.
Definition window_event_run (e : window_event) (c : C) : outcome unit * C :=
  match e with
  | WeUi a => ui_run a c
  | WeRuntime e =>
      match cl_runtime c with
      | None => (Ok tt, c)
      | Some w => let '(r, w') := client_event_run e w in (r, runtime_moved w w' c)
      end
  | WeTell =>
      match cl_telling c with
      | [] => (Ok tt, c)
      | t :: ts => (let* _ := put_telling ts in tell t) c
      end
  end.
Definition window_event_possible (e : window_event) (c : C) : Prop :=
  match e with
  | WeUi a => ui_enabled a c = true
  | WeRuntime e => thread_event e = true /\ cl_telling c = [] /\ exists w, cl_runtime c = Some w /\ client_event_possible e w
  | WeTell => bool_decide (cl_telling c = []) = false
  end.
Lemma window_possible_step e c :
  window_event_possible e c -> core_step c (window_event_run e c).1 (window_event_run e c).2.
Proof.
  destruct e as [a|e|]; cbn [window_event_possible window_event_run]; intros Hp.
  - eapply cs_ui; [exact Hp|apply surjective_pairing].
  - destruct Hp as (He & Ht & w & Ew & Hp). rewrite Ew. pose proof (possible_thread e w He Hp) as Hstep.
    destruct (client_event_run e w) as [r w']. eapply cs_thread; [exact Ew|exact Hstep|left; exact Ht].
  - destruct (cl_telling c) as [|t ts] eqn:Et; [discriminate|]. eapply cs_tell; [exact Et|apply surjective_pairing].
Qed.
Fixpoint window_run (es : list window_event) (c : C) : C :=
  match es with [] => c | e :: es => window_run es (window_event_run e c).2 end.
Fixpoint window_possible (es : list window_event) (c : C) : Prop :=
  match es with [] => True | e :: es => window_event_possible e c /\ window_possible es (window_event_run e c).2 end.
Lemma window_run_reachable n es c : core_reachable n c -> window_possible es c -> core_reachable n (window_run es c).
Proof.
  revert c. induction es as [|e es IH]; intros c Hr Hp; [exact Hr|]. destruct Hp as [Hp Hps].
  apply IH; [|exact Hps]. eapply cor_step; [exact Hr|apply window_possible_step, Hp].
Qed.

(** An event of the runtime's thread and the [n] things that it tells. *)
Definition with_tellings (n : nat) (e : client_event) : list window_event := WeRuntime e :: repeat WeTell n.
Definition opening : list window_event :=
  [WeUi (ActBrowse "client.json"); WeUi (ActConnect true (Ok tt))] ++
  concat (zip_with with_tellings [3; 3; 0; 0; 0; 0]%nat (take 6 (drop 1 connecting))).
Definition last_of_connecting : list client_event := drop 7 connecting.
Definition connecting_window : list window_event :=
  opening ++ concat (zip_with with_tellings [6; 0; 0]%nat last_of_connecting) ++
  [WeUi ActUpdate; WeUi ActUpdate; WeUi ActUpdate].
Definition connected_window : C := window_run connecting_window (new_window (sample_net 30)).
(** The user disconnects; the runtime closes the tunnel and ends. *)
Definition disconnecting : list window_event :=
  [WeUi (ActDisconnect (Ok tt))] ++ repeat (WeUi (ActStop (Ok tt))) 6 ++
  map WeRuntime [CeIo 1 IoStop (quiet 0); CeIo 1 (IoTunnel 1 (TeStop 0)) (quiet 0);
                 CeCompletion 1 (TeWrite IoOk) (quiet 0); CeCompletion 1 (TeWrite IoOk) (quiet 0)] ++
  repeat WeTell 4.
Definition waiting_window : C := window_run disconnecting connected_window.

(** The network cannot be configured, and the runtime ends by itself.  The window
    is closed when [running_] is cleared, before the last line is logged. *)
Definition closing : list window_event :=
  opening ++ concat (zip_with with_tellings [6]%nat last_of_connecting) ++
  [WeUi ActUpdate; WeUi ActUpdate; WeUi ActUpdate; WeUi (ActClose (Ok tt)); WeUi (ActStop (Ok tt)); WeTell].
Definition closed_window : C := window_run closing (new_window (sample_net 2)).

Ltac possible_window :=
  repeat match goal with
  | |- window_possible (_ :: _) _ => split
  | |- window_possible [] _ => exact I
  | |- window_event_possible (WeUi _) _ => vm_compute; reflexivity
  | |- window_event_possible WeTell _ => vm_compute; reflexivity
  | |- window_event_possible (WeRuntime _) _ =>
      split; [reflexivity|]; split; [vm_compute; reflexivity|]; eexists; split; [vm_compute; reflexivity|]
  | |- client_event_possible _ _ =>
      cbn [client_event_possible possible may_complete task_of is_completion en_receives quiet];
      repeat (split; [solve [vm_compute; auto; intros; discriminate]|])
  | |- (exists t, _) /\ _ => split
  | |- exists t, _ => eexists; split; [vm_compute; reflexivity|]
  | |- _ /\ is_bytes _ => split; [reflexivity|decide_prop]
  | |- Forall _ [] => constructor
  end;
  try solve [vm_compute; eauto | decide_prop].

Ltac window_events :=
  let es := match goal with |- window_possible ?es _ => es end in
  let es' := eval cbv [opening last_of_connecting connecting_window disconnecting closing connecting with_tellings
    concat zip_with repeat app map take drop] in es in change es with es'; possible_window.

Lemma connecting_window_possible : window_possible connecting_window (new_window (sample_net 30)).
Proof. window_events. Qed.
Lemma disconnecting_possible : window_possible disconnecting connected_window.
Proof. window_events. Qed.
Lemma closing_possible : window_possible closing (new_window (sample_net 2)).
Proof. window_events. Qed.
Lemma waiting_reachable : core_reachable (sample_net 30) waiting_window.
Proof.
  apply window_run_reachable, disconnecting_possible. apply window_run_reachable, connecting_window_possible. constructor.
Qed.
Lemma closed_reachable : core_reachable (sample_net 2) closed_window.
Proof. apply window_run_reachable, closing_possible. constructor. Qed.

(** The last step of [Stop] gives the network back as it was.  And a line is
    logged after the log is gone. *)
Lemma window_follows_runtime_witness :
  let c' := (window_event_run (WeUi (ActStop (Ok tt))) waiting_window).2 in
  let late := (window_event_run WeTell closed_window).2 in
  vc_connected_ (cl_core connected_window) = true /\
  cl_place c' = UiReady /\ cl_runtime c' = None /\ net_same (cl_net c') (sample_net 30) /\
  last (m_logLines (cl_ui c')) = Some "VPN 已断开，地址、MTU 和路由已回滚" /\
  cl_late closed_window = false /\ cl_late late = true /\ late_line closed_window /\
  cl_telling closed_window = [TellLog "network configuration failed: injected failure" true].
Proof.
  destruct (window_follows_runtime (sample_net 30) waiting_window _ _ waiting_reachable
    (window_possible_step (WeUi (ActStop (Ok tt))) waiting_window ltac:(vm_compute; reflexivity))) as (_ & _ & Hs & _).
  destruct (window_follows_runtime (sample_net 2) closed_window _ _ closed_reachable
    (window_possible_step WeTell closed_window ltac:(vm_compute; reflexivity))) as (_ & _ & _ & _ & _ & _ & _ & Hl).
  cbv zeta. set (c' := (window_event_run (WeUi (ActStop (Ok tt))) waiting_window).2) in *.
  set (late := (window_event_run WeTell closed_window).2) in *.
  assert (El : cl_late closed_window = false) by (vm_compute; reflexivity).
  split; [vm_compute; reflexivity|]. split; [vm_compute; reflexivity|]. split; [vm_compute; reflexivity|].
  split; [|split; [vm_compute; reflexivity|]].
  - revert Hs. unfold in_step.
    assert (E : cl_runtime c' = None /\ cl_before c' = sample_net 30 /\ cl_full c' = false) by (vm_compute; auto).
    destruct E as (E & Eb & Ef). rewrite E, Eb, Ef. intros (_ & Hn & _).
    change (same (cl_net c') (sample_net 30)). apply home_unguarded, Hn.
  - split; [exact El|]. split; [vm_compute; reflexivity|]. split; [|vm_compute; reflexivity].
    destruct Hl as [Hl|Hl]; [vm_compute; reflexivity|congruence|exact Hl].
Defined.
End Sample.
