(* ===== verification/PrototypeServer.v ===== *)
(** * The prototype server

    Models src/vpn_base/server/src: the earlier server that the makefile of
    vpn_base/server builds.  A client that has passed the TLS handshake sends the
    address of its TUN interface as text; the server marks it in the pool
    (IpPoolManager.cpp), enters the session under it (Server.cpp), and from then
    on writes to that session every packet of the TUN device with that
    destination (Session.cpp).  The handlers run on the threads of one
    [io_context] with no strand: a step is a handler, or a part of one between
    two mutexes, and any thread can take any step that is due.  The set-up of the
    host in [main] (shell commands) is not modelled. *)
From S2P Require Import Prelude Bytes Address.

(** ** Data *)

(** [inet_pton] and [inet_ntop] for [AF_INET], on addresses in host order. *)
Class Inet := {
  inet_pton : string -> option Z;
  inet_ntop : Z -> string
}.

(** [inet_ntop] writes dotted decimal, which [inet_pton] reads. *)
Class InetLaws `{Inet} := {
  inet_ntop_text a : in_u32 a -> inet_ntop a = format_ipv4_address (be32 a);
  inet_pton_text a : in_u32 a -> inet_pton (format_ipv4_address (be32 a)) = Some a
}.

(** [active_] and [client_ip_] of a [Session]. *)
Record Session := mkSession { active_ : bool; client_ip_ : string }.

(** An operation of boost::asio under way on the stream of a session. *)
Inductive operation :=
| Handshaking (session : nat)
| Reading (session : nat)
| Writing (session : nat).

(** What has been posted to the [io_context]: the lambdas of
    [assign_client_ip], [release_client_ip] and [tun_read_loop]. *)
Inductive task :=
| Assign (session : nat)
| Release (session : nat)
| Forward (dest_ip : string) (packet : bytes).

(** Where a thread that runs the [io_context] is: between handlers; in the
    lambda of [assign_client_ip], before the blocking read returns, before it
    takes [session_mutex_], or before it calls [handle_assigned_ip]; or ended by
    an exception. *)
Inductive thread :=
| Idle
| AssignRead (session : nat)
| AssignMap (session : nat) (client_ip : string)
| AssignSet (session : nat) (client_ip : string)
| Ended.

(** The members of [Server] and of [vpn_global::ip_pool].  An entry of
    [sessions_] is a [shared_ptr], [None] for a null one. *)
Record Server := mkServer {
  sessions_ : list (option nat);
  ip_to_session_ : gmap string nat;
  used_ips : gset string
}.

(** The server among its sessions, which are numbered in the order they were
    made, its threads and its TUN device.  [written] and [to_tun], the packets
    handed to the streams of the sessions and to the device, and [claims], the
    addresses that the sessions have sent, are the history. *)
Record World := mkWorld {
  objects : list Session;
  server : Server;
  operations : list operation;
  tasks : list task;
  threads : list thread;
  tun_thread : bool;
  written : list (nat * bytes);
  to_tun : list (nat * bytes);
  claims : list (nat * string)
}.

Definition set_objects f w := mkWorld (f (objects w)) (server w) (operations w) (tasks w) (threads w) (tun_thread w)
  (written w) (to_tun w) (claims w).
Definition set_server f w := mkWorld (objects w) (f (server w)) (operations w) (tasks w) (threads w) (tun_thread w)
  (written w) (to_tun w) (claims w).
Definition set_operations f w := mkWorld (objects w) (server w) (f (operations w)) (tasks w) (threads w) (tun_thread w)
  (written w) (to_tun w) (claims w).
Definition set_tasks f w := mkWorld (objects w) (server w) (operations w) (f (tasks w)) (threads w) (tun_thread w)
  (written w) (to_tun w) (claims w).
Definition set_threads f w := mkWorld (objects w) (server w) (operations w) (tasks w) (f (threads w)) (tun_thread w)
  (written w) (to_tun w) (claims w).
Definition end_tun_thread w := mkWorld (objects w) (server w) (operations w) (tasks w) (threads w) false
  (written w) (to_tun w) (claims w).
Definition add_written x w := mkWorld (objects w) (server w) (operations w) (tasks w) (threads w) (tun_thread w)
  (written w ++ [x]) (to_tun w) (claims w).
Definition add_to_tun x w := mkWorld (objects w) (server w) (operations w) (tasks w) (threads w) (tun_thread w)
  (written w) (to_tun w ++ [x]) (claims w).
Definition add_claim x w := mkWorld (objects w) (server w) (operations w) (tasks w) (threads w) (tun_thread w)
  (written w) (to_tun w) (claims w ++ [x]).

Definition set_sessions f v := mkServer (f (sessions_ v)) (ip_to_session_ v) (used_ips v).
Definition set_ip_to_session f v := mkServer (sessions_ v) (f (ip_to_session_ v)) (used_ips v).
Definition set_used_ips f v := mkServer (sessions_ v) (ip_to_session_ v) (f (used_ips v)).

Definition start (w : nat -> operation) (session : nat) : World -> World := set_operations (fun l => l ++ [w session]).
Definition post (t : task) : World -> World := set_tasks (fun l => l ++ [t]).
Definition at_thread (t : nat) (x : thread) : World -> World := set_threads (fun l => <[t:=x]> l).

(** ** The address pool *)

Section Pool.
Context `{Inet}.

(** [None] where [inet_pton] fails and leaves the address indeterminate. *)
Definition ip_to_uint (ip_str : string) : option Z := inet_pton (c_str ip_str).
Definition uint_to_ip (ip : Z) : string := inet_ntop ip.

Definition IP_POOL_START : string := "10.8.0.2".
Definition IP_POOL_END : string := "10.8.0.254".

Definition mark_ip_used (ip : string) : Server -> Server := set_used_ips (fun used => {[ip]} ∪ used).
Definition release_ip (ip : string) : Server -> Server := set_used_ips (fun used => used ∖ {[ip]}).

(** The loop over the pool; [None] when the fuel runs out. *)
Fixpoint available_loop (fuel : nat) (ip end_ : Z) (used : gset string) : option (outcome string) :=
  match fuel with
  | O => None
  | S fuel =>
      if ip <=? end_ then
        let ip_str := uint_to_ip ip in
        if bool_decide (ip_str ∉ used) then Some (Ok ip_str) else available_loop fuel (u32 (ip + 1)) end_ used
      else Some (Throw (RuntimeError "No available IP in pool"))
  end.

Definition pool_fuel (start end_ : Z) : nat := Z.to_nat (end_ - start + 2).

(** [None] where an end of the pool is no address, or the loop does not end. *)
Definition get_available_ip (start_ip end_ip : string) (used : gset string) : option (outcome string) :=
  start ← ip_to_uint start_ip; end_ ← ip_to_uint end_ip;
  available_loop (pool_fuel start end_) start end_ used.

(** [size_t] arithmetic. *)
Definition get_available_ip_size (used : gset string) : Z := u64 (252 - Z.of_nat (size used)).

(** What [config.json] is written from. *)
Record GeneratedConfig := mkGenerated {
  g_server_ip : string;
  g_server_port : Z;
  g_tun_ip : string;
  g_tun_mask : string;
  g_client_crt : string;
  g_client_key : string;
  g_server_crt : string
}.

Definition read_file (files : string -> option string) (path : string) : outcome string :=
  match files path with
  | Some text => Ok text
  | None => Throw (RuntimeError ("Cannot open file: " +:+ path))
  end.

(** [generate_config_file] up to its handler, which prints the exception. *)
Definition generate_config_file (vm_ip : outcome string) (port : Z) (files : string -> option string)
    (used : gset string) : option (outcome GeneratedConfig) :=
  available ← get_available_ip IP_POOL_START IP_POOL_END used;
  Some (
    let? available_ip := available in
    let? ip := vm_ip in
    let? client_crt := read_file files "client_config/client.crt" in
    let? client_key := read_file files "client_config/client.key" in
    let? server_crt := read_file files "certs/server.crt" in
    Ok (mkGenerated ip port available_ip "24" client_crt client_key server_crt)).
End Pool.

(** ** Sessions *)

Definition is_active (s : nat) (w : World) : bool :=
  match objects w !! s with Some session => active_ session | None => false end.
Definition client_ip (s : nat) (w : World) : string :=
  match objects w !! s with Some session => client_ip_ session | None => "" end.
Definition set_active (s : nat) (b : bool) : World -> World :=
  set_objects (alter (fun session => mkSession b (client_ip_ session)) s).
Definition set_client_ip (s : nat) (ip : string) : World -> World :=
  set_objects (alter (fun session => mkSession (active_ session) ip) s).

(** [stop]; what is under way on the closed socket completes with an error. *)
Definition stop (s : nat) (w : World) : World :=
  if is_active s w then post (Release s) (set_active s false w) else w.

Definition start_reading (s : nat) (w : World) : World := if is_active s w then start Reading s w else w.

Definition async_write (s : nat) (data : bytes) (w : World) : World :=
  if is_active s w then start Writing s (add_written (s, data) w) else w.

Definition handle_assigned_ip (s : nat) (assigned_ip : string) (w : World) : World :=
  start_reading s (set_client_ip s assigned_ip w).

(** The handler of [async_read_some]: [None] is an error. *)
Definition on_read (s : nat) (data : option bytes) (w : World) : World :=
  match data with
  | Some data => if is_active s w then start_reading s (add_to_tun (s, data) w) else stop s w
  | None => stop s w
  end.

Definition on_write (s : nat) (error : bool) (w : World) : World := if error then stop s w else w.

Inductive HandshakeResult := HandshakeOk | HandshakeFailed | PeerGone.

(** The handler of [async_handshake].  [PeerGone]: the handshake succeeded, but
    the socket has no remote endpoint any more, so that printing it throws
    through [io_context::run], which ends the thread [t]. *)
Definition on_handshake (t s : nat) (result : HandshakeResult) (w : World) : World :=
  match result with
  | HandshakeOk => post (Assign s) w
  | HandshakeFailed => set_active s false w
  | PeerGone => at_thread t Ended w
  end.

(** ** The server *)

(** [std::remove] and [sessions_.erase(it)] of one element: what is kept is moved
    to the front, what was moved away from is null, and only the first element
    behind is erased. *)
Definition moved_from (s : nat) (x : option nat) : option nat := if bool_decide (x = Some s) then x else None.
Definition remove_session (s : nat) (l : list (option nat)) : list (option nat) :=
  let kept := base.filter (fun x => x <> Some s) l in
  kept ++ drop 1 (map (moved_from s) (drop (length kept) l)).

(** The lambda of [release_client_ip]. *)
Definition release_client_ip (s : nat) (w : World) : World :=
  let ip := client_ip s w in
  let w :=
    if bool_decide (ip = "") then w
    else set_server (fun v => release_ip ip (set_ip_to_session (delete ip) v)) w in
  set_server (set_sessions (remove_session s)) w.

(** [sizeof(ipv4_header)], and its [dest_ip] in host order. *)
Definition sizeof_ipv4_header : Z := 20.
Definition dest_ip (packet : bytes) : Z := read_u32 (slice packet 16 4).

(** The lambda of [tun_read_loop]. *)
Definition forward (dest : string) (packet : bytes) (w : World) : World :=
  match ip_to_session_ (server w) !! dest with
  | Some s => if is_active s w then async_write s packet w else w
  | None => w
  end.

(** [client_ip.erase(std::remove(..., '\n'), ...)] *)
Fixpoint erase_newlines (s : string) : string :=
  match s with
  | EmptyString => EmptyString
  | String a s => if bool_decide (a = Ascii.ascii_of_nat 10) then erase_newlines s else String a (erase_newlines s)
  end.

Section Server.
Context `{Inet}.

(** The lambda of [assign_client_ip] on the thread [t], from the end of the
    blocking read, whose error is ignored, to the end of [mark_ip_used]. *)
Definition assign_read (t s : nat) (data : string) (w : World) : World :=
  let client_ip := erase_newlines data in
  match inet_pton (c_str client_ip) with
  | None => at_thread t Idle (stop s w)
  | Some _ => at_thread t (AssignMap s client_ip) (set_server (mark_ip_used client_ip) (add_claim (s, client_ip) w))
  end.

(** Under [session_mutex_]. *)
Definition assign_map (t s : nat) (client_ip : string) (w : World) : World :=
  at_thread t (AssignSet s client_ip)
    (set_server (fun v => set_sessions (fun l => l ++ [Some s]) (set_ip_to_session <[client_ip:=s]> v)) w).

Definition assign_set (t s : nat) (client_ip : string) (w : World) : World :=
  at_thread t Idle (handle_assigned_ip s client_ip w).

(** The handler of [async_accept], which accepts again in any case. *)
Definition on_accept (ok : bool) (w : World) : World :=
  if ok then
    let s := length (objects w) in
    start Handshaking s
      (set_server (set_sessions (fun l => l ++ [Some s])) (set_objects (fun l => l ++ [mkSession true ""]) w))
  else w.

(** What [read] on the device gives: bytes, [EAGAIN], or the end of the loop. *)
Inductive TunRead := TunPacket (data : bytes) | TunAgain | TunError.

(** One iteration of [tun_read_loop]. *)
Definition tun_read_loop (r : TunRead) (w : World) : World :=
  match r with
  | TunPacket packet =>
      if zlen packet <? sizeof_ipv4_header then w else post (Forward (uint_to_ip (dest_ip packet)) packet) w
  | TunAgain => w
  | TunError => end_tun_thread w
  end.

(** The loop of [~Server] over its sessions; [None] where it goes through a null
    pointer.  It is followed by [sessions_.clear()] and by the wait for the
    thread of [tun_read_loop], which ends when its [read] returns. *)
Fixpoint stop_all (l : list (option nat)) (w : World) : option World :=
  match l with
  | [] => Some w
  | Some s :: l => stop_all l (stop s w)
  | None :: _ => None
  end.
Definition destroy (w : World) : option World :=
  set_server (set_sessions (fun _ => [])) <$> stop_all (sessions_ (server w)) w.

(** ** Steps *)

(** [t] is the thread that runs a handler; [k] the operation that completes or
    the task that is run. *)
Inductive event :=
| Accept (t : nat) (ok : bool)
| HandshakeDone (t k : nat) (result : HandshakeResult)
| ReadDone (t k : nat) (data : option bytes)
| WriteDone (t k : nat) (error : bool)
| Run (t k : nat)
| Continue (t : nat) (data : string)
| Tun (r : TunRead).

Definition if_idle (t : nat) (w : World) (next : option World) : option World :=
  match threads w !! t with Some Idle => next | _ => None end.
Definition complete (k : nat) : World -> World := set_operations (delete k).
Definition take_task (k : nat) : World -> World := set_tasks (delete k).

(** The read of the claim returns at most 16 characters. *)
Definition ip_buf_size : nat := 16.

Definition run_event (e : event) (w : World) : option World :=
  match e with
  | Accept t ok => if_idle t w (Some (on_accept ok w))
  | HandshakeDone t k result =>
      if_idle t w match operations w !! k with
                  | Some (Handshaking s) => Some (on_handshake t s result (complete k w))
                  | _ => None
                  end
  | ReadDone t k data =>
      if_idle t w match operations w !! k with
                  | Some (Reading s) => Some (on_read s data (complete k w))
                  | _ => None
                  end
  | WriteDone t k error =>
      if_idle t w match operations w !! k with
                  | Some (Writing s) => Some (on_write s error (complete k w))
                  | _ => None
                  end
  | Run t k =>
      if_idle t w match tasks w !! k with
                  | Some (Assign s) => Some (at_thread t (AssignRead s) (take_task k w))
                  | Some (Release s) => Some (release_client_ip s (take_task k w))
                  | Some (Forward dest packet) => Some (forward dest packet (take_task k w))
                  | None => None
                  end
  | Continue t data =>
      match threads w !! t with
      | Some (AssignRead s) => if (String.length data <=? ip_buf_size)%nat then Some (assign_read t s data w) else None
      | Some (AssignMap s ip) => Some (assign_map t s ip w)
      | Some (AssignSet s ip) => Some (assign_set t s ip w)
      | _ => None
      end
  | Tun r => if tun_thread w then Some (tun_read_loop r w) else None
  end.

Fixpoint run (l : list event) (w : World) : option World :=
  match l with
  | [] => Some w
  | e :: l => w ← run_event e w; run l w
  end.

(** After the constructor, with [n] threads in [io_context::run]. *)
Definition initial (n : nat) : World :=
  mkWorld [] (mkServer [] ∅ ∅) [] [] (repeat Idle n) true [] [] [].

Definition reachable (w : World) : Prop := exists n l, run l (initial n) = Some w.
End Server.

(** ** Lists of tokens *)

Lemma omap_delete_perm {A B} (f : A -> option B) l k x :
  l !! k = Some x -> omap f l ≡ₚ option_list (f x) ++ omap f (delete k l).
Proof.
  intros Hk. rewrite (delete_Permutation l k x Hk) at 1. cbn [omap list_omap].
  destruct (f x); reflexivity.
Qed.

Lemma omap_insert_perm {A B} (f : A -> option B) l k x y :
  l !! k = Some x -> option_list (f x) ++ omap f (<[k:=y]> l) ≡ₚ option_list (f y) ++ omap f l.
Proof.
  intros Hk. rewrite (insert_take_drop l k y) by eauto using lookup_lt_Some.
  rewrite <- (take_drop_middle l k x Hk) at 3. rewrite !omap_app. cbn [omap list_omap].
  destruct (f x), (f y); cbn [option_list app]; solve_Permutation.
Qed.

Lemma omap_snoc {A B} (f : A -> option B) l x : omap f (l ++ [x]) = omap f l ++ option_list (f x).
Proof. rewrite omap_app. cbn [omap list_omap]. destruct (f x); reflexivity. Qed.

(** ** The invariant *)

Section Invariant.
Context `{Inet}.

(** A session that has not sent its address is in one of these places, and one
    that is being given the address it sent is on a thread. *)
Definition op_token (o : operation) : option nat := match o with Handshaking s => Some s | _ => None end.
Definition task_token (k : task) : option nat := match k with Assign s => Some s | _ => None end.
Definition read_token (x : thread) : option nat := match x with AssignRead s => Some s | _ => None end.
Definition claim_token (x : thread) : option nat :=
  match x with AssignMap s _ | AssignSet s _ => Some s | _ => None end.
Definition unclaimed (w : World) : list nat :=
  omap op_token (operations w) ++ omap task_token (tasks w) ++ omap read_token (threads w).
Definition assigning (w : World) : list nat := omap claim_token (threads w).

Definition claimed (w : World) (s : nat) : Prop := s ∈ (claims w).*1.
Definition op_ok (w : World) (o : operation) : Prop := match o with Reading s => claimed w s | _ => True end.
Definition task_ok (k : task) : Prop :=
  match k with
  | Forward dest packet => sizeof_ipv4_header <= zlen packet /\ dest = uint_to_ip (dest_ip packet)
  | _ => True
  end.
Definition thread_ok (w : World) (x : thread) : Prop :=
  match x with AssignMap s ip | AssignSet s ip => (s, ip) ∈ claims w | _ => True end.

(** An address that [inet_pton] takes, in at most 16 characters and on one
    line. *)
Definition valid_claim (ip : string) : Prop :=
  is_Some (inet_pton (c_str ip)) /\ (String.length ip <= ip_buf_size)%nat /\ erase_newlines ip = ip.

(** The packet may be written to the session: the session has sent the text of
    its destination. *)
Definition addressed (w : World) (x : nat * bytes) : Prop :=
  sizeof_ipv4_header <= zlen x.2 /\ (x.1, uint_to_ip (dest_ip x.2)) ∈ claims w.

Record inv (w : World) : Prop := {
  inv_once : NoDup (unclaimed w ++ (claims w).*1);
  inv_made : Forall (fun s => s < length (objects w))%nat (unclaimed w ++ (claims w).*1);
  inv_assigning : NoDup (assigning w);
  inv_unset : Forall (fun s => client_ip s w = "") (assigning w);
  inv_client_ip s : client_ip s w <> "" -> (s, client_ip s w) ∈ claims w;
  inv_routes ip s : ip_to_session_ (server w) !! ip = Some s -> (s, ip) ∈ claims w;
  inv_claims : Forall (fun x => valid_claim x.2) (claims w);
  inv_operations : Forall (op_ok w) (operations w);
  inv_tasks : Forall task_ok (tasks w);
  inv_threads : Forall (thread_ok w) (threads w);
  inv_written : Forall (addressed w) (written w);
  inv_to_tun : Forall (fun x => claimed w x.1) (to_tun w)
}.

Lemma inv_initial n : inv (initial n).
Proof.
  assert (A : forall f : thread -> option nat, f Idle = None -> omap f (repeat Idle n) = []).
  { intros f Hf. induction n as [|m IH]; [reflexivity|]. cbn [repeat omap list_omap]. rewrite Hf. exact IH. }
  split; unfold unclaimed, assigning; cbn; rewrite ?A by reflexivity; try (constructor; fail).
  - intros s Hs. destruct Hs. reflexivity.
  - intros ip s E. rewrite lookup_empty in E. discriminate.
  - apply Forall_forall. intros x Hx. apply list_elem_of_In, repeat_spec in Hx. subst x. exact I.
Qed.

(** What keeps the invariant because it takes away, or adds something without a
    token. *)
Lemma inv_start x s w : op_token (x s) = None -> op_ok w (x s) -> inv w -> inv (start x s w).
Proof.
  intros Ht Ho Hw. destruct Hw. split; try assumption.
  1, 2: unfold unclaimed, start, set_operations in *; cbn in *; rewrite omap_snoc, Ht, app_nil_r; assumption.
  cbn. apply Forall_app. auto.
Qed.

Lemma inv_post k w : task_token k = None -> task_ok k -> inv w -> inv (post k w).
Proof.
  intros Ht Ho Hw. destruct Hw. split; try assumption.
  1, 2: unfold unclaimed, post, set_tasks in *; cbn in *; rewrite omap_snoc, Ht, app_nil_r; assumption.
  cbn. apply Forall_app. auto.
Qed.

Lemma unclaimed_complete k o w :
  operations w !! k = Some o -> unclaimed w ≡ₚ option_list (op_token o) ++ unclaimed (complete k w).
Proof.
  intros Hk. unfold unclaimed. rewrite (omap_delete_perm op_token _ _ _ Hk), <- app_assoc. reflexivity.
Qed.

Lemma unclaimed_take_task k o w :
  tasks w !! k = Some o -> unclaimed w ≡ₚ option_list (task_token o) ++ unclaimed (take_task k w).
Proof.
  intros Hk. unfold unclaimed. rewrite (omap_delete_perm task_token _ _ _ Hk). cbn. solve_Permutation.
Qed.

Lemma unclaimed_at_thread t x y w :
  threads w !! t = Some x ->
  option_list (read_token x) ++ unclaimed (at_thread t y w) ≡ₚ option_list (read_token y) ++ unclaimed w.
Proof.
  intros Ht. pose proof (omap_insert_perm read_token _ _ _ y Ht) as E.
  unfold unclaimed, at_thread, set_threads. cbn.
  transitivity (omap op_token (operations w) ++ omap task_token (tasks w) ++
    option_list (read_token x) ++ omap read_token (<[t:=y]> (threads w))); [solve_Permutation|].
  rewrite E. solve_Permutation.
Qed.

Lemma assigning_at_thread t x y w :
  threads w !! t = Some x ->
  option_list (claim_token x) ++ assigning (at_thread t y w) ≡ₚ option_list (claim_token y) ++ assigning w.
Proof. intros Ht. exact (omap_insert_perm claim_token _ _ _ y Ht). Qed.

(** The first two fields when tokens [l] are taken away, or one is added. *)
Definition once (w : World) : Prop :=
  NoDup (unclaimed w ++ (claims w).*1) /\
  Forall (fun s => s < length (objects w))%nat (unclaimed w ++ (claims w).*1).

Lemma once_less l u u' c n :
  u ≡ₚ l ++ u' -> NoDup (u ++ c) /\ Forall (fun s => s < n)%nat (u ++ c) ->
  NoDup (u' ++ c) /\ Forall (fun s => s < n)%nat (u' ++ c).
Proof.
  intros E [Hn Hm]. rewrite E, <- app_assoc in Hn, Hm. apply NoDup_app in Hn as (_ & _ & Hn).
  apply Forall_app in Hm as [_ Hm]. auto.
Qed.

Lemma inv_complete k o w : operations w !! k = Some o -> inv w -> inv (complete k w).
Proof.
  intros Hk Hw. destruct Hw.
  destruct (once_less _ _ _ (claims w).*1 _ (unclaimed_complete k o w Hk) (conj inv_once0 inv_made0)).
  split; try assumption. apply Forall_delete. assumption.
Qed.

Lemma inv_take_task k o w : tasks w !! k = Some o -> inv w -> inv (take_task k w).
Proof.
  intros Hk Hw. destruct Hw.
  destruct (once_less _ _ _ (claims w).*1 _ (unclaimed_take_task k o w Hk) (conj inv_once0 inv_made0)).
  split; try assumption. apply Forall_delete. assumption.
Qed.

(** A thread that is done with its handler, or ended by it. *)
Lemma inv_leave t x y w :
  threads w !! t = Some x -> y = Idle \/ y = Ended -> inv w -> inv (at_thread t y w).
Proof.
  intros Ht Hy Hw. destruct Hw.
  assert (E : unclaimed w ≡ₚ option_list (read_token x) ++ unclaimed (at_thread t y w))
    by (rewrite (unclaimed_at_thread t x y w Ht); destruct Hy; subst y; reflexivity).
  assert (A : assigning w ≡ₚ option_list (claim_token x) ++ assigning (at_thread t y w))
    by (rewrite (assigning_at_thread t x y w Ht); destruct Hy; subst y; reflexivity).
  destruct (once_less _ _ _ (claims w).*1 _ E (conj inv_once0 inv_made0)).
  rewrite A in inv_assigning0, inv_unset0. apply NoDup_app in inv_assigning0 as (_ & _ & Ha).
  apply Forall_app in inv_unset0 as [_ Hu].
  split; try assumption. apply Forall_insert; [assumption|]. destruct Hy; subst y; exact I.
Qed.

(** A token that moves on: to a posted [Assign], to a thread that waits for the
    claim, or to the thread that has it. *)
Lemma fresh_session s w : NoDup ([s] ++ unclaimed w ++ (claims w).*1) -> ~ claimed w s.
Proof. intros Hn Hc. cbn in Hn. apply NoDup_cons in Hn as [Hn _]. apply Hn, elem_of_app. right. exact Hc. Qed.

Lemma inv_post_assign s w :
  NoDup (s :: unclaimed w ++ (claims w).*1) -> (s < length (objects w))%nat -> inv w -> inv (post (Assign s) w).
Proof.
  intros Hn Hs Hw. destruct Hw.
  assert (E : unclaimed (post (Assign s) w) ≡ₚ s :: unclaimed w)
    by (unfold unclaimed, post, set_tasks; cbn; rewrite omap_snoc; cbn; solve_Permutation).
  split; try assumption; [change (claims (post _ w)) with (claims w); rewrite E; cbn .. |].
  - exact Hn.
  - constructor; assumption.
  - cbn. apply Forall_app. split; [assumption|]. constructor; [exact I|constructor].
Qed.

Lemma inv_wait_claim t s w :
  threads w !! t = Some Idle -> NoDup (s :: unclaimed w ++ (claims w).*1) -> (s < length (objects w))%nat ->
  inv w -> inv (at_thread t (AssignRead s) w).
Proof.
  intros Ht Hn Hs Hw. destruct Hw.
  pose proof (unclaimed_at_thread t _ (AssignRead s) w Ht) as E. cbn in E.
  pose proof (assigning_at_thread t _ (AssignRead s) w Ht) as A.
  change (assigning (at_thread t (AssignRead s) w) ≡ₚ assigning w) in A.
  split; try assumption; [..|].
  - change (claims (at_thread _ _ w)) with (claims w). rewrite E. exact Hn.
  - change (claims (at_thread _ _ w)) with (claims w). rewrite E. constructor; assumption.
  - rewrite A. assumption.
  - rewrite A. assumption.
  - apply Forall_insert; [assumption|exact I].
Qed.

(** *** Sessions *)

Lemma client_ip_set_active s b s' w : client_ip s' (set_active s b w) = client_ip s' w.
Proof.
  unfold client_ip, set_active, set_objects. cbn. destruct (decide (s = s')) as [<-|Hs].
  - rewrite list_lookup_alter_eq. destruct (objects w !! s); reflexivity.
  - rewrite list_lookup_alter_ne by assumption. reflexivity.
Qed.

Lemma inv_set_active s b w : inv w -> inv (set_active s b w).
Proof.
  intros Hw. destruct Hw. split; try assumption.
  - change (claims (set_active s b w)) with (claims w). cbn [set_active set_objects objects].
    rewrite length_alter. assumption.
  - eapply Forall_impl; [eassumption|]. intros x Hx. cbn. rewrite client_ip_set_active. exact Hx.
  - intros s'. rewrite client_ip_set_active. apply inv_client_ip0.
Qed.

Lemma inv_stop s w : inv w -> inv (stop s w).
Proof.
  intros Hw. unfold stop. destruct (is_active s w); [|exact Hw].
  apply inv_post; [reflexivity|exact I|]. apply inv_set_active, Hw.
Qed.

Lemma inv_start_reading s w : claimed w s -> inv w -> inv (start_reading s w).
Proof.
  intros Hs Hw. unfold start_reading. destruct (is_active s w); [|exact Hw].
  apply inv_start; [reflexivity|exact Hs|exact Hw].
Qed.

Lemma inv_async_write s data w : addressed w (s, data) -> inv w -> inv (async_write s data w).
Proof.
  intros Ha Hw. unfold async_write. destruct (is_active s w); [|exact Hw].
  apply inv_start; [reflexivity|exact I|].
  destruct Hw. split; try assumption. apply Forall_app. split; [assumption|].
  constructor; [exact Ha|constructor].
Qed.

Lemma inv_on_read s data w : claimed w s -> inv w -> inv (on_read s data w).
Proof.
  intros Hs Hw. unfold on_read. destruct data as [data|]; [|apply inv_stop, Hw].
  destruct (is_active s w); [|apply inv_stop, Hw].
  apply inv_start_reading; [exact Hs|].
  destruct Hw. split; try assumption. apply Forall_app. split; [assumption|].
  constructor; [exact Hs|constructor].
Qed.

Lemma inv_on_write s error w : inv w -> inv (on_write s error w).
Proof. intros Hw. destruct error; [apply inv_stop|]; exact Hw. Qed.

Lemma inv_on_handshake t k s result w :
  threads w !! t = Some Idle -> operations w !! k = Some (Handshaking s) -> inv w ->
  inv (on_handshake t s result (complete k w)).
Proof.
  intros Ht Hk Hw. pose proof (inv_complete k _ w Hk Hw) as Hc.
  destruct result; cbn [on_handshake].
  - pose proof (inv_once w Hw) as Hn. pose proof (inv_made w Hw) as Hm.
    rewrite (unclaimed_complete k _ w Hk) in Hn, Hm. cbn in Hm. apply Forall_cons in Hm as [Hm _].
    apply inv_post_assign; assumption.
  - apply inv_set_active, Hc.
  - apply (inv_leave t Idle); [exact Ht|right; reflexivity|exact Hc].
Qed.

(** *** The server *)

Lemma inv_set_sessions f w : inv w -> inv (set_server (set_sessions f) w).
Proof. intros Hw. destruct Hw. split; assumption. Qed.

Lemma inv_on_accept ok w : inv w -> inv (on_accept ok w).
Proof.
  intros Hw. unfold on_accept. destruct ok; [|exact Hw].
  destruct Hw.
  assert (Hn : length (objects w) ∉ unclaimed w ++ (claims w).*1).
  { intros Hx. rewrite Forall_forall in inv_made0. specialize (inv_made0 _ Hx). lia. }
  assert (Hl : forall s, client_ip s w = match (objects w ++ [mkSession true ""]) !! s with
      Some session => client_ip_ session | None => "" end).
  { intros s. unfold client_ip. destruct (objects w !! s) as [o|] eqn:E.
    - rewrite lookup_app_l by eauto using lookup_lt_Some. rewrite E. reflexivity.
    - apply lookup_ge_None in E. rewrite lookup_app_r by exact E.
      destruct (s - length (objects w))%nat; reflexivity. }
  set (w' := start _ _ _).
  assert (E : unclaimed w' ≡ₚ length (objects w) :: unclaimed w)
    by (unfold unclaimed, w'; cbn; rewrite omap_snoc; cbn; solve_Permutation).
  split; try assumption.
  - change (claims w') with (claims w). rewrite E. constructor; assumption.
  - change (claims w') with (claims w). change (objects w') with (objects w ++ [mkSession true ""]).
    rewrite E, length_app. cbn [app length]. constructor; [lia|].
    eapply Forall_impl; [exact inv_made0|]. cbn. lia.
  - eapply Forall_impl; [exact inv_unset0|]. intros s Hs. cbn beta in *. rewrite Hl in Hs. exact Hs.
  - intros s Hs. specialize (inv_client_ip0 s). rewrite Hl in inv_client_ip0. exact (inv_client_ip0 Hs).
  - cbn. apply Forall_app. split; [assumption|]. constructor; [exact I|constructor].
Qed.

Lemma inv_release s w : inv w -> inv (release_client_ip s w).
Proof.
  intros Hw. unfold release_client_ip. apply inv_set_sessions.
  case_bool_decide; [exact Hw|]. destruct Hw. split; try assumption.
  intros ip s' E. cbn in E. apply lookup_delete_Some in E as [_ E]. apply inv_routes0, E.
Qed.

Lemma inv_forward dest packet w : task_ok (Forward dest packet) -> inv w -> inv (forward dest packet w).
Proof.
  intros [Hl Hd] Hw. unfold forward.
  destruct (ip_to_session_ (server w) !! dest) as [s|] eqn:E; [|exact Hw].
  destruct (is_active s w); [|exact Hw].
  apply inv_async_write; [|exact Hw]. split; [exact Hl|]. cbn. rewrite <- Hd. apply inv_routes; assumption.
Qed.

Lemma inv_tun_read_loop r w : inv w -> inv (tun_read_loop r w).
Proof.
  intros Hw. destruct r as [packet| |]; [|exact Hw|destruct Hw; split; assumption].
  cbn [tun_read_loop]. destruct (Z.ltb_spec (zlen packet) sizeof_ipv4_header); [exact Hw|].
  apply inv_post; [reflexivity|split; [assumption|reflexivity]|exact Hw].
Qed.

(** *** The claim of a session *)

Lemma waiting_fresh t s w :
  threads w !! t = Some (AssignRead s) -> inv w ->
  NoDup (s :: unclaimed (at_thread t Idle w) ++ (claims w).*1) /\ (s < length (objects w))%nat.
Proof.
  intros Ht Hw. pose proof (inv_once w Hw) as Hn. pose proof (inv_made w Hw) as Hm.
  pose proof (unclaimed_at_thread t _ Idle w Ht) as E. cbn [read_token option_list app] in E.
  change (s :: unclaimed (at_thread t Idle w) ≡ₚ unclaimed w) in E.
  rewrite <- E in Hn, Hm. cbn in Hm. apply Forall_cons in Hm as [Hm _]. split; assumption.
Qed.

(** A claim is only added to what is known. *)
Lemma inv_add_claim s ip w :
  NoDup (s :: unclaimed w ++ (claims w).*1) -> (s < length (objects w))%nat -> valid_claim ip ->
  inv w -> inv (add_claim (s, ip) w).
Proof.
  intros Hn Hs Hv Hw. destruct Hw.
  assert (Hin : forall x, x ∈ claims w -> x ∈ claims w ++ [(s, ip)]) by (intros x Hx; apply elem_of_app; auto).
  assert (Hc : forall s', claimed w s' -> claimed (add_claim (s, ip) w) s')
    by (intros s' Hx; unfold claimed; cbn; rewrite fmap_app; apply elem_of_app; auto).
  assert (E : unclaimed w ++ (claims w ++ [(s, ip)]).*1 ≡ₚ s :: unclaimed w ++ (claims w).*1)
    by (rewrite fmap_app; cbn; solve_Permutation).
  split; try assumption; cbn [claims add_claim].
  - change (unclaimed (add_claim (s, ip) w)) with (unclaimed w). rewrite E. exact Hn.
  - change (unclaimed (add_claim (s, ip) w)) with (unclaimed w). rewrite E. constructor; assumption.
  - intros s' Hne. apply Hin, inv_client_ip0, Hne.
  - intros ip' s' Hr. apply Hin, inv_routes0, Hr.
  - apply Forall_app. split; [assumption|]. constructor; [exact Hv|constructor].
  - eapply Forall_impl; [eassumption|]. intros [|s'|] Hx; [exact I|apply Hc, Hx|exact I].
  - eapply Forall_impl; [eassumption|]. intros x Hx. destruct x; try exact I; apply Hin, Hx.
  - eapply Forall_impl; [eassumption|]. intros x [Hl Hx]. split; [exact Hl|apply Hin, Hx].
  - eapply Forall_impl; [eassumption|]. intros x Hx. apply Hc, Hx.
Qed.

Lemma inv_set_pool f w : inv w -> inv (set_server (set_used_ips f) w).
Proof. intros Hw. destruct Hw. split; assumption. Qed.

Lemma assigning_claimed s w : inv w -> s ∈ assigning w -> claimed w s.
Proof.
  intros Hw Hs. unfold assigning in Hs. apply list_elem_of_omap in Hs as (x & Hx & Ht).
  pose proof (inv_threads w Hw) as A. rewrite Forall_forall in A. specialize (A x Hx).
  unfold claimed. apply list_elem_of_fmap.
  destruct x; cbn in Ht, A; try discriminate Ht; injection Ht as <-; eexists; (split; [|exact A]); reflexivity.
Qed.

(** The thread has the claim of a session that has no address yet and that no
    other thread is giving one. *)
Lemma inv_have_claim t x s ip w :
  x = AssignMap s ip \/ x = AssignSet s ip ->
  threads w !! t = Some Idle -> s ∉ assigning w -> client_ip s w = "" -> (s, ip) ∈ claims w -> inv w ->
  inv (at_thread t x w).
Proof.
  intros Hx Ht Ha Hc Hin Hw. destruct Hw.
  assert (E : unclaimed (at_thread t x w) ≡ₚ unclaimed w)
    by (destruct Hx; subst x; exact (unclaimed_at_thread t _ _ w Ht)).
  assert (A : assigning (at_thread t x w) ≡ₚ s :: assigning w)
    by (destruct Hx; subst x; exact (assigning_at_thread t _ _ w Ht)).
  split; try assumption.
  - change (claims (at_thread t x w)) with (claims w). rewrite E. assumption.
  - change (claims (at_thread t x w)) with (claims w). rewrite E. assumption.
  - rewrite A. constructor; assumption.
  - rewrite A. constructor; assumption.
  - apply Forall_insert; [assumption|]. destruct Hx; subst x; exact Hin.
Qed.

(** The thread that has the claim lets go of the session. *)
Lemma having_free t x s ip w :
  x = AssignMap s ip \/ x = AssignSet s ip -> threads w !! t = Some x -> inv w ->
  (s ∉ assigning (at_thread t Idle w)) /\ client_ip s w = "" /\ (s, ip) ∈ claims w.
Proof.
  intros Hx Ht Hw.
  assert (A : s :: assigning (at_thread t Idle w) ≡ₚ assigning w)
    by (destruct Hx; subst x; exact (assigning_at_thread t _ Idle w Ht)).
  pose proof (inv_assigning w Hw) as Hn. pose proof (inv_unset w Hw) as Hu. rewrite <- A in Hn, Hu.
  apply NoDup_cons in Hn as [Hn _]. apply Forall_cons in Hu as [Hu _].
  pose proof (Forall_lookup_1 _ _ _ _ (inv_threads w Hw) Ht) as Hin.
  split; [exact Hn|]. split; [exact Hu|]. destruct Hx; subst x; exact Hin.
Qed.

Lemma at_thread_twice t x y w : at_thread t x (at_thread t y w) = at_thread t x w.
Proof. unfold at_thread, set_threads. cbn. rewrite list_insert_insert_eq. reflexivity. Qed.

Lemma at_thread_idle t x y w : threads w !! t = Some x -> threads (at_thread t y w) !! t = Some y.
Proof. intros Ht. apply list_lookup_insert_eq. eauto using lookup_lt_Some. Qed.

Lemma erase_newlines_twice s : erase_newlines (erase_newlines s) = erase_newlines s.
Proof.
  induction s as [|a s IH]; [reflexivity|]. cbn [erase_newlines].
  case_bool_decide as Ha; [exact IH|]. cbn [erase_newlines]. rewrite bool_decide_false by exact Ha. congruence.
Qed.

Lemma erase_newlines_length s : (String.length (erase_newlines s) <= String.length s)%nat.
Proof.
  induction s as [|a s IH]; [cbn; lia|]. cbn [erase_newlines].
  case_bool_decide; cbn [String.length]; lia.
Qed.

Lemma inv_assign_read t s data w :
  threads w !! t = Some (AssignRead s) -> (String.length data <= ip_buf_size)%nat -> inv w ->
  inv (assign_read t s data w).
Proof.
  intros Ht Hd Hw. unfold assign_read.
  destruct (inet_pton (c_str (erase_newlines data))) as [a|] eqn:E.
  2: { pose proof (inv_stop s w Hw) as Hs. refine (inv_leave t (AssignRead s) Idle _ _ (or_introl eq_refl) Hs).
       unfold stop. destruct (is_active s w); exact Ht. }
  destruct (waiting_fresh t s w Ht Hw) as [Hn Hl].
  pose proof (inv_leave t _ Idle w Ht (or_introl eq_refl) Hw) as Hi.
  set (ip := erase_newlines data) in *. rewrite <- (at_thread_twice t _ Idle).
  apply (inv_have_claim t _ s ip); [left; reflexivity|apply (at_thread_idle t _ Idle w Ht)|..].
  - intros Ha. apply (assigning_claimed s (at_thread t Idle w)) in Ha; [|exact Hi].
    apply NoDup_cons in Hn as [Hn _]. apply Hn, elem_of_app. right. exact Ha.
  - change (client_ip s w = ""). destruct (decide (client_ip s w = "")) as [|Hne]; [assumption|].
    apply (inv_client_ip w Hw) in Hne. apply NoDup_cons in Hn as [Hn _].
    destruct Hn. apply elem_of_app. right. apply list_elem_of_fmap. eexists. split; [|exact Hne]. reflexivity.
  - apply elem_of_app. right. apply list_elem_of_singleton. reflexivity.
  - apply (inv_set_pool (fun used => {[ip]} ∪ used) (add_claim (s, ip) (at_thread t Idle w))).
    apply (inv_add_claim s ip (at_thread t Idle w)); [exact Hn|exact Hl| |exact Hi].
    split; [rewrite E; eauto|]. unfold ip. split; [|apply erase_newlines_twice].
    pose proof (erase_newlines_length data). lia.
Qed.

Lemma inv_add_route s ip w :
  (s, ip) ∈ claims w -> inv w ->
  inv (set_server (fun v => set_sessions (fun l => l ++ [Some s]) (set_ip_to_session <[ip:=s]> v)) w).
Proof.
  intros Hin Hw. destruct Hw. split; try assumption.
  intros ip' s' E. cbn in E. apply lookup_insert_Some in E as [[<- <-]|[_ E]]; [exact Hin|apply inv_routes0, E].
Qed.

Lemma inv_assign_map t s ip w :
  threads w !! t = Some (AssignMap s ip) -> inv w -> inv (assign_map t s ip w).
Proof.
  intros Ht Hw. destruct (having_free t _ s ip w (or_introl eq_refl) Ht Hw) as (Ha & Hc & Hin).
  unfold assign_map. rewrite <- (at_thread_twice t _ Idle).
  apply (inv_have_claim t _ s ip); [right; reflexivity|apply (at_thread_idle t _ Idle w Ht)|assumption..|].
  apply (inv_add_route s ip (at_thread t Idle w)); [exact Hin|].
  exact (inv_leave t _ Idle w Ht (or_introl eq_refl) Hw).
Qed.

Lemma client_ip_set_client_ip s ip s' w :
  client_ip s' (set_client_ip s ip w) = client_ip s' w \/ s' = s /\ client_ip s' (set_client_ip s ip w) = ip.
Proof.
  unfold client_ip, set_client_ip, set_objects. cbn. destruct (decide (s = s')) as [<-|Hs].
  - rewrite list_lookup_alter_eq. destruct (objects w !! s); auto.
  - rewrite list_lookup_alter_ne by assumption. auto.
Qed.

Lemma inv_set_client_ip s ip w :
  s ∉ assigning w -> (s, ip) ∈ claims w -> inv w -> inv (set_client_ip s ip w).
Proof.
  intros Ha Hin Hw. destruct Hw. split; try assumption.
  - change (claims (set_client_ip s ip w)) with (claims w). cbn [set_client_ip set_objects objects].
    rewrite length_alter. assumption.
  - apply Forall_forall. intros s' Hs'. rewrite Forall_forall in inv_unset0.
    destruct (client_ip_set_client_ip s ip s' w) as [->|[-> _]]; [apply inv_unset0, Hs'|].
    destruct Ha. exact Hs'.
  - intros s' Hne. destruct (client_ip_set_client_ip s ip s' w) as [E|[-> E]]; rewrite E in *;
      [apply inv_client_ip0, Hne|exact Hin].
Qed.

Lemma inv_assign_set t s ip w :
  threads w !! t = Some (AssignSet s ip) -> inv w -> inv (assign_set t s ip w).
Proof.
  intros Ht Hw. destruct (having_free t _ s ip w (or_intror eq_refl) Ht Hw) as (Ha & Hc & Hin).
  assert (E : assign_set t s ip w = handle_assigned_ip s ip (at_thread t Idle w)).
  { unfold assign_set, handle_assigned_ip, start_reading.
    change (is_active s (set_client_ip s ip (at_thread t Idle w))) with (is_active s (set_client_ip s ip w)).
    destruct (is_active s (set_client_ip s ip w)); reflexivity. }
  rewrite E. apply inv_start_reading.
  - apply list_elem_of_fmap. exists (s, ip). auto.
  - apply inv_set_client_ip; [exact Ha|exact Hin|].
    exact (inv_leave t _ Idle w Ht (or_introl eq_refl) Hw).
Qed.

(** *** Steps *)

Lemma if_idle_some t w next w' : if_idle t w next = Some w' -> threads w !! t = Some Idle /\ next = Some w'.
Proof. unfold if_idle. destruct (threads w !! t) as [[]|]; intros E; try discriminate E. auto. Qed.

Lemma operation_ok k o w : operations w !! k = Some o -> inv w -> op_ok w o.
Proof. intros Hk Hw. exact (Forall_lookup_1 _ _ _ _ (inv_operations w Hw) Hk). Qed.

Lemma inv_run_task t k w w' : run_event (Run t k) w = Some w' -> inv w -> inv w'.
Proof.
  intros E Hw. apply if_idle_some in E as [Ht E]. destruct (tasks w !! k) as [x|] eqn:Hk; [|discriminate E].
  pose proof (inv_take_task k x w Hk Hw) as Hc.
  pose proof (Forall_lookup_1 _ _ _ _ (inv_tasks w Hw) Hk) as Hx.
  destruct x as [s|s|dest packet]; injection E as <-.
  - pose proof (inv_once w Hw) as Hn. pose proof (inv_made w Hw) as Hm.
    rewrite (unclaimed_take_task k _ w Hk) in Hn, Hm. cbn in Hm. apply Forall_cons in Hm as [Hm _].
    apply inv_wait_claim; assumption.
  - apply inv_release, Hc.
  - apply inv_forward; assumption.
Qed.

Lemma inv_run_event e w w' : run_event e w = Some w' -> inv w -> inv w'.
Proof.
  intros E Hw. destruct e as [t ok|t k result|t k data|t k error|t k|t data|r]; [..|apply (inv_run_task t k w w' E Hw)| |];
    cbn [run_event] in E.
  - apply if_idle_some in E as [_ E]. injection E as <-. apply inv_on_accept, Hw.
  - apply if_idle_some in E as [Ht E]. destruct (operations w !! k) as [[s|s|s]|] eqn:Hk; try discriminate E.
    injection E as <-. apply inv_on_handshake; assumption.
  - apply if_idle_some in E as [Ht E]. destruct (operations w !! k) as [[s|s|s]|] eqn:Hk; try discriminate E.
    injection E as <-. apply inv_on_read; [exact (operation_ok k _ w Hk Hw)|apply (inv_complete k _ w Hk Hw)].
  - apply if_idle_some in E as [Ht E]. destruct (operations w !! k) as [[s|s|s]|] eqn:Hk; try discriminate E.
    injection E as <-. apply inv_on_write, (inv_complete k _ w Hk Hw).
  - destruct (threads w !! t) as [[|s|s ip|s ip|]|] eqn:Ht; try discriminate E.
    + destruct (Nat.leb_spec (String.length data) ip_buf_size); [|discriminate E].
      injection E as <-. apply inv_assign_read; assumption.
    + injection E as <-. apply inv_assign_map; assumption.
    + injection E as <-. apply inv_assign_set; assumption.
  - destruct (tun_thread w); [|discriminate E]. injection E as <-. apply inv_tun_read_loop, Hw.
Qed.

Lemma run_ind (P : World -> Prop) :
  (forall e w w', run_event e w = Some w' -> P w -> P w') ->
  forall l w w', run l w = Some w' -> P w -> P w'.
Proof.
  intros Hstep l. induction l as [|e l IH]; intros w w' E Hw; cbn [run] in E; [injection E as <-; exact Hw|].
  destruct (run_event e w) as [w1|] eqn:E1; [|discriminate E]. apply (IH w1 w' E), (Hstep e w w1 E1 Hw).
Qed.

Lemma reachable_inv w : reachable w -> inv w.
Proof. intros (n & l & E). exact (run_ind inv inv_run_event l _ w E (inv_initial n)). Qed.

(** ** The pool and the routes *)

(** No two sessions have sent the same address. *)
Definition exclusive (w : World) : Prop :=
  forall s s' ip, (s, ip) ∈ claims w -> (s', ip) ∈ claims w -> s = s'.

(** An address with a route, or about to have one, is marked in the pool. *)
Definition thread_marked (used : gset string) (x : thread) : Prop :=
  match x with AssignMap s ip => ip ∈ used | _ => True end.
Record marked (w : World) : Prop := {
  marked_routes ip s : ip_to_session_ (server w) !! ip = Some s -> ip ∈ used_ips (server w);
  marked_threads : Forall (thread_marked (used_ips (server w))) (threads w)
}.

(** What touches neither the server nor the threads. *)
Record quiet (w w' : World) : Prop := {
  quiet_server : server w' = server w;
  quiet_threads : threads w' = threads w;
  quiet_claims : claims w' = claims w
}.

Lemma quiet_after w0 w w' :
  server w0 = server w -> threads w0 = threads w -> claims w0 = claims w -> quiet w0 w' -> quiet w w'.
Proof. intros E1 E2 E3 [F1 F2 F3]. split; congruence. Qed.

Lemma quiet_stop s w : quiet w (stop s w).
Proof. unfold stop. destruct (is_active s w); split; reflexivity. Qed.

Lemma quiet_start_reading s w : quiet w (start_reading s w).
Proof. unfold start_reading. destruct (is_active s w); split; reflexivity. Qed.

Lemma quiet_on_read k s data w : quiet w (on_read s data (complete k w)).
Proof.
  unfold on_read. destruct data as [data|]; [destruct (is_active s (complete k w))|].
  - apply (quiet_after (add_to_tun (s, data) (complete k w))); [reflexivity..|apply quiet_start_reading].
  - apply (quiet_after (complete k w)); [reflexivity..|apply quiet_stop].
  - apply (quiet_after (complete k w)); [reflexivity..|apply quiet_stop].
Qed.

Lemma quiet_on_write k s error w : quiet w (on_write s error (complete k w)).
Proof.
  destruct error; [|split; reflexivity].
  apply (quiet_after (complete k w)); [reflexivity..|apply quiet_stop].
Qed.

Lemma quiet_forward k dest packet w : quiet w (forward dest packet (take_task k w)).
Proof.
  unfold forward. destruct (ip_to_session_ _ !! dest) as [s|]; [|split; reflexivity].
  unfold async_write. destruct (is_active s (take_task k w)); split; reflexivity.
Qed.

Lemma quiet_assign_set t s ip w : quiet (at_thread t Idle w) (assign_set t s ip w).
Proof.
  unfold assign_set, handle_assigned_ip.
  destruct (quiet_start_reading s (set_client_ip s ip w)) as [E1 E2 E3].
  split; [exact E1| |exact E3]. cbn. rewrite E2. reflexivity.
Qed.

Lemma marked_quiet w w' : quiet w w' -> marked w -> marked w'.
Proof. intros [E1 E2 E3] [Hr Ht]. split; rewrite ?E1, ?E2; assumption. Qed.

Lemma marked_at_thread t x w : thread_marked (used_ips (server w)) x -> marked w -> marked (at_thread t x w).
Proof. intros Hx [Hr Ht]. split; [exact Hr|]. apply Forall_insert; assumption. Qed.

Lemma marked_release k s w :
  inv w -> exclusive w -> marked w -> marked (release_client_ip s (take_task k w)).
Proof.
  intros Hw He [Hr Ht]. unfold release_client_ip. change (client_ip s (take_task k w)) with (client_ip s w).
  case_bool_decide as Hip; [split; assumption|]. split; cbn.
  - intros ip s' E. apply lookup_delete_Some in E as [Hne E]. apply Hr in E. set_solver.
  - apply Forall_forall. intros x Hx. rewrite Forall_forall in Ht. specialize (Ht x Hx).
    destruct x as [|s'|s' ip|s' ip|]; try exact I. cbn in *.
    apply elem_of_difference. split; [exact Ht|]. intros E. apply elem_of_singleton in E. subst ip.
    apply list_elem_of_lookup in Hx as [t Hx].
    destruct (having_free t _ s' _ w (or_introl eq_refl) Hx Hw) as (_ & Hu & Hin).
    rewrite (He s s' (client_ip s w) (inv_client_ip w Hw s Hip) Hin) in Hip. exact (Hip Hu).
Qed.

Lemma marked_assign_read t s data w : marked w -> marked (assign_read t s data w).
Proof.
  intros Hm. unfold assign_read. destruct (inet_pton (c_str (erase_newlines data))).
  - apply marked_at_thread; [cbn; set_solver|]. destruct Hm as [Hr Ht]. split.
    + intros ip s' E. specialize (Hr ip s' E). cbn. set_solver.
    + cbn. eapply Forall_impl; [exact Ht|]. intros [] Hx; try exact I. cbn in *. set_solver.
  - apply marked_at_thread; [exact I|]. exact (marked_quiet _ _ (quiet_stop s w) Hm).
Qed.

Lemma marked_assign_map t s ip w :
  threads w !! t = Some (AssignMap s ip) -> marked w -> marked (assign_map t s ip w).
Proof.
  intros Ht [Hr Hm]. apply marked_at_thread; [exact I|]. split; [|exact Hm].
  intros ip' s' E. cbn in E. apply lookup_insert_Some in E as [[<- <-]|[_ E]]; [|exact (Hr ip' s' E)].
  exact (Forall_lookup_1 _ _ _ _ Hm Ht).
Qed.

Lemma marked_run_event e w w' :
  run_event e w = Some w' -> inv w -> exclusive w -> marked w -> marked w'.
Proof.
  intros E Hw He Hm. destruct e as [t ok|t k result|t k data|t k error|t k|t data|r]; cbn [run_event] in E.
  - apply if_idle_some in E as [_ E]. injection E as <-. destruct ok; destruct Hm; split; assumption.
  - apply if_idle_some in E as [_ E]. destruct (operations w !! k) as [[s|s|s]|]; try discriminate E.
    injection E as <-. destruct result; [destruct Hm; split; assumption..|].
    apply marked_at_thread; [exact I|]. destruct Hm; split; assumption.
  - apply if_idle_some in E as [_ E]. destruct (operations w !! k) as [[s|s|s]|]; try discriminate E.
    injection E as <-. exact (marked_quiet _ _ (quiet_on_read k s data w) Hm).
  - apply if_idle_some in E as [_ E]. destruct (operations w !! k) as [[s|s|s]|]; try discriminate E.
    injection E as <-. exact (marked_quiet _ _ (quiet_on_write k s error w) Hm).
  - apply if_idle_some in E as [_ E]. destruct (tasks w !! k) as [[s|s|dest packet]|]; try discriminate E;
      injection E as <-.
    + apply marked_at_thread; [exact I|]. destruct Hm; split; assumption.
    + apply marked_release; assumption.
    + exact (marked_quiet _ _ (quiet_forward k dest packet w) Hm).
  - destruct (threads w !! t) as [[|s|s ip|s ip|]|] eqn:Ht; try discriminate E.
    + destruct (String.length data <=? ip_buf_size)%nat; [|discriminate E]. injection E as <-.
      apply marked_assign_read, Hm.
    + injection E as <-. apply marked_assign_map; assumption.
    + injection E as <-. apply (marked_quiet _ _ (quiet_assign_set t s ip w)).
      apply marked_at_thread; [exact I|exact Hm].
  - destruct (tun_thread w); [|discriminate E]. injection E as <-.
    destruct r as [packet| |]; cbn [tun_read_loop]; [destruct (_ <? _)|..]; destruct Hm; split; assumption.
Qed.

(** Claims are not taken back. *)
Lemma claims_grow e w w' x : run_event e w = Some w' -> x ∈ claims w -> x ∈ claims w'.
Proof.
  intros E Hx. destruct e as [t ok|t k result|t k data|t k error|t k|t data|r]; cbn [run_event] in E.
  1-5: apply if_idle_some in E as [_ E].
  - injection E as <-. destruct ok; exact Hx.
  - destruct (operations w !! k) as [[s|s|s]|]; try discriminate E. injection E as <-. destruct result; exact Hx.
  - destruct (operations w !! k) as [[s|s|s]|]; try discriminate E. injection E as <-.
    rewrite (quiet_claims _ _ (quiet_on_read k s data w)). exact Hx.
  - destruct (operations w !! k) as [[s|s|s]|]; try discriminate E. injection E as <-.
    rewrite (quiet_claims _ _ (quiet_on_write k s error w)). exact Hx.
  - destruct (tasks w !! k) as [[s|s|dest packet]|]; try discriminate E; injection E as <-; [exact Hx| |].
    + unfold release_client_ip. case_bool_decide; exact Hx.
    + rewrite (quiet_claims _ _ (quiet_forward k dest packet w)). exact Hx.
  - destruct (threads w !! t) as [[|s|s ip|s ip|]|]; try discriminate E.
    + destruct (String.length data <=? ip_buf_size)%nat; [|discriminate E]. injection E as <-.
      unfold assign_read. destruct (inet_pton _); [apply elem_of_app; left; exact Hx|].
      cbn. rewrite (quiet_claims _ _ (quiet_stop s w)). exact Hx.
    + injection E as <-. exact Hx.
    + injection E as <-. rewrite (quiet_claims _ _ (quiet_assign_set t s ip w)). exact Hx.
  - destruct (tun_thread w); [|discriminate E]. injection E as <-.
    destruct r as [packet| |]; cbn [tun_read_loop]; [destruct (_ <? _)|..]; exact Hx.
Qed.

Lemma reachable_marked w : reachable w -> exclusive w -> marked w.
Proof.
  intros (n & l & E). assert (G : inv w /\ (exclusive w -> marked w)); [|apply G].
  apply (run_ind (fun w => inv w /\ (exclusive w -> marked w))) with (l := l) (w := initial n);
    [|exact E|split; [apply inv_initial|]].
  - intros e w1 w2 E1 [Hi Hm]. split; [exact (inv_run_event e w1 w2 E1 Hi)|].
    intros He. assert (He1 : exclusive w1) by (intros s s' ip H1 H2; eauto using claims_grow).
    exact (marked_run_event e w1 w2 E1 Hi He1 (Hm He1)).
  - intros _. split; [intros ip s Ex; cbn in Ex; rewrite lookup_empty in Ex; discriminate Ex|].
    apply Forall_forall. intros x Hx. apply list_elem_of_In, repeat_spec in Hx. subst x. exact I.
Qed.
End Invariant.

(** ** What the pool offers *)

Section Offer.
Context `{InetLaws}.

(** The lowest address from [start] to [end_] that is not marked, or the
    exception, which means that there is none. *)
Definition offered (start end_ : Z) (used : gset string) (r : outcome string) : Prop :=
  match r with
  | Ok ip_str => exists ip, start <= ip <= end_ /\ ip_str = uint_to_ip ip /\ (ip_str ∉ used) /\
      (forall lower, start <= lower < ip -> uint_to_ip lower ∈ used)
  | Throw e => e = RuntimeError "No available IP in pool" /\ (forall ip, start <= ip <= end_ -> uint_to_ip ip ∈ used)
  end.

Lemma available_loop_offers fuel ip end_ used :
  0 <= ip <= end_ + 1 -> end_ < 2 ^ 32 - 1 -> Z.of_nat fuel >= end_ - ip + 2 ->
  exists r, available_loop fuel ip end_ used = Some r /\ offered ip end_ used r.
Proof.
  revert ip. induction fuel as [|fuel IH]; intros ip Hip He Hf; [lia|]. cbn [available_loop].
  destruct (Z.leb_spec ip end_) as [Hle|Hgt].
  2: { eexists. split; [reflexivity|]. split; [reflexivity|]. intros; lia. }
  case_bool_decide as Hu.
  { eexists. split; [reflexivity|]. exists ip. split; [lia|]. split; [reflexivity|]. split; [exact Hu|]. intros; lia. }
  replace (u32 (ip + 1)) with (ip + 1) by (unfold u32; rewrite Z.mod_small; lia).
  destruct (IH (ip + 1)) as (r & Er & Hr); [lia..|]. exists r. split; [exact Er|].
  destruct r as [ip_str|e]; cbn in *.
  - destruct Hr as (a & Ha & Hs & Hn & Hl). exists a. split; [lia|]. split; [exact Hs|]. split; [exact Hn|].
    intros lower Hlow. destruct (decide (lower = ip)) as [->|]; [exact Hu|apply Hl; lia].
  - destruct Hr as [He' Hr]. split; [exact He'|].
    intros lower Hlow. destruct (decide (lower = ip)) as [->|]; [exact Hu|apply Hr; lia].
Qed.

Definition pool_start : Z := read_u32 [10; 8; 0; 2].
Definition pool_end : Z := read_u32 [10; 8; 0; 254].

Lemma pool_offers used : exists r,
  get_available_ip IP_POOL_START IP_POOL_END used = Some r /\ offered pool_start pool_end used r.
Proof using All.
  assert (Hs : ip_to_uint IP_POOL_START = Some pool_start).
  { change (inet_pton (format_ipv4_address (be32 pool_start)) = Some pool_start). apply inet_pton_text. decide_prop. }
  assert (He : ip_to_uint IP_POOL_END = Some pool_end).
  { change (inet_pton (format_ipv4_address (be32 pool_end)) = Some pool_end). apply inet_pton_text. decide_prop. }
  unfold get_available_ip. rewrite Hs, He. cbn [mbind option_bind].
  apply available_loop_offers; [vm_compute; split; discriminate|reflexivity|vm_compute; discriminate].
Qed.

(** A configuration that is written carries the address the pool offered. *)
Lemma generated_address vm_ip port files used c :
  generate_config_file vm_ip port files used = Some (Ok c) ->
  get_available_ip IP_POOL_START IP_POOL_END used = Some (Ok (g_tun_ip c)).
Proof.
  unfold generate_config_file. destruct (get_available_ip _ _ used) as [[ip|e]|]; cbn; intros E; try discriminate E.
  destruct vm_ip as [vm|]; [|discriminate E]. cbn in E.
  unfold read_file in E. repeat (destruct (files _); [|discriminate E]; cbn in E). injection E as <-. reflexivity.
Qed.

(** The key under which a packet is looked up is the text of its last header
    word. *)
Lemma dest_ip_text packet :
  is_bytes packet -> sizeof_ipv4_header <= zlen packet ->
  uint_to_ip (dest_ip packet) = format_ipv4_address (slice packet 16 4).
Proof using All.
  intros Hb Hl. unfold uint_to_ip, dest_ip. set (d := slice packet 16 4).
  assert (Hd : is_bytes d) by (apply Forall_take, Forall_drop, Hb).
  assert (Hn : zlen d = 4) by (unfold d, slice, zlen, sizeof_ipv4_header in *; rewrite length_take, length_drop; lia).
  clearbody d. explode d Hn. rewrite inet_ntop_text by (apply read_u32_range, Hd).
  rewrite be32_read by exact Hd. reflexivity.
Qed.

Lemma fst_unique {A B} (l : list (A * B)) x y y' : NoDup l.*1 -> (x, y) ∈ l -> (x, y') ∈ l -> y = y'.
Proof.
  intros Hn Hy Hy'. apply list_elem_of_lookup in Hy as [i Hi], Hy' as [j Hj].
  assert (i = j).
  { eapply NoDup_lookup; [exact Hn|..]; rewrite list_lookup_fmap; [rewrite Hi|rewrite Hj]; reflexivity. }
  congruence.
Qed.

(** C40: In every state the prototype server can reach, however its handlers
    interleave on its threads: a packet of the TUN device is written only to a
    session that has itself sent the address the packet goes to, as the address
    of its interface, in a form [inet_pton] accepts; only what such sessions sent
    reaches the TUN device; a session sends one address and every route belongs
    to the session that sent it.  The pool offers the lowest address of
    10.8.0.2 to 10.8.0.254 that is not marked, and fails exactly when there is
    none; and as long as no two sessions send the same address, the one that a
    generated configuration carries is of no session that has a route. *)
Theorem prototype_serves_claims w (Hw : reachable w) :
  (forall s packet, (s, packet) ∈ written w ->
     20 <= zlen packet /\ (is_bytes packet -> (s, format_ipv4_address (slice packet 16 4)) ∈ claims w)) /\
  (forall s data, (s, data) ∈ to_tun w -> exists ip, (s, ip) ∈ claims w) /\
  (forall s ip, (s, ip) ∈ claims w -> valid_claim ip /\ (forall ip', (s, ip') ∈ claims w -> ip' = ip)) /\
  (forall ip s, ip_to_session_ (server w) !! ip = Some s -> (s, ip) ∈ claims w) /\
  (exists r, get_available_ip IP_POOL_START IP_POOL_END (used_ips (server w)) = Some r /\
     offered pool_start pool_end (used_ips (server w)) r) /\
  (exclusive w -> forall vm_ip port files c,
     generate_config_file vm_ip port files (used_ips (server w)) = Some (Ok c) ->
     ip_to_session_ (server w) !! g_tun_ip c = None).
Proof using All.
  pose proof (reachable_inv w Hw) as Hi. repeat apply conj.
  - intros s packet Hx. pose proof (inv_written w Hi) as A. rewrite Forall_forall in A.
    destruct (A _ Hx) as [Hl Hin]. split; [exact Hl|]. intros Hb.
    rewrite <- (dest_ip_text packet Hb Hl). exact Hin.
  - intros s data Hx. pose proof (inv_to_tun w Hi) as A. rewrite Forall_forall in A. specialize (A _ Hx).
    apply list_elem_of_fmap in A as ([s' ip] & E & A). cbn in E. subst s'. eauto.
  - intros s ip Hx. pose proof (inv_claims w Hi) as A. rewrite Forall_forall in A. split; [exact (A _ Hx)|].
    intros ip' Hx'. pose proof (inv_once w Hi) as N. apply NoDup_app in N as (_ & _ & N).
    exact (fst_unique _ _ _ _ N Hx' Hx).
  - exact (inv_routes w Hi).
  - apply pool_offers.
  - intros He vm_ip port files c Hc. apply generated_address in Hc.
    destruct (pool_offers (used_ips (server w))) as (r & Er & Hr). rewrite Hc in Er. injection Er as <-.
    destruct Hr as (ip & _ & _ & Hn & _). apply eq_None_not_Some. intros [s Hs].
    exact (Hn (marked_routes w (reachable_marked w Hw He) _ s Hs)).
Qed.
End Offer.

(** ** Runs *)

Module Sample.

(** [inet_pton] by the parser of the library of addresses. *)
#[export] Instance sample_inet : Inet := {|
  inet_pton s := match parse_ipv4_address s with Ok a => Some (read_u32 a) | Throw _ => None end;
  inet_ntop a := format_ipv4_address (be32 a)
|}.

#[export] Instance sample_laws : InetLaws.
Proof.
  split; [reflexivity|]. intros a Ha.
  change (match parse_ipv4_address (format_ipv4_address (be32 a)) with
          | Ok b => Some (read_u32 b)
          | Throw _ => None
          end = Some a).
  rewrite parse_format_ipv4 by (try reflexivity; apply is_bytes_be32). f_equal.
  rewrite <- (app_nil_r (be32 a)). apply read_be32, Ha.
Defined.

Definition line : string := String (Ascii.ascii_of_nat 10) EmptyString.
(** A packet of 20 bytes to 10.8.0.[n]. *)
Definition packet_to (n : Z) : bytes := repeat 0 16 ++ [10; 8; 0; n].

(** On thread 0: a client connects, passes the handshake and sends [text]. *)
Definition join (k : nat) (text : string) : list event :=
  [Accept 0 true; HandshakeDone 0 k HandshakeOk; Run 0 0; Continue 0 (text +:+ line); Continue 0 ""; Continue 0 ""].
(** A packet arrives on the device and is forwarded. *)
Definition packet (n : Z) : list event := [Tun (TunPacket (packet_to n)); Run 0 0].

Definition outcome_of (l : list event) := run l (initial 2).

(** Two clients, a packet for each and one for nobody, a packet from the second,
    and the second leaves. *)
Definition served_run : list event :=
  join 0 "10.8.0.2" ++ join 1 "10.8.0.3" ++ packet 2 ++ packet 3 ++ packet 9 ++
  [ReadDone 0 1 (Some (packet_to 9)); WriteDone 1 2 true; Run 1 0].
Definition served : World := default (initial 0) (outcome_of served_run).

Example served_effects :
  outcome_of served_run = Some served /\
  written served = [(0%nat, packet_to 2); (1%nat, packet_to 3)] /\ to_tun served = [(1%nat, packet_to 9)] /\
  map_to_list (ip_to_session_ (server served)) = [("10.8.0.2", 0%nat)].
Proof. vm_compute. repeat split. Qed.

Lemma prototype_serves_claims_witness :
  reachable served /\ (0%nat, packet_to 2) ∈ written served /\
  20 <= zlen (packet_to 2) /\ (0%nat, "10.8.0.2") ∈ claims served.
Proof.
  assert (Hr : reachable served) by (exists 2%nat, served_run; vm_compute; reflexivity).
  assert (Hin : (0%nat, packet_to 2) ∈ written served) by (vm_compute; left).
  split; [exact Hr|]. split; [exact Hin|].
  destruct (proj1 (prototype_serves_claims served Hr) 0%nat (packet_to 2) Hin) as [Hl Hc].
  split; [exact Hl|]. apply Hc. decide_prop.
Defined.

(** The second client sends the address of the first, takes over its route, and
    leaves: the first is still connected, but no packet reaches it, and its
    address is offered again. *)
Definition rival_run : list event :=
  join 0 "10.8.0.2" ++ join 1 "10.8.0.2" ++ [ReadDone 0 1 None; Run 0 0] ++ packet 2.
Example rival_takes_route : exists w, outcome_of rival_run = Some w /\
  is_active 0 w = true /\ client_ip 0 w = "10.8.0.2" /\ written w = [] /\
  get_available_ip IP_POOL_START IP_POOL_END (used_ips (server w)) = Some (Ok "10.8.0.2").
Proof. eexists. split; [vm_compute; reflexivity|]. vm_compute. repeat split. Qed.

(** A session is entered in [sessions_] twice and erased once.  When others came
    after it, a null pointer stays behind, through which [~Server] goes. *)
Definition leave_run : list event := join 0 "10.8.0.2" ++ [Accept 0 true; ReadDone 0 0 None; Run 0 0].
Example null_session : exists w, outcome_of leave_run = Some w /\
  sessions_ (server w) = [Some 1%nat; None] /\ destroy w = None.
Proof. eexists. split; [vm_compute; reflexivity|]. vm_compute. repeat split. Qed.

(** Two clients that say nothing after the handshake hold both threads in a
    blocking read: nothing is served until one of them speaks. *)
Definition silent_run : list event :=
  [Accept 0 true; Accept 0 true; HandshakeDone 0 0 HandshakeOk; HandshakeDone 0 0 HandshakeOk; Run 0 0; Run 1 0].
Example silent_clients : exists w, outcome_of silent_run = Some w /\
  threads w = [AssignRead 0; AssignRead 1] /\
  (forall e w', run_event e w = Some w' -> (exists t text, e = Continue t text) \/ exists r, e = Tun r).
Proof.
  eexists. split; [vm_compute; reflexivity|]. split; [reflexivity|].
  intros e w' E. destruct e as [t ok|t k result|t k data|t k error|t k|t data|r]; eauto;
    apply if_idle_some in E as [E _]; destruct t as [|[|t]]; discriminate E.
Qed.

(** The write of a packet fails before [handle_assigned_ip]: the release finds no
    address, and the route and the mark stay. *)
Definition leak_run : list event :=
  [Accept 0 true; HandshakeDone 0 0 HandshakeOk; Run 0 0; Continue 0 "10.8.0.2"; Continue 0 "";
   Tun (TunPacket (packet_to 2)); Run 1 0; WriteDone 1 0 true; Run 1 0; Continue 0 ""].
Example leaked_address : exists w, outcome_of leak_run = Some w /\
  threads w = [Idle; Idle] /\ operations w = [] /\ tasks w = [] /\ is_active 0 w = false /\
  ip_to_session_ (server w) !! "10.8.0.2" = Some 0%nat /\ bool_decide ("10.8.0.2" ∈ used_ips (server w)) = true.
Proof. eexists. split; [vm_compute; reflexivity|]. vm_compute. repeat split. Qed.
(** The pool has 253 addresses, of which the count knows 252. *)
Definition whole_pool : gset string := list_to_set (map (fun n => uint_to_ip (pool_start + Z.of_nat n)) (seq 0 253)).
Example pool_size_wraps :
  get_available_ip_size whole_pool = 2 ^ 64 - 1 /\
  get_available_ip IP_POOL_START IP_POOL_END whole_pool = Some (Throw (RuntimeError "No available IP in pool")).
Proof. vm_compute. split; reflexivity. Qed.
End Sample.
